(* ===== verification/_CoqProject ===== *)
-Q . S2P
Prelude.v
Encoding.v
SentinelList.v
Float64.v
RoutingEngine.v
Msisdn.v
ProviderApi.v
Breaker.v
SealableUrl.v
Schema.v
ApiSchema.v
Errors.v
Sql.v
Db.v
DbLogic.v
DbReads.v
DbRef.v
Discipline.v
RelyGuarantee.v
Commits.v
WorkerRouting.v
DemoData.v
Transactions.v
Claim.v
Dispatch.v
Dlr.v
Jobs.v
Scheduler.v
WebhookClaim.v
Webhook.v
Hooks.v
AuditChain.v
Nonces.v
JobHandlers.v
Expiry.v
Subscribers.v
Cache.v
Rbac.v
Signers.v
Router.v
Send.v
Operators.v
Simulator.v
DeliveryStatus.v
LookupBudget.v
Keys.v
KeyRegistry.v
Console.v
Leadership.v
Adapter.v
MtnProvider.v
OrangeProvider.v
Sns.v
AwsProvider.v
Callbacks.v
TokenDoor.v
Lifecycle.v
Oidc.v
SsoStore.v
Door.v
DoorRef.v
SsoProvider.v
Login.v
SsoDoor.v
OpStores.v
Placeholders.v
Settings.v
Commands.v
