(* ===== verification/Prelude.v ===== *)
(** * vsms: a verification development for the SMS gateway

    vsms accepts messages, picks a route, submits each to a provider, follows
    the delivery receipts that come back, and tells the sender's application
    by webhook.  The state lives in Postgres behind a generated client; the
    work is done by worker roles that poll it (dispatch, jobs, scheduler,
    hooks) and by the API, which authenticates its callers, accepts sends,
    lets operators repair what got stuck, and ingests receipts.  Any number of
    workers run side by side: what keeps them apart is an optimistic version on
    every row, leases with an expiry, and a transition table enforced by
    triggers.  People sign in to the console with a password or through an
    identity provider, machines with their own keys or tokens; a deployment is
    described by one configuration document, and operators' commands prepare it.

    ** Files and what they model

    All paths are under src/backends/crates/ unless they start elsewhere.

    - [Prelude]: text, results, the shared tactics and list lemmas.
    - [Encoding]: sms-encoding (gsm7.rs, segment.rs, normalise.rs,
      translit.rs, lib.rs): the alphabets, the segment count, normalisation
      and transliteration.
    - [SentinelList]: sms-core/src/lib.rs, lists packed in one column
      (sms-core/src/password.rs is in [Commands]).
    - [Float64]: the binary64 operations the router and the dispatcher use.
    - [RoutingEngine]: sms-routing (types.rs, engine.rs).
    - [Msisdn]: sms-msisdn (lib.rs, plan.rs, operator.rs, region.rs).
    - [ProviderApi]: sms-provider (error.rs, types.rs) and
      sms-provider-http/src/submit_status.rs.
    - [Breaker]: sms-worker breaker.rs and throttle.rs.
    - [SealableUrl]: the registration pattern of sms-webhook/src/lib.rs.
    - [Schema], [ApiSchema]: the rows and enums of src/schemas/vsms.cstack the
      workers and the API use, and the guard triggers of
      src/backends/migrations/postgres/0002_bootstrap/up.sql and
      0015_delivery_lookups/up.sql.
    - [Errors]: sms-api/src/errors.rs.
    - [Sql]: the raw statements of sms-api and sms-worker and their rows.
    - [Db]: the calls an asynchronous function awaits, and programs over them.
    - [DbLogic]: what the database client promises ([Backend]), interleaved
      runs ([step], [pool_step]), the weakest precondition [wp] and its
      soundness, uniqueness of accepted writes.
    - [DbReads]: programs that only read, and what a row that stays stored
      forces them to see.
    - [DbRef]: an executable database that satisfies [Backend].
    - [Discipline]: what runs alongside may create, update and delete only
      under a named discipline; invariants of such runs.
    - [RelyGuarantee]: partial correctness of a program beside writers that
      keep to a relation, and its soundness for interleaved runs.
    - [Commits]: what an accepted update leaves in a guarded row.
    - [WorkerRouting]: sms-worker/src/routing.rs.
    - [DemoData]: example rows and an example world.
    - [Transactions]: the laws of a transaction that is applied at once.
    - [Claim], [WebhookClaim]: sms-worker/src/claim.rs; the trait [Claimable]
      is a class, with the contract its clients use as [ClaimableSound].
    - [Dispatch]: sms-worker/src/dispatch.rs.
    - [Dlr]: sms-api/src/dlr.rs.
    - [Jobs]: sms-worker jobs.rs, jobs/error.rs, jobs/expire_stale.rs,
      jobs/purge_retention.rs.
    - [Scheduler]: sms-worker/src/scheduler.rs.
    - [Webhook]: sms-webhook (hmac_v1.rs, lib.rs).
    - [Hooks]: sms-worker/src/hooks.rs.
    - [AuditChain]: sms-api/src/audit_log.rs and sms-worker jobs/anchor_audit.rs.
    - [Nonces]: the nonce store of sms-api/src/envelope.rs and sms-worker
      jobs/sweep_envelope_nonces.rs.
    - [JobHandlers]: sms-worker jobs/reap_outbox.rs, jobs/grey_route_watch.rs
      and the registry of all handlers.
    - [Expiry]: the polls of the dispatch and the jobs role followed call by
      call, for what they may do to a message past its validity.
    - [Subscribers]: sms-api/src/webhooks.rs.
    - [Cache]: sms-api/src/cache.rs.
    - [Rbac]: sms-api rbac.rs, auth.rs, owner_grant.rs, pair_scope.rs,
      hmac_gate.rs, keypair_gate.rs, composition.rs.
    - [Signers]: sms-api signers.rs, bearer.rs and the authentication of
      auth.rs.
    - [Router]: the layers of sms-api/src/router.rs.
    - [Send]: sms-api consent.rs, pepper.rs and the sending half of
      procedures.rs.
    - [Operators]: the operator actions of sms-api/src/procedures.rs: secret
      rotation, mode switch, replay and requeue.
    - [Simulator]: sms-api/src/route_simulator.rs and simulateRoute.
    - [DeliveryStatus], [LookupBudget]: sms-api/src/delivery_status.rs and
      lookupDeliveryStatus; the budget when lookups race.
    - [Keys], [KeyRegistry]: sms-api client_keys.rs, console_keys.rs and the
      provisioning of clients and users in procedures.rs; the registry when
      registrations, pairings and revocations race.
    - [Console]: the console's procedures of procedures.rs: receipts of a
      message, opt-outs, the audit log, the dashboard, worker locks.
    - [Leadership]: sms-worker lease.rs and lib.rs (roles, run_singleton) and
      sms-api worker_roles.rs, as tasks over a lock service.
    - [Adapter]: sms-provider (the trait, capabilities.rs, types.rs) and
      sms-provider-http/src/transport.rs; adapter programs over HTTP exchanges,
      clocks and locked fields, with their own [awp] and its soundness for
      tasks side by side; [SubmitSound], what an adapter owes the dispatcher.
    - [MtnProvider], [OrangeProvider]: sms-provider-mtn, sms-provider-orange-cm
      (lib.rs, token.rs, dlr.rs).
    - [Sns], [AwsProvider]: sms-provider-aws-sms (sns.rs, events.rs; lib.rs,
      sigv4.rs).
    - [Callbacks]: src/backends/apps/sms-gateway/src/dlr.rs, and what the
      adapters give the rest of the system.
    - [TokenDoor]: sms-config/src/auth.rs, sms-auth gate.rs and op.rs (grants),
      and of src/backends/apps/sms-gateway/src: grant_gate.rs,
      token_rate_limit.rs, op.rs (the token route), op_bearer.rs, the realms of
      commands/serve.rs.
    - [Lifecycle]: all roles and API calls side by side.
    - [Oidc], [SsoStore], [SsoProvider], [SsoDoor]: sms-auth/src/sso (config.rs,
      error.rs, id_token.rs, policy.rs; store.rs; provider.rs; flow.rs) and
      src/backends/apps/sms-gateway/src/sso.rs.
    - [Door], [DoorRef]: the programs of handlers that sign people in, over the
      database, HTTP, the broker's fields, the limiter and the authorization
      endpoint, with their own [dwp] and its soundness for handlers side by
      side; an executable world for the examples.
    - [Login]: sms-auth/src/login.rs, and of src/backends/apps/sms-gateway/src:
      console_authorize.rs and login.rs.
    - [OpStores]: sms-auth console_client.rs, lib.rs, op.rs and provision.rs:
      what the OpenID provider keeps.
    - [Placeholders], [Settings]: sms-config (config.rs, retired.rs, error.rs
      on the untyped document; model.rs, op.rs, human_login.rs, provider.rs,
      secret.rs, cli.rs and the rest of config.rs).
    - [Commands]: src/backends/apps/sms-gateway/src/commands
      (rotate_signing_key.rs, seed_console_client.rs, provision_client.rs,
      provision_user.rs, register_client.rs, pair_console_key.rs,
      secret_file.rs) and sms-core/src/password.rs.

    ** How the code is modelled

    Pure functions are Rocq functions of the same name.  A [String] is the
    list of its code points, an instant or a duration a count of
    microseconds, a fallible function returns [result].  An async function is
    a value of [prog]: a tree of the calls it awaits (reads, conditional
    writes, inserts, deletes, the clock, the draw, a submission, a seal, a
    POST) with a continuation per reply; [unreachable!] is [Panic].  The type
    is inductive, so every program ends after finitely many calls whatever
    the replies are; no fuel is needed for them.  Fuel appears in
    [hex_digits] (six digits hold any code point), in [utf8_lossy] (one unit
    per byte, and every step consumes a byte) and in [scan_loop] and
    [resolve_loop] (one unit per character, and every placeholder consumes
    some; [resolve_loop_sound] is stated for more fuel than characters).

    A run interleaves a program's calls with steps of other writers that may
    do anything the triggers allow ([evolves]), and may stop between any two
    calls.  [wp] is proved sound for such runs and for pools of programs, so
    a theorem about a role holds whatever runs beside it.  A write must be
    shown legal from a row the program read at the version it conditions on;
    that it is then never refused as illegal is the content of the safety
    theorems.

    Parameters, nearly all classes: the database ([Backend], with its error
    type [CratestackErrors]), Unicode composition ([UnicodeNormalization]) and
    [Debug] escaping ([UnicodeDebug]), the phonenumber crate ([PhoneLib]),
    SHA-256 and HMAC ([MacLib]), URL parsing ([UrlLib]), serde_json and
    chrono formatting ([DeliveryLib], [JsonLib]), chrono's calendar
    ([Calendar]), decimal products ([DecimalLib]), the decoders of request
    bodies ([Decoders]), reqwest and url ([ReqwestLib]), the decoders of the
    providers' messages ([MtnDecoders], [OrangeDecoders], [AwsLib]), base64,
    X.509 and RSA ([SnsLib]), the JWT library ([JwtLib] with its documented
    checks [JwtLaws] for bearer tokens, [TokenLib] with [TokenLibSound] for ID
    tokens), what the broker reads and writes ([BrokerLib], [RequestJson]), the
    url crate's hosts ([UrlHosts]), the authorization endpoint's request
    ([OpLib]), RSA keys and JWKs ([KeyLib]), COSE thumbprints ([CoseLib]),
    Argon2 ([Argon2Lib]), decimals and floats as text ([NumberLib]), the files,
    figment and serde of the configuration ([ConfigSource]), and the order in
    which a [HashMap] is traversed (an argument).  Each has a concrete instance
    used by the witnesses.

    One law of [Backend] is about providers: a delay a submission is answered
    with is at most an hour ([retry_bounded]); [adapters_submit_once] shows it
    of the three adapters.  Without it the sum of the clock and the delay could
    leave chrono's range, where the dispatcher panics.

    ** What the theorems show

    - The whole system ([Lifecycle]): no panic and no illegal transition in
      any interleaving of any number of workers (for sends with dates chrono
      can add, and bounded delays of providers); each version of a row is won
      once, so no lease of a message is submitted by two dispatchers;
      messages move only along the table and never leave a terminal state.
    - Dispatch: what a tick submits, the policy for every kind of provider
      error, and that failover is bounded and never revisits a route.
    - Receipts: everything ingesting one receipt can do.
    - Webhooks: what a claim returns, every branch of a delivery, the bound on
      requests per poll, and that what is signed is accepted, through a
      rotation, and pins down the delivery.
    - Jobs and scheduling: the outcome policy, the retention scope, the
      cadence; a message past its validity before it is submitted is stranded.
    - Text, numbers and routes: optimal segment counts, round trips, canonical
      numbers, masking, prefix lookup, route selection and the weighted draw.
    - The API's door: a request reaches the procedures only through every gate
      of the stack; the scopes of a bearer token are exactly those granted,
      registered and asked for; the cache answers as the log of its inserts
      read with the time limit; a nonce is accepted once while it is recorded,
      in any interleaving with other requests and with the sweep.
    - Sending: every branch of accepting a message, and that a stored opt-out
      is honoured whatever runs alongside.  The subscriber enqueues one
      attempt per endpoint that asked.
    - Operators: rotation and mode switch refine an abstract credential
      machine, replay and requeue reset exactly what they say; the simulator
      answers with the engine's decision and loses nothing of it.
    - Audit: two histories with the same chain hash agree on every row or
      exhibit a collision of SHA-256, and the anchoring job only extends the
      chain.
    - Delivery lookups: at most sixty charged to one caller are answered in an
      hour however many race, and an answer shows only what the caller's plan
      selects.
    - Keys: the registry only moves forward (a revoked key stays revoked, a
      thumbprint names one key); pairing never touches an owner.
    - Console: a recorded opt-out takes effect on sends and searches; the
      dashboard's figures add up on an unchanging database.
    - Leadership: no two nodes run one singleton role while the lock service
      ends no leader's session.
    - Adapters and callbacks: each adapter submits a message at most once, and
      has it handed on only after a submission answered without success, one
      that got no connection, or (the exception, [severed_resubmitted]) one
      severed without a timeout or a broken body being reported; a receipt finds the message it answers; only authentic SNS notifications
      reach the database; the signed string binds what it covers.
    - Tokens: what reaches the token endpoint and what it is charged to;
      exactly which bearer tokens are accepted; a configuration that starts
      serves what it names and leaves a way in.
    - Signing in: for whom a code is asked, through a password and through the
      identity provider, with the limits, the transaction of the very state,
      the token and the account behind it; a refused login does the same work
      whatever the reason; a used state does not sign in again; where a browser
      may be sent.
    - Provider stores: a seeded console client is the one served; an undisturbed
      rotation of keys hands the signing over; a machine client is provisioned
      whole.
    - Configuration: what is accepted for live traffic is real; no failure
      repeats a secret; other processes are not handed the gateway's secrets;
      validation does not depend on them.
    - Commands: an undisturbed rotation outlives the tokens under the old key;
      the password handed out is the one that signs in; a key is registered for
      the app that was named.
    - Ten theorems state behaviour that differs from what a comment, the
      design document or the caller would expect:
      [expired_unsubmitted_stranded], [failed_job_stranded],
      [open_circuit_still_attempted], [pack_whitespace_splits],
      [send_validity_unchecked], [simulator_ignores_breaker],
      [dashboard_cache_shared], [lost_session_two_leaders],
      [severed_resubmitted], [rotations_race].

    ** What is not modelled

    Log lines, metrics and the throttle of one log line; the endless polling
    loops around a tick; the order in which a query returns its rows (no
    theorem relies on it); the rows a raw statement returns are arbitrary; what
    runs in a [prog] sees a provider as an arbitrary reply, which the adapters'
    own programs refine; the COSE envelope and the OpenID provider (libraries
    the code only calls); response bodies; clap's own checks and what commands
    print.  Of the app sms-gateway, the commands create_app, seed_dispatch,
    record_route_validation, bootstrap and mtn_subscribe_dlr and the wiring of
    serve and worker, which connect parts modelled here; the providers' fakes,
    the SDKs, the front ends and deployment; sms-metrics; and sms-worker
    drain.rs, one call of the framework's event outbox. *)

From stdpp Require Export base tactics option list gmap strings pretty sorting relations.
From Stdlib Require Export ZArith Lia.

#[global] Open Scope Z_scope.

(** ** Text

    A Rust [String] or [&str] is modelled as the list of its Unicode scalar
    values, each a [Z]: the functions modelled here iterate over [char]s, and
    the few places that count bytes use [len_utf8]. *)
Abbreviation text := (list Z).

Definition byte_val (a : Ascii.ascii) : Z := Z.of_N (Ascii.N_of_ascii a).

(** UTF-8 decoding of a string literal, used only to write literals. *)
Fixpoint utf8_bytes (s : string) : list Z :=
  match s with
  | EmptyString => []
  | String a s' => byte_val a :: utf8_bytes s'
  end.

Fixpoint utf8_decode (bs : list Z) : text :=
  match bs with
  | [] => []
  | b :: r =>
      if b <? 128 then b :: utf8_decode r
      else if b <? 224 then
        match r with
        | b1 :: r1 => ((b - 192) * 64 + (b1 - 128)) :: utf8_decode r1
        | [] => []
        end
      else if b <? 240 then
        match r with
        | b1 :: b2 :: r2 =>
            ((b - 224) * 4096 + (b1 - 128) * 64 + (b2 - 128)) :: utf8_decode r2
        | _ => []
        end
      else
        match r with
        | b1 :: b2 :: b3 :: r3 =>
            ((b - 240) * 262144 + (b1 - 128) * 4096 + (b2 - 128) * 64 + (b3 - 128))
              :: utf8_decode r3
        | _ => []
        end
  end.

Definition lit (s : string) : text := utf8_decode (utf8_bytes s).

Arguments lit s%_string.

(** [char::len_utf8] and [char::len_utf16]. *)
Definition len_utf8 (c : Z) : Z :=
  if c <? 128 then 1 else if c <? 2048 then 2 else if c <? 65536 then 3 else 4.

Definition len_utf16 (c : Z) : Z := if c <? 65536 then 1 else 2.

(** [str::len]: the length in bytes. *)
Fixpoint byte_len (s : text) : Z :=
  match s with
  | [] => 0
  | c :: r => len_utf8 c + byte_len r
  end.

(** [str::char_indices]: each character with its byte offset. *)
Fixpoint char_indices_from (o : Z) (s : text) : list (Z * Z) :=
  match s with
  | [] => []
  | c :: r => (o, c) :: char_indices_from (o + len_utf8 c) r
  end.

Definition char_indices (s : text) : list (Z * Z) := char_indices_from 0 s.

(** [char::is_whitespace]: the Unicode [White_Space] property. *)
Definition is_whitespace (c : Z) : bool :=
  ((9 <=? c) && (c <=? 13)) || (c =? 32) || (c =? 133) || (c =? 160) || (c =? 5760)
  || ((8192 <=? c) && (c <=? 8202)) || (c =? 8232) || (c =? 8233) || (c =? 8239)
  || (c =? 8287) || (c =? 12288).

Definition is_ascii_digit (c : Z) : bool := (48 <=? c) && (c <=? 57).

Definition is_ascii_alphabetic (c : Z) : bool :=
  ((65 <=? c) && (c <=? 90)) || ((97 <=? c) && (c <=? 122)).

Definition to_ascii_uppercase (c : Z) : Z :=
  if (97 <=? c) && (c <=? 122) then c - 32 else c.

(** [str::starts_with] with a string pattern. *)
Fixpoint starts_with (s p : text) {struct p} : bool :=
  match p, s with
  | [], _ => true
  | _ :: _, [] => false
  | x :: p', y :: s' => (x =? y) && starts_with s' p'
  end.

(** [str::contains] with a string pattern. *)
Fixpoint str_contains (s p : text) : bool :=
  starts_with s p ||
  match s with
  | [] => false
  | _ :: s' => str_contains s' p
  end.

(** [str::trim]. *)
Fixpoint trim_start (s : text) : text :=
  match s with
  | [] => []
  | c :: r => if is_whitespace c then trim_start r else s
  end.

Definition trim (s : text) : text := reverse (trim_start (reverse (trim_start s))).

(** [slice::join] on strings. *)
Fixpoint join (sep : text) (l : list text) : text :=
  match l with
  | [] => []
  | [x] => x
  | x :: r => x ++ sep ++ join sep r
  end.

(** [Display] of an integer. *)
Definition show_Z (z : Z) : text := lit (pretty z).

(** ** Fallible code *)
Inductive result (A E : Type) : Type :=
| Ok (a : A)
| Err (e : E).
Arguments Ok {A E} a.
Arguments Err {A E} e.

Definition is_ok {A E} (r : result A E) : bool :=
  match r with Ok _ => true | Err _ => false end.

Definition map_err {A E F} (f : E -> F) (r : result A E) : result A F :=
  match r with Ok a => Ok a | Err e => Err (f e) end.

Definition rbind {A B E} (r : result A E) (f : A -> result B E) : result B E :=
  match r with Ok a => f a | Err e => Err e end.

Declare Scope result_scope.
Delimit Scope result_scope with res.
Notation "'let?' x ':=' r 'in' k" := (rbind r (fun x => k))
  (at level 10, x pattern, r at level 100, k at level 200)
  : result_scope.
#[global] Open Scope result_scope.

(** A chain of [?] that comes through passed every step. *)
Lemma rbind_Ok {A B E} (r : result A E) (f : A -> result B E) b :
  rbind r f = Ok b <-> exists a, r = Ok a /\ f a = Ok b.
Proof. destruct r as [a|e]; cbn; split; [by exists a | by intros (? & [= ->] & ?) | done | by intros (? & [=] & _)]. Qed.

Lemma map_err_Ok {A E F} (f : E -> F) (r : result A E) a : map_err f r = Ok a <-> r = Ok a.
Proof. destruct r; cbn; split; congruence. Qed.

(** A refused guard ends the chain. *)
Lemma guard_Ok {A E} (c : bool) (e : E) (k : result A E) a :
  (if c then Err e else k) = Ok a <-> c = false /\ k = Ok a.
Proof. destruct c; split; [done | by intros [? _] | by split | by intros [_ ?]]. Qed.

(** ** Automation *)
Create HintDb vsms discriminated.
Create Rewrite HintDb vsms_simpl.

(** Case analysis on the scrutinee of a [match] or [if] in the goal or in a
    hypothesis, keeping the equation. *)
Ltac case_match_in H :=
  match type of H with
  | context [match ?x with _ => _ end] => destruct x eqn:?
  end.

Ltac split_and_bool :=
  repeat match goal with
  | H : _ && _ = true |- _ => apply andb_true_iff in H; destruct H
  | H : _ || _ = false |- _ => apply orb_false_iff in H; destruct H
  | H : negb _ = true |- _ => apply negb_true_iff in H
  | H : negb _ = false |- _ => apply negb_false_iff in H
  | H : (_ <=? _) = true |- _ => apply Z.leb_le in H
  | H : (_ <=? _) = false |- _ => apply Z.leb_gt in H
  | H : (_ <? _) = true |- _ => apply Z.ltb_lt in H
  | H : (_ <? _) = false |- _ => apply Z.ltb_ge in H
  | H : (_ =? _) = true |- _ => apply Z.eqb_eq in H
  | H : (_ =? _) = false |- _ => apply Z.eqb_neq in H
  | H : bool_decide _ = true |- _ => apply bool_decide_eq_true in H
  | H : bool_decide _ = false |- _ => apply bool_decide_eq_false in H
  end.

(** ** Text lemmas *)
Lemma starts_with_spec (s p : text) :
  starts_with s p = true <-> exists r, s = p ++ r.
Proof.
  revert s; induction p as [|x p IH]; intros s; simpl.
  - split; [intros _; by exists s | done].
  - destruct s as [|y s]; [split; [done | by intros [r ?]]|].
    rewrite andb_true_iff, Z.eqb_eq, IH. split.
    + intros [-> [r ->]]. by exists r.
    + intros [r [= -> ->]]. eauto.
Qed.

Lemma starts_with_self (s : text) : starts_with s s = true.
Proof. apply starts_with_spec. exists []. by rewrite app_nil_r. Qed.

Lemma str_contains_spec (s p : text) :
  str_contains s p = true <-> exists a b, s = a ++ p ++ b.
Proof.
  induction s as [|x s IH]; simpl.
  - rewrite orb_false_r, starts_with_spec. split.
    + intros [r E]. by exists [], r.
    + intros (a & b & E). symmetry in E. apply app_eq_nil in E as [-> E].
      apply app_eq_nil in E as [-> ->]. by exists [].
  - rewrite orb_true_iff, starts_with_spec, IH. split.
    + intros [[r ->]|(a & b & ->)]; [by exists [], r | by exists (x :: a), b].
    + intros ([|y a] & b & E); simpl in E; [left; eauto|].
      injection E as -> ->. right; eauto.
Qed.

Lemma byte_len_app (a b : text) : byte_len (a ++ b) = byte_len a + byte_len b.
Proof. induction a; simpl; lia. Qed.

Lemma len_utf8_pos c : 1 <= len_utf8 c <= 4.
Proof. unfold len_utf8. repeat case_match; lia. Qed.

Lemma byte_len_nonneg (s : text) : 0 <= byte_len s.
Proof. induction s as [|c s IH]; simpl; [lia|]. pose proof (len_utf8_pos c). lia. Qed.

Lemma char_indices_from_lookup o (s : text) i p c :
  char_indices_from o s !! i = Some (p, c) ->
  s !! i = Some c /\ p = o + byte_len (take i s).
Proof.
  revert o i; induction s as [|x s IH]; intros o i; [done|].
  destruct i as [|i]; simpl.
  - intros [= <- <-]. split; [done | lia].
  - intros [? ->]%IH. split; [done | lia].
Qed.

Lemma char_indices_from_snd o (s : text) : (char_indices_from o s).*2 = s.
Proof. revert o; induction s; intros; simpl; f_equal; auto. Qed.

#[export] Hint Rewrite byte_len_app : vsms_simpl.

(** ** Folds *)

(** What every step of a fold keeps, the fold keeps. *)
Lemma foldl_keeps {A B C} (f : A -> C) (g : A -> B -> A) (l : list B) (x : A) :
  (forall y b, f (g y b) = f y) -> f (foldl g x l) = f x.
Proof. intros Hg. revert x. induction l as [|b l IH]; intros x; [done|]. cbn. by rewrite IH. Qed.

(** ** Filters *)
Lemma filter_sublist {A} (P : A -> bool) (l : list A) : sublist (List.filter P l) l.
Proof.
  induction l as [|x l IH]; cbn [List.filter]; [constructor|].
  destruct (P x); by constructor.
Qed.

Lemma filter_NoDup_fmap {A B} (f : A -> B) (P : A -> bool) (l : list A) :
  NoDup (f <$> l) -> NoDup (f <$> List.filter P l).
Proof.
  intros Hn. eapply sublist_NoDup; [exact Hn|]. apply fmap_sublist, filter_sublist.
Qed.

Lemma NoDup_fmap_elem_inj {A B} (f : A -> B) (l : list A) x y :
  NoDup (f <$> l) -> x ∈ l -> y ∈ l -> f x = f y -> x = y.
Proof.
  induction l as [|z l IH]; [by intros _ Hx%not_elem_of_nil|].
  rewrite fmap_cons, NoDup_cons. intros [Hz Hn] Hx Hy Hf.
  apply elem_of_cons in Hx, Hy. destruct Hx as [->|Hx], Hy as [->|Hy]; [done | | |by apply IH].
  - destruct Hz. rewrite Hf. by apply list_elem_of_fmap_2.
  - destruct Hz. rewrite <- Hf. by apply list_elem_of_fmap_2.
Qed.

(** ** Sorted, deduplicated lists of strings

    [sort_unstable] and [dedup] on a [Vec<String>]; the order of UTF-8 bytes
    is the order of the code points. *)
Fixpoint text_leb (a b : text) : bool :=
  match a, b with
  | [], _ => true
  | _ :: _, [] => false
  | x :: a', y :: b' => (x <? y) || ((x =? y) && text_leb a' b')
  end.

Definition text_le (a b : text) : Prop := text_leb a b = true.

#[export] Instance text_le_dec a b : Decision (text_le a b) := decide (text_leb a b = true).

Fixpoint dedup (l : list text) : list text :=
  match l with
  | x :: (y :: _) as r => if bool_decide (x = y) then dedup r else x :: dedup r
  | _ => l
  end.

Definition sort_dedup (l : list text) : list text := dedup (merge_sort text_le l).

Lemma elem_of_dedup x l : x ∈ dedup l <-> x ∈ l.
Proof.
  induction l as [|y [|z r] IH]; [done | done |]. cbn [dedup].
  case_bool_decide as Hyz.
  - subst z. rewrite IH. split; [by right|]. intros [->|]%elem_of_cons; [by left | done].
  - rewrite !elem_of_cons, IH, elem_of_cons. tauto.
Qed.

Lemma elem_of_sort_dedup x l : x ∈ sort_dedup l <-> x ∈ l.
Proof. unfold sort_dedup. rewrite elem_of_dedup. by rewrite merge_sort_Permutation. Qed.

(** One pick per element of a list. *)
Lemma Forall_choose {A B} (P : A -> B -> Prop) l :
  Forall (fun x => exists y, P x y) l -> exists k, Forall2 P l k.
Proof.
  induction 1 as [|x l [y Hy] _ [k Hk]]; [by exists [] | exists (y :: k); by constructor].
Qed.

(** The picks are distinct where a pick tells the element it was made for. *)
Lemma NoDup_choose {A B C} (P : A -> B -> Prop) (f : B -> C) l k :
  NoDup l -> Forall2 P l k -> (forall x x' y y', P x y -> P x' y' -> f y = f y' -> x = x') ->
  NoDup (f <$> k).
Proof.
  intros Hl Hk Hf. induction Hk as [|x y l k Hxy Hk IH]; [constructor|]. apply NoDup_cons in Hl as [Hx Hl].
  rewrite fmap_cons. apply NoDup_cons. split; [|by apply IH]. intros Hin.
  apply list_elem_of_fmap in Hin as (y' & Hy & Hy'). apply list_elem_of_lookup in Hy' as [i Hi].
  destruct (Forall2_lookup_r _ _ _ _ _ Hk Hi) as (x' & Hx' & HP).
  apply Hx. rewrite (Hf _ _ _ _ Hxy HP Hy). by apply list_elem_of_lookup_2 in Hx'.
Qed.
