(* ===== verification/Encoding.v ===== *)
(** * sms-encoding: GSM 03.38 versus UCS-2

    Models [backends/crates/sms-encoding]: the alphabet tables and their
    lookup (gsm7.rs), the segment packing loop (segment.rs), the
    unconditional clean-up (normalise.rs), the opt-in transliteration
    (translit.rs) and the report built from them (lib.rs).

    Unicode normalisation (the [unicode-normalization] crate) is a parameter:
    the class [UnicodeNormalization] below. *)

From S2P Require Import Prelude.

(** ** gsm7.rs *)

(** The 128 septet values of the default alphabet, indexed by septet. *)
Definition BASIC : list Z := [
  64; 163; 36; 165; 232; 233; 249; 236;
  242; 199; 10; 216; 248; 13; 197; 229;
  916; 95; 934; 915; 923; 937; 928; 936;
  931; 920; 926; 27; 198; 230; 223; 201;
  32; 33; 34; 35; 164; 37; 38; 39;
  40; 41; 42; 43; 44; 45; 46; 47;
  48; 49; 50; 51; 52; 53; 54; 55;
  56; 57; 58; 59; 60; 61; 62; 63;
  161; 65; 66; 67; 68; 69; 70; 71;
  72; 73; 74; 75; 76; 77; 78; 79;
  80; 81; 82; 83; 84; 85; 86; 87;
  88; 89; 90; 196; 214; 209; 220; 167;
  191; 97; 98; 99; 100; 101; 102; 103;
  104; 105; 106; 107; 108; 109; 110; 111;
  112; 113; 114; 115; 116; 117; 118; 119;
  120; 121; 122; 228; 246; 241; 252; 224 ].

Definition ESC : Z := 27.

Definition EXTENDED : list (Z * Z) := [
  (10, 12); (20, 94); (40, 123); (41, 125); (47, 92);
  (60, 91); (61, 126); (62, 93); (64, 124); (101, 8364) ].

Inductive Gsm7Char := Basic (b : Z) | Extended (b : Z).

Definition septets (g : Gsm7Char) : Z :=
  match g with Basic _ => 1 | Extended _ => 2 end.

(** [Iterator::position]. *)
Fixpoint position (c : Z) (l : list Z) : option Z :=
  match l with
  | [] => None
  | x :: r => if x =? c then Some 0 else Z.succ <$> position c r
  end.

(** [Iterator::find] on a table of pairs, keyed by the second component
    ([EXTENDED]) or the first ([SUBSTITUTIONS], [EXPLICIT]). *)
Definition find_snd (c : Z) (l : list (Z * Z)) : option (Z * Z) :=
  List.find (fun e => e.2 =? c) l.

Definition find_fst {A} (c : Z) (l : list (Z * A)) : option (Z * A) :=
  List.find (fun e => e.1 =? c) l.

Definition classify (c : Z) : option Gsm7Char :=
  if c =? 27 then None
  else match position c BASIC with
       | Some i => Some (Basic i)
       | None => (fun e => Extended e.1) <$> find_snd c EXTENDED
       end.

Definition is_gsm7 (c : Z) : bool :=
  match classify c with Some _ => true | None => false end.

Definition is_gsm7_str (body : text) : bool := forallb is_gsm7 body.

Fixpoint to_septets (body : text) : option (list Z) :=
  match body with
  | [] => Some []
  | c :: r =>
      match classify c with
      | None => None
      | Some (Basic b) => (fun out => b :: out) <$> to_septets r
      | Some (Extended b) => (fun out => ESC :: b :: out) <$> to_septets r
      end
  end.

(** ** segment.rs *)
Definition GSM7_SINGLE : Z := 160.
Definition GSM7_CONCATENATED : Z := 153.
Definition UCS2_SINGLE : Z := 70.
Definition UCS2_CONCATENATED : Z := 67.

Definition sumZ (l : list Z) : Z := foldr Z.add 0 l.

Record Packing := mkPacking {
  p_length : Z;
  p_segments : Z;      (* u8 *)
  p_per_segment : Z }.

(** The loop of [pack], from [segments] and [used]; the result is the
    segment count before it saturates. *)
Fixpoint pack_loop (concatenated segments used : Z) (costs : list Z) : Z :=
  match costs with
  | [] => segments
  | cost :: r =>
      if used + cost >? concatenated
      then pack_loop concatenated (segments + 1) cost r
      else pack_loop concatenated segments (used + cost) r
  end.

Definition pack (costs : list Z) (single concatenated : Z) : Packing :=
  let length := sumZ costs in
  if length <=? single then mkPacking length 1 single
  else mkPacking length (Z.min (pack_loop concatenated 1 0 costs) 255) concatenated.

(** ** normalise.rs *)
Definition SUBSTITUTIONS : list (Z * text) := [
  (8216, lit "'"); (8217, lit "'"); (8218, lit "'"); (8219, lit "'"); (8242, lit "'");
  (8220, [34]); (8221, [34]); (8222, [34]); (8243, [34]);
  (8208, lit "-"); (8209, lit "-"); (8210, lit "-"); (8211, lit "-"); (8212, lit "-");
  (8213, lit "-"); (8722, lit "-");
  (8230, lit "...");
  (160, lit " "); (8192, lit " "); (8193, lit " "); (8194, lit " "); (8195, lit " ");
  (8196, lit " "); (8197, lit " "); (8198, lit " "); (8199, lit " "); (8200, lit " ");
  (8201, lit " "); (8202, lit " "); (8239, lit " "); (8287, lit " "); (12288, lit " ");
  (173, []); (8203, []); (8204, []); (8205, []); (65279, []) ].

Definition substitute (c : Z) : option text := snd <$> find_fst c SUBSTITUTIONS.

(** The [unicode-normalization] crate: canonical composition of a string
    and canonical decomposition of a character. *)
Class UnicodeNormalization := {
  nfc : text -> text;
  nfd_char : Z -> text }.

Section Normalise.
Context `{UnicodeNormalization}.

Definition normalise (body : text) : text :=
  foldr (fun c out => match substitute c with
                      | Some replacement => replacement ++ out
                      | None => c :: out
                      end) [] (nfc body).

(** ** translit.rs *)
Definition EXPLICIT : list (Z * text) := [
  (339, lit "oe"); (338, lit "OE"); (171, [34]); (187, [34]); (8249, lit "'");
  (8250, lit "'"); (8226, lit "-"); (183, lit "."); (8482, lit "(TM)");
  (169, lit "(C)"); (174, lit "(R)"); (8470, lit "No") ].

Record Replacement := mkReplacement {
  rp_from : Z;
  rp_to : text;
  rp_offset : Z }.

Definition is_combining_mark (c : Z) : bool :=
  ((0x300 <=? c) && (c <=? 0x36f)) || ((0x1ab0 <=? c) && (c <=? 0x1aff))
  || ((0x1dc0 <=? c) && (c <=? 0x1dff)) || ((0x20d0 <=? c) && (c <=? 0x20ff))
  || ((0xfe20 <=? c) && (c <=? 0xfe2f)).

Definition replacement_for (c : Z) : option text :=
  if is_gsm7 c then None
  else match substitute c with
  | Some to => Some to
  | None =>
    match find_fst c EXPLICIT with
    | Some (_, to) => Some to
    | None =>
        let stripped := List.filter (fun d => negb (is_combining_mark d)) (nfd_char c) in
        if negb (bool_decide (stripped = [])) && negb (bool_decide (stripped = [c]))
           && is_gsm7_str stripped
        then Some stripped else None
    end
  end.

Definition transliterate_to_gsm7 (body : text) : text * list Replacement :=
  foldr (fun '(offset, c) '(out, reps) =>
           match replacement_for c with
           | Some to => (to ++ out, mkReplacement c to offset :: reps)
           | None => (c :: out, reps)
           end) ([], []) (char_indices body).

(** ** lib.rs *)
Inductive SmsEncoding := Gsm7 | Ucs2.

Record OffendingChar := mkOffendingChar {
  oc_ch : Z;
  oc_offset : Z;
  oc_replacement : option text }.

Record EncodingReport := mkEncodingReport {
  er_encoding : SmsEncoding;
  er_length : Z;
  er_segments : Z;
  er_per_segment : Z;
  er_offending : list OffendingChar;
  er_suggestion : option text;
  er_escapes : Z }.

(** [EncodingReport::remaining_in_segment], a saturating subtraction. *)
Definition remaining_in_segment (r : EncodingReport) : Z :=
  Z.max 0 (er_per_segment r * er_segments r - er_length r).

(** One step of the character loop of [analyse]: the offending characters,
    the number of escapes and the septet cost of each encodable character. *)
Definition analyse_char (ic : Z * Z) (acc : list OffendingChar * Z * list Z)
  : list OffendingChar * Z * list Z :=
  let '(offset, ch) := ic in
  let '(offending, escapes, costs) := acc in
  match classify ch with
  | Some g => (offending, (if septets g =? 2 then 1 else 0) + escapes, septets g :: costs)
  | None => (mkOffendingChar ch offset (replacement_for ch) :: offending, escapes, costs)
  end.

Definition analyse_loop (body : text) : list OffendingChar * Z * list Z :=
  foldr analyse_char ([], 0, []) (char_indices body).

Definition analyse (body : text) : EncodingReport :=
  let '(offending, escapes, costs) := analyse_loop body in
  match offending with
  | [] =>
      let p := pack costs GSM7_SINGLE GSM7_CONCATENATED in
      mkEncodingReport Gsm7 (p_length p) (p_segments p) (p_per_segment p) [] None escapes
  | _ :: _ =>
      let p := pack (len_utf16 <$> body) UCS2_SINGLE UCS2_CONCATENATED in
      let candidate := (transliterate_to_gsm7 body).1 in
      let suggestion :=
        if is_gsm7_str candidate && negb (bool_decide (candidate = body))
        then Some candidate else None in
      mkEncodingReport Ucs2 (p_length p) (p_segments p) (p_per_segment p)
        offending suggestion 0
  end.

End Normalise.

(** ** Specifications *)

(** A reading of a septet stream, the inverse a handset applies. *)
Fixpoint from_septets (s : list Z) : option text :=
  match s with
  | [] => Some []
  | b :: r =>
      if b =? ESC then
        match r with
        | e :: r' =>
            match find_fst e EXTENDED with
            | Some (_, c) => cons c <$> from_septets r'
            | None => None
            end
        | [] => None
        end
      else
        match BASIC !! Z.to_nat b with
        | Some c => cons c <$> from_septets r
        | None => None
        end
  end.

(** [n] is the least number of parts of at most [cap] units that [costs] can
    be cut into without splitting a character. *)
Definition cut_into (cap : Z) (costs : list Z) (parts : list (list Z)) : Prop :=
  parts <> [] /\ concat parts = costs /\ Forall (fun p => sumZ p <= cap) parts.

Definition min_parts (cap : Z) (costs : list Z) (n : Z) : Prop :=
  (exists parts, cut_into cap costs parts /\ Z.of_nat (length parts) = n) /\
  (forall parts, cut_into cap costs parts -> n <= Z.of_nat (length parts)).

(** The units each character of a body costs in a given encoding. *)
Definition unit_costs (e : SmsEncoding) (body : text) : list Z :=
  match e with
  | Gsm7 => (fun c => match classify c with Some g => septets g | None => 0 end) <$> body
  | Ucs2 => len_utf16 <$> body
  end.

(** ** The alphabet *)
Lemma position_lookup c l i :
  position c l = Some i -> 0 <= i /\ l !! Z.to_nat i = Some c.
Proof.
  revert i; induction l as [|x l IH]; intros i; simpl; [done|].
  case_match eqn:E; [intros [= <-]; apply Z.eqb_eq in E as ->; done|].
  destruct (position c l) as [j|]; simpl; [|done]. intros [= <-].
  destruct (IH j eq_refl) as [Hj Hl]. split; [lia|].
  by replace (Z.to_nat (Z.succ j)) with (S (Z.to_nat j)) by lia.
Qed.

Lemma classify_basic c b :
  classify c = Some (Basic b) -> b <> ESC /\ BASIC !! Z.to_nat b = Some c.
Proof.
  unfold classify. case_match eqn:Ec; [done|].
  destruct (position c BASIC) as [i|] eqn:Ep.
  - intros [= <-]. apply position_lookup in Ep as [Hi Hl]. split; [|done].
    intros ->. apply Z.eqb_neq in Ec. vm_compute in Hl. congruence.
  - by destruct (find_snd c EXTENDED).
Qed.

Lemma classify_extended c b :
  classify c = Some (Extended b) -> find_fst b EXTENDED = Some (b, c).
Proof.
  unfold classify. case_match; [done|].
  destruct (position c BASIC); [done|].
  destruct (find_snd c EXTENDED) as [[b' c']|] eqn:Ef; [|done].
  intros [= <-]. apply List.find_some in Ef as [Hin Hc]. simpl in Hc.
  apply Z.eqb_eq in Hc as ->.
  repeat (destruct Hin as [[= <- <-]|Hin]; [reflexivity|]). destruct Hin.
Qed.

Lemma to_septets_is_gsm7 body : is_Some (to_septets body) <-> is_gsm7_str body = true.
Proof.
  induction body as [|c r IH]; simpl; [done|].
  rewrite andb_true_iff, <- IH. unfold is_gsm7.
  destruct (classify c) as [[b|b]|]; destruct (to_septets r); simpl;
    split; intros Hx; try (by destruct Hx); try (destruct Hx as [? Hx]); eauto; try done;
    by destruct Hx.
Qed.

(** Encoding a body to septets loses nothing: reading the stream back
    with the alphabet and its extension table gives the body itself, so no
    two bodies share a septet stream. *)
Theorem to_septets_roundtrip body s :
  to_septets body = Some s -> from_septets s = Some body.
Proof.
  revert s; induction body as [|c r IH]; intros s; simpl; [by intros [= <-]|].
  destruct (classify c) as [[b|b]|] eqn:Ec; [| |done];
    destruct (to_septets r) as [s'|]; simpl; try done; intros [= <-].
  - apply classify_basic in Ec as [Hb Hl]. simpl.
    apply Z.eqb_neq in Hb as ->. rewrite Hl. by rewrite (IH s').
  - apply classify_extended in Ec. cbn [from_septets]. rewrite Z.eqb_refl, Ec.
    by rewrite (IH s').
Qed.

Lemma to_septets_roundtrip_witness :
  to_septets (lit "a€") = Some [97; 27; 101] /\
  from_septets [97; 27; 101] = Some (lit "a€").
Proof.
  split; [vm_compute; reflexivity|].
  apply (to_septets_roundtrip (lit "a€")). vm_compute. reflexivity.
Defined.

(** ** Packing *)
Lemma pack_loop_offset cap s u l :
  pack_loop cap s u l = s + pack_loop cap 0 u l.
Proof.
  revert s u; induction l as [|c l IH]; intros s u; simpl; [lia|].
  case_match; rewrite IH; [|done].
  rewrite (IH (0 + 1)). lia.
Qed.

Lemma pack_loop_step cap u c l :
  pack_loop cap 0 u (c :: l) =
  if u + c >? cap then 1 + pack_loop cap 0 c l else pack_loop cap 0 (u + c) l.
Proof. simpl. case_match; [|done]. by rewrite pack_loop_offset. Qed.

(** Starting fuller costs at most one more segment and never fewer. *)
Lemma pack_loop_sandwich cap l u v :
  0 <= v <= u -> Forall (fun c => 0 <= c <= cap) l ->
  pack_loop cap 0 v l <= pack_loop cap 0 u l <= 1 + pack_loop cap 0 v l.
Proof.
  intros Huv Hl. revert u v Huv. induction Hl as [|c l Hc Hl IH]; intros u v Huv;
    [simpl; lia|].
  rewrite !pack_loop_step, !Z.gtb_ltb.
  destruct (Z.ltb_spec cap (u + c)), (Z.ltb_spec cap (v + c)); try lia.
  - pose proof (IH (v + c) c ltac:(lia)). lia.
  - pose proof (IH (u + c) (v + c) ltac:(lia)). lia.
Qed.

Lemma pack_loop_app cap u p l :
  Forall (fun c => 0 <= c) p -> u + sumZ p <= cap ->
  pack_loop cap 0 u (p ++ l) = pack_loop cap 0 (u + sumZ p) l.
Proof.
  intros Hp. revert u. induction Hp as [|c p Hc Hp IH]; intros u Hs.
  - simpl. by rewrite Z.add_0_r.
  - simpl app. simpl in Hs. rewrite pack_loop_step, Z.gtb_ltb.
    assert (0 <= sumZ p) by (clear -Hp; induction Hp; simpl in *; lia).
    destruct (Z.ltb_spec cap (u + c)); [lia|].
    rewrite IH by lia. f_equal. simpl. lia.
Qed.

Lemma pack_loop_lower cap p ps :
  0 <= cap -> Forall (fun c => 0 <= c <= cap) (concat (p :: ps)) ->
  Forall (fun q => sumZ q <= cap) (p :: ps) ->
  pack_loop cap 0 0 (concat (p :: ps)) <= Z.of_nat (length ps).
Proof.
  intros Hcap. revert p. induction ps as [|q ps IH]; intros p Hc Hs;
    simpl in *; apply Forall_app in Hc as [Hcp Hcr];
    apply Forall_cons in Hs as [Hsp Hsr];
    assert (Forall (fun c => 0 <= c) p) as Hp0
      by (eapply Forall_impl; [exact Hcp | simpl; lia]);
    assert (0 <= sumZ p) by (clear -Hp0; induction Hp0; simpl in *; lia);
    rewrite pack_loop_app by (simpl; lia || done).
  - simpl. lia.
  - pose proof (pack_loop_sandwich cap (q ++ concat ps) (0 + sumZ p) 0 ltac:(lia) Hcr).
    pose proof (IH q Hcr Hsr). lia.
Qed.

Lemma pack_loop_upper cap u l :
  Forall (fun c => 0 <= c <= cap) l -> u <= cap ->
  exists p ps, concat (p :: ps) = l /\ u + sumZ p <= cap /\
    Forall (fun q => sumZ q <= cap) ps /\ Z.of_nat (length ps) = pack_loop cap 0 u l.
Proof.
  intros Hl. revert u. induction Hl as [|c l Hc Hl IH]; intros u Hu.
  - exists [], []. simpl. repeat split; [lia | done].
  - rewrite pack_loop_step, Z.gtb_ltb. destruct (Z.ltb_spec cap (u + c)).
    + destruct (IH c ltac:(lia)) as (p & ps & Hcat & Hsum & Hall & Hlen).
      exists [], ((c :: p) :: ps). simpl in *. rewrite Hcat.
      repeat split; [lia | by constructor | lia].
    + destruct (IH (u + c) ltac:(lia)) as (p & ps & Hcat & Hsum & Hall & Hlen).
      exists (c :: p), ps. simpl in *. rewrite Hcat. repeat split; [lia | done | done].
Qed.

Lemma sumZ_nonneg l : Forall (fun c => 0 <= c) l -> 0 <= sumZ l.
Proof. induction 1; simpl in *; lia. Qed.

(** The packing loop is optimal: what it counts is the least number of parts. *)
Lemma pack_loop_min_parts cap l :
  0 <= cap -> Forall (fun c => 0 <= c <= cap) l ->
  min_parts cap l (pack_loop cap 1 0 l).
Proof.
  intros Hcap Hl. rewrite pack_loop_offset. split.
  - destruct (pack_loop_upper cap 0 l Hl Hcap) as (p & ps & Hcat & Hsum & Hall & Hlen).
    exists (p :: ps). split; [|simpl; lia].
    repeat split; [done | done | constructor; [lia | done]].
  - intros [|p ps] (Hne & <- & Hs); [done|].
    pose proof (pack_loop_lower cap p ps Hcap Hl Hs). simpl length. lia.
Qed.

Lemma min_parts_single cap l : sumZ l <= cap -> min_parts cap l 1.
Proof.
  intros Hs. split.
  - exists [l]. repeat split; [done | simpl; by rewrite app_nil_r | by constructor].
  - intros [|p ps] (Hne & _); [done | simpl; lia].
Qed.

Lemma pack_spec costs single cap :
  0 <= cap -> Forall (fun c => 0 <= c <= cap) costs ->
  p_length (pack costs single cap) = sumZ costs /\
  exists n, min_parts (p_per_segment (pack costs single cap)) costs n /\
    p_segments (pack costs single cap) = Z.min n 255.
Proof.
  intros Hcap Hc. unfold pack. case_match eqn:E; simpl; (split; [done|]).
  - exists 1. split; [apply min_parts_single; by apply Z.leb_le | lia].
  - eexists. split; [by apply pack_loop_min_parts | done].
Qed.

(** ** The tables of the rewriting passes *)
Lemma substitute_sound c to :
  substitute c = Some to ->
  is_gsm7 c = false /\ is_gsm7_str to = true /\ Forall (fun d => substitute d = None) to.
Proof.
  unfold substitute. destruct (find_fst c SUBSTITUTIONS) as [[c' to']|] eqn:Ef; [|done].
  intros [= <-]. apply List.find_some in Ef as [Hin Hc]. simpl in Hc.
  apply Z.eqb_eq in Hc as <-.
  assert (List.Forall (fun e => is_gsm7 e.1 = false /\ is_gsm7_str e.2 = true /\
            forallb (fun d => match substitute d with None => true | _ => false end) e.2
              = true) SUBSTITUTIONS) as Htab.
  { unfold SUBSTITUTIONS. repeat constructor. }
  rewrite List.Forall_forall in Htab. destruct (Htab _ Hin) as (H1 & H2 & H3).
  split; [done|split; [done|]].
  apply Forall_forall. intros d Hd. rewrite forallb_forall in H3.
  specialize (H3 d (proj1 (list_elem_of_In _ _) Hd)). revert H3.
  fold (substitute d). by destruct (substitute d).
Qed.

Lemma explicit_sound c c' to :
  find_fst c EXPLICIT = Some (c', to) -> is_gsm7_str to = true.
Proof.
  intros Ef. apply List.find_some in Ef as [Hin _].
  repeat (destruct Hin as [[= <- <-]|Hin]; [reflexivity|]). destruct Hin.
Qed.

Section AnalyseFacts.
Context `{UnicodeNormalization}.

Lemma replacement_sound c to :
  replacement_for c = Some to -> is_gsm7 c = false /\ is_gsm7_str to = true.
Proof.
  unfold replacement_for. destruct (is_gsm7 c) eqn:Eg; [done|].
  destruct (substitute c) eqn:Es; [intros [= <-]; split; [done|];
    by apply substitute_sound in Es as (_ & ? & _)|].
  destruct (find_fst c EXPLICIT) as [[c' e]|] eqn:Ee;
    [intros [= <-]; split; [done | by eapply explicit_sound]|].
  case_match eqn:Ec; [|done]. intros [= <-]. by split_and_bool.
Qed.

(** A body transliterates character by character. *)
Definition translit_char (c : Z) : text :=
  match replacement_for c with Some to => to | None => [c] end.

Lemma transliterate_fst body :
  (transliterate_to_gsm7 body).1 = concat (translit_char <$> body).
Proof.
  unfold transliterate_to_gsm7, char_indices. generalize 0 as o.
  induction body as [|c r IH]; intros o; [done|].
  rewrite fmap_cons. cbn [char_indices_from foldr concat].
  rewrite <- (IH (o + len_utf8 c)). unfold translit_char.
  destruct (foldr _ _ _) as [out reps]. by destruct (replacement_for c).
Qed.

Lemma is_gsm7_str_app a b : is_gsm7_str (a ++ b) = is_gsm7_str a && is_gsm7_str b.
Proof. apply forallb_app. Qed.

Lemma is_gsm7_str_forall body :
  is_gsm7_str body = true <-> Forall (fun c => is_gsm7 c = true) body.
Proof.
  unfold is_gsm7_str. rewrite forallb_forall, Forall_forall.
  by setoid_rewrite list_elem_of_In.
Qed.

Lemma transliterate_is_gsm7 body :
  is_gsm7_str (transliterate_to_gsm7 body).1 = true <->
  Forall (fun c => is_gsm7 c = true \/ is_Some (replacement_for c)) body.
Proof.
  rewrite transliterate_fst. induction body as [|c r IH]; [done|].
  rewrite fmap_cons. cbn [concat].
  rewrite is_gsm7_str_app, andb_true_iff, IH, Forall_cons.
  unfold translit_char. destruct (replacement_for c) as [to|] eqn:Er.
  - apply replacement_sound in Er as [_ ->].
    split; intros [_ Hr]; (split; [by eauto | done]).
  - unfold is_gsm7_str; simpl. rewrite andb_true_r.
    split; intros [Hc Hr]; (split; [|done]); [by left|].
    destruct Hc as [Hc|[to Hc]]; [exact Hc | discriminate Hc].
Qed.

(** A GSM-7 body is left alone. *)
Lemma transliterate_gsm7_id body :
  is_gsm7_str body = true -> (transliterate_to_gsm7 body).1 = body.
Proof.
  rewrite transliterate_fst, is_gsm7_str_forall.
  induction 1 as [|c r Hc Hr IH]; [done|].
  rewrite fmap_cons. cbn [concat]. rewrite IH.
  unfold translit_char, replacement_for. by rewrite Hc.
Qed.

Lemma analyse_loop_from o body :
  foldr analyse_char ([], 0, []) (char_indices_from o body) =
  ((fun '(o, c) => mkOffendingChar c o (replacement_for c))
     <$> List.filter (fun '(_, c) => negb (is_gsm7 c)) (char_indices_from o body),
   sumZ ((fun c => match classify c with Some (Extended _) => 1 | _ => 0 end) <$> body),
   (fun c => match classify c with Some g => septets g | None => 0 end)
     <$> List.filter is_gsm7 body).
Proof.
  revert o. induction body as [|c r IH]; intros o; [done|].
  cbn [char_indices_from foldr]. rewrite (IH (o + len_utf8 c)).
  unfold analyse_char. cbn [List.filter]. rewrite !fmap_cons.
  assert (is_gsm7 c = match classify c with Some _ => true | None => false end) as Hg by done.
  destruct (classify c) as [[b|b]|] eqn:Ec; rewrite Hg; cbn; by rewrite ?Ec.
Qed.

Lemma analyse_loop_spec body :
  analyse_loop body =
  ((fun '(o, c) => mkOffendingChar c o (replacement_for c))
     <$> List.filter (fun '(_, c) => negb (is_gsm7 c)) (char_indices body),
   sumZ ((fun c => match classify c with Some (Extended _) => 1 | _ => 0 end) <$> body),
   (fun c => match classify c with Some g => septets g | None => 0 end)
     <$> List.filter is_gsm7 body).
Proof. apply analyse_loop_from. Qed.

Lemma offending_nil body :
  List.filter (fun '(_, c) => negb (is_gsm7 c)) (char_indices body) = [] <->
  is_gsm7_str body = true.
Proof.
  unfold char_indices. generalize 0 as o.
  induction body as [|c r IH]; intros o; simpl; [done|].
  rewrite andb_true_iff. destruct (is_gsm7 c); simpl;
    [rewrite IH; split; [by split | by intros [_ ?]]|].
  split; [done | by intros [? _]].
Qed.

Lemma filter_gsm7_all body : is_gsm7_str body = true -> List.filter is_gsm7 body = body.
Proof.
  rewrite is_gsm7_str_forall. induction 1 as [|c r Hc Hr IH]; simpl; [done|].
  by rewrite Hc, IH.
Qed.

(** [analyse] in closed form. *)
Lemma analyse_eq body :
  analyse body =
  if is_gsm7_str body then
    let p := pack (unit_costs Gsm7 body) GSM7_SINGLE GSM7_CONCATENATED in
    mkEncodingReport Gsm7 (p_length p) (p_segments p) (p_per_segment p) [] None
      (sumZ ((fun c => match classify c with Some (Extended _) => 1 | _ => 0 end) <$> body))
  else
    let p := pack (unit_costs Ucs2 body) UCS2_SINGLE UCS2_CONCATENATED in
    mkEncodingReport Ucs2 (p_length p) (p_segments p) (p_per_segment p)
      ((fun '(o, c) => mkOffendingChar c o (replacement_for c))
         <$> List.filter (fun '(_, c) => negb (is_gsm7 c)) (char_indices body))
      (if is_gsm7_str (transliterate_to_gsm7 body).1
       then Some (transliterate_to_gsm7 body).1 else None) 0.
Proof.
  unfold analyse. rewrite analyse_loop_spec.
  destruct (is_gsm7_str body) eqn:Eg.
  - rewrite (proj2 (offending_nil body) Eg). simpl. by rewrite filter_gsm7_all.
  - destruct (List.filter _ (char_indices body)) as [|[o c] l] eqn:Ef; simpl.
    + apply offending_nil in Ef. congruence.
    + destruct (is_gsm7_str (transliterate_to_gsm7 body).1) eqn:Et; simpl; [|done].
      rewrite bool_decide_eq_false_2; [done|]. intros E. by rewrite E, Eg in Et.
Qed.

Lemma unit_costs_bounds e body :
  Forall (fun c => 0 <= c <= 2) (unit_costs e body).
Proof.
  destruct e; simpl; apply Forall_fmap, Forall_forall; intros c _; simpl.
  - by destruct (classify c) as [[]|].
  - unfold len_utf16. case_match; lia.
Qed.

(** C38. Segment counting. For every body, the report's length is the sum of
    the units its characters cost in the reported encoding, and its segment
    count is the least number of parts of [per_segment] units the characters
    can be cut into with no escape pair or surrogate pair split, saturated
    at the 255 parts a UDH can number. *)
Theorem analyse_segments_optimal body :
  let r := analyse body in
  er_length r = sumZ (unit_costs (er_encoding r) body) /\
  exists n, min_parts (er_per_segment r) (unit_costs (er_encoding r) body) n /\
    er_segments r = Z.min n 255.
Proof.
  simpl. rewrite analyse_eq. destruct (is_gsm7_str body); cbn [er_encoding er_length
    er_segments er_per_segment];
  apply pack_spec; (done || (eapply Forall_impl; [apply unit_costs_bounds|]));
  intros c; unfold GSM7_CONCATENATED, UCS2_CONCATENATED; simpl; lia.
Qed.

(** Encoding choice and diagnosis. A body is GSM-7 exactly when every
    character is in the alphabet or its extension; otherwise the offending
    list is exactly the characters that are not, in order, each at its byte
    offset with its replacement; and a suggestion is offered exactly when
    every offending character has a replacement, is a different body, and
    analyses as GSM-7 itself. *)
Theorem analyse_diagnosis body :
  let r := analyse body in
  (er_encoding r = Gsm7 <-> Forall (fun c => is_gsm7 c = true) body) /\
  er_offending r =
    ((fun '(o, c) => mkOffendingChar c o (replacement_for c))
       <$> List.filter (fun '(_, c) => negb (is_gsm7 c)) (char_indices body)) /\
  (is_Some (er_suggestion r) <->
     er_encoding r = Ucs2 /\
     Forall (fun c => is_gsm7 c = true \/ is_Some (replacement_for c)) body) /\
  (forall s, er_suggestion r = Some s ->
     s <> body /\ er_encoding (analyse s) = Gsm7).
Proof.
  cbv zeta. rewrite <- is_gsm7_str_forall, <- transliterate_is_gsm7.
  rewrite (analyse_eq body). destruct (is_gsm7_str body) eqn:Eg.
  - apply offending_nil in Eg as Ho. rewrite Ho. simpl.
    split; [done|]. split; [done|]. split; [|done].
    split; [by intros [? ?] | by intros [? ?]].
  - simpl. split; [done|]. split; [done|].
    destruct (is_gsm7_str (transliterate_to_gsm7 body).1) eqn:Et; simpl.
    + split; [split; eauto|]. intros s [= <-].
      rewrite analyse_eq, Et. split; [intros E; by rewrite E, Eg in Et | done].
    + split; [split; [by intros [? ?] | by intros [? ?]] | done].
Qed.

(** The unconditional clean-up is complete: no character of a normalised
    body is one the substitution table would still replace, whatever
    canonical composition produced. *)
Theorem normalise_complete body :
  Forall (fun c => substitute c = None) (normalise body).
Proof.
  unfold normalise. induction (nfc body) as [|c r IH]; simpl; [done|].
  destruct (substitute c) as [to|] eqn:Es.
  - apply substitute_sound in Es as (_ & _ & Hto). by apply Forall_app.
  - by constructor.
Qed.

(** Transliteration is stable and never touches an encodable character:
    a character that is rewritten is outside GSM-7 and its replacement is
    inside; a second pass changes nothing. *)
Theorem transliterate_idempotent body :
  (forall c to, replacement_for c = Some to ->
     is_gsm7 c = false /\ is_gsm7_str to = true) /\
  (transliterate_to_gsm7 (transliterate_to_gsm7 body).1).1 = (transliterate_to_gsm7 body).1.
Proof.
  split; [apply replacement_sound|].
  rewrite !transliterate_fst.
  induction body as [|c r IH]; [done|].
  rewrite fmap_cons. cbn [concat].
  rewrite fmap_app, concat_app, IH. f_equal.
  destruct (replacement_for c) as [to|] eqn:Er.
  - assert (translit_char c = to) as -> by (unfold translit_char; by rewrite Er).
    apply replacement_sound in Er as [_ Hto].
    rewrite <- transliterate_fst. by apply transliterate_gsm7_id.
  - assert (translit_char c = [c]) as E by (unfold translit_char; by rewrite Er).
    rewrite E. rewrite fmap_cons. cbn [concat]. by rewrite E.
Qed.

End AnalyseFacts.
