(* ===== verification/SentinelList.v ===== *)
(** * sms-core: sentinel-delimited columns

    Models [backends/crates/sms-core/src/lib.rs]: multi-value columns stored
    as one string with a separator on both sides of every value
    ([Message.excludedRouteIds], scopes, event types).  [split_whitespace] is
    the standard library's: it splits at every Unicode white space, not only
    at the separator. *)

From S2P Require Import Prelude.

Definition SEPARATOR : Z := 32.

Definition EMPTY : text := [32].

Inductive PackError :=
| ContainsSeparator (value : text)
| PackEmpty.

(** The loop of [pack], from the accumulator [packed]. *)
Fixpoint pack_values (packed : text) (values : list text) : result text PackError :=
  match values with
  | [] => Ok packed
  | value :: r =>
      if bool_decide (value = []) then Err PackEmpty
      else if existsb (Z.eqb SEPARATOR) value then Err (ContainsSeparator value)
      else pack_values (packed ++ value ++ [SEPARATOR]) r
  end.

Definition pack (values : list text) : result text PackError := pack_values EMPTY values.

(** [str::split_whitespace]: maximal runs of non-space characters. [cur] is
    the run being read, reversed. *)
Fixpoint split_whitespace_from (cur : text) (s : text) : list text :=
  match s with
  | [] => if bool_decide (cur = []) then [] else [reverse cur]
  | c :: r =>
      if is_whitespace c
      then (if bool_decide (cur = []) then [] else [reverse cur])
             ++ split_whitespace_from [] r
      else split_whitespace_from (c :: cur) r
  end.

Definition unpack (packed : text) : list text := split_whitespace_from [] packed.

Definition contains (packed value : text) : bool :=
  negb (bool_decide (value = [])) && bool_decide (value ∈ unpack packed).

Definition needle (value : text) : text := [SEPARATOR] ++ value ++ [SEPARATOR].

(** ** Specifications *)

(** A value the column can hold: not empty, no white space. *)
Definition packable (v : text) : Prop :=
  v <> [] /\ Forall (fun c => is_whitespace c = false) v.

(** The packed form of a list of values. *)
Definition packed_of (vs : list text) : text :=
  EMPTY ++ concat ((fun v => v ++ [SEPARATOR]) <$> vs).

(** ** Facts *)
Lemma whitespace_sep c : is_whitespace c = false -> (SEPARATOR =? c) = false.
Proof.
  intros Hw. apply Z.eqb_neq. intros <-. discriminate Hw.
Qed.

Lemma packable_no_sep v : packable v -> existsb (Z.eqb SEPARATOR) v = false.
Proof.
  intros [_ Hf]. induction Hf as [|c v Hc Hf IH]; cbn [existsb]; [done|].
  by rewrite whitespace_sep.
Qed.

Lemma pack_values_ok acc vs :
  Forall packable vs -> pack_values acc vs = Ok (acc ++ concat ((fun v => v ++ [SEPARATOR]) <$> vs)).
Proof.
  intros Hf. revert acc. induction Hf as [|v vs Hv Hf IH]; intros acc;
    cbn [pack_values fmap list_fmap concat]; [by rewrite app_nil_r|].
  rewrite bool_decide_eq_false_2 by apply Hv. rewrite packable_no_sep by done.
  rewrite IH. by rewrite <- !(assoc_L (++)).
Qed.

Lemma split_word cur v s :
  Forall (fun c => is_whitespace c = false) v ->
  split_whitespace_from cur (v ++ s) = split_whitespace_from (reverse v ++ cur) s.
Proof.
  intros Hf. revert cur. induction Hf as [|c v Hc Hf IH]; intros cur; simpl; [done|].
  rewrite Hc, IH, reverse_cons. by rewrite <- (assoc_L (++)).
Qed.

Lemma unpack_packed_of vs : Forall packable vs -> unpack (packed_of vs) = vs.
Proof.
  intros Hf. unfold unpack, packed_of. cbn.
  induction Hf as [|v vs [Hne Hv] Hf IH]; [done|].
  cbn [fmap list_fmap concat]. rewrite <- !(assoc_L (++)). rewrite split_word by done.
  cbn. rewrite app_nil_r, bool_decide_eq_false_2.
  - rewrite reverse_involutive. cbn. by rewrite IH.
  - intros E. apply Hne. by rewrite <- (reverse_involutive v), E.
Qed.

Lemma split_whitespace_packable cur s :
  Forall (fun c => is_whitespace c = false) cur ->
  Forall packable (split_whitespace_from cur s).
Proof.
  assert (forall cur, Forall (fun c => is_whitespace c = false) cur ->
    Forall packable (if bool_decide (cur = []) then [] else [reverse cur])) as Hw.
  { intros c Hc. case_bool_decide as He; repeat constructor.
    - intros Hr. apply He. apply (f_equal reverse) in Hr. by rewrite reverse_involutive in Hr.
    - by apply Forall_reverse. }
  revert cur. induction s as [|c s IH]; intros cur Hc; cbn [split_whitespace_from]; [by apply Hw|].
  destruct (is_whitespace c) eqn:E.
  - apply Forall_app. split; [by apply Hw | by apply IH].
  - apply IH. by constructor.
Qed.

Lemma unpack_packable s : Forall packable (unpack s).
Proof. by apply split_whitespace_packable. Qed.

(** Round trip: values without white space are packed, and unpacking
    gives the same list back, in order and with its duplicates. *)
Theorem unpack_pack vs :
  Forall packable vs -> exists p, pack vs = Ok p /\ unpack p = vs.
Proof.
  intros Hf. exists (packed_of vs). split; [by apply pack_values_ok | by apply unpack_packed_of].
Qed.

Lemma unpack_pack_witness :
  exists p, pack [lit "sms:send"; lit "sms:read"] = Ok p /\
    unpack p = [lit "sms:send"; lit "sms:read"].
Proof.
  apply (unpack_pack [lit "sms:send"; lit "sms:read"]).
  repeat constructor; discriminate.
Defined.

(** White space other than the separator is not refused, so a value can
    be stored as one and read back as two: packing is stricter in its
    documentation than in its check. *)
Theorem pack_whitespace_splits :
  exists vs p, pack vs = Ok p /\ unpack p <> vs /\ length (unpack p) = 2%nat /\ length vs = 1%nat.
Proof.
  exists [[97; 9; 98]], [32; 97; 9; 98; 32].
  split; [reflexivity|]. split; [by vm_compute|]. by vm_compute.
Qed.

(** ** Membership *)
Lemma sep_not_in v : Forall (fun c => is_whitespace c = false) v -> SEPARATOR ∉ v.
Proof.
  intros Hf Hin. rewrite Forall_forall in Hf. discriminate (Hf _ Hin).
Qed.

(** A word bounded by separators inside a string that starts with a word is
    either that word or lies in what follows it. *)
Lemma word_prefix_inv v w a s rest :
  SEPARATOR ∉ v -> SEPARATOR ∉ w ->
  v ++ SEPARATOR :: s = a ++ SEPARATOR :: w ++ SEPARATOR :: rest ->
  exists a', SEPARATOR :: s = a' ++ SEPARATOR :: w ++ SEPARATOR :: rest.
Proof.
  revert a. induction v as [|x v IH]; intros a Hv Hw E; simpl in E.
  - by exists a.
  - apply not_elem_of_cons in Hv as [Hx Hv].
    destruct a as [|y a]; simpl in E; injection E as E1 E2; [congruence|].
    by eapply IH.
Qed.

Lemma first_word_inv v w s rest :
  SEPARATOR ∉ v -> SEPARATOR ∉ w ->
  v ++ SEPARATOR :: s = w ++ SEPARATOR :: rest -> v = w.
Proof.
  revert w. induction v as [|x v IH]; intros w Hv Hw E; simpl in E;
    (destruct w as [|y w]; simpl in E; [try done|]).
  - injection E as <- _. apply not_elem_of_cons in Hw as [? _]. done.
  - injection E as -> _. apply not_elem_of_cons in Hv as [? _]. done.
  - injection E as -> E. apply not_elem_of_cons in Hv as [_ Hv].
    apply not_elem_of_cons in Hw as [_ Hw]. f_equal. by eapply IH.
Qed.

Lemma needle_in_packed vs w :
  Forall packable vs -> packable w ->
  str_contains (packed_of vs) (needle w) = true <-> w ∈ vs.
Proof.
  intros Hf [Hwne Hw]. rewrite str_contains_spec. unfold packed_of, needle, EMPTY.
  apply sep_not_in in Hw as Hsw. split.
  - intros (a & b & E). rewrite <- !(assoc_L (++)) in E. cbn in E. revert a E.
    induction Hf as [|v vs [Hne Hv] Hf IH]; intros a E.
    + destruct a as [|x a]; [|by destruct a]. cbn in E. injection E as E.
      by destruct w.
    + cbn [fmap list_fmap concat] in E. rewrite <- !(assoc_L (++)) in E. cbn in E.
      apply sep_not_in in Hv as Hsv.
      destruct a as [|x a]; cbn in E; [injection E as E2|injection E as E1 E2].
      * apply first_word_inv in E2 as ->; [|done..]. by left.
      * right. apply (word_prefix_inv v w a) in E2 as [a' E']; [|done..].
        eapply IH. exact E'.
  - intros Hin. apply list_elem_of_split in Hin as (l1 & l2 & ->).
    apply Forall_app in Hf as [_ _].
    induction l1 as [|v l1 IH].
    + exists [], (concat ((fun v => v ++ [SEPARATOR]) <$> l2)).
      cbn. by rewrite <- !(assoc_L (++)).
    + destruct IH as (a & b & E). exists ([SEPARATOR] ++ v ++ a), b.
      rewrite <- !(assoc_L (++)) in *. rewrite <- E.
      cbn. by rewrite <- !(assoc_L (++)).
Qed.

(** The database-side predicate and the Rust one decide the same
    membership: on a column [pack] wrote, [contains] is true of a value
    without white space exactly when the column has the value's [needle] as
    a substring, so neither matches a longer neighbour. *)
Theorem needle_agrees_with_contains vs w p :
  Forall packable vs -> packable w -> pack vs = Ok p ->
  str_contains p (needle w) = contains p w /\ (contains p w = true <-> w ∈ vs).
Proof.
  intros Hf Hw Hp. unfold pack in Hp. rewrite (pack_values_ok _ _ Hf) in Hp.
  assert (p = packed_of vs) as -> by (unfold packed_of; congruence). clear Hp.
  assert (contains (packed_of vs) w = bool_decide (w ∈ vs)) as Hc.
  { unfold contains. rewrite unpack_packed_of by done.
    rewrite bool_decide_eq_false_2 by apply Hw. done. }
  rewrite Hc, bool_decide_eq_true. split; [|done].
  apply eq_true_iff_eq. rewrite needle_in_packed, bool_decide_eq_true by done. done.
Qed.

Lemma needle_agrees_with_contains_witness :
  str_contains (lit " sms:sendall ") (needle (lit "sms:send"))
    = contains (lit " sms:sendall ") (lit "sms:send") /\
  (contains (lit " sms:sendall ") (lit "sms:send") = true
     <-> lit "sms:send" ∈ [lit "sms:sendall"]).
Proof.
  apply (needle_agrees_with_contains [lit "sms:sendall"]); [| |reflexivity];
    repeat constructor; discriminate.
Defined.
