(* ===== verification/Float64.v ===== *)
(** * IEEE-754 binary64

    The [f64] operations the routing engine and the dispatch budget use, as
    the standard library's executable specification of binary64
    ([SpecFloat], round to nearest, ties to even). *)

From Stdlib Require Import SpecFloat.
From S2P Require Import Prelude.

Abbreviation f64 := spec_float.

(** [i64 as f64]. *)
Definition f64_of_Z (z : Z) : f64 := binary_normalize 53 1024 z 0 false.

Definition f64_add : f64 -> f64 -> f64 := SFadd 53 1024.
Definition f64_mul : f64 -> f64 -> f64 := SFmul 53 1024.
Definition f64_div : f64 -> f64 -> f64 := SFdiv 53 1024.
Definition f64_ltb (a b : f64) : bool := SFltb a b.

Definition f64_zero : f64 := S754_zero false.
Definition f64_one : f64 := f64_of_Z 1.

(** [f64::clamp]: a NaN stays a NaN. *)
Definition f64_clamp (x lo hi : f64) : f64 :=
  let x := if f64_ltb x lo then lo else x in
  if f64_ltb hi x then hi else x.

(** [f64::ceil] followed by [as i64]: saturating, NaN becomes 0. *)
Definition f64_ceil_i64 (x : f64) : Z :=
  let sat z := Z.max (- 2 ^ 63) (Z.min z (2 ^ 63 - 1)) in
  match x with
  | S754_zero _ | S754_nan => 0
  | S754_infinity s => if s then - 2 ^ 63 else 2 ^ 63 - 1
  | S754_finite s m e =>
      let v := if s then Z.neg m else Z.pos m in
      if 0 <=? e then sat (v * 2 ^ e) else sat (- ((- v) / 2 ^ (- e)))
  end.

Lemma f64_add_zero_r x : x <> S754_zero true -> f64_add x f64_zero = x.
Proof. by destruct x as [[]|[]| |[]]. Qed.

(** A quotient of zero is never above a draw that is not below zero. *)
Lemma f64_ltb_zero_div x d : f64_ltb x f64_zero = false ->
  f64_ltb x (f64_div f64_zero d) = false.
Proof.
  unfold f64_ltb, SFltb, f64_div, f64_zero. intros Hx.
  destruct d as [s|s| |s m e]; simpl; try (by destruct x as [|[]| |[]]);
    destruct s; simpl; by destruct x as [[]|[]| |[]].
Qed.

Lemma f64_clamp_nonneg x hi :
  f64_ltb f64_zero hi = true -> f64_ltb (f64_clamp x f64_zero hi) f64_zero = false.
Proof.
  intros Hhi. unfold f64_clamp.
  set (y := if f64_ltb x f64_zero then f64_zero else x).
  assert (f64_ltb y f64_zero = false) as Hy.
  { subst y. destruct (f64_ltb x f64_zero) eqn:E; [by vm_compute | done]. }
  destruct (f64_ltb hi y); [|done].
  by destruct hi as [|[]| |[]].
Qed.

(** Adding a zero share does not move a range boundary past a draw. *)
Lemma f64_ltb_div_add_zero x a d :
  f64_ltb x (f64_div (f64_add a f64_zero) d) = f64_ltb x (f64_div a d).
Proof.
  destruct a as [[]|s| |s m e]; try done.
  unfold f64_ltb, SFltb, f64_div, f64_add, f64_zero; simpl.
  destruct d as [s|s| |s m e]; simpl; try done; destruct s; simpl; by destruct x as [|[]| |[]].
Qed.
