(* ===== verification/RoutingEngine.v ===== *)
(** * sms-routing: the route selection engine

    Models [backends/crates/sms-routing]: the rows the engine reads and the
    explanation it returns (types.rs), and [select_route] with its helpers
    (engine.rs).  Draws and ranges are binary64 values ([Float64]); a panic
    (an [expect] that fails) would be the [None] of [select_route]. *)

From S2P Require Import Prelude Float64.

(** ** types.rs *)
Inductive Operator := Mtn | Orange | Camtel | Nexttel | UnknownOperator.

Inductive MessageClass := Otp | Transactional | Notification | Marketing.

#[export] Instance Operator_eq_dec : EqDecision Operator.
Proof. solve_decision. Defined.

#[export] Instance MessageClass_eq_dec : EqDecision MessageClass.
Proof. solve_decision. Defined.

Record RouteRow := mkRouteRow {
  rr_id : text;
  rr_name : text;
  rr_priority : Z;
  rr_weight : Z;
  rr_enabled : bool;
  rr_match_operator : option Operator;
  rr_match_class : option MessageClass;
  rr_match_app_id : option text;
  rr_match_prefix : option text;
  rr_provider_id : text;
  rr_failover_route_id : option text }.

Record ProviderRow := mkProviderRow {
  pr_id : text;
  pr_available : bool;
  pr_reason : option text }.

Record RoutingCandidate := mkRoutingCandidate {
  rc_operator : Operator;
  rc_class : MessageClass;
  rc_app_id : text;
  rc_msisdn_national : text }.

Inductive PredicateFailure :=
| PFOperator (expected actual : Operator)
| PFClass (expected actual : MessageClass)
| PFAppId (expected actual : text)
| PFPrefix (expected msisdn_national : text).

Inductive RouteOutcome :=
| Excluded
| Disabled
| PredicateFailed (f : PredicateFailure)
| ProviderUnavailable (reason : text)
| Eligible (winning_band : bool).

Record RouteEvaluation := mkRouteEvaluation {
  ev_route_id : text;
  ev_route_name : text;
  ev_priority : Z;
  ev_weight : Z;
  ev_provider_id : text;
  ev_outcome : RouteOutcome }.

Record TieBreakRange := mkTieBreakRange {
  tr_route_id : text;
  tr_weight : Z;
  tr_low : f64;
  tr_high : f64 }.

Record TieBreak := mkTieBreak {
  tb_priority : Z;
  tb_draw : f64;
  tb_ranges : list TieBreakRange;
  tb_winner_route_id : text }.

Record Winner := mkWinner {
  w_route_id : text;
  w_provider_id : text;
  w_failover_route_id : option text }.

Record RouteDecision := mkDecision {
  d_evaluations : list RouteEvaluation;
  d_tie_break : option TieBreak;
  d_winner : option Winner }.

Abbreviation ExcludedRouteIds := (gset text).

(** ** engine.rs *)
Definition failing_predicate (route : RouteRow) (candidate : RoutingCandidate)
  : option PredicateFailure :=
  let operator_fails :=
    match rr_match_operator route with
    | Some expected =>
        if bool_decide (expected = rc_operator candidate) then None
        else Some (PFOperator expected (rc_operator candidate))
    | None => None
    end in
  let class_fails :=
    match rr_match_class route with
    | Some expected =>
        if bool_decide (expected = rc_class candidate) then None
        else Some (PFClass expected (rc_class candidate))
    | None => None
    end in
  let app_fails :=
    match rr_match_app_id route with
    | Some expected =>
        if bool_decide (expected = rc_app_id candidate) then None
        else Some (PFAppId expected (rc_app_id candidate))
    | None => None
    end in
  let prefix_fails :=
    match rr_match_prefix route with
    | Some expected =>
        if starts_with (rc_msisdn_national candidate) expected then None
        else Some (PFPrefix expected (rc_msisdn_national candidate))
    | None => None
    end in
  match operator_fails with
  | Some f => Some f
  | None =>
    match class_fails with
    | Some f => Some f
    | None =>
      match app_fails with
      | Some f => Some f
      | None => prefix_fails
      end
    end
  end.

Definition evaluate_one (route : RouteRow) (providers : gmap text ProviderRow)
  (candidate : RoutingCandidate) (exclude : ExcludedRouteIds) : RouteEvaluation :=
  let outcome :=
    if bool_decide (rr_id route ∈ exclude) then Excluded
    else if negb (rr_enabled route) then Disabled
    else match failing_predicate route candidate with
    | Some failure => PredicateFailed failure
    | None =>
        match providers !! rr_provider_id route with
        | Some provider =>
            if pr_available provider then Eligible false
            else ProviderUnavailable (default (lit "provider unavailable") (pr_reason provider))
        | None => ProviderUnavailable (lit "no provider record for " ++ rr_provider_id route)
        end
    end in
  mkRouteEvaluation (rr_id route) (rr_name route) (rr_priority route) (rr_weight route)
    (rr_provider_id route) outcome.

Definition is_eligible (ev : RouteEvaluation) : bool :=
  match ev_outcome ev with Eligible _ => true | _ => false end.

(** The loop of [pick_weighted], from the accumulated share [acc] and the
    winner found so far. *)
Fixpoint pick_loop (uniform : bool) (denom draw acc : f64) (winner : option text)
  (band : list RouteRow) : list TieBreakRange * option text :=
  match band with
  | [] => ([], winner)
  | route :: r =>
      let share := if uniform then f64_one else f64_of_Z (Z.max (rr_weight route) 0) in
      let low := f64_div acc denom in
      let acc' := f64_add acc share in
      let high := f64_div acc' denom in
      let winner' :=
        match winner with
        | None => if f64_ltb draw high then Some (rr_id route) else None
        | Some _ => winner
        end in
      let '(ranges, w) := pick_loop uniform denom draw acc' winner' r in
      (mkTieBreakRange (rr_id route) (rr_weight route) low high :: ranges, w)
  end.

(** An [i64] in the code.  The schema keeps a weight between 0 and 1000, so the
    sum over stored routes stays far below its end. *)
Definition total_weight (band : list RouteRow) : Z :=
  foldr (fun r acc => Z.max (rr_weight r) 0 + acc) 0 band.

Definition pick_weighted (band : list RouteRow) (priority : Z) (draw : f64)
  : option (text * TieBreak) :=
  let uniform := total_weight band =? 0 in
  let denom := if uniform then f64_of_Z (Z.of_nat (length band))
               else f64_of_Z (total_weight band) in
  let '(ranges, winner) := pick_loop uniform denom draw f64_zero None band in
  let winner := match winner with
                | Some w => Some w
                | None => rr_id <$> last band
                end in
  (fun w => (w, mkTieBreak priority draw ranges w)) <$> winner.

Definition set_outcome (ev : RouteEvaluation) (o : RouteOutcome) : RouteEvaluation :=
  mkRouteEvaluation (ev_route_id ev) (ev_route_name ev) (ev_priority ev) (ev_weight ev)
    (ev_provider_id ev) o.

(** [Iterator::max] on the priorities of the eligible routes. *)
Definition max_opt (l : list Z) : option Z :=
  foldr (fun x m => Some (match m with Some y => Z.max x y | None => x end)) None l.

(** [0.999_999_999_9] *)
Definition DRAW_MAX : f64 := f64_div (f64_of_Z 9999999999) (f64_of_Z 10000000000).

Definition select_route (routes : list RouteRow) (providers : gmap text ProviderRow)
  (candidate : RoutingCandidate) (exclude : ExcludedRouteIds) (draw : f64)
  : option RouteDecision :=
  let draw := f64_clamp draw f64_zero DRAW_MAX in
  let evaluations :=
    (fun route => evaluate_one route providers candidate exclude) <$> routes in
  let winning_priority :=
    max_opt ((fun er => rr_priority er.2)
               <$> List.filter (fun er => is_eligible er.1) (zip evaluations routes)) in
  match winning_priority with
  | None => Some (mkDecision evaluations None None)
  | Some winning_priority =>
      let in_band (er : RouteEvaluation * RouteRow) :=
        (rr_priority er.2 =? winning_priority) && is_eligible er.1 in
      let evaluations' :=
        (fun er => if in_band er then set_outcome er.1 (Eligible true) else er.1)
          <$> zip evaluations routes in
      let band := snd <$> List.filter in_band (zip evaluations routes) in
      let chosen :=
        match band with
        | [only] => Some (only, None)
        | _ =>
            match pick_weighted band winning_priority draw with
            | None => None
            | Some (winner_id, tie_break) =>
                match List.find (fun r => bool_decide (rr_id r = winner_id)) band with
                | None => None
                | Some winner_route => Some (winner_route, Some tie_break)
                end
            end
        end in
      match chosen with
      | None => None
      | Some (winner_route, tie_break) =>
          Some (mkDecision evaluations' tie_break
                  (Some (mkWinner (rr_id winner_route) (rr_provider_id winner_route)
                           (rr_failover_route_id winner_route))))
      end
  end.

(** ** Specification *)
Definition route_matches (route : RouteRow) (candidate : RoutingCandidate) : Prop :=
  (forall o, rr_match_operator route = Some o -> o = rc_operator candidate) /\
  (forall c, rr_match_class route = Some c -> c = rc_class candidate) /\
  (forall a, rr_match_app_id route = Some a -> a = rc_app_id candidate) /\
  (forall p, rr_match_prefix route = Some p ->
     exists rest, rc_msisdn_national candidate = p ++ rest).

(** A route may be used: not excluded, enabled, every stated predicate
    matches, and its provider is known and available. *)
Definition eligible (providers : gmap text ProviderRow) (candidate : RoutingCandidate)
  (exclude : ExcludedRouteIds) (route : RouteRow) : Prop :=
  (rr_id route ∉ exclude) /\ rr_enabled route = true /\ route_matches route candidate /\
  exists p, providers !! rr_provider_id route = Some p /\ pr_available p = true.

(** ** Facts *)
Lemma failing_predicate_None route candidate :
  failing_predicate route candidate = None <-> route_matches route candidate.
Proof.
  unfold failing_predicate, route_matches.
  destruct (rr_match_operator route) as [o|], (rr_match_class route) as [c|],
    (rr_match_app_id route) as [a|], (rr_match_prefix route) as [p|];
  repeat case_bool_decide; try destruct (starts_with _ _) eqn:Es;
  try (rewrite starts_with_spec in Es);
  (split; [intros Hx; try discriminate Hx; repeat split; intros ? [= <-]; done|]);
  intros (Ho & Hc & Ha & Hp); try reflexivity; exfalso;
  repeat match goal with
  | Hx : forall _, Some ?v = Some _ -> _ |- _ => specialize (Hx _ eq_refl)
  end; try congruence;
  apply starts_with_spec in Hp; congruence.
Qed.

Lemma evaluate_one_eligible providers candidate exclude route :
  is_eligible (evaluate_one route providers candidate exclude) = true <->
  eligible providers candidate exclude route.
Proof.
  unfold is_eligible, evaluate_one, eligible. cbn [ev_outcome].
  case_bool_decide as Hx; [split; [done | by intros [? _]]|].
  destruct (rr_enabled route); simpl; [|split; [done | by intros (_ & ? & _)]].
  rewrite <- failing_predicate_None.
  destruct (failing_predicate route candidate) as [f|];
    [split; [done | by intros (_ & _ & ? & _)]|].
  destruct (providers !! rr_provider_id route) as [p|];
    [|split; [done | by intros (_ & _ & _ & ? & ? & _)]].
  destruct (pr_available p) eqn:Ep; (split; [|]).
  - intros _. repeat split; eauto.
  - done.
  - done.
  - intros (_ & _ & _ & ? & [= <-] & ?). congruence.
Qed.

Lemma zip_fmap_self {A B} (f : A -> B) l : zip (f <$> l) l = (fun x => (f x, x)) <$> l.
Proof. induction l; simpl; f_equal; done. Qed.

Lemma filter_fmap_l {A B} (g : A -> B) (p : B -> bool) l :
  List.filter p (g <$> l) = g <$> List.filter (fun x => p (g x)) l.
Proof. induction l as [|x l IH]; cbn; [done|]. destruct (p (g x)); cbn; by rewrite IH. Qed.

Lemma max_opt_spec l m :
  max_opt l = Some m -> m ∈ l /\ forall x, x ∈ l -> x <= m.
Proof.
  revert m; induction l as [|x l IH]; simpl; [done|]. intros m.
  destruct (max_opt l) as [y|] eqn:E; intros [= <-].
  - destruct (IH y eq_refl) as [Hin Hle]. split.
    + destruct (Z.max_spec x y) as [[_ ->]|[_ ->]]; [by right | by left].
    + intros z [->|Hz]%elem_of_cons; [lia|]. specialize (Hle z Hz). lia.
  - split; [by left|]. intros z [->|Hz]%elem_of_cons; [done|].
    destruct l as [|z' l]; [by apply not_elem_of_nil in Hz | by simpl in E].
Qed.

Lemma max_opt_None l : max_opt l = None <-> l = [].
Proof. by destruct l. Qed.

Lemma elem_of_filter_bool {A} (p : A -> bool) l x :
  x ∈ List.filter p l <-> x ∈ l /\ p x = true.
Proof. by rewrite !list_elem_of_In, List.filter_In. Qed.

Lemma pick_loop_some uniform denom draw acc w band :
  (pick_loop uniform denom draw acc (Some w) band).2 = Some w.
Proof.
  revert acc; induction band as [|r band IH]; intros acc; cbn; [done|].
  specialize (IH (f64_add acc (if uniform then f64_one else f64_of_Z (Z.max (rr_weight r) 0)))).
  by destruct (pick_loop _ _ _ _ _ _).
Qed.

(** What the loop finds from an empty-handed start. *)
Lemma pick_loop_spec uniform denom draw acc band :
  f64_ltb draw (f64_div acc denom) = false ->
  let '(ranges, w) := pick_loop uniform denom draw acc None band in
  tr_route_id <$> ranges = rr_id <$> band /\
  match w with
  | Some id => exists rg, rg ∈ ranges /\ tr_route_id rg = id /\
      f64_ltb draw (tr_low rg) = false /\ f64_ltb draw (tr_high rg) = true /\
      (uniform = true \/ 0 < tr_weight rg)
  | None => Forall (fun rg => f64_ltb draw (tr_high rg) = false) ranges
  end.
Proof.
  revert acc. induction band as [|r band IH]; intros acc Hacc; [by cbn|].
  cbn [pick_loop].
  set (share := if uniform then _ else _). set (acc' := f64_add acc share).
  destruct (f64_ltb draw (f64_div acc' denom)) eqn:Eh.
  - pose proof (pick_loop_some uniform denom draw acc' (rr_id r) band) as Hs.
    assert (tr_route_id <$> (pick_loop uniform denom draw acc' (Some (rr_id r)) band).1
            = rr_id <$> band) as Hr.
    { generalize acc' (Some (rr_id r)). clear.
      induction band as [|x band IH]; intros acc w; cbn; [done|].
      match goal with |- context [pick_loop ?u ?d ?dr ?a ?w' band] =>
        specialize (IH a w'); destruct (pick_loop u d dr a w' band) end.
      cbn in *. by rewrite IH. }
    destruct (pick_loop _ _ _ _ _ _) as [ranges w]. cbn in Hs, Hr. subst w.
    split; [cbn; by rewrite Hr|].
    eexists. split; [by left|]. cbn. repeat split; [done | done |].
    destruct uniform; [by left|]. right. apply Z.nle_gt. intros Hw.
    subst acc' share. rewrite Z.max_r in Eh by done.
    change (f64_of_Z 0) with f64_zero in Eh. rewrite f64_ltb_div_add_zero in Eh. congruence.
  - specialize (IH acc' Eh).
    destruct (pick_loop _ _ _ _ _ _) as [ranges w]. destruct IH as [Hids IH].
    split; [cbn; by rewrite Hids|].
    destruct w as [id|]; [|by constructor].
    destruct IH as (rg & Hin & Hrest). exists rg. split; [by right | done].
Qed.

Section SelectRoute.
Context (routes : list RouteRow) (providers : gmap text ProviderRow)
        (candidate : RoutingCandidate) (exclude : ExcludedRouteIds) (draw : f64).

Definition elig (r : RouteRow) : bool :=
  is_eligible (evaluate_one r providers candidate exclude).

(** The routes that contend at priority [wp]. *)
Definition band_at (wp : Z) : list RouteRow :=
  List.filter (fun r => (rr_priority r =? wp) && elig r) routes.

Definition clamped : f64 := f64_clamp draw f64_zero DRAW_MAX.

Definition choose (wp : Z) (band : list RouteRow) : option (RouteRow * option TieBreak) :=
  match band with
  | [only] => Some (only, None)
  | _ =>
      match pick_weighted band wp clamped with
      | None => None
      | Some (winner_id, tie_break) =>
          match List.find (fun r => bool_decide (rr_id r = winner_id)) band with
          | None => None
          | Some winner_route => Some (winner_route, Some tie_break)
          end
      end
  end.

Lemma select_route_eq :
  select_route routes providers candidate exclude draw =
  let evs := (fun r => evaluate_one r providers candidate exclude) <$> routes in
  match max_opt (rr_priority <$> List.filter elig routes) with
  | None => Some (mkDecision evs None None)
  | Some wp =>
      match choose wp (band_at wp) with
      | None => None
      | Some (w, tb) =>
          Some (mkDecision
            ((fun r => let ev := evaluate_one r providers candidate exclude in
                       if (rr_priority r =? wp) && elig r
                       then set_outcome ev (Eligible true) else ev) <$> routes)
            tb (Some (mkWinner (rr_id w) (rr_provider_id w) (rr_failover_route_id w))))
      end
  end.
Proof.
  unfold select_route. cbv zeta. rewrite zip_fmap_self, filter_fmap_l.
  rewrite <- list_fmap_compose.
  change (fun x => is_eligible (evaluate_one x providers candidate exclude, x).1) with elig.
  change ((fun er : RouteEvaluation * RouteRow => rr_priority er.2)
    ∘ (fun x => (evaluate_one x providers candidate exclude, x))) with rr_priority.
  destruct (max_opt _) as [wp|]; [|done].
  rewrite filter_fmap_l, <- !list_fmap_compose.
  match goal with |- context [(snd ∘ ?g) <$> List.filter ?p routes] =>
    assert ((snd ∘ g) <$> List.filter p routes = band_at wp) as -> end.
  { rewrite <- (list_fmap_id (band_at wp)). done. }
  unfold choose. destruct (band_at wp) as [|r [|r' l]]; reflexivity.
Qed.

Lemma elem_of_band wp r :
  r ∈ band_at wp <-> r ∈ routes /\ rr_priority r = wp /\ eligible providers candidate exclude r.
Proof.
  unfold band_at. rewrite elem_of_filter_bool, andb_true_iff, Z.eqb_eq.
  unfold elig. by rewrite evaluate_one_eligible.
Qed.

Lemma clamped_nonneg : f64_ltb clamped f64_zero = false.
Proof. apply f64_clamp_nonneg. by vm_compute. Qed.

(** How a band of several members is decided. *)
Lemma choose_spec wp band :
  band <> [] ->
  exists r tb, choose wp band = Some (r, tb) /\ r ∈ band /\
    (tb = None <-> exists only, band = [only]) /\
    (forall b, tb = Some b ->
       tb_draw b = clamped /\ tb_priority b = wp /\
       tb_winner_route_id b = rr_id r /\
       tr_route_id <$> tb_ranges b = rr_id <$> band /\
       ((exists rg, rg ∈ tb_ranges b /\ tr_route_id rg = rr_id r /\
           f64_ltb clamped (tr_low rg) = false /\ f64_ltb clamped (tr_high rg) = true /\
           (total_weight band = 0 \/ 0 < tr_weight rg)) \/
        Forall (fun rg => f64_ltb clamped (tr_high rg) = false) (tb_ranges b))).
Proof.
  intros Hne. destruct band as [|r0 band0] eqn:Eb; [done|].
  destruct band0 as [|r1 band1].
  { exists r0, None. split; [done|]. split; [by left|]. split; [naive_solver | done]. }
  rewrite <- Eb in *. clear Hne.
  assert (choose wp band = match pick_weighted band wp clamped with
      | None => None
      | Some (winner_id, tie_break) =>
          match List.find (fun r => bool_decide (rr_id r = winner_id)) band with
          | None => None
          | Some winner_route => Some (winner_route, Some tie_break)
          end
      end) as -> by (by rewrite Eb).
  unfold pick_weighted.
  set (uniform := total_weight band =? 0). set (denom := if uniform then _ else _).
  pose proof (pick_loop_spec uniform denom clamped f64_zero band
    (f64_ltb_zero_div _ _ clamped_nonneg)) as Hp.
  destruct (pick_loop _ _ _ _ _ _) as [ranges w]. destruct Hp as [Hids Hp].
  set (winner := match w with Some w => Some w | None => rr_id <$> last band end).
  assert (exists id, winner = Some id /\ id ∈ rr_id <$> band) as (id & Hw & Hid).
  { subst winner. destruct w as [id|].
    - destruct Hp as (rg & Hin & <- & _). exists (tr_route_id rg). split; [done|].
      rewrite <- Hids. by apply list_elem_of_fmap_2.
    - assert (is_Some (last band)) as [rl Hl] by (rewrite Eb; apply last_is_Some; done).
      exists (rr_id rl). rewrite Hl. split; [done|]. apply list_elem_of_fmap_2.
      by apply last_Some_elem_of. }
  rewrite Hw. cbn.
  destruct (List.find (fun r => bool_decide (rr_id r = id)) band) as [r|] eqn:Ef.
  2: { exfalso. apply list_elem_of_fmap in Hid as (r & -> & Hr).
       apply list_elem_of_In in Hr. pose proof (List.find_none _ _ Ef _ Hr) as Hx.
       cbn in Hx. by rewrite bool_decide_eq_true_2 in Hx. }
  apply List.find_some in Ef as [Hr Heq]. apply bool_decide_eq_true in Heq.
  eexists r, _. split; [done|]. split; [by apply list_elem_of_In|].
  split. { split; [done|]. intros [only E]. by rewrite Eb in E. }
  intros b [= <-]. cbn. repeat split; [done | done |].
  destruct w as [id'|]; subst winner.
  - left. injection Hw as ->. destruct Hp as (rg & Hin & E & ? & ? & Hz). exists rg.
    repeat split; [done | congruence | done | done |].
    destruct Hz as [Hz|Hz]; [left | by right]. subst uniform. by apply Z.eqb_eq.
  - by right.
Qed.

End SelectRoute.

(** The contract of the engine, as its clients use it. *)
Lemma select_route_spec routes providers candidate exclude draw :
  exists d, select_route routes providers candidate exclude draw = Some d /\
    ev_route_id <$> d_evaluations d = rr_id <$> routes /\
    match d_winner d with
    | None => Forall (fun r => ~ eligible providers candidate exclude r) routes
    | Some w => exists r, r ∈ routes /\ eligible providers candidate exclude r /\
        w = mkWinner (rr_id r) (rr_provider_id r) (rr_failover_route_id r) /\
        forall r', r' ∈ routes -> eligible providers candidate exclude r' ->
          rr_priority r' <= rr_priority r
    end.
Proof.
  rewrite select_route_eq. cbv zeta. destruct (max_opt _) as [wp|] eqn:Em.
  - apply max_opt_spec in Em as [Hin Hmax].
    apply list_elem_of_fmap in Hin as (r0 & -> & [Hr0 He0]%elem_of_filter_bool).
    destruct (choose_spec draw (rr_priority r0)
      (band_at routes providers candidate exclude (rr_priority r0)))
      as (r & tb & Hc & Hr & _).
    { intros E. assert (r0 ∈ @nil RouteRow) as Hx; [|by apply not_elem_of_nil in Hx].
      rewrite <- E. apply elem_of_band. by rewrite <- evaluate_one_eligible. }
    rewrite Hc. eexists. split; [done|]. cbn. split.
    + rewrite <- list_fmap_compose. apply list_fmap_ext. intros i x _. cbn.
      by case_match.
    + apply elem_of_band in Hr as (Hr & Hp & He). exists r.
      split; [done|]. split; [done|]. split; [done|]. intros r' Hr' He'. rewrite Hp. apply Hmax. apply list_elem_of_fmap_2.
      apply elem_of_filter_bool. split; [done|]. by apply evaluate_one_eligible.
  - apply max_opt_None in Em. apply fmap_nil_inv in Em.
    eexists. split; [done|]. cbn. split.
    + rewrite <- list_fmap_compose. by apply list_fmap_ext.
    + apply Forall_forall. intros r Hr He. apply evaluate_one_eligible in He.
      assert (r ∈ @nil RouteRow) as Hx; [|by apply not_elem_of_nil in Hx].
      rewrite <- Em. by apply elem_of_filter_bool.
Qed.

(** C37. Route selection. The engine never panics; it returns one evaluation
    per input route, in order; it names a winner exactly when some route is
    eligible (not excluded, enabled, all predicates matching, provider
    available), and the winner is an eligible route of the highest priority
    any eligible route has, whatever its weight and whatever the draw. *)
Theorem select_route_winner routes providers candidate exclude draw :
  exists d, select_route routes providers candidate exclude draw = Some d /\
    ev_route_id <$> d_evaluations d = rr_id <$> routes /\
    match d_winner d with
    | None => Forall (fun r => ~ eligible providers candidate exclude r) routes
    | Some w => exists r, r ∈ routes /\ eligible providers candidate exclude r /\
        w = mkWinner (rr_id r) (rr_provider_id r) (rr_failover_route_id r) /\
        forall r', r' ∈ routes -> eligible providers candidate exclude r' ->
          rr_priority r' <= rr_priority r
    end.
Proof. apply select_route_spec. Qed.

(** The weighted draw. When a tie is broken, the ranges are the band's
    members in order and the winner is the member whose range [low, high)
    the clamped draw falls in; that member has a positive weight unless no
    member of the band has one.  Only when rounding leaves the draw above
    every range is another member (the last) taken. *)
Theorem select_route_tie_break routes providers candidate exclude draw d tb :
  select_route routes providers candidate exclude draw = Some d ->
  d_tie_break d = Some tb ->
  exists w r, d_winner d = Some w /\ r ∈ routes /\ w_route_id w = rr_id r /\
    tb_winner_route_id tb = rr_id r /\ tb_priority tb = rr_priority r /\
    let band := band_at routes providers candidate exclude (rr_priority r) in
    let draw' := clamped draw in
    (2 <= length band)%nat /\ tr_route_id <$> tb_ranges tb = rr_id <$> band /\
    ((exists rg, rg ∈ tb_ranges tb /\ tr_route_id rg = rr_id r /\
        f64_ltb draw' (tr_low rg) = false /\ f64_ltb draw' (tr_high rg) = true /\
        (total_weight band = 0 \/ 0 < tr_weight rg)) \/
     Forall (fun rg => f64_ltb draw' (tr_high rg) = false) (tb_ranges tb)).
Proof.
  rewrite select_route_eq. cbv zeta. destruct (max_opt _) as [wp|] eqn:Em;
    [|by intros [= <-]].
  apply max_opt_spec in Em as [Hin Hmax].
  apply list_elem_of_fmap in Hin as (r0 & -> & [Hr0 He0]%elem_of_filter_bool).
  destruct (choose_spec draw (rr_priority r0)
    (band_at routes providers candidate exclude (rr_priority r0)))
    as (r & ob & Hc & Hr & Hnone & Hsome).
  { intros E. assert (r0 ∈ @nil RouteRow) as Hx; [|by apply not_elem_of_nil in Hx].
    rewrite <- E. apply elem_of_band. by rewrite <- evaluate_one_eligible. }
  rewrite Hc. intros [= <-]. cbn. intros ->.
  destruct (Hsome tb eq_refl) as (Hd & Hp & Hw & Hids & Hcase).
  apply elem_of_band in Hr as (Hrin & Hprio & _).
  eexists _, r. split; [done|]. cbn. rewrite Hprio. repeat split; try done.
  destruct (band_at _ _ _ _ _) as [|x [|y l]] eqn:Eb; cbn; [| |lia].
  - assert (r0 ∈ @nil RouteRow) as Hx; [|by apply not_elem_of_nil in Hx].
    rewrite <- Eb. apply elem_of_band. by rewrite <- evaluate_one_eligible.
  - assert (Some tb = None) by (apply Hnone; by exists x). done.
Qed.

(** ** A two-member band, for the examples *)
Definition ex_route (id : text) (weight : Z) : RouteRow :=
  mkRouteRow id id 10 weight true None None None None (lit "p") None.

Definition ex_routes : list RouteRow := [ex_route (lit "light") 1; ex_route (lit "heavy") 3].

Definition ex_providers : gmap text ProviderRow := {[ lit "p" := mkProviderRow (lit "p") true None ]}.

Definition ex_candidate : RoutingCandidate :=
  mkRoutingCandidate Mtn Otp (lit "app") (lit "677123456").

(** A draw of one half: outside the light route's quarter. *)
Definition ex_draw : f64 := f64_div f64_one (f64_of_Z 2).

Definition ex_decision : option RouteDecision :=
  Eval vm_compute in select_route ex_routes ex_providers ex_candidate ∅ ex_draw.

Definition ex_tie : option TieBreak := Eval vm_compute in ex_decision ≫= d_tie_break.

Lemma select_route_tie_break_witness :
  exists d tb, ex_decision = Some d /\ ex_tie = Some tb /\
  exists w r, d_winner d = Some w /\ r ∈ ex_routes /\ w_route_id w = rr_id r /\
    tb_winner_route_id tb = rr_id r /\ rr_id r = lit "heavy".
Proof.
  eexists _, _. split; [unfold ex_decision; reflexivity|].
  split; [unfold ex_tie; reflexivity|].
  edestruct (select_route_tie_break ex_routes ex_providers ex_candidate ∅ ex_draw)
    as (w & r & Hw & Hr & Hid & Htb & _); [vm_compute; reflexivity | reflexivity |].
  exists w, r. repeat split; [exact Hw | exact Hr | exact Hid | exact Htb |].
  rewrite <- Htb. vm_compute. reflexivity.
Defined.
