(* ===== verification/Msisdn.v ===== *)
(** * sms-msisdn: recipients

    Models [backends/crates/sms-msisdn]: the sanitising pass and the parser
    (lib.rs), line types (plan.rs), regions (region.rs) and the operator
    prefix table (operator.rs).

    The [phonenumber] crate (numbering-plan metadata, its parser) is a
    parameter: the class [PhoneLib], with what the parser promises about its
    results as [PhoneLibSound]. *)

From S2P Require Import Prelude.

(** ** The phonenumber crate *)
Record Descriptor := mkDescriptor {
  ds_is_match : text -> bool;
  ds_national_number : text;        (* the pattern's source *)
  ds_possible_length : list Z }.

Record Metadata := mkMetadata {
  md_id : text;
  md_general : Descriptor;
  md_fixed_line : option Descriptor;
  md_mobile : option Descriptor;
  md_toll_free : option Descriptor;
  md_premium_rate : option Descriptor;
  md_shared_cost : option Descriptor;
  md_personal_number : option Descriptor;
  md_voip : option Descriptor;
  md_pager : option Descriptor;
  md_uan : option Descriptor;
  md_voicemail : option Descriptor }.

Record PhoneNumber := mkPhoneNumber {
  pn_code : Z;              (* u16 *)
  pn_national : text;
  pn_metadata : option Metadata }.

Inductive PhoneParseError := InvalidCountryCode | OtherParseError.

Class PhoneLib := {
  CountryId : Type;
  country_CM : CountryId;
  country_as_ref : CountryId -> text;
  country_from_str : text -> option CountryId;
  phone_parse : CountryId -> text -> result PhoneNumber PhoneParseError }.

(** ** plan.rs: LineType *)
Inductive LineType :=
| Mobile | FixedLineOrMobile | FixedLine | TollFree | PremiumRate | SharedCost
| Voip | PersonalNumber | Pager | Uan | Voicemail | Unallocated.

#[export] Instance LineType_eq_dec : EqDecision LineType.
Proof. solve_decision. Defined.

Definition is_addressable (lt : LineType) : bool :=
  match lt with Mobile | FixedLineOrMobile => true | _ => false end.

Definition line_type_str (lt : LineType) : text :=
  match lt with
  | Mobile => lit "mobile"
  | FixedLineOrMobile => lit "fixed_line_or_mobile"
  | FixedLine => lit "fixed_line"
  | TollFree => lit "toll_free"
  | PremiumRate => lit "premium_rate"
  | SharedCost => lit "shared_cost"
  | Voip => lit "voip"
  | PersonalNumber => lit "personal_number"
  | Pager => lit "pager"
  | Uan => lit "uan"
  | Voicemail => lit "voicemail"
  | Unallocated => lit "unallocated"
  end.

Definition desc_match (d : option Descriptor) (national : text) : bool :=
  match d with Some x => ds_is_match x national | None => false end.

(** The first typed descriptor that matches, in the resolver's order. *)
Fixpoint first_match (l : list (option Descriptor * LineType)) (national : text)
  : option LineType :=
  match l with
  | [] => None
  | (d, lt) :: r => if desc_match d national then Some lt else first_match r national
  end.

Definition line_type_of (meta : Metadata) (national : text) : LineType :=
  if negb (ds_is_match (md_general meta) national) then Unallocated
  else match first_match
         [ (md_premium_rate meta, PremiumRate); (md_toll_free meta, TollFree);
           (md_shared_cost meta, SharedCost); (md_voip meta, Voip);
           (md_personal_number meta, PersonalNumber); (md_pager meta, Pager);
           (md_uan meta, Uan); (md_voicemail meta, Voicemail) ] national with
  | Some lt => lt
  | None =>
      let fixed := md_fixed_line meta in
      let mobile := md_mobile meta in
      if desc_match fixed national then
        let same_pattern :=
          bool_decide (ds_national_number <$> fixed = ds_national_number <$> mobile) in
        if same_pattern || desc_match mobile national then FixedLineOrMobile else FixedLine
      else if desc_match mobile national then Mobile
      else Unallocated
  end.

(** The loop of [length_is_possible], from whether a descriptor with length
    data has been seen. *)
Fixpoint length_loop (len : Z) (any : bool) (l : list Descriptor) : bool :=
  match l with
  | [] => negb any
  | d :: r =>
      let lengths := ds_possible_length d in
      if bool_decide (lengths = []) then length_loop len any r
      else if bool_decide (len ∈ lengths) then true else length_loop len true r
  end.

Definition length_is_possible (meta : Metadata) (len : Z) : bool :=
  if 65535 <? len then false
  else length_loop len false
    (omap id [ md_fixed_line meta; md_mobile meta; md_toll_free meta; md_premium_rate meta;
       md_shared_cost meta; md_personal_number meta; md_voip meta; md_pager meta;
       md_uan meta; md_voicemail meta ]).

(** ** lib.rs *)
Inductive MsisdnError :=
| MsisdnEmpty
| InvalidCharacter (ch : Z)
| UnknownRegion (code : text)
| UnknownCountryCode (digits : text)
| LegacyEightDigit (digits : text)
| BadLength (got : Z)
| UnallocatedNumber (national : text)
| NotAddressable (national : text) (line_type : LineType).

Definition CM_COUNTRY_CODE : Z := 237.
Definition MAX_E164_DIGITS : Z := 15.

(** Space, tab, dash, dot, slash, brackets and the two non-breaking spaces. *)
Definition SEPARATORS : list Z := [32; 9; 45; 46; 47; 40; 41; 91; 93; 160; 8239].

Definition is_separator (c : Z) : bool := existsb (Z.eqb c) SEPARATORS.

Definition PLUS : Z := 43.

(** The loop of [sanitise]: [out] so far, whether a plus was seen, and how
    many digits. *)
Fixpoint sanitise_loop (out : text) (plus : bool) (digits : Z) (input : text)
  : result text MsisdnError :=
  match input with
  | [] => if digits =? 0 then Err MsisdnEmpty else Ok out
  | c :: r =>
      if is_separator c then sanitise_loop out plus digits r
      else if c =? PLUS then
        if plus || (0 <? digits) then Err (InvalidCharacter c)
        else sanitise_loop (out ++ [PLUS]) true digits r
      else if is_ascii_digit c then sanitise_loop (out ++ [c]) plus (digits + 1) r
      else Err (InvalidCharacter c)
  end.

Definition sanitise (input : text) : result text MsisdnError :=
  sanitise_loop [] false 0 input.

Definition country_code_digits (code : Z) : Z :=
  if 100 <=? code then 3 else if 10 <=? code then 2 else 1.

Definition trim_start_plus (s : text) : text :=
  (fix go s := match s with
               | c :: r => if c =? PLUS then go r else s
               | [] => []
               end) s.

Section Parse.
Context `{PhoneLib}.

Record Msisdn := mkMsisdn {
  e164 : text;
  national_offset : Z;
  region : option CountryId;
  line_type : LineType }.

(** [Region::from_metadata_id] and [FromStr for Region]. *)
Definition from_metadata_id (id : text) : option CountryId := country_from_str id.

Definition region_from_str (s : text) : result CountryId MsisdnError :=
  let trimmed := trim s in
  if negb (byte_len trimmed =? 2) || negb (forallb is_ascii_alphabetic trimmed)
  then Err (UnknownRegion trimmed)
  else match from_metadata_id (to_ascii_uppercase <$> trimmed) with
       | Some r => Ok r
       | None => Err (UnknownRegion trimmed)
       end.

Definition parse_in (input : text) (region : CountryId) : result Msisdn MsisdnError :=
  let? candidate := sanitise input in
  let digit_count := byte_len candidate - (if starts_with candidate [PLUS] then 1 else 0) in
  match phone_parse region candidate with
  | Err InvalidCountryCode => Err (UnknownCountryCode (trim_start_plus candidate))
  | Err OtherParseError => Err (BadLength digit_count)
  | Ok parsed =>
      let country_code := pn_code parsed in
      let national := pn_national parsed in
      let national_offset := 1 + country_code_digits country_code in
      let e164 := [PLUS] ++ show_Z country_code ++ national in
      if MAX_E164_DIGITS <? country_code_digits country_code + byte_len national
      then Err (BadLength (byte_len national))
      else
        let meta := pn_metadata parsed in
        let line_type := match meta with
                         | Some m => line_type_of m national
                         | None => Unallocated
                         end in
        if bool_decide (line_type = Unallocated) then
          if (country_code =? CM_COUNTRY_CODE) && (byte_len national =? 8)
             && negb (starts_with national (lit "88"))
          then Err (LegacyEightDigit national)
          else if match meta with
                  | Some m => length_is_possible m (byte_len national)
                  | None => false
                  end
          then Err (UnallocatedNumber national)
          else Err (BadLength (byte_len national))
        else Ok (mkMsisdn e164 national_offset
                   (match meta with Some m => from_metadata_id (md_id m) | None => None end)
                   line_type)
  end.

Definition parse (input : text) : result Msisdn MsisdnError := parse_in input country_CM.

(** The national number is a slice of [e164] at a byte offset; both sides of
    the offset are ASCII, so it is a character offset too. *)
Definition national (m : Msisdn) : text := drop (Z.to_nat (national_offset m)) (e164 m).

Definition parse_mobile_in (input : text) (region : CountryId)
  : result Msisdn MsisdnError :=
  let? m := parse_in input region in
  if is_addressable (line_type m) then Ok m
  else Err (NotAddressable (national m) (line_type m)).

Definition parse_mobile (input : text) : result Msisdn MsisdnError :=
  parse_mobile_in input country_CM.

Definition STAR : Z := 42.

Definition masked (m : Msisdn) : text :=
  let national := national m in
  let keep := Nat.min 2 (length national) in
  let hidden := (length national - keep)%nat in
  take (Z.to_nat (national_offset m)) (e164 m) ++ replicate hidden STAR ++ drop hidden national.

Definition classify_in (number : text) (region : CountryId) : option LineType :=
  match parse_in number region with
  | Ok parsed => Some (line_type parsed)
  | Err (UnallocatedNumber _) => Some Unallocated
  | Err _ => None
  end.

End Parse.

(** ** operator.rs *)
Definition prefix_ok (row : text * text) : bool :=
  negb (bool_decide (row.1 = [])) && forallb is_ascii_digit row.1.

(** Stable insertion by descending prefix length, the effect of
    [sort_by_key(Reverse(len))]. *)
Fixpoint insert_by_len (row : text * text) (l : list (text * text)) : list (text * text) :=
  match l with
  | [] => [row]
  | x :: r =>
      if (length x.1 <? length row.1)%nat then row :: x :: r else x :: insert_by_len row r
  end.

Definition sort_by_len (l : list (text * text)) : list (text * text) :=
  foldl (fun acc row => insert_by_len row acc) [] l.

Record OperatorPrefixTable := mkTable { entries : list (text * text) }.

Definition table_new (rows : list (text * text)) : OperatorPrefixTable :=
  mkTable (sort_by_len (List.filter prefix_ok rows)).

Definition lookup_national (table : OperatorPrefixTable) (national : text) : option text :=
  snd <$> List.find (fun e => starts_with national e.1) (entries table).

(** ** Specifications *)

(** The parser's promises about a number it accepts: a calling code of one
    to three digits, and a non-empty national number of digits. *)
Class PhoneLibSound `{PhoneLib} : Prop := {
  phone_parse_sound r s p : phone_parse r s = Ok p ->
    1 <= pn_code p <= 999 /\ pn_national p <> [] /\
    Forall (fun c => is_ascii_digit c = true) (pn_national p) }.

Definition stripped (input : text) : text := List.filter (fun c => negb (is_separator c)) input.

(** An optional plus, then at least one digit and nothing else. *)
Definition dialable (s : text) : Prop :=
  exists ds, (s = ds \/ s = PLUS :: ds) /\ ds <> [] /\ forallb is_ascii_digit ds = true.

Definition prefix_matches (n : text) (row : text * text) : bool :=
  prefix_ok row && starts_with n row.1.

(** ** Sanitising *)
Lemma digit_not_plus c : is_ascii_digit c = true -> (c =? PLUS) = false.
Proof. intros Hd. apply Z.eqb_neq. intros ->. discriminate Hd. Qed.

Lemma sanitise_loop_digits out plus digits input res :
  plus = true \/ 0 < digits -> 0 <= digits ->
  sanitise_loop out plus digits input = Ok res <->
  forallb is_ascii_digit (stripped input) = true /\ res = out ++ stripped input /\
  0 < digits + Z.of_nat (length (stripped input)).
Proof.
  revert out digits. induction input as [|c r IH]; intros out digits Hp Hd.
  - cbn. rewrite app_nil_r. destruct (Z.eqb_spec digits 0) as [->|].
    + split; [done | intros (_ & _ & ?); lia].
    + split; [intros [= <-]; repeat split; lia | by intros (_ & -> & _)].
  - cbn [sanitise_loop stripped List.filter]. destruct (is_separator c) eqn:Es;
      cbn [negb]; [by apply IH|].
    fold (stripped r). cbn [forallb length].
    destruct (c =? PLUS) eqn:Ec.
    + assert (plus || (0 <? digits) = true) as ->
        by (destruct Hp as [->|Hp]; [done | by rewrite (proj2 (Z.ltb_lt _ _) Hp), orb_true_r]).
      apply Z.eqb_eq in Ec as ->. cbn. split; [done | by intros [? _]].
    + destruct (is_ascii_digit c) eqn:Edig; cbn [andb]; [|split; [done | by intros [? _]]].
      rewrite IH by lia. rewrite <- (assoc_L (++)). cbn [app].
      split; intros (? & -> & ?); repeat split; try done; lia.
Qed.

Lemma sanitise_stripped input out :
  sanitise input = Ok out <-> out = stripped input /\ dialable (stripped input).
Proof.
  unfold sanitise. induction input as [|c r IH].
  - cbn. split; [done|]. intros [_ (ds & [<-|?] & ? & _)]; done.
  - cbn [sanitise_loop stripped List.filter]. destruct (is_separator c) eqn:Es;
      cbn [negb]; [by apply IH|]. fold (stripped r).
    destruct (Z.eqb_spec c PLUS) as [->|Hc]; cbn [orb Z.ltb Z.compare].
    + rewrite sanitise_loop_digits; [|by left|lia]. split.
      * intros (Hd & -> & Hl). split; [done|]. exists (stripped r).
        repeat split; [by right | by intros E; rewrite E in Hl; cbn in Hl; lia | done].
      * intros [-> (ds & Hds & Hne & Hf)]. destruct Hds as [E|E].
        { subst ds. cbn in Hf. done. }
        injection E as E. subst ds. repeat split; [done|].
        destruct (stripped r) as [|? ?] eqn:Er; [congruence | cbn; lia].
    + destruct (is_ascii_digit c) eqn:Edig.
      * rewrite sanitise_loop_digits; [|right; lia|lia]. cbn [app]. split.
        -- intros (Hd & -> & _). split; [done|]. exists (c :: stripped r).
           split; [by left|]. split; [done|]. cbn. by rewrite Edig.
        -- intros [-> (ds & [<-|[= ? ?]] & _ & Hf)]; [|done].
           cbn in Hf. rewrite Edig in Hf. repeat split; [done | lia].
      * split; [done|]. intros [_ (ds & [<-|[= ? ?]] & _ & Hf)]; [|done].
        cbn in Hf. by rewrite Edig in Hf.
Qed.

(** Sanitising a recipient only removes separators: it succeeds exactly
    on inputs that are an optional plus and at least one digit once the
    separators are taken out, and returns exactly those characters, in
    order. No letter is ever turned into a digit, and a second pass returns
    its input. *)
Theorem sanitise_spec input :
  (forall out, sanitise input = Ok out <-> out = stripped input /\ dialable (stripped input)) /\
  (forall out, sanitise input = Ok out -> sanitise out = Ok out).
Proof.
  split; [apply sanitise_stripped|].
  intros out Ho. apply sanitise_stripped in Ho as [-> Hd].
  assert (stripped (stripped input) = stripped input) as Hs.
  { unfold stripped. clear Hd. induction input as [|c r IH]; cbn [List.filter]; [done|].
    destruct (is_separator c) eqn:E; cbn [negb List.filter]; [done|].
    rewrite E. cbn [negb]. by rewrite IH. }
  apply sanitise_stripped. by rewrite Hs.
Qed.

(** ** Parsing *)
Lemma show_code_length code :
  1 <= code <= 999 ->
  Z.of_nat (length (show_Z code)) = country_code_digits code /\
  forallb is_ascii_digit (show_Z code) = true.
Proof.
  intros Hc.
  assert (forallb (fun z => (Z.of_nat (length (show_Z z)) =? country_code_digits z)
                            && forallb is_ascii_digit (show_Z z)) (seqZ 1 999) = true) as Ht
    by (vm_compute; reflexivity).
  rewrite forallb_forall in Ht. specialize (Ht code).
  rewrite andb_true_iff, Z.eqb_eq in Ht. apply Ht.
  apply list_elem_of_In, elem_of_seqZ. lia.
Qed.

Lemma byte_len_digits s :
  Forall (fun c => is_ascii_digit c = true) s -> byte_len s = Z.of_nat (length s).
Proof.
  induction 1 as [|c s Hc Hs IH]; [done|]. cbn [byte_len length]. rewrite IH.
  unfold is_ascii_digit in Hc. apply andb_true_iff in Hc as [H1 H2].
  apply Z.leb_le in H1, H2. unfold len_utf8.
  rewrite (proj2 (Z.ltb_lt c 128)) by lia. lia.
Qed.

Section ParseFacts.
Context `{Hlib : PhoneLib} `{!PhoneLibSound}.

(** C39. A parsed number is canonical: a plus, the calling code and the
    national number; the stored offset separates the two exactly; the digits
    fit E.164's fifteen; and its line type is never [Unallocated]. *)
Theorem parse_in_canonical input r m :
  parse_in input r = Ok m ->
  exists code, 1 <= code <= 999 /\
    e164 m = [PLUS] ++ show_Z code ++ national m /\
    take (Z.to_nat (national_offset m)) (e164 m) = [PLUS] ++ show_Z code /\
    national m <> [] /\ Forall (fun c => is_ascii_digit c = true) (national m) /\
    Z.of_nat (length (e164 m)) <= 1 + MAX_E164_DIGITS /\
    line_type m <> Unallocated.
Proof.
  unfold parse_in. destruct (sanitise input) as [cand|e]; cbn [rbind]; [|done].
  destruct (phone_parse r cand) as [p|[]] eqn:Ep; [|done..].
  apply phone_parse_sound in Ep as (Hcode & Hne & Hdig).
  destruct (show_code_length _ Hcode) as [Hlen _].
  destruct (Z.ltb_spec MAX_E164_DIGITS (country_code_digits (pn_code p) + byte_len (pn_national p)))
    as [|Hmax]; [done|].
  set (lt := match pn_metadata p with Some m => _ | None => _ end).
  case_bool_decide as Hlt; [repeat case_match; done|]. intros [= <-].
  set (m := mkMsisdn _ _ _ _).
  assert (Z.to_nat (national_offset m) = length ([PLUS] ++ show_Z (pn_code p))) as Hoff
    by (subst m; cbn; lia).
  assert (national m = pn_national p) as Hnat.
  { unfold national. rewrite Hoff.
    exact (drop_app_length (PLUS :: show_Z (pn_code p)) (pn_national p)). }
  exists (pn_code p). rewrite Hnat. split; [done|]. split; [done|].
  split. { rewrite Hoff. exact (take_app_length (PLUS :: show_Z (pn_code p)) (pn_national p)). }
  split; [done|]. split; [done|]. split; [|done].
  rewrite byte_len_digits in Hmax by done. unfold m, e164.
  cbn [length]. rewrite !length_app. lia.
Qed.

(** The send path accepts exactly the numbers an SMS can reach: those
    [parse_in] accepts whose line type is mobile or fixed-line-or-mobile;
    anything else it parses is refused as not addressable, naming the
    number's national form and line type. *)
Theorem parse_mobile_in_addressable input r :
  match parse_in input r with
  | Err e => parse_mobile_in input r = Err e
  | Ok m =>
      parse_mobile_in input r =
        (if bool_decide (line_type m = Mobile \/ line_type m = FixedLineOrMobile) then Ok m
         else Err (NotAddressable (national m) (line_type m)))
  end.
Proof.
  unfold parse_mobile_in. destruct (parse_in input r) as [m|e]; cbn; [|done].
  destruct (line_type m); reflexivity.
Qed.

(** Redaction. A masked number has the length of the number, keeps the
    calling code and the last two digits, and hides every other digit. *)
Theorem masked_hides input r m :
  parse_in input r = Ok m ->
  exists code hidden shown, national m = hidden ++ shown /\
    length shown = Nat.min 2 (length (national m)) /\
    masked m = [PLUS] ++ show_Z code ++ replicate (length hidden) STAR ++ shown /\
    length (masked m) = length (e164 m).
Proof.
  intros Hp. apply parse_in_canonical in Hp as (code & _ & He & Ht & _).
  set (n := national m). set (h := (length n - Nat.min 2 (length n))%nat).
  exists code, (take h n), (drop h n).
  assert (length (take h n) = h) as Hl by (rewrite length_take; lia).
  assert (masked m = [PLUS] ++ show_Z code ++ replicate h STAR ++ drop h n) as Hm.
  { unfold masked. fold n. rewrite Ht. fold h. by rewrite <- (assoc_L (++)). }
  split; [by rewrite take_drop|]. split; [rewrite length_drop; lia|].
  rewrite Hl. split; [done|]. rewrite Hm, He. fold n.
  rewrite !length_app, length_replicate, length_drop. lia.
Qed.

End ParseFacts.

(** ** A concrete numbering plan, for the examples: Cameroon only, mobile
    numbers of nine digits starting with 6. *)
Definition demo_desc (p : text -> bool) : Descriptor := mkDescriptor p [] [9].

Definition demo_meta : Metadata :=
  mkMetadata (lit "CM") (demo_desc (fun n => (length n =? 9)%nat))
    None (Some (demo_desc (fun n => starts_with n (lit "6"))))
    None None None None None None None None.

Definition demo_national (s : text) : text :=
  if starts_with s (lit "+237") then drop 4 s else s.

Definition demo_phone : PhoneLib := {|
  CountryId := unit;
  country_CM := tt;
  country_as_ref _ := lit "CM";
  country_from_str s := if bool_decide (s = lit "CM") then Some tt else None;
  phone_parse _ s :=
    let n := demo_national s in
    if negb (bool_decide (n = [])) && forallb is_ascii_digit n
    then Ok (mkPhoneNumber 237 n (Some demo_meta)) else Err OtherParseError |}.

Lemma demo_phone_sound : @PhoneLibSound demo_phone.
Proof.
  constructor. intros r s p. cbn.
  destruct (negb _ && _) eqn:E; [|done]. intros [= <-]. cbn.
  apply andb_true_iff in E as [E1 E2]. apply negb_true_iff, bool_decide_eq_false in E1.
  split; [lia|]. split; [done|]. apply Forall_forall. intros c Hc.
  rewrite forallb_forall in E2. apply E2. by apply list_elem_of_In.
Qed.

Definition demo_msisdn : @Msisdn demo_phone :=
  @mkMsisdn demo_phone (lit "+237677123456") 4 (@Some (@CountryId demo_phone) tt) Mobile.

Lemma parse_in_canonical_witness :
  exists code, 1 <= code <= 999 /\
    e164 demo_msisdn = [PLUS] ++ show_Z code ++ national demo_msisdn /\
    take (Z.to_nat (national_offset demo_msisdn)) (e164 demo_msisdn) = [PLUS] ++ show_Z code /\
    national demo_msisdn <> [] /\
    Forall (fun c => is_ascii_digit c = true) (national demo_msisdn) /\
    Z.of_nat (length (e164 demo_msisdn)) <= 1 + MAX_E164_DIGITS /\
    line_type demo_msisdn <> Unallocated.
Proof.
  apply (@parse_in_canonical demo_phone demo_phone_sound (lit "677 12.34-56") tt).
  vm_compute. reflexivity.
Defined.

Lemma masked_hides_witness :
  exists code hidden shown, national demo_msisdn = hidden ++ shown /\
    length shown = Nat.min 2 (length (national demo_msisdn)) /\
    masked demo_msisdn = [PLUS] ++ show_Z code ++ replicate (length hidden) STAR ++ shown /\
    length (masked demo_msisdn) = length (e164 demo_msisdn).
Proof.
  apply (@masked_hides demo_phone demo_phone_sound (lit "+237 677 123 456") tt).
  vm_compute. reflexivity.
Defined.

(** ** The operator prefix table *)

(** The better of what is held and one more row: a strictly longer match
    replaces it. *)
Definition better (n : text) (acc : option (text * text)) (row : text * text)
  : option (text * text) :=
  if starts_with n row.1 then
    match acc with
    | Some x => if (length x.1 <? length row.1)%nat then Some row else Some x
    | None => Some row
    end
  else acc.

Fixpoint len_desc (l : list (text * text)) : Prop :=
  match l with
  | [] => True
  | x :: r => Forall (fun y => (length y.1 <= length x.1)%nat) r /\ len_desc r
  end.

Lemma insert_by_len_Forall (P : text * text -> Prop) row l :
  P row -> Forall P l -> Forall P (insert_by_len row l).
Proof.
  intros Hr. induction 1 as [|x l Hx Hl IH]; cbn; [by constructor|].
  case_match; by repeat constructor.
Qed.

Lemma insert_by_len_desc row l : len_desc l -> len_desc (insert_by_len row l).
Proof.
  induction l as [|x l IH]; cbn [insert_by_len len_desc]; [by repeat constructor|].
  intros [Hx Hl].
  destruct (Nat.ltb_spec (length x.1) (length row.1)); cbn [len_desc].
  - split; [constructor; [lia|] | done].
    eapply Forall_impl; [exact Hx | intros y Hy; cbn beta in Hy |- *; lia].
  - split; [apply insert_by_len_Forall; [lia | done] | by apply IH].
Qed.

Lemma find_insert_by_len n row l :
  len_desc l ->
  List.find (fun e => starts_with n e.1) (insert_by_len row l) =
  better n (List.find (fun e => starts_with n e.1) l) row.
Proof.
  unfold better. induction l as [|x l IH]; cbn [insert_by_len len_desc List.find];
    [by case_match|]. intros [Hx Hl].
  destruct (Nat.ltb_spec (length x.1) (length row.1)) as [Hlt|Hge]; cbn [List.find].
  - destruct (starts_with n row.1) eqn:Er; [|done].
    destruct (starts_with n x.1); [by rewrite (proj2 (Nat.ltb_lt _ _) Hlt)|].
    destruct (List.find _ l) as [y|] eqn:Ef; [|done].
    apply List.find_some in Ef as [Hin _]. rewrite Forall_forall in Hx.
    specialize (Hx y (proj2 (list_elem_of_In _ _) Hin)).
    by rewrite (proj2 (Nat.ltb_lt _ _)) by lia.
  - destruct (starts_with n x.1); [|by apply IH].
    destruct (starts_with n row.1); [|done].
    by rewrite (proj2 (Nat.ltb_ge _ _)) by lia.
Qed.

Lemma find_sort_by_len n rows :
  len_desc (sort_by_len rows) /\
  List.find (fun e => starts_with n e.1) (sort_by_len rows) = foldl (better n) None rows.
Proof.
  unfold sort_by_len. induction rows as [|row rows IH] using rev_ind; [done|].
  rewrite !foldl_app. cbn. destruct IH as [Hd <-].
  split; [by apply insert_by_len_desc | by apply find_insert_by_len].
Qed.

Lemma foldl_better_spec n rows :
  match foldl (better n) None (List.filter prefix_ok rows) with
  | Some row => exists l1 l2, rows = l1 ++ row :: l2 /\ prefix_matches n row = true /\
      (forall r, r ∈ l1 -> prefix_matches n r = true -> (length r.1 < length row.1)%nat) /\
      (forall r, r ∈ l2 -> prefix_matches n r = true -> (length r.1 <= length row.1)%nat)
  | None => forall r, r ∈ rows -> prefix_matches n r = false
  end.
Proof.
  unfold prefix_matches.
  induction rows as [|row rows IH] using rev_ind;
    [intros r Hr; by apply not_elem_of_nil in Hr|].
  rewrite List.filter_app, foldl_app. cbn [List.filter].
  set (acc := foldl (better n) None (List.filter prefix_ok rows)) in *.
  assert (match acc with
    | Some a => forall r, r ∈ rows -> prefix_ok r && starts_with n r.1 = true ->
        (length r.1 <= length a.1)%nat
    | None => True end) as Hmax.
  { destruct acc as [a|]; [|done]. destruct IH as (l1 & l2 & -> & _ & H1 & H2).
    intros r [Hr|[->|Hr]%elem_of_cons]%elem_of_app Hm; [|done|by apply H2].
    by apply Nat.lt_le_incl, H1. }
  assert (forall a l1 l2, rows = l1 ++ a :: l2 -> prefix_ok a && starts_with n a.1 = true ->
     (forall r, r ∈ l1 -> prefix_ok r && starts_with n r.1 = true -> (length r.1 < length a.1)%nat) ->
     (forall r, r ∈ l2 -> prefix_ok r && starts_with n r.1 = true -> (length r.1 <= length a.1)%nat) ->
     (prefix_ok row && starts_with n row.1 = true -> (length row.1 <= length a.1)%nat) ->
     exists l1 l2, rows ++ [row] = l1 ++ a :: l2 /\ prefix_ok a && starts_with n a.1 = true /\
     (forall r, r ∈ l1 -> prefix_ok r && starts_with n r.1 = true -> (length r.1 < length a.1)%nat) /\
     (forall r, r ∈ l2 -> prefix_ok r && starts_with n r.1 = true -> (length r.1 <= length a.1)%nat))
    as Hkeep.
  { intros a l1 l2 -> Ha H1 H2 H3. exists l1, (l2 ++ [row]).
    split; [by rewrite <- (assoc_L (++))|]. split; [done|]. split; [done|].
    intros r [Hr| ->%list_elem_of_singleton]%elem_of_app Hp; [by apply H2 | by apply H3]. }
  assert (prefix_ok row && starts_with n row.1 = false -> acc = None ->
    forall r, r ∈ rows ++ [row] -> prefix_ok r && starts_with n r.1 = false) as Hnone.
  { intros Hf E r [Hr| ->%list_elem_of_singleton]%elem_of_app; [|done].
    rewrite E in IH. by apply IH. }
  destruct (prefix_ok row) eqn:Eok; cbn [foldl andb] in *.
  2: { destruct acc as [a|]; [|by apply Hnone].
       destruct IH as (l1 & l2 & ? & ? & ? & ?). by eapply Hkeep. }
  unfold better. destruct (starts_with n row.1) eqn:Es; cbn [andb] in *.
  2: { destruct acc as [a|]; [|by apply Hnone].
       destruct IH as (l1 & l2 & ? & ? & ? & ?). by eapply Hkeep. }
  destruct acc as [a|]; [destruct (Nat.ltb_spec (length a.1) (length row.1))|].
  - exists rows, []. rewrite Eok, Es. split; [done|]. split; [done|].
    split; [|intros r Hr; by apply not_elem_of_nil in Hr].
    intros r Hr Hm. specialize (Hmax r Hr Hm). lia.
  - destruct IH as (l1 & l2 & ? & ? & ? & ?). by eapply Hkeep.
  - exists rows, []. rewrite Eok, Es. split; [done|]. split; [done|].
    split; [intros r Hr Hm; by rewrite IH in Hm | intros r Hr; by apply not_elem_of_nil in Hr].
Qed.

(** Operator inference: the lookup returns the operator of a row whose
    prefix starts the number and is at least as long as every other usable
    matching prefix, the first such row in insertion order; and nothing
    exactly when no usable row matches. Rows with an empty or non-digit
    prefix never take part. *)
Theorem lookup_national_longest rows n :
  match lookup_national (table_new rows) n with
  | Some op => exists l1 p l2, rows = l1 ++ (p, op) :: l2 /\
      prefix_matches n (p, op) = true /\
      (forall r, r ∈ l1 -> prefix_matches n r = true -> (length r.1 < length p)%nat) /\
      (forall r, r ∈ l2 -> prefix_matches n r = true -> (length r.1 <= length p)%nat)
  | None => forall r, r ∈ rows -> prefix_matches n r = false
  end.
Proof.
  unfold lookup_national, table_new. cbn [entries].
  rewrite (proj2 (find_sort_by_len n _)). pose proof (foldl_better_spec n rows) as Hs.
  destruct (foldl _ _ _) as [[p op]|]; [|done].
  destruct Hs as (l1 & l2 & Hs). by exists l1, p, l2.
Qed.
