(* ===== verification/ProviderApi.v ===== *)
(** * sms-provider and sms-provider-http

    The provider vocabulary (error.rs, types.rs) and the classification of a
    submission's HTTP status shared by the adapters (submit_status.rs).
    Durations are counted in microseconds. *)

From S2P Require Import Prelude Encoding.

(** ** Durations *)
Abbreviation duration := Z (only parsing).

Definition millis (n : Z) : duration := n * 1000.
Definition seconds (n : Z) : duration := n * 1000000.
Definition minutes (n : Z) : duration := seconds (n * 60).
Definition hours (n : Z) : duration := seconds (n * 3600).
Definition days (n : Z) : duration := seconds (n * 86400).

(** [chrono::DateTime::<Utc>::MIN_UTC] and [MAX_UTC], in microseconds. *)
Definition MIN_UTC : Z := -8334601228800000000.
Definition MAX_UTC : Z := 8210266876799999999.

(** [DateTime + TimeDelta]: out of range panics ([None]). *)
Definition chrono_add (t d : Z) : option Z :=
  if (MIN_UTC <=? t + d) && (t + d <=? MAX_UTC) then Some (t + d) else None.

(** [Debug] of a [std::time::Duration]. *)
Definition pad_left (n : nat) (s : text) : text := replicate (n - length s) 48 ++ s.

Fixpoint trim_zeros (rev_digits : text) : text :=
  match rev_digits with
  | 48 :: r => trim_zeros r
  | s => s
  end.

Definition debug_decimal (d unit : Z) (digits : nat) : text :=
  let frac := reverse (trim_zeros (reverse (pad_left digits (show_Z (d mod unit))))) in
  show_Z (d / unit) ++ (if bool_decide (frac = []) then [] else lit "." ++ frac).

Definition debug_duration (d : duration) : text :=
  if seconds 1 <=? d then debug_decimal d (seconds 1) 6 ++ lit "s"
  else if millis 1 <=? d then debug_decimal d (millis 1) 3 ++ lit "ms"
  else if 1 <=? d then show_Z d ++ lit "µs"
  else lit "0ns".

(** ** error.rs

    [source] is the boxed transport error behind a message; nothing modelled
    here inspects it beyond its text. *)
Inductive ProviderError :=
| Permanent (code message : text)
| Transient (retry_after : duration) (message : text)
| Unavailable (message : text) (source : option text)
| Rejected (code message : text)
| Unsupported
| Indeterminate (message : text) (source : option text).

(** The [#[error]] attributes: [Display] for [ProviderError]. *)
Definition display_ProviderError (e : ProviderError) : text :=
  match e with
  | Permanent code message => code ++ lit ": " ++ message
  | Transient retry_after message =>
      lit "retry after " ++ debug_duration retry_after ++ lit ": " ++ message
  | Unavailable message _ => lit "provider unavailable: " ++ message
  | Rejected code message => code ++ lit ": " ++ message
  | Unsupported => lit "not supported by this provider"
  | Indeterminate message _ =>
      lit "submission outcome unknown, possibly sent: " ++ message
  end.

Inductive RoutingConsequence :=
| RetryThisProvider (after : duration)
| TryNextRoute
| OpenCircuitAndTryNextRoute
| FailMessage
| HoldIndeterminate.

Definition routing (e : ProviderError) : RoutingConsequence :=
  match e with
  | Permanent _ _ => TryNextRoute
  | Transient retry_after _ => RetryThisProvider retry_after
  | Unavailable _ _ => OpenCircuitAndTryNextRoute
  | Rejected _ _ | Unsupported => FailMessage
  | Indeterminate _ _ => HoldIndeterminate
  end.

(** ** types.rs *)
Record SubmitRequest := mkSubmitRequest {
  sr_to : text;
  sr_sender_id : text;
  sr_body : text;
  sr_encoding : SmsEncoding;
  sr_reference : text }.

Record SubmitAck := mkSubmitAck {
  provider_ref : text;
  provider_ref_alt : option text }.

(** No adapter asks to be tried again later than this: the three that exist
    ask for one second or five. *)
Definition RETRY_AFTER_MAX : duration := hours 1.

Definition retry_bounded (r : result SubmitAck ProviderError) : Prop :=
  match r with
  | Err (Transient d _) => 0 <= d <= RETRY_AFTER_MAX
  | _ => True
  end.

Inductive DeliveryOutcome :=
| OutDelivered | OutUncertain | OutFailed | OutExpired | OutRejected | OutInFlight | OutUnknown.

Record DeliveryUpdate := mkDeliveryUpdate {
  du_provider_ref : text;
  du_outcome : DeliveryOutcome;
  du_occurred_at : option Z;
  du_raw_status : text;
  du_error_code : option text;
  du_delivering_network : option text }.

#[export] Instance DeliveryOutcome_eq_dec : EqDecision DeliveryOutcome.
Proof. solve_decision. Defined.

(** ** submit_status.rs

    [display_status] is the [Display] of the [http] crate's [StatusCode]. *)
Definition TOO_MANY_REQUESTS : Z := 429.

Definition is_server_error (status : Z) : bool := (500 <=? status) && (status <? 600).

Definition classify_common_submit_status (display_status : Z -> text)
  (status : Z) (body provider : text) (rate_limit_retry_after : duration) : ProviderError :=
  if status =? TOO_MANY_REQUESTS then
    Transient rate_limit_retry_after (lit "rate limited: " ++ body)
  else if is_server_error status then
    Unavailable (provider ++ lit " returned " ++ display_status status ++ lit ": " ++ body) None
  else Rejected (lit "http_" ++ show_Z status) body.

(** What a refused submission leads to: the same provider again exactly on
    a 429, after the adapter's own delay; another route exactly on a server
    error; the message fails on every other status; and a well-formed
    refusal is never held as indeterminate. *)
Theorem submit_status_consequence disp status body provider delay :
  let c := routing (classify_common_submit_status disp status body provider delay) in
  (status = 429 <-> c = RetryThisProvider delay) /\
  (500 <= status < 600 <-> c = OpenCircuitAndTryNextRoute) /\
  (status <> 429 /\ ~ 500 <= status < 600 <-> c = FailMessage) /\
  c <> HoldIndeterminate /\ c <> TryNextRoute.
Proof.
  unfold classify_common_submit_status, is_server_error, TOO_MANY_REQUESTS. cbv zeta.
  destruct (Z.eqb_spec status 429); [cbn; intuition (lia || congruence)|].
  destruct (Z.leb_spec 500 status), (Z.ltb_spec status 600); cbn;
    intuition (lia || congruence).
Qed.
