(* ===== verification/Breaker.v ===== *)
(** * sms-worker: the circuit breaker and the log throttle

    breaker.rs and throttle.rs. Times are microseconds. *)

From S2P Require Import Prelude ProviderApi.

(** ** breaker.rs *)
Record BreakerPolicy := mkBreakerPolicy {
  failure_threshold : Z;
  open_duration : duration }.

Record FailureDecision := mkFailureDecision {
  consecutive_failures : Z;
  circuit_open_until : option Z }.

Definition opened_circuit (d : FailureDecision) : bool :=
  match circuit_open_until d with Some _ => true | None => false end.

Definition on_failure (policy : BreakerPolicy) (consecutive_before now : Z) : FailureDecision :=
  let consecutive := consecutive_before + 1 in
  let opening_circuit := failure_threshold policy <=? consecutive in
  mkFailureDecision
    (if opening_circuit then 0 else consecutive)
    (if opening_circuit then Some (now + open_duration policy) else None).

Definition needs_reset (consecutive_failures : Z) (circuit_open_until : option Z) : bool :=
  negb (consecutive_failures =? 0) ||
  match circuit_open_until with Some _ => true | None => false end.

(** ** What a sequence of outcomes does to one breaker

    The two columns a breaker keeps, and the write each outcome of a delivery
    makes to them: [record_*_failure] and [reset_*_failures] of dispatch.rs
    and hooks.rs write exactly these. *)
Record BreakerState := mkBreakerState {
  bs_failures : Z;
  bs_open_until : option Z }.

Inductive breaker_event := BFail (now : Z) | BSuccess.

Definition breaker_step (policy : BreakerPolicy) (s : BreakerState) (e : breaker_event)
  : BreakerState :=
  match e with
  | BFail now =>
      let d := on_failure policy (bs_failures s) now in
      mkBreakerState (consecutive_failures d)
        (if opened_circuit d then circuit_open_until d else bs_open_until s)
  | BSuccess =>
      if needs_reset (bs_failures s) (bs_open_until s) then mkBreakerState 0 None else s
  end.

Definition breaker_run (policy : BreakerPolicy) : BreakerState -> list breaker_event -> BreakerState :=
  foldl (breaker_step policy).

Lemma on_failure_bound policy before now :
  0 < failure_threshold policy -> 0 <= before < failure_threshold policy ->
  0 <= consecutive_failures (on_failure policy before now) < failure_threshold policy.
Proof.
  intros. unfold on_failure. cbn. case_match; split_and_bool; lia.
Qed.

Lemma breaker_step_bound policy s e :
  0 < failure_threshold policy -> 0 <= bs_failures s < failure_threshold policy ->
  0 <= bs_failures (breaker_step policy s e) < failure_threshold policy.
Proof.
  intros Hp Hs. destruct e as [now|]; cbn [breaker_step bs_failures].
  - by apply on_failure_bound.
  - case_match; cbn; lia.
Qed.

Lemma breaker_run_bound policy s es :
  0 < failure_threshold policy -> 0 <= bs_failures s < failure_threshold policy ->
  0 <= bs_failures (breaker_run policy s es) < failure_threshold policy.
Proof.
  intros Hp. revert s. induction es as [|e es IH]; intros s Hs; [done|].
  cbn [breaker_run foldl]. apply IH. by apply breaker_step_bound.
Qed.

Lemma breaker_fails policy s nows :
  0 < failure_threshold policy -> 0 <= bs_failures s ->
  bs_failures s + Z.of_nat (length nows) < failure_threshold policy ->
  breaker_run policy s (BFail <$> nows) =
    mkBreakerState (bs_failures s + Z.of_nat (length nows)) (bs_open_until s).
Proof.
  intros Hp. revert s. induction nows as [|now nows IH]; intros s Hs Hlt.
  - destruct s; cbn. f_equal. lia.
  - rewrite fmap_cons. cbn [breaker_run foldl].
    fold (breaker_run policy (breaker_step policy s (BFail now)) (BFail <$> nows)).
    assert (breaker_step policy s (BFail now) = mkBreakerState (bs_failures s + 1) (bs_open_until s)) as ->.
    { cbn [length] in Hlt. unfold breaker_step, on_failure, opened_circuit. cbn.
      destruct (Z.leb_spec (failure_threshold policy) (bs_failures s + 1)); [lia | done]. }
    cbn [length] in *. rewrite IH; cbn; [f_equal; lia | lia | lia].
Qed.

(** The breaker. From any legal counter, the circuit opens on exactly the
    failure that completes the threshold and on none before it: fewer
    failures leave [circuitOpenUntil] as it was, the completing one stamps
    the opening time and restarts the count at zero, a success in between
    restarts the count; and the counter never leaves its range. *)
Theorem breaker_opens_at_threshold policy s nows now :
  0 < failure_threshold policy -> 0 <= bs_failures s < failure_threshold policy ->
  bs_failures s + Z.of_nat (length nows) + 1 = failure_threshold policy ->
  (forall k, (k <= length nows)%nat ->
     breaker_run policy s (BFail <$> take k nows) =
       mkBreakerState (bs_failures s + Z.of_nat k) (bs_open_until s)) /\
  breaker_run policy s (BFail <$> (nows ++ [now])) =
    mkBreakerState 0 (Some (now + open_duration policy)) /\
  breaker_run policy s ((BFail <$> nows) ++ [BSuccess]) = mkBreakerState 0 None /\
  (forall es, 0 <= bs_failures (breaker_run policy s es) < failure_threshold policy).
Proof.
  intros Hp Hs Hn. split; [|split; [|split]].
  - intros k Hk. rewrite breaker_fails; [|done|lia|]; rewrite length_take; [|lia].
    f_equal. lia.
  - rewrite fmap_app. unfold breaker_run. rewrite foldl_app.
    change (foldl (breaker_step policy) s (BFail <$> nows))
      with (breaker_run policy s (BFail <$> nows)).
    rewrite breaker_fails by lia. cbn.
    unfold on_failure, opened_circuit. cbn.
    rewrite (proj2 (Z.leb_le _ _)) by lia. done.
  - unfold breaker_run. rewrite foldl_app.
    change (foldl (breaker_step policy) s (BFail <$> nows))
      with (breaker_run policy s (BFail <$> nows)).
    rewrite breaker_fails by lia. cbn. unfold needs_reset. cbn.
    destruct (Z.eqb_spec (bs_failures s + Z.of_nat (length nows)) 0) as [->|]; [|done].
    by destruct (bs_open_until s).
  - intros es. by apply breaker_run_bound.
Qed.

Lemma breaker_opens_at_threshold_witness :
  breaker_run (mkBreakerPolicy 3 (seconds 60)) (mkBreakerState 0 None)
    (BFail <$> ([1; 2] ++ [5])) = mkBreakerState 0 (Some (5 + seconds 60)).
Proof.
  apply (breaker_opens_at_threshold (mkBreakerPolicy 3 (seconds 60)) (mkBreakerState 0 None)
           [1; 2] 5); cbn; lia.
Defined.

(** ** throttle.rs

    The map behind the mutex; [admit_key] returns the decision and the new map.
    [Instant::saturating_duration_since] is 0 when the clock reads earlier. *)
Record Throttle := mkThrottle {
  th_every : duration;
  last_admitted : gmap text Z }.

Definition throttle_new (every : duration) : Throttle := mkThrottle every ∅.

Definition admit_key (t : Throttle) (key : text) (now : Z) : bool * Throttle :=
  match last_admitted t !! key with
  | Some admitted =>
      if Z.max 0 (now - admitted) <? th_every t then (false, t)
      else (true, mkThrottle (th_every t) (<[key := now]> (last_admitted t)))
  | None => (true, mkThrottle (th_every t) (<[key := now]> (last_admitted t)))
  end.

Fixpoint admit_all (t : Throttle) (key : text) (nows : list Z) : list Z :=
  match nows with
  | [] => []
  | now :: r =>
      let '(ok, t') := admit_key t key now in
      if ok then now :: admit_all t' key r else admit_all t' key r
  end.

Lemma admit_all_after t key nows :
  forall a, last_admitted t !! key = Some a -> 0 < th_every t ->
  Sorted Z.le (a :: nows) ->
  Sorted (fun x y => x + th_every t <= y) (a :: admit_all t key nows).
Proof.
  revert t. induction nows as [|now nows IH]; intros t a Ha He Hs; [by repeat constructor|].
  apply Sorted_inv in Hs as [Hs Hhd]. apply HdRel_inv in Hhd.
  cbn [admit_all]. unfold admit_key. rewrite Ha.
  destruct (Z.ltb_spec (Z.max 0 (now - a)) (th_every t)) as [Hlt|Hge].
  - apply IH; [done | done |].
    apply Sorted_inv in Hs as [Hs Hh]. constructor; [done|].
    destruct nows; constructor. apply HdRel_inv in Hh. lia.
  - constructor; [|constructor; lia].
    set (t' := mkThrottle _ _).
    change (th_every t) with (th_every t'). apply IH; [|done|done].
    apply lookup_insert_eq.
Qed.

(** The throttle: on a clock that does not run backwards, two admissions
    of one key are at least [every] apart, and the first reading of a key is
    always admitted. *)
Theorem throttle_spacing every key now nows :
  0 < every -> Sorted Z.le (now :: nows) ->
  Sorted (fun x y => x + every <= y) (admit_all (throttle_new every) key (now :: nows)) /\
  head (admit_all (throttle_new every) key (now :: nows)) = Some now.
Proof.
  intros He Hs. cbn [admit_all]. unfold admit_key, throttle_new. cbn [last_admitted th_every].
  rewrite lookup_empty. split; [|done].
  apply (admit_all_after (mkThrottle every (<[key := now]> ∅))); [|done|done].
  apply lookup_insert_eq.
Qed.

Lemma throttle_spacing_witness :
  Sorted (fun x y => x + 10 <= y) (admit_all (throttle_new 10) (lit "k") [0; 4; 11; 12; 30]) /\
  head (admit_all (throttle_new 10) (lit "k") [0; 4; 11; 12; 30]) = Some 0.
Proof.
  apply (throttle_spacing 10 (lit "k") 0 [4; 11; 12; 30]); [lia|].
  repeat constructor; lia.
Defined.
