(* ===== verification/SealableUrl.v ===== *)
(** * sms-webhook: the URLs a sealed endpoint may hold (lib.rs)

    [SEALABLE_URL_PATTERN] as a regular expression, and [url_can_be_sealed],
    which runs it; the same pattern stands in a CHECK constraint of the
    database.  The matcher takes derivatives and is proved to decide the
    expression's language. *)

From S2P Require Import Prelude.

Module SealablePattern.

(** The operators the pattern uses. *)
Inductive regex :=
| Nothing
| Epsilon
| Class (f : Z -> bool)
| Seq (r s : regex)
| Alt (r s : regex)
| Star (r : regex).

Fixpoint nullable (r : regex) : bool :=
  match r with
  | Nothing | Class _ => false
  | Epsilon | Star _ => true
  | Seq r s => nullable r && nullable s
  | Alt r s => nullable r || nullable s
  end.

Fixpoint derive (c : Z) (r : regex) : regex :=
  match r with
  | Nothing | Epsilon => Nothing
  | Class f => if f c then Epsilon else Nothing
  | Seq r s => if nullable r then Alt (Seq (derive c r) s) (derive c s) else Seq (derive c r) s
  | Alt r s => Alt (derive c r) (derive c s)
  | Star r => Seq (derive c r) (Star r)
  end.

Definition full_match (r : regex) (s : text) : bool := nullable (foldl (fun r c => derive c r) r s).

(** ** The pattern *)
Definition one_of (s : text) : regex := Class (fun c => existsb (Z.eqb c) s).
Definition range (lo hi : Z) : regex := Class (fun c => (lo <=? c) && (c <=? hi)).
Definition optional (r : regex) : regex := Alt r Epsilon.

Fixpoint seq (l : list regex) : regex :=
  match l with [] => Epsilon | r :: l => Seq r (seq l) end.

Fixpoint alt (l : list regex) : regex :=
  match l with [] => Nothing | r :: l => Alt r (alt l) end.

Definition word (s : text) : regex := seq ((fun c => Class (Z.eqb c)) <$> s).

Definition is_alnum (c : Z) : bool := is_ascii_digit c || is_ascii_alphabetic c.

Definition alnum : regex := Class is_alnum.
Definition digit : regex := Class is_ascii_digit.

(** [[A-Za-z0-9](?:[A-Za-z0-9.-]*[A-Za-z0-9])?] or a bracketed address. *)
Definition host : regex :=
  Alt (Seq alnum (optional (Seq (Star (Class (fun c => is_alnum c || existsb (Z.eqb c) (lit ".-")))) alnum)))
      (seq [ word (lit "[");
             Seq (Class (fun c => is_ascii_digit c || ((65 <=? c) && (c <=? 70))
                                  || ((97 <=? c) && (c <=? 102)) || existsb (Z.eqb c) (lit ":.")))
                 (Star (Class (fun c => is_ascii_digit c || ((65 <=? c) && (c <=? 70))
                                  || ((97 <=? c) && (c <=? 102)) || existsb (Z.eqb c) (lit ":."))));
             word (lit "]") ]).

(** A port from 1 to 65535. *)
Definition port : regex :=
  alt [ seq [word (lit "6553"); range 48 53];
        seq [word (lit "655"); range 48 50; digit];
        seq [word (lit "65"); range 48 52; digit; digit];
        seq [word (lit "6"); range 48 52; digit; digit; digit];
        seq [range 49 53; digit; digit; digit; digit];
        seq [range 49 57; optional digit; optional digit; optional digit] ].

Definition path_char : regex :=
  Class (fun c => is_alnum c || existsb (Z.eqb c) (lit "._~!$&'()*+,;=:@/-")).

Definition SEALABLE_URL_PATTERN : regex :=
  seq [ one_of (lit "Hh"); one_of (lit "Tt"); one_of (lit "Tt"); one_of (lit "Pp");
        optional (one_of (lit "Ss")); word (lit "://");
        host;
        optional (Seq (word (lit ":")) port);
        optional (Seq (word (lit "/")) (Star path_char)) ].

(** ** The language of an expression *)
Inductive matches : regex -> text -> Prop :=
| m_epsilon : matches Epsilon []
| m_class f c : f c = true -> matches (Class f) [c]
| m_seq r s a b : matches r a -> matches s b -> matches (Seq r s) (a ++ b)
| m_alt_l r s a : matches r a -> matches (Alt r s) a
| m_alt_r r s a : matches s a -> matches (Alt r s) a
| m_star_nil r : matches (Star r) []
| m_star_cons r a b : matches r a -> matches (Star r) b -> matches (Star r) (a ++ b).

#[export] Hint Constructors matches : vsms.

Lemma nullable_spec r : nullable r = true <-> matches r [].
Proof.
  split.
  - induction r; cbn; try done; auto with vsms.
    + intros [H1 H2]%andb_true_iff. apply (m_seq _ _ [] []); auto.
    + intros [H1|H2]%orb_true_iff; auto with vsms.
  - intros Hm. remember [] as s eqn:Hs. induction Hm; cbn; subst; try done.
    + apply app_eq_nil in Hs as [-> ->]. by rewrite IHHm1, IHHm2.
    + by rewrite IHHm.
    + by rewrite IHHm, orb_true_r.
Qed.

(** Taking a first non-empty round of a star. *)
Lemma star_cons r c s :
  matches (Star r) (c :: s) -> exists a b, s = a ++ b /\ matches r (c :: a) /\ matches (Star r) b.
Proof.
  intros Hm. remember (Star r) as q eqn:Hq. remember (c :: s) as t eqn:Ht. revert c s Ht.
  induction Hm as [| | | | | |r' a b Ha _ Hb IHb]; intros z u Ht; try done.
  injection Hq as ->. destruct a as [|y a]; [by apply IHb|].
  injection Ht as -> <-. by exists a, b.
Qed.

Lemma derive_spec c r s : matches (derive c r) s <-> matches r (c :: s).
Proof.
  revert s. induction r as [| |f|r1 IH1 r2 IH2|r1 IH1 r2 IH2|r IH]; intros s; cbn [derive].
  - split; inversion 1.
  - split; inversion 1.
  - destruct (f c) eqn:Hf; split; inversion 1; subst; auto with vsms. congruence.
  - assert (matches (Seq (derive c r1) r2) s <->
            exists a b, s = a ++ b /\ matches r1 (c :: a) /\ matches r2 b) as Hs.
    { split.
      - inversion 1; subst. eexists _, _. split; [done|]. by rewrite <- IH1.
      - intros (a & b & -> & Ha & Hb). constructor; [by apply IH1 | done]. }
    assert (matches (Seq r1 r2) (c :: s) <->
            (exists a b, s = a ++ b /\ matches r1 (c :: a) /\ matches r2 b) \/
            (matches r1 [] /\ matches r2 (c :: s))) as ->.
    { split.
      - intros Hm. inversion Hm as [| |? ? a b Ha Hb He1 He2| | | |].
        destruct a as [|x a]; [right; by subst|]. injection He2 as -> <-. left. by exists a, b.
      - intros [(a & b & -> & Ha & Hb)|[Ha Hb]]; [apply (m_seq _ _ (c :: a) b) | apply (m_seq _ _ [] (c :: s))]; done. }
    destruct (nullable r1) eqn:Hn.
    + apply nullable_spec in Hn. split.
      * inversion 1; subst; [left; by apply Hs | right; by rewrite <- IH2].
      * intros [Ha|[_ Hb]]; [apply m_alt_l; by apply Hs | apply m_alt_r; by apply IH2].
    + rewrite Hs. split; [by left|]. intros [Ha|[Ha%nullable_spec _]]; [done | congruence].
  - split; inversion 1; subst; auto with vsms.
    + apply m_alt_l. by apply IH1.
    + apply m_alt_r. by apply IH2.
    + apply m_alt_l. by apply IH1.
    + apply m_alt_r. by apply IH2.
  - split.
    + inversion 1 as [| |? ? a b Ha Hb| | | |]; subst. apply (m_star_cons _ (c :: a) b); [by apply IH | done].
    + intros (a & b & -> & Ha & Hb)%star_cons. constructor; [by apply IH | done].
Qed.

Lemma full_match_spec r s : full_match r s = true <-> matches r s.
Proof.
  unfold full_match. revert r. induction s as [|c s IH]; intros r; cbn [foldl].
  - apply nullable_spec.
  - rewrite IH. apply derive_spec.
Qed.

(** Every character of a match is one some class of the expression allows. *)
Fixpoint alphabet (r : regex) (c : Z) : bool :=
  match r with
  | Nothing | Epsilon => false
  | Class f => f c
  | Seq r s | Alt r s => alphabet r c || alphabet s c
  | Star r => alphabet r c
  end.

Lemma matches_alphabet r s : matches r s -> Forall (fun c => alphabet r c = true) s.
Proof.
  induction 1; cbn [alphabet]; auto.
  - apply Forall_app. split; (eapply Forall_impl; [eassumption|]); intros x Hx; cbn; rewrite Hx; auto with bool.
  - eapply Forall_impl; [eassumption|]. intros x Hx; cbn. by rewrite Hx.
  - eapply Forall_impl; [eassumption|]. intros x Hx; cbn. by rewrite Hx, orb_true_r.
  - by apply Forall_app.
Qed.

End SealablePattern.

Definition url_can_be_sealed (url : text) : bool :=
  SealablePattern.full_match SealablePattern.SEALABLE_URL_PATTERN url.

(** What a sealed route cannot hold: braces, a percent sign, a query, a
    fragment, a space or a backslash. *)
Definition unsealable : text := lit "{}%?# \".

Lemma sealable_plain url :
  url_can_be_sealed url = true -> Forall (fun c => c ∉ unsealable) url.
Proof.
  intros Hu%SealablePattern.full_match_spec%SealablePattern.matches_alphabet.
  assert (Forall (fun c => SealablePattern.alphabet SealablePattern.SEALABLE_URL_PATTERN c = false)
            unsealable) as Hno.
  { apply (bool_decide_unpack _). vm_compute. exact I. }
  eapply Forall_impl; [exact Hu|]. cbn beta. intros c Hc Hin. rewrite Forall_forall in Hno.
  by rewrite (Hno c Hin) in Hc.
Qed.
