(* ===== verification/Schema.v ===== *)
(** * The schema: rows, updates and the database's state machines

    The rows of schemas/vsms.cstack that the modelled code reads and writes
    (column for column, relations apart), their enums, the assignments an
    update can make (the columns the modelled code sets; an update leaves
    every other column as it was), and the triggers of
    backends/migrations/postgres/0002_bootstrap/up.sql that run on every
    update: the three transition guards and the [updated_at] stamp.

    A [DateTime] is a number of microseconds, the resolution the database
    stores; [Decimal] is a mantissa and a scale. *)

From S2P Require Import Prelude Float64.

Abbreviation Decimal := (Z * Z)%type.

(** ** Enums *)
Module MessageClass.

Inductive t := otp | transactional | notification | marketing.

#[export] Instance MessageClass_eq_dec : EqDecision t.
Proof. solve_decision. Defined.

End MessageClass.

Module MessageState.

Inductive t :=
  accepted | queued | routed | submitted | delivered | uncertain | undelivered | failed
  | expired | rejected | cancelled.

#[export] Instance MessageState_eq_dec : EqDecision t.
Proof. solve_decision. Defined.

End MessageState.

Module JobState.

Inductive t := pending | running | succeeded | failed | dead | cancelled.

#[export] Instance JobState_eq_dec : EqDecision t.
Proof. solve_decision. Defined.

End JobState.

Module EncodingCode.

Inductive t := gsm7 | ucs2.

#[export] Instance EncodingCode_eq_dec : EqDecision t.
Proof. solve_decision. Defined.

End EncodingCode.

Module OperatorCode.

Inductive t := mtn | orange | camtel | nexttel | unknown.

#[export] Instance OperatorCode_eq_dec : EqDecision t.
Proof. solve_decision. Defined.

End OperatorCode.

Module ProviderKind.

Inductive t := orange_cm_http | mtn_http | aggregator_http | smpp.

#[export] Instance ProviderKind_eq_dec : EqDecision t.
Proof. solve_decision. Defined.

End ProviderKind.

Module ProviderState.

Inductive t := active | degraded | disabled | draining.

#[export] Instance ProviderState_eq_dec : EqDecision t.
Proof. solve_decision. Defined.

End ProviderState.

Module DeliveryOutcomeCode.

Inductive t := delivered | uncertain | failed | expired | rejected | in_flight | unknown.

#[export] Instance DeliveryOutcomeCode_eq_dec : EqDecision t.
Proof. solve_decision. Defined.

End DeliveryOutcomeCode.

Module AttemptState.

Inductive t := pending | delivering | succeeded | failed | dead.

#[export] Instance AttemptState_eq_dec : EqDecision t.
Proof. solve_decision. Defined.

End AttemptState.

Module WebhookDeliveryMode.

Inductive t := sealed | hmac.

#[export] Instance WebhookDeliveryMode_eq_dec : EqDecision t.
Proof. solve_decision. Defined.

End WebhookDeliveryMode.

#[export] Existing Instances MessageClass.MessageClass_eq_dec
  MessageState.MessageState_eq_dec JobState.JobState_eq_dec EncodingCode.EncodingCode_eq_dec
  OperatorCode.OperatorCode_eq_dec ProviderKind.ProviderKind_eq_dec
  ProviderState.ProviderState_eq_dec DeliveryOutcomeCode.DeliveryOutcomeCode_eq_dec
  AttemptState.AttemptState_eq_dec WebhookDeliveryMode.WebhookDeliveryMode_eq_dec.

(** ** Rows *)

(** An SMS provider row. *)
Module Provider.

Record t := mk {
  id : text;
  createdAt : Z;
  updatedAt : Z;
  key : text;
  displayName : text;
  kind : ProviderKind.t;
  state : ProviderState.t;
  config : text;
  credentialRef : text;
  maxTps : f64;
  maxDailySubmissions : Z;
  supportsDlr : bool;
  supportsAlphaSender : bool;
  supportsUcs2 : bool;
  supportsConcat : bool;
  costPerSegmentXaf : Decimal;
  healthCheckedAt : option Z;
  healthy : bool;
  consecutiveFailures : Z;
  circuitOpenUntil : option Z;
  version : Z }.

Definition set_consecutiveFailures (v : Z) (x : t) : t :=
  mk (x.(id)) (x.(createdAt)) (x.(updatedAt)) (x.(key)) (x.(displayName)) (x.(kind))
  (x.(state)) (x.(config)) (x.(credentialRef)) (x.(maxTps)) (x.(maxDailySubmissions))
  (x.(supportsDlr)) (x.(supportsAlphaSender)) (x.(supportsUcs2)) (x.(supportsConcat))
  (x.(costPerSegmentXaf)) (x.(healthCheckedAt)) (x.(healthy)) v (x.(circuitOpenUntil))
  (x.(version)).

Definition set_circuitOpenUntil (v : option Z) (x : t) : t :=
  mk (x.(id)) (x.(createdAt)) (x.(updatedAt)) (x.(key)) (x.(displayName)) (x.(kind))
  (x.(state)) (x.(config)) (x.(credentialRef)) (x.(maxTps)) (x.(maxDailySubmissions))
  (x.(supportsDlr)) (x.(supportsAlphaSender)) (x.(supportsUcs2)) (x.(supportsConcat))
  (x.(costPerSegmentXaf)) (x.(healthCheckedAt)) (x.(healthy)) (x.(consecutiveFailures)) v
  (x.(version)).

Definition set_version (v : Z) (x : t) : t :=
  mk (x.(id)) (x.(createdAt)) (x.(updatedAt)) (x.(key)) (x.(displayName)) (x.(kind))
  (x.(state)) (x.(config)) (x.(credentialRef)) (x.(maxTps)) (x.(maxDailySubmissions))
  (x.(supportsDlr)) (x.(supportsAlphaSender)) (x.(supportsUcs2)) (x.(supportsConcat))
  (x.(costPerSegmentXaf)) (x.(healthCheckedAt)) (x.(healthy)) (x.(consecutiveFailures))
  (x.(circuitOpenUntil)) v.

Definition set_updatedAt (v : Z) (x : t) : t :=
  mk (x.(id)) (x.(createdAt)) v (x.(key)) (x.(displayName)) (x.(kind)) (x.(state))
  (x.(config)) (x.(credentialRef)) (x.(maxTps)) (x.(maxDailySubmissions)) (x.(supportsDlr))
  (x.(supportsAlphaSender)) (x.(supportsUcs2)) (x.(supportsConcat)) (x.(costPerSegmentXaf))
  (x.(healthCheckedAt)) (x.(healthy)) (x.(consecutiveFailures)) (x.(circuitOpenUntil))
  (x.(version)).

(** One assignment of an update. *)
Inductive col :=
| SetConsecutiveFailures (v : Z)
| SetCircuitOpenUntil (v : option Z).

Definition set_col (x : t) (c : col) : t :=
  match c with
  | SetConsecutiveFailures v => set_consecutiveFailures v x
  | SetCircuitOpenUntil v => set_circuitOpenUntil v x
  end.

Definition apply (p : list col) (x : t) : t := foldl set_col x p.

End Provider.

(** A routing rule. *)
Module Route.

Record t := mk {
  id : text;
  createdAt : Z;
  updatedAt : Z;
  name : text;
  priority : Z;
  weight : Z;
  enabled : bool;
  matchOperator : option OperatorCode.t;
  matchClass : option MessageClass.t;
  matchAppId : option text;
  matchPrefix : option text;
  providerId : text;
  failoverRouteId : option text;
  version : Z }.

End Route.

(** A message and its lifecycle columns. *)
Module Message.

Record t := mk {
  id : text;
  createdAt : Z;
  updatedAt : Z;
  appId : text;
  clientRef : option text;
  idempotencyKey : option text;
  msisdn : text;
  msisdnHash : text;
  operator : OperatorCode.t;
  senderIdValue : text;
  class : MessageClass.t;
  priority : Z;
  body : option text;
  bodyHash : text;
  bodyLength : Z;
  encoding : EncodingCode.t;
  segments : Z;
  state : MessageState.t;
  stateReason : option text;
  routeId : option text;
  providerId : option text;
  providerMessageRef : option text;
  providerMessageRefAlt : option text;
  excludedRouteIds : option text;
  attempts : Z;
  maxAttempts : Z;
  leaseOwner : option text;
  leaseUntil : option Z;
  scheduledAt : option Z;
  expiresAt : Z;
  submittedAt : option Z;
  finalizedAt : option Z;
  purgedAt : option Z;
  costXaf : Decimal;
  version : Z }.

Definition set_clientRef (v : option text) (x : t) : t :=
  mk (x.(id)) (x.(createdAt)) (x.(updatedAt)) (x.(appId)) v (x.(idempotencyKey))
  (x.(msisdn)) (x.(msisdnHash)) (x.(operator)) (x.(senderIdValue)) (x.(class))
  (x.(priority)) (x.(body)) (x.(bodyHash)) (x.(bodyLength)) (x.(encoding)) (x.(segments))
  (x.(state)) (x.(stateReason)) (x.(routeId)) (x.(providerId)) (x.(providerMessageRef))
  (x.(providerMessageRefAlt)) (x.(excludedRouteIds)) (x.(attempts)) (x.(maxAttempts))
  (x.(leaseOwner)) (x.(leaseUntil)) (x.(scheduledAt)) (x.(expiresAt)) (x.(submittedAt))
  (x.(finalizedAt)) (x.(purgedAt)) (x.(costXaf)) (x.(version)).

Definition set_idempotencyKey (v : option text) (x : t) : t :=
  mk (x.(id)) (x.(createdAt)) (x.(updatedAt)) (x.(appId)) (x.(clientRef)) v (x.(msisdn))
  (x.(msisdnHash)) (x.(operator)) (x.(senderIdValue)) (x.(class)) (x.(priority)) (x.(body))
  (x.(bodyHash)) (x.(bodyLength)) (x.(encoding)) (x.(segments)) (x.(state))
  (x.(stateReason)) (x.(routeId)) (x.(providerId)) (x.(providerMessageRef))
  (x.(providerMessageRefAlt)) (x.(excludedRouteIds)) (x.(attempts)) (x.(maxAttempts))
  (x.(leaseOwner)) (x.(leaseUntil)) (x.(scheduledAt)) (x.(expiresAt)) (x.(submittedAt))
  (x.(finalizedAt)) (x.(purgedAt)) (x.(costXaf)) (x.(version)).

Definition set_msisdn (v : text) (x : t) : t :=
  mk (x.(id)) (x.(createdAt)) (x.(updatedAt)) (x.(appId)) (x.(clientRef))
  (x.(idempotencyKey)) v (x.(msisdnHash)) (x.(operator)) (x.(senderIdValue)) (x.(class))
  (x.(priority)) (x.(body)) (x.(bodyHash)) (x.(bodyLength)) (x.(encoding)) (x.(segments))
  (x.(state)) (x.(stateReason)) (x.(routeId)) (x.(providerId)) (x.(providerMessageRef))
  (x.(providerMessageRefAlt)) (x.(excludedRouteIds)) (x.(attempts)) (x.(maxAttempts))
  (x.(leaseOwner)) (x.(leaseUntil)) (x.(scheduledAt)) (x.(expiresAt)) (x.(submittedAt))
  (x.(finalizedAt)) (x.(purgedAt)) (x.(costXaf)) (x.(version)).

Definition set_body (v : option text) (x : t) : t :=
  mk (x.(id)) (x.(createdAt)) (x.(updatedAt)) (x.(appId)) (x.(clientRef))
  (x.(idempotencyKey)) (x.(msisdn)) (x.(msisdnHash)) (x.(operator)) (x.(senderIdValue))
  (x.(class)) (x.(priority)) v (x.(bodyHash)) (x.(bodyLength)) (x.(encoding)) (x.(segments))
  (x.(state)) (x.(stateReason)) (x.(routeId)) (x.(providerId)) (x.(providerMessageRef))
  (x.(providerMessageRefAlt)) (x.(excludedRouteIds)) (x.(attempts)) (x.(maxAttempts))
  (x.(leaseOwner)) (x.(leaseUntil)) (x.(scheduledAt)) (x.(expiresAt)) (x.(submittedAt))
  (x.(finalizedAt)) (x.(purgedAt)) (x.(costXaf)) (x.(version)).

Definition set_state (v : MessageState.t) (x : t) : t :=
  mk (x.(id)) (x.(createdAt)) (x.(updatedAt)) (x.(appId)) (x.(clientRef))
  (x.(idempotencyKey)) (x.(msisdn)) (x.(msisdnHash)) (x.(operator)) (x.(senderIdValue))
  (x.(class)) (x.(priority)) (x.(body)) (x.(bodyHash)) (x.(bodyLength)) (x.(encoding))
  (x.(segments)) v (x.(stateReason)) (x.(routeId)) (x.(providerId)) (x.(providerMessageRef))
  (x.(providerMessageRefAlt)) (x.(excludedRouteIds)) (x.(attempts)) (x.(maxAttempts))
  (x.(leaseOwner)) (x.(leaseUntil)) (x.(scheduledAt)) (x.(expiresAt)) (x.(submittedAt))
  (x.(finalizedAt)) (x.(purgedAt)) (x.(costXaf)) (x.(version)).

Definition set_stateReason (v : option text) (x : t) : t :=
  mk (x.(id)) (x.(createdAt)) (x.(updatedAt)) (x.(appId)) (x.(clientRef))
  (x.(idempotencyKey)) (x.(msisdn)) (x.(msisdnHash)) (x.(operator)) (x.(senderIdValue))
  (x.(class)) (x.(priority)) (x.(body)) (x.(bodyHash)) (x.(bodyLength)) (x.(encoding))
  (x.(segments)) (x.(state)) v (x.(routeId)) (x.(providerId)) (x.(providerMessageRef))
  (x.(providerMessageRefAlt)) (x.(excludedRouteIds)) (x.(attempts)) (x.(maxAttempts))
  (x.(leaseOwner)) (x.(leaseUntil)) (x.(scheduledAt)) (x.(expiresAt)) (x.(submittedAt))
  (x.(finalizedAt)) (x.(purgedAt)) (x.(costXaf)) (x.(version)).

Definition set_routeId (v : option text) (x : t) : t :=
  mk (x.(id)) (x.(createdAt)) (x.(updatedAt)) (x.(appId)) (x.(clientRef))
  (x.(idempotencyKey)) (x.(msisdn)) (x.(msisdnHash)) (x.(operator)) (x.(senderIdValue))
  (x.(class)) (x.(priority)) (x.(body)) (x.(bodyHash)) (x.(bodyLength)) (x.(encoding))
  (x.(segments)) (x.(state)) (x.(stateReason)) v (x.(providerId)) (x.(providerMessageRef))
  (x.(providerMessageRefAlt)) (x.(excludedRouteIds)) (x.(attempts)) (x.(maxAttempts))
  (x.(leaseOwner)) (x.(leaseUntil)) (x.(scheduledAt)) (x.(expiresAt)) (x.(submittedAt))
  (x.(finalizedAt)) (x.(purgedAt)) (x.(costXaf)) (x.(version)).

Definition set_providerId (v : option text) (x : t) : t :=
  mk (x.(id)) (x.(createdAt)) (x.(updatedAt)) (x.(appId)) (x.(clientRef))
  (x.(idempotencyKey)) (x.(msisdn)) (x.(msisdnHash)) (x.(operator)) (x.(senderIdValue))
  (x.(class)) (x.(priority)) (x.(body)) (x.(bodyHash)) (x.(bodyLength)) (x.(encoding))
  (x.(segments)) (x.(state)) (x.(stateReason)) (x.(routeId)) v (x.(providerMessageRef))
  (x.(providerMessageRefAlt)) (x.(excludedRouteIds)) (x.(attempts)) (x.(maxAttempts))
  (x.(leaseOwner)) (x.(leaseUntil)) (x.(scheduledAt)) (x.(expiresAt)) (x.(submittedAt))
  (x.(finalizedAt)) (x.(purgedAt)) (x.(costXaf)) (x.(version)).

Definition set_providerMessageRef (v : option text) (x : t) : t :=
  mk (x.(id)) (x.(createdAt)) (x.(updatedAt)) (x.(appId)) (x.(clientRef))
  (x.(idempotencyKey)) (x.(msisdn)) (x.(msisdnHash)) (x.(operator)) (x.(senderIdValue))
  (x.(class)) (x.(priority)) (x.(body)) (x.(bodyHash)) (x.(bodyLength)) (x.(encoding))
  (x.(segments)) (x.(state)) (x.(stateReason)) (x.(routeId)) (x.(providerId)) v
  (x.(providerMessageRefAlt)) (x.(excludedRouteIds)) (x.(attempts)) (x.(maxAttempts))
  (x.(leaseOwner)) (x.(leaseUntil)) (x.(scheduledAt)) (x.(expiresAt)) (x.(submittedAt))
  (x.(finalizedAt)) (x.(purgedAt)) (x.(costXaf)) (x.(version)).

Definition set_providerMessageRefAlt (v : option text) (x : t) : t :=
  mk (x.(id)) (x.(createdAt)) (x.(updatedAt)) (x.(appId)) (x.(clientRef))
  (x.(idempotencyKey)) (x.(msisdn)) (x.(msisdnHash)) (x.(operator)) (x.(senderIdValue))
  (x.(class)) (x.(priority)) (x.(body)) (x.(bodyHash)) (x.(bodyLength)) (x.(encoding))
  (x.(segments)) (x.(state)) (x.(stateReason)) (x.(routeId)) (x.(providerId))
  (x.(providerMessageRef)) v (x.(excludedRouteIds)) (x.(attempts)) (x.(maxAttempts))
  (x.(leaseOwner)) (x.(leaseUntil)) (x.(scheduledAt)) (x.(expiresAt)) (x.(submittedAt))
  (x.(finalizedAt)) (x.(purgedAt)) (x.(costXaf)) (x.(version)).

Definition set_excludedRouteIds (v : option text) (x : t) : t :=
  mk (x.(id)) (x.(createdAt)) (x.(updatedAt)) (x.(appId)) (x.(clientRef))
  (x.(idempotencyKey)) (x.(msisdn)) (x.(msisdnHash)) (x.(operator)) (x.(senderIdValue))
  (x.(class)) (x.(priority)) (x.(body)) (x.(bodyHash)) (x.(bodyLength)) (x.(encoding))
  (x.(segments)) (x.(state)) (x.(stateReason)) (x.(routeId)) (x.(providerId))
  (x.(providerMessageRef)) (x.(providerMessageRefAlt)) v (x.(attempts)) (x.(maxAttempts))
  (x.(leaseOwner)) (x.(leaseUntil)) (x.(scheduledAt)) (x.(expiresAt)) (x.(submittedAt))
  (x.(finalizedAt)) (x.(purgedAt)) (x.(costXaf)) (x.(version)).

Definition set_attempts (v : Z) (x : t) : t :=
  mk (x.(id)) (x.(createdAt)) (x.(updatedAt)) (x.(appId)) (x.(clientRef))
  (x.(idempotencyKey)) (x.(msisdn)) (x.(msisdnHash)) (x.(operator)) (x.(senderIdValue))
  (x.(class)) (x.(priority)) (x.(body)) (x.(bodyHash)) (x.(bodyLength)) (x.(encoding))
  (x.(segments)) (x.(state)) (x.(stateReason)) (x.(routeId)) (x.(providerId))
  (x.(providerMessageRef)) (x.(providerMessageRefAlt)) (x.(excludedRouteIds)) v
  (x.(maxAttempts)) (x.(leaseOwner)) (x.(leaseUntil)) (x.(scheduledAt)) (x.(expiresAt))
  (x.(submittedAt)) (x.(finalizedAt)) (x.(purgedAt)) (x.(costXaf)) (x.(version)).

Definition set_leaseOwner (v : option text) (x : t) : t :=
  mk (x.(id)) (x.(createdAt)) (x.(updatedAt)) (x.(appId)) (x.(clientRef))
  (x.(idempotencyKey)) (x.(msisdn)) (x.(msisdnHash)) (x.(operator)) (x.(senderIdValue))
  (x.(class)) (x.(priority)) (x.(body)) (x.(bodyHash)) (x.(bodyLength)) (x.(encoding))
  (x.(segments)) (x.(state)) (x.(stateReason)) (x.(routeId)) (x.(providerId))
  (x.(providerMessageRef)) (x.(providerMessageRefAlt)) (x.(excludedRouteIds)) (x.(attempts))
  (x.(maxAttempts)) v (x.(leaseUntil)) (x.(scheduledAt)) (x.(expiresAt)) (x.(submittedAt))
  (x.(finalizedAt)) (x.(purgedAt)) (x.(costXaf)) (x.(version)).

Definition set_leaseUntil (v : option Z) (x : t) : t :=
  mk (x.(id)) (x.(createdAt)) (x.(updatedAt)) (x.(appId)) (x.(clientRef))
  (x.(idempotencyKey)) (x.(msisdn)) (x.(msisdnHash)) (x.(operator)) (x.(senderIdValue))
  (x.(class)) (x.(priority)) (x.(body)) (x.(bodyHash)) (x.(bodyLength)) (x.(encoding))
  (x.(segments)) (x.(state)) (x.(stateReason)) (x.(routeId)) (x.(providerId))
  (x.(providerMessageRef)) (x.(providerMessageRefAlt)) (x.(excludedRouteIds)) (x.(attempts))
  (x.(maxAttempts)) (x.(leaseOwner)) v (x.(scheduledAt)) (x.(expiresAt)) (x.(submittedAt))
  (x.(finalizedAt)) (x.(purgedAt)) (x.(costXaf)) (x.(version)).

Definition set_purgedAt (v : option Z) (x : t) : t :=
  mk (x.(id)) (x.(createdAt)) (x.(updatedAt)) (x.(appId)) (x.(clientRef))
  (x.(idempotencyKey)) (x.(msisdn)) (x.(msisdnHash)) (x.(operator)) (x.(senderIdValue))
  (x.(class)) (x.(priority)) (x.(body)) (x.(bodyHash)) (x.(bodyLength)) (x.(encoding))
  (x.(segments)) (x.(state)) (x.(stateReason)) (x.(routeId)) (x.(providerId))
  (x.(providerMessageRef)) (x.(providerMessageRefAlt)) (x.(excludedRouteIds)) (x.(attempts))
  (x.(maxAttempts)) (x.(leaseOwner)) (x.(leaseUntil)) (x.(scheduledAt)) (x.(expiresAt))
  (x.(submittedAt)) (x.(finalizedAt)) v (x.(costXaf)) (x.(version)).

Definition set_submittedAt (v : option Z) (x : t) : t :=
  mk (x.(id)) (x.(createdAt)) (x.(updatedAt)) (x.(appId)) (x.(clientRef))
  (x.(idempotencyKey)) (x.(msisdn)) (x.(msisdnHash)) (x.(operator)) (x.(senderIdValue))
  (x.(class)) (x.(priority)) (x.(body)) (x.(bodyHash)) (x.(bodyLength)) (x.(encoding))
  (x.(segments)) (x.(state)) (x.(stateReason)) (x.(routeId)) (x.(providerId))
  (x.(providerMessageRef)) (x.(providerMessageRefAlt)) (x.(excludedRouteIds)) (x.(attempts))
  (x.(maxAttempts)) (x.(leaseOwner)) (x.(leaseUntil)) (x.(scheduledAt)) (x.(expiresAt)) v
  (x.(finalizedAt)) (x.(purgedAt)) (x.(costXaf)) (x.(version)).

Definition set_finalizedAt (v : option Z) (x : t) : t :=
  mk (x.(id)) (x.(createdAt)) (x.(updatedAt)) (x.(appId)) (x.(clientRef))
  (x.(idempotencyKey)) (x.(msisdn)) (x.(msisdnHash)) (x.(operator)) (x.(senderIdValue))
  (x.(class)) (x.(priority)) (x.(body)) (x.(bodyHash)) (x.(bodyLength)) (x.(encoding))
  (x.(segments)) (x.(state)) (x.(stateReason)) (x.(routeId)) (x.(providerId))
  (x.(providerMessageRef)) (x.(providerMessageRefAlt)) (x.(excludedRouteIds)) (x.(attempts))
  (x.(maxAttempts)) (x.(leaseOwner)) (x.(leaseUntil)) (x.(scheduledAt)) (x.(expiresAt))
  (x.(submittedAt)) v (x.(purgedAt)) (x.(costXaf)) (x.(version)).

Definition set_version (v : Z) (x : t) : t :=
  mk (x.(id)) (x.(createdAt)) (x.(updatedAt)) (x.(appId)) (x.(clientRef))
  (x.(idempotencyKey)) (x.(msisdn)) (x.(msisdnHash)) (x.(operator)) (x.(senderIdValue))
  (x.(class)) (x.(priority)) (x.(body)) (x.(bodyHash)) (x.(bodyLength)) (x.(encoding))
  (x.(segments)) (x.(state)) (x.(stateReason)) (x.(routeId)) (x.(providerId))
  (x.(providerMessageRef)) (x.(providerMessageRefAlt)) (x.(excludedRouteIds)) (x.(attempts))
  (x.(maxAttempts)) (x.(leaseOwner)) (x.(leaseUntil)) (x.(scheduledAt)) (x.(expiresAt))
  (x.(submittedAt)) (x.(finalizedAt)) (x.(purgedAt)) (x.(costXaf)) v.

Definition set_updatedAt (v : Z) (x : t) : t :=
  mk (x.(id)) (x.(createdAt)) v (x.(appId)) (x.(clientRef)) (x.(idempotencyKey))
  (x.(msisdn)) (x.(msisdnHash)) (x.(operator)) (x.(senderIdValue)) (x.(class))
  (x.(priority)) (x.(body)) (x.(bodyHash)) (x.(bodyLength)) (x.(encoding)) (x.(segments))
  (x.(state)) (x.(stateReason)) (x.(routeId)) (x.(providerId)) (x.(providerMessageRef))
  (x.(providerMessageRefAlt)) (x.(excludedRouteIds)) (x.(attempts)) (x.(maxAttempts))
  (x.(leaseOwner)) (x.(leaseUntil)) (x.(scheduledAt)) (x.(expiresAt)) (x.(submittedAt))
  (x.(finalizedAt)) (x.(purgedAt)) (x.(costXaf)) (x.(version)).

(** One assignment of an update. *)
Inductive col :=
| SetClientRef (v : option text)
| SetIdempotencyKey (v : option text)
| SetMsisdn (v : text)
| SetBody (v : option text)
| SetState (v : MessageState.t)
| SetStateReason (v : option text)
| SetRouteId (v : option text)
| SetProviderId (v : option text)
| SetProviderMessageRef (v : option text)
| SetProviderMessageRefAlt (v : option text)
| SetExcludedRouteIds (v : option text)
| SetAttempts (v : Z)
| SetLeaseOwner (v : option text)
| SetLeaseUntil (v : option Z)
| SetPurgedAt (v : option Z).

Definition set_col (x : t) (c : col) : t :=
  match c with
  | SetClientRef v => set_clientRef v x
  | SetIdempotencyKey v => set_idempotencyKey v x
  | SetMsisdn v => set_msisdn v x
  | SetBody v => set_body v x
  | SetState v => set_state v x
  | SetStateReason v => set_stateReason v x
  | SetRouteId v => set_routeId v x
  | SetProviderId v => set_providerId v x
  | SetProviderMessageRef v => set_providerMessageRef v x
  | SetProviderMessageRefAlt v => set_providerMessageRefAlt v x
  | SetExcludedRouteIds v => set_excludedRouteIds v x
  | SetAttempts v => set_attempts v x
  | SetLeaseOwner v => set_leaseOwner v x
  | SetLeaseUntil v => set_leaseUntil v x
  | SetPurgedAt v => set_purgedAt v x
  end.

Definition apply (p : list col) (x : t) : t := foldl set_col x p.

End Message.

(** One delivery receipt; rows are created and deleted, never updated. *)
Module DeliveryReceipt.

Record t := mk {
  id : text;
  messageId : text;
  providerId : text;
  providerMessageRef : text;
  outcome : DeliveryOutcomeCode.t;
  rawStatus : text;
  errorCode : option text;
  networkCode : OperatorCode.t;
  receivedAt : Z;
  occurredAt : option Z;
  rawPayload : text }.

End DeliveryReceipt.

(** A background job. *)
Module Job.

Record t := mk {
  id : text;
  createdAt : Z;
  updatedAt : Z;
  kind : text;
  dedupeKey : option text;
  payload : text;
  state : JobState.t;
  priority : Z;
  runAt : Z;
  leaseOwner : option text;
  leaseUntil : option Z;
  attempts : Z;
  maxAttempts : Z;
  lastError : option text;
  startedAt : option Z;
  finishedAt : option Z;
  version : Z }.

Definition set_state (v : JobState.t) (x : t) : t :=
  mk (x.(id)) (x.(createdAt)) (x.(updatedAt)) (x.(kind)) (x.(dedupeKey)) (x.(payload)) v
  (x.(priority)) (x.(runAt)) (x.(leaseOwner)) (x.(leaseUntil)) (x.(attempts))
  (x.(maxAttempts)) (x.(lastError)) (x.(startedAt)) (x.(finishedAt)) (x.(version)).

Definition set_runAt (v : Z) (x : t) : t :=
  mk (x.(id)) (x.(createdAt)) (x.(updatedAt)) (x.(kind)) (x.(dedupeKey)) (x.(payload))
  (x.(state)) (x.(priority)) v (x.(leaseOwner)) (x.(leaseUntil)) (x.(attempts))
  (x.(maxAttempts)) (x.(lastError)) (x.(startedAt)) (x.(finishedAt)) (x.(version)).

Definition set_leaseOwner (v : option text) (x : t) : t :=
  mk (x.(id)) (x.(createdAt)) (x.(updatedAt)) (x.(kind)) (x.(dedupeKey)) (x.(payload))
  (x.(state)) (x.(priority)) (x.(runAt)) v (x.(leaseUntil)) (x.(attempts)) (x.(maxAttempts))
  (x.(lastError)) (x.(startedAt)) (x.(finishedAt)) (x.(version)).

Definition set_leaseUntil (v : option Z) (x : t) : t :=
  mk (x.(id)) (x.(createdAt)) (x.(updatedAt)) (x.(kind)) (x.(dedupeKey)) (x.(payload))
  (x.(state)) (x.(priority)) (x.(runAt)) (x.(leaseOwner)) v (x.(attempts)) (x.(maxAttempts))
  (x.(lastError)) (x.(startedAt)) (x.(finishedAt)) (x.(version)).

Definition set_attempts (v : Z) (x : t) : t :=
  mk (x.(id)) (x.(createdAt)) (x.(updatedAt)) (x.(kind)) (x.(dedupeKey)) (x.(payload))
  (x.(state)) (x.(priority)) (x.(runAt)) (x.(leaseOwner)) (x.(leaseUntil)) v
  (x.(maxAttempts)) (x.(lastError)) (x.(startedAt)) (x.(finishedAt)) (x.(version)).

Definition set_lastError (v : option text) (x : t) : t :=
  mk (x.(id)) (x.(createdAt)) (x.(updatedAt)) (x.(kind)) (x.(dedupeKey)) (x.(payload))
  (x.(state)) (x.(priority)) (x.(runAt)) (x.(leaseOwner)) (x.(leaseUntil)) (x.(attempts))
  (x.(maxAttempts)) v (x.(startedAt)) (x.(finishedAt)) (x.(version)).

Definition set_startedAt (v : option Z) (x : t) : t :=
  mk (x.(id)) (x.(createdAt)) (x.(updatedAt)) (x.(kind)) (x.(dedupeKey)) (x.(payload))
  (x.(state)) (x.(priority)) (x.(runAt)) (x.(leaseOwner)) (x.(leaseUntil)) (x.(attempts))
  (x.(maxAttempts)) (x.(lastError)) v (x.(finishedAt)) (x.(version)).

Definition set_finishedAt (v : option Z) (x : t) : t :=
  mk (x.(id)) (x.(createdAt)) (x.(updatedAt)) (x.(kind)) (x.(dedupeKey)) (x.(payload))
  (x.(state)) (x.(priority)) (x.(runAt)) (x.(leaseOwner)) (x.(leaseUntil)) (x.(attempts))
  (x.(maxAttempts)) (x.(lastError)) (x.(startedAt)) v (x.(version)).

Definition set_version (v : Z) (x : t) : t :=
  mk (x.(id)) (x.(createdAt)) (x.(updatedAt)) (x.(kind)) (x.(dedupeKey)) (x.(payload))
  (x.(state)) (x.(priority)) (x.(runAt)) (x.(leaseOwner)) (x.(leaseUntil)) (x.(attempts))
  (x.(maxAttempts)) (x.(lastError)) (x.(startedAt)) (x.(finishedAt)) v.

Definition set_updatedAt (v : Z) (x : t) : t :=
  mk (x.(id)) (x.(createdAt)) v (x.(kind)) (x.(dedupeKey)) (x.(payload)) (x.(state))
  (x.(priority)) (x.(runAt)) (x.(leaseOwner)) (x.(leaseUntil)) (x.(attempts))
  (x.(maxAttempts)) (x.(lastError)) (x.(startedAt)) (x.(finishedAt)) (x.(version)).

(** One assignment of an update. *)
Inductive col :=
| SetState (v : JobState.t)
| SetRunAt (v : Z)
| SetLeaseOwner (v : option text)
| SetLeaseUntil (v : option Z)
| SetAttempts (v : Z)
| SetLastError (v : option text).

Definition set_col (x : t) (c : col) : t :=
  match c with
  | SetState v => set_state v x
  | SetRunAt v => set_runAt v x
  | SetLeaseOwner v => set_leaseOwner v x
  | SetLeaseUntil v => set_leaseUntil v x
  | SetAttempts v => set_attempts v x
  | SetLastError v => set_lastError v x
  end.

Definition apply (p : list col) (x : t) : t := foldl set_col x p.

End Job.

(** A webhook endpoint an app registered. *)
Module WebhookEndpoint.

Record t := mk {
  id : text;
  createdAt : Z;
  updatedAt : Z;
  appId : text;
  url : text;
  deliveryMode : WebhookDeliveryMode.t;
  audience : option text;
  eventTypes : text;
  secret : option text;
  prevSecret : option text;
  secretRotatedAt : option Z;
  maskRecipient : bool;
  active : bool;
  maxAttempts : Z;
  circuitOpenUntil : option Z;
  consecutiveFailures : Z;
  version : Z }.

Definition set_deliveryMode (v : WebhookDeliveryMode.t) (x : t) : t :=
  mk (x.(id)) (x.(createdAt)) (x.(updatedAt)) (x.(appId)) (x.(url)) v (x.(audience))
  (x.(eventTypes)) (x.(secret)) (x.(prevSecret)) (x.(secretRotatedAt)) (x.(maskRecipient))
  (x.(active)) (x.(maxAttempts)) (x.(circuitOpenUntil)) (x.(consecutiveFailures))
  (x.(version)).

Definition set_audience (v : option text) (x : t) : t :=
  mk (x.(id)) (x.(createdAt)) (x.(updatedAt)) (x.(appId)) (x.(url)) (x.(deliveryMode)) v
  (x.(eventTypes)) (x.(secret)) (x.(prevSecret)) (x.(secretRotatedAt)) (x.(maskRecipient))
  (x.(active)) (x.(maxAttempts)) (x.(circuitOpenUntil)) (x.(consecutiveFailures))
  (x.(version)).

Definition set_secret (v : option text) (x : t) : t :=
  mk (x.(id)) (x.(createdAt)) (x.(updatedAt)) (x.(appId)) (x.(url)) (x.(deliveryMode))
  (x.(audience)) (x.(eventTypes)) v (x.(prevSecret)) (x.(secretRotatedAt))
  (x.(maskRecipient)) (x.(active)) (x.(maxAttempts)) (x.(circuitOpenUntil))
  (x.(consecutiveFailures)) (x.(version)).

Definition set_prevSecret (v : option text) (x : t) : t :=
  mk (x.(id)) (x.(createdAt)) (x.(updatedAt)) (x.(appId)) (x.(url)) (x.(deliveryMode))
  (x.(audience)) (x.(eventTypes)) (x.(secret)) v (x.(secretRotatedAt)) (x.(maskRecipient))
  (x.(active)) (x.(maxAttempts)) (x.(circuitOpenUntil)) (x.(consecutiveFailures))
  (x.(version)).

Definition set_secretRotatedAt (v : option Z) (x : t) : t :=
  mk (x.(id)) (x.(createdAt)) (x.(updatedAt)) (x.(appId)) (x.(url)) (x.(deliveryMode))
  (x.(audience)) (x.(eventTypes)) (x.(secret)) (x.(prevSecret)) v (x.(maskRecipient))
  (x.(active)) (x.(maxAttempts)) (x.(circuitOpenUntil)) (x.(consecutiveFailures))
  (x.(version)).

Definition set_active (v : bool) (x : t) : t :=
  mk (x.(id)) (x.(createdAt)) (x.(updatedAt)) (x.(appId)) (x.(url)) (x.(deliveryMode))
  (x.(audience)) (x.(eventTypes)) (x.(secret)) (x.(prevSecret)) (x.(secretRotatedAt))
  (x.(maskRecipient)) v (x.(maxAttempts)) (x.(circuitOpenUntil)) (x.(consecutiveFailures))
  (x.(version)).

Definition set_circuitOpenUntil (v : option Z) (x : t) : t :=
  mk (x.(id)) (x.(createdAt)) (x.(updatedAt)) (x.(appId)) (x.(url)) (x.(deliveryMode))
  (x.(audience)) (x.(eventTypes)) (x.(secret)) (x.(prevSecret)) (x.(secretRotatedAt))
  (x.(maskRecipient)) (x.(active)) (x.(maxAttempts)) v (x.(consecutiveFailures))
  (x.(version)).

Definition set_consecutiveFailures (v : Z) (x : t) : t :=
  mk (x.(id)) (x.(createdAt)) (x.(updatedAt)) (x.(appId)) (x.(url)) (x.(deliveryMode))
  (x.(audience)) (x.(eventTypes)) (x.(secret)) (x.(prevSecret)) (x.(secretRotatedAt))
  (x.(maskRecipient)) (x.(active)) (x.(maxAttempts)) (x.(circuitOpenUntil)) v (x.(version)).

Definition set_version (v : Z) (x : t) : t :=
  mk (x.(id)) (x.(createdAt)) (x.(updatedAt)) (x.(appId)) (x.(url)) (x.(deliveryMode))
  (x.(audience)) (x.(eventTypes)) (x.(secret)) (x.(prevSecret)) (x.(secretRotatedAt))
  (x.(maskRecipient)) (x.(active)) (x.(maxAttempts)) (x.(circuitOpenUntil))
  (x.(consecutiveFailures)) v.

Definition set_updatedAt (v : Z) (x : t) : t :=
  mk (x.(id)) (x.(createdAt)) v (x.(appId)) (x.(url)) (x.(deliveryMode)) (x.(audience))
  (x.(eventTypes)) (x.(secret)) (x.(prevSecret)) (x.(secretRotatedAt)) (x.(maskRecipient))
  (x.(active)) (x.(maxAttempts)) (x.(circuitOpenUntil)) (x.(consecutiveFailures))
  (x.(version)).

(** One assignment of an update. *)
Inductive col :=
| SetDeliveryMode (v : WebhookDeliveryMode.t)
| SetAudience (v : option text)
| SetSecret (v : option text)
| SetPrevSecret (v : option text)
| SetSecretRotatedAt (v : option Z)
| SetActive (v : bool)
| SetCircuitOpenUntil (v : option Z)
| SetConsecutiveFailures (v : Z).

Definition set_col (x : t) (c : col) : t :=
  match c with
  | SetDeliveryMode v => set_deliveryMode v x
  | SetAudience v => set_audience v x
  | SetSecret v => set_secret v x
  | SetPrevSecret v => set_prevSecret v x
  | SetSecretRotatedAt v => set_secretRotatedAt v x
  | SetActive v => set_active v x
  | SetCircuitOpenUntil v => set_circuitOpenUntil v x
  | SetConsecutiveFailures v => set_consecutiveFailures v x
  end.

Definition apply (p : list col) (x : t) : t := foldl set_col x p.

End WebhookEndpoint.

(** One delivery attempt of one event to one endpoint. *)
Module WebhookAttempt.

Record t := mk {
  id : text;
  endpointId : text;
  sourceEventId : text;
  aggregateId : text;
  eventType : text;
  payload : text;
  state : AttemptState.t;
  attempts : Z;
  leaseOwner : option text;
  leaseUntil : option Z;
  nextAttemptAt : option Z;
  lastStatusCode : option Z;
  lastError : option text;
  lastAttemptAt : option Z;
  deliveredAt : option Z;
  version : Z }.

Definition set_state (v : AttemptState.t) (x : t) : t :=
  mk (x.(id)) (x.(endpointId)) (x.(sourceEventId)) (x.(aggregateId)) (x.(eventType))
  (x.(payload)) v (x.(attempts)) (x.(leaseOwner)) (x.(leaseUntil)) (x.(nextAttemptAt))
  (x.(lastStatusCode)) (x.(lastError)) (x.(lastAttemptAt)) (x.(deliveredAt)) (x.(version)).

Definition set_attempts (v : Z) (x : t) : t :=
  mk (x.(id)) (x.(endpointId)) (x.(sourceEventId)) (x.(aggregateId)) (x.(eventType))
  (x.(payload)) (x.(state)) v (x.(leaseOwner)) (x.(leaseUntil)) (x.(nextAttemptAt))
  (x.(lastStatusCode)) (x.(lastError)) (x.(lastAttemptAt)) (x.(deliveredAt)) (x.(version)).

Definition set_leaseOwner (v : option text) (x : t) : t :=
  mk (x.(id)) (x.(endpointId)) (x.(sourceEventId)) (x.(aggregateId)) (x.(eventType))
  (x.(payload)) (x.(state)) (x.(attempts)) v (x.(leaseUntil)) (x.(nextAttemptAt))
  (x.(lastStatusCode)) (x.(lastError)) (x.(lastAttemptAt)) (x.(deliveredAt)) (x.(version)).

Definition set_leaseUntil (v : option Z) (x : t) : t :=
  mk (x.(id)) (x.(endpointId)) (x.(sourceEventId)) (x.(aggregateId)) (x.(eventType))
  (x.(payload)) (x.(state)) (x.(attempts)) (x.(leaseOwner)) v (x.(nextAttemptAt))
  (x.(lastStatusCode)) (x.(lastError)) (x.(lastAttemptAt)) (x.(deliveredAt)) (x.(version)).

Definition set_nextAttemptAt (v : option Z) (x : t) : t :=
  mk (x.(id)) (x.(endpointId)) (x.(sourceEventId)) (x.(aggregateId)) (x.(eventType))
  (x.(payload)) (x.(state)) (x.(attempts)) (x.(leaseOwner)) (x.(leaseUntil)) v
  (x.(lastStatusCode)) (x.(lastError)) (x.(lastAttemptAt)) (x.(deliveredAt)) (x.(version)).

Definition set_lastStatusCode (v : option Z) (x : t) : t :=
  mk (x.(id)) (x.(endpointId)) (x.(sourceEventId)) (x.(aggregateId)) (x.(eventType))
  (x.(payload)) (x.(state)) (x.(attempts)) (x.(leaseOwner)) (x.(leaseUntil))
  (x.(nextAttemptAt)) v (x.(lastError)) (x.(lastAttemptAt)) (x.(deliveredAt)) (x.(version)).

Definition set_lastError (v : option text) (x : t) : t :=
  mk (x.(id)) (x.(endpointId)) (x.(sourceEventId)) (x.(aggregateId)) (x.(eventType))
  (x.(payload)) (x.(state)) (x.(attempts)) (x.(leaseOwner)) (x.(leaseUntil))
  (x.(nextAttemptAt)) (x.(lastStatusCode)) v (x.(lastAttemptAt)) (x.(deliveredAt))
  (x.(version)).

Definition set_lastAttemptAt (v : option Z) (x : t) : t :=
  mk (x.(id)) (x.(endpointId)) (x.(sourceEventId)) (x.(aggregateId)) (x.(eventType))
  (x.(payload)) (x.(state)) (x.(attempts)) (x.(leaseOwner)) (x.(leaseUntil))
  (x.(nextAttemptAt)) (x.(lastStatusCode)) (x.(lastError)) v (x.(deliveredAt)) (x.(version)).

Definition set_deliveredAt (v : option Z) (x : t) : t :=
  mk (x.(id)) (x.(endpointId)) (x.(sourceEventId)) (x.(aggregateId)) (x.(eventType))
  (x.(payload)) (x.(state)) (x.(attempts)) (x.(leaseOwner)) (x.(leaseUntil))
  (x.(nextAttemptAt)) (x.(lastStatusCode)) (x.(lastError)) (x.(lastAttemptAt)) v
  (x.(version)).

Definition set_version (v : Z) (x : t) : t :=
  mk (x.(id)) (x.(endpointId)) (x.(sourceEventId)) (x.(aggregateId)) (x.(eventType))
  (x.(payload)) (x.(state)) (x.(attempts)) (x.(leaseOwner)) (x.(leaseUntil))
  (x.(nextAttemptAt)) (x.(lastStatusCode)) (x.(lastError)) (x.(lastAttemptAt))
  (x.(deliveredAt)) v.

(** One assignment of an update. *)
Inductive col :=
| SetState (v : AttemptState.t)
| SetAttempts (v : Z)
| SetLeaseOwner (v : option text)
| SetLeaseUntil (v : option Z)
| SetNextAttemptAt (v : option Z)
| SetLastStatusCode (v : option Z)
| SetLastError (v : option text)
| SetLastAttemptAt (v : option Z).

Definition set_col (x : t) (c : col) : t :=
  match c with
  | SetState v => set_state v x
  | SetAttempts v => set_attempts v x
  | SetLeaseOwner v => set_leaseOwner v x
  | SetLeaseUntil v => set_leaseUntil v x
  | SetNextAttemptAt v => set_nextAttemptAt v x
  | SetLastStatusCode v => set_lastStatusCode v x
  | SetLastError v => set_lastError v x
  | SetLastAttemptAt v => set_lastAttemptAt v x
  end.

Definition apply (p : list col) (x : t) : t := foldl set_col x p.

End WebhookAttempt.
(** ** The state machines of 0002_bootstrap *)
Module Guards.

Definition message_state_transitions : list (MessageState.t * MessageState.t) :=
  let accepted := MessageState.accepted in let queued := MessageState.queued in
  let routed := MessageState.routed in let submitted := MessageState.submitted in
  let delivered := MessageState.delivered in let uncertain := MessageState.uncertain in
  let undelivered := MessageState.undelivered in let failed := MessageState.failed in
  let expired := MessageState.expired in let rejected := MessageState.rejected in
  let cancelled := MessageState.cancelled in
  [ (accepted, queued); (accepted, rejected); (accepted, cancelled);
    (accepted, expired);
    (queued, routed); (queued, cancelled); (queued, expired);
    (queued, failed);
    (routed, submitted); (routed, queued); (routed, failed);
    (routed, expired); (routed, cancelled); (routed, uncertain);
    (submitted, delivered); (submitted, uncertain); (submitted, undelivered);
    (submitted, failed); (submitted, expired);
    (uncertain, delivered); (uncertain, failed); (uncertain, expired);
    (undelivered, queued); (undelivered, failed); (undelivered, expired) ].

Definition message_terminal (s : MessageState.t) : bool :=
  match s with
  | MessageState.delivered | MessageState.failed | MessageState.expired
  | MessageState.rejected | MessageState.cancelled => true
  | _ => false
  end.

(** The edge check every guard makes: a write that keeps the state passes. *)
Definition edge_ok {S} `{EqDecision S} (table : list (S * S)) (old new : S) : bool :=
  bool_decide (new = old) || bool_decide ((old, new) ∈ table).

Definition stamp (o : option Z) (now : Z) : option Z :=
  match o with Some t => Some t | None => Some now end.

(** [messages_guard_transition]: [None] is the SM001 exception. *)
Definition messages_guard_transition (now : Z) (old new : Message.t) : option Message.t :=
  if bool_decide (new.(Message.state) = old.(Message.state)) then Some new
  else if negb (bool_decide ((old.(Message.state), new.(Message.state))
                               ∈ message_state_transitions)) then None
  else
    let new := if message_terminal new.(Message.state)
               then Message.set_finalizedAt (stamp new.(Message.finalizedAt) now) new
               else new in
    Some (if bool_decide (new.(Message.state) = MessageState.submitted)
          then Message.set_submittedAt (stamp new.(Message.submittedAt) now) new
          else new).

Definition job_state_transitions : list (JobState.t * JobState.t) :=
  let pending := JobState.pending in let running := JobState.running in
  let succeeded := JobState.succeeded in let failed := JobState.failed in
  let dead := JobState.dead in let cancelled := JobState.cancelled in
  [ (pending, running); (pending, cancelled);
    (running, succeeded); (running, failed); (running, pending);
    (failed, pending); (failed, dead); (failed, cancelled);
    (dead, pending) ].

Definition job_finished (s : JobState.t) : bool :=
  match s with
  | JobState.succeeded | JobState.dead | JobState.cancelled => true
  | _ => false
  end.

Definition jobs_guard_transition (now : Z) (old new : Job.t) : option Job.t :=
  if bool_decide (new.(Job.state) = old.(Job.state)) then Some new
  else if negb (bool_decide ((old.(Job.state), new.(Job.state)) ∈ job_state_transitions))
  then None
  else
    let new := if bool_decide (new.(Job.state) = JobState.running)
               then Job.set_startedAt (stamp new.(Job.startedAt) now) new else new in
    Some (if job_finished new.(Job.state)
          then Job.set_finishedAt (stamp new.(Job.finishedAt) now) new else new).

Definition attempt_state_transitions : list (AttemptState.t * AttemptState.t) :=
  let pending := AttemptState.pending in let delivering := AttemptState.delivering in
  let succeeded := AttemptState.succeeded in let failed := AttemptState.failed in
  let dead := AttemptState.dead in
  [ (pending, delivering); (failed, delivering);
    (delivering, succeeded); (delivering, failed); (delivering, dead);
    (failed, pending); (dead, pending) ].

Definition attempts_guard_transition (now : Z) (old new : WebhookAttempt.t)
  : option WebhookAttempt.t :=
  if bool_decide (new.(WebhookAttempt.state) = old.(WebhookAttempt.state)) then Some new
  else if negb (bool_decide ((old.(WebhookAttempt.state), new.(WebhookAttempt.state))
                               ∈ attempt_state_transitions)) then None
  else Some (if bool_decide (new.(WebhookAttempt.state) = AttemptState.succeeded)
             then WebhookAttempt.set_deliveredAt (stamp new.(WebhookAttempt.deliveredAt) now) new
             else new).

End Guards.
