(* ===== verification/ApiSchema.v ===== *)
(** * The tables of the request path

    The rows of src/schemas/vsms.cstack that only the API reads and writes:
    apps and their clients, keys, sender names, opt-outs and consents, people
    and roles, nonces, audit anchors and the record of delivery lookups; and the trigger that guards the last
    (0015_delivery_lookups/up.sql). *)

From S2P Require Import Prelude Schema.

Module OperatorPrefixSource.

Inductive t := seed | manual | dlr_observed.

#[export] Instance OperatorPrefixSource_eq_dec : EqDecision t.
Proof. solve_decision. Defined.

End OperatorPrefixSource.

Module OperatorPrefixConfidence.

Inductive t := verified | likely | contested | unverified.

#[export] Instance OperatorPrefixConfidence_eq_dec : EqDecision t.
Proof. solve_decision. Defined.

End OperatorPrefixConfidence.

Module SenderIdRegistrationStatus.

Inductive t := pending | submitted | approved | rejected.

#[export] Instance SenderIdRegistrationStatus_eq_dec : EqDecision t.
Proof. solve_decision. Defined.

End SenderIdRegistrationStatus.

Module SenderIdKind.

Inductive t := alphanumeric | shortcode.

#[export] Instance SenderIdKind_eq_dec : EqDecision t.
Proof. solve_decision. Defined.

End SenderIdKind.

Module OptOutSource.

Inductive t := inbound_stop | admin | imported | operator.

#[export] Instance OptOutSource_eq_dec : EqDecision t.
Proof. solve_decision. Defined.

End OptOutSource.

Module ConsentChannel.

Inductive t := web_form | api | ivr | paper_form | verbal | sms_keyword | imported | admin.

#[export] Instance ConsentChannel_eq_dec : EqDecision t.
Proof. solve_decision. Defined.

End ConsentChannel.

Module ClientKeyAlg.

Inductive t := ed25519.

#[export] Instance ClientKeyAlg_eq_dec : EqDecision t.
Proof. solve_decision. Defined.

End ClientKeyAlg.

Module ConsoleKeyAlg.

Inductive t := esp256.

#[export] Instance ConsoleKeyAlg_eq_dec : EqDecision t.
Proof. solve_decision. Defined.

End ConsoleKeyAlg.

Module DeliveryLookupKey.

Inductive t := message_id | client_ref | msisdn.

#[export] Instance DeliveryLookupKey_eq_dec : EqDecision t.
Proof. solve_decision. Defined.

End DeliveryLookupKey.

Module DeliveryLookupOutcome.

Inductive t := pending | answered | over_budget.

#[export] Instance DeliveryLookupOutcome_eq_dec : EqDecision t.
Proof. solve_decision. Defined.

End DeliveryLookupOutcome.

#[export] Existing Instances OperatorPrefixSource.OperatorPrefixSource_eq_dec
OperatorPrefixConfidence.OperatorPrefixConfidence_eq_dec
SenderIdRegistrationStatus.SenderIdRegistrationStatus_eq_dec
SenderIdKind.SenderIdKind_eq_dec OptOutSource.OptOutSource_eq_dec
ConsentChannel.ConsentChannel_eq_dec ClientKeyAlg.ClientKeyAlg_eq_dec
ConsoleKeyAlg.ConsoleKeyAlg_eq_dec DeliveryLookupKey.DeliveryLookupKey_eq_dec
DeliveryLookupOutcome.DeliveryLookupOutcome_eq_dec.

(** An app that sends messages. *)
Module App.

Record t := mk {
  id : text;
  createdAt : Z;
  updatedAt : Z;
  name : text;
  slug : text;
  description : option text;
  defaultSenderIdId : option text;
  monthlyQuota : Z;
  ipAllowlist : text;
  transliterateToGsm7 : bool;
  active : bool;
  deletedAt : option Z;
  version : Z }.

End App.

(** A machine caller of an app. *)
Module AppClient.

Record t := mk {
  id : text;
  createdAt : Z;
  updatedAt : Z;
  appId : text;
  clientId : text;
  label : text;
  scopes : text;
  active : bool;
  lastUsedAt : option Z;
  retiredAt : option Z;
  version : Z }.

End AppClient.

(** A public key a machine caller signs with. *)
Module ClientKey.

Record t := mk {
  id : text;
  createdAt : Z;
  updatedAt : Z;
  appClientId : text;
  alg : ClientKeyAlg.t;
  publicKey : list Z;
  thumbprint : text;
  label : option text;
  revokedAt : option Z }.

Definition set_revokedAt (v : option Z) (x : t) : t :=
  mk (x.(id)) (x.(createdAt)) (x.(updatedAt)) (x.(appClientId)) (x.(alg)) (x.(publicKey))
  (x.(thumbprint)) (x.(label)) v.

Definition set_updatedAt (v : Z) (x : t) : t :=
  mk (x.(id)) (x.(createdAt)) v (x.(appClientId)) (x.(alg)) (x.(publicKey)) (x.(thumbprint))
  (x.(label)) (x.(revokedAt)).

(** One assignment of an update. *)
Inductive col :=
| SetRevokedAt (v : option Z).

Definition set_col (x : t) (c : col) : t :=
  match c with
  | SetRevokedAt v => set_revokedAt v x
  end.

Definition apply (p : list col) (x : t) : t := foldl set_col x p.

End ClientKey.

(** A public key a person's console signs with. *)
Module ConsoleKey.

Record t := mk {
  id : text;
  createdAt : Z;
  updatedAt : Z;
  userId : text;
  alg : ConsoleKeyAlg.t;
  publicKey : list Z;
  thumbprint : text;
  label : option text;
  pairedAt : Z;
  expiresAt : Z;
  revokedAt : option Z }.

Definition set_revokedAt (v : option Z) (x : t) : t :=
  mk (x.(id)) (x.(createdAt)) (x.(updatedAt)) (x.(userId)) (x.(alg)) (x.(publicKey))
  (x.(thumbprint)) (x.(label)) (x.(pairedAt)) (x.(expiresAt)) v.

Definition set_updatedAt (v : Z) (x : t) : t :=
  mk (x.(id)) (x.(createdAt)) v (x.(userId)) (x.(alg)) (x.(publicKey)) (x.(thumbprint))
  (x.(label)) (x.(pairedAt)) (x.(expiresAt)) (x.(revokedAt)).

(** One assignment of an update. *)
Inductive col :=
| SetRevokedAt (v : option Z).

Definition set_col (x : t) (c : col) : t :=
  match c with
  | SetRevokedAt v => set_revokedAt v x
  end.

Definition apply (p : list col) (x : t) : t := foldl set_col x p.

End ConsoleKey.

(** A sender name or short code. *)
Module SenderId.

Record t := mk {
  id : text;
  createdAt : Z;
  updatedAt : Z;
  value : text;
  kind : SenderIdKind.t;
  notes : option text;
  active : bool;
  version : Z }.

End SenderId.

(** A sender's registration with one provider. *)
Module SenderIdRegistration.

Record t := mk {
  id : text;
  createdAt : Z;
  updatedAt : Z;
  senderIdId : text;
  providerId : text;
  status : SenderIdRegistrationStatus.t;
  submittedAt : option Z;
  approvedAt : option Z;
  reference : option text;
  rejectionReason : option text;
  version : Z }.

End SenderIdRegistration.

(** A national prefix and the operator it points to. *)
Module OperatorPrefixRule.

Record t := mk {
  id : text;
  createdAt : Z;
  updatedAt : Z;
  prefix : text;
  operator : OperatorCode.t;
  source : OperatorPrefixSource.t;
  confidence : OperatorPrefixConfidence.t;
  lastObservedAt : option Z;
  notes : option text;
  active : bool;
  version : Z }.

End OperatorPrefixRule.

(** A recipient who asked for no more messages. *)
Module OptOut.

Record t := mk {
  id : text;
  createdAt : Z;
  updatedAt : Z;
  msisdnHash : text;
  msisdn : text;
  source : OptOutSource.t;
  scope : text;
  reason : option text;
  optedOutAt : Z }.

End OptOut.

(** A recipient's consent to one class of messages of one app. *)
Module ConsentRecord.

Record t := mk {
  id : text;
  createdAt : Z;
  updatedAt : Z;
  appId : text;
  msisdnHash : text;
  msisdn : text;
  scope : MessageClass.t;
  channel : ConsentChannel.t;
  consentedAt : Z;
  evidenceRef : option text }.

End ConsentRecord.

(** A person with a console account. *)
Module User.

Record t := mk {
  id : text;
  createdAt : Z;
  updatedAt : Z;
  subject : text;
  email : text;
  displayName : text;
  roleKey : text;
  active : bool;
  lastLoginAt : option Z;
  mfaEnrolled : bool;
  deletedAt : option Z;
  version : Z }.

Definition set_subject (v : text) (x : t) : t :=
  mk (x.(id)) (x.(createdAt)) (x.(updatedAt)) v (x.(email)) (x.(displayName)) (x.(roleKey))
  (x.(active)) (x.(lastLoginAt)) (x.(mfaEnrolled)) (x.(deletedAt)) (x.(version)).

Definition set_version (v : Z) (x : t) : t :=
  mk (x.(id)) (x.(createdAt)) (x.(updatedAt)) (x.(subject)) (x.(email)) (x.(displayName))
  (x.(roleKey)) (x.(active)) (x.(lastLoginAt)) (x.(mfaEnrolled)) (x.(deletedAt)) v.

Definition set_updatedAt (v : Z) (x : t) : t :=
  mk (x.(id)) (x.(createdAt)) v (x.(subject)) (x.(email)) (x.(displayName)) (x.(roleKey))
  (x.(active)) (x.(lastLoginAt)) (x.(mfaEnrolled)) (x.(deletedAt)) (x.(version)).

Definition set_lastLoginAt (v : option Z) (x : t) : t :=
  mk (x.(id)) (x.(createdAt)) (x.(updatedAt)) (x.(subject)) (x.(email)) (x.(displayName))
  (x.(roleKey)) (x.(active)) v (x.(mfaEnrolled)) (x.(deletedAt)) (x.(version)).

(** One assignment of an update. *)
Inductive col :=
| SetSubject (v : text)
| SetLastLoginAt (v : option Z).

Definition set_col (x : t) (c : col) : t :=
  match c with
  | SetSubject v => set_subject v x
  | SetLastLoginAt v => set_lastLoginAt v x
  end.

Definition apply (p : list col) (x : t) : t := foldl set_col x p.

End User.

(** The account an outside identity is linked to. *)
Module FederatedLink.

Record t := mk {
  id : text;
  createdAt : Z;
  updatedAt : Z;
  issuer : text;
  subject : text;
  userId : text }.

End FederatedLink.

(** The record of one delivery-status lookup. *)
Module DeliveryLookup.

Record t := mk {
  id : text;
  actorSub : text;
  actorKind : text;
  actorRole : text;
  actorAppId : option text;
  keyKind : DeliveryLookupKey.t;
  keyValue : text;
  appIdFilter : option text;
  outcome : DeliveryLookupOutcome.t;
  resultCount : option Z;
  createdAt : Z }.

Definition set_outcome (v : DeliveryLookupOutcome.t) (x : t) : t :=
  mk (x.(id)) (x.(actorSub)) (x.(actorKind)) (x.(actorRole)) (x.(actorAppId)) (x.(keyKind))
  (x.(keyValue)) (x.(appIdFilter)) v (x.(resultCount)) (x.(createdAt)).

Definition set_resultCount (v : option Z) (x : t) : t :=
  mk (x.(id)) (x.(actorSub)) (x.(actorKind)) (x.(actorRole)) (x.(actorAppId)) (x.(keyKind))
  (x.(keyValue)) (x.(appIdFilter)) (x.(outcome)) v (x.(createdAt)).

(** One assignment of an update. *)
Inductive col :=
| SetOutcome (v : DeliveryLookupOutcome.t)
| SetResultCount (v : option Z).

Definition set_col (x : t) (c : col) : t :=
  match c with
  | SetOutcome v => set_outcome v x
  | SetResultCount v => set_resultCount v x
  end.

Definition apply (p : list col) (x : t) : t := foldl set_col x p.

End DeliveryLookup.

Module ClientAuthMethod.

Inductive t := private_key_jwt | none.

#[export] Instance ClientAuthMethod_eq_dec : EqDecision t.
Proof. solve_decision. Defined.

End ClientAuthMethod.

#[export] Existing Instance ClientAuthMethod.ClientAuthMethod_eq_dec.

(** A client of the OpenID provider. *)
Module OauthClient.

Record t := mk {
  id : text;
  createdAt : Z;
  updatedAt : Z;
  clientId : text;
  appClientId : option text;
  tokenEndpointAuthMethod : ClientAuthMethod.t;
  jwks : option text;
  grantTypes : text;
  scopes : text;
  redirectUris : text;
  requirePkce : bool;
  active : bool }.

(** One assignment of an update. *)
Inductive col :=
| SetAppClientId (v : option text)
| SetTokenEndpointAuthMethod (v : ClientAuthMethod.t)
| SetJwks (v : option text)
| SetGrantTypes (v : text)
| SetScopes (v : text)
| SetRedirectUris (v : text)
| SetRequirePkce (v : bool)
| SetActive (v : bool).

Definition set_col (x : t) (c : col) : t :=
  let '(mk i cr up ci ac am jw gt sc ru rp act) := x in
  match c with
  | SetAppClientId v => mk i cr up ci v am jw gt sc ru rp act
  | SetTokenEndpointAuthMethod v => mk i cr up ci ac v jw gt sc ru rp act
  | SetJwks v => mk i cr up ci ac am v gt sc ru rp act
  | SetGrantTypes v => mk i cr up ci ac am jw v sc ru rp act
  | SetScopes v => mk i cr up ci ac am jw gt v ru rp act
  | SetRedirectUris v => mk i cr up ci ac am jw gt sc v rp act
  | SetRequirePkce v => mk i cr up ci ac am jw gt sc ru v act
  | SetActive v => mk i cr up ci ac am jw gt sc ru rp v
  end.

Definition apply (p : list col) (x : t) : t := foldl set_col x p.

Definition set_updatedAt (v : Z) (x : t) : t :=
  let '(mk i cr up ci ac am jw gt sc ru rp act) := x in mk i cr v ci ac am jw gt sc ru rp act.

Lemma set_col_id x c : id (set_col x c) = id x.
Proof. by destruct x, c. Qed.

Lemma set_updatedAt_id v x : id (set_updatedAt v x) = id x.
Proof. by destruct x. Qed.

End OauthClient.

(** A signing key of the token endpoint. *)
Module OauthSigningKey.

Record t := mk {
  id : text;
  createdAt : Z;
  updatedAt : Z;
  privateKeyPem : text;
  active : bool;
  expiresAt : option Z }.

(** One assignment of an update. *)
Inductive col :=
| SetActive (v : bool)
| SetExpiresAt (v : option Z).

Definition set_col (x : t) (c : col) : t :=
  match c with
  | SetActive v => mk x.(id) x.(createdAt) x.(updatedAt) x.(privateKeyPem) v x.(expiresAt)
  | SetExpiresAt v => mk x.(id) x.(createdAt) x.(updatedAt) x.(privateKeyPem) x.(active) v
  end.

Definition apply (p : list col) (x : t) : t := foldl set_col x p.

Definition set_updatedAt (v : Z) (x : t) : t :=
  mk x.(id) x.(createdAt) v x.(privateKeyPem) x.(active) x.(expiresAt).

Lemma set_key_col_id x c : id (set_col x c) = id x.
Proof. by destruct c. Qed.

End OauthSigningKey.

(** A client assertion that has been used. *)
Module ClientAssertion.

Record t := mk {
  id : text;
  createdAt : Z;
  updatedAt : Z;
  jti : text;
  expiresAt : Z }.

End ClientAssertion.

(** The password of a user, hashed. *)
Module UserCredential.

Record t := mk {
  id : text;
  createdAt : Z;
  updatedAt : Z;
  userId : text;
  passwordHash : text }.

(** One assignment of an update. *)
Inductive col :=
| SetPasswordHash (v : text).

Definition set_col (x : t) (c : col) : t :=
  match c with
  | SetPasswordHash v => mk x.(id) x.(createdAt) x.(updatedAt) x.(userId) v
  end.

Definition apply (p : list col) (x : t) : t := foldl set_col x p.

Definition set_updatedAt (v : Z) (x : t) : t :=
  mk x.(id) x.(createdAt) v x.(userId) x.(passwordHash).

Lemma set_credential_col_id x c : id (set_col x c) = id x.
Proof. by destruct c. Qed.

End UserCredential.

(** A sign-in under way at the identity provider. *)
Module SsoTransaction.

Record t := mk {
  id : text;
  stateHash : text;
  nonce : text;
  codeVerifier : text;
  consoleRequest : text;
  isRetry : bool;
  expiresAt : Z;
  createdAt : Z }.

End SsoTransaction.

(** A role and its permissions, packed in one column. *)
Module Role.

Record t := mk {
  id : text;
  createdAt : Z;
  updatedAt : Z;
  key : text;
  label : text;
  description : option text;
  builtin : bool;
  permissions : text;
  version : Z }.

End Role.

(** A nonce a signed request has used. *)
Module EnvelopeNonce.

Record t := mk {
  id : text;
  createdAt : Z;
  updatedAt : Z;
  nonce : text;
  expiresAt : Z }.

End EnvelopeNonce.

(** A handset check of a route. *)
Module RouteValidation.

Record t := mk {
  id : text;
  routeId : text;
  operator : OperatorCode.t;
  performedAt : Z;
  performedBy : text;
  expectedSenderId : text;
  observedSenderId : text;
  passed : bool;
  notes : option text }.

End RouteValidation.

(** One link of the audit chain. *)
Module AuditAnchor.

Record t := mk {
  id : text;
  periodStart : option Z;
  periodEnd : Z;
  rowCount : Z;
  rangeHash : text;
  prevChainHash : text;
  chainHash : text;
  createdAt : Z }.

End AuditAnchor.

(** ** What the signer directory caches (signers.rs) *)
Record AppStanding := mkAppStanding {
  as_client_id : text;
  as_app_id : text;
  as_scopes : text }.

Record UserStanding := mkUserStanding {
  us_user_id : text;
  us_role : text;
  us_perms : list text }.

#[export] Instance DeliveryLookup_eq_dec : EqDecision DeliveryLookup.t.
Proof. solve_decision. Defined.

Module LookupGuard.

(** [delivery_lookups_update_guard]: only a pending lookup is settled, once,
    and nothing but the outcome and the count changes. *)
Definition delivery_lookups_update_guard (old new : DeliveryLookup.t) : option DeliveryLookup.t :=
  if bool_decide (old.(DeliveryLookup.outcome) <> DeliveryLookupOutcome.pending) ||
     bool_decide (new.(DeliveryLookup.outcome) = DeliveryLookupOutcome.pending) then None
  else if bool_decide (DeliveryLookup.set_outcome old.(DeliveryLookup.outcome)
                         (DeliveryLookup.set_resultCount old.(DeliveryLookup.resultCount) new) = old)
  then Some new
  else None.

End LookupGuard.

(** ** The dashboard's answer, which is cached *)
Record HourlyBucket := mkBucket {
  hb_bucketStart : Z;
  hb_totalCount : Z;
  hb_ucs2Count : Z }.

Record OperatorDeliveryStats := mkStats {
  os_operator : OperatorCode.t;
  os_delivered : Z;
  os_terminalTotal : Z }.

Record DashboardSummary := mkDashboard {
  ds_generatedAt : Z;
  ds_appId : option text;
  ds_queueDepth : Z;
  ds_jobBacklog : Z;
  ds_outboxDepth : Z;
  ds_stuckMessages : Z;
  ds_operatorStats : list OperatorDeliveryStats;
  ds_hourlyBuckets : list HourlyBucket }.
