(* ===== verification/Errors.v ===== *)
(** * sms-api: mapping database errors (errors.rs)

    [CratestackError] belongs to the cratestack crate. What the modelled code
    uses of it is the class [CratestackErrors]: the constructors it builds,
    the view its [match]es take, and the two accessors. *)

From S2P Require Import Prelude.

(** The variants the code builds or matches on; every other one is [VOther]. *)
Inductive ErrorView :=
| VConflict (reason : text)
| VPreconditionFailed (reason : text)
| VForbidden (reason : text)
| VValidation (reason : text)
| VNotFound (reason : text)
| VUnauthorized (reason : text)
| VInternal (reason : text)
| VBadRequest (reason : text)
| VOther.

Class CratestackErrors := {
  CratestackError : Type;
  Conflict : text -> CratestackError;
  Validation : text -> CratestackError;
  Forbidden : text -> CratestackError;
  NotFound : text -> CratestackError;
  Unauthorized : text -> CratestackError;
  Internal : text -> CratestackError;
  BadRequest : text -> CratestackError;
  view : CratestackError -> ErrorView;
  db_sqlstate : CratestackError -> option text;
  db_constraint : CratestackError -> option text;
  error_to_string : CratestackError -> text }.

(** The constructors are the variants the view names, and none of them is an
    error of the database. *)
Class CratestackErrorsSound `{CratestackErrors} : Prop := {
  view_Conflict s : view (Conflict s) = VConflict s;
  view_Validation s : view (Validation s) = VValidation s;
  view_Forbidden s : view (Forbidden s) = VForbidden s;
  view_NotFound s : view (NotFound s) = VNotFound s;
  view_Unauthorized s : view (Unauthorized s) = VUnauthorized s;
  view_Internal s : view (Internal s) = VInternal s;
  view_BadRequest s : view (BadRequest s) = VBadRequest s;
  sqlstate_own e s :
    view e = VConflict s \/ view e = VValidation s \/ view e = VForbidden s \/
    view e = VNotFound s \/ view e = VUnauthorized s -> db_sqlstate e = None }.

#[export] Hint Rewrite @view_Conflict @view_Validation @view_Forbidden @view_NotFound
  @view_Unauthorized @view_Internal @view_BadRequest using assumption : vsms_simpl.

Definition SM001 : text := lit "SM001".
Definition UNIQUE_VIOLATION : text := lit "23505".
Definition CHECK_VIOLATION : text := lit "23514".

Definition WEBHOOK_ENDPOINT_RULES : list (text * text) :=
  [ (lit "webhook_endpoints_audience_not_vsms_check",
     lit "the audience cannot be vsms: that is the name the gateway's own routes answer to");
    (lit "webhook_endpoints_audience_only_for_sealed_check",
     lit "an hmac endpoint names no audience: leave it out (or clear it, when switching from sealed)");
    (lit "webhook_endpoints_audience_required_for_sealed_check",
     lit "a sealed endpoint needs an audience");
    (lit "webhook_endpoints_delivery_mode_hmac_needs_secret_check",
     lit "an hmac endpoint needs a secret");
    (lit "webhook_endpoints_delivery_mode_sealed_holds_no_secret_check",
     lit "a sealed endpoint holds no secret: secret, prevSecret and secretRotatedAt must be null");
    (lit "webhook_endpoints_url_sealable_for_sealed_check",
     lit "a sealed endpoint's URL must be http(s) with an ASCII host, no credentials, query or fragment, and no `{`, `}` or `%` in its path: a delivery binds the path as its route") ].

Definition webhook_endpoint_rule (constraint : text) : option text :=
  if negb (starts_with constraint (lit "webhook_endpoints_")) then None
  else
    let message :=
      match List.find (fun row => bool_decide (row.1 = constraint)) WEBHOOK_ENDPOINT_RULES with
      | Some (_, m) => m
      | None => lit "the endpoint breaks a rule the database holds"
      end in
    Some (message ++ lit " (" ++ constraint ++ lit ")").

(** [str::split_once]: around the first occurrence of [p]. *)
Fixpoint split_once (s p : text) : option (text * text) :=
  if starts_with s p then Some ([], drop (length p) s)
  else match s with
  | [] => None
  | c :: r => match split_once r p with
              | Some (a, b) => Some (c :: a, b)
              | None => None
              end
  end.

Section Mapping.

Context `{CratestackErrors}.

Definition is_illegal_transition (error : CratestackError) : bool :=
  bool_decide (db_sqlstate error = Some SM001).

Definition illegal_transition_message (error : CratestackError) : text :=
  let detail := error_to_string error in
  if str_contains detail (lit "illegal") then
    match split_once detail (lit "illegal") with
    | Some (_, rest) => lit "illegal" ++ rest
    | None => detail
    end
  else lit "illegal state transition".

Definition map_database_error (error : CratestackError) : CratestackError :=
  if bool_decide (db_sqlstate error = Some SM001) then
    Conflict (illegal_transition_message error)
  else if bool_decide (db_sqlstate error = Some UNIQUE_VIOLATION) then
    Conflict (match db_constraint error with
              | None => lit "resource already exists"
              | Some c => lit "resource already exists (" ++ c ++ lit ")"
              end)
  else if bool_decide (db_sqlstate error = Some CHECK_VIOLATION) then
    match db_constraint error ≫= webhook_endpoint_rule with
    | Some message => Validation message
    | None => error
    end
  else error.

Lemma split_once_contains s p :
  str_contains s p = true -> exists a b, split_once s p = Some (a, b) /\ s = a ++ p ++ b.
Proof.
  induction s as [|c s IH]; cbn [str_contains split_once];
    destruct (starts_with _ p) eqn:E; cbn [orb].
  - intros _. exists [], (drop (length p) []). split; [done|].
    apply starts_with_spec in E as [r E]. by destruct p.
  - done.
  - intros _. apply starts_with_spec in E as [r E]. exists [], r. rewrite E.
    split; [|done]. by rewrite drop_app_length.
  - intros (a & b & -> & ->)%IH. by exists (c :: a), b.
Qed.

Lemma split_once_Some s p a b : split_once s p = Some (a, b) -> s = a ++ p ++ b.
Proof.
  intros Hab. assert (str_contains s p = true) as E.
  { destruct (str_contains s p) eqn:E; [done|]. exfalso. revert a b Hab E.
    induction s as [|c s IH]; intros a b; cbn [split_once str_contains].
    - by destruct (starts_with [] p).
    - destruct (starts_with (c :: s) p); [done|]. cbn [orb].
      destruct (split_once s p) as [[a' b']|] eqn:Hs; [|done]. intros _ E. by eapply IH. }
  apply split_once_contains in E as (a' & b' & E & ->). congruence.
Qed.

Lemma illegal_transition_message_prefix e :
  exists rest, illegal_transition_message e = lit "illegal" ++ rest.
Proof.
  unfold illegal_transition_message. destruct (str_contains _ _) eqn:E.
  - destruct (split_once_contains _ _ E) as (a & b & -> & _). by exists b.
  - exists (lit " state transition"). reflexivity.
Qed.

Lemma map_database_error_view `{!CratestackErrorsSound} e v :
  view (map_database_error e) = v ->
  match v with
  | VPreconditionFailed _ | VForbidden _ =>
      map_database_error e = e /\ db_sqlstate e <> Some SM001
  | _ => True
  end.
Proof.
  unfold map_database_error.
  destruct (bool_decide_reflect (db_sqlstate e = Some SM001)) as [|Hne];
    [rewrite view_Conflict; by intros <-|].
  case_bool_decide; [rewrite view_Conflict; by intros <-|].
  case_bool_decide; [|by destruct v].
  destruct (_ ≫= _); [rewrite view_Validation; by intros <-|]. by destruct v.
Qed.

(** An illegal transition is never mistaken for a benign race: the mapped
    error is a [Conflict] whose text starts at the trigger's own "illegal"
    (the detail's suffix from there), and an error that still reads as
    [PreconditionFailed] or [Forbidden] after the mapping is the original
    error, unchanged, and was not SM001. *)
Theorem map_database_error_sound `{!CratestackErrorsSound} e :
  (is_illegal_transition e = true ->
     exists rest, view (map_database_error e) = VConflict (lit "illegal" ++ rest) /\
       (str_contains (error_to_string e) (lit "illegal") = true ->
        exists before, error_to_string e = before ++ lit "illegal" ++ rest)) /\
  (forall r, view (map_database_error e) = VPreconditionFailed r \/
             view (map_database_error e) = VForbidden r ->
     map_database_error e = e /\ is_illegal_transition e = false).
Proof.
  split.
  - intros Hi. unfold is_illegal_transition in Hi. unfold map_database_error. rewrite Hi.
    destruct (illegal_transition_message_prefix e) as [rest Hr].
    exists rest. rewrite view_Conflict, Hr. split; [done|]. intros Hc.
    revert Hr. unfold illegal_transition_message. rewrite Hc.
    destruct (split_once_contains _ _ Hc) as (a & b & -> & Hd).
    intros Hr%app_inv_head. subst b. by exists a.
  - intros r Hv. destruct Hv as [Hv|Hv];
      apply map_database_error_view in Hv as [? Hne]; (split; [done|]);
      by apply bool_decide_eq_false.
Qed.

End Mapping.

(** ** A concrete error type, for the examples *)
Inductive DemoError :=
| DConflict (s : text)
| DValidation (s : text)
| DPreconditionFailed (s : text)
| DForbidden (s : text)
| DNotFound (s : text)
| DUnauthorized (s : text)
| DInternal (s : text)
| DBadRequest (s : text)
| DDatabase (sqlstate detail : text).

Definition demo_errors : CratestackErrors := {|
  CratestackError := DemoError;
  Conflict := DConflict;
  Validation := DValidation;
  Forbidden := DForbidden;
  NotFound := DNotFound;
  Unauthorized := DUnauthorized;
  Internal := DInternal;
  BadRequest := DBadRequest;
  view e := match e with
            | DConflict s => VConflict s
            | DPreconditionFailed s => VPreconditionFailed s
            | DForbidden s => VForbidden s
            | DValidation s => VValidation s
            | DNotFound s => VNotFound s
            | DUnauthorized s => VUnauthorized s
            | DInternal s => VInternal s
            | DBadRequest s => VBadRequest s
            | DDatabase _ _ => VOther
            end;
  db_sqlstate e := match e with DDatabase s _ => Some s | _ => None end;
  db_constraint _ := None;
  error_to_string e := match e with
                       | DConflict s | DValidation s | DPreconditionFailed s | DForbidden s
                       | DNotFound s | DUnauthorized s | DInternal s | DBadRequest s => s
                       | DDatabase _ d => d
                       end |}.

Lemma demo_errors_sound : @CratestackErrorsSound demo_errors.
Proof.
  constructor; try done. intros [] ? Hv; cbn in *; try done. by destruct Hv as [|[|[|[]]]].
Qed.

Lemma map_database_error_sound_witness :
  exists rest, view (map_database_error (H := demo_errors)
    (DDatabase SM001 (lit "db: illegal message transition a -> b")))
      = VConflict (lit "illegal" ++ rest).
Proof.
  destruct (@map_database_error_sound demo_errors demo_errors_sound
    (DDatabase SM001 (lit "db: illegal message transition a -> b"))) as [Hi _].
  destruct (Hi eq_refl) as (rest & Hv & _). exists rest. exact Hv.
Defined.
