(* ===== verification/Sql.v ===== *)
(** * Raw statements

    A few places read or trim the framework's own bookkeeping tables (the
    audit log and the event outbox), which the schema does not declare, with
    statements written out in SQL.  A statement is a value of [sql], indexed by
    what its rows decode to; the tables it touches are outside the rows the
    schema's guards protect. *)

From S2P Require Import Prelude Float64.

#[local] Set Warnings "-register-all".

(** [serde_json::Value]; an object is its entries in iteration order (its keys
    are distinct). *)
Inductive Json :=
| JNull
| JBool (b : bool)
| JInt (n : Z)
| JFloat (x : f64)
| JString (s : text)
| JArray (items : list Json)
| JObject (entries : list (text * Json)).

(** audit_log.rs: one row of the audit table. *)
Record AuditRow := mkAuditRow {
  ar_event_id : list Z;
  ar_schema_name : text;
  ar_model : text;
  ar_operation : text;
  ar_primary_key : Json;
  ar_actor : Json;
  ar_tenant : option text;
  ar_before : option Json;
  ar_after : option Json;
  ar_request_id : option text;
  ar_occurred_at : Z }.

Record AuditLogFilter := mkAuditFilter {
  af_model : option text;
  af_operation : option text;
  af_actor_id : option text;
  af_since : option Z;
  af_until : option Z }.

(** reap_outbox.rs: an undelivered event that keeps failing. *)
Record PoisonRow := mkPoisonRow {
  po_event_id : text;
  po_model : text;
  po_operation : text;
  po_occurred_at : Z;
  po_attempts : Z;
  po_last_error : option text }.

(** worker_locks.rs: a granted advisory lock: its key, the backend that holds
    it, that backend's application name and when it started. *)
Record LockRow := mkLockRow {
  lr_objid : Z;
  lr_pid : Z;
  lr_application_name : text;
  lr_backend_start : option Z }.

(** [sqlx::Error]: the SQLSTATE of a database error, and its text. *)
Record SqlError := mkSqlError {
  se_code : option text;
  se_text : text }.

Definition is_undefined_table (error : SqlError) : bool :=
  bool_decide (se_code error = Some (lit "42P01")).

(** The statements, with their bound parameters. *)
Inductive sql : Type -> Type :=
| SelectAuditPeriod (period_start : option Z) (period_end : Z) : sql (list AuditRow)
| SelectAuditLog (filter : AuditLogFilter) (limit offset : Z) : sql (list AuditRow)
| SelectPoison (attempts limit : Z) : sql (list PoisonRow)
| DeleteDelivered (cutoff limit : Z) : sql Z
| SelectOldestUndelivered : sql (option f64)
| SelectLocks (namespace : Z) : sql (list LockRow).
