(* ===== verification/Db.v ===== *)
(** * Effects: the database, the clock and the outside world

    The asynchronous functions of the workers, of the delivery-receipt
    ingester and of the API's procedures are programs over the calls they
    await: reads, counts, conditional writes and transactions of the generated
    database client, the clock, random draws, the process's caches, a provider
    submission, a webhook POST.  A program is a value
    of the inductive type [prog]; an [unreachable!] or a failed [expect] is
    [Panic].

    The database itself (the cratestack client over Postgres) is a parameter:
    the class [Backend] states what one call may do to the stored rows.  A
    program runs interleaved with arbitrary other writers ([evolves]); the
    assertion [wp] is sound for every such run ([wp_sound]), and for a pool
    of programs running side by side ([pool_safe]). *)

From Stdlib Require Import Eqdep_dec.
From S2P Require Import Prelude Float64 Msisdn ProviderApi Schema ApiSchema Errors Sql.

(** ** Tables *)
Inductive tbl :=
| TMessage | TJob | TAttempt | TEndpoint | TProvider | TRoute | TReceipt
| TApp | TAppClient | TClientKey | TConsoleKey | TSenderId | TSenderReg | TPrefixRule
| TOptOut | TConsent | TUser | TFedLink | TLookup | TOauthClient | TRole | TNonce | TAnchor
| TValidation | TSigningKey | TAssertion | TCredential | TSsoTxn.

#[export] Instance tbl_eq_dec : EqDecision tbl.
Proof. solve_decision. Defined.

Definition row (t : tbl) : Type :=
  match t with
  | TMessage => Message.t
  | TJob => Job.t
  | TAttempt => WebhookAttempt.t
  | TEndpoint => WebhookEndpoint.t
  | TProvider => Provider.t
  | TRoute => Route.t
  | TReceipt => DeliveryReceipt.t
  | TApp => App.t
  | TAppClient => AppClient.t
  | TClientKey => ClientKey.t
  | TConsoleKey => ConsoleKey.t
  | TSenderId => SenderId.t
  | TSenderReg => SenderIdRegistration.t
  | TPrefixRule => OperatorPrefixRule.t
  | TOptOut => OptOut.t
  | TConsent => ConsentRecord.t
  | TUser => User.t
  | TFedLink => FederatedLink.t
  | TLookup => DeliveryLookup.t
  | TOauthClient => OauthClient.t
  | TRole => Role.t
  | TNonce => EnvelopeNonce.t
  | TAnchor => AuditAnchor.t
  | TValidation => RouteValidation.t
  | TSigningKey => OauthSigningKey.t
  | TAssertion => ClientAssertion.t
  | TCredential => UserCredential.t
  | TSsoTxn => SsoTransaction.t
  end.

(** The tables whose rows carry an optimistic [version]. *)
Definition versioned (t : tbl) : bool :=
  match t with
  | TReceipt | TClientKey | TConsoleKey | TOptOut | TConsent | TFedLink | TLookup
  | TOauthClient | TNonce | TAnchor | TValidation | TSigningKey | TAssertion | TCredential
  | TSsoTxn => false
  | _ => true
  end.

(** The assignments a version-conditioned update carries; empty where no
    modelled code updates the table that way. *)
Definition patch (t : tbl) : Type :=
  match t with
  | TMessage => list Message.col
  | TJob => list Job.col
  | TAttempt => list WebhookAttempt.col
  | TEndpoint => list WebhookEndpoint.col
  | TProvider => list Provider.col
  | TUser => list User.col
  | _ => Empty_set
  end.

(** The assignments of an update of a table without versions. *)
Definition overwrite (t : tbl) : Type :=
  match t with
  | TClientKey => list ClientKey.col
  | TConsoleKey => list ConsoleKey.col
  | TLookup => list DeliveryLookup.col
  | TOauthClient => list OauthClient.col
  | TSigningKey => list OauthSigningKey.col
  | TCredential => list UserCredential.col
  | _ => Empty_set
  end.

Definition row_id (t : tbl) : row t -> text :=
  match t with
  | TMessage => Message.id
  | TJob => Job.id
  | TAttempt => WebhookAttempt.id
  | TEndpoint => WebhookEndpoint.id
  | TProvider => Provider.id
  | TRoute => Route.id
  | TReceipt => DeliveryReceipt.id
  | TApp => App.id
  | TAppClient => AppClient.id
  | TClientKey => ClientKey.id
  | TConsoleKey => ConsoleKey.id
  | TSenderId => SenderId.id
  | TSenderReg => SenderIdRegistration.id
  | TPrefixRule => OperatorPrefixRule.id
  | TOptOut => OptOut.id
  | TConsent => ConsentRecord.id
  | TUser => User.id
  | TFedLink => FederatedLink.id
  | TLookup => DeliveryLookup.id
  | TOauthClient => OauthClient.id
  | TRole => Role.id
  | TNonce => EnvelopeNonce.id
  | TAnchor => AuditAnchor.id
  | TValidation => RouteValidation.id
  | TSigningKey => OauthSigningKey.id
  | TAssertion => ClientAssertion.id
  | TCredential => UserCredential.id
  | TSsoTxn => SsoTransaction.id
  end.

Definition row_version (t : tbl) : row t -> Z :=
  match t with
  | TMessage => Message.version
  | TJob => Job.version
  | TAttempt => WebhookAttempt.version
  | TEndpoint => WebhookEndpoint.version
  | TProvider => Provider.version
  | TRoute => Route.version
  | TApp => App.version
  | TAppClient => AppClient.version
  | TSenderId => SenderId.version
  | TSenderReg => SenderIdRegistration.version
  | TPrefixRule => OperatorPrefixRule.version
  | TUser => User.version
  | TRole => Role.version
  | TReceipt | TClientKey | TConsoleKey | TOptOut | TConsent | TFedLink | TLookup
  | TOauthClient | TNonce | TAnchor | TValidation | TSigningKey | TAssertion | TCredential
  | TSsoTxn => fun _ => 0
  end.

(** What an accepted update stores: the assignments, then the table's
    triggers in name order (the guard, whose [None] is SM001, and the
    [updated_at] stamp), and the next version. *)
Definition commit (t : tbl) (now clock : Z) : patch t -> row t -> option (row t) :=
  match t with
  | TMessage => fun p old =>
      (fun r => Message.set_version (old.(Message.version) + 1) (Message.set_updatedAt clock r))
        <$> Guards.messages_guard_transition now old (Message.apply p old)
  | TJob => fun p old =>
      (fun r => Job.set_version (old.(Job.version) + 1) (Job.set_updatedAt clock r))
        <$> Guards.jobs_guard_transition now old (Job.apply p old)
  | TAttempt => fun p old =>
      (fun r => WebhookAttempt.set_version (old.(WebhookAttempt.version) + 1) r)
        <$> Guards.attempts_guard_transition now old (WebhookAttempt.apply p old)
  | TEndpoint => fun p old =>
      Some (WebhookEndpoint.set_version (old.(WebhookEndpoint.version) + 1)
              (WebhookEndpoint.set_updatedAt clock (WebhookEndpoint.apply p old)))
  | TProvider => fun p old =>
      Some (Provider.set_version (old.(Provider.version) + 1)
              (Provider.set_updatedAt clock (Provider.apply p old)))
  | TUser => fun p old =>
      Some (User.set_version (old.(User.version) + 1)
              (User.set_updatedAt clock (User.apply p old)))
  | TRoute | TReceipt | TApp | TAppClient | TClientKey | TConsoleKey | TSenderId | TSenderReg
  | TPrefixRule | TOptOut | TConsent | TFedLink | TLookup | TOauthClient | TRole | TNonce
  | TAnchor | TValidation | TSigningKey | TAssertion | TCredential | TSsoTxn =>
      fun p _ => match p : Empty_set with end
  end.

(** What an update of a table without versions stores; [None] is the guard of
    the lookup table refusing (SM001). *)
Definition commit_overwrite (t : tbl) (clock : Z) : overwrite t -> row t -> option (row t) :=
  match t with
  | TClientKey => fun p old => Some (ClientKey.set_updatedAt clock (ClientKey.apply p old))
  | TConsoleKey => fun p old => Some (ConsoleKey.set_updatedAt clock (ConsoleKey.apply p old))
  | TLookup => fun p old =>
      LookupGuard.delivery_lookups_update_guard old (DeliveryLookup.apply p old)
  | TOauthClient => fun p old => Some (OauthClient.set_updatedAt clock (OauthClient.apply p old))
  | TSigningKey => fun p old =>
      Some (OauthSigningKey.set_updatedAt clock (OauthSigningKey.apply p old))
  | TCredential => fun p old =>
      Some (UserCredential.set_updatedAt clock (UserCredential.apply p old))
  | TMessage | TJob | TAttempt | TEndpoint | TProvider | TRoute | TReceipt | TApp | TAppClient
  | TSenderId | TSenderReg | TPrefixRule | TOptOut | TConsent | TUser | TFedLink
  | TRole | TNonce | TAnchor | TValidation | TAssertion | TSsoTxn =>
      fun p _ => match p : Empty_set with end
  end.

Record CreateJobInput := mkCreateJob {
  cj_kind : text;
  cj_dedupeKey : option text;
  cj_payload : text;
  cj_priority : Z;
  cj_runAt : Z;
  cj_maxAttempts : Z }.

Record CreateDeliveryReceiptInput := mkCreateReceipt {
  cr_messageId : text;
  cr_providerId : text;
  cr_providerMessageRef : text;
  cr_outcome : DeliveryOutcomeCode.t;
  cr_rawStatus : text;
  cr_errorCode : option text;
  cr_networkCode : OperatorCode.t;
  cr_occurredAt : option Z;
  cr_rawPayload : text }.

Record CreateMessageInput := mkCreateMessage {
  cm_appId : text;
  cm_clientRef : option text;
  cm_idempotencyKey : option text;
  cm_msisdn : text;
  cm_msisdnHash : text;
  cm_operator : OperatorCode.t;
  cm_senderIdValue : text;
  cm_class : MessageClass.t;
  cm_priority : Z;
  cm_body : option text;
  cm_bodyHash : text;
  cm_bodyLength : Z;
  cm_encoding : EncodingCode.t;
  cm_segments : Z;
  cm_maxAttempts : Z;
  cm_scheduledAt : option Z;
  cm_expiresAt : Z }.

Record CreateAppClientInput := mkCreateAppClient {
  ca_appId : text;
  ca_clientId : text;
  ca_label : text;
  ca_scopes : text;
  ca_lastUsedAt : option Z;
  ca_retiredAt : option Z }.

Record CreateClientKeyInput := mkCreateClientKey {
  ck_appClientId : text;
  ck_alg : ClientKeyAlg.t;
  ck_publicKey : list Z;
  ck_thumbprint : text;
  ck_label : option text;
  ck_revokedAt : option Z }.

Record CreateConsoleKeyInput := mkCreateConsoleKey {
  cc_userId : text;
  cc_alg : ConsoleKeyAlg.t;
  cc_publicKey : list Z;
  cc_thumbprint : text;
  cc_label : option text;
  cc_pairedAt : Z;
  cc_expiresAt : Z;
  cc_revokedAt : option Z }.

Record CreateOptOutInput := mkCreateOptOut {
  co_msisdnHash : text;
  co_msisdn : text;
  co_source : OptOutSource.t;
  co_scope : text;
  co_reason : option text;
  co_optedOutAt : Z }.

Record CreateUserInput := mkCreateUser {
  cu_subject : text;
  cu_email : text;
  cu_displayName : text;
  cu_roleKey : text;
  cu_lastLoginAt : option Z;
  cu_deletedAt : option Z }.

Record CreateFederatedLinkInput := mkCreateLink {
  cf_issuer : text;
  cf_subject : text;
  cf_userId : text }.

Record CreateDeliveryLookupInput := mkCreateLookup {
  cl_actorSub : text;
  cl_actorKind : text;
  cl_actorRole : text;
  cl_actorAppId : option text;
  cl_keyKind : DeliveryLookupKey.t;
  cl_keyValue : text;
  cl_appIdFilter : option text;
  cl_outcome : DeliveryLookupOutcome.t;
  cl_resultCount : option Z }.

Record CreateWebhookAttemptInput := mkCreateAttempt {
  cw_endpointId : text;
  cw_sourceEventId : text;
  cw_aggregateId : text;
  cw_eventType : text;
  cw_payload : text;
  cw_nextAttemptAt : option Z }.

Record CreateEnvelopeNonceInput := mkCreateNonce {
  cn_nonce : text;
  cn_expiresAt : Z }.

Record CreateAuditAnchorInput := mkCreateAnchor {
  ch_periodStart : option Z;
  ch_periodEnd : Z;
  ch_rowCount : Z;
  ch_rangeHash : text;
  ch_prevChainHash : text;
  ch_chainHash : text }.

Record CreateOauthClientInput := mkCreateOauthClient {
  cq_clientId : text;
  cq_appClientId : option text;
  cq_tokenEndpointAuthMethod : ClientAuthMethod.t;
  cq_jwks : option text;
  cq_grantTypes : text;
  cq_scopes : text;
  cq_redirectUris : text;
  cq_requirePkce : bool }.

Record CreateOauthSigningKeyInput := mkCreateSigningKey {
  cg_privateKeyPem : text;
  cg_expiresAt : option Z }.

Record CreateClientAssertionInput := mkCreateAssertion {
  ct_jti : text;
  ct_expiresAt : Z }.

Record CreateUserCredentialInput := mkCreateCredential {
  cd_userId : text;
  cd_passwordHash : text }.

Record CreateSsoTransactionInput := mkCreateSsoTxn {
  cs_stateHash : text;
  cs_nonce : text;
  cs_codeVerifier : text;
  cs_consoleRequest : text;
  cs_isRetry : bool;
  cs_expiresAt : Z }.

Definition create_input (t : tbl) : Type :=
  match t with
  | TMessage => CreateMessageInput
  | TJob => CreateJobInput
  | TReceipt => CreateDeliveryReceiptInput
  | TAppClient => CreateAppClientInput
  | TClientKey => CreateClientKeyInput
  | TConsoleKey => CreateConsoleKeyInput
  | TOptOut => CreateOptOutInput
  | TUser => CreateUserInput
  | TFedLink => CreateFederatedLinkInput
  | TLookup => CreateDeliveryLookupInput
  | TAttempt => CreateWebhookAttemptInput
  | TNonce => CreateEnvelopeNonceInput
  | TAnchor => CreateAuditAnchorInput
  | TOauthClient => CreateOauthClientInput
  | TSigningKey => CreateOauthSigningKeyInput
  | TAssertion => CreateClientAssertionInput
  | TCredential => CreateUserCredentialInput
  | TSsoTxn => CreateSsoTransactionInput
  | TEndpoint | TProvider | TRoute | TApp | TSenderId | TSenderReg | TPrefixRule | TConsent
  | TRole | TValidation => Empty_set
  end.

(** The row an insert stores: the given columns, the schema's defaults, a
    generated id. The columns of a created job, message or attempt that the input
    does not name are null (the code passes [None] for them). *)
Definition created (t : tbl) (id : text) (now : Z) : create_input t -> row t :=
  match t with
  | TJob => fun c =>
      Job.mk id now now (cj_kind c) (cj_dedupeKey c) (cj_payload c) JobState.pending
        (cj_priority c) (cj_runAt c) None None 0 (cj_maxAttempts c) None None None 0
  | TReceipt => fun c =>
      DeliveryReceipt.mk id (cr_messageId c) (cr_providerId c) (cr_providerMessageRef c)
        (cr_outcome c) (cr_rawStatus c) (cr_errorCode c) (cr_networkCode c) now
        (cr_occurredAt c) (cr_rawPayload c)
  | TMessage => fun c =>
      Message.mk id now now (cm_appId c) (cm_clientRef c) (cm_idempotencyKey c) (cm_msisdn c)
        (cm_msisdnHash c) (cm_operator c) (cm_senderIdValue c) (cm_class c) (cm_priority c)
        (cm_body c) (cm_bodyHash c) (cm_bodyLength c) (cm_encoding c) (cm_segments c)
        MessageState.accepted None None None None None None 0 (cm_maxAttempts c) None None
        (cm_scheduledAt c) (cm_expiresAt c) None None None (0, 0) 0
  | TAppClient => fun c =>
      AppClient.mk id now now (ca_appId c) (ca_clientId c) (ca_label c) (ca_scopes c) true
        (ca_lastUsedAt c) (ca_retiredAt c) 0
  | TClientKey => fun c =>
      ClientKey.mk id now now (ck_appClientId c) (ck_alg c) (ck_publicKey c) (ck_thumbprint c)
        (ck_label c) (ck_revokedAt c)
  | TConsoleKey => fun c =>
      ConsoleKey.mk id now now (cc_userId c) (cc_alg c) (cc_publicKey c) (cc_thumbprint c)
        (cc_label c) (cc_pairedAt c) (cc_expiresAt c) (cc_revokedAt c)
  | TOptOut => fun c =>
      OptOut.mk id now now (co_msisdnHash c) (co_msisdn c) (co_source c) (co_scope c)
        (co_reason c) (co_optedOutAt c)
  | TUser => fun c =>
      User.mk id now now (cu_subject c) (cu_email c) (cu_displayName c) (cu_roleKey c) true
        (cu_lastLoginAt c) false (cu_deletedAt c) 0
  | TFedLink => fun c => FederatedLink.mk id now now (cf_issuer c) (cf_subject c) (cf_userId c)
  | TLookup => fun c =>
      DeliveryLookup.mk id (cl_actorSub c) (cl_actorKind c) (cl_actorRole c) (cl_actorAppId c)
        (cl_keyKind c) (cl_keyValue c) (cl_appIdFilter c) (cl_outcome c) (cl_resultCount c) now
  | TAttempt => fun c =>
      WebhookAttempt.mk id (cw_endpointId c) (cw_sourceEventId c) (cw_aggregateId c)
        (cw_eventType c) (cw_payload c) AttemptState.pending 0 None None (cw_nextAttemptAt c)
        None None None None 0
  | TNonce => fun c => EnvelopeNonce.mk id now now (cn_nonce c) (cn_expiresAt c)
  | TAnchor => fun c =>
      AuditAnchor.mk id (ch_periodStart c) (ch_periodEnd c) (ch_rowCount c) (ch_rangeHash c)
        (ch_prevChainHash c) (ch_chainHash c) now
  | TOauthClient => fun c =>
      OauthClient.mk id now now (cq_clientId c) (cq_appClientId c) (cq_tokenEndpointAuthMethod c)
        (cq_jwks c) (cq_grantTypes c) (cq_scopes c) (cq_redirectUris c) (cq_requirePkce c) true
  | TSigningKey => fun c =>
      OauthSigningKey.mk id now now (cg_privateKeyPem c) true (cg_expiresAt c)
  | TAssertion => fun c => ClientAssertion.mk id now now (ct_jti c) (ct_expiresAt c)
  | TCredential => fun c => UserCredential.mk id now now (cd_userId c) (cd_passwordHash c)
  | TSsoTxn => fun c =>
      SsoTransaction.mk id (cs_stateHash c) (cs_nonce c) (cs_codeVerifier c) (cs_consoleRequest c)
        (cs_isRetry c) (cs_expiresAt c) now
  | TEndpoint | TProvider | TRoute | TApp | TSenderId | TSenderReg | TPrefixRule | TConsent
  | TRole | TValidation =>
      fun c => match c : Empty_set with end
  end.

(** ** Queries

    A [FilterExpr] is the predicate it denotes: a comparison with a null
    column selects nothing, as in SQL. *)
Definition col_lt (c : option Z) (v : Z) : bool :=
  match c with Some x => x <? v | None => false end.

Definition col_lte (c : option Z) (v : Z) : bool :=
  match c with Some x => x <=? v | None => false end.

Definition col_eq (c : option text) (v : text) : bool := bool_decide (c = Some v).

Definition is_null {A} (c : option A) : bool :=
  match c with Some _ => false | None => true end.

Inductive order_key := KInt (v : option Z) | KText (v : text) | KDecimal (v : Decimal).
Inductive order (t : tbl) := Asc (k : row t -> order_key) | Desc (k : row t -> order_key).
Arguments Asc {t} k.
Arguments Desc {t} k.

Record query (t : tbl) := mkQuery {
  q_where : row t -> bool;
  q_order : list (order t);
  q_limit : option Z }.
Arguments mkQuery {t} _ _ _.
Arguments q_where {t} _ _.
Arguments q_order {t} _.
Arguments q_limit {t} _.

(** ** Calls and programs *)
Record HttpRequest := mkHttpRequest {
  rq_follow_redirects : bool;
  rq_url : text;
  rq_headers : list (text * text);
  rq_body : list Z }.

Record SealedDelivery := mkSealed {
  sd_headers : list (text * text);
  sd_body : list Z }.

(** The caches of the API process, each with its keys and values. *)
Inductive cache := AppCache | OperatorCache | DashboardCache | AppStandings | UserStandings.

Definition cache_key (c : cache) : Type :=
  match c with OperatorCache => unit | _ => text end.

Definition cache_val (c : cache) : Type :=
  match c with
  | AppCache => App.t
  | OperatorCache => OperatorPrefixTable
  | DashboardCache => DashboardSummary
  | AppStandings => AppStanding
  | UserStandings => UserStanding
  end.

Section Programs.

Context `{E : CratestackErrors}.

(** What the body of a transaction may await ([run_in_tx]). *)
Inductive tcall : Type -> Type :=
| TNow : tcall Z
| TUuid : tcall text
| TRandomBytes (n : nat) : tcall (list Z)
| TFind (t : tbl) (q : query t) : tcall (result (list (row t)) CratestackError)
| TUpdate (t : tbl) (id : text) (p : patch t) (if_match : Z)
    : tcall (result (row t) CratestackError)
| TOverwrite (t : tbl) (id : text) (p : overwrite t) : tcall (result (row t) CratestackError)
| TCreate (t : tbl) (c : create_input t) : tcall (result (row t) CratestackError).

Inductive txn (A : Type) : Type :=
| TRet (a : A)
| TCall {R : Type} (c : tcall R) (k : R -> txn A).

Inductive call : Type -> Type :=
| Now : call Z
| Random : call f64
| FindMany (t : tbl) (q : query t) : call (result (list (row t)) CratestackError)
| FindPage (t : tbl) (q : query t) (offset : Z) : call (result (list (row t)) CratestackError)
| Update (t : tbl) (id : text) (p : patch t) (if_match : Z) : call (result (row t) CratestackError)
| Create (t : tbl) (c : create_input t) : call (result (row t) CratestackError)
| Delete (t : tbl) (id : text) : call (result (row t) CratestackError)
| Count (t : tbl) (f : row t -> bool) : call (result Z CratestackError)
| Overwrite (t : tbl) (id : text) (p : overwrite t) : call (result (row t) CratestackError)
| Tx {A : Type} (body : txn (result A CratestackError)) : call (result A CratestackError)
| CacheGet (c : cache) (k : cache_key c) : call (option (cache_val c))
| CachePut (c : cache) (k : cache_key c) (v : cache_val c) : call unit
| NewUuid : call text
| RandomBytes (n : nat) : call (list Z)
| Submit (key : text) (req : SubmitRequest) : call (result SubmitAck ProviderError)
| Seal (audience route : text) (body : list Z) : call (result SealedDelivery text)
| Post (req : HttpRequest) : call (result Z text)
| Raw {R : Type} (statement : sql R) : call (result R SqlError).

Inductive prog (A : Type) : Type :=
| Ret (a : A)
| Panic
| Call {R : Type} (c : call R) (k : R -> prog A).

End Programs.

Arguments TRet {E A} a.
Arguments TCall {E A R} c k.
Arguments Ret {E A} a.
Arguments Panic {E A}.
Arguments Call {E A R} c k.

Fixpoint pbind `{E : CratestackErrors} {A B} (p : prog A) (f : A -> prog B) : prog B :=
  match p with
  | Ret a => f a
  | Panic => Panic
  | Call c k => Call c (fun r => pbind (k r) f)
  end.

(** A library call that panics on [None]. *)
Definition or_panic `{E : CratestackErrors} {A B} (o : option A) (k : A -> prog B) : prog B :=
  match o with Some a => k a | None => Panic end.

(** A statement of a transaction is the call it makes on its connection. *)
Definition of_tcall `{E : CratestackErrors} {R} (c : tcall R) : call R :=
  match c with
  | TNow => Now
  | TUuid => NewUuid
  | TRandomBytes n => RandomBytes n
  | TFind t q => FindMany t q
  | TUpdate t id p v => Update t id p v
  | TOverwrite t id p => Overwrite t id p
  | TCreate t c => Create t c
  end.

Fixpoint tbind `{E : CratestackErrors} {A B} (p : txn A) (f : A -> txn B) : txn B :=
  match p with
  | TRet a => f a
  | TCall c k => TCall c (fun r => tbind (k r) f)
  end.

Definition tdo `{E : CratestackErrors} {R} (c : tcall R) : txn R := TCall c TRet.

Definition tbind_ok `{E : CratestackErrors} {A B X} (p : txn (result A X))
  (f : A -> txn (result B X)) : txn (result B X) :=
  tbind p (fun r => match r with Ok a => f a | Err e => TRet (Err e) end).

Declare Scope prog_scope.
Delimit Scope prog_scope with prog.
#[global] Open Scope prog_scope.

Definition do `{E : CratestackErrors} {R} (c : call R) : prog R := Call c Ret.

Notation "'let!' x ':=' p 'in' k" := (pbind p (fun x => k))
  (at level 10, x pattern, p at level 100, k at level 200) : prog_scope.

(** The [?] operator: an [Err] leaves the function. *)
Definition pbind_ok `{E : CratestackErrors} {A B X} (p : prog (result A X))
  (f : A -> prog (result B X)) : prog (result B X) :=
  pbind p (fun r => match r with Ok a => f a | Err e => Ret (Err e) end).

Notation "'let!?' x ':=' p 'in' k" := (pbind_ok p (fun x => k))
  (at level 10, x pattern, p at level 100, k at level 200) : prog_scope.

Notation "'lett' x ':=' p 'in' k" := (tbind p (fun x => k))
  (at level 10, x pattern, p at level 100, k at level 200) : prog_scope.

Notation "'lett?' x ':=' p 'in' k" := (tbind_ok p (fun x => k))
  (at level 10, x pattern, p at level 100, k at level 200) : prog_scope.

(** A pure fallible step inside a program. *)
Definition lift `{E : CratestackErrors} {A X} (r : result A X) : prog (result A X) := Ret r.

Definition tlift `{E : CratestackErrors} {A X} (r : result A X) : txn (result A X) := TRet r.

(** [.map_err(f)] on an awaited result. *)
Definition pmap_err `{E : CratestackErrors} {A X Y} (f : X -> Y) (p : prog (result A X))
  : prog (result A Y) :=
  pbind p (fun r => Ret (map_err f r)).

(** A [for] loop whose body returns nothing. *)
Fixpoint for_each `{E : CratestackErrors} {X} (body : X -> prog unit) (l : list X) : prog unit :=
  match l with
  | [] => Ret tt
  | x :: r => let! _ := body x in for_each body r
  end.
