(* ===== verification/DbLogic.v ===== *)
(** * Reasoning about programs that share a database

    What a call may do to the stored rows ([Backend]), how programs run
    interleaved with other writers ([step], [pool_step]), and the weakest
    precondition [wp] with its soundness. *)

From Stdlib Require Import Eqdep_dec.
From S2P Require Import Prelude Float64 SealableUrl ProviderApi Schema ApiSchema Errors Sql Db.

(** ** Stored rows, and the caches of the API process *)
Record world := mkWorld {
  w_tables : forall t, gmap text (row t);
  w_used : tbl -> gset text;
  w_cache : forall c, cache_key c -> option (cache_val c) }.

(** The roles no signed-in person may hold (auth.rs, [RESERVED_ROLE_KEYS]). *)
Definition RESERVED_ROLE_KEYS : list text := [lit "system"; lit "app"].

(** What the caches are filled with: an app that was active, a person's
    standing under their own id and never under a reserved role. *)
Definition cache_wf (c : cache) : cache_key c -> cache_val c -> Prop :=
  match c with
  | AppCache => fun _ a => a.(App.active) = true
  | UserStandings => fun k v => us_user_id v = k /\ us_role v ∉ RESERVED_ROLE_KEYS
  | _ => fun _ _ => True
  end.

(** Every row is stored under its own id, among the ids ever handed out, and
    the caches hold what belongs there. *)
Definition rows_ok (w : world) : Prop :=
  forall t id r, w_tables w t !! id = Some r -> row_id t r = id /\ id ∈ w_used w t.

Definition caches_ok (w : world) : Prop :=
  forall c k v, w_cache w c k = Some v -> cache_wf c k v.

Definition world_ok (w : world) : Prop := rows_ok w /\ caches_ok w.

(** [w'] is [w] with row [r] of table [t] stored. *)
Record written (w : world) (t : tbl) (r : row t) (w' : world) : Prop := {
  written_row : w_tables w' t = <[row_id t r := r]> (w_tables w t);
  written_frame t' : t' <> t -> w_tables w' t' = w_tables w t';
  written_cache : w_cache w' = w_cache w }.

(** The state a table's guard watches, and the moves it allows. *)
Definition legal_move (t : tbl) : row t -> row t -> Prop :=
  match t with
  | TMessage => fun a b =>
      rtc (fun x y => (x, y) ∈ Guards.message_state_transitions)
        a.(Message.state) b.(Message.state)
  | TJob => fun a b =>
      rtc (fun x y => (x, y) ∈ Guards.job_state_transitions) a.(Job.state) b.(Job.state)
  | TAttempt => fun a b =>
      rtc (fun x y => (x, y) ∈ Guards.attempt_state_transitions)
        a.(WebhookAttempt.state) b.(WebhookAttempt.state)
  | TLookup => fun a b => b = a \/ is_Some (LookupGuard.delivery_lookups_update_guard a b)
  | _ => fun _ _ => True
  end.

(** One row, later: untouched, or reached by legal moves, at a later version
    where the table has versions. *)
Definition row_later (t : tbl) (a b : row t) : Prop :=
  b = a \/ ((versioned t = true -> row_version t a < row_version t b) /\ legal_move t a b).

(** What any sequence of writers can do: rows move forward, rows disappear,
    new rows get new ids. *)
Definition evolves (w w' : world) : Prop :=
  forall t, w_used w t ⊆ w_used w' t /\
    forall id b, w_tables w' t !! id = Some b ->
      id ∉ w_used w t \/ exists a, w_tables w t !! id = Some a /\ row_later t a b.

(** A [Cuid] is not empty and has no white space; the columns of that type
    the modelled code relies on for it. *)
Definition cuid_ok (s : text) : bool :=
  negb (bool_decide (s = [])) && forallb (fun c => negb (is_whitespace c)) s.

(** The CHECK constraints that tie an endpoint's mode to its audience, its
    secrets and its URL (0010_sealed_webhooks/up.sql). *)
Definition endpoint_checks (e : WebhookEndpoint.t) : bool :=
  match e.(WebhookEndpoint.deliveryMode) with
  | WebhookDeliveryMode.hmac =>
      is_null e.(WebhookEndpoint.audience) && negb (is_null e.(WebhookEndpoint.secret))
  | WebhookDeliveryMode.sealed =>
      match e.(WebhookEndpoint.audience) with
      | Some a => negb (bool_decide (a = lit "vsms")) && (1 <=? length a)%nat && (length a <=? 255)%nat
      | None => false
      end && url_can_be_sealed e.(WebhookEndpoint.url) &&
      is_null e.(WebhookEndpoint.secret) && is_null e.(WebhookEndpoint.prevSecret) &&
      is_null e.(WebhookEndpoint.secretRotatedAt)
  end.

(** The clock reads a time between 1970 and the year 10000. *)
Definition CLOCK_END : Z := 253402300800000000.

(** A price per segment is far below what 96 bits hold. *)
Definition price_ok (d : Decimal) : bool := Z.abs d.1 <? 2 ^ 80.

Definition row_wf (t : tbl) : row t -> bool :=
  match t with
  | TProvider => fun p => price_ok p.(Provider.costPerSegmentXaf)
  | TMessage => fun m => match m.(Message.routeId) with Some r => cuid_ok r | None => true end
  | TEndpoint => endpoint_checks
  | _ => fun _ => true
  end.

(** ** UNIQUE indexes

    Whether two rows cannot both be stored, for the tables whose indexes the
    modelled code relies on. *)
Definition indexed (t : tbl) : bool :=
  match t with
  | TMessage | TJob | TAttempt | TClientKey | TConsoleKey | TOptOut | TFedLink | TNonce
  | TAnchor | TUser | TOauthClient | TAssertion | TCredential | TSsoTxn => true
  | _ => false
  end.

(** [messages_app_idem_key], [jobs_dedupe_idx], [webhook_attempts_dedupe], and
    the columns declared [@unique]. *)
Definition same_key {A} (a b : option A) `{EqDecision A} : bool :=
  match a, b with Some x, Some y => bool_decide (x = y) | _, _ => false end.

Definition conflicts (t : tbl) : row t -> row t -> bool :=
  match t with
  | TMessage => fun a b =>
      bool_decide (a.(Message.appId) = b.(Message.appId)) &&
      same_key a.(Message.idempotencyKey) b.(Message.idempotencyKey)
  | TJob => fun a b =>
      let live j := negb (Guards.job_finished j.(Job.state)) in
      live a && live b && bool_decide (a.(Job.kind) = b.(Job.kind)) &&
      same_key a.(Job.dedupeKey) b.(Job.dedupeKey)
  | TAttempt => fun a b =>
      bool_decide (a.(WebhookAttempt.endpointId) = b.(WebhookAttempt.endpointId)) &&
      bool_decide (a.(WebhookAttempt.aggregateId) = b.(WebhookAttempt.aggregateId)) &&
      bool_decide (a.(WebhookAttempt.eventType) = b.(WebhookAttempt.eventType))
  | TClientKey => fun a b => bool_decide (a.(ClientKey.thumbprint) = b.(ClientKey.thumbprint))
  | TConsoleKey => fun a b => bool_decide (a.(ConsoleKey.thumbprint) = b.(ConsoleKey.thumbprint))
  | TOptOut => fun a b => bool_decide (a.(OptOut.msisdnHash) = b.(OptOut.msisdnHash))
  | TFedLink => fun a b =>
      bool_decide (a.(FederatedLink.issuer) = b.(FederatedLink.issuer)) &&
      bool_decide (a.(FederatedLink.subject) = b.(FederatedLink.subject))
  | TNonce => fun a b => bool_decide (a.(EnvelopeNonce.nonce) = b.(EnvelopeNonce.nonce))
  | TAnchor => fun a b => bool_decide (a.(AuditAnchor.chainHash) = b.(AuditAnchor.chainHash))
  | TUser => fun a b =>
      bool_decide (a.(User.subject) = b.(User.subject)) ||
      bool_decide (a.(User.email) = b.(User.email))
  | TOauthClient => fun a b => bool_decide (a.(OauthClient.clientId) = b.(OauthClient.clientId))
  | TAssertion => fun a b => bool_decide (a.(ClientAssertion.jti) = b.(ClientAssertion.jti))
  | TCredential => fun a b => bool_decide (a.(UserCredential.userId) = b.(UserCredential.userId))
  | TSsoTxn => fun a b => bool_decide (a.(SsoTransaction.stateHash) = b.(SsoTransaction.stateHash))
  | _ => fun _ _ => false
  end.

(** ** Transactions

    A body runs statement by statement, alone: every procedure that opens a
    transaction is declared [@isolation("serializable")]. *)
Section Transactions.

Context `{E : CratestackErrors}.
Variable ex : forall R, tcall R -> world -> R -> world -> Prop.

Inductive txrun {A} : txn A -> world -> A -> world -> Prop :=
| txrun_ret a w : txrun (TRet a) w a w
| txrun_call R (c : tcall R) k w r w1 a w2 :
    ex R c w r w1 -> txrun (k r) w1 a w2 -> txrun (TCall c k) w a w2.

(** [db.transaction]: an [Ok] body commits, or the commit fails (before or
    after it took effect); an [Err] body rolls back; the transaction may also
    fail to run at all. *)
Definition transacted {A} (body : txn (result A CratestackError)) (w : world)
  (r : result A CratestackError) (w' : world) : Prop :=
  (exists r0 w1, txrun body w r0 w1 /\
     match r0 with
     | Ok a => (r = Ok a /\ w' = w1) \/
               (exists e, r = Err e /\ db_sqlstate e <> Some SM001 /\ (w' = w \/ w' = w1))
     | Err e => r = Err e /\ w' = w
     end) \/
  (exists e, r = Err e /\ w' = w /\ db_sqlstate e <> Some SM001).

End Transactions.

Arguments txrun {E} ex {A} _ _ _ _.
Arguments transacted {E} ex {A} _ _ _ _.

(** ** What the database client does

    The laws are the documented behaviour of cratestack's generated client:
    a query returns stored rows that satisfy its filter, at most [limit] of
    them (all of them when there is no limit), with values of the columns' types, and some row when
    there is one; a page of a
    query ordered by id is a slice of one listing of the rows it selects; a delete answers
    with the row it removed; what an update
    stores satisfies the table's CHECK constraints; an [if_match] update is accepted only against the stored version,
    and then stores what the triggers leave; an error leaves the row as it
    was, or (an acknowledgement lost after the commit) as the update leaves
    it; SM001 is raised only by a guard refusing the stored row's move; what
    an insert stores breaks no UNIQUE index; a count counts the stored rows; a
    cache never touches the database.  Of a submission only that a delay it
    asks for is bounded, which each adapter is shown to keep to
    ([SubmitSound] in Adapter.v). *)
Class Backend `{E : CratestackErrors} := {
  exec : forall R, call R -> world -> R -> world -> Prop;
  exec_Now w r w' : exec _ Now w r w' -> w' = w;
  exec_Now_clock w r w' : exec _ Now w r w' -> 0 <= r < CLOCK_END;
  exec_Random w r w' : exec _ Random w r w' -> w' = w;
  exec_Submit k q w r w' : exec _ (Submit k q) w r w' -> w' = w /\ retry_bounded r;
  exec_Seal a u b w r w' : exec _ (Seal a u b) w r w' -> w' = w;
  exec_Post q w r w' : exec _ (Post q) w r w' -> w' = w;
  exec_Raw R (q : sql R) w r w' : exec _ (Raw q) w r w' -> w' = w;
  exec_FindMany t q w r w' : exec _ (FindMany t q) w r w' -> w' = w /\
    forall rows, r = Ok rows ->
      Forall (fun x => w_tables w t !! row_id t x = Some x /\ q_where q x = true /\
                       row_wf t x = true) rows /\
      NoDup (row_id t <$> rows) /\
      (forall n, q_limit q = Some n -> Z.of_nat (length rows) <= Z.max 0 n);
  exec_FindMany_err t q w e w' : exec _ (FindMany t q) w (Err e) w' -> db_sqlstate e <> Some SM001;
  exec_FindMany_complete t q w rows w' x :
    exec _ (FindMany t q) w (Ok rows) w' -> w_tables w t !! row_id t x = Some x ->
    q_where q x = true -> row_wf t x = true -> (forall n, q_limit q = Some n -> 0 < n) ->
    rows <> [];
  exec_FindMany_all t q w rows w' x :
    exec _ (FindMany t q) w (Ok rows) w' -> w_tables w t !! row_id t x = Some x ->
    q_where q x = true -> row_wf t x = true -> q_limit q = None -> x ∈ rows;
  listing : world -> forall t, query t -> list (row t);
  listing_rows w t q x : rows_ok w ->
    x ∈ listing w t q <-> w_tables w t !! row_id t x = Some x /\ q_where q x = true /\ row_wf t x = true;
  exec_FindPage t q offset w r w' : exec _ (FindPage t q offset) w r w' -> w' = w /\
    forall rows, r = Ok rows -> q_order q = [Asc (fun x => KText (row_id t x))] ->
      rows = match q_limit q with Some n => take (Z.to_nat n) | None => id end
               (drop (Z.to_nat offset) (listing w t q));
  exec_Count t f w r w' : exec _ (Count t f) w r w' -> w' = w /\
    forall n, r = Ok n ->
      n = Z.of_nat (length (List.filter (fun kr => f kr.2) (map_to_list (w_tables w t))));
  exec_CacheGet c k w r w' : exec _ (CacheGet c k) w r w' ->
    w' = w /\ (r = None \/ r = w_cache w c k);
  exec_CachePut c k v w r w' : exec _ (CachePut c k v) w r w' ->
    w_tables w' = w_tables w /\ w_used w' = w_used w /\
    forall c' k' v', w_cache w' c' k' = Some v' ->
      w_cache w c' k' = Some v' \/
        existT (P := fun c => (cache_key c * cache_val c)%type) c' (k', v') = existT c (k, v);
  exec_NewUuid w r w' : exec _ NewUuid w r w' -> w' = w;
  exec_RandomBytes n w r w' : exec _ (RandomBytes n) w r w' ->
    w' = w /\ length r = n /\ Forall (fun b => 0 <= b < 256) r;
  exec_Overwrite t id p w r w' : exec _ (Overwrite t id p) w r w' ->
    (w' = w /\ is_ok r = false) \/
    (exists a b clock, w_tables w t !! id = Some a /\ commit_overwrite t clock p a = Some b /\
       written w t b w' /\ w_used w' = w_used w /\ forall b', r = Ok b' -> b' = b);
  exec_Tx A (body : txn (result A CratestackError)) w r w' : exec _ (Tx body) w r w' ->
    transacted (fun R c => exec R (of_tcall c)) body w r w';
  exec_Update t id p v w r w' : exec _ (Update t id p v) w r w' ->
    match r with
    | Ok b => exists a now clock, w_tables w t !! id = Some a /\ row_version t a = v /\
        commit t now clock p a = Some b /\ written w t b w' /\ w_used w' = w_used w
    | Err e =>
        (w' = w /\ (db_sqlstate e = Some SM001 ->
           exists a now clock, w_tables w t !! id = Some a /\ row_version t a = v /\
             commit t now clock p a = None)) \/
        (db_sqlstate e <> Some SM001 /\
         exists a b now clock, w_tables w t !! id = Some a /\ row_version t a = v /\
           commit t now clock p a = Some b /\ written w t b w' /\ w_used w' = w_used w)
    end;
  exec_Update_wf t id p v w b w' : exec _ (Update t id p v) w (Ok b) w' -> row_wf t b = true;
  exec_Create_duplicate t c w e w' : exec _ (Create t c) w (Err e) w' -> indexed t = true ->
    db_sqlstate e = Some UNIQUE_VIOLATION ->
    exists id x id' now, w_tables w t !! id = Some x /\ conflicts t x (created t id' now c) = true;
  exec_Create_err t c w e w' : exec _ (Create t c) w (Err e) w' -> db_sqlstate e <> Some SM001;
  exec_Create t c w r w' : exec _ (Create t c) w r w' ->
    (w' = w /\ is_ok r = false) \/
    (exists id now, (id ∉ w_used w t) /\ written w t (created t id now c) w' /\
      (forall b, r = Ok b -> b = created t id now c) /\
      w_used w' t = {[id]} ∪ w_used w t /\ (forall t', t' <> t -> w_used w' t' = w_used w t') /\
      forall id' x, w_tables w t !! id' = Some x -> conflicts t x (created t id now c) = false);
  exec_Delete t id w r w' : exec _ (Delete t id) w r w' ->
    w' = w \/
    (w_tables w' t = delete id (w_tables w t) /\
     (forall t', t' <> t -> w_tables w' t' = w_tables w t') /\ w_used w' = w_used w /\
     w_cache w' = w_cache w);
  exec_Delete_Ok t id w b w' : exec _ (Delete t id) w (Ok b) w' ->
    w_tables w t !! id = Some b /\ w_tables w' t = delete id (w_tables w t) }.

(** ** Facts about one row *)
Lemma row_later_refl t a : row_later t a a.
Proof. by left. Qed.

(** A settled lookup keeps what was recorded of it. *)
Lemma lookup_guard_inv a b c :
  LookupGuard.delivery_lookups_update_guard a b = Some c ->
  c = b /\ a.(DeliveryLookup.outcome) = DeliveryLookupOutcome.pending /\
  b.(DeliveryLookup.outcome) <> DeliveryLookupOutcome.pending /\
  DeliveryLookup.id b = DeliveryLookup.id a.
Proof.
  unfold LookupGuard.delivery_lookups_update_guard.
  destruct (bool_decide_reflect
    (DeliveryLookup.outcome a <> DeliveryLookupOutcome.pending)) as [|Ha]; [done|].
  destruct (bool_decide_reflect
    (DeliveryLookup.outcome b = DeliveryLookupOutcome.pending)) as [|Hb]; [done|].
  cbn [orb]. case_bool_decide as Hs; [|done]. intros [= <-].
  split; [done|]. split; [by destruct (decide (DeliveryLookup.outcome a = DeliveryLookupOutcome.pending))|].
  split; [done|]. by rewrite <- Hs.
Qed.

Lemma legal_move_trans t a b c : legal_move t a b -> legal_move t b c -> legal_move t a c.
Proof.
  destruct t; cbn; try done; try apply rtc_trans.
  intros [->|[x Hx]]; [done|]. intros [->|[y Hy]]; [right; by exists x|].
  apply lookup_guard_inv in Hx as (_ & _ & Hb & _), Hy as (_ & Hb' & _). congruence.
Qed.

Lemma row_later_trans t a b c : row_later t a b -> row_later t b c -> row_later t a c.
Proof.
  intros [->|[Hv Hm]] [->|[Hv' Hm']]; try (by left); try (by right).
  right. split; [naive_solver lia | by eapply legal_move_trans].
Qed.

(** A committed update keeps the id, moves the version on by one, and makes
    a legal move. *)
Lemma commit_facts t now clock p a b :
  commit t now clock p a = Some b ->
  row_id t b = row_id t a /\ row_version t b = row_version t a + 1 /\ legal_move t a b.
Proof.
  assert (forall l x, User.id (User.apply l x) = User.id x) as Hu
    by (intros; apply (foldl_keeps User.id); by intros ? []).
  assert (forall l x, Message.id (Message.apply l x) = Message.id x) as Hm
    by (intros; apply (foldl_keeps Message.id); by intros ? []).
  assert (forall l x, Job.id (Job.apply l x) = Job.id x) as Hj
    by (intros; apply (foldl_keeps Job.id); by intros ? []).
  assert (forall l x, WebhookAttempt.id (WebhookAttempt.apply l x) = WebhookAttempt.id x) as Ha
    by (intros; apply (foldl_keeps WebhookAttempt.id); by intros ? []).
  assert (forall l x, WebhookEndpoint.id (WebhookEndpoint.apply l x) = WebhookEndpoint.id x) as He
    by (intros; apply (foldl_keeps WebhookEndpoint.id); by intros ? []).
  assert (forall l x, Provider.id (Provider.apply l x) = Provider.id x) as Hp
    by (intros; apply (foldl_keeps Provider.id); by intros ? []).
  destruct t; cbn [commit row_id row_version legal_move]; try (by destruct p).
  - intros (r & Hg & ->)%fmap_Some. revert Hg. unfold Guards.messages_guard_transition.
    destruct (bool_decide_reflect (Message.state (Message.apply p a) = Message.state a)) as [Hs|Hs].
    + intros [= <-]. cbn. rewrite Hm, Hs. repeat split. apply rtc_refl.
    + case_bool_decide as Hin; [|done]. cbn [negb].
      intros [= <-]. repeat case_match; cbn; rewrite ?Hm;
        repeat split; by apply rtc_once.
  - intros (r & Hg & ->)%fmap_Some. revert Hg. unfold Guards.jobs_guard_transition.
    destruct (bool_decide_reflect (Job.state (Job.apply p a) = Job.state a)) as [Hs|Hs].
    + intros [= <-]. cbn. rewrite Hj, Hs. repeat split. apply rtc_refl.
    + case_bool_decide as Hin; [|done]. cbn [negb].
      intros [= <-]. repeat case_match; cbn; rewrite ?Hj;
        repeat split; by apply rtc_once.
  - intros (r & Hg & ->)%fmap_Some. revert Hg. unfold Guards.attempts_guard_transition.
    destruct (bool_decide_reflect
      (WebhookAttempt.state (WebhookAttempt.apply p a) = WebhookAttempt.state a)) as [Hs|Hs].
    + intros [= <-]. cbn. rewrite Ha, Hs. repeat split. apply rtc_refl.
    + case_bool_decide as Hin; [|done]. cbn [negb].
      intros [= <-]. repeat case_match; cbn; rewrite ?Ha;
        repeat split; by apply rtc_once.
  - intros [= <-]. cbn. by rewrite He.
  - intros [= <-]. cbn. by rewrite Hp.
  - intros [= <-]. cbn. by rewrite Hu.
Qed.

Lemma commit_overwrite_facts t clock p a b :
  commit_overwrite t clock p a = Some b ->
  row_id t b = row_id t a /\ versioned t = false /\ legal_move t a b.
Proof.
  destruct t; cbn [commit_overwrite row_id legal_move versioned]; try (by destruct p).
  - intros [= <-]. split; [|done]. apply (foldl_keeps ClientKey.id). by intros ? [].
  - intros [= <-]. split; [|done]. apply (foldl_keeps ConsoleKey.id). by intros ? [].
  - intros Hg. pose proof Hg as (-> & _ & _ & Hid)%lookup_guard_inv. split; [done|].
    split; [done|]. right. by eexists.
  - intros [= <-]. split; [|done]. rewrite OauthClient.set_updatedAt_id.
    apply (foldl_keeps OauthClient.id), OauthClient.set_col_id.
  - intros [= <-]. split; [|done]. apply (foldl_keeps OauthSigningKey.id), OauthSigningKey.set_key_col_id.
  - intros [= <-]. split; [|done]. apply (foldl_keeps UserCredential.id), UserCredential.set_credential_col_id.
Qed.

(** ** Evolution *)
Lemma evolves_refl w : evolves w w.
Proof. intros t. split; [done|]. intros id b Hb. right. exists b. by split; [|left]. Qed.

Lemma evolves_trans w1 w2 w3 : evolves w1 w2 -> evolves w2 w3 -> evolves w1 w3.
Proof.
  intros H12 H23 t. destruct (H12 t) as [Hu1 H1], (H23 t) as [Hu2 H2].
  split; [by etrans|]. intros id c [Hn|(b & Hb & Hbc)]%H2.
  - left. intros Hin. by apply Hn, Hu1.
  - destruct (H1 _ _ Hb) as [Hn|(a & Ha & Hab)]; [by left|].
    right. exists a. split; [done|]. by eapply row_later_trans.
Qed.

Lemma written_evolves w t a b w' :
  written w t b w' -> w_used w' = w_used w ->
  w_tables w t !! row_id t b = Some a -> row_later t a b -> evolves w w'.
Proof.
  intros Hw Hu Ha Hl t'. rewrite Hu. split; [done|]. intros id c Hc. right.
  destruct (decide (t' = t)) as [->|Hne].
  - rewrite (written_row _ _ _ _ Hw) in Hc.
    destruct (decide (id = row_id t b)) as [->|Hid].
    + rewrite lookup_insert_eq in Hc. injection Hc as <-. by exists a.
    + rewrite lookup_insert_ne in Hc by done. exists c. by split; [|left].
  - rewrite (written_frame _ _ _ _ Hw) in Hc by done. exists c. by split; [|left].
Qed.

(** A move other writers expect, which leaves the rows in order and the
    caches alone. *)
Definition moves (w w' : world) : Prop :=
  evolves w w' /\ rows_ok w' /\ w_cache w' = w_cache w.

Lemma moves_refl w : rows_ok w -> moves w w.
Proof. intros Hok. split; [apply evolves_refl | done]. Qed.

Lemma written_ok w t id a b w' :
  rows_ok w -> w_tables w t !! id = Some a -> row_id t b = row_id t a ->
  written w t b w' -> w_used w' = w_used w -> rows_ok w'.
Proof.
  intros Hok Ha Hid Hw Hu. destruct (Hok _ _ _ Ha) as [Hida Hused].
  intros t' id' r Hr. rewrite Hu. destruct (decide (t' = t)) as [->|Hne].
  - rewrite (written_row _ _ _ _ Hw) in Hr.
    destruct (decide (id' = row_id t b)) as [->|Hid'].
    + rewrite lookup_insert_eq in Hr. injection Hr as <-. by rewrite Hid, Hida.
    + rewrite lookup_insert_ne in Hr by done. by apply Hok.
  - rewrite (written_frame _ _ _ _ Hw) in Hr by done. by apply Hok.
Qed.

Lemma update_moves w t id p v now clock a b w' :
  rows_ok w -> w_tables w t !! id = Some a -> row_version t a = v ->
  commit t now clock p a = Some b -> written w t b w' -> w_used w' = w_used w -> moves w w'.
Proof.
  intros Hok Ha Hv Hc Hw Hu. destruct (commit_facts _ _ _ _ _ _ Hc) as (Hid & Hver & Hm).
  destruct (Hok _ _ _ Ha) as [Hida Hused]. split_and!.
  - eapply written_evolves; [done | done | by rewrite Hid, Hida|]. right. split; [lia | done].
  - by eapply written_ok.
  - apply (written_cache _ _ _ _ Hw).
Qed.

Lemma overwrite_moves w t id p clock a b w' :
  rows_ok w -> w_tables w t !! id = Some a -> commit_overwrite t clock p a = Some b ->
  written w t b w' -> w_used w' = w_used w -> moves w w'.
Proof.
  intros Hok Ha Hc Hw Hu. destruct (commit_overwrite_facts _ _ _ _ _ Hc) as (Hid & Hv & Hm).
  destruct (Hok _ _ _ Ha) as [Hida Hused]. split_and!.
  - eapply written_evolves; [done | done | by rewrite Hid, Hida|]. right.
    split; [congruence | done].
  - by eapply written_ok.
  - apply (written_cache _ _ _ _ Hw).
Qed.

Lemma created_id t id now c : row_id t (created t id now c) = id.
Proof. by destruct t; try destruct c. Qed.

Section Exec.

Context `{E : CratestackErrors} `{B : !Backend}.

(** What an insert stored breaks no UNIQUE index. *)
Lemma exec_Create_unique t c w b w' id x : exec _ (Create t c) w (Ok b) w' ->
  w_tables w t !! id = Some x -> conflicts t x b = false.
Proof.
  intros [[_ [=]]|(id' & now & _ & _ & Hb & _ & _ & Hu)]%exec_Create Hx.
  rewrite (Hb b eq_refl). by eapply Hu.
Qed.

Lemma create_moves t c w r w' : rows_ok w -> exec _ (Create t c) w r w' -> moves w w'.
Proof.
  intros Hok Hx. apply exec_Create in Hx as [[-> _]|(id & now & Hf & Hw & _ & Hu & Hu' & _)];
    [by apply moves_refl|].
  pose proof (written_row _ _ _ _ Hw) as Hrow. rewrite created_id in Hrow. split_and!.
  - intros t'. destruct (decide (t' = t)) as [->|Hne].
    + rewrite Hu. split; [apply union_subseteq_r|]. intros id' b. rewrite Hrow.
      destruct (decide (id' = id)) as [->|]; [by left|].
      rewrite lookup_insert_ne by done. intros Hb. right. exists b. by split; [|left].
    + rewrite Hu' by done. split; [done|]. intros id' b.
      rewrite (written_frame _ _ _ _ Hw) by done. intros Hb. right. exists b. by split; [|left].
  - intros t' id' b Hb. destruct (decide (t' = t)) as [->|Hne].
    + rewrite Hu. rewrite Hrow in Hb. destruct (decide (id' = id)) as [->|].
      * rewrite lookup_insert_eq in Hb. injection Hb as <-. rewrite created_id.
        split; [done|]. by apply elem_of_union_l, elem_of_singleton.
      * rewrite lookup_insert_ne in Hb by done. apply Hok in Hb as [? ?].
        split; [done|]. by apply elem_of_union_r.
    + rewrite Hu' by done. rewrite (written_frame _ _ _ _ Hw) in Hb by done. by apply Hok.
  - apply (written_cache _ _ _ _ Hw).
Qed.

Lemma delete_moves t id w r w' : rows_ok w -> exec _ (Delete t id) w r w' -> moves w w'.
Proof.
  intros Hok Hx. apply exec_Delete in Hx as [->|(Hd & Hf & Hu & Hc)]; [by apply moves_refl|].
  assert (forall t' id' b, w_tables w' t' !! id' = Some b -> w_tables w t' !! id' = Some b) as Hsub.
  { intros t' id' b Hb. destruct (decide (t' = t)) as [->|Hne]; [|by rewrite Hf in Hb].
    rewrite Hd in Hb. by apply lookup_delete_Some in Hb as [_ Hb]. }
  split_and!; [| |done].
  - intros t'. rewrite Hu. split; [done|]. intros id' b Hb%Hsub. right. exists b. by split; [|left].
  - intros t' id' b Hb%Hsub. rewrite Hu. by apply Hok.
Qed.

Lemma tcall_moves R (c : tcall R) w r w' :
  rows_ok w -> exec R (of_tcall c) w r w' -> moves w w'.
Proof.
  intros Hok. destruct c; cbn [of_tcall]; intros Hx.
  - apply exec_Now in Hx as ->. by apply moves_refl.
  - apply exec_NewUuid in Hx as ->. by apply moves_refl.
  - apply exec_RandomBytes in Hx as [-> _]. by apply moves_refl.
  - apply exec_FindMany in Hx as [-> _]. by apply moves_refl.
  - apply exec_Update in Hx. destruct r as [b|e].
    + destruct Hx as (a & now & clock & Ha & Hv & Hc & Hw & Hu). by eapply update_moves.
    + destruct Hx as [[-> _]|(_ & a & b & now & clock & Ha & Hv & Hc & Hw & Hu)];
        [by apply moves_refl | by eapply update_moves].
  - apply exec_Overwrite in Hx as [[-> _]|(a & b & clock & Ha & Hc & Hw & Hu & _)];
      [by apply moves_refl | by eapply overwrite_moves].
  - by eapply create_moves.
Qed.

Lemma txrun_moves {A} (body : txn A) w r w' :
  rows_ok w -> txrun (fun R c => exec R (of_tcall c)) body w r w' -> moves w w'.
Proof.
  intros Hok Hr. induction Hr as [a w|R c k w r w1 a w2 Hx _ IH]; [by apply moves_refl|].
  destruct (tcall_moves _ _ _ _ _ Hok Hx) as (Hev & Hok1 & Hc1).
  destruct (IH Hok1) as (Hev' & Hok2 & Hc2).
  split_and!; [by eapply evolves_trans | done | congruence].
Qed.

(** What may be put in a cache. *)
Definition cache_ok {R} (c : call R) : Prop :=
  match c with CachePut c k v => cache_wf c k v | _ => True end.

(** Every call is a move other writers expect, and keeps the rows in order;
    only a [CachePut] touches a cache. *)
Lemma exec_rows R (c : call R) w r w' :
  rows_ok w -> exec R c w r w' ->
  evolves w w' /\ rows_ok w' /\ (cache_ok c -> caches_ok w -> caches_ok w').
Proof.
  intros Hok Hx.
  assert (moves w w' -> evolves w w' /\ rows_ok w' /\ (cache_ok c -> caches_ok w -> caches_ok w'))
    as Hm by (intros (Hev & Hok' & Hc); split_and!; [done | done | unfold caches_ok; by rewrite Hc]).
  destruct c.
  - by apply Hm, (tcall_moves _ TNow w r w').
  - apply Hm. apply exec_Random in Hx as ->. by apply moves_refl.
  - by apply Hm, (tcall_moves _ (TFind t q) w r w').
  - apply Hm. apply exec_FindPage in Hx as [-> _]. by apply moves_refl.
  - by apply Hm, (tcall_moves _ (TUpdate t id p if_match) w r w').
  - by eapply Hm, create_moves.
  - by eapply Hm, delete_moves.
  - apply Hm. apply exec_Count in Hx as [-> _]. by apply moves_refl.
  - by apply Hm, (tcall_moves _ (TOverwrite t id p) w r w').
  - apply Hm. destruct (exec_Tx _ _ _ _ _ Hx) as [(r0 & w1 & Hr & Hres)|(e & _ & -> & _)];
      [|by apply moves_refl].
    pose proof (txrun_moves _ _ _ _ Hok Hr) as Hev.
    destruct r0 as [a|e]; [|destruct Hres as [_ ->]; by apply moves_refl].
    destruct Hres as [[_ ->]|(e & _ & _ & [-> | ->])]; try done. by apply moves_refl.
  - apply Hm. apply exec_CacheGet in Hx as [-> _]. by apply moves_refl.
  - apply exec_CachePut in Hx as (Ht & Hu & Hc). split_and!.
    + intros t. rewrite Ht, Hu. split; [done|]. intros id b Hb. right. exists b. by split; [|left].
    + intros t id b. rewrite Ht, Hu. apply Hok.
    + intros Hwf Hca c' k' v' [Hv|He]%Hc; [by apply Hca|].
      pose proof (f_equal projT1 He) as Hp. cbn in Hp. subst c'.
      apply inj_pair2_eq_dec in He; [|solve_decision]. by injection He as -> ->.
  - by apply Hm, (tcall_moves _ TUuid w r w').
  - by apply Hm, (tcall_moves _ (TRandomBytes n) w r w').
  - apply Hm. apply exec_Submit in Hx as [-> _]. by apply moves_refl.
  - apply Hm. apply exec_Seal in Hx as ->. by apply moves_refl.
  - apply Hm. apply exec_Post in Hx as ->. by apply moves_refl.
  - apply Hm. apply exec_Raw in Hx as ->. by apply moves_refl.
Qed.

Lemma exec_evolves R (c : call R) w r w' :
  cache_ok c -> world_ok w -> exec R c w r w' -> evolves w w' /\ world_ok w'.
Proof.
  intros Hc [Hok Hca] Hx. destruct (exec_rows _ _ _ _ _ Hok Hx) as (Hev & Hok' & Hca').
  split; [done|]. split; [done | by apply Hca'].
Qed.

End Exec.

(** ** Traces

    What a program did: the calls it made with their replies, latest first. *)
Inductive event `{E : CratestackErrors} :=
| Ev {R : Type} (c : call R) (r : R).

Abbreviation trace := (list event).

(** The rows a reply showed the program. *)
Abbreviation snapshot := {t : tbl & row t}.

Definition reply_rows `{E : CratestackErrors} {R} (c : call R) : R -> list snapshot :=
  match c in call R return R -> list snapshot with
  | FindMany t _ => fun r => match r with Ok rows => existT t <$> rows | Err _ => [] end
  | Update t _ _ _ | Create t _ | Overwrite t _ _ =>
      fun r => match r with Ok b => [existT t b] | Err _ => [] end
  | _ => fun _ => []
  end.

Definition event_rows `{E : CratestackErrors} (e : event) : list snapshot :=
  match e with Ev c r => reply_rows c r end.

Definition known `{E : CratestackErrors} (tr : trace) (t : tbl) (m : row t) : Prop :=
  exists e, e ∈ tr /\ existT t m ∈ event_rows e.

(** A row read at some point still speaks for its version: the stored row,
    if there still is one, is that very row or has a later version. *)
Definition speaks_for (w : world) (t : tbl) (m : row t) : Prop :=
  row_id t m ∈ w_used w t /\
  forall cur, w_tables w t !! row_id t m = Some cur -> row_later t m cur.

Definition valid `{E : CratestackErrors} (tr : trace) (w : world) : Prop :=
  forall t m, known tr t m -> speaks_for w t m.

Lemma valid_nil `{E : CratestackErrors} w : valid [] w.
Proof. intros t m (e & He & _). by apply not_elem_of_nil in He. Qed.

#[export] Hint Resolve valid_nil : vsms.

Lemma speaks_for_evolves w w' t m : evolves w w' -> speaks_for w t m -> speaks_for w' t m.
Proof.
  intros Hev [Hu Hs]. destruct (Hev t) as [Hsub Hrows]. split; [by apply Hsub|].
  intros cur [Hn|(a & Ha & Hl)]%Hrows; [done|]. eapply row_later_trans; [by apply Hs | done].
Qed.

Lemma speaks_for_current w t m :
  world_ok w -> w_tables w t !! row_id t m = Some m -> speaks_for w t m.
Proof.
  intros [Hok _] Hm. split; [by eapply Hok|]. intros cur Hc. left. congruence.
Qed.

(** At its own version, a row read earlier is the stored row. *)
Lemma speaks_for_same_version w t m a :
  versioned t = true -> speaks_for w t m -> w_tables w t !! row_id t m = Some a ->
  row_version t a = row_version t m -> a = m.
Proof. intros Ht [_ Hs] Ha Hv. destruct (Hs _ Ha) as [->|[Hlt _]]; [done|]. specialize (Hlt Ht). lia. Qed.

(** Only tables with versions take conditional updates. *)
Lemma patch_versioned t : patch t -> versioned t = true.
Proof. by destruct t; intros []. Qed.

(** ** The weakest precondition

    An update must propose a legal move from a row the program has read at
    the version it conditions on; in return its reply is what that row's
    commit gives, and never SM001. *)
Definition legal_update `{E : CratestackErrors} (tr : trace) (t : tbl) (id : text) (p : patch t)
  (v : Z) : Prop :=
  exists m, known tr t m /\ row_id t m = id /\ row_version t m = v /\
    forall now clock, is_Some (commit t now clock p m).

Definition statement_ok `{E : CratestackErrors} {R} (tr : trace) (c : call R) : Prop :=
  match c with
  | Update t id p v => legal_update tr t id p v
  | CachePut c k v => cache_wf c k v
  | _ => True
  end.

Definition no_sm001 `{E : CratestackErrors} {A} (r : result A CratestackError) : Prop :=
  match r with Ok _ => True | Err e => db_sqlstate e <> Some SM001 end.

Definition statement_reply `{E : CratestackErrors} {R} (tr : trace) (c : call R) : R -> Prop :=
  match c in call R return R -> Prop with
  | FindMany t q => fun r =>
      match r with
      | Ok rows =>
          Forall (fun x => q_where q x = true /\ row_wf t x = true) rows /\
          NoDup (row_id t <$> rows) /\
          (forall n, q_limit q = Some n -> Z.of_nat (length rows) <= Z.max 0 n)
      | Err e => db_sqlstate e <> Some SM001
      end
  | Update t id p v => fun r =>
      match r with
      | Ok b => row_wf t b = true /\ exists now clock, forall m, known tr t m ->
          row_id t m = id -> row_version t m = v -> commit t now clock p m = Some b
      | Err e => db_sqlstate e <> Some SM001
      end
  | Create t c => fun r =>
      match r with
      | Ok b => exists id now, b = created t id now c
      | Err e => db_sqlstate e <> Some SM001
      end
  | Overwrite t id p => fun r => forall b, r = Ok b ->
      exists a clock, row_id t a = id /\ commit_overwrite t clock p a = Some b
  | Now => fun r => 0 <= r < CLOCK_END
  | RandomBytes n => fun r => length r = n /\ Forall (fun b => 0 <= b < 256) r
  | CacheGet c k => fun r => forall v, r = Some v -> cache_wf c k v
  | Submit _ _ => retry_bounded
  | _ => fun _ => True
  end.

(** The same for the body of a transaction, whose events are its own. *)
Fixpoint twp `{E : CratestackErrors} {A} (p : txn A) (tr : trace) (Q : A -> trace -> Prop) : Prop :=
  match p with
  | TRet a => Q a tr
  | TCall c k => statement_ok tr (of_tcall c) /\
      forall r, statement_reply tr (of_tcall c) r -> twp (k r) (Ev (of_tcall c) r :: tr) Q
  end.

(** A transaction must not end in an illegal transition; what its body
    guarantees of its result holds of the reply, unless it failed to run or
    to commit. *)
Definition call_ok `{E : CratestackErrors} {R} (tr : trace) (c : call R) : Prop :=
  match c with
  | Tx body => twp body tr (fun r _ => no_sm001 r)
  | _ => statement_ok tr c
  end.

Definition reply_ok `{E : CratestackErrors} {R} (tr : trace) (c : call R) : R -> Prop :=
  match c in call R return R -> Prop with
  | Tx body => fun r => forall Q, twp body tr Q ->
      (exists tr', Q r tr') \/ (is_ok r = false /\ no_sm001 r)
  | c => statement_reply tr c
  end.

Fixpoint wp `{E : CratestackErrors} {A} (p : prog A) (tr : trace) (Q : A -> trace -> Prop) : Prop :=
  match p with
  | Ret a => Q a tr
  | Panic => False
  | Call c k => call_ok tr c /\ forall r, reply_ok tr c r -> wp (k r) (Ev c r :: tr) Q
  end.

(** No reply in the trace is an illegal-transition error. *)
Definition illegal_reply `{E : CratestackErrors} (e : event) : Prop :=
  match e with
  | Ev c r =>
      match c in call R return R -> Prop with
      | Update _ _ _ _ | Tx _ => fun r => match r with
                                          | Ok _ => False
                                          | Err e => db_sqlstate e = Some SM001
                                          end
      | _ => fun _ => False
      end r
  end.

(** Calls that neither write nor leave the process for the outside world. *)
Definition read_only `{E : CratestackErrors} (e : event) : Prop :=
  match e with
  | Ev c _ => match c with
              | FindMany _ _ | FindPage _ _ _ | Now | Random | Count _ _ | CacheGet _ _ | CachePut _ _ _
              | NewUuid | RandomBytes _ => True
              | _ => False
              end
  end.

Definition failed_read `{E : CratestackErrors} (e : event) : Prop :=
  match e with
  | Ev c r =>
      match c in call R return R -> Prop with
      | FindMany _ _ => fun r => is_ok r = false
      | _ => fun _ => False
      end r
  end.

(** The updates a trace attempted, per table, and the submissions it made;
    latest first, like the trace. *)
Definition on_update `{E : CratestackErrors} {X} (f : forall t, text -> patch t -> Z -> list X)
  (e : event) : list X :=
  match e with
  | Ev c _ => match c with Update t id p v => f t id p v | _ => [] end
  end.

Definition message_writes `{E : CratestackErrors} (tr : trace) : list (text * list Message.col * Z) :=
  tr ≫= on_update (fun t => match t with
                            | TMessage => fun id p v => [(id, p, v)]
                            | _ => fun _ _ _ => []
                            end).

Definition job_writes `{E : CratestackErrors} (tr : trace) : list (text * list Job.col * Z) :=
  tr ≫= on_update (fun t => match t with
                            | TJob => fun id p v => [(id, p, v)]
                            | _ => fun _ _ _ => []
                            end).

Definition attempt_writes `{E : CratestackErrors} (tr : trace)
  : list (text * list WebhookAttempt.col * Z) :=
  tr ≫= on_update (fun t => match t with
                            | TAttempt => fun id p v => [(id, p, v)]
                            | _ => fun _ _ _ => []
                            end).

Definition endpoint_writes `{E : CratestackErrors} (tr : trace)
  : list (text * list WebhookEndpoint.col * Z) :=
  tr ≫= on_update (fun t => match t with
                            | TEndpoint => fun id p v => [(id, p, v)]
                            | _ => fun _ _ _ => []
                            end).

Definition provider_writes `{E : CratestackErrors} (tr : trace) : list (text * list Provider.col * Z) :=
  tr ≫= on_update (fun t => match t with
                            | TProvider => fun id p v => [(id, p, v)]
                            | _ => fun _ _ _ => []
                            end).

Definition submits `{E : CratestackErrors} (tr : trace) : list (text * SubmitRequest) :=
  tr ≫= (fun e => match e with
                  | Ev c _ => match c with Submit k q => [(k, q)] | _ => [] end
                  end).

Definition posts `{E : CratestackErrors} (tr : trace) : list HttpRequest :=
  tr ≫= (fun e => match e with
                  | Ev c _ => match c with Post q => [q] | _ => [] end
                  end).

Section WpRules.

Context `{E : CratestackErrors}.

Lemma known_cons e tr t m : known tr t m -> known (e :: tr) t m.
Proof. intros (e' & He & Hm). exists e'. split; [by right | done]. Qed.

Lemma known_app l tr t m : known tr t m -> known (l ++ tr) t m.
Proof. intros Hk. induction l; [done|]. by apply known_cons. Qed.

Lemma known_find tr t q rows m : m ∈ rows -> known (Ev (FindMany t q) (Ok rows) :: tr) t m.
Proof.
  intros Hm. eexists. split; [by left|]. cbn. by apply list_elem_of_fmap_2.
Qed.

Lemma known_update tr t id p v b : known (Ev (Update t id p v) (Ok b) :: tr) t b.
Proof. eexists. split; [by left|]. cbn. by left. Qed.

Lemma on_update_read_only {X} (f : forall t, text -> patch t -> Z -> list X) l :
  Forall read_only l -> l ≫= on_update f = [].
Proof.
  induction 1 as [|[R c r] l He _ IH]; [done|]. rewrite bind_cons, IH, app_nil_r.
  by destruct c.
Qed.

Lemma submits_read_only l : Forall read_only l -> submits l = [].
Proof.
  unfold submits. induction 1 as [|[R c r] l He _ IH]; [done|].
  rewrite bind_cons, IH, app_nil_r. by destruct c.
Qed.

Lemma message_writes_app l l' : message_writes (l ++ l') = message_writes l ++ message_writes l'.
Proof. apply bind_app. Qed.

Lemma provider_writes_app l l' : provider_writes (l ++ l') = provider_writes l ++ provider_writes l'.
Proof. apply bind_app. Qed.

Lemma submits_app l l' : submits (l ++ l') = submits l ++ submits l'.
Proof. apply bind_app. Qed.

Lemma message_writes_read_only l : Forall read_only l -> message_writes l = [].
Proof. apply on_update_read_only. Qed.

Lemma provider_writes_read_only l : Forall read_only l -> provider_writes l = [].
Proof. apply on_update_read_only. Qed.

Lemma wp_mono {A} (p : prog A) tr (Q Q' : A -> trace -> Prop) :
  (forall a tr', Q a tr' -> Q' a tr') -> wp p tr Q -> wp p tr Q'.
Proof.
  intros HQ. revert tr. induction p as [a| |R c k IH]; intros tr; cbn; [by apply HQ | done |].
  intros [Hc Hk]. split; [done|]. intros r Hr. by apply IH, Hk.
Qed.

Lemma wp_bind {A B} (p : prog A) (f : A -> prog B) tr Q :
  wp p tr (fun a tr' => wp (f a) tr' Q) -> wp (pbind p f) tr Q.
Proof.
  revert tr. induction p as [a| |R c k IH]; intros tr; cbn; [done | done |].
  intros [Hc Hk]. split; [done|]. intros r Hr. by apply IH, Hk.
Qed.

Lemma wp_and {A} (p : prog A) tr (Q1 Q2 : A -> trace -> Prop) :
  wp p tr Q1 -> wp p tr Q2 -> wp p tr (fun a tr' => Q1 a tr' /\ Q2 a tr').
Proof.
  revert tr. induction p as [a| |R c k IH]; intros tr; cbn; [done | done |].
  intros [Hc H1] [_ H2]. split; [done|]. intros r Hr. apply IH; auto.
Qed.

(** The trace only grows. *)
Lemma wp_extends {A} (p : prog A) tr Q :
  wp p tr Q -> wp p tr (fun a tr' => Q a tr' /\ exists l, tr' = l ++ tr).
Proof.
  revert tr. induction p as [a| |R c k IH]; intros tr; cbn; [|done|].
  - intros HQ. split; [done | by exists []].
  - intros [Hc Hk]. split; [done|]. intros r Hr. eapply wp_mono; [|apply IH, Hk, Hr].
    intros a tr' [HQ [l ->]]. split; [done|]. exists (l ++ [Ev c r]). by rewrite <- (assoc_L (++)).
Qed.

Lemma wp_do {R B} (c : call R) (f : R -> prog B) tr Q :
  call_ok tr c -> (forall r, reply_ok tr c r -> wp (f r) (Ev c r :: tr) Q) ->
  wp (pbind (do c) f) tr Q.
Proof. done. Qed.

Lemma wp_find_wf {B} t q (f : _ -> prog B) tr Q :
  (forall rows, Forall (fun x => q_where q x = true /\ row_wf t x = true) rows ->
     NoDup (row_id t <$> rows) ->
     (forall n, q_limit q = Some n -> Z.of_nat (length rows) <= Z.max 0 n) ->
     wp (f (Ok rows)) (Ev (FindMany t q) (Ok rows) :: tr) Q) ->
  (forall e, wp (f (Err e)) (Ev (FindMany t q) (Err e) :: tr) Q) ->
  wp (pbind (do (FindMany t q)) f) tr Q.
Proof.
  intros Hok Herr. apply wp_do; [done|]. intros [rows|e] Hr; [|apply Herr].
  destruct Hr as (? & ? & ?). by apply Hok.
Qed.

Lemma wp_find {B} t q (f : _ -> prog B) tr Q :
  (forall rows, Forall (fun x => q_where q x = true) rows -> NoDup (row_id t <$> rows) ->
     (forall n, q_limit q = Some n -> Z.of_nat (length rows) <= Z.max 0 n) ->
     wp (f (Ok rows)) (Ev (FindMany t q) (Ok rows) :: tr) Q) ->
  (forall e, wp (f (Err e)) (Ev (FindMany t q) (Err e) :: tr) Q) ->
  wp (pbind (do (FindMany t q)) f) tr Q.
Proof.
  intros Hok Herr. apply wp_find_wf; [|done]. intros rows Hr ? ?. apply Hok; [|done|done].
  eapply Forall_impl; [exact Hr | by intros x [? _]].
Qed.

(** An update conditioned on the version of a row the program has read. *)
Lemma wp_update {B} t m p (f : _ -> prog B) tr Q :
  known tr t m -> (forall now clock, is_Some (commit t now clock p m)) ->
  (forall b now clock, commit t now clock p m = Some b ->
     wp (f (Ok b)) (Ev (Update t (row_id t m) p (row_version t m)) (Ok b) :: tr) Q) ->
  (forall e, db_sqlstate e <> Some SM001 ->
     wp (f (Err e)) (Ev (Update t (row_id t m) p (row_version t m)) (Err e) :: tr) Q) ->
  wp (pbind (do (Update t (row_id t m) p (row_version t m))) f) tr Q.
Proof.
  intros Hk Hleg Hok Herr. apply wp_do; [by exists m|].
  intros [b|e] Hr; [|by apply Herr]. destruct Hr as (_ & now & clock & Hc).
  apply (Hok b now clock). by apply Hc.
Qed.

(** A write whose outcome is only logged. *)
Lemma wp_logged {B} t m p (k : prog B) tr Q :
  known tr t m -> (forall now clock, is_Some (commit t now clock p m)) ->
  (forall r, wp k (Ev (Update t (row_id t m) p (row_version t m)) r :: tr) Q) ->
  wp (pbind (do (Update t (row_id t m) p (row_version t m))) (fun _ => k)) tr Q.
Proof.
  intros Hk Hc Hr. apply wp_do; [by exists m|]. intros r _. apply Hr.
Qed.

Lemma wp_ok_bind {A B X} (p : prog (result A X)) (f : A -> prog (result B X)) tr Q :
  wp p tr (fun r tr' => match r with Ok a => wp (f a) tr' Q | Err e => Q (Err e) tr' end) ->
  wp (pbind_ok p f) tr Q.
Proof.
  intros Hp. apply wp_bind. eapply wp_mono; [|exact Hp]. by intros [a|e].
Qed.

Lemma wp_find_ok {B} t q (f : _ -> prog (result B CratestackError)) tr Q :
  (forall rows, Forall (fun x => q_where q x = true) rows -> NoDup (row_id t <$> rows) ->
     (forall n, q_limit q = Some n -> Z.of_nat (length rows) <= Z.max 0 n) ->
     wp (f rows) (Ev (FindMany t q) (Ok rows) :: tr) Q) ->
  (forall e, Q (Err e) (Ev (FindMany t q) (Err e) :: tr)) ->
  wp (pbind_ok (do (FindMany t q)) f) tr Q.
Proof. intros Hok Herr. by apply wp_find. Qed.

Lemma wp_clock {B} (f : Z -> prog B) tr Q :
  (forall now, 0 <= now < CLOCK_END -> wp (f now) (Ev Now now :: tr) Q) ->
  wp (pbind (do Now) f) tr Q.
Proof. intros Hf. apply wp_do; [done|]. intros now Hn. by apply Hf. Qed.

Lemma wp_now {B} (f : Z -> prog B) tr Q :
  (forall now, wp (f now) (Ev Now now :: tr) Q) -> wp (pbind (do Now) f) tr Q.
Proof. intros Hf. apply wp_do; [done|]. intros now _. apply Hf. Qed.

(** A loop, by an invariant of the trace. *)
Lemma wp_for_each {X} (body : X -> prog unit) (l : list X) (I : trace -> Prop) tr :
  I tr -> (forall x tr', x ∈ l -> I tr' -> wp (body x) tr' (fun _ tr'' => I tr'')) ->
  wp (for_each body l) tr (fun _ tr' => I tr').
Proof.
  revert tr. induction l as [|x l IH]; intros tr HI Hb; [done|].
  cbn [for_each]. apply wp_bind. eapply wp_mono; [|by apply Hb; [left|]].
  intros ? tr' HI'. apply IH; [done|]. intros y tr'' Hy. apply Hb. by right.
Qed.

(** A call any reply of which is acceptable. *)
Lemma wp_any {R B} (c : call R) (f : R -> prog B) tr Q :
  call_ok tr c -> (forall r, wp (f r) (Ev c r :: tr) Q) -> wp (pbind (do c) f) tr Q.
Proof. intros Hc Hf. apply wp_do; [done|]. intros r _. apply Hf. Qed.

Lemma wp_create {B} t c (f : _ -> prog B) tr Q :
  (forall id now, wp (f (Ok (created t id now c))) (Ev (Create t c) (Ok (created t id now c)) :: tr) Q) ->
  (forall e, db_sqlstate e <> Some SM001 -> wp (f (Err e)) (Ev (Create t c) (Err e) :: tr) Q) ->
  wp (pbind (do (Create t c)) f) tr Q.
Proof.
  intros Hok Herr. apply wp_do; [done|]. intros [b|e] Hr; [|by apply Herr].
  destruct Hr as (id & now & ->). apply Hok.
Qed.

Lemma wp_pmap_err {A X Y} (g : X -> Y) (p : prog (result A X)) tr Q :
  wp p tr (fun r tr' => Q (map_err g r) tr') -> wp (pmap_err g p) tr Q.
Proof. intros Hp. apply wp_bind. eapply wp_mono; [|exact Hp]. done. Qed.

Lemma twp_mono {A} (p : txn A) tr (Q Q' : A -> trace -> Prop) :
  (forall a tr', Q a tr' -> Q' a tr') -> twp p tr Q -> twp p tr Q'.
Proof.
  intros HQ. revert tr. induction p as [a|R c k IH]; intros tr; cbn; [by apply HQ|].
  intros [Hc Hk]. split; [done|]. intros r Hr. by apply IH, Hk.
Qed.

Lemma twp_bind {A B} (p : txn A) (f : A -> txn B) tr Q :
  twp p tr (fun a tr' => twp (f a) tr' Q) -> twp (tbind p f) tr Q.
Proof.
  revert tr. induction p as [a|R c k IH]; intros tr; cbn; [done|].
  intros [Hc Hk]. split; [done|]. intros r Hr. by apply IH, Hk.
Qed.

Lemma twp_bind_ok {A B X} (p : txn (result A X)) (f : A -> txn (result B X)) tr Q :
  twp p tr (fun r tr' => match r with Ok a => twp (f a) tr' Q | Err e => Q (Err e) tr' end) ->
  twp (tbind_ok p f) tr Q.
Proof. intros Hp. apply twp_bind. eapply twp_mono; [|exact Hp]. by intros [a|e]. Qed.

Lemma twp_find_ok {B} t q (f : _ -> txn (result B CratestackError)) tr Q :
  (forall rows, Forall (fun x => q_where q x = true /\ row_wf t x = true) rows ->
     (forall n, q_limit q = Some n -> Z.of_nat (length rows) <= Z.max 0 n) ->
     twp (f rows) (Ev (FindMany t q) (Ok rows) :: tr) Q) ->
  (forall e, db_sqlstate e <> Some SM001 -> Q (Err e) (Ev (FindMany t q) (Err e) :: tr)) ->
  twp (tbind_ok (tdo (TFind t q)) f) tr Q.
Proof.
  intros Hok Herr. split; [done|]. cbn. intros [rows|e] Hr; [|by apply Herr].
  destruct Hr as (? & _ & ?). by apply Hok.
Qed.

(** An update of a row the transaction has read. *)
Lemma twp_update_ok {B} t m p (f : _ -> txn (result B CratestackError)) tr Q :
  known tr t m -> (forall now clock, is_Some (commit t now clock p m)) ->
  (forall b now clock, row_wf t b = true -> commit t now clock p m = Some b ->
     twp (f b) (Ev (Update t (row_id t m) p (row_version t m)) (Ok b) :: tr) Q) ->
  (forall e, db_sqlstate e <> Some SM001 ->
     Q (Err e) (Ev (Update t (row_id t m) p (row_version t m)) (Err e) :: tr)) ->
  twp (tbind_ok (tdo (TUpdate t (row_id t m) p (row_version t m))) f) tr Q.
Proof.
  intros Hk Hleg Hok Herr. split; [by exists m|]. cbn. intros [b|e] Hr; [|by apply Herr].
  destruct Hr as (Hwf & now & clock & Hc). apply (Hok b now clock); [done | by apply Hc].
Qed.

Lemma twp_create_ok {B} t c (f : _ -> txn (result B CratestackError)) tr Q :
  (forall id now, twp (f (created t id now c)) (Ev (Create t c) (Ok (created t id now c)) :: tr) Q) ->
  (forall e, db_sqlstate e <> Some SM001 -> Q (Err e) (Ev (Create t c) (Err e) :: tr)) ->
  twp (tbind_ok (tdo (TCreate t c)) f) tr Q.
Proof.
  intros Hok Herr. split; [done|]. cbn. intros [b|e] Hr; [|by apply Herr].
  destruct Hr as (id & now & ->). apply Hok.
Qed.

(** A transaction whose body never ends in an illegal transition. *)
Lemma wp_tx {A B} (body : txn (result A CratestackError)) (f : _ -> prog B) tr Q
  (I : result A CratestackError -> Prop) :
  twp body tr (fun r _ => I r) -> (forall r, I r -> no_sm001 r) ->
  (forall e, db_sqlstate e <> Some SM001 -> I (Err e)) ->
  (forall r, I r -> wp (f r) (Ev (Tx body) r :: tr) Q) ->
  wp (pbind (do (Tx body)) f) tr Q.
Proof.
  intros Hb Hsm Herr Hf. apply wp_do.
  - cbn. eapply twp_mono; [|exact Hb]. intros r tr'. apply Hsm.
  - intros r Hr. apply Hf. destruct (Hr _ Hb) as [[_ Hi]|[Hn Hs]]; [done|].
    destruct r as [a|e]; [done|]. by apply Herr.
Qed.

End WpRules.

#[export] Hint Resolve known_cons known_app known_find known_update : vsms.

(** The row an accepted update of this trace stored. *)
Definition won `{E : CratestackErrors} (tr : trace) (t : tbl) (b : row t) : Prop :=
  exists p, Ev (Update t (row_id t b) p (row_version t b - 1)) (Ok b) ∈ tr.

Lemma won_known `{E : CratestackErrors} tr t b : won tr t b -> known tr t b.
Proof. intros [p Hp]. eexists. split; [exact Hp|]. by left. Qed.

Lemma won_app `{E : CratestackErrors} l tr t b : won tr t b -> won (l ++ tr) t b.
Proof. intros [p Hp]. exists p. apply elem_of_app. by right. Qed.

#[export] Hint Resolve won_known won_app : vsms.

(** ** Programs that submit nothing *)
Fixpoint no_submit `{E : CratestackErrors} {A} (p : prog A) : Prop :=
  match p with
  | Ret _ | Panic => True
  | Call c k => match c with Submit _ _ => False | _ => True end /\ forall r, no_submit (k r)
  end.

Section NoSubmit.

Context `{E : CratestackErrors}.

Lemma no_submit_bind {A B} (p : prog A) (f : A -> prog B) :
  no_submit p -> (forall a, no_submit (f a)) -> no_submit (pbind p f).
Proof.
  intros Hp Hf. induction p as [a| |R c k IH]; cbn in *; [apply Hf | done |].
  destruct Hp as [Hc Hk]. split; [done|]. intros r. by apply IH.
Qed.

Lemma no_submit_bind_ok {A B X} (p : prog (result A X)) (f : A -> prog (result B X)) :
  no_submit p -> (forall a, no_submit (f a)) -> no_submit (pbind_ok p f).
Proof. intros Hp Hf. apply no_submit_bind; [done|]. by intros [a|e]. Qed.

Lemma wp_no_submit {A} (p : prog A) tr Q :
  no_submit p -> wp p tr Q -> wp p tr (fun a tr' => Q a tr' /\ submits tr' = submits tr).
Proof.
  revert tr. induction p as [a| |R c k IH]; intros tr; cbn; [done | done |].
  intros [Hc Hns] [Hok Hk]. split; [done|]. intros r Hr.
  eapply wp_mono; [|apply IH; [apply Hns | apply Hk, Hr]].
  intros a tr' [HQ ->]. split; [done|]. by destruct c.
Qed.

End NoSubmit.

#[export] Hint Resolve no_submit_bind no_submit_bind_ok : vsms.

(** Walks a program whose calls are visible. *)
Ltac solve_no_submit :=
  repeat first
    [ progress intros
    | apply no_submit_bind
    | apply no_submit_bind_ok
    | progress cbn [no_submit do pbind]
    | match goal with |- _ /\ _ => split end
    | case_match
    | done ].

(** ** Runs *)
Definition config `{E : CratestackErrors} (A : Type) : Type := (prog A * trace * world)%type.

(** One program among arbitrary other writers. It may stop between any two
    calls: a run need not reach [Ret]. *)
Inductive step `{E : CratestackErrors} `{B : !Backend} {A} : config A -> config A -> Prop :=
| step_env p tr w w' : evolves w w' -> world_ok w' -> step (p, tr, w) (p, tr, w')
| step_call R (c : call R) k tr w r w' :
    exec R c w r w' -> step (Call c k, tr, w) (k r, Ev c r :: tr, w').

Section Soundness.

Context `{E : CratestackErrors} `{B : !Backend}.

Lemma valid_evolves tr w w' : evolves w w' -> valid tr w -> valid tr w'.
Proof. intros Hev Hv t m Hk. eapply speaks_for_evolves; [done | by apply Hv]. Qed.

(** A statement's reply keeps to its promise. *)
Lemma exec_statement_reply R (c : tcall R) tr w r w' :
  world_ok w -> valid tr w -> statement_ok tr (of_tcall c) -> exec R (of_tcall c) w r w' ->
  statement_reply tr (of_tcall c) r.
Proof.
  intros Hok Hv Hc Hx. destruct c; cbn in *; try done.
  - by eapply exec_Now_clock.
  - by apply exec_RandomBytes in Hx as [_ ?].
  - destruct r as [rows|e]; [|by eapply exec_FindMany_err].
    destruct (exec_FindMany _ _ _ _ _ Hx) as [_ Hrows].
    destruct (Hrows rows eq_refl) as (Hf & Hn & Hl). split; [|done].
    eapply Forall_impl; [exact Hf | by intros x (_ & ? & ?)].
  - pose proof (patch_versioned t p) as Ht. destruct r as [b|e].
    + pose proof (exec_Update_wf _ _ _ _ _ _ _ Hx) as Hwf. split; [done|].
      apply exec_Update in Hx as (a & now & clock & Ha & Hva & Hcm & _). exists now, clock.
      intros m Hk Hid Hvm. subst id.
      by rewrite <- (speaks_for_same_version _ _ _ _ Ht (Hv _ _ Hk) Ha (eq_trans Hva (eq_sym Hvm))).
    + apply exec_Update in Hx. destruct Hx as [[-> Hsm]|[Hne _]]; [|done].
      intros Hs. destruct (Hsm Hs) as (a & now & clock & Ha & Hva & Hnone).
      destruct Hc as (m & Hk & Hid & Hvm & Hleg). subst id.
      rewrite (speaks_for_same_version _ _ _ _ Ht (Hv _ _ Hk) Ha (eq_trans Hva (eq_sym Hvm))) in Hnone.
      destruct (Hleg now clock) as [x Hx]. by rewrite Hx in Hnone.
  - intros b ->. destruct (exec_Overwrite _ _ _ _ _ _ Hx) as [[_ Hb]|(a & b' & clock & Ha & Hc' & _ & _ & Hb)]; [done|].
    rewrite (Hb b eq_refl). exists a, clock. split; [by eapply (proj1 Hok) | done].
  - destruct r as [b|e]; [|by eapply exec_Create_err].
    destruct (exec_Create _ _ _ _ _ Hx) as [[_ Hb]|(id & now & _ & _ & Hb & _)]; [done|].
    exists id, now. by apply Hb.
Qed.

Lemma reply_rows_speak R (c : call R) w r w' t m :
  world_ok w' -> exec R c w r w' -> existT t m ∈ reply_rows c r -> speaks_for w' t m.
Proof.
  intros Hok Hx Hin. destruct c; cbn in Hin; try (by apply not_elem_of_nil in Hin).
  - destruct r as [rows|e]; [|by apply not_elem_of_nil in Hin].
    apply list_elem_of_fmap in Hin as (x & He & Hx').
    pose proof (f_equal projT1 He) as Ht. cbn in Ht. subst t0.
    apply inj_pair2_eq_dec in He as ->; [|solve_decision].
    destruct (exec_FindMany _ _ _ _ _ Hx) as [-> Hrows].
    destruct (Hrows rows eq_refl) as (Hf & _). rewrite Forall_forall in Hf.
    apply speaks_for_current; [done | by apply Hf].
  - destruct r as [b|e]; [|by apply not_elem_of_nil in Hin].
    apply list_elem_of_singleton in Hin.
    pose proof (f_equal projT1 Hin) as Ht. cbn in Ht. subst t0.
    apply inj_pair2_eq_dec in Hin as ->; [|solve_decision].
    apply exec_Update in Hx as (a & now & clock & Ha & Hva & Hcm & Hw & _).
    apply speaks_for_current; [done|]. rewrite (written_row _ _ _ _ Hw). apply lookup_insert_eq.
  - destruct r as [b|e]; [|by apply not_elem_of_nil in Hin].
    apply list_elem_of_singleton in Hin.
    pose proof (f_equal projT1 Hin) as Ht. cbn in Ht. subst t0.
    apply inj_pair2_eq_dec in Hin as ->; [|solve_decision].
    destruct (exec_Create _ _ _ _ _ Hx) as [[_ Hb]|(id & now & _ & Hw & Hb & _)]; [done|].
    rewrite (Hb b eq_refl) in *.
    apply speaks_for_current; [done|]. rewrite (written_row _ _ _ _ Hw). apply lookup_insert_eq.
  - destruct r as [b|e]; [|by apply not_elem_of_nil in Hin].
    apply list_elem_of_singleton in Hin.
    pose proof (f_equal projT1 Hin) as Ht. cbn in Ht. subst t0.
    apply inj_pair2_eq_dec in Hin as ->; [|solve_decision].
    destruct (exec_Overwrite _ _ _ _ _ _ Hx) as [[_ Hb]|(a & b' & clock & _ & _ & Hw & _ & Hb)]; [done|].
    rewrite (Hb b eq_refl) in *.
    apply speaks_for_current; [done|]. rewrite (written_row _ _ _ _ Hw). apply lookup_insert_eq.
Qed.

Lemma valid_cons R (c : call R) tr w r w' :
  cache_ok c -> world_ok w -> valid tr w -> exec R c w r w' -> valid (Ev c r :: tr) w'.
Proof.
  intros Hcw Hok Hv Hx. destruct (exec_evolves _ _ _ _ _ Hcw Hok Hx) as [Hev Hok'].
  intros t m (e & [->|He]%elem_of_cons & Hm).
  - cbn in Hm. by eapply reply_rows_speak.
  - eapply speaks_for_evolves; [done|]. apply Hv. by exists e.
Qed.

(** What [twp] promises holds of every run of the body. *)
Lemma twp_sound {A} (body : txn A) w r w' tr Q :
  txrun (fun R c => exec R (of_tcall c)) body w r w' -> world_ok w -> valid tr w ->
  twp body tr Q -> exists tr', Q r tr' /\ valid tr' w'.
Proof.
  intros Hr. revert tr. induction Hr as [a w|R c k w r w1 a w2 Hx _ IH]; intros tr Hok Hv Hwp.
  - by exists tr.
  - destruct Hwp as [Hc Hk]. assert (cache_ok (of_tcall c)) as Hcw by (by destruct c).
    eapply IH.
    + destruct (exec_evolves _ _ _ _ _ Hcw Hok Hx) as [_ ?]. done.
    + exact (valid_cons _ _ _ _ _ _ Hcw Hok Hv Hx).
    + apply Hk. by eapply exec_statement_reply.
Qed.

Lemma call_ok_cache {R} (c : call R) tr : call_ok tr c -> cache_ok c.
Proof. by destruct c. Qed.

(** A reply keeps to the promise of [reply_ok]. *)
Lemma exec_reply_ok R (c : call R) tr w r w' :
  world_ok w -> valid tr w -> call_ok tr c -> exec R c w r w' -> reply_ok tr c r.
Proof.
  intros Hok Hv Hc Hx. destruct c; try done.
  - by eapply (exec_statement_reply _ TNow).
  - by eapply (exec_statement_reply _ (TFind t q)).
  - by eapply (exec_statement_reply _ (TUpdate t id p if_match)).
  - by eapply (exec_statement_reply _ (TCreate t c)).
  - by eapply (exec_statement_reply _ (TOverwrite t id p)).
  - intros Q HQ. destruct (exec_Tx _ _ _ _ _ Hx) as [(r0 & w1 & Hr & Hres)|(e & -> & _ & He)];
      [|by right].
    destruct (twp_sound _ _ _ _ _ _ Hr Hok Hv HQ) as (tr' & HQ' & _).
    destruct r0 as [a|e]; [|destruct Hres as [-> _]; left; by exists tr'].
    destruct Hres as [[-> _]|(e & -> & He & _)]; [left; by exists tr' | by right].
  - destruct (exec_CacheGet _ _ _ _ _ Hx) as [_ [->|Hr]]; intros v Hv'; [done|].
    apply (proj2 Hok). congruence.
  - by eapply (exec_statement_reply _ (TRandomBytes n)).
  - by apply exec_Submit in Hx as [_ ?].
Qed.

(** The invariant a program keeps along a run. *)
Definition safe {A} (Q : A -> trace -> Prop) (x : config A) : Prop :=
  let '(p, tr, w) := x in
  wp p tr Q /\ valid tr w /\ world_ok w /\ Forall (fun e => ~ illegal_reply e) tr.

Lemma safe_step {A} (Q : A -> trace -> Prop) x y : step x y -> safe Q x -> safe Q y.
Proof.
  intros Hs. destruct Hs as [p tr w w' Hev Hok'|R c k tr w r w' Hx];
    intros (Hwp & Hv & Hok & Hill); cbn.
  - split_and!; [done | by eapply valid_evolves | done | done].
  - destruct Hwp as [Hc Hk]. pose proof (exec_reply_ok _ _ _ _ _ _ Hok Hv Hc Hx) as Hr.
    pose proof (call_ok_cache _ _ Hc) as Hcw.
    destruct (exec_evolves _ _ _ _ _ Hcw Hok Hx) as [Hev Hok']. split_and!.
    + by apply Hk.
    + exact (valid_cons _ _ _ _ _ _ Hcw Hok Hv Hx).
    + done.
    + constructor; [|done]. cbn. destruct c; try (by intros []); (destruct r; [by intros []|]); [done|].
      destruct (Hr _ Hc) as [[_ Hn]|[_ Hn]]; done.
Qed.

Lemma wp_sound {A} (Q : A -> trace -> Prop) x y : rtc step x y -> safe Q x -> safe Q y.
Proof. induction 1 as [|x y z Hs _ IH]; [done|]. intros Hx. by apply IH, (safe_step Q x y). Qed.

(** Wherever a run stands, it has not panicked and no update of it was
    refused as an illegal transition. *)
Lemma wp_run_safe {A} (Q : A -> trace -> Prop) p w p' tr' w' :
  wp p [] Q -> world_ok w -> rtc step (p, [], w) (p', tr', w') ->
  p' <> Panic /\ Forall (fun e => ~ illegal_reply e) tr'.
Proof.
  intros Hp Hok Hr. apply (wp_sound Q) in Hr as (Hwp & _ & _ & Hl).
  - split; [|done]. by intros ->.
  - split_and!; [done | apply valid_nil | done | constructor].
Qed.

(** A finished run of a program with a proved postcondition meets it. *)
Lemma wp_run {A} (Q : A -> trace -> Prop) p tr w a tr' w' :
  wp p tr Q -> world_ok w -> valid tr w -> Forall (fun e => ~ illegal_reply e) tr ->
  rtc step (p, tr, w) (Ret a, tr', w') -> Q a tr'.
Proof.
  intros Hp Hok Hv Hl Hr. apply (wp_sound Q) in Hr as [HQ _]; [done|]. by split_and!.
Qed.

End Soundness.

(** ** Pools: programs running side by side over one database *)
Definition pool `{E : CratestackErrors} (A : Type) : Type := (list (prog A * trace) * world)%type.

Inductive pool_step `{E : CratestackErrors} `{B : !Backend} {A} : pool A -> pool A -> Prop :=
| pool_env ps w w' : evolves w w' -> world_ok w' -> pool_step (ps, w) (ps, w')
| pool_call ps i R (c : call R) k tr w r w' :
    ps !! i = Some (Call c k, tr) -> exec R c w r w' ->
    pool_step (ps, w) (<[i := (k r, Ev c r :: tr)]> ps, w').

(** [1] for an accepted update of version [v] of row [id] of table [t]. *)
Definition win `{E : CratestackErrors} (t : tbl) (id : text) (v : Z) (e : event) : nat :=
  match e with
  | Ev c r =>
      match c in call R return R -> nat with
      | Update t' id' _ v' => fun r =>
          if bool_decide (t' = t /\ id' = id /\ v' = v) && is_ok r then 1 else 0
      | _ => fun _ => 0
      end r
  end%nat.

Definition wins `{E : CratestackErrors} (t : tbl) (id : text) (v : Z) (tr : trace) : nat :=
  sum_list_with (win t id v) tr.

Definition pool_wins `{E : CratestackErrors} {A} (t : tbl) (id : text) (v : Z)
  (ps : list (prog A * trace)) : nat :=
  sum_list_with (fun x => wins t id v x.2) ps.

Section Pools.

Context `{E : CratestackErrors} `{B : !Backend}.

(** Each member keeps to its own postcondition. *)
Definition pool_safe {A} (Q : nat -> A -> trace -> Prop) (x : pool A) : Prop :=
  world_ok x.2 /\ forall i p tr, x.1 !! i = Some (p, tr) -> safe (Q i) (p, tr, x.2).

Lemma pool_safe_step {A} (Q : nat -> A -> trace -> Prop) x y :
  pool_step x y -> pool_safe Q x -> pool_safe Q y.
Proof.
  intros Hs. destruct Hs as [ps w w' Hev Hok'|ps i R c k tr w r w' Hi Hx]; intros [Hok Hps]; cbn in *.
  - split; [done|]. intros i p tr Hp. cbn in Hp.
    eapply safe_step; [by apply step_env | by eapply Hps].
  - destruct (Hps _ _ _ Hi) as ([Hc _] & _).
    destruct (exec_evolves _ _ _ _ _ (call_ok_cache _ _ Hc) Hok Hx) as [Hev Hok']. split; [done|].
    intros j p tr' Hj. cbn in Hj. apply list_lookup_insert_Some in Hj.
    destruct Hj as [(<- & [= <- <-] & _)|[_ Hj]].
    + eapply safe_step; [by apply step_call | by eapply Hps].
    + eapply safe_step; [by apply (step_env p tr' w w') | by eapply Hps].
Qed.

Lemma pool_sound {A} (Q : nat -> A -> trace -> Prop) x y :
  rtc pool_step x y -> pool_safe Q x -> pool_safe Q y.
Proof.
  induction 1 as [|x y z Hs _ IH]; [done|]. intros Hx. by apply IH, (pool_safe_step Q x y).
Qed.

Lemma sum_list_with_insert {X} (f : X -> nat) l i x y :
  l !! i = Some x -> (sum_list_with f (<[i := y]> l) + f x = sum_list_with f l + f y)%nat.
Proof.
  revert i. induction l as [|z l IH]; intros [|i] Hi; simpl in *; [done|done| |].
  - injection Hi as ->. lia.
  - specialize (IH i Hi). lia.
Qed.

(** Once a version is taken, no stored row has it any more. *)
Definition taken {A} (t : tbl) (id : text) (v : Z) (x : pool A) : Prop :=
  rows_ok x.2 /\
  (pool_wins t id v x.1 = 0%nat \/
   (pool_wins t id v x.1 = 1%nat /\ versioned t = true /\ id ∈ w_used x.2 t /\
    forall cur, w_tables x.2 t !! id = Some cur -> v < row_version t cur)).

Lemma taken_later w w' t id v :
  versioned t = true -> evolves w w' -> id ∈ w_used w t ->
  (forall cur, w_tables w t !! id = Some cur -> v < row_version t cur) ->
  id ∈ w_used w' t /\ forall cur, w_tables w' t !! id = Some cur -> v < row_version t cur.
Proof.
  intros Ht Hev Hu Hlt. destruct (Hev t) as [Hsub Hrows]. split; [by apply Hsub|].
  intros cur [Hn|(a & Ha & Hl)]%Hrows; [done|]. specialize (Hlt _ Ha).
  destruct Hl as [->|[Hl _]]; [done|]. specialize (Hl Ht). lia.
Qed.

Lemma win_inv R (c : call R) (r : R) t id v :
  win t id v (Ev c r) = 0%nat \/
  (win t id v (Ev c r) = 1%nat /\ versioned t = true /\
   forall w w', rows_ok w -> exec R c w r w' ->
     exists a b, w_tables w t !! id = Some a /\ row_version t a = v /\
       w_tables w' t !! id = Some b /\ row_version t b = v + 1).
Proof.
  destruct c as [| | | |t' id' p v'| | | | | | | | | | | | |]; try (by left). cbn.
  destruct (bool_decide_reflect (t' = t /\ id' = id /\ v' = v)) as [(-> & -> & ->)|Hne]; [|by left].
  destruct r as [b|e]; [|by left]. right. split; [done|]. split; [by apply patch_versioned|].
  intros w w' Hok Hx. apply exec_Update in Hx as (a & now & clock & Ha & Hv & Hc & Hw & _).
  destruct (commit_facts _ _ _ _ _ _ Hc) as (Hid & Hver & _). destruct (Hok _ _ _ Ha) as [Hida _].
  exists a, b. split; [done|]. split; [done|]. split; [|lia].
  rewrite (written_row _ _ _ _ Hw), Hid, Hida. apply lookup_insert_eq.
Qed.

Lemma taken_step {A} t id v (x y : pool A) : pool_step x y -> taken t id v x -> taken t id v y.
Proof.
  intros Hs. destruct Hs as [ps w w' Hev Hok'|ps i R c k tr w r w' Hi Hx]; intros [Hok Hw]; unfold taken in *; cbn [fst snd] in *.
  - split; [apply Hok'|]. destruct Hw as [Hw|(Hw & Ht & Hu & Hlt)]; [by left|]. right.
    split; [done|]. split; [done|]. by eapply taken_later.
  - destruct (exec_rows _ _ _ _ _ Hok Hx) as (Hev & Hok' & _). split; [done|].
    pose proof (sum_list_with_insert (fun x => wins t id v x.2) ps i _ (k r, Ev c r :: tr) Hi) as Hsum.
    fold (pool_wins t id v ps) in Hsum.
    fold (pool_wins t id v (<[i := (k r, Ev c r :: tr)]> ps)) in Hsum.
    cbn [snd] in Hsum. unfold wins in Hsum at 2. cbn [sum_list_with] in Hsum.
    fold (wins t id v tr) in Hsum.
    destruct (win_inv _ c r t id v) as [H0|(H1 & Ht & Hwin)].
    + assert (pool_wins t id v (<[i := (k r, Ev c r :: tr)]> ps) = pool_wins t id v ps) as -> by lia.
      destruct Hw as [Hw|(Hw & Ht & Hu & Hlt)]; [by left|]. right. split; [done|].
      split; [done|]. by eapply taken_later.
    + destruct (Hwin _ _ Hok Hx) as (a & b & Ha & Hva & Hb & Hvb).
      destruct Hw as [Hw|(_ & _ & _ & Hlt)]; [|specialize (Hlt _ Ha); lia].
      right. split; [lia|]. split; [done|]. split; [by eapply Hok'|].
      intros cur Hc. rewrite Hb in Hc. injection Hc as <-. lia.
Qed.

Lemma pool_taken {A} t id v (x y : pool A) : rtc pool_step x y -> taken t id v x -> taken t id v y.
Proof. induction 1 as [|x y z Hs _ IH]; [done|]. intros Hx. by apply IH, (taken_step t id v x y). Qed.

End Pools.
