(* ===== verification/DbReads.v ===== *)
(** * Programs that only read, and what they cannot miss

    A [reader] neither writes nor leaves the process.  [seen] is the converse
    of what a query promises: while a row stays stored, no query that selects
    it comes back empty. *)

From S2P Require Import Prelude Schema ApiSchema Errors Db DbLogic.

Section Readers.

Context `{E : CratestackErrors}.

(** Calls that neither write nor leave the process. *)
Definition read_call {R} (c : call R) : bool :=
  match c with
  | FindMany _ _ | FindPage _ _ _ | Now | Random | Count _ _ | CacheGet _ _ | CachePut _ _ _ | NewUuid
  | RandomBytes _ => true
  | _ => false
  end.

Fixpoint reader {A} (p : prog A) : Prop :=
  match p with
  | Ret _ | Panic => True
  | Call c k => read_call c = true /\ forall r, reader (k r)
  end.

Lemma reader_bind {A B} (p : prog A) (f : A -> prog B) :
  reader p -> (forall a, reader (f a)) -> reader (pbind p f).
Proof.
  intros Hp Hf. induction p as [a| |R c k IH]; cbn in *; [done | done |].
  destruct Hp as [Hc Hk]. split; [done|]. intros r. by apply IH.
Qed.

Lemma reader_bind_ok {A B X} (p : prog (result A X)) (f : A -> prog (result B X)) :
  reader p -> (forall a, reader (f a)) -> reader (pbind_ok p f).
Proof. intros Hp Hf. apply reader_bind; [done|]. by intros []. Qed.

(** What a reader adds to the trace is read-only. *)
Lemma wp_reader {A} (p : prog A) tr Q :
  reader p -> wp p tr Q ->
  wp p tr (fun a tr' => Q a tr' /\ exists l, tr' = l ++ tr /\ Forall read_only l).
Proof.
  revert tr. induction p as [a| |R c k IH]; intros tr; cbn; [|done|].
  - intros _ HQ. split; [done|]. exists []. by split.
  - intros [Hc Hr] [Hok Hk]. split; [done|]. intros r Hrep.
    eapply wp_mono; [|by apply IH; [apply Hr | apply Hk]].
    intros a tr' [HQ (l & -> & Hl)]. split; [done|]. exists (l ++ [Ev c r]).
    rewrite <- (assoc_L (++)). split; [done|]. apply Forall_app. split; [done|].
    constructor; [|done]. by destruct c.
Qed.

(** A reading step of a function: what it guarantees, and that it only read. *)
Lemma wp_read_ok {A B X} (p : prog (result A X)) (f : A -> prog (result B X)) tr
  (P : result A X -> trace -> Prop) Q :
  reader p -> wp p tr P ->
  (forall e l, Forall read_only l -> Q (Err e) (l ++ tr)) ->
  (forall a l, Forall read_only l -> P (Ok a) (l ++ tr) -> wp (f a) (l ++ tr) Q) ->
  wp (pbind_ok p f) tr Q.
Proof.
  intros Hr Hp He Hf. apply wp_ok_bind. eapply wp_mono; [|by apply wp_reader].
  intros [a|e] tr' [HP (l & -> & Hl)]; [by apply Hf | by apply He].
Qed.

(** What a trace tried to store in a table, latest first. *)
Definition create_of (t : tbl) (e : event) : list (create_input t) :=
  match e with
  | Ev c _ =>
      match c with
      | Create t' i =>
          match decide (t' = t) with
          | left eq => [eq_rect t' create_input i t eq]
          | right _ => []
          end
      | _ => []
      end
  end.

Definition creates (t : tbl) (tr : trace) : list (create_input t) := tr ≫= create_of t.

Lemma creates_same t i r tr : creates t (Ev (Create t i) r :: tr) = i :: creates t tr.
Proof.
  unfold creates. rewrite bind_cons. cbn [create_of]. destruct (decide (t = t)) as [e|]; [|done].
  by rewrite (Eqdep_dec.UIP_dec tbl_eq_dec e eq_refl).
Qed.

Lemma creates_skip t e tr : create_of t e = [] -> creates t (e :: tr) = creates t tr.
Proof. intros He. unfold creates. by rewrite bind_cons, He. Qed.

Lemma creates_app t l tr : creates t (l ++ tr) = creates t l ++ creates t tr.
Proof. apply bind_app. Qed.

Lemma creates_reads t l : Forall read_only l -> creates t l = [].
Proof.
  induction 1 as [|[R c r] l Hx _ IH]; [done|]. unfold creates. rewrite bind_cons. fold (creates t l).
  rewrite IH, app_nil_r. by destruct c.
Qed.

Lemma creates_app_reads t l tr : Forall read_only l -> creates t (l ++ tr) = creates t tr.
Proof. intros Hl. by rewrite creates_app, creates_reads. Qed.

(** [find_many().…limit(1).run().await?.into_iter().next()]. *)
Definition first_row {t} (q : query t) : prog (result (option (row t)) CratestackError) :=
  let!? rows := do (FindMany t q) in Ret (Ok (head rows)).

Lemma wp_first_row {t} (q : query t) tr Q :
  (forall x rows, q_where q x = true -> row_wf t x = true ->
     known (Ev (FindMany t q) (Ok rows) :: tr) t x ->
     Q (Ok (Some x)) (Ev (FindMany t q) (Ok rows) :: tr)) ->
  (Q (Ok None) (Ev (FindMany t q) (Ok []) :: tr)) ->
  (forall e, Q (Err e) (Ev (FindMany t q) (Err e) :: tr)) ->
  wp (first_row q) tr Q.
Proof.
  intros Hs Hn He. unfold first_row. apply wp_find_wf; [|done].
  intros [|x rows] Hw _ _; cbn [wp head]; [apply Hn|].
  apply Forall_cons in Hw as [[Hx Hwf] _]. apply Hs; [done | done|]. apply known_find. by left.
Qed.

Lemma first_row_reader {t} (q : query t) : reader (first_row q).
Proof. apply reader_bind_ok; [|done]. by split. Qed.

Definition ok_or {A} (o : option A) (e : CratestackError) : result A CratestackError :=
  match o with Some a => Ok a | None => Err e end.

(** [.ok_or_else(…)?] on it. *)
Definition first_or {t} (q : query t) (e : CratestackError) : prog (result (row t) CratestackError) :=
  let!? found := first_row q in Ret (ok_or found e).

Lemma wp_first_or {t} (q : query t) e tr Q :
  (forall x rows, q_where q x = true -> row_wf t x = true ->
     known (Ev (FindMany t q) (Ok rows) :: tr) t x ->
     Q (Ok x) (Ev (FindMany t q) (Ok rows) :: tr)) ->
  (forall e rows, Q (Err e) (Ev (FindMany t q) rows :: tr)) ->
  wp (first_or q e) tr Q.
Proof.
  intros Hs He. unfold first_or. apply wp_ok_bind, wp_first_row; cbn [wp ok_or]; [done | |done].
  apply He.
Qed.

Lemma first_or_reader {t} (q : query t) e : reader (first_or q e).
Proof. apply reader_bind_ok; [apply first_row_reader | done]. Qed.

End Readers.

#[export] Hint Resolve reader_bind reader_bind_ok first_row_reader first_or_reader : vsms.

(** Walks a reader whose calls are visible. *)
Ltac solve_reader :=
  repeat first
    [ progress intros
    | apply reader_bind
    | apply reader_bind_ok
    | match goal with
      | |- reader (@first_row _ ?t ?q) => exact (@first_row_reader _ t q)
      | |- reader (@first_or _ ?t ?q ?e) => exact (@first_or_reader _ t q e)
      end
    | progress cbn [reader do pbind read_call lift]
    | match goal with |- _ /\ _ => split end
    | case_match
    | done ].

(** ** What stays stored is seen *)
Section Seen.

Context `{E : CratestackErrors} `{B : !Backend}.

Definition stored (t : tbl) (x : row t) (w : world) : Prop :=
  w_tables w t !! row_id t x = Some x.

(** A run in every state of which the row is stored. *)
Definition step_with {A} (t : tbl) (x : row t) (a b : config A) : Prop :=
  step a b /\ stored t x a.2 /\ stored t x b.2.

(** A query that should have found the row and came back empty. *)
Definition selects (t : tbl) (x : row t) (t' : tbl) (q : query t') : Prop :=
  (exists e : t' = t, q_where (eq_rect t' query q t e) x = true) /\
  forall n, q_limit q = Some n -> 0 < n.

Definition misses (t : tbl) (x : row t) (e : event) : Prop :=
  match e with
  | Ev c r =>
      match c in call R return R -> Prop with
      | FindMany t' q => fun r => r = Ok [] /\ selects t x t' q
      | _ => fun _ => False
      end r
  end.

Lemma step_with_step {A} t x (a b : config A) : rtc (step_with t x) a b -> rtc step a b.
Proof. apply rtc_subrel. by intros ?? (? & _). Qed.

Lemma seen_steps {A} t x (a b : config A) :
  row_wf t x = true -> rtc (step_with t x) a b ->
  Forall (fun e => ~ misses t x e) a.1.2 -> Forall (fun e => ~ misses t x e) b.1.2.
Proof.
  intros Hwf. induction 1 as [|a b c (Hs & Ha & _) _ IH]; [done|]. intros Hno. apply IH. clear IH.
  destruct Hs as [q tr w w' _ _|R cl k tr w r w' Hx]; [done|]. cbn in *. constructor; [|done].
  destruct cl; try (by intros []). intros [-> [[<- Hq] Hn]]. cbn [eq_rect] in Hq.
  by apply (exec_FindMany_complete _ _ _ _ _ _ Hx Ha Hq Hwf Hn).
Qed.

Lemma seen {A} t x (p p' : prog A) w w' tr e :
  row_wf t x = true -> rtc (step_with t x) (p, [], w) (p', tr, w') -> e ∈ tr -> ~ misses t x e.
Proof.
  intros Hwf Hrun He. pose proof (seen_steps t x _ _ Hwf Hrun (Forall_nil_2 _)) as Hf.
  cbn in Hf. rewrite Forall_forall in Hf. by apply Hf.
Qed.

End Seen.
