(* ===== verification/DbRef.v ===== *)
(** * A reference database

    An executable database that satisfies the laws of [Backend]: the witness
    that those laws can hold together, and what the examples run on.  The
    outside world (clock, draw, provider, webhook receiver) is a fixed
    oracle; what is put in a cache is not kept. *)

From S2P Require Import Prelude Float64 ProviderApi Schema ApiSchema Errors Sql Db DbLogic.

#[local] Existing Instance demo_errors.

Record oracle := mkOracle {
  o_now : Z;
  o_random : f64;
  o_submit : text -> SubmitRequest -> result SubmitAck ProviderError;
  o_seal : text -> text -> text -> result SealedDelivery text;
  o_post : HttpRequest -> result Z text;
  o_raw : forall R, sql R -> result R SqlError }.

Definition set_table (f : forall t, gmap text (row t)) (t : tbl) (m : gmap text (row t))
  : forall t, gmap text (row t) :=
  fun t' => match decide (t = t') with
            | left e => eq_rect t (fun t => gmap text (row t)) m t' e
            | right _ => f t'
            end.

Definition set_used (f : tbl -> gset text) (t : tbl) (s : gset text) : tbl -> gset text :=
  fun t' => if decide (t = t') then s else f t'.

Definition put (w : world) (t : tbl) (r : row t) : world :=
  mkWorld (set_table (w_tables w) t (<[row_id t r := r]> (w_tables w t))) (w_used w)
    (w_cache w).

Definition select (w : world) (t : tbl) (q : query t) : list (row t) :=
  let rows := (List.filter (fun kr => bool_decide (row_id t kr.2 = kr.1) && q_where q kr.2
                                     && row_wf t kr.2)
                 (map_to_list (w_tables w t))).*2 in
  match q_limit q with
  | Some n => take (Z.to_nat n) rows
  | None => rows
  end.

(** A page: the rows in the order the tables list them. *)
Definition ref_listing (w : world) (t : tbl) (q : query t) : list (row t) :=
  select w t (mkQuery (q_where q) (q_order q) None).

Definition ref_page (w : world) (t : tbl) (q : query t) (offset : Z) : list (row t) :=
  match q_limit q with Some n => take (Z.to_nat n) | None => id end
    (drop (Z.to_nat offset) (ref_listing w t q)).

Definition ref_update (o : oracle) (w : world) (t : tbl) (id : text) (p : patch t) (v : Z)
  : result (row t) DemoError * world :=
  match w_tables w t !! id with
  | None => (Err (DForbidden (lit "no such row")), w)
  | Some a =>
      if row_version t a =? v then
        match commit t (o_now o) (o_now o) p a with
        | Some b =>
            if row_wf t b then (Ok b, put w t b)
            else (Err (DDatabase CHECK_VIOLATION (lit "check violation")), w)
        | None => (Err (DDatabase SM001 (lit "illegal transition")), w)
        end
      else (Err (DPreconditionFailed (lit "version mismatch")), w)
  end.

Definition ref_overwrite (o : oracle) (w : world) (t : tbl) (id : text) (p : overwrite t)
  : result (row t) DemoError * world :=
  match w_tables w t !! id with
  | None => (Err (DForbidden (lit "no such row")), w)
  | Some a =>
      match commit_overwrite t (o_now o) p a with
      | Some b => (Ok b, put w t b)
      | None => (Err (DDatabase SM001 (lit "illegal transition")), w)
      end
  end.

(** Whether a UNIQUE index keeps [r] out. *)
Definition clashes (w : world) (t : tbl) (r : row t) : bool :=
  existsb (fun kr => conflicts t kr.2 r) (map_to_list (w_tables w t)).

Definition count_rows (w : world) (t : tbl) (f : row t -> bool) : Z :=
  Z.of_nat (length (List.filter (fun kr => f kr.2) (map_to_list (w_tables w t)))).

Definition demo_uuid : text := lit "00000000000040008000000000000000".

(** The oracle's clock, kept in the range of a clock. *)
Definition clock_in (t : Z) : Z := Z.max 0 (Z.min t (CLOCK_END - 1)).

(** A provider of the oracle asks for a bounded delay. *)
Definition retry_in (r : result SubmitAck ProviderError) : result SubmitAck ProviderError :=
  match r with
  | Err (Transient d m) => Err (Transient (Z.max 0 (Z.min d RETRY_AFTER_MAX)) m)
  | r => r
  end.

(** Every call but a transaction. *)
Definition ref_call (o : oracle) {R} (c : call R) (w : world) : R * world :=
  match c in call R return R * world with
  | Now => (clock_in (o_now o), w)
  | Random => (o_random o, w)
  | FindMany t q => (Ok (select w t q), w)
  | FindPage t q offset => (Ok (ref_page w t q offset), w)
  | Update t id p v => ref_update o w t id p v
  | Create t c =>
      let id := fresh (w_used w t) in
      let r := created t id (o_now o) c in
      if clashes w t r then (Err (DDatabase UNIQUE_VIOLATION (lit "duplicate key")), w)
      else (Ok r, mkWorld (w_tables (put w t r)) (set_used (w_used w) t ({[id]} ∪ w_used w t)) (w_cache w))
  | Delete t id =>
      match w_tables w t !! id with
      | Some r =>
          (Ok r, mkWorld (set_table (w_tables w) t (delete id (w_tables w t))) (w_used w) (w_cache w))
      | None => (Err (DForbidden (lit "no such row")), w)
      end
  | Count t f => (Ok (count_rows w t f), w)
  | Overwrite t id p => ref_overwrite o w t id p
  | Tx _ => (Err (DInternal []), w)
  | CacheGet c k => (w_cache w c k, w)
  | CachePut _ _ _ => (tt, w)
  | NewUuid => (demo_uuid, w)
  | RandomBytes n => (repeat 7 n, w)
  | Submit k q => (retry_in (o_submit o k q), w)
  | Seal a u b => (o_seal o a u b, w)
  | Post q => (o_post o q, w)
  | Raw q => (o_raw o _ q, w)
  end.

Fixpoint ref_txn (o : oracle) {A} (body : txn A) (w : world) : A * world :=
  match body with
  | TRet a => (a, w)
  | TCall c k => let '(r, w') := ref_call o (of_tcall c) w in ref_txn o (k r) w'
  end.

Definition ref_exec (o : oracle) {R} (c : call R) (w : world) : R * world :=
  match c in call R return R * world with
  | Tx body => let '(r, w') := ref_txn o body w in (r, if is_ok r then w' else w)
  | c => ref_call o c w
  end.

Lemma set_table_eq f t m : set_table f t m t = m.
Proof.
  unfold set_table. destruct (decide (t = t)) as [e|]; [|done].
  by rewrite (Eqdep_dec.UIP_dec tbl_eq_dec e eq_refl).
Qed.

Lemma set_table_ne f t t' m : t' <> t -> set_table f t m t' = f t'.
Proof. intros Hne. unfold set_table. by destruct (decide (t = t')) as [->|]. Qed.

Lemma put_written w t r : written w t r (put w t r).
Proof. split; cbn; [apply set_table_eq | intros; by apply set_table_ne | done]. Qed.

Lemma select_spec w t q :
  Forall (fun x => w_tables w t !! row_id t x = Some x /\ q_where q x = true /\ row_wf t x = true)
    (select w t q) /\
  NoDup (row_id t <$> select w t q) /\
  (forall n, q_limit q = Some n -> Z.of_nat (length (select w t q)) <= Z.max 0 n).
Proof.
  unfold select.
  set (l := List.filter _ _). set (rows := l.*2).
  assert (Forall (fun x => w_tables w t !! row_id t x = Some x /\ q_where q x = true /\
                           row_wf t x = true) rows) as Hf.
  { apply Forall_forall. intros x Hx. apply list_elem_of_fmap in Hx as ([k r] & -> & Hin).
    apply list_elem_of_In, List.filter_In in Hin as [Hin Hb]. apply andb_true_iff in Hb as [[Hb Hw]%andb_true_iff Hwf].
    apply bool_decide_eq_true in Hb. cbn in *. subst k. split; [|done].
    apply elem_of_map_to_list. by apply list_elem_of_In. }
  assert (NoDup (row_id t <$> rows)) as Hn.
  { assert (row_id t <$> rows = l.*1) as ->.
    { unfold rows. rewrite <- list_fmap_compose. apply list_fmap_ext. intros i [k r] Hi.
      apply list_elem_of_lookup_2, list_elem_of_In, List.filter_In in Hi as [_ Hb].
      apply andb_true_iff in Hb as [[Hb _]%andb_true_iff _]. by apply bool_decide_eq_true in Hb. }
    apply filter_NoDup_fmap, NoDup_fst_map_to_list. }
  destruct (q_limit q) as [n|]; [|by split_and!].
  split; [by apply Forall_take|]. split.
  - rewrite fmap_take. by eapply sublist_NoDup; [|apply sublist_take].
  - intros n' [= <-]. rewrite length_take. lia.
Qed.

Lemma select_complete w t q x :
  w_tables w t !! row_id t x = Some x -> q_where q x = true -> row_wf t x = true ->
  (forall n, q_limit q = Some n -> 0 < n) -> select w t q <> [].
Proof.
  intros Hx Hw Hwf Hn. unfold select. set (rows := _.*2).
  assert (rows <> []) as Hne.
  { intros Hr. apply (not_elem_of_nil x). rewrite <- Hr. apply list_elem_of_fmap.
    exists (row_id t x, x). split; [done|]. apply list_elem_of_In, List.filter_In. cbn [fst snd].
    split; [by apply list_elem_of_In, elem_of_map_to_list|].
    by rewrite bool_decide_eq_true_2, Hw, Hwf. }
  destruct (q_limit q) as [n|]; [|done]. specialize (Hn n eq_refl).
  destruct rows as [|y rows]; [done|]. by destruct (Z.to_nat n) eqn:He; [lia|].
Qed.

Lemma select_all w t q x :
  w_tables w t !! row_id t x = Some x -> q_where q x = true -> row_wf t x = true ->
  q_limit q = None -> x ∈ select w t q.
Proof.
  intros Hx Hw Hwf Hl. unfold select. rewrite Hl. apply list_elem_of_fmap.
  exists (row_id t x, x). split; [done|]. apply list_elem_of_In, List.filter_In. cbn [fst snd].
  split; [by apply list_elem_of_In, elem_of_map_to_list|].
  by rewrite bool_decide_eq_true_2, Hw, Hwf.
Qed.

Lemma ref_listing_rows w t q x : rows_ok w ->
  x ∈ ref_listing w t q <-> w_tables w t !! row_id t x = Some x /\ q_where q x = true /\ row_wf t x = true.
Proof.
  intros _. unfold ref_listing. split.
  - intros Hx. destruct (select_spec w t (mkQuery (q_where q) (q_order q) None)) as [Hf _].
    rewrite Forall_forall in Hf. by apply Hf.
  - intros (Hx & Hw & Hwf). by apply select_all.
Qed.

Lemma ref_update_spec o w t id p v :
  match ref_update o w t id p v with
  | (Ok b, w') => exists a now clock, w_tables w t !! id = Some a /\ row_version t a = v /\
      commit t now clock p a = Some b /\ written w t b w' /\ w_used w' = w_used w
  | (Err e, w') => w' = w /\ (db_sqlstate e = Some SM001 ->
      exists a now clock, w_tables w t !! id = Some a /\ row_version t a = v /\
        commit t now clock p a = None)
  end.
Proof.
  unfold ref_update. destruct (w_tables w t !! id) as [a|] eqn:Ha; [|done].
  destruct (Z.eqb_spec (row_version t a) v) as [Hv|]; [|done].
  destruct (commit t (o_now o) (o_now o) p a) as [b|] eqn:Hc.
  - destruct (row_wf t b); [|done]. exists a, (o_now o), (o_now o). split_and!; [done | done | done | apply put_written | done].
  - split; [done|]. intros _. by exists a, (o_now o), (o_now o).
Qed.

Lemma ref_exec_statement o {R} (c : tcall R) w : ref_exec o (of_tcall c) w = ref_call o (of_tcall c) w.
Proof. by destruct c. Qed.

Lemma ref_txn_run o {A} (body : txn A) w :
  txrun (fun R c w r w' => ref_exec o (of_tcall c) w = (r, w')) body w
    (ref_txn o body w).1 (ref_txn o body w).2.
Proof.
  revert w. induction body as [a|R c k IH]; intros w; cbn; [constructor|].
  destruct (ref_call o (of_tcall c) w) as [r w1] eqn:Hx. econstructor; [|apply IH].
  by rewrite ref_exec_statement.
Qed.

Definition ref_backend (o : oracle) : Backend.
Proof.
  refine {| exec R c w r w' := ref_exec o c w = (r, w'); listing := ref_listing |}; cbn [ref_exec ref_call].
  - by intros w r w' [= <- <-].
  - intros w r w' [= <- <-]. unfold clock_in, CLOCK_END. lia.
  - by intros w r w' [= <- <-].
  - intros k q w r w' [= <- <-]. split; [done|]. destruct (o_submit o k q) as [|[]]; try done.
    cbn. unfold RETRY_AFTER_MAX. change (hours 1) with 3600000000. lia.
  - by intros a u b w r w' [= <- <-].
  - by intros q w r w' [= <- <-].
  - intros R q w r w' Hx. by injection Hx as <- <-.
  - intros t q w r w' [= <- <-]. split; [done|]. intros rows [= <-]. apply select_spec.
  - by intros t q w e w' [= ].
  - intros t q w rows w' x [= <- <-]. apply select_complete.
  - intros t q w rows w' x [= <- <-]. apply select_all.
  - apply ref_listing_rows.
  - intros t q offset w r w' [= <- <-]. split; [done|]. by intros rows [= <-] _.
  - intros t f w r w' [= <- <-]. split; [done|]. by intros n [= <-].
  - intros c k w r w' [= <- <-]. by auto.
  - intros c k v w r w' [= <- <-]. by auto.
  - by intros w r w' [= <- <-].
  - intros n w r w' [= <- <-]. split; [done|]. split; [apply repeat_length|].
    induction n; cbn; constructor; [lia | done].
  - intros t id p w r w'. unfold ref_overwrite.
    destruct (w_tables w t !! id) as [a|]; [|intros [= <- <-]; by left].
    destruct (commit_overwrite t (o_now o) p a) as [b|] eqn:Hc; intros [= <- <-]; [|by left].
    right. exists a, b, (o_now o). split_and!; [done | done | apply put_written | done |].
    by intros b' [= <-].
  - intros A body w r w' Hx. pose proof (ref_txn_run o body w) as Hr.
    destruct (ref_txn o body w) as [r0 w1]. injection Hx as <- <-. left. exists r0, w1.
    split; [exact Hr|]. destruct r0 as [a|e]; cbn [is_ok]; [by left | done].
  - intros t id p v w r w' Hx. pose proof (ref_update_spec o w t id p v) as Hs. rewrite Hx in Hs.
    destruct r; [done | by left].
  - intros t id p v w b w'. unfold ref_update. destruct (w_tables w t !! id) as [a|]; [|done].
    destruct (row_version t a =? v); [|done].
    destruct (commit t (o_now o) (o_now o) p a) as [b'|]; [|done].
    destruct (row_wf t b') eqn:Hwf; [|done]. by intros [= <- <-].
  - intros t c w e w' Hx _ _. destruct (clashes w t (created t _ _ c)) eqn:Hc; [|done].
    unfold clashes in Hc. apply existsb_exists in Hc as ([id x] & Hin & Hcf).
    exists id, x. eexists _, _. split; [by apply elem_of_map_to_list, list_elem_of_In | exact Hcf].
  - intros t c w e w'. destruct (clashes w t (created t _ _ c)); [|done]. by intros [= <- <-].
  - intros t c w r w'. destruct (clashes w t (created t _ _ c)) eqn:Hc; [intros [= <- <-]; by left|].
    intros [= <- <-]. right. eexists (fresh _), _. split_and!.
    + apply is_fresh.
    + split; cbn; [apply set_table_eq | intros; by apply set_table_ne | done].
    + by intros b [= <-].
    + unfold set_used. cbn. by rewrite decide_True.
    + intros t' Hne. unfold set_used. cbn. by rewrite decide_False.
    + intros id x Hx. unfold clashes in Hc. destruct (conflicts t x _) eqn:Hcf; [|done].
      rewrite <- Hc. symmetry. apply existsb_exists. exists (id, x).
      split; [by apply list_elem_of_In, elem_of_map_to_list | exact Hcf].
  - intros t id w r w'. destruct (w_tables w t !! id) as [a|]; intros [= <- <-]; [|by left].
    right. cbn. split; [apply set_table_eq|]. split; [intros; by apply set_table_ne | done].
  - intros t id w b w'. destruct (w_tables w t !! id) as [a|]; [|done]. intros [= <- <-]. cbn.
    split; [done | apply set_table_eq].
Defined.

(** Running a program to its end, undisturbed. *)
Fixpoint ref_run (o : oracle) {A} (p : prog A) (tr : trace) (w : world) : config A :=
  match p with
  | Ret a => (Ret a, tr, w)
  | Panic => (Panic, tr, w)
  | Call c k => let '(r, w') := ref_exec o c w in ref_run o (k r) (Ev c r :: tr) w'
  end.

Lemma ref_run_steps o {A} (p : prog A) tr w :
  rtc (@step _ (ref_backend o) A) (p, tr, w) (ref_run o p tr w).
Proof.
  revert tr w. induction p as [a| |R c k IH]; intros tr w; cbn; [apply rtc_refl|apply rtc_refl|].
  destruct (ref_exec o c w) as [r w'] eqn:Hx. eapply rtc_l; [|apply IH]. by apply step_call.
Qed.

(** The result, trace and database of such a run. *)
Definition run_result {A} (x : config A) : option A :=
  match x.1.1 with Ret a => Some a | _ => None end.

Definition run_trace {A} (x : config A) : trace := x.1.2.

Lemma ref_run_config o {A} (p : prog A) tr w :
  rtc (@step _ (ref_backend o) A) (p, tr, w)
    ((ref_run o p tr w).1.1, (ref_run o p tr w).1.2, (ref_run o p tr w).2).
Proof. pose proof (ref_run_steps o p tr w) as Hs. by destruct (ref_run o p tr w) as [[q tr'] w']. Qed.

Lemma ref_run_done o {A} (p : prog A) tr w a :
  run_result (ref_run o p tr w) = Some a ->
  rtc (@step _ (ref_backend o) A) (p, tr, w)
    (Ret a, run_trace (ref_run o p tr w), (ref_run o p tr w).2).
Proof.
  intros Hr. pose proof (ref_run_steps o p tr w) as Hs. unfold run_result, run_trace in *.
  destruct (ref_run o p tr w) as [[q tr'] w']. cbn in *. destruct q; [|done|done].
  by injection Hr as ->.
Qed.

(** The same, when the result itself is not to be written out. *)
Lemma ref_run_finished o {A} (p : prog A) tr w d :
  is_null (run_result (ref_run o p tr w)) = false ->
  rtc (@step _ (ref_backend o) A) (p, tr, w)
    (Ret (default d (run_result (ref_run o p tr w))), run_trace (ref_run o p tr w),
     (ref_run o p tr w).2).
Proof.
  intros Hr. apply ref_run_done. by destruct (run_result (ref_run o p tr w)).
Qed.

(** An empty database, and one with given rows. *)
Definition empty_world : world := mkWorld (fun _ => ∅) (fun _ => ∅) (fun _ _ => None).

Definition insert_row (w : world) (t : tbl) (r : row t) : world :=
  mkWorld (w_tables (put w t r)) (set_used (w_used w) t ({[row_id t r]} ∪ w_used w t)) (w_cache w).

Lemma empty_world_ok : world_ok empty_world.
Proof. split; [|done]. intros t id r. cbn. by rewrite lookup_empty. Qed.

Lemma insert_row_ok w t r : world_ok w -> world_ok (insert_row w t r).
Proof.
  intros [Hok Hca]. split; [|done]. intros t' id x. unfold insert_row, set_used, put. cbn.
  destruct (decide (t = t')) as [->|Hne].
  - rewrite set_table_eq. destruct (decide (id = row_id t' r)) as [->|Hid].
    + rewrite lookup_insert_eq. intros [= <-]. split; [done|]. apply elem_of_union_l.
      by apply elem_of_singleton.
    + rewrite lookup_insert_ne by done. intros Hx. apply Hok in Hx as [? ?].
      split; [done|]. by apply elem_of_union_r.
  - rewrite set_table_ne by done. apply Hok.
Qed.

#[export] Hint Resolve empty_world_ok insert_row_ok : vsms.

(** A trace that has just read some rows. *)
Definition read_event (w : world) (t : tbl) (q : query t) : event :=
  Ev (FindMany t q) (Ok (select w t q)).

Lemma valid_read_event (o : oracle) tr w t q : world_ok w -> valid tr w -> valid (read_event w t q :: tr) w.
Proof.
  intros Hok Hv t' m (e & [->|He]%elem_of_cons & Hm).
  - unfold read_event in Hm. cbn in Hm.
    by apply (@reply_rows_speak demo_errors (ref_backend o) _ (FindMany t q) w (Ok (select w t q)) w).
  - apply Hv. by exists e.
Qed.

Lemma known_read_event tr w t q m : m ∈ select w t q -> known (read_event w t q :: tr) t m.
Proof. apply known_find. Qed.
