(* ===== verification/Discipline.v ===== *)
(** * Programs under a discipline

    [disciplined] follows a program call by call: each call must be allowed
    given what the program has seen so far (one that panics makes no further
    call).  Where [wp] says what a program
    has done once it returns, this says what it does on the way, which is what
    an invariant of several programs side by side needs. *)

From S2P Require Import Prelude Schema ApiSchema Errors Db DbLogic DbReads DbRef.

Section Discipline.

Context `{E : CratestackErrors}.

(** What a program may call after a trace, and what it may rely on in the
    replies. *)
Variable allowed : forall R, trace -> call R -> Prop.
Variable promised : forall R, call R -> R -> Prop.

Fixpoint disciplined {A} (p : prog A) (tr : trace) (Q : A -> trace -> Prop) : Prop :=
  match p with
  | Ret a => Q a tr
  | Panic => True
  | Call c k => allowed _ tr c /\
      forall r, promised _ c r -> disciplined (k r) (Ev c r :: tr) Q
  end.

Lemma disciplined_bind {A B} (p : prog A) (f : A -> prog B) tr Q :
  disciplined p tr (fun a tr' => disciplined (f a) tr' Q) -> disciplined (pbind p f) tr Q.
Proof.
  revert tr. induction p as [a| |R c k IH]; intros tr; [done | done |]. intros [Hc Hk].
  split; [exact Hc|]. intros r Hr. apply IH, Hk, Hr.
Qed.

Lemma disciplined_ok {A B X} (p : prog (result A X)) (f : A -> prog (result B X)) tr Q :
  disciplined p tr (fun r tr' => match r with Ok a => disciplined (f a) tr' Q | Err e => Q (Err e) tr' end) ->
  disciplined (pbind_ok p f) tr Q.
Proof.
  intros Hp. apply disciplined_bind. revert tr Hp.
  assert (forall (q : prog (result A X)) tr, disciplined q tr (fun r tr' =>
      match r with Ok a => disciplined (f a) tr' Q | Err e => Q (Err e) tr' end) ->
    disciplined q tr (fun r tr' => disciplined (match r with Ok a => f a | Err e => Ret (Err e) end) tr' Q)) as H.
  { induction q as [[a|e]| |R c k IH]; intros tr; [done | done | done|]. intros [Hc Hk]. split; [done|].
    intros r Hr. by apply IH, Hk. }
  apply H.
Qed.

Lemma disciplined_mono {A} (p : prog A) tr (Q Q' : A -> trace -> Prop) :
  (forall a tr', Q a tr' -> Q' a tr') -> disciplined p tr Q -> disciplined p tr Q'.
Proof.
  intros HQ. revert tr. induction p as [a| |R c k IH]; intros tr; [apply HQ | done |]. intros [Hc Hk].
  split; [exact Hc|]. intros r Hr. apply IH, Hk, Hr.
Qed.

End Discipline.

(** ** Programs side by side

    The members of a pool take turns call by call; between two calls the rest
    of the system moves as [env] allows, and only replies that satisfy
    [heard] are looked at. *)
Section Steered.

Context `{E : CratestackErrors} `{B : !Backend}.

Variable env : world -> world -> Prop.
Variable heard : forall R, call R -> R -> Prop.

Inductive steered_step {A} : pool A -> pool A -> Prop :=
| steered_env ps w w' : env w w' -> steered_step (ps, w) (ps, w')
| steered_exec ps i R (c : call R) k tr w r w' :
    ps !! i = Some (Call c k, tr) -> exec R c w r w' -> heard R c r ->
    steered_step (ps, w) (<[i := (k r, Ev c r :: tr)]> ps, w').

Definition start {A} (progs : list (prog A)) (w : world) : pool A := ((., []) <$> progs, w).

(** A rule for invariants of such pools. *)
Lemma steered_invariant {A} (I : pool A -> Prop) x y :
  (forall x y, steered_step x y -> I x -> I y) -> rtc steered_step x y -> I x -> I y.
Proof. intros Hs. induction 1 as [|x y z Hxy _ IH]; [done|]. intros Hx. eauto. Qed.

End Steered.

(** The pool under a given order of turns, against the reference database. *)
Section Turns.

#[local] Existing Instance demo_errors.

Variable o : oracle.

Fixpoint turns {A} (order : list nat) (y : pool A) : pool A :=
  match order with
  | [] => y
  | i :: rest =>
      match y.1 !! i with
      | Some (Call c k, tr) =>
          let '(r, w') := ref_exec o c y.2 in turns rest (<[i := (k r, Ev c r :: tr)]> y.1, w')
      | _ => turns rest y
      end
  end.

Lemma turns_steps env heard {A} order (y : pool A) :
  (forall R (c : call R) w, heard R c (ref_exec o c w).1) ->
  rtc (@steered_step _ (ref_backend o) env heard A) y (turns order y).
Proof.
  intros Hh. revert y. induction order as [|i order IH]; intros [ps w]; cbn [turns]; [apply rtc_refl|].
  cbn [fst snd]. destruct (ps !! i) as [[p tr]|] eqn:Hi; [|apply IH].
  destruct p as [a| |R c k]; [apply IH|apply IH|].
  pose proof (Hh R c w) as Hc. destruct (ref_exec o c w) as [r w'] eqn:Hx. eapply rtc_l; [|apply IH].
  by apply (@steered_exec _ (ref_backend o)) with (r := r) (w := w).
Qed.

End Turns.
