(* ===== verification/RelyGuarantee.v ===== *)
(** * Rely and guarantee

    A program logic for programs that share the database: every call of every
    program keeps an invariant [inv] and moves the database along a preorder
    [later] (the guarantee); between its own calls a program relies on the
    others to do the same.  What a program knows is an assertion on the
    database that such moves cannot falsify ([stable]).  [rely_sound]: in a pool of such
    programs, whatever the order of their calls, the invariant holds, the
    database has only moved along [later], and what a finished program
    promises of its answer still holds. *)

From S2P Require Import Prelude Schema ApiSchema Errors Db DbLogic DbReads DbRef Discipline.

Section RelyGuarantee.

Context `{E : CratestackErrors} `{B : !Backend}.

Variable inv : world -> Prop.
Variable later : world -> world -> Prop.
Context `{!PreOrder later}.

Definition stable (P : world -> Prop) : Prop :=
  forall w w', inv w -> inv w' -> later w w' -> P w -> P w'.

(** What one call may do: [P] before it, [P' r] after a reply [r]. *)
Definition guarantees {R} (c : call R) (P : world -> Prop) (P' : R -> world -> Prop) : Prop :=
  forall w r w', inv w -> P w -> exec R c w r w' -> inv w' /\ later w w' /\ P' r w'.

Fixpoint rely {A} (p : prog A) (P : world -> Prop) (Q : A -> world -> Prop) : Prop :=
  match p with
  | Ret a => forall w, inv w -> P w -> Q a w
  | Panic => True
  | Call c k => exists P', (forall r, stable (P' r)) /\ guarantees c P P' /\
      forall r, rely (k r) (P' r) Q
  end.

Lemma rely_weaken {A} (p : prog A) (P P' : world -> Prop) (Q : A -> world -> Prop) :
  (forall w, inv w -> P w -> P' w) -> rely p P' Q -> rely p P Q.
Proof.
  intros HP. destruct p as [a| |R c k]; [|done|].
  - intros Hq w Hi Hw. by apply Hq; [|apply HP].
  - intros (M & Hs & Hg & Hk). exists M. split_and!; [done | |done].
    intros w r w' Hi Hw. by apply Hg; [|apply HP].
Qed.

Lemma rely_bind {A C} (p : prog A) (f : A -> prog C) P (M : A -> world -> Prop) Q :
  rely p P M -> (forall a, rely (f a) (M a) Q) -> rely (pbind p f) P Q.
Proof.
  intros Hp Hf. revert P Hp. induction p as [a| |R c k IH]; intros P Hp; [|done|].
  - exact (rely_weaken _ _ _ _ Hp (Hf a)).
  - destruct Hp as (M' & Hs & Hg & Hk). exists M'. split_and!; [done | done|]. intros r. by apply IH.
Qed.

(** [?]: the error is answered as it is. *)
Lemma rely_bind_ok {A C X} (p : prog (result A X)) (f : A -> prog (result C X)) P M Q :
  rely p P M -> (forall a, rely (f a) (M (Ok a)) Q) ->
  (forall e w, inv w -> M (Err e) w -> Q (Err e) w) -> rely (pbind_ok p f) P Q.
Proof. intros Hp Hf He. apply (rely_bind _ _ _ M); [done|]. intros [a|e]; [apply Hf | exact (He e)]. Qed.

Lemma rely_do {R} (c : call R) P Q :
  (forall r, stable (Q r)) -> guarantees c P Q -> rely (do c) P Q.
Proof. intros Hs Hg. exists Q. split; [exact Hs|]. split; [exact Hg|]. by intros r w _ Hr. Qed.

Lemma rely_post {A} (p : prog A) P (Q Q' : A -> world -> Prop) :
  (forall a w, inv w -> Q a w -> Q' a w) -> rely p P Q -> rely p P Q'.
Proof.
  intros HQ. revert P. induction p as [a| |R c k IH]; intros P; [|done|].
  - intros Hq w Hi Hw. by apply HQ, Hq.
  - intros (M & Hs & Hg & Hk). exists M. split_and!; [done | done|]. intros r. by apply IH.
Qed.

(** ** Pools *)
Variable env : world -> world -> Prop.
Hypothesis env_later : forall w w', inv w -> env w w' -> inv w' /\ later w w'.

Definition settled {A} (Q : nat -> A -> world -> Prop) (w0 : world) (y : pool A) : Prop :=
  inv y.2 /\ later w0 y.2 /\
  forall i p tr, y.1 !! i = Some (p, tr) -> exists P, stable P /\ P y.2 /\ rely p P (Q i).

Lemma settled_step {A} (Q : nat -> A -> world -> Prop) w0 y z :
  steered_step env (fun _ _ _ => True) y z -> settled Q w0 y -> settled Q w0 z.
Proof.
  intros Hstep (Hi & Hl & Hps). destruct Hstep as [ps w w' He|ps i R c k tr w r w' Hp Hx _]; cbn in *.
  - apply env_later in He as [Hi' Hl']; [|done]. split_and!; [done | by etrans|]. intros i p tr Hp.
    destruct (Hps i p tr Hp) as (P & Hs & Hw & Hr). exists P. split_and!; [done | exact (Hs w w' Hi Hi' Hl' Hw) | done].
  - destruct (Hps i _ _ Hp) as (P & Hs & Hw & P' & Hs' & Hg & Hk).
    destruct (Hg w r w' Hi Hw Hx) as (Hi' & Hl' & Hr). split_and!; [done | by etrans|]. intros j q tr'.
    destruct (decide (j = i)) as [->|Hne]; cbn [fst].
    + rewrite list_lookup_insert_eq by (by eapply lookup_lt_Some). intros [= <- <-].
      exists (P' r). split_and!; [apply Hs' | done | apply Hk].
    + rewrite list_lookup_insert_ne by done. intros Hq.
      destruct (Hps j q tr' Hq) as (Pj & Hsj & Hwj & Hrj). exists Pj. split_and!; [done | exact (Hsj w w' Hi Hi' Hl' Hwj) | done].
Qed.

Lemma rely_sound {A} (progs : list (prog A)) (P : nat -> world -> Prop) (Q : nat -> A -> world -> Prop) w0 y :
  inv w0 -> (forall i, stable (P i)) -> (forall i, P i w0) ->
  (forall i p, progs !! i = Some p -> rely p (P i) (Q i)) ->
  rtc (steered_step env (fun _ _ _ => True)) (start progs w0) y ->
  inv y.2 /\ later w0 y.2 /\ forall i a tr, y.1 !! i = Some (Ret a, tr) -> Q i a y.2.
Proof.
  intros Hi Hs Hw Hp Hr.
  assert (settled Q w0 y) as (Hi' & Hl & Hps).
  { refine (steered_invariant _ _ (settled Q w0) _ _ (settled_step Q w0) Hr _).
    split_and!; [done | done|]. intros i p tr Hq. unfold start in Hq. cbn [fst] in Hq.
    apply list_lookup_fmap_Some in Hq as (p' & [= -> ->] & Hq). exists (P i). split_and!; auto. }
  split_and!; [done | done|]. intros i a tr Ha. destruct (Hps i _ _ Ha) as (M & _ & HM & Hq). by apply Hq.
Qed.

End RelyGuarantee.
