(* ===== verification/Commits.v ===== *)
(** * What an accepted update leaves in a row

    Inversion of [commit] per guarded table: which moves the guard lets
    through, and the row it leaves (the assignments, the guard's time stamps,
    the [updated_at] stamp and the next version; nothing else). *)

From S2P Require Import Prelude ProviderApi Schema Errors Db DbLogic.

Definition message_edge (p : list Message.col) (m : Message.t) : bool :=
  Guards.edge_ok Guards.message_state_transitions m.(Message.state)
    (Message.apply p m).(Message.state).

Definition job_edge (p : list Job.col) (j : Job.t) : bool :=
  Guards.edge_ok Guards.job_state_transitions j.(Job.state) (Job.apply p j).(Job.state).

Definition attempt_edge (p : list WebhookAttempt.col) (a : WebhookAttempt.t) : bool :=
  Guards.edge_ok Guards.attempt_state_transitions a.(WebhookAttempt.state)
    (WebhookAttempt.apply p a).(WebhookAttempt.state).

(** The row after an accepted update, for some guard stamps. *)
Definition message_after (p : list Message.col) (m b : Message.t) : Prop :=
  exists clock fin sub,
    b = Message.set_version (m.(Message.version) + 1) (Message.set_updatedAt clock
          (Message.set_submittedAt sub (Message.set_finalizedAt fin (Message.apply p m)))).

Definition job_after (p : list Job.col) (j b : Job.t) : Prop :=
  exists clock start fin,
    b = Job.set_version (j.(Job.version) + 1) (Job.set_updatedAt clock
          (Job.set_finishedAt fin (Job.set_startedAt start (Job.apply p j)))).

Definition attempt_after (p : list WebhookAttempt.col) (a b : WebhookAttempt.t) : Prop :=
  exists del,
    b = WebhookAttempt.set_version (a.(WebhookAttempt.version) + 1)
          (WebhookAttempt.set_deliveredAt del (WebhookAttempt.apply p a)).

Lemma message_after_key p m b :
  message_after p m b -> b.(Message.id) = m.(Message.id) /\ b.(Message.version) - 1 = m.(Message.version).
Proof.
  intros (clock & fin & sub & ->). cbn. split; [|lia].
  apply (foldl_keeps Message.id). by intros ? [].
Qed.

Lemma job_after_key p j b :
  job_after p j b -> b.(Job.id) = j.(Job.id) /\ b.(Job.version) - 1 = j.(Job.version).
Proof.
  intros (clock & start & fin & ->). cbn. split; [|lia]. apply (foldl_keeps Job.id). by intros ? [].
Qed.

Lemma attempt_after_key p a b :
  attempt_after p a b ->
  b.(WebhookAttempt.id) = a.(WebhookAttempt.id) /\
  b.(WebhookAttempt.version) - 1 = a.(WebhookAttempt.version).
Proof.
  intros (del & ->). cbn. split; [|lia]. apply (foldl_keeps WebhookAttempt.id). by intros ? [].
Qed.

Lemma commit_message now clock p m :
  match commit TMessage now clock p m with
  | Some b => message_edge p m = true /\ message_after p m b
  | None => message_edge p m = false
  end.
Proof.
  unfold commit, Guards.messages_guard_transition, message_edge, Guards.edge_ok, message_after.
  set (x := Message.apply p m).
  destruct (bool_decide_reflect (Message.state x = Message.state m)) as [Hs|Hs].
  { split; [done|]. exists clock, (Message.finalizedAt x), (Message.submittedAt x).
    by destruct x. }
  case_bool_decide as Hin; cbn [negb orb]; [|done]. split; [done|].
  cbn [fmap option_fmap option_map]. cbv zeta.
  match goal with |- context [Message.set_updatedAt clock ?y] =>
    exists clock, (Message.finalizedAt y), (Message.submittedAt y) end.
  destruct (Guards.message_terminal _), (bool_decide _); by destruct x.
Qed.

Lemma commit_job now clock p j :
  match commit TJob now clock p j with
  | Some b => job_edge p j = true /\ job_after p j b
  | None => job_edge p j = false
  end.
Proof.
  unfold commit, Guards.jobs_guard_transition, job_edge, Guards.edge_ok, job_after.
  set (x := Job.apply p j).
  destruct (bool_decide_reflect (Job.state x = Job.state j)) as [Hs|Hs].
  { split; [done|]. exists clock, (Job.startedAt x), (Job.finishedAt x). by destruct x. }
  case_bool_decide as Hin; cbn [negb orb]; [|done]. split; [done|].
  cbn [fmap option_fmap option_map]. cbv zeta.
  match goal with |- context [Job.set_updatedAt clock ?y] =>
    exists clock, (Job.startedAt y), (Job.finishedAt y) end.
  destruct (bool_decide _), (Guards.job_finished _); by destruct x.
Qed.

Lemma commit_attempt now clock p a :
  match commit TAttempt now clock p a with
  | Some b => attempt_edge p a = true /\ attempt_after p a b
  | None => attempt_edge p a = false
  end.
Proof.
  unfold commit, Guards.attempts_guard_transition, attempt_edge, Guards.edge_ok, attempt_after.
  set (x := WebhookAttempt.apply p a).
  destruct (bool_decide_reflect (WebhookAttempt.state x = WebhookAttempt.state a)) as [Hs|Hs].
  { split; [done|]. exists (WebhookAttempt.deliveredAt x). by destruct x. }
  case_bool_decide as Hin; cbn [negb orb]; [|done]. split; [done|].
  cbn [fmap option_fmap option_map].
  match goal with |- context [if ?c then ?y else x] =>
    exists (WebhookAttempt.deliveredAt (if c then y else x)) end.
  destruct (bool_decide _); by destruct x.
Qed.

(** ** Rules for the conditional updates of the three state machines *)
Section Rules.

Context `{E : CratestackErrors}.

Lemma wp_update_message {B} (m : Message.t) p (f : _ -> prog B) tr Q :
  known tr TMessage m -> message_edge p m = true ->
  (forall b, message_after p m b ->
     wp (f (Ok b)) (Ev (Update TMessage m.(Message.id) p m.(Message.version)) (Ok b) :: tr) Q) ->
  (forall e, db_sqlstate e <> Some SM001 ->
     wp (f (Err e)) (Ev (Update TMessage m.(Message.id) p m.(Message.version)) (Err e) :: tr) Q) ->
  wp (pbind (do (Update TMessage m.(Message.id) p m.(Message.version))) f) tr Q.
Proof.
  intros Hk He Hok Herr. apply (wp_update TMessage m); [done | | | done].
  - intros now clock. pose proof (commit_message now clock p m) as Hc.
    destruct (commit _ _ _ _ _); [done|]. congruence.
  - intros b now clock Hc. pose proof (commit_message now clock p m) as Hs. rewrite Hc in Hs.
    apply Hok. apply Hs.
Qed.

Lemma wp_update_job {B} (m : Job.t) p (f : _ -> prog B) tr Q :
  known tr TJob m -> job_edge p m = true ->
  (forall b, job_after p m b ->
     wp (f (Ok b)) (Ev (Update TJob m.(Job.id) p m.(Job.version)) (Ok b) :: tr) Q) ->
  (forall e, db_sqlstate e <> Some SM001 ->
     wp (f (Err e)) (Ev (Update TJob m.(Job.id) p m.(Job.version)) (Err e) :: tr) Q) ->
  wp (pbind (do (Update TJob m.(Job.id) p m.(Job.version))) f) tr Q.
Proof.
  intros Hk He Hok Herr. apply (wp_update TJob m); [done | | | done].
  - intros now clock. pose proof (commit_job now clock p m) as Hc.
    destruct (commit _ _ _ _ _); [done|]. congruence.
  - intros b now clock Hc. pose proof (commit_job now clock p m) as Hs. rewrite Hc in Hs.
    apply Hok. apply Hs.
Qed.

Lemma wp_update_attempt {B} (m : WebhookAttempt.t) p (f : _ -> prog B) tr Q :
  known tr TAttempt m -> attempt_edge p m = true ->
  (forall b, attempt_after p m b ->
     wp (f (Ok b))
       (Ev (Update TAttempt m.(WebhookAttempt.id) p m.(WebhookAttempt.version)) (Ok b) :: tr) Q) ->
  (forall e, db_sqlstate e <> Some SM001 ->
     wp (f (Err e))
       (Ev (Update TAttempt m.(WebhookAttempt.id) p m.(WebhookAttempt.version)) (Err e) :: tr) Q) ->
  wp (pbind (do (Update TAttempt m.(WebhookAttempt.id) p m.(WebhookAttempt.version))) f) tr Q.
Proof.
  intros Hk He Hok Herr. apply (wp_update TAttempt m); [done | | | done].
  - intros now clock. pose proof (commit_attempt now clock p m) as Hc.
    destruct (commit _ _ _ _ _); [done|]. congruence.
  - intros b now clock Hc. pose proof (commit_attempt now clock p m) as Hs. rewrite Hc in Hs.
    apply Hok. apply Hs.
Qed.

(** [do] alone, as the last call of a function. *)
Lemma wp_do_last {R} (c : call R) tr Q : wp (pbind (do c) Ret) tr Q -> wp (do c) tr Q.
Proof. done. Qed.

End Rules.

(** Decide an edge whose source state is known ([H]). *)
Ltac solve_edge H :=
  unfold message_edge, job_edge, attempt_edge; cbn; rewrite H; vm_compute; reflexivity.
