(* ===== verification/WorkerRouting.v ===== *)
(** * sms-worker: routing a message (routing.rs)

    Reads the routes and their providers, converts them to the engine's rows
    and asks [select_route].  The circuit breaker closes here: a provider
    whose [circuitOpenUntil] lies ahead is unavailable to the engine. *)

From S2P Require Import Prelude Float64 RoutingEngine Msisdn ProviderApi Schema Errors Db DbLogic.

(** ** [Debug] of a string

    [char::escape_debug]: the tables of printable and grapheme-extending
    characters are the Unicode data of the standard library, a parameter. *)
Class UnicodeDebug := {
  is_printable : Z -> bool;
  is_grapheme_extended : Z -> bool }.

Fixpoint hex_digits (fuel : nat) (c : Z) : text :=
  let d := c mod 16 in
  let digit := if d <? 10 then 48 + d else 87 + d in
  match fuel with
  | O => [digit]
  | S n => if c <? 16 then [digit] else hex_digits n (c / 16) ++ [digit]
  end.

Section Debug.

Context `{UnicodeDebug}.

Definition escape_char (first : bool) (c : Z) : text :=
  if c =? 0 then lit "\0"
  else if c =? 9 then lit "\t"
  else if c =? 13 then lit "\r"
  else if c =? 10 then lit "\n"
  else if c =? 34 then [92; 34]
  else if c =? 92 then lit "\\"
  else if first && is_grapheme_extended c then lit "\u{" ++ hex_digits 6 c ++ lit "}"
  else if is_printable c then [c]
  else lit "\u{" ++ hex_digits 6 c ++ lit "}".

(** [<str as Debug>]: only the first character is checked for grapheme
    extension. *)
Definition debug_str (s : text) : text :=
  [34] ++ match s with
          | [] => []
          | c :: r => escape_char true c ++ concat (escape_char false <$> r)
          end ++ [34].

Definition debug_Operator (o : Operator) : text :=
  match o with
  | Mtn => lit "Mtn"
  | Orange => lit "Orange"
  | Camtel => lit "Camtel"
  | Nexttel => lit "Nexttel"
  | UnknownOperator => lit "Unknown"
  end.

Definition debug_MessageClass (c : RoutingEngine.MessageClass) : text :=
  match c with
  | Otp => lit "Otp"
  | Transactional => lit "Transactional"
  | Notification => lit "Notification"
  | Marketing => lit "Marketing"
  end.

Definition debug_PredicateFailure (f : PredicateFailure) : text :=
  match f with
  | PFOperator e a =>
      lit "Operator { expected: " ++ debug_Operator e ++ lit ", actual: " ++ debug_Operator a ++ lit " }"
  | PFClass e a =>
      lit "Class { expected: " ++ debug_MessageClass e ++ lit ", actual: "
        ++ debug_MessageClass a ++ lit " }"
  | PFAppId e a =>
      lit "AppId { expected: " ++ debug_str e ++ lit ", actual: " ++ debug_str a ++ lit " }"
  | PFPrefix e n =>
      lit "Prefix { expected: " ++ debug_str e ++ lit ", msisdn_national: " ++ debug_str n ++ lit " }"
  end.

Definition debug_RouteOutcome (o : RouteOutcome) : text :=
  match o with
  | Excluded => lit "Excluded"
  | Disabled => lit "Disabled"
  | PredicateFailed f => lit "PredicateFailed(" ++ debug_PredicateFailure f ++ lit ")"
  | ProviderUnavailable reason => lit "ProviderUnavailable(" ++ debug_str reason ++ lit ")"
  | Eligible b =>
      lit "Eligible { winning_band: " ++ (if b then lit "true" else lit "false") ++ lit " }"
  end.

Definition explain_no_route (decision : RouteDecision) : text :=
  match d_evaluations decision with
  | [] => lit "no eligible route: no Route rows are configured"
  | evaluations =>
      let reasons := (fun ev => ev_route_name ev ++ lit " (" ++ debug_RouteOutcome (ev_outcome ev)
                                  ++ lit ")") <$> evaluations in
      lit "no eligible route: " ++ show_Z (Z.of_nat (length evaluations))
        ++ lit " route(s) evaluated, 0 eligible — " ++ join (lit "; ") reasons
  end.

End Debug.

(** ** Conversions *)
Record Candidate := mkCandidate {
  ca_operator : OperatorCode.t;
  ca_class : MessageClass.t;
  ca_app_id : text;
  ca_msisdn : text }.

Definition convert_operator (value : OperatorCode.t) : Operator :=
  match value with
  | OperatorCode.mtn => Mtn
  | OperatorCode.orange => Orange
  | OperatorCode.camtel => Camtel
  | OperatorCode.nexttel => Nexttel
  | OperatorCode.unknown => UnknownOperator
  end.

Definition convert_class (value : MessageClass.t) : RoutingEngine.MessageClass :=
  match value with
  | MessageClass.otp => Otp
  | MessageClass.transactional => Transactional
  | MessageClass.notification => Notification
  | MessageClass.marketing => Marketing
  end.

Definition convert_route (r : Route.t) : RouteRow :=
  mkRouteRow r.(Route.id) r.(Route.name) r.(Route.priority) r.(Route.weight) r.(Route.enabled)
    (convert_operator <$> r.(Route.matchOperator)) (convert_class <$> r.(Route.matchClass))
    r.(Route.matchAppId) r.(Route.matchPrefix) r.(Route.providerId) r.(Route.failoverRouteId).

Definition debug_ProviderState (s : ProviderState.t) : text :=
  match s with
  | ProviderState.active => lit "active"
  | ProviderState.degraded => lit "degraded"
  | ProviderState.disabled => lit "disabled"
  | ProviderState.draining => lit "draining"
  end.

Definition convert_provider (r : Provider.t) (now : Z) : ProviderRow :=
  let circuit_open :=
    match r.(Provider.circuitOpenUntil) with Some until => now <? until | None => false end in
  let available := bool_decide (r.(Provider.state) = ProviderState.active) && negb circuit_open in
  let reason :=
    if circuit_open then
      Some (lit "circuit breaker open after consecutive Unavailable failures")
    else if negb available then
      Some (lit "provider state is " ++ debug_ProviderState r.(Provider.state) ++ lit ", not active")
    else None in
  mkProviderRow r.(Provider.id) available reason.

(** ** [decide] *)
Definition all_routes : query TRoute :=
  mkQuery (fun _ => true)
    [Desc (fun r : row TRoute => KInt (Some r.(Route.priority)));
     Asc (fun r : row TRoute => KText r.(Route.id))] None.

Definition providers_in (ids : list text) : query TProvider :=
  mkQuery (fun p : row TProvider => bool_decide (p.(Provider.id) ∈ ids)) [] None.

Definition provider_map (now : Z) (rows : list Provider.t) : gmap text ProviderRow :=
  foldl (fun m r => <[r.(Provider.id) := convert_provider r now]> m) ∅ rows.

Section Decide.

Context `{E : CratestackErrors} `{P : PhoneLib}.

(** The national number [matchPrefix] is compared with; empty when the
    stored number does not parse. *)
Definition msisdn_national (candidate : Candidate) : text :=
  match parse (ca_msisdn candidate) with
  | Ok msisdn => national msisdn
  | Err _ => []
  end.

Definition decide_route (candidate : Candidate) (exclude : ExcludedRouteIds)
  : prog (result RouteDecision CratestackError) :=
  let!? routes := do (FindMany TRoute all_routes) in
  let provider_ids := sort_dedup (Route.providerId <$> routes) in
  let! now := do Now in
  let!? providers :=
    if bool_decide (provider_ids = []) then Ret (Ok ∅)
    else
      let!? rows := do (FindMany TProvider (providers_in provider_ids)) in
      Ret (Ok (provider_map now rows)) in
  let route_rows := convert_route <$> routes in
  let routing_candidate :=
    mkRoutingCandidate (convert_operator (ca_operator candidate))
      (convert_class (ca_class candidate)) (ca_app_id candidate)
      (msisdn_national candidate) in
  let! draw := do Random in
  match select_route route_rows providers routing_candidate exclude draw with
  | Some d => Ret (Ok d)
  | None => Panic
  end.

(** ** What a decision rests on *)

(** A route may carry the candidate now: it is not used up, it is enabled,
    every column that restricts it matches, and its provider is active with no
    open circuit. *)
Definition usable (candidate : Candidate) (exclude : ExcludedRouteIds) (now : Z)
  (r : Route.t) (p : Provider.t) : Prop :=
  r.(Route.providerId) = p.(Provider.id) /\
  r.(Route.enabled) = true /\ (r.(Route.id) ∉ exclude) /\
  p.(Provider.state) = ProviderState.active /\
  (forall u, p.(Provider.circuitOpenUntil) = Some u -> u <= now) /\
  (forall o, r.(Route.matchOperator) = Some o -> o = ca_operator candidate) /\
  (forall c, r.(Route.matchClass) = Some c -> c = ca_class candidate) /\
  (forall a, r.(Route.matchAppId) = Some a -> a = ca_app_id candidate) /\
  (forall x, r.(Route.matchPrefix) = Some x -> starts_with (msisdn_national candidate) x = true).

(** The table of routes and the providers they name, as they were read: by
    queries that leave nothing of them out. *)
Definition surveyed (tr : trace) (now : Z) (routes : list Route.t) (providers : list Provider.t) : Prop :=
  Ev Now now ∈ tr /\
  (exists q : query TRoute, (forall r, q_where q r = true) /\ q_limit q = None /\
     Ev (FindMany TRoute q) (Ok routes) ∈ tr) /\
  (routes = [] /\ providers = [] \/
   exists q : query TProvider, (forall r p, r ∈ routes -> p.(Provider.id) = r.(Route.providerId) -> q_where q p = true) /\
     q_limit q = None /\ Ev (FindMany TProvider q) (Ok providers) ∈ tr).

(** The rows behind a winner: a usable route, of the highest priority among
    those that are. *)
Definition winner_backed (tr : trace) (candidate : Candidate) (exclude : ExcludedRouteIds)
  (w : Winner) : Prop :=
  exists now routes providers r p, surveyed tr now routes providers /\ r ∈ routes /\ p ∈ providers /\
    w = mkWinner r.(Route.id) p.(Provider.id) r.(Route.failoverRouteId) /\
    usable candidate exclude now r p /\
    forall r' p', r' ∈ routes -> p' ∈ providers -> usable candidate exclude now r' p' ->
      r'.(Route.priority) <= r.(Route.priority).

(** The rows behind there being no winner. *)
Definition no_route (tr : trace) (candidate : Candidate) (exclude : ExcludedRouteIds) : Prop :=
  exists now routes providers, surveyed tr now routes providers /\
    forall r p, r ∈ routes -> p ∈ providers -> ~ usable candidate exclude now r p.

Lemma surveyed_app l tr now routes providers :
  surveyed tr now routes providers -> surveyed (l ++ tr) now routes providers.
Proof.
  intros (Hn & (q & ? & ? & Hq) & Hp). split; [apply elem_of_app; by right|].
  split; [exists q; split_and!; try done; apply elem_of_app; by right|].
  destruct Hp as [?|(q' & ? & ? & Hq')]; [by left|]. right. exists q'.
  split_and!; try done. apply elem_of_app. by right.
Qed.

Lemma winner_backed_app l tr candidate exclude w :
  winner_backed tr candidate exclude w -> winner_backed (l ++ tr) candidate exclude w.
Proof.
  intros (now & routes & providers & r & p & Hs & Hrest). exists now, routes, providers, r, p.
  split; [by apply surveyed_app | done].
Qed.

Lemma surveyed_pre l tr now routes providers :
  surveyed tr now routes providers -> surveyed (tr ++ l) now routes providers.
Proof.
  intros (Hn & (q & ? & ? & Hq) & Hp). split; [apply elem_of_app; by left|].
  split; [exists q; split_and!; try done; apply elem_of_app; by left|].
  destruct Hp as [?|(q' & ? & ? & Hq')]; [by left|]. right. exists q'.
  split_and!; try done. apply elem_of_app. by left.
Qed.

Lemma winner_backed_pre l tr candidate exclude w :
  winner_backed tr candidate exclude w -> winner_backed (tr ++ l) candidate exclude w.
Proof.
  intros (now & routes & providers & r & p & Hs & Hrest). exists now, routes, providers, r, p.
  split; [by apply surveyed_pre | done].
Qed.

Lemma no_route_app l tr candidate exclude :
  no_route tr candidate exclude -> no_route (l ++ tr) candidate exclude.
Proof.
  intros (now & routes & providers & Hs & Hrest). exists now, routes, providers.
  split; [by apply surveyed_app | done].
Qed.

Lemma provider_map_lookup now rows id x :
  provider_map now rows !! id = Some x ->
  exists p, p ∈ rows /\ p.(Provider.id) = id /\ x = convert_provider p now.
Proof.
  unfold provider_map. induction rows as [|p rows IH] using rev_ind; [done|].
  rewrite foldl_app. cbn [foldl]. destruct (decide (p.(Provider.id) = id)) as [<-|Hne].
  - rewrite lookup_insert_eq. intros [= <-]. exists p. split; [|done].
    apply elem_of_app. right. by left.
  - rewrite lookup_insert_ne by done. intros (q & Hq & ? & ?)%IH. exists q.
    split; [|done]. apply elem_of_app. by left.
Qed.

Lemma convert_provider_available p now :
  pr_available (convert_provider p now) = true ->
  p.(Provider.state) = ProviderState.active /\
  forall u, p.(Provider.circuitOpenUntil) = Some u -> u <= now.
Proof.
  unfold convert_provider. cbn. intros [Hs Hc]%andb_true_iff.
  apply bool_decide_eq_true in Hs. split; [done|]. intros u Hu. rewrite Hu in Hc.
  by apply negb_true_iff, Z.ltb_ge in Hc.
Qed.

Lemma available_provider p now :
  p.(Provider.state) = ProviderState.active ->
  (forall u, p.(Provider.circuitOpenUntil) = Some u -> u <= now) ->
  pr_available (convert_provider p now) = true.
Proof.
  intros Hs Hc. unfold convert_provider. cbn. rewrite bool_decide_eq_true_2 by done. cbn [andb].
  destruct (Provider.circuitOpenUntil p) as [u|]; [|done]. specialize (Hc u eq_refl).
  by apply negb_true_iff, Z.ltb_ge.
Qed.

Lemma provider_map_complete now rows p :
  NoDup (Provider.id <$> rows) -> p ∈ rows ->
  provider_map now rows !! p.(Provider.id) = Some (convert_provider p now).
Proof.
  unfold provider_map. induction rows as [|x rows IH] using rev_ind; [by intros _ ?%not_elem_of_nil|].
  rewrite fmap_app, foldl_app. intros (Hnd & Hx & _)%NoDup_app [Hp|Hp%list_elem_of_singleton]%elem_of_app; cbn [foldl].
  - rewrite lookup_insert_ne; [by apply IH|]. intros Heq. apply (Hx (Provider.id p)); [|cbn; rewrite <- Heq; by left].
    apply list_elem_of_fmap. by exists p.
  - subst. apply lookup_insert_eq.
Qed.

(** The candidate as the engine sees it. *)
Definition engine_candidate (candidate : Candidate) : RoutingCandidate :=
  mkRoutingCandidate (convert_operator (ca_operator candidate))
    (convert_class (ca_class candidate)) (ca_app_id candidate) (msisdn_national candidate).

Lemma convert_operator_inj a b : convert_operator a = convert_operator b -> a = b.
Proof. by destruct a, b. Qed.

Lemma convert_class_inj a b : convert_class a = convert_class b -> a = b.
Proof. by destruct a, b. Qed.

Lemma decide_route_no_submit candidate exclude : no_submit (decide_route candidate exclude).
Proof. unfold decide_route. solve_no_submit. Qed.

(** The engine's eligibility, on the rows read, is [usable]. *)
Lemma eligible_usable candidate exclude now rows r :
  NoDup (Provider.id <$> rows) ->
  eligible (provider_map now rows) (engine_candidate candidate) exclude (convert_route r) <->
  exists p, p ∈ rows /\ usable candidate exclude now r p.
Proof.
  intros Hnd. split.
  - intros (Hex & Hen & (Hmo & Hmc & Hma & Hmp) & x & Hx & Hav).
    apply provider_map_lookup in Hx as (p & Hp & Hpid & ->). exists p. split; [done|].
    destruct (convert_provider_available _ _ Hav) as [Hact Hopen]. split_and!; try done.
    + intros o Ho. apply convert_operator_inj, Hmo. cbn. by rewrite Ho.
    + intros c Hc. apply convert_class_inj, Hmc. cbn. by rewrite Hc.
    + intros x' Hx'. apply starts_with_spec. by apply Hmp.
  - intros (p & Hp & Hid & Hen & Hex & Hact & Hopen & Hmo & Hmc & Hma & Hmp). split; [done|]. split; [done|]. split.
    + split_and!; cbn.
      * by intros o (o' & Ho & ->)%fmap_Some; rewrite (Hmo _ Ho).
      * by intros c (c' & Hc & ->)%fmap_Some; rewrite (Hmc _ Hc).
      * done.
      * intros x Hx. apply starts_with_spec. by apply Hmp.
    + exists (convert_provider p now). split; [|by apply available_provider].
      cbn. rewrite Hid. by apply provider_map_complete.
Qed.

(** Routing only reads, never panics, and answers with a winner the rows it
    read allow, or with none when they allow none. *)
Lemma wp_decide_route candidate exclude tr Q :
  (forall d tr' l, tr' = l ++ tr ->
     Forall read_only l ->
     match d_winner d with
     | Some w => winner_backed l candidate exclude w
     | None => no_route l candidate exclude
     end -> Q (Ok d) tr') ->
  (forall e tr' l, tr' = l ++ tr -> Forall read_only l -> Exists failed_read l ->
     Q (Err e) tr') ->
  wp (decide_route candidate exclude) tr Q.
Proof.
  intros HQ HQe. unfold decide_route.
  apply wp_find_ok; [intros routes _ _ _ | intros e; by eapply (HQe e _ [_]); [reflexivity|by repeat constructor|by left]].
  apply wp_now. intros now. apply wp_ok_bind.
  set (l1 := [Ev Now now; Ev (FindMany TRoute all_routes) (Ok routes)]).
  set (ids := sort_dedup _).
  assert (forall rows l2, Forall read_only l2 -> NoDup (Provider.id <$> rows) ->
    surveyed (l2 ++ l1) now routes rows ->
    wp (let! draw := do Random in
        match select_route (convert_route <$> routes) (provider_map now rows)
          (engine_candidate candidate) exclude draw with
        | Some d => Ret (Ok d)
        | None => Panic
        end) ((l2 ++ l1) ++ tr) Q) as Hsel.
  { intros rows l2 Hl2 Hnd Hsur. apply wp_do; [done|]. intros draw _.
    destruct (select_route_spec (convert_route <$> routes) (provider_map now rows)
      (engine_candidate candidate) exclude draw) as (d & -> & _ & Hw).
    cbn [wp]. apply (HQ d _ (Ev Random draw :: l2 ++ l1)).
    { done. }
    { constructor; [done|]. apply Forall_app. by split; [|repeat constructor]. }
    destruct (d_winner d) as [w|].
    - destruct Hw as (rr & Hin & Helig & -> & Hmax). apply list_elem_of_fmap in Hin as (r & -> & Hr).
      apply eligible_usable in Helig as (p & Hp & Hu); [|done].
      apply (winner_backed_app [Ev Random draw]).
      exists now, routes, rows, r, p. split_and!; try done.
      + cbn. by rewrite (proj1 Hu).
      + intros r' p' Hr' Hp' Hu'. apply (Hmax (convert_route r')); [by apply list_elem_of_fmap_2|].
        apply eligible_usable; [done|]. by exists p'.
    - apply (no_route_app [Ev Random draw]). exists now, routes, rows. split; [done|].
      intros r p Hr Hp Hu. rewrite Forall_forall in Hw. apply (Hw (convert_route r)); [by apply list_elem_of_fmap_2|].
      apply eligible_usable; [done|]. by exists p. }
  destruct (bool_decide_reflect (ids = [])) as [Hids|Hids].
  - cbn [wp]. apply (Hsel [] []); [constructor | constructor|]. split; [by left|].
    split; [exists all_routes; split_and!; [done | done | right; by left]|]. left. split; [|done].
    destruct routes as [|r routes]; [done|]. exfalso.
    assert (Route.providerId r ∈ ids) as Hin by (apply elem_of_sort_dedup; by left).
    rewrite Hids in Hin. by apply not_elem_of_nil in Hin.
  - apply wp_find_ok.
    + intros rows Hrows Hnd _. cbn [wp].
      eapply (Hsel rows [_]); [by repeat constructor | done|]. split; [right; by left|].
      split; [exists all_routes; split_and!; [done | done | do 2 right; by left]|]. right.
      exists (providers_in ids). split_and!; [|done | by left].
      intros r p Hr Hp. cbn. apply bool_decide_eq_true_2. rewrite Hp. apply elem_of_sort_dedup.
      by apply list_elem_of_fmap_2.
    + intros e. by eapply (HQe e _ [_; _; _]); [reflexivity|by repeat constructor|by left].
Qed.

End Decide.
