(* ===== verification/DemoData.v ===== *)
(** * Example rows and an example world

    Concrete rows, an oracle and a database, shared by the examples that run
    the programs. *)

From S2P Require Import Prelude Float64 Msisdn ProviderApi Schema Errors Sql Db DbLogic DbRef.
From S2P Require Import WorkerRouting.

#[local] Existing Instance demo_errors.

Definition demo_debug : UnicodeDebug := {|
  is_printable c := (32 <=? c) && negb (c =? 127);
  is_grapheme_extended c := (768 <=? c) && (c <=? 879) |}.

Definition ex_now : Z := seconds 1000000.

Definition ex_message (id : text) (s : MessageState.t) : Message.t :=
  Message.mk id 0 0 (lit "app1") None None (lit "+237677123456") (lit "hash")
    OperatorCode.mtn (lit "VSMS") MessageClass.otp 100 (Some (lit "code 1234")) (lit "bh") 9
    EncodingCode.gsm7 1 s None (Some (lit "rt1")) (Some (lit "pv1")) (Some (lit "ref-1")) None None
    0 3 None None None (ex_now + minutes 10) None None None (0, 0) 7.

Definition ex_provider (id key : text) (failures : Z) : Provider.t :=
  Provider.mk id 0 0 key (lit "Provider") ProviderKind.orange_cm_http ProviderState.active
    (lit "{}") (lit "cred") (f64_of_Z 5) 1000 true true true true (2500, 2) None true failures None 4.

Definition ex_route_row (id provider : text) : Route.t :=
  Route.mk id 0 0 (lit "route " ++ id) 10 1 true None None None None provider None 0.

Definition ex_job (id kind : text) (s : JobState.t) (attempts : Z) : Job.t :=
  Job.mk id 0 0 kind (Some kind) (lit "{}") s 500 0 None None attempts 3 None None None 2.

Definition ex_endpoint (id : text) (mode : WebhookDeliveryMode.t) : WebhookEndpoint.t :=
  WebhookEndpoint.mk id 0 0 (lit "app1") (lit "https://example.test/hook") mode
    (if bool_decide (mode = WebhookDeliveryMode.sealed) then Some (lit "billing") else None)
    (lit " message.delivered ")
    (if bool_decide (mode = WebhookDeliveryMode.hmac)
     then Some (lit "0123456789abcdef0123456789abcdef") else None) None None false
    true 8 None 0 3.

Definition ex_attempt (id endpoint : text) (s : AttemptState.t) (attempts : Z) : WebhookAttempt.t :=
  WebhookAttempt.mk id endpoint (lit "11111111-1111-1111-1111-111111111111") (lit "m1")
    (lit "message.delivered") (lit "{}") s attempts None None None None None None None 5.

(** The framework's own tables have not been created yet. *)
Definition no_tables (R : Type) (_ : sql R) : result R SqlError :=
  Err (mkSqlError (Some (lit "42P01")) (lit "relation does not exist")).

(** A provider that accepts everything, and one that fails with [err]. *)
Definition ex_oracle (submit : text -> SubmitRequest -> result SubmitAck ProviderError)
  (post : HttpRequest -> result Z text) : oracle :=
  mkOracle ex_now f64_zero submit
    (fun _ _ body => Ok (mkSealed [] body)) post no_tables.

Definition accepting : oracle :=
  ex_oracle (fun _ _ => Ok (mkSubmitAck (lit "ref-42") None)) (fun _ => Ok 200).

Definition failing (err : ProviderError) : oracle :=
  ex_oracle (fun _ _ => Err err) (fun _ => Ok 503).

(** One message in [s], its provider and two routes. *)
Definition ex_world (s : MessageState.t) : world :=
  insert_row (insert_row (insert_row (insert_row (insert_row empty_world
    TMessage (ex_message (lit "m1") s))
    TProvider (ex_provider (lit "pv1") (lit "orange_cm") 0))
    TProvider (ex_provider (lit "pv2") (lit "mtn_cm") 0))
    TRoute (ex_route_row (lit "rt1") (lit "pv1")))
    TRoute (ex_route_row (lit "rt2") (lit "pv2")).

Lemma ex_world_ok s : world_ok (ex_world s).
Proof. unfold ex_world. auto 10 with vsms. Qed.
