(* ===== verification/Transactions.v ===== *)
(** * Transactions

    What the procedures that open a transaction share: reading one row inside
    it, how its runs decompose ([txrun_bind] and the like), which of its errors
    are the code's own, and what a committed transaction leaves. *)

From S2P Require Import Prelude ProviderApi Schema ApiSchema Errors Db DbLogic DbReads DbRef Commits.
From S2P Require Import WorkerRouting DemoData.

Section Statements.

Context `{E : CratestackErrors}.

(** [find_many().…limit(1).run_in_tx(tx)], first row or the error. *)
Definition tfirst_row {t} (q : query t) : txn (result (option (row t)) CratestackError) :=
  lett? rows := tdo (TFind t q) in TRet (Ok (head rows)).

Definition tfirst_or {t} (q : query t) (e : CratestackError) : txn (result (row t) CratestackError) :=
  lett? found := tfirst_row q in TRet (ok_or found e).

Definition tmap_err {A X Y} (f : X -> Y) (p : txn (result A X)) : txn (result A Y) :=
  tbind p (fun r => TRet (map_err f r)).

End Statements.

(** ** Runs of a body *)
Abbreviation run_tx := (txrun (fun R c => exec R (of_tcall c))).

Section Runs.

Context `{E : CratestackErrors} `{B : !Backend}.

Lemma txrun_inv {A} (p : txn A) w a w' :
  run_tx p w a w' ->
  match p with
  | TRet b => a = b /\ w' = w
  | TCall c k => exists r w1, exec _ (of_tcall c) w r w1 /\ run_tx (k r) w1 a w'
  end.
Proof. destruct 1; [done|]. by eexists _, _. Qed.

Lemma txrun_bind {A C} (p : txn A) (f : A -> txn C) w c w' :
  run_tx (tbind p f) w c w' -> exists a w1, run_tx p w a w1 /\ run_tx (f a) w1 c w'.
Proof.
  revert w. induction p as [a|R cl k IH]; intros w Hr.
  - exists a, w. split; [constructor | done].
  - apply txrun_inv in Hr as (r & w1 & Hx & Hr). apply IH in Hr as (a & w2 & Ha & Hc).
    exists a, w2. split; [by econstructor | done].
Qed.

(** [?] inside a transaction. *)
Lemma txrun_bind_ok {A C X} (p : txn (result A X)) (f : A -> txn (result C X)) w r w' :
  run_tx (tbind_ok p f) w r w' ->
  (exists a w1, run_tx p w (Ok a) w1 /\ run_tx (f a) w1 r w') \/
  (exists e, run_tx p w (Err e) w' /\ r = Err e).
Proof.
  intros ([a|e] & w1 & Ha & Hc)%txrun_bind; [left; by exists a, w1|].
  apply txrun_inv in Hc as [-> ->]. right. by exists e.
Qed.

(** A body that answers [Ok] passed every [?]. *)
Lemma txrun_bind_Ok {A C X} (p : txn (result A X)) (f : A -> txn (result C X)) w c w' :
  run_tx (tbind_ok p f) w (Ok c) w' ->
  exists a w1, run_tx p w (Ok a) w1 /\ run_tx (f a) w1 (Ok c) w'.
Proof. intros [H|(e & _ & [=])]%txrun_bind_ok. exact H. Qed.

Lemma txrun_do {R} (c : tcall R) w r w' : run_tx (tdo c) w r w' -> exec _ (of_tcall c) w r w'.
Proof. intros (r' & w1 & Hx & [-> ->]%txrun_inv)%txrun_inv. done. Qed.

Lemma txrun_first_row {t} (q : query t) w r w' :
  run_tx (tfirst_row q) w r w' ->
  w' = w /\
  (forall x, r = Ok (Some x) -> w_tables w t !! row_id t x = Some x /\ q_where q x = true /\
     row_wf t x = true) /\
  (r = Ok None -> (forall n, q_limit q = Some n -> 0 < n) ->
   forall x, w_tables w t !! row_id t x = Some x -> row_wf t x = true -> q_where q x = false).
Proof.
  intros [(rows & w1 & Hx%txrun_do & [-> ->]%txrun_inv)|(e & Hx%txrun_do & ->)]%txrun_bind_ok.
  - pose proof Hx as Hall. apply exec_FindMany in Hx as [-> Hrows]. split_and!; [done | |].
    + intros x [= Hx]. destruct (Hrows rows eq_refl) as [Hf _]. destruct rows as [|y rows]; [done|].
      injection Hx as ->. by apply Forall_cons in Hf as [? _].
    + intros [= Hn] Hl x Hs Hwf. destruct rows; [|done]. destruct (q_where q x) eqn:Hq; [|done].
      by destruct (exec_FindMany_complete _ _ _ _ _ x Hall Hs Hq Hwf Hl).
  - apply exec_FindMany in Hx as [-> _]. by split_and!.
Qed.

Lemma txrun_first_or {t} (q : query t) e w r w' :
  run_tx (tfirst_or q e) w r w' ->
  w' = w /\ forall x, r = Ok x -> w_tables w t !! row_id t x = Some x /\ q_where q x = true /\
    row_wf t x = true.
Proof.
  intros [(found & w1 & Hf & [-> ->]%txrun_inv)|(e' & Hf & ->)]%txrun_bind_ok;
    apply txrun_first_row in Hf as (-> & Hs & _); split; try done.
  intros x Hx. destruct found as [y|]; [|done]. injection Hx as ->. by apply Hs.
Qed.

(** What an insert of a transaction stored. *)
Lemma txrun_create t c w b w' :
  run_tx (tdo (TCreate t c)) w (Ok b) w' ->
  exists id now, b = created t id now c /\ (id ∉ w_used w t) /\
    w_tables w' t = <[id := b]> (w_tables w t) /\
    (forall t', t' <> t -> w_tables w' t' = w_tables w t').
Proof.
  intros [[_ [=]]|(id & now & Hf & Hw & Hb & _)]%txrun_do%exec_Create.
  rewrite (Hb b eq_refl). exists id, now. split_and!; [done | done | |apply (written_frame _ _ _ _ Hw)].
  by rewrite (written_row _ _ _ _ Hw), created_id.
Qed.

(** [rows_ok] at any point of a transaction. *)
Lemma txrun_rows {A} (p : txn A) w a w' : rows_ok w -> run_tx p w a w' -> rows_ok w'.
Proof. intros Hok Hr. by destruct (txrun_moves _ _ _ _ Hok Hr) as (_ & ? & _). Qed.

(** The row a query by id found is the one stored under it. *)
Lemma found_stored {t} (q : query t) e id w r w1 :
  (forall x, q_where q x = true -> row_id t x = id) -> run_tx (tfirst_or q e) w (Ok r) w1 ->
  w1 = w /\ w_tables w t !! id = Some r /\ row_id t r = id.
Proof.
  intros Hq [-> Hx]%txrun_first_or. destruct (Hx r eq_refl) as (Hs & Hw & _).
  pose proof (Hq r Hw) as Hid. by rewrite Hid in Hs.
Qed.

(** An accepted conditional update of the stored row. *)
Lemma updated_table t id p v a b w w' :
  rows_ok w -> w_tables w t !! id = Some a -> exec _ (Update t id p v) w (Ok b) w' ->
  exists now clock, commit t now clock p a = Some b /\ w_tables w' t = <[id := b]> (w_tables w t) /\
    forall t', t' <> t -> w_tables w' t' = w_tables w t'.
Proof.
  intros Hok Ha (a' & now & clock & Ha' & _ & Hc & Hw & _)%exec_Update.
  rewrite Ha in Ha'. injection Ha' as <-. exists now, clock. split; [done|]. split.
  - rewrite (written_row _ _ _ _ Hw). pose proof (commit_facts _ _ _ _ _ _ Hc) as [-> _].
    by destruct (Hok _ _ _ Ha) as [-> _].
  - apply (written_frame _ _ _ _ Hw).
Qed.

Lemma updated_stored t id p v a b w w' :
  rows_ok w -> w_tables w t !! id = Some a -> exec _ (Update t id p v) w (Ok b) w' ->
  exists now clock, commit t now clock p a = Some b /\ w_tables w' t !! id = Some b /\
    forall t', t' <> t -> w_tables w' t' = w_tables w t'.
Proof.
  intros Hok Ha (now & clock & Hc & Ht & Hf)%(updated_table _ _ _ _ _ _ _ _ Hok Ha).
  exists now, clock. rewrite Ht. split_and!; [done | apply lookup_insert_eq | done].
Qed.

End Runs.

(** A transaction in terms of its body's runs: a committed run, or nothing. *)
Lemma tx_outcome `{E : CratestackErrors} `{B : !Backend} {A} (body : txn (result A CratestackError)) w r w' :
  exec _ (Tx body) w r w' ->
  (exists a, txrun (fun R c => exec R (of_tcall c)) body w (Ok a) w' /\ forall b, r = Ok b -> b = a) \/
  (is_ok r = false /\ w' = w).
Proof.
  intros Hx. destruct (exec_Tx _ _ _ _ _ Hx) as [(r0 & w1 & Hr & Hres)|(er & -> & -> & _)]; [|by right].
  destruct r0 as [a|er]; [|destruct Hres as [-> ->]; by right].
  destruct Hres as [[-> ->]|(er & -> & _ & [-> | ->])]; [| by right |].
  - left. exists a. split; [done|]. by intros b [= <-].
  - left. exists a. by split.
Qed.

(** ** Errors *)
Section Own.

Context `{E : CratestackErrors} `{ES : !CratestackErrorsSound}.

(** An error of the code's own is not the database's. *)
Lemma own_error e s :
  view e = VConflict s \/ view e = VValidation s \/ view e = VForbidden s \/
  view e = VNotFound s \/ view e = VUnauthorized s -> db_sqlstate e <> Some SM001.
Proof. intros Hv. by rewrite (sqlstate_own e s Hv). Qed.

Lemma own_NotFound s : db_sqlstate (NotFound s) <> Some SM001.
Proof. apply (own_error _ s). rewrite view_NotFound. auto. Qed.

Lemma own_Validation s : db_sqlstate (Validation s) <> Some SM001.
Proof. apply (own_error _ s). rewrite view_Validation. auto. Qed.

Lemma own_Conflict s : db_sqlstate (Conflict s) <> Some SM001.
Proof. apply (own_error _ s). rewrite view_Conflict. auto. Qed.

Lemma mapped_error e : db_sqlstate e <> Some SM001 -> db_sqlstate (map_database_error e) <> Some SM001.
Proof.
  intros He. unfold map_database_error. rewrite bool_decide_eq_false_2 by done.
  case_bool_decide; [apply own_Conflict|]. case_bool_decide; [|done].
  destruct (_ ≫= _); [apply own_Validation | done].
Qed.

Lemma twp_first_or {t} (q : query t) e tr Q :
  db_sqlstate e <> Some SM001 ->
  (forall x rows, q_where q x = true -> row_wf t x = true ->
     known (Ev (FindMany t q) (Ok rows) :: tr) t x ->
     Q (Ok x) (Ev (FindMany t q) (Ok rows) :: tr)) ->
  (forall e ev, db_sqlstate e <> Some SM001 -> Q (Err e) (ev :: tr)) ->
  twp (tfirst_or q e) tr Q.
Proof.
  intros He Hok Herr. unfold tfirst_or. apply twp_bind_ok. unfold tfirst_row. apply twp_find_ok.
  - intros [|x rows] Hw _; cbn [twp head ok_or]; [by apply Herr|].
    apply Forall_cons in Hw as [[Hx Hwf] _]. apply Hok; [done | done |]. apply known_find. by left.
  - intros e' He'. by apply Herr.
Qed.

Lemma twp_first_row {t} (q : query t) tr Q :
  (forall x rows, q_where q x = true -> row_wf t x = true ->
     known (Ev (FindMany t q) (Ok rows) :: tr) t x ->
     Q (Ok (Some x)) (Ev (FindMany t q) (Ok rows) :: tr)) ->
  (forall rows, Q (Ok None) (Ev (FindMany t q) (Ok rows) :: tr)) ->
  (forall e ev, db_sqlstate e <> Some SM001 -> Q (Err e) (ev :: tr)) ->
  twp (tfirst_row q) tr Q.
Proof.
  intros Hok Hn Herr. unfold tfirst_row. apply twp_find_ok; [|intros e' He'; by apply Herr].
  intros [|x rows] Hw _; cbn [twp head]; [apply Hn|].
  apply Forall_cons in Hw as [[Hx Hwf] _]. apply Hok; [done | done |]. apply known_find. by left.
Qed.

(** The last statement of a body: an update of a row it has read. *)
Lemma twp_update_last t m p id v tr :
  known tr t m -> row_id t m = id -> row_version t m = v ->
  (forall now clock, is_Some (commit t now clock p m)) ->
  twp (tdo (TUpdate t id p v)) tr (fun r _ => no_sm001 r).
Proof. intros Hk <- <- Hc. split; [by exists m|]. intros [b|e] Hr; [done | apply Hr]. Qed.

(** A procedure that is one transaction after its guards. *)
Lemma wp_tx_last {A} (body : txn (result A CratestackError)) tr :
  (forall tr, twp body tr (fun r _ => no_sm001 r)) -> wp (do (Tx body)) tr (fun _ _ => True).
Proof. intros Hb. apply wp_do_last. apply wp_do; [apply Hb|]. by intros. Qed.

End Own.

(** ** Transactions of the reference database *)
Section RefTx.

#[local] Existing Instance demo_errors.

Definition tx_result {A} (body : txn (result A DemoError)) (w : world) : result A DemoError :=
  (ref_exec accepting (Tx body) w).1.

Definition tx_world {A} (body : txn (result A DemoError)) (w : world) : world :=
  (ref_exec accepting (Tx body) w).2.

Lemma tx_exec {A} (body : txn (result A DemoError)) w :
  @exec _ (ref_backend accepting) _ (Tx body) w (tx_result body w) (tx_world body w).
Proof. apply surjective_pairing. Qed.

End RefTx.
