(* ===== verification/Claim.v ===== *)
(** * sms-worker: claiming rows (claim.rs, messages and jobs)

    [claim_batch] and its loop, the [Claimable] trait as the class
    [Claimable] with the contract its clients rely on ([ClaimableSound]), and
    the implementations for [Message] and [Job].  [WebhookClaim] has the
    third implementation. *)

From S2P Require Import Prelude Float64 RoutingEngine Msisdn ProviderApi Schema Errors Db DbLogic.
From S2P Require Import Commits WorkerRouting.

(** ** The trait *)
Class Claimable `{E : CratestackErrors} (t : tbl) := {
  candidates : Z -> Z -> prog (result (list (row t)) CratestackError);
  take_lease : row t -> text -> Z -> prog (result (row t) CratestackError) }.

Section ClaimBatch.

Context `{E : CratestackErrors} {t : tbl} `{C : !Claimable t}.

(** The loop of [lease_candidates]: a lost race or a denied row is skipped,
    any other error leaves the function. *)
Fixpoint lease_candidates_from (claimed : list (row t)) (worker : text) (now : Z)
  (l : list (row t)) : prog (result (list (row t)) CratestackError) :=
  match l with
  | [] => Ret (Ok claimed)
  | candidate :: rest =>
      let! r := take_lease candidate worker now in
      match map_err map_database_error r with
      | Ok row => lease_candidates_from (claimed ++ [row]) worker now rest
      | Err e =>
          match view e with
          | VPreconditionFailed _ | VForbidden _ => lease_candidates_from claimed worker now rest
          | _ => Ret (Err e)
          end
      end
  end.

Definition lease_candidates (worker : text) (now : Z) (l : list (row t)) :=
  lease_candidates_from [] worker now l.

Definition claim_batch (worker : text) (budget : Z)
  : prog (result (list (row t)) CratestackError) :=
  let! now := do Now in
  let!? rows := candidates now budget in
  lease_candidates worker now rows.

End ClaimBatch.

(** What an implementation promises: its candidates are rows it read, in a
    state it can lease ([claimable]), no more than the budget; and leasing
    one is safe and gives back the row as leased ([leased]). *)
Class ClaimableSound `{E : CratestackErrors} (t : tbl) `{C : !Claimable t} := {
  claimable : Z -> row t -> Prop;
  leased : text -> Z -> row t -> row t -> Prop;
  wp_candidates now budget tr :
    wp (candidates now budget) tr (fun r tr' => forall rows, r = Ok rows ->
      Z.of_nat (length rows) <= Z.max 0 budget /\
      Forall (fun x => known tr' t x /\ claimable now x) rows);
  wp_take_lease x worker now tr :
    known tr t x -> claimable now x ->
    wp (take_lease x worker now) tr (fun r tr' => forall b, r = Ok b ->
      won tr' t b /\ leased worker now x b);
  leased_id worker now x b : leased worker now x b -> row_id t b = row_id t x }.

Section ClaimBatchFacts.

Context `{E : CratestackErrors} {t : tbl} `{C : !Claimable t} `{S : !ClaimableSound t}.

(** A row this worker leased from one of its candidates, of which [G] held. *)
Definition leased_from (G : row t -> Prop) (tr : trace) (worker : text) (now : Z) (b : row t) : Prop :=
  won tr t b /\ exists x, known tr t x /\ claimable now x /\ G x /\ leased worker now x b.

Definition leased_now : trace -> text -> Z -> row t -> Prop := leased_from (fun _ => True).

Lemma leased_from_app G l tr worker now b :
  leased_from G tr worker now b -> leased_from G (l ++ tr) worker now b.
Proof. intros (? & x & ? & ? & ? & ?). split; [by apply won_app|]. exists x. auto with vsms. Qed.

Lemma leased_now_app l tr worker now b :
  leased_now tr worker now b -> leased_now (l ++ tr) worker now b.
Proof. apply leased_from_app. Qed.

Lemma wp_lease_candidates_from (G : row t -> Prop) claimed worker now l tr :
  Forall (fun x => known tr t x /\ claimable now x /\ G x) l ->
  Forall (leased_from G tr worker now) claimed ->
  wp (lease_candidates_from claimed worker now l) tr (fun r tr' => forall rows, r = Ok rows ->
    Forall (leased_from G tr' worker now) rows /\
    exists more, rows = claimed ++ more /\ sublist (row_id t <$> more) (row_id t <$> l)).
Proof.
  revert claimed tr. induction l as [|x l IH]; intros claimed tr Hl Hc.
  - cbn. intros rows [= <-]. split; [done|]. exists []. by rewrite app_nil_r.
  - apply Forall_cons in Hl as [(Hk & Hx & HG) Hl]. cbn [lease_candidates_from]. apply wp_bind.
    eapply wp_mono; [|apply wp_extends, (wp_take_lease x worker now tr Hk Hx)].
    intros r tr' [Hr [ext ->]].
    assert (Forall (fun x => known (ext ++ tr) t x /\ claimable now x /\ G x) l) as Hl'
      by (eapply Forall_impl; [exact Hl | intros y (? & ? & ?); auto with vsms]).
    assert (Forall (leased_from G (ext ++ tr) worker now) claimed) as Hc'
      by (eapply Forall_impl; [exact Hc | intros y ?; by apply leased_from_app]).
    destruct r as [b|e]; cbn [map_err].
    + destruct (Hr b eq_refl) as [Hkb Hlb]. eapply wp_mono; [|apply IH; [done|]].
      * intros r tr' Hi rows Er. destruct (Hi rows Er) as (? & more & -> & Hsub). split; [done|].
        exists (b :: more). rewrite <- (assoc_L (++)). split; [done|].
        rewrite !fmap_cons, (leased_id _ _ _ _ Hlb). by constructor.
      * apply Forall_app. split; [done|]. repeat constructor; [done|]. exists x. auto with vsms.
    + destruct (view (map_database_error e)); try done;
        (eapply wp_mono; [|apply IH; done]; intros r tr' Hi rows Er;
         destruct (Hi rows Er) as (? & more & -> & Hsub); split; [done|]; exists more;
         split; [done|]; rewrite fmap_cons; by constructor).
Qed.

(** Every batch: at most [budget] rows, each leased by this worker now, in
    the order of the candidates; [D] is anything the candidates satisfy. *)
Lemma wp_claim_batch_from (D : list (row t) -> Prop) worker budget tr :
  (forall now tr, wp (candidates now budget) tr (fun r _ => forall rows, r = Ok rows -> D rows)) ->
  wp (claim_batch worker budget) tr (fun r tr' => forall rows, r = Ok rows ->
    Z.of_nat (length rows) <= Z.max 0 budget /\
    (exists now, Ev Now now ∈ tr' /\ Forall (leased_now tr' worker now) rows) /\
    exists cands, D cands /\ sublist (row_id t <$> rows) (row_id t <$> cands)).
Proof.
  intros HD. unfold claim_batch. apply wp_now. intros now. apply wp_ok_bind.
  eapply wp_mono; [|apply wp_extends, (wp_and _ _ _ _ (wp_candidates now budget _) (HD now _))].
  intros r tr' [[Hr HDr] [ext ->]].
  destruct r as [cands|e]; [|done]. destruct (Hr cands eq_refl) as [Hlen Hc].
  assert (Forall (fun x => known (ext ++ Ev Now now :: tr) t x /\ claimable now x /\ True) cands) as Hc'
    by (eapply Forall_impl; [exact Hc | by intros x [? ?]]).
  eapply wp_mono; [|apply wp_extends, (wp_lease_candidates_from (fun _ => True) [] worker now cands);
    [exact Hc' | constructor]].
  intros r tr' [Hi [ext' ->]] rows Er. destruct (Hi rows Er) as (Hf & more & -> & Hsub). cbn in *.
  pose proof (sublist_length _ _ Hsub) as Hle. rewrite !length_fmap in Hle.
  split; [lia|]. split.
  - exists now. split; [|done]. apply elem_of_app. right. apply elem_of_app. right. by left.
  - exists cands. split; [by apply HDr | done].
Qed.

Lemma wp_claim_batch worker budget tr :
  wp (claim_batch worker budget) tr (fun r tr' => forall rows, r = Ok rows ->
    Z.of_nat (length rows) <= Z.max 0 budget /\
    exists now, Ev Now now ∈ tr' /\ Forall (leased_now tr' worker now) rows).
Proof.
  eapply wp_mono; [|apply (wp_claim_batch_from (fun _ => True))].
  - intros r tr' Hr rows Er. by destruct (Hr rows Er) as (? & ? & _).
  - intros now tr'. eapply wp_mono; [|apply wp_candidates]. done.
Qed.

Lemma claim_batch_no_submit worker budget :
  (forall now, no_submit (candidates now budget)) ->
  (forall x now, no_submit (take_lease x worker now)) ->
  no_submit (claim_batch worker budget).
Proof.
  intros Hc Ht. unfold claim_batch, lease_candidates. split; [done|]. intros now.
  apply no_submit_bind_ok; [apply Hc|]. intros rows. generalize (@nil (row t)).
  induction rows as [|x rows IH]; intros claimed; [done|]. cbn [lease_candidates_from].
  apply no_submit_bind; [apply Ht|]. intros res. repeat case_match; by try apply IH.
Qed.

End ClaimBatchFacts.

(** ** [Claimable for Message] *)
Definition DISPATCH_LEASE : duration := minutes 2.

Definition message_candidates (now budget : Z) : query TMessage :=
  mkQuery (fun m : row TMessage =>
      bool_decide (m.(Message.state) ∈
        [MessageState.accepted; MessageState.queued; MessageState.routed; MessageState.undelivered])
      && (now <? m.(Message.expiresAt))
      && (is_null m.(Message.scheduledAt) || col_lte m.(Message.scheduledAt) now)
      && (is_null m.(Message.leaseUntil) || col_lt m.(Message.leaseUntil) now))
    [Desc (fun m : row TMessage => KInt (Some m.(Message.priority)));
     Asc (fun m : row TMessage => KInt (Some m.(Message.createdAt)))]
    (Some budget).

Section Messages.

Context `{E : CratestackErrors} `{P : PhoneLib} `{U : UnicodeDebug}.

Definition route (message : Message.t) : prog (result RouteDecision CratestackError) :=
  decide_route (mkCandidate message.(Message.operator) message.(Message.class)
                  message.(Message.appId) message.(Message.msisdn)) ∅.

Definition queued_patch (winner : Winner) (worker : text) (now : Z) : list Message.col :=
  [ Message.SetState MessageState.queued;
    Message.SetProviderId (Some (w_provider_id winner));
    Message.SetRouteId (Some (w_route_id winner));
    Message.SetLeaseOwner (Some worker);
    Message.SetLeaseUntil (Some now) ].

Definition rejected_patch (decision : RouteDecision) (worker : text) (now : Z)
  : list Message.col :=
  [ Message.SetState MessageState.rejected;
    Message.SetStateReason (Some (explain_no_route decision));
    Message.SetLeaseOwner (Some worker);
    Message.SetLeaseUntil (Some now) ].

Definition apply_routing_decision (message : Message.t) (worker : text) (now : Z)
  : prog (result Message.t CratestackError) :=
  let!? decision := route message in
  match d_winner decision with
  | Some winner =>
      do (Update TMessage message.(Message.id) (queued_patch winner worker now)
            message.(Message.version))
  | None =>
      do (Update TMessage message.(Message.id) (rejected_patch decision worker now)
            message.(Message.version))
  end.

Definition fail_max_attempts (id : text) (version : Z) (worker : text) (now : Z) (reason : text)
  : prog (result Message.t CratestackError) :=
  do (Update TMessage id
        [ Message.SetState MessageState.failed;
          Message.SetStateReason (Some reason);
          Message.SetLeaseOwner (Some worker);
          Message.SetLeaseUntil (Some now) ] version).

Definition message_take_lease (self : Message.t) (worker : text) (now : Z)
  : prog (result Message.t CratestackError) :=
  match self.(Message.state) with
  | MessageState.accepted => apply_routing_decision self worker now
  | MessageState.queued =>
      if self.(Message.maxAttempts) <=? self.(Message.attempts) then
        fail_max_attempts self.(Message.id) self.(Message.version) worker now
          (lit "max attempts (" ++ show_Z self.(Message.maxAttempts) ++ lit ") reached")
      else
        do (Update TMessage self.(Message.id)
              [ Message.SetState MessageState.routed;
                Message.SetAttempts (self.(Message.attempts) + 1);
                Message.SetLeaseOwner (Some worker);
                Message.SetLeaseUntil (Some (now + DISPATCH_LEASE)) ] self.(Message.version))
  | MessageState.routed =>
      do (Update TMessage self.(Message.id)
            [ Message.SetState MessageState.routed;
              Message.SetAttempts self.(Message.attempts);
              Message.SetLeaseOwner (Some worker);
              Message.SetLeaseUntil (Some (now + DISPATCH_LEASE)) ] self.(Message.version))
  | MessageState.undelivered =>
      if self.(Message.maxAttempts) <=? self.(Message.attempts) then
        fail_max_attempts self.(Message.id) self.(Message.version) worker now
          (lit "max attempts (" ++ show_Z self.(Message.maxAttempts)
             ++ lit ") reached after a retryable delivery failure")
      else
        do (Update TMessage self.(Message.id)
              [ Message.SetState MessageState.queued;
                Message.SetLeaseOwner (Some worker);
                Message.SetLeaseUntil (Some now) ] self.(Message.version))
  | _ => Panic
  end.

#[export] Instance message_claimable : Claimable TMessage := {
  candidates now budget := do (FindMany TMessage (message_candidates now budget));
  take_lease := message_take_lease }.

(** What a lease does to a message, branch by branch. *)
Definition message_leased (worker : text) (now : Z) (x b : Message.t) : Prop :=
  b.(Message.id) = x.(Message.id) /\ b.(Message.maxAttempts) = x.(Message.maxAttempts) /\
  b.(Message.leaseOwner) = Some worker /\
  match x.(Message.state) with
  | MessageState.accepted =>
      b.(Message.attempts) = x.(Message.attempts) /\ b.(Message.leaseUntil) = Some now /\
      ((b.(Message.state) = MessageState.queued /\
        is_Some b.(Message.providerId) /\ is_Some b.(Message.routeId)) \/
       b.(Message.state) = MessageState.rejected)
  | MessageState.queued =>
      (b.(Message.state) = MessageState.routed /\ b.(Message.routeId) = x.(Message.routeId) /\
       b.(Message.attempts) = x.(Message.attempts) + 1 /\
       x.(Message.attempts) < x.(Message.maxAttempts) /\
       b.(Message.leaseUntil) = Some (now + DISPATCH_LEASE)) \/
      (b.(Message.state) = MessageState.failed /\ b.(Message.attempts) = x.(Message.attempts) /\
       x.(Message.maxAttempts) <= x.(Message.attempts) /\ b.(Message.leaseUntil) = Some now)
  | MessageState.routed =>
      b.(Message.state) = MessageState.routed /\ b.(Message.routeId) = x.(Message.routeId) /\
      b.(Message.attempts) = x.(Message.attempts) /\
      b.(Message.leaseUntil) = Some (now + DISPATCH_LEASE)
  | MessageState.undelivered =>
      b.(Message.attempts) = x.(Message.attempts) /\ b.(Message.leaseUntil) = Some now /\
      ((b.(Message.state) = MessageState.queued /\
        x.(Message.attempts) < x.(Message.maxAttempts)) \/
       (b.(Message.state) = MessageState.failed /\
        x.(Message.maxAttempts) <= x.(Message.attempts)))
  | _ => False
  end.

Definition message_claimable_at (now : Z) (m : Message.t) : Prop :=
  q_where (message_candidates now 0) m = true /\ row_wf TMessage m = true.

Lemma message_claimable_state now m :
  message_claimable_at now m ->
  (m.(Message.state) = MessageState.accepted \/ m.(Message.state) = MessageState.queued \/
   m.(Message.state) = MessageState.routed \/ m.(Message.state) = MessageState.undelivered) /\
  now < m.(Message.expiresAt) /\
  (forall u, m.(Message.leaseUntil) = Some u -> u < now) /\
  (forall u, m.(Message.scheduledAt) = Some u -> u <= now).
Proof.
  unfold message_claimable_at. cbn [q_where message_candidates]. intros [Hb _]. split_and_bool.
  match goal with H : Message.state m ∈ _ |- _ => rename H into Hs end.
  split; [rewrite !elem_of_cons in Hs; by destruct Hs as [?|[?|[?|[?|[]%not_elem_of_nil]]]]; auto|].
  split; [done|]. split.
  - intros u Hu. rewrite Hu in *. by apply Z.ltb_lt.
  - intros u Hu. rewrite Hu in *. by apply Z.leb_le.
Qed.

(** One conditional write of a claim: the reply, when it is a row, is the
    patched row. *)
Lemma wp_claim_write (m : Message.t) p tr (F : Message.t -> Prop) :
  known tr TMessage m -> message_edge p m = true -> (forall b, message_after p m b -> F b) ->
  wp (do (Update TMessage m.(Message.id) p m.(Message.version))) tr
    (fun r tr' => forall b, r = Ok b -> won tr' TMessage b /\ F b).
Proof.
  intros Hk He HF. apply wp_do_last, wp_update_message; [done | done | |].
  - intros b Hb. cbn [wp]. intros b' [= <-]. split; [|by apply HF]. exists p.
    destruct (message_after_key _ _ _ Hb) as [Hid Hv]. cbn. rewrite Hid, Hv. by left.
  - intros e _. cbn [wp]. done.
Qed.

Lemma wp_message_take_lease x worker now tr :
  known tr TMessage x -> message_claimable_at now x ->
  wp (message_take_lease x worker now) tr
    (fun r tr' => forall b, r = Ok b -> won tr' TMessage b /\ message_leased worker now x b).
Proof.
  intros Hk Hc. destruct (message_claimable_state _ _ Hc) as [Hs _].
  unfold message_take_lease, fail_max_attempts, message_leased.
  destruct Hs as [Hs|[Hs|[Hs|Hs]]]; rewrite Hs.
  - unfold apply_routing_decision, route. apply wp_ok_bind. apply wp_decide_route; [|done].
    intros d tr' l -> _ Hw. destruct (d_winner d) as [w|].
    + apply wp_claim_write; [auto with vsms | solve_edge Hs|].
      intros b (clock & fin & sub & ->). cbn. split_and!; try done. left. eauto.
    + apply wp_claim_write; [auto with vsms | solve_edge Hs|].
      intros b (clock & fin & sub & ->). cbn. split_and!; try done. by right.
  - destruct (Z.leb_spec (Message.maxAttempts x) (Message.attempts x)).
    + apply wp_claim_write; [done | solve_edge Hs|].
      intros b (clock & fin & sub & ->). cbn. split_and!; try done. by right.
    + apply wp_claim_write; [done | solve_edge Hs|].
      intros b (clock & fin & sub & ->). cbn. split_and!; try done. by left.
  - apply wp_claim_write; [done | solve_edge Hs|].
    intros b (clock & fin & sub & ->). cbn. by split_and!.
  - destruct (Z.leb_spec (Message.maxAttempts x) (Message.attempts x)).
    + apply wp_claim_write; [done | solve_edge Hs|].
      intros b (clock & fin & sub & ->). cbn. split_and!; try done. by right.
    + apply wp_claim_write; [done | solve_edge Hs|].
      intros b (clock & fin & sub & ->). cbn. split_and!; try done. by left.
Qed.

Lemma wp_message_candidates now budget tr :
  wp (candidates now budget) tr (fun r tr' => forall rows, r = Ok rows ->
    Z.of_nat (length rows) <= Z.max 0 budget /\
    Forall (fun x => known tr' TMessage x /\ message_claimable_at now x) rows).
Proof.
  apply wp_do_last, wp_find_wf; [|by intros e; cbn].
  intros rows Hrows _ Hlim. cbn [wp]. intros rows' [= <-]. split; [by apply Hlim|].
  apply Forall_forall. intros x Hx. rewrite Forall_forall in Hrows.
  split; [by apply (known_find _ TMessage) | by apply Hrows].
Qed.

#[export] Instance message_claimable_sound : ClaimableSound TMessage := {
  claimable := message_claimable_at;
  leased := message_leased;
  wp_candidates := wp_message_candidates;
  wp_take_lease := wp_message_take_lease;
  leased_id worker now x b H := proj1 H }.

(** Claiming messages submits nothing. *)
Lemma message_take_lease_no_submit x worker now : no_submit (message_take_lease x worker now).
Proof.
  unfold message_take_lease, apply_routing_decision, route, fail_max_attempts.
  pose proof decide_route_no_submit. case_match; try done; solve_no_submit; auto.
Qed.

Lemma message_claim_no_submit worker budget : no_submit (claim_batch (t := TMessage) worker budget).
Proof.
  apply claim_batch_no_submit; [by solve_no_submit|].
  intros x now. apply message_take_lease_no_submit.
Qed.

(** The messages of one batch are distinct. *)
Lemma wp_message_batch worker budget tr :
  wp (claim_batch worker budget) tr (fun r tr' => forall rows, r = Ok rows ->
    Z.of_nat (length rows) <= Z.max 0 budget /\
    (exists now, Ev Now now ∈ tr' /\ Forall (leased_now (t := TMessage) tr' worker now) rows) /\
    NoDup (Message.id <$> rows)).
Proof.
  eapply wp_mono; [|apply (wp_claim_batch_from (fun l : list (row TMessage) => NoDup (row_id TMessage <$> l)))].
  - intros r tr' Hr rows Er. destruct (Hr rows Er) as (? & ? & cands & Hn & Hs).
    split_and!; [done | done|]. by eapply sublist_NoDup.
  - intros now tr'. apply wp_do_last, wp_find; [|by intros e; cbn].
    intros rows _ Hn _. cbn [wp]. by intros rows' [= <-].
Qed.

(** A message leased in [routed] keeps its route and its attempt is within
    the budget, when it was before. *)
Lemma leased_routed tr worker now b :
  leased_now tr worker now b -> b.(Message.state) = MessageState.routed ->
  row_wf TMessage b = true /\ b.(Message.leaseOwner) = Some worker /\
  b.(Message.leaseUntil) = Some (now + DISPATCH_LEASE) /\
  exists x, known tr TMessage x /\ x.(Message.id) = b.(Message.id) /\
    now < x.(Message.expiresAt) /\
    (x.(Message.attempts) <= x.(Message.maxAttempts) -> b.(Message.attempts) <= b.(Message.maxAttempts)).
Proof.
  intros (_ & x & Hkx & Hc & _ & Hl) Hs. pose proof (message_claimable_state _ _ Hc) as (Hsx & Hexp & _).
  destruct Hc as [_ Hwf]. destruct Hl as (Hid & Hmax & Hown & Hcase). cbn [row_wf] in *.
  destruct Hsx as [Hx|[Hx|[Hx|Hx]]]; rewrite Hx in Hcase.
  - destruct Hcase as (_ & _ & [[Hb _]|Hb]); congruence.
  - destruct Hcase as [(_ & Hr & Ha & Hlt & Hle)|(Hb & _)]; [|congruence].
    rewrite Hr. split_and!; try done. exists x. split_and!; try done. lia.
  - destruct Hcase as (_ & Hr & Ha & Hle). rewrite Hr. split_and!; try done.
    exists x. split_and!; try done. lia.
  - destruct Hcase as (_ & _ & [[Hb _]|[Hb _]]); congruence.
Qed.

End Messages.

(** ** [Claimable for Job] *)
Definition JOB_LEASE : duration := minutes 5.

Definition job_order : list (order TJob) :=
  [Desc (fun j : row TJob => KInt (Some j.(Job.priority)));
   Asc (fun j : row TJob => KInt (Some j.(Job.runAt)))].

Definition pending_jobs (now budget : Z) : query TJob :=
  mkQuery (fun j : row TJob =>
      bool_decide (j.(Job.state) = JobState.pending) && (j.(Job.runAt) <=? now))
    job_order (Some budget).

Definition reclaimable_jobs (now remaining : Z) : query TJob :=
  mkQuery (fun j : row TJob =>
      bool_decide (j.(Job.state) = JobState.running) && col_lt j.(Job.leaseUntil) now)
    job_order (Some remaining).

(** [budget - i64::try_from(len).unwrap_or(budget)]; when something remains
    it is the budget less the length. *)
Definition remaining_budget (budget : Z) (len : nat) : Z :=
  budget - (if Z.of_nat len <=? 2 ^ 63 - 1 then Z.of_nat len else budget).

Lemma remaining_budget_pos budget len :
  0 < remaining_budget budget len -> remaining_budget budget len = budget - Z.of_nat len.
Proof. unfold remaining_budget. case_match; lia. Qed.

Section Jobs.

Context `{E : CratestackErrors}.

Definition job_candidates (now budget : Z) : prog (result (list Job.t) CratestackError) :=
  let!? pending := do (FindMany TJob (pending_jobs now budget)) in
  let remaining := remaining_budget budget (length pending) in
  if 0 <? remaining then
    let!? reclaimable := do (FindMany TJob (reclaimable_jobs now remaining)) in
    Ret (Ok (pending ++ reclaimable))
  else Ret (Ok pending).

Definition job_take_lease (self : Job.t) (worker : text) (now : Z)
  : prog (result Job.t CratestackError) :=
  match self.(Job.state) with
  | JobState.pending =>
      do (Update TJob self.(Job.id)
            [ Job.SetState JobState.running;
              Job.SetAttempts (self.(Job.attempts) + 1);
              Job.SetLeaseOwner (Some worker);
              Job.SetLeaseUntil (Some (now + JOB_LEASE)) ] self.(Job.version))
  | JobState.running =>
      do (Update TJob self.(Job.id)
            [ Job.SetState JobState.pending;
              Job.SetLeaseOwner None;
              Job.SetLeaseUntil None ] self.(Job.version))
  | _ => Panic
  end.

#[export] Instance job_claimable : Claimable TJob := {
  candidates := job_candidates;
  take_lease := job_take_lease }.

Definition job_claimable_at (now : Z) (j : Job.t) : Prop :=
  (j.(Job.state) = JobState.pending /\ j.(Job.runAt) <= now) \/
  (j.(Job.state) = JobState.running /\ exists u, j.(Job.leaseUntil) = Some u /\ u < now).

(** A pending job starts running with one more attempt counted; a running
    one whose lease ran out goes back to pending, to be claimed again. *)
Definition job_leased (worker : text) (now : Z) (x b : Job.t) : Prop :=
  b.(Job.id) = x.(Job.id) /\ b.(Job.kind) = x.(Job.kind) /\
  b.(Job.maxAttempts) = x.(Job.maxAttempts) /\
  match x.(Job.state) with
  | JobState.pending =>
      b.(Job.state) = JobState.running /\ b.(Job.attempts) = x.(Job.attempts) + 1 /\
      b.(Job.leaseOwner) = Some worker /\ b.(Job.leaseUntil) = Some (now + JOB_LEASE)
  | JobState.running =>
      b.(Job.state) = JobState.pending /\ b.(Job.attempts) = x.(Job.attempts) /\
      b.(Job.leaseOwner) = None /\ b.(Job.leaseUntil) = None
  | _ => False
  end.

Lemma wp_job_write (m : Job.t) p tr (F : Job.t -> Prop) :
  known tr TJob m -> job_edge p m = true -> (forall b, job_after p m b -> F b) ->
  wp (do (Update TJob m.(Job.id) p m.(Job.version))) tr
    (fun r tr' => forall b, r = Ok b -> won tr' TJob b /\ F b).
Proof.
  intros Hk He HF. apply wp_do_last, wp_update_job; [done | done | |].
  - intros b Hb. cbn [wp]. intros b' [= <-]. split; [|by apply HF]. exists p.
    destruct (job_after_key _ _ _ Hb) as [Hid Hv]. cbn. rewrite Hid, Hv. by left.
  - intros e _. cbn [wp]. done.
Qed.

Lemma pending_jobs_claimable now budget j :
  q_where (pending_jobs now budget) j = true -> job_claimable_at now j.
Proof. cbn. intros Hb. split_and_bool. by left. Qed.

Lemma reclaimable_jobs_claimable now budget j :
  q_where (reclaimable_jobs now budget) j = true -> job_claimable_at now j.
Proof.
  cbn. intros Hb. split_and_bool. right. split; [done|].
  destruct (Job.leaseUntil j) as [u|]; [|done]. exists u. split; [done | by apply Z.ltb_lt].
Qed.

Lemma wp_job_candidates now budget tr :
  wp (candidates now budget) tr (fun r tr' => forall rows, r = Ok rows ->
    Z.of_nat (length rows) <= Z.max 0 budget /\
    Forall (fun x => known tr' TJob x /\ job_claimable_at now x) rows).
Proof.
  unfold candidates, job_claimable, job_candidates.
  apply wp_find_ok; [|done]. intros pending Hp _ Hlim.
  specialize (Hlim budget eq_refl).
  assert (Forall (job_claimable_at now) pending) as Hpc
    by (eapply Forall_impl; [exact Hp | apply pending_jobs_claimable]).
  rewrite Forall_forall in Hpc.
  destruct (Z.ltb_spec 0 (remaining_budget budget (length pending))) as [Hlt|].
  + apply wp_find_ok; [|done]. intros recl Hr _ Hlim'. specialize (Hlim' _ eq_refl).
    assert (Forall (job_claimable_at now) recl) as Hrc
      by (eapply Forall_impl; [exact Hr | apply reclaimable_jobs_claimable]).
    rewrite Forall_forall in Hrc.
    cbn [wp]. intros rows [= <-]. split.
    * pose proof (remaining_budget_pos _ _ Hlt). change (row TJob) with Job.t in *.
      rewrite length_app. lia.
    * apply Forall_forall. intros x [Hx|Hx]%elem_of_app.
      -- split; [|by apply Hpc]. by apply known_cons, (known_find _ TJob).
      -- split; [|by apply Hrc]. by apply (known_find _ TJob).
  + cbn [wp]. intros rows [= <-]. split; [done|]. apply Forall_forall. intros x Hx.
    split; [by apply (known_find _ TJob) | by apply Hpc].
Qed.

Lemma wp_job_take_lease x worker now tr :
  known tr TJob x -> job_claimable_at now x ->
  wp (take_lease x worker now) tr
    (fun r tr' => forall b, r = Ok b -> won tr' TJob b /\ job_leased worker now x b).
Proof.
  intros Hk Hc. unfold take_lease, job_claimable, job_take_lease, job_leased.
  destruct Hc as [[Hs _]|[Hs _]]; rewrite Hs.
  + apply wp_job_write; [done | solve_edge Hs|]. intros b (clock & st & fin & ->). cbn. by split_and!.
  + apply wp_job_write; [done | solve_edge Hs|]. intros b (clock & st & fin & ->). cbn. by split_and!.
Qed.

#[export] Instance job_claimable_sound : ClaimableSound TJob := {
  claimable := job_claimable_at;
  leased := job_leased;
  wp_candidates := wp_job_candidates;
  wp_take_lease := wp_job_take_lease;
  leased_id worker now x b H := proj1 H }.

End Jobs.
