(* ===== verification/Dispatch.v ===== *)
(** * sms-worker: the dispatch role (dispatch.rs)

    One [tick]: claim a batch, submit each routed message to the adapter of
    its provider, and write what the outcome means.  The adapters are a
    parameter: the registry maps a provider key to an adapter's key and rate,
    and a submission is the call [Submit]. *)

From S2P Require Import Prelude Float64 Encoding SentinelList RoutingEngine Msisdn ProviderApi.
From S2P Require Import Breaker Schema Errors Db DbLogic DbRef Commits WorkerRouting DemoData.
From S2P Require Import Claim.

Record Adapter := mkAdapter {
  ad_key : text;
  ad_tps_ceiling : f64 }.

(** [HashMap<String, Arc<dyn SmsProvider>>], in its iteration order. *)
Abbreviation ProviderRegistry := (list (text * Adapter)).

Definition registry_get (providers : ProviderRegistry) (key : text) : option Adapter :=
  snd <$> List.find (fun kv => bool_decide (kv.1 = key)) providers.

Definition POLL_INTERVAL_SECS : f64 := f64_one.
Definition UNAVAILABLE_BACKOFF : duration := seconds 30.
Definition MAX_FAILOVER_HOPS : nat := 2.
Definition PROVIDER_BREAKER : BreakerPolicy := mkBreakerPolicy 5 (seconds 60).

Definition budget_for (tps_ceiling : f64) : Z :=
  Z.max (f64_ceil_i64 (f64_mul tps_ceiling POLL_INTERVAL_SECS)) 1.

(** [Iterator::sum] on floats starts from negative zero. *)
Definition total_tps_ceiling (providers : ProviderRegistry) : f64 :=
  foldl (fun acc kv => f64_add acc (ad_tps_ceiling kv.2)) (SpecFloat.S754_zero true) providers.

Definition decode_encoding (encoding : EncodingCode.t) : SmsEncoding :=
  match encoding with
  | EncodingCode.gsm7 => Gsm7
  | EncodingCode.ucs2 => Ucs2
  end.

(** [chrono::Duration::from_std(delay).unwrap_or_else(30s)]: a delay beyond
    chrono's range of milliseconds is replaced. *)
Definition from_std_or_30s (delay : duration) : duration :=
  if delay <=? millis (2 ^ 63 - 1) then delay else seconds 30.

(** What the error means once no failover takes it. *)
Definition terminal_outcome (err : ProviderError)
  : MessageState.t * text * option duration :=
  match err with
  | Transient retry_after msg =>
      (MessageState.queued, lit "transient: " ++ msg, Some retry_after)
  | Unavailable msg _ =>
      (MessageState.queued, lit "provider unavailable: " ++ msg, Some UNAVAILABLE_BACKOFF)
  | Permanent code msg =>
      (MessageState.failed, code ++ lit ": " ++ msg ++ lit " (no alternate route available)", None)
  | Rejected code msg => (MessageState.failed, code ++ lit ": " ++ msg, None)
  | Unsupported => (MessageState.failed, lit "operation not supported by this provider", None)
  | Indeterminate msg _ =>
      (MessageState.uncertain,
       lit "submission outcome unknown, possibly already sent; not retrying: " ++ msg, None)
  end.

Inductive FailoverOutcome := Rerouted | Exhausted.

(** The routes this message has used up: those packed in the row, and the
    current one. *)
Definition excluded_routes (message : Message.t) : list text :=
  let excluded := unpack (default [] message.(Message.excludedRouteIds)) in
  match message.(Message.routeId) with
  | Some current => if bool_decide (current ∈ excluded) then excluded else excluded ++ [current]
  | None => excluded
  end.

Section Dispatch.

Context `{E : CratestackErrors} `{P : PhoneLib} `{U : UnicodeDebug}.

Definition resolve_provider (providers : ProviderRegistry) (message : Message.t)
  : prog (result (Provider.t * Adapter) text) :=
  match message.(Message.providerId) with
  | None => Ret (Err (lit "message reached routed with no providerId stamped"))
  | Some provider_id =>
      let! r := do (FindMany TProvider
        (mkQuery (fun p : row TProvider => bool_decide (p.(Provider.id) = provider_id)) [] (Some 1))) in
      match r with
      | Err error =>
          Ret (Err (lit "looking up provider " ++ provider_id ++ lit ": " ++ error_to_string error))
      | Ok [] => Ret (Err (lit "provider " ++ provider_id ++ lit " no longer exists"))
      | Ok (row :: _) =>
          match registry_get providers row.(Provider.key) with
          | Some adapter => Ret (Ok (row, adapter))
          | None =>
              Ret (Err (lit "no adapter configured in this process for provider key "
                ++ debug_str row.(Provider.key) ++ lit " (provider " ++ provider_id ++ lit ")"))
          end
      end
  end.

(** A write whose failure is only logged. *)
Definition write_message (message : Message.t) (p : list Message.col) : prog unit :=
  let! _ := do (Update TMessage message.(Message.id) p message.(Message.version)) in Ret tt.

Definition write_submitted (message : Message.t) (provider_ref : text)
  (provider_ref_alt : option text) : prog unit :=
  write_message message
    [ Message.SetState MessageState.submitted;
      Message.SetProviderMessageRef (Some provider_ref);
      Message.SetProviderMessageRefAlt provider_ref_alt ].

Definition write_transition (message : Message.t) (next_state : MessageState.t)
  (reason : option text) (backoff : option duration) (provider_ref_alt : option text)
  : prog unit :=
  let! lease_until :=
    match backoff with
    | Some delay =>
        let! now := do Now in
        or_panic (chrono_add now (from_std_or_30s delay)) (fun until => Ret (Some until))
    | None => Ret None
    end in
  write_message message
    ([ Message.SetState next_state;
       Message.SetStateReason reason;
       Message.SetLeaseUntil lease_until ]
     ++ match provider_ref_alt with
        | Some r => [Message.SetProviderMessageRefAlt (Some r)]
        | None => []
        end).

Definition failover_patch (winner : Winner) (excluded_route_ids reason : text) (now : Z)
  : list Message.col :=
  [ Message.SetState MessageState.queued;
    Message.SetProviderId (Some (w_provider_id winner));
    Message.SetRouteId (Some (w_route_id winner));
    Message.SetExcludedRouteIds (Some excluded_route_ids);
    Message.SetStateReason (Some reason);
    Message.SetLeaseUntil (Some now) ].

Definition write_failover (message : Message.t) (winner : Winner)
  (excluded_route_ids reason : text) : prog unit :=
  let! now := do Now in
  write_message message (failover_patch winner excluded_route_ids reason now).

Definition attempt_failover (message : Message.t) (reason : text)
  : prog (result FailoverOutcome CratestackError) :=
  let excluded := excluded_routes message in
  if (MAX_FAILOVER_HOPS <? length excluded)%nat then Ret (Ok Exhausted)
  else
    let candidate := mkCandidate message.(Message.operator) message.(Message.class)
                       message.(Message.appId) message.(Message.msisdn) in
    let!? decision := decide_route candidate (list_to_set excluded) in
    match d_winner decision with
    | None => Ret (Ok Exhausted)
    | Some winner =>
        match pack excluded with
        | Err _ => Panic
        | Ok excluded_route_ids =>
            let! _ := write_failover message winner excluded_route_ids
              (lit "failover (hop " ++ show_Z (Z.of_nat (length excluded)) ++ lit " of "
                ++ show_Z (Z.of_nat MAX_FAILOVER_HOPS) ++ lit "): " ++ reason
                ++ lit "; rerouted to route " ++ w_route_id winner) in
            Ret (Ok Rerouted)
        end
    end.

Definition record_provider_failure (provider : Provider.t) : prog unit :=
  let! now := do Now in
  let decision := on_failure PROVIDER_BREAKER provider.(Provider.consecutiveFailures) now in
  let set :=
    [Provider.SetConsecutiveFailures (consecutive_failures decision)]
    ++ (if opened_circuit decision
        then [Provider.SetCircuitOpenUntil (circuit_open_until decision)] else []) in
  let! _ := do (Update TProvider provider.(Provider.id) set provider.(Provider.version)) in
  Ret tt.

Definition reset_provider_failures (provider : Provider.t) : prog unit :=
  if needs_reset provider.(Provider.consecutiveFailures) provider.(Provider.circuitOpenUntil) then
    let! _ := do (Update TProvider provider.(Provider.id)
      [ Provider.SetConsecutiveFailures 0; Provider.SetCircuitOpenUntil None ]
      provider.(Provider.version)) in
    Ret tt
  else Ret tt.

Definition handle_submit_error (message : Message.t) (provider_row : option Provider.t)
  (err : ProviderError) : prog unit :=
  let consequence := routing err in
  let! _ :=
    match consequence, provider_row with
    | OpenCircuitAndTryNextRoute, Some row => record_provider_failure row
    | _, _ => Ret tt
    end in
  let should_attempt_failover :=
    match consequence with
    | TryNextRoute | OpenCircuitAndTryNextRoute => true
    | _ => false
    end in
  let finish :=
    let '(next_state, reason, backoff) := terminal_outcome err in
    write_transition message next_state (Some reason) backoff None in
  if should_attempt_failover then
    let! r := attempt_failover message (display_ProviderError err) in
    match r with
    | Ok Rerouted => Ret tt
    | Ok Exhausted => finish
    | Err _ => Ret tt
    end
  else finish.

Definition submit_request (message : Message.t) (body : text) : SubmitRequest :=
  mkSubmitRequest message.(Message.msisdn) message.(Message.senderIdValue) body
    (decode_encoding message.(Message.encoding)) message.(Message.id).

Definition submit_one (providers : ProviderRegistry) (message : Message.t) : prog unit :=
  match message.(Message.body) with
  | None =>
      write_transition message MessageState.failed
        (Some (lit "message body missing at submit time")) None None
  | Some body =>
      let! resolved := resolve_provider providers message in
      match resolved with
      | Err reason => handle_submit_error message None (Unavailable reason None)
      | Ok (provider_row, provider) =>
          let! submit_result := do (Submit (ad_key provider) (submit_request message body)) in
          match submit_result with
          | Ok ack =>
              let! _ := write_submitted message (provider_ref ack) (provider_ref_alt ack) in
              reset_provider_failures provider_row
          | Err err => handle_submit_error message (Some provider_row) err
          end
      end
  end.

(** The body of the loop of [tick]: only a routed row carries a submission. *)
Definition submit_claimed (providers : ProviderRegistry) (message : Message.t) : prog unit :=
  if bool_decide (message.(Message.state) = MessageState.routed)
  then submit_one providers message else Ret tt.

Definition tick (providers : ProviderRegistry) (worker : text)
  : prog (result unit CratestackError) :=
  let budget := budget_for (total_tps_ceiling providers) in
  let!? claimed := claim_batch (t := TMessage) worker budget in
  let! _ := for_each (submit_claimed providers) claimed in
  Ret (Ok tt).

End Dispatch.

(** ** Facts *)

Lemma cuid_ok_packable s : cuid_ok s = true -> packable s.
Proof.
  unfold cuid_ok. intros [Hne Hf]%andb_true_iff. apply negb_true_iff, bool_decide_eq_false in Hne.
  split; [done|]. apply Forall_forall. intros c Hc. rewrite forallb_forall in Hf.
  by apply negb_true_iff, Hf, list_elem_of_In.
Qed.

Lemma excluded_routes_packable m :
  row_wf TMessage m = true -> Forall packable (excluded_routes m).
Proof.
  cbn [row_wf]. unfold excluded_routes. intros Hwf.
  pose proof (unpack_packable (default [] (Message.excludedRouteIds m))) as Hp.
  destruct (Message.routeId m) as [r|]; [|done]. case_match; [done|].
  apply Forall_app. split; [done|]. repeat constructor; by apply cuid_ok_packable.
Qed.

(** The candidate of a message. *)
Definition candidate_of (m : Message.t) : Candidate :=
  mkCandidate m.(Message.operator) m.(Message.class) m.(Message.appId) m.(Message.msisdn).

Section DispatchFacts.

Context `{E : CratestackErrors} `{P : PhoneLib} `{U : UnicodeDebug}.

(** Where an error that is not rerouted leaves the message [b], from [m]: in
    doubt and not retried when it may have been sent; failed for good when it
    was refused; queued behind a delay when the provider may take it later.
    The reason is recorded, the attempt stays counted and the route stays. *)
Definition settled (l : trace) (m : Message.t) (err : ProviderError) (b : Message.t) : Prop :=
  is_Some b.(Message.stateReason) /\ b.(Message.attempts) = m.(Message.attempts) /\
  b.(Message.routeId) = m.(Message.routeId) /\
  b.(Message.excludedRouteIds) = m.(Message.excludedRouteIds) /\
  let after d := exists now, Ev Now now ∈ l /\ b.(Message.leaseUntil) = Some (now + d) in
  match err with
  | Indeterminate _ _ =>
      b.(Message.state) = MessageState.uncertain /\ b.(Message.leaseUntil) = None
  | Permanent _ _ | Rejected _ _ | Unsupported =>
      b.(Message.state) = MessageState.failed /\ b.(Message.leaseUntil) = None
  | Transient retry_after _ =>
      b.(Message.state) = MessageState.queued /\ after (from_std_or_30s retry_after)
  | Unavailable _ _ => b.(Message.state) = MessageState.queued /\ after (seconds 30)
  end.

Definition terminal_write (l : trace) (m : Message.t) (err : ProviderError)
  (w : text * list Message.col * Z) : Prop :=
  exists p, w = (m.(Message.id), p, m.(Message.version)) /\ settled l m err (Message.apply p m).

(** The write of a failover: to the route the rows just read prefer, outside
    the routes used up, which the write records. *)
Definition reroute_write (l : trace) (m : Message.t) (w : text * list Message.col * Z) : Prop :=
  exists winner reason now,
    w = (m.(Message.id), failover_patch winner (packed_of (excluded_routes m)) reason now,
         m.(Message.version)) /\
    winner_backed l (candidate_of m) (list_to_set (excluded_routes m)) winner /\
    (length (excluded_routes m) <= MAX_FAILOVER_HOPS)%nat.

(** Nothing is left to fail over to: the hops are used up, or no route among
    all that were just read may carry the message. *)
Definition exhausted (l : trace) (m : Message.t) : Prop :=
  (MAX_FAILOVER_HOPS < length (excluded_routes m))%nat \/
  no_route l (candidate_of m) (list_to_set (excluded_routes m)).

Definition breaker_writes (prow : option Provider.t) (err : ProviderError) (l : trace) : Prop :=
  match err, prow with
  | Unavailable _ _, Some p => exists now, Ev Now now ∈ l /\
      let d := on_failure PROVIDER_BREAKER p.(Provider.consecutiveFailures) now in
      provider_writes l =
        [(p.(Provider.id),
          Provider.SetConsecutiveFailures (consecutive_failures d)
            :: (if opened_circuit d then [Provider.SetCircuitOpenUntil (circuit_open_until d)] else []),
          p.(Provider.version))]
  | _, _ => provider_writes l = []
  end.

Definition retried (err : ProviderError) : bool :=
  match err with Permanent _ _ | Unavailable _ _ => true | _ => false end.

(** What [handle_submit_error] leaves behind. *)
Definition error_policy (m : Message.t) (prow : option Provider.t) (err : ProviderError)
  (tr tr' : trace) : Prop :=
  exists l, tr' = l ++ tr /\ submits l = [] /\ breaker_writes prow err l /\
    if retried err then
      (exists w, message_writes l = [w] /\
         (reroute_write l m w \/ (terminal_write l m err w /\ exhausted l m))) \/
      (message_writes l = [] /\ Exists failed_read l)
    else exists w, message_writes l = [w] /\ terminal_write l m err w.

Lemma breaker_writes_app prow err l l' :
  provider_writes l = [] -> breaker_writes prow err l' -> breaker_writes prow err (l ++ l').
Proof.
  intros Hl Hb. unfold breaker_writes in *. rewrite provider_writes_app, Hl.
  destruct err, prow; try done. destruct Hb as (now & Hn & Hw). exists now.
  split; [apply elem_of_app; by right | done].
Qed.

Lemma exhausted_app l l' m : exhausted l' m -> exhausted (l ++ l') m.
Proof. intros [?|?]; [by left|]. right. by apply no_route_app. Qed.

Lemma exhausted_pre l l' m : exhausted l m -> exhausted (l ++ l') m.
Proof.
  intros [?|(now & routes & providers & Hs & Hu)]; [by left|]. right.
  exists now, routes, providers. split; [by apply surveyed_pre | done].
Qed.

(** The rows that accepted updates of messages left behind. *)
Definition stored_messages (l : trace) : list Message.t :=
  l ≫= (fun e => match e with
                 | Ev c r =>
                     match c in call R return R -> list Message.t with
                     | Update t _ _ _ =>
                         match t return result (row t) CratestackError -> list Message.t with
                         | TMessage => fun r => match r with Ok b => [b] | Err _ => [] end
                         | _ => fun _ => []
                         end
                     | _ => fun _ => []
                     end r
                 end).

Lemma stored_read_only l : Forall read_only l -> stored_messages l = [].
Proof.
  unfold stored_messages. induction 1 as [|[R c r] l He _ IH]; [done|].
  rewrite bind_cons, IH, app_nil_r. by destruct c.
Qed.

Lemma stored_messages_app l l' : stored_messages (l ++ l') = stored_messages l ++ stored_messages l'.
Proof. apply bind_app. Qed.

(** The acknowledgements of the submissions in a trace. *)
Definition acks (l : trace) : list SubmitAck :=
  l ≫= (fun e => match e with
                 | Ev c r => match c in call R return R -> list SubmitAck with
                             | Submit _ _ => fun r => match r with Ok ack => [ack] | Err _ => [] end
                             | _ => fun _ => []
                             end r
                 end).

Lemma acks_app l l' : acks (l ++ l') = acks l ++ acks l'.
Proof. apply bind_app. Qed.

Lemma acks_unsubmitted l : submits l = [] -> acks l = [].
Proof.
  unfold acks, submits. induction l as [|[R c r] l IH]; [done|]. rewrite !bind_cons.
  intros [Hc Hl]%app_nil. rewrite IH, app_nil_r by done. by destruct c.
Qed.

Lemma wp_write_message m p tr Q :
  known tr TMessage m -> message_edge p m = true ->
  (forall r, (forall b, r = Ok b -> message_after p m b) ->
     Q tt (Ev (Update TMessage m.(Message.id) p m.(Message.version)) r :: tr)) ->
  wp (write_message m p) tr Q.
Proof.
  intros Hk He HQ. unfold write_message.
  apply wp_update_message; [done | done | intros b Hb; apply HQ; by intros ? [= <-] | intros e _; by apply HQ].
Qed.

(** A bounded delay keeps an instant of the clock within chrono's range. *)
Lemma chrono_add_delay now d : 0 <= now < CLOCK_END -> 0 <= d <= RETRY_AFTER_MAX ->
  chrono_add now (from_std_or_30s d) = Some (now + from_std_or_30s d).
Proof.
  intros Hn Hd. unfold from_std_or_30s. unfold RETRY_AFTER_MAX in Hd. change (hours 1) with 3600000000 in Hd.
  rewrite (proj2 (Z.leb_le d _)) by (change (millis (2 ^ 63 - 1)) with 9223372036854775807000; lia).
  unfold chrono_add, MIN_UTC, MAX_UTC. unfold CLOCK_END in Hn.
  rewrite (proj2 (andb_true_iff _ _)); [done|]. split; apply Z.leb_le; lia.
Qed.

Lemma wp_record_provider_failure p tr Q :
  known tr TProvider p ->
  (forall now r, let d := on_failure PROVIDER_BREAKER p.(Provider.consecutiveFailures) now in
     Q tt (Ev (Update TProvider p.(Provider.id)
            (Provider.SetConsecutiveFailures (consecutive_failures d)
              :: (if opened_circuit d then [Provider.SetCircuitOpenUntil (circuit_open_until d)] else []))
            p.(Provider.version)) r :: Ev Now now :: tr)) ->
  wp (record_provider_failure p) tr Q.
Proof.
  intros Hk HQ. unfold record_provider_failure. apply wp_now. intros now.
  apply (wp_logged TProvider p); [auto with vsms | by eexists |]. intros r. apply HQ.
Qed.

(** The end of [handle_submit_error]: the terminal outcome is written. *)
Lemma wp_finish m err tr Q :
  known tr TMessage m -> m.(Message.state) = MessageState.routed -> retry_bounded (Err err) ->
  (forall l w, submits l = [] -> provider_writes l = [] -> message_writes l = [w] ->
     (forall l', terminal_write (l ++ l') m err w) -> Q tt (l ++ tr)) ->
  wp (let '(next_state, reason, backoff) := terminal_outcome err in
      write_transition m next_state (Some reason) backoff None) tr Q.
Proof.
  intros Hk Hs Hret HQ. unfold terminal_write, settled in HQ.
  destruct err; cbn [terminal_outcome]; unfold write_transition; cbn [app]; apply wp_bind;
    first
      [ apply wp_clock; intros now Hn; rewrite chrono_add_delay; [|done | first [exact Hret | by vm_compute]];
        cbn [or_panic wp]; apply wp_write_message; [auto with vsms | solve_edge Hs|];
        intros r _; eapply (HQ [_; _] _); [reflexivity | reflexivity | reflexivity|]; intros l';
        eexists; split; [done|]; split_and!; try done; exists now; split; [right; by left | done]
      | cbn [wp]; apply wp_write_message; [done | solve_edge Hs|];
        intros r _; eapply (HQ [_] _); [reflexivity | reflexivity | reflexivity|]; intros l';
        eexists; split; [done|]; by split_and! ].
Qed.

(** [attempt_failover]: a reroute writes once; exhaustion and a failed read
    write nothing. *)
Lemma wp_attempt_failover m reason tr Q :
  known tr TMessage m -> m.(Message.state) = MessageState.routed -> row_wf TMessage m = true ->
  (forall l w, submits l = [] -> provider_writes l = [] -> message_writes l = [w] ->
     reroute_write l m w -> Forall (message_after w.1.2 m) (stored_messages l) ->
     Q (Ok Rerouted) (l ++ tr)) ->
  (forall l, Forall read_only l -> exhausted l m -> Q (Ok Exhausted) (l ++ tr)) ->
  (forall e l, Forall read_only l -> Exists failed_read l -> Q (Err e) (l ++ tr)) ->
  wp (attempt_failover m reason) tr Q.
Proof.
  intros Hk Hs Hwf Hre Hex Herr. unfold attempt_failover.
  destruct (Nat.ltb_spec MAX_FAILOVER_HOPS (length (excluded_routes m))) as [|Hhops];
    [by apply (Hex []); [|left]|].
  apply wp_ok_bind. apply wp_decide_route; [|intros e tr' l -> ? ?; by apply Herr].
  intros d tr' l -> Hro Hw. destruct (d_winner d) as [winner|]; [|cbn [wp]; by apply Hex; [|right]].
  assert (pack (excluded_routes m) = Ok (packed_of (excluded_routes m))) as ->
    by (by apply pack_values_ok, excluded_routes_packable).
  apply wp_bind. unfold write_failover. apply wp_now. intros now.
  apply wp_write_message; [auto with vsms | solve_edge Hs|]. intros r Hr. cbn [wp].
  match goal with |- Q _ (?e1 :: ?e2 :: l ++ tr) =>
    eapply (Hre (e1 :: e2 :: l)) end.
  - unfold submits. rewrite !bind_cons. by apply submits_read_only.
  - unfold provider_writes. rewrite !bind_cons. by apply on_update_read_only.
  - unfold message_writes. rewrite !bind_cons. by rewrite on_update_read_only.
  - eexists winner, _, now. split; [done|]. split; [|done].
    by apply (winner_backed_app [_; _]).
  - unfold stored_messages. rewrite !bind_cons. fold (stored_messages l). rewrite stored_read_only by done.
    destruct r as [b|]; repeat constructor. by apply Hr.
Qed.

(** The terminal write, after anything that neither wrote nor submitted. *)
Lemma wp_finish_policy m prow err tr l :
  known tr TMessage m -> m.(Message.state) = MessageState.routed -> retry_bounded (Err err) ->
  submits l = [] -> message_writes l = [] -> breaker_writes prow err l ->
  (retried err = true -> exhausted l m) ->
  wp (let '(next_state, reason, backoff) := terminal_outcome err in
      write_transition m next_state (Some reason) backoff None) (l ++ tr)
    (fun _ tr' => error_policy m prow err tr tr').
Proof.
  intros Hk Hs Hb Hsub Hmw Hbw Hex. apply wp_finish; [auto with vsms | done | done|].
  intros l2 w Hs2 Hp2 Hm2 Hw. exists (l2 ++ l). split; [by rewrite <- (assoc_L (++))|].
  split; [by rewrite submits_app, Hs2, Hsub|]. split; [by apply breaker_writes_app|].
  assert (message_writes (l2 ++ l) = [w]) as Hone by (by rewrite message_writes_app, Hm2, Hmw).
  destruct (retried err); [left|]; exists w; (split; [done|]); [right|apply Hw].
  split; [apply Hw|]. apply exhausted_app. by apply Hex.
Qed.

Lemma wp_handle_submit_error m prow err tr :
  known tr TMessage m -> m.(Message.state) = MessageState.routed -> row_wf TMessage m = true ->
  (forall p, prow = Some p -> known tr TProvider p) -> retry_bounded (Err err) ->
  wp (handle_submit_error m prow err) tr (fun _ tr' => error_policy m prow err tr tr').
Proof.
  intros Hk Hs Hwf Hp Hb. unfold handle_submit_error. apply wp_bind.
  assert (forall l, submits l = [] -> message_writes l = [] -> breaker_writes prow err l ->
    retried err = true ->
    wp (let! r := attempt_failover m (display_ProviderError err) in
        match r with
        | Ok Rerouted => Ret tt
        | Ok Exhausted => let '(next_state, reason, backoff) := terminal_outcome err in
            write_transition m next_state (Some reason) backoff None
        | Err _ => Ret tt
        end) (l ++ tr) (fun _ tr' => error_policy m prow err tr tr')) as Hover.
  { intros l Hsub Hmw Hbw Hret.
    apply wp_bind, wp_attempt_failover; [auto with vsms | done | done | | |].
    - intros l2 w Hs2 Hp2 Hm2 (winner & reason & now & -> & Hback & Hlen) _. cbn [wp]. exists (l2 ++ l).
      split; [by rewrite <- (assoc_L (++))|]. split; [by rewrite submits_app, Hs2, Hsub|].
      split; [by apply breaker_writes_app|]. rewrite Hret. left. eexists.
      rewrite message_writes_app, Hm2, Hmw. split; [done|]. left. exists winner, reason, now.
      split; [done|]. split; [by apply winner_backed_pre | done].
    - intros lr Hro Hex. rewrite (assoc_L (++)). apply wp_finish_policy; try done.
      + by rewrite submits_app, Hsub, submits_read_only.
      + by rewrite message_writes_app, Hmw, message_writes_read_only.
      + apply breaker_writes_app; [by apply provider_writes_read_only | done].
      + intros _. by apply exhausted_pre.
    - intros e lr Hro Hf. cbn [wp]. exists (lr ++ l). split; [by rewrite <- (assoc_L (++))|].
      split; [by rewrite submits_app, Hsub, submits_read_only|].
      split; [apply breaker_writes_app; [by apply provider_writes_read_only | done]|].
      rewrite Hret. right. split; [by rewrite message_writes_app, Hmw, message_writes_read_only|].
      apply Exists_app. by left. }
  destruct err as [code msg|d msg|msg src|code msg| |msg src]; cbn [routing wp].
  - by apply (Hover []).
  - by apply (wp_finish_policy m prow _ tr []).
  - destruct prow as [p|]; [|cbn [wp]; by apply (Hover [])].
    apply wp_record_provider_failure; [by apply Hp|]. intros now r. cbv zeta beta.
    match goal with |- wp _ (?e1 :: ?e2 :: tr) _ => apply (Hover [e1; e2]) end; try done.
    exists now. split; [right; by left | done].
  - by apply (wp_finish_policy m prow _ tr []).
  - by apply (wp_finish_policy m prow _ tr []).
  - by apply (wp_finish_policy m prow _ tr []).
Qed.

(** ** One submission *)

(** What submitting one message does: nothing is sent and at most one write
    is made; or exactly one request is sent, built from this row, and what
    follows records its outcome. *)
Definition submit_policy (m : Message.t) (tr tr' : trace) : Prop :=
  (exists l, tr' = l ++ tr /\ submits l = [] /\ (length (message_writes l) <= 1)%nat) \/
  (exists l2 l1 key body r, tr' = l2 ++ Ev (Submit key (submit_request m body)) r :: l1 ++ tr /\
     m.(Message.body) = Some body /\ Forall read_only l1 /\ submits l2 = [] /\
     match r with
     | Ok ack =>
         let p := [Message.SetState MessageState.submitted;
                   Message.SetProviderMessageRef (Some (provider_ref ack));
                   Message.SetProviderMessageRefAlt (provider_ref_alt ack)] in
         message_writes l2 = [(m.(Message.id), p, m.(Message.version))] /\
         Forall (message_after p m) (stored_messages l2)
     | Err err => exists prow,
         error_policy m (Some prow) err (Ev (Submit key (submit_request m body)) r :: l1 ++ tr) tr'
     end).

Lemma error_policy_writes m prow err tr tr' :
  error_policy m prow err tr tr' ->
  exists l, tr' = l ++ tr /\ submits l = [] /\ (length (message_writes l) <= 1)%nat.
Proof.
  intros (l & -> & Hs & _ & Hw). exists l. split; [done|]. split; [done|].
  destruct (retried err); [destruct Hw as [(w & -> & _)|[-> _]]|destruct Hw as (w & -> & _)]; cbn; lia.
Qed.

Lemma wp_resolve_provider providers m tr Q :
  (forall l p a, Forall read_only l -> known (l ++ tr) TProvider p -> Q (Ok (p, a)) (l ++ tr)) ->
  (forall l reason, Forall read_only l -> Q (Err reason) (l ++ tr)) ->
  wp (resolve_provider providers m) tr Q.
Proof.
  intros Hok Herr. unfold resolve_provider. destruct (Message.providerId m) as [pid|];
    [|by apply (Herr [])].
  apply wp_find.
  - intros rows _ _ _. destruct rows as [|p rows].
    + cbn [wp]. by eapply (Herr [_]); repeat constructor.
    + destruct (registry_get providers _) as [a|]; cbn [wp].
      * eapply (Hok [_]); [by repeat constructor|]. apply (known_find _ TProvider). by left.
      * by eapply (Herr [_]); repeat constructor.
  - intros e. cbn [wp]. by eapply (Herr [_]); repeat constructor.
Qed.

Lemma wp_reset_provider_failures p tr Q :
  known tr TProvider p ->
  (forall l, submits l = [] -> message_writes l = [] -> stored_messages l = [] -> Q tt (l ++ tr)) ->
  wp (reset_provider_failures p) tr Q.
Proof.
  intros Hk HQ. unfold reset_provider_failures. case_match; [|by apply (HQ [])].
  apply (wp_logged TProvider p); [done | by eexists |]. intros r. cbn [wp]. by apply (HQ [_]).
Qed.

Lemma wp_submit_one providers m tr :
  known tr TMessage m -> m.(Message.state) = MessageState.routed -> row_wf TMessage m = true ->
  wp (submit_one providers m) tr (fun _ tr' => submit_policy m tr tr').
Proof.
  intros Hk Hs Hwf. unfold submit_one. destruct (Message.body m) as [body|] eqn:Hb.
  - apply wp_bind, wp_resolve_provider.
    + intros l p a Hro Hkp. apply wp_do; [done|]. intros r Hbound. destruct r as [ack|err].
      * apply wp_bind. unfold write_submitted. apply wp_write_message; [auto with vsms | solve_edge Hs|].
        intros r Hr. apply wp_reset_provider_failures; [auto with vsms|]. intros l2 Hs2 Hm2 Hst2. right.
        eexists (l2 ++ [_]), l, (ad_key a), body, (Ok ack).
        split; [by rewrite <- (assoc_L (++))|]. split; [done|]. split; [done|].
        rewrite submits_app, message_writes_app, stored_messages_app, Hs2, Hm2, Hst2.
        split; [done|]. split; [done|]. destruct r as [b|]; repeat constructor. by apply Hr.
      * eapply wp_mono; [|apply wp_handle_submit_error; [auto with vsms | done | done | | done]].
        -- intros ? tr' He. right. destruct He as (l2 & -> & Hs2 & Hrest).
           exists l2, l, (ad_key a), body, (Err err). split; [done|]. split; [done|].
           split; [done|]. split; [done|]. exists p. exists l2. by split.
        -- intros p' [= <-]. auto with vsms.
    + intros l reason Hro.
      eapply wp_mono; [|apply wp_handle_submit_error; [auto with vsms | done | done | done | done]].
      intros ? tr' (l2 & -> & Hs2 & Hw2)%error_policy_writes. left. exists (l2 ++ l).
      split; [by rewrite <- (assoc_L (++))|].
      rewrite submits_app, message_writes_app, Hs2.
      rewrite (submits_read_only _ Hro), (message_writes_read_only _ Hro). by rewrite !app_nil_r.
  - unfold write_transition. apply wp_bind. cbn [wp app].
    apply wp_write_message; [done | solve_edge Hs|]. intros r _. left. eexists [_].
    split; [done|]. by split; [|cbn; lia].
Qed.

(** The row stored by a submission that was acknowledged. *)
Lemma submit_policy_stored m l tr ack b :
  submit_policy m tr (l ++ tr) -> acks l = [ack] -> b ∈ stored_messages l ->
  message_after [Message.SetState MessageState.submitted;
                 Message.SetProviderMessageRef (Some (provider_ref ack));
                 Message.SetProviderMessageRefAlt (provider_ref_alt ack)] m b.
Proof.
  intros [(l0 & Hl & Hs & _)|(l2 & l1 & key & body & r & Hl & _ & Hro & Hs & Hr)] Ha Hb.
  - apply app_inv_tail in Hl as ->. by rewrite acks_unsubmitted in Ha.
  - set (e := Ev (Submit key (submit_request m body)) r) in Hl.
    assert (l ++ tr = (l2 ++ [e] ++ l1) ++ tr) as ->%app_inv_tail by (by rewrite Hl, <- !(assoc_L (++))).
    rewrite !acks_app, (acks_unsubmitted l2), (acks_unsubmitted l1), app_nil_r in Ha by (try done; by apply submits_read_only).
    rewrite !stored_messages_app, (stored_read_only l1 Hro), !app_nil_r in Hb.
    destruct r as [a|err]; [|done]. cbn in Ha. injection Ha as ->. destruct Hr as [_ Hst].
    rewrite Forall_forall in Hst. by apply Hst.
Qed.

(** ** One tick *)

(** A request of this tick: built from a message this worker holds leased
    and routed, which had not expired, on an attempt within its budget. *)
Definition submitted_from (tr : trace) (worker : text) (q : SubmitRequest) : Prop :=
  exists m now body, leased_now (t := TMessage) tr worker now m /\
    m.(Message.state) = MessageState.routed /\ m.(Message.body) = Some body /\
    q = submit_request m body.

Lemma submit_policy_refs m tr tr' :
  submit_policy m tr tr' ->
  exists l, tr' = l ++ tr /\
    (submits l = [] \/ exists key body, m.(Message.body) = Some body /\
       submits l = [(key, submit_request m body)]).
Proof.
  intros [(l & -> & Hs & _)|(l2 & l1 & key & body & r & -> & Hb & Hro & Hs & _)].
  - exists l. split; [done | by left].
  - exists (l2 ++ Ev (Submit key (submit_request m body)) r :: l1).
    split; [by rewrite <- (assoc_L (++))|]. right. exists key, body. split; [done|].
    rewrite submits_app, Hs. unfold submits. rewrite bind_cons. cbn.
    fold (submits l1). by rewrite submits_read_only.
Qed.

Lemma wp_submit_all providers worker now rows tr :
  Forall (leased_now (t := TMessage) tr worker now) rows ->
  wp (for_each (submit_claimed providers) rows) tr (fun _ tr' => exists l, tr' = l ++ tr /\
    sublist (reverse ((fun kq => sr_reference kq.2) <$> submits l)) (Message.id <$> rows) /\
    Forall (fun kq => submitted_from tr' worker kq.2) (submits l)).
Proof.
  revert tr. induction rows as [|m rows IH]; intros tr Hrows.
  - cbn. exists []. repeat constructor.
  - apply Forall_cons in Hrows as [Hm Hrows]. cbn [for_each]. apply wp_bind.
    assert (wp (submit_claimed providers m) tr (fun _ tr' => exists l, tr' = l ++ tr /\
      (submits l = [] \/ exists key body, m.(Message.body) = Some body /\
         m.(Message.state) = MessageState.routed /\
         submits l = [(key, submit_request m body)]))) as Hone.
    { unfold submit_claimed. case_bool_decide as Hs; [|cbn; exists []; by split; [|left]].
      destruct (leased_routed _ _ _ _ Hm Hs) as (Hwf & _).
      eapply wp_mono; [|apply wp_submit_one; [apply won_known, Hm | done | done]].
      intros ? tr' (l & -> & Hl)%submit_policy_refs. exists l. split; [done|].
      destruct Hl as [|(key & body & ? & ?)]; [by left|]. right. by exists key, body. }
    eapply wp_mono; [|exact Hone]. intros ? tr' (l & -> & Hl).
    eapply wp_mono; [|apply IH; eapply Forall_impl; [exact Hrows | intros; by apply leased_now_app]].
    intros ? tr' (l' & -> & Hsub & Hfrom). exists (l' ++ l).
    split; [by rewrite <- (assoc_L (++))|]. rewrite submits_app, fmap_app, reverse_app, fmap_cons.
    destruct Hl as [->|(key & body & Hb & Hs & ->)].
    + cbn. rewrite app_nil_r. split; [by constructor | done].
    + split; [cbn; by constructor|]. apply Forall_app. split; [done|]. repeat constructor.
      apply (leased_now_app l), (leased_now_app l') in Hm. by exists m, now, body.
Qed.

End DispatchFacts.

(** ** The claims of this component *)
Section DispatchClaims.

Context `{E : CratestackErrors} `{B : !Backend} `{P : PhoneLib} `{U : UnicodeDebug}.

Lemma wp_dispatch_tick providers worker :
  wp (tick providers worker) [] (fun _ tr =>
    NoDup ((fun kq => sr_reference kq.2) <$> submits tr) /\
    Forall (fun kq => submitted_from tr worker kq.2) (submits tr)).
Proof.
  unfold tick. apply wp_ok_bind.
  eapply wp_mono; [|apply wp_no_submit; [apply message_claim_no_submit | apply wp_message_batch]].
  intros r tr [Hr Hns]. cbn [submits] in Hns. destruct r as [rows|e].
  - destruct (Hr rows eq_refl) as (_ & (now & _ & Hl) & Hn). apply wp_bind.
    eapply wp_mono; [|apply (wp_submit_all providers worker now); exact Hl].
    intros ? tr' (l & -> & Hsub & Hf). cbn [wp]. rewrite submits_app, Hns, app_nil_r.
    split; [|done]. rewrite <- reverse_Permutation. by eapply sublist_NoDup.
  - rewrite Hns. by split; constructor.
Qed.

(** C4. What a dispatch tick submits: no message twice; and every request is
    built from a row this worker's own accepted write left in [routed] with
    a full dispatch lease, read before its validity ran out, on an attempt that keeps within
    [maxAttempts] whenever the counter did before. *)
Theorem dispatch_tick_submits providers worker w r tr w' :
  world_ok w -> rtc step (tick providers worker, [], w) (Ret r, tr, w') ->
  NoDup ((fun kq => sr_reference kq.2) <$> submits tr) /\
  forall key q, (key, q) ∈ submits tr ->
    exists m x now body, won tr TMessage m /\ known tr TMessage x /\
      q = submit_request m body /\ m.(Message.body) = Some body /\
      m.(Message.state) = MessageState.routed /\ m.(Message.leaseOwner) = Some worker /\
      m.(Message.leaseUntil) = Some (now + DISPATCH_LEASE) /\
      x.(Message.id) = m.(Message.id) /\ now < x.(Message.expiresAt) /\
      (x.(Message.attempts) <= x.(Message.maxAttempts) ->
       m.(Message.attempts) <= m.(Message.maxAttempts)).
Proof.
  intros Hok Hr. apply (wp_run _ _ _ _ _ _ _ (wp_dispatch_tick providers worker)) in Hr as [Hn Hf];
    [|done|apply valid_nil|constructor].
  split; [done|]. intros key q Hin. rewrite Forall_forall in Hf. apply Hf in Hin. cbn [snd] in Hin.
  destruct Hin as (m & now & body & Hl & Hs & Hb & ->).
  destruct (leased_routed _ _ _ _ Hl Hs) as (_ & Ho & Hlu & x & Hkx & Hid & Hexp & Hatt).
  exists m, x, now, body. split_and!; try done. apply Hl.
Qed.

(** C5. The error policy. However a submission failed, handling it submits
    nothing more and only [Unavailable] counts against the provider's circuit
    breaker.  An [Indeterminate] outcome is written once, to [uncertain], with
    no retry and no failover; [Rejected] and [Unsupported] once, to [failed];
    [Transient] once, back to [queued] behind the stated delay, which is
    bounded.  After [Permanent] and [Unavailable] the message is rerouted, to a
    usable route of the highest priority among all routes just read and outside
    those used up, which the write records; it is written to [failed] or back to [queued]
    only when the hops are used up or no route read is usable, and left
    unwritten only when reading the routes failed. *)
Theorem submit_error_policy m prow err tr w r tr' w' :
  world_ok w -> valid tr w -> Forall (fun e => ~ illegal_reply e) tr ->
  known tr TMessage m -> m.(Message.state) = MessageState.routed -> row_wf TMessage m = true ->
  (forall p, prow = Some p -> known tr TProvider p) -> retry_bounded (Err err) ->
  rtc step (handle_submit_error m prow err, tr, w) (Ret r, tr', w') ->
  error_policy m prow err tr tr'.
Proof.
  intros Hok Hv Hl Hk Hs Hwf Hp Hb Hr.
  by apply (wp_run _ _ _ _ _ _ _ (wp_handle_submit_error m prow err tr Hk Hs Hwf Hp Hb)) in Hr.
Qed.

End DispatchClaims.

(** ** The failover chain *)

Section Failover.

Context `{E : CratestackErrors} `{B : !Backend} `{P : PhoneLib}.

(** One hop: [attempt_failover] ran on the routed row [m] it was given, beside
    any other writers, and answered that the message is rerouted; its write was
    accepted and stored [b]; and [m'] is [b] after whatever later writes keep
    the two route columns. *)
Definition hop (m m' : Message.t) : Prop :=
  exists reason tr w l w' b, world_ok w /\ valid tr w /\ Forall (fun e => ~ illegal_reply e) tr /\
    known tr TMessage m /\ m.(Message.state) = MessageState.routed /\ row_wf TMessage m = true /\
    rtc step (attempt_failover m reason, tr, w) (Ret (Ok Rerouted), l ++ tr, w') /\
    b ∈ stored_messages l /\ m'.(Message.routeId) = b.(Message.routeId) /\
    m'.(Message.excludedRouteIds) = b.(Message.excludedRouteIds).

Lemma hop_excluded m m' :
  hop m m' -> exists r, m'.(Message.routeId) = Some r /\ (r ∉ excluded_routes m) /\
    excluded_routes m' = excluded_routes m ++ [r] /\
    (length (excluded_routes m) <= MAX_FAILOVER_HOPS)%nat.
Proof.
  intros (reason & tr & w & l & w' & b & Hok & Hv & Hl & Hk & Hs & Hwf & Hrun & Hb & Hr & Hx).
  assert (wp (attempt_failover m reason) tr (fun r tr' => r = Ok Rerouted ->
    exists l x, tr' = l ++ tr /\ reroute_write l m x /\ Forall (message_after x.1.2 m) (stored_messages l))) as Hwp.
  { apply wp_attempt_failover; try done. intros l' x _ _ _ Hw Hst _. by exists l', x. }
  apply (wp_run _ _ _ _ _ _ _ Hwp) in Hrun as (l' & x & Hll & Hw & Hst); [|done..].
  apply app_inv_tail in Hll as <-. rewrite Forall_forall in Hst. apply Hst in Hb.
  destruct Hw as (winner & why & now & -> & Hback & Hlen).
  assert (w_route_id winner ∉ excluded_routes m) as Hnin.
  { destruct Hback as (n & routes & providers & r & p & _ & _ & _ & -> & (_ & _ & Hn & _) & _).
    by rewrite elem_of_list_to_set in Hn. }
  destruct Hb as (clock & fin & sub & ->).
  change (Message.routeId m' = Some (w_route_id winner)) in Hr.
  change (Message.excludedRouteIds m' = Some (packed_of (excluded_routes m))) in Hx.
  exists (w_route_id winner).
  split; [done|]. split; [done|]. split; [|done].
  unfold excluded_routes at 1. rewrite Hr, Hx. cbn [from_option id].
  rewrite unpack_packed_of by (by apply excluded_routes_packable).
  by rewrite bool_decide_eq_false_2.
Qed.

(** C6. Failover is bounded and never revisits a route: along any chain of
    runs of [attempt_failover] that rerouted one message, each from the row
    the one before stored, with any writes between them that keep its
    route columns, the routes used up only grow, each new route is outside
    all the earlier ones, and a message that had a route is rerouted at most
    [MAX_FAILOVER_HOPS] times. *)
Theorem failover_hops_bounded n m m' :
  is_Some m.(Message.routeId) -> nsteps hop n m m' ->
  (n <= MAX_FAILOVER_HOPS)%nat /\
  exists visited, excluded_routes m' = excluded_routes m ++ visited /\
    length visited = n /\ (NoDup (excluded_routes m) -> NoDup (excluded_routes m')).
Proof.
  intros [r0 Hr0] Hn.
  assert (1 <= length (excluded_routes m))%nat as Hpos.
  { unfold excluded_routes. rewrite Hr0. case_bool_decide as Hin.
    - destruct (unpack _); [by apply not_elem_of_nil in Hin | cbn; lia].
    - rewrite length_app. cbn. lia. }
  assert (exists visited, excluded_routes m' = excluded_routes m ++ visited /\
    length visited = n /\ (NoDup (excluded_routes m) -> NoDup (excluded_routes m')) /\
    (n = 0 \/ length (excluded_routes m) + n <= 1 + MAX_FAILOVER_HOPS)%nat) as Hv.
  { clear Hr0 Hpos. induction Hn as [m|n m m1 m' H1 _ IH].
    - exists []. rewrite app_nil_r. auto.
    - destruct (hop_excluded _ _ H1) as (r & _ & Hnin & He & Hlen).
      destruct IH as (visited & Hv & Hl & Hnd & Hle). exists (r :: visited).
      rewrite Hv, He, <- (assoc_L (++)). split_and!; [done | cbn; lia | |].
      + intros Hm. assert (NoDup (excluded_routes m1)) as Hm1.
        { rewrite He. apply NoDup_app. split; [done|]. split; [|apply NoDup_singleton].
          by intros x Hx ->%list_elem_of_singleton. }
        specialize (Hnd Hm1). by rewrite Hv, He, <- (assoc_L (++)) in Hnd.
      + right. rewrite He, length_app in Hle. cbn in Hle. lia. }
  destruct Hv as (visited & Hv & Hl & Hnd & Hle). split; [lia|]. by exists visited.
Qed.

End Failover.

(** ** Examples *)
Module DispatchExamples.

#[local] Existing Instance demo_errors.
#[local] Existing Instance demo_phone.
#[local] Existing Instance demo_debug.

Definition ex_registry : ProviderRegistry :=
  [(lit "orange_cm", mkAdapter (lit "orange_cm") (f64_of_Z 5));
   (lit "mtn_cm", mkAdapter (lit "mtn_cm") (f64_of_Z 10))].

(** A queued message, a provider that accepts it. *)
Abbreviation ex_tick :=
  (ref_run accepting (tick ex_registry (lit "w1")) [] (ex_world MessageState.queued)).

Lemma dispatch_tick_submits_witness :
  submits (run_trace ex_tick) =
    [(lit "orange_cm", submit_request (ex_message (lit "m1") MessageState.routed) (lit "code 1234"))] /\
  NoDup ((fun kq => sr_reference kq.2) <$> submits (run_trace ex_tick)).
Proof.
  split; [vm_compute; reflexivity|].
  apply (@dispatch_tick_submits demo_errors (ref_backend accepting) demo_phone demo_debug
    ex_registry (lit "w1") (ex_world MessageState.queued) (Ok tt) (run_trace ex_tick) ex_tick.2).
  - apply ex_world_ok.
  - apply ref_run_done. vm_compute. reflexivity.
Defined.

(** The routed message and its provider, read from the example world; the
    provider answers nothing intelligible. *)
Definition ex_w : world := ex_world MessageState.routed.
Definition ex_m : Message.t := ex_message (lit "m1") MessageState.routed.
Definition ex_p : Provider.t := ex_provider (lit "pv1") (lit "orange_cm") 0.

Definition by_id (t : tbl) (id : text) : query t :=
  mkQuery (fun r => bool_decide (row_id t r = id)) [] None.

Definition ex_read : trace :=
  [read_event ex_w TMessage (by_id TMessage (lit "m1"));
   read_event ex_w TProvider (by_id TProvider (lit "pv1"))].

Lemma ex_read_known :
  known ex_read TMessage ex_m /\ forall p, Some ex_p = Some p -> known ex_read TProvider p.
Proof.
  split; [|intros p [= <-]; apply known_cons]; apply known_read_event;
    (match goal with |- _ ∈ ?l => let l' := eval vm_compute in l in change l with l' end; by left).
Qed.

Abbreviation ex_handle err :=
  (ref_run (failing err) (handle_submit_error ex_m (Some ex_p) err) ex_read ex_w).

Lemma submit_error_policy_witness :
  error_policy ex_m (Some ex_p) (Indeterminate (lit "timeout") None) ex_read
    (run_trace (ex_handle (Indeterminate (lit "timeout") None))).
Proof.
  apply (@submit_error_policy demo_errors (ref_backend (failing (Indeterminate (lit "timeout") None)))
    demo_phone ex_m (Some ex_p) (Indeterminate (lit "timeout") None) ex_read ex_w tt _
    (ex_handle (Indeterminate (lit "timeout") None)).2).
  - apply ex_world_ok.
  - do 2 (apply (valid_read_event accepting); [apply ex_world_ok|]). apply valid_nil.
  - repeat constructor; by intros [].
  - apply ex_read_known.
  - reflexivity.
  - reflexivity.
  - apply ex_read_known.
  - exact I.
  - apply ref_run_done. vm_compute. reflexivity.
Defined.

(** The failover of the message, and the row it leaves. *)
Abbreviation ex_over :=
  (ref_run accepting (attempt_failover ex_m (lit "provider unavailable")) ex_read ex_w).

Definition ex_new : trace := take (length (run_trace ex_over) - length ex_read) (run_trace ex_over).

Definition ex_rerouted : Message.t := default ex_m (head (stored_messages ex_new)).

Lemma failover_hops_bounded_witness :
  (1 <= MAX_FAILOVER_HOPS)%nat /\ excluded_routes ex_rerouted = [lit "rt1"; lit "rt2"].
Proof.
  destruct (@failover_hops_bounded demo_errors (ref_backend accepting) demo_phone 1 ex_m ex_rerouted) as [Hn _].
  - by eexists.
  - apply nsteps_once.
    exists (lit "provider unavailable"), ex_read, ex_w, ex_new, ex_over.2, ex_rerouted. split_and!.
    + apply ex_world_ok.
    + do 2 (apply (valid_read_event accepting); [apply ex_world_ok|]). apply valid_nil.
    + repeat constructor; by intros [].
    + apply ex_read_known.
    + reflexivity.
    + reflexivity.
    + assert (ex_new ++ ex_read = run_trace ex_over) as -> by (vm_compute; reflexivity).
      apply ref_run_done. vm_compute. reflexivity.
    + assert (stored_messages ex_new = [ex_rerouted]) as -> by (vm_compute; reflexivity). by left.
    + reflexivity.
    + reflexivity.
  - split; [exact Hn | vm_compute; reflexivity].
Defined.

End DispatchExamples.
