(* ===== verification/Dlr.v ===== *)
(** * sms-api: delivery receipts (dlr.rs)

    A provider callback, parsed by the provider's adapter (a parameter), is
    recorded receipt by receipt and moves the message it refers to.
    [parse_operator_code] is from procedures.rs. *)

From S2P Require Import Prelude ProviderApi Schema Errors Db DbLogic DbRef Commits WorkerRouting.
From S2P Require Import DemoData.

Definition parse_operator_code (s : text) : option OperatorCode.t :=
  if bool_decide (s = lit "mtn") then Some OperatorCode.mtn
  else if bool_decide (s = lit "orange") then Some OperatorCode.orange
  else if bool_decide (s = lit "camtel") then Some OperatorCode.camtel
  else if bool_decide (s = lit "nexttel") then Some OperatorCode.nexttel
  else if bool_decide (s = lit "unknown") then Some OperatorCode.unknown
  else None.

(** ** [String::from_utf8_lossy]

    Each maximal ill-formed subpart becomes U+FFFD. *)
Definition REPLACEMENT : Z := 65533.

Definition is_cont (b : Z) : bool := (128 <=? b) && (b <=? 191).

(** The range of the second byte after a leading byte. *)
Definition second_ok (b b1 : Z) : bool :=
  if b =? 224 then (160 <=? b1) && (b1 <=? 191)
  else if b =? 237 then (128 <=? b1) && (b1 <=? 159)
  else if b =? 240 then (144 <=? b1) && (b1 <=? 191)
  else if b =? 244 then (128 <=? b1) && (b1 <=? 143)
  else is_cont b1.

Fixpoint utf8_lossy (fuel : nat) (bs : list Z) : text :=
  match fuel, bs with
  | O, _ | _, [] => []
  | S n, b :: r =>
      if b <? 128 then b :: utf8_lossy n r
      else if (194 <=? b) && (b <=? 223) then
        match r with
        | b1 :: r1 => if is_cont b1 then ((b - 192) * 64 + (b1 - 128)) :: utf8_lossy n r1
                      else REPLACEMENT :: utf8_lossy n r
        | [] => [REPLACEMENT]
        end
      else if (224 <=? b) && (b <=? 239) then
        match r with
        | b1 :: r1 =>
            if second_ok b b1 then
              match r1 with
              | b2 :: r2 =>
                  if is_cont b2
                  then ((b - 224) * 4096 + (b1 - 128) * 64 + (b2 - 128)) :: utf8_lossy n r2
                  else REPLACEMENT :: utf8_lossy n r1
              | [] => [REPLACEMENT]
              end
            else REPLACEMENT :: utf8_lossy n r
        | [] => [REPLACEMENT]
        end
      else if (240 <=? b) && (b <=? 244) then
        match r with
        | b1 :: r1 =>
            if second_ok b b1 then
              match r1 with
              | b2 :: r2 =>
                  if is_cont b2 then
                    match r2 with
                    | b3 :: r3 =>
                        if is_cont b3
                        then ((b - 240) * 262144 + (b1 - 128) * 4096 + (b2 - 128) * 64 + (b3 - 128))
                               :: utf8_lossy n r3
                        else REPLACEMENT :: utf8_lossy n r2
                    | [] => [REPLACEMENT]
                    end
                  else REPLACEMENT :: utf8_lossy n r1
              | [] => [REPLACEMENT]
              end
            else REPLACEMENT :: utf8_lossy n r
        | [] => [REPLACEMENT]
        end
      else REPLACEMENT :: utf8_lossy n r
  end.

(** Every round consumes a byte, so the length is fuel enough. *)
Definition from_utf8_lossy (bs : list Z) : text := utf8_lossy (length bs) bs.

(** ** Retry backoff *)
Definition UNDELIVERED_BACKOFF_SCHEDULE : list duration :=
  [seconds 5; seconds 30; minutes 2; minutes 10; minutes 30].

(** Index into a schedule by attempt, clamped to its last entry. The arrays
    are not empty, so the default of [nth] is never taken. *)
Definition schedule_at (schedule : list duration) (attempts : Z) : duration :=
  nth (Nat.min (Z.to_nat (Z.max (attempts - 1) 0)) (length schedule - 1)) schedule 0.

Definition undelivered_retry_backoff (attempts : Z) : duration :=
  schedule_at UNDELIVERED_BACKOFF_SCHEDULE attempts.

(** ** [next_state] *)
Definition next_state (current : MessageState.t) (outcome : DeliveryOutcome)
  : option MessageState.t :=
  match current with
  | MessageState.submitted =>
      match outcome with
      | OutDelivered => Some MessageState.delivered
      | OutUncertain => Some MessageState.uncertain
      | OutExpired => Some MessageState.expired
      | OutRejected => Some MessageState.failed
      | OutFailed => Some MessageState.undelivered
      | OutInFlight | OutUnknown => None
      end
  | MessageState.uncertain =>
      match outcome with
      | OutDelivered => Some MessageState.delivered
      | OutExpired => Some MessageState.expired
      | OutRejected | OutFailed => Some MessageState.failed
      | OutUncertain | OutInFlight | OutUnknown => None
      end
  | MessageState.undelivered =>
      match outcome with
      | OutExpired => Some MessageState.expired
      | OutRejected => Some MessageState.failed
      | OutDelivered | OutUncertain | OutFailed | OutInFlight | OutUnknown => None
      end
  | MessageState.accepted | MessageState.queued | MessageState.routed | MessageState.delivered
  | MessageState.failed | MessageState.expired | MessageState.rejected
  | MessageState.cancelled => None
  end.

Definition to_schema_outcome (outcome : DeliveryOutcome) : DeliveryOutcomeCode.t :=
  match outcome with
  | OutDelivered => DeliveryOutcomeCode.delivered
  | OutUncertain => DeliveryOutcomeCode.uncertain
  | OutFailed => DeliveryOutcomeCode.failed
  | OutExpired => DeliveryOutcomeCode.expired
  | OutRejected => DeliveryOutcomeCode.rejected
  | OutInFlight => DeliveryOutcomeCode.in_flight
  | OutUnknown => DeliveryOutcomeCode.unknown
  end.

(** ** Ingestion *)
Definition correlated (provider_row_id : text) (update : DeliveryUpdate) : query TMessage :=
  mkQuery (fun m : row TMessage =>
      col_eq m.(Message.providerId) provider_row_id
      && (col_eq m.(Message.providerMessageRef) (du_provider_ref update)
          || col_eq m.(Message.providerMessageRefAlt) (du_provider_ref update)))
    [] (Some 1).

Definition receipt_of (found : Message.t) (provider_row_id raw_payload : text)
  (update : DeliveryUpdate) : CreateDeliveryReceiptInput :=
  let network := default found.(Message.operator)
                   (du_delivering_network update ≫= parse_operator_code) in
  mkCreateReceipt found.(Message.id) provider_row_id (du_provider_ref update)
    (to_schema_outcome (du_outcome update)) (du_raw_status update) (du_error_code update)
    network (du_occurred_at update) raw_payload.

Record RawCallback := mkRawCallback {
  rcb_headers : list (text * text);
  rcb_body : list Z }.

Section Ingest.

Context `{E : CratestackErrors}.

(** The conditional write at the end of [ingest_one]. *)
Definition apply_verdict (found : Message.t) (target : MessageState.t)
  : prog (result unit CratestackError) :=
  let! lease_until :=
    if bool_decide (target = MessageState.undelivered) then
      let! now := do Now in
      Ret [Message.SetLeaseUntil
             (Some (now + undelivered_retry_backoff found.(Message.attempts)))]
    else Ret [] in
  let! result := do (Update TMessage found.(Message.id)
    (Message.SetState target :: lease_until) found.(Message.version)) in
  match result with
  | Ok _ => Ret (Ok tt)
  | Err error =>
      if is_illegal_transition error then Ret (Err (map_database_error error))
      else match view error with
           | VPreconditionFailed _ => Ret (Ok tt)
           | _ => Ret (Err error)
           end
  end.

Definition ingest_one (provider_row_id raw_payload : text) (update : DeliveryUpdate)
  : prog (result unit CratestackError) :=
  let!? candidates := do (FindMany TMessage (correlated provider_row_id update)) in
  match candidates with
  | [] => Ret (Ok tt)
  | found :: _ =>
      let!? _ := do (Create TReceipt (receipt_of found provider_row_id raw_payload update)) in
      match next_state found.(Message.state) (du_outcome update) with
      | None => Ret (Ok tt)
      | Some target =>
          if bool_decide (target = found.(Message.state)) then Ret (Ok tt)
          else apply_verdict found target
      end
  end.

Definition ingest (parse_dlr : RawCallback -> result (list DeliveryUpdate) ProviderError)
  (provider_row_id : text) (raw : RawCallback) : prog (result unit ProviderError) :=
  match parse_dlr raw with
  | Err e => Ret (Err e)
  | Ok updates =>
      let raw_payload := from_utf8_lossy (rcb_body raw) in
      let! _ := for_each (fun update =>
          let! _ := ingest_one provider_row_id raw_payload update in Ret tt) updates in
      Ret (Ok tt)
  end.

End Ingest.

(** ** [next_state] against the database's table *)

Definition legal_edge (a b : MessageState.t) : bool :=
  bool_decide ((a, b) ∈ Guards.message_state_transitions).

Lemma next_state_edge current outcome t :
  next_state current outcome = Some t -> legal_edge current t = true /\ t <> current.
Proof. destruct current, outcome; cbn; intros [= <-]; split; (vm_compute; reflexivity) || done. Qed.

(** ** What ingesting one receipt does *)
Section IngestFacts.

Context `{E : CratestackErrors}.

(** The write a verdict makes, and the lease that delays a retry. *)
Definition verdict_write (m : Message.t) (target : MessageState.t) (l : trace) : Prop :=
  exists lease, message_writes l =
      [(m.(Message.id), Message.SetState target :: lease, m.(Message.version))] /\
    if bool_decide (target = MessageState.undelivered) then
      exists now, Ev Now now ∈ l /\ lease =
        [Message.SetLeaseUntil (Some (now + undelivered_retry_backoff m.(Message.attempts)))]
    else lease = [].

(** The calls of [ingest_one], earliest last: the lookup; for the message it
    finds, the receipt; and after a stored receipt, the verdict's write if
    [next_state] gives one.  Nothing else. *)
Definition ingest_calls (provider raw_payload : text) (update : DeliveryUpdate) (l : trace) : Prop :=
  exists reply l1, l = l1 ++ [Ev (FindMany TMessage (correlated provider update)) reply] /\
  match reply with
  | Ok (m :: _) =>
      m.(Message.providerId) = Some provider /\
      (m.(Message.providerMessageRef) = Some (du_provider_ref update) \/
       m.(Message.providerMessageRefAlt) = Some (du_provider_ref update)) /\
      exists stored l2,
        l1 = l2 ++ [Ev (Create TReceipt (receipt_of m provider raw_payload update)) stored] /\
        submits l2 = [] /\
        match stored with
        | Ok _ =>
            match next_state m.(Message.state) (du_outcome update) with
            | Some target => verdict_write m target l2
            | None => l2 = []
            end
        | Err _ => l2 = []
        end
  | _ => l1 = []
  end.

Lemma verdict_edge m target lease :
  legal_edge m.(Message.state) target = true ->
  (forall x, Message.state (Message.apply lease x) = Message.state x) ->
  message_edge (Message.SetState target :: lease) m = true.
Proof.
  intros He Hl. unfold message_edge, Guards.edge_ok, Message.apply. cbn [foldl].
  fold (Message.apply lease (Message.set_col m (Message.SetState target))). rewrite Hl. cbn.
  unfold legal_edge in He. rewrite He. apply orb_true_r.
Qed.

Lemma wp_apply_verdict m target tr Q :
  known tr TMessage m -> legal_edge m.(Message.state) target = true ->
  (forall r l, submits l = [] -> verdict_write m target l -> Q r (l ++ tr)) ->
  wp (apply_verdict m target) tr Q.
Proof.
  intros Hk He HQ. unfold apply_verdict. apply wp_bind.
  destruct (bool_decide (target = MessageState.undelivered)) eqn:Hu; [apply wp_now; intros now|];
    cbn [wp]; (apply wp_update_message; [auto with vsms | by apply verdict_edge | |]).
  - intros b _. cbn [wp]. eapply (HQ _ [_; _]); [done|]. eexists. split; [done|]. rewrite Hu.
    exists now. split; [right; by left | done].
  - intros e _. repeat case_match; cbn [wp]; (eapply (HQ _ [_; _]); [done|]; eexists;
      split; [done|]; rewrite Hu; exists now; split; [right; by left | done]).
  - intros b _. cbn [wp]. eapply (HQ _ [_]); [done|]. exists []. by rewrite Hu.
  - intros e _. repeat case_match; cbn [wp]; (eapply (HQ _ [_]); [done|]; exists []; by rewrite Hu).
Qed.

Lemma wp_ingest_one provider raw_payload update tr :
  wp (ingest_one provider raw_payload update) tr
    (fun _ tr' => exists l, tr' = l ++ tr /\ ingest_calls provider raw_payload update l).
Proof.
  unfold ingest_one. apply wp_find_ok.
  2: { intros e. eexists [_]. split; [done|]. eexists _, []. by split. }
  intros rows Hrows _ _. destruct rows as [|m rows].
  { cbn [wp]. eexists [_]. split; [done|]. eexists _, []. by split. }
  apply Forall_cons in Hrows as [Hm _]. cbn [q_where correlated] in Hm.
  apply andb_true_iff in Hm as [Hp Hr]. apply bool_decide_eq_true in Hp.
  assert (m.(Message.providerMessageRef) = Some (du_provider_ref update) \/
    m.(Message.providerMessageRefAlt) = Some (du_provider_ref update)) as Href.
  { apply orb_true_iff in Hr as [Hr|Hr]; apply bool_decide_eq_true in Hr; [by left | by right]. }
  clear Hr. set (find := Ev (FindMany TMessage (correlated provider update)) (Ok (m :: rows))).
  assert (known (find :: tr) TMessage m) as Hk by (apply (known_find _ TMessage); by left).
  unfold pbind_ok. apply wp_do; [done|]. intros stored _.
  set (create := Ev (Create TReceipt _) stored).
  assert (forall l2, submits l2 = [] ->
    match stored with
    | Ok _ => match next_state m.(Message.state) (du_outcome update) with
              | Some target => verdict_write m target l2 | None => l2 = [] end
    | Err _ => l2 = []
    end -> exists l, l2 ++ create :: find :: tr = l ++ tr /\ ingest_calls provider raw_payload update l)
    as Hdone.
  { intros l2 Hs Hc. exists (l2 ++ [create; find]). split; [by rewrite <- (assoc_L (++))|].
    exists (Ok (m :: rows)), (l2 ++ [create]). split; [by rewrite <- (assoc_L (++))|].
    split; [done|]. split; [done|]. exists stored, l2. by split_and!. }
  destruct stored as [rcpt|e]; [|cbn [wp]; by apply (Hdone [])].
  destruct (next_state _ _) as [target|] eqn:Hn; [|cbn [wp]; by apply (Hdone [])].
  destruct (next_state_edge _ _ _ Hn) as [Hedge Hne].
  rewrite bool_decide_eq_false_2 by done.
  apply wp_apply_verdict; [by apply known_cons | done|]. intros r l. apply Hdone.
Qed.

End IngestFacts.

Section IngestClaims.

Context `{E : CratestackErrors} `{B : !Backend}.

(** C10. Ingesting a receipt records it before anything else and applies at
    most its own verdict: for the message the provider and reference name,
    the receipt is stored first; only then, and only when [next_state] gives
    a target, is one conditional write made, to that target and at the
    version read, with the retry delay exactly when the target is
    [undelivered].  An unknown reference or a failed store writes nothing. *)
Theorem ingest_one_calls provider raw_payload update w r tr w' :
  world_ok w -> rtc step (ingest_one provider raw_payload update, [], w) (Ret r, tr, w') ->
  ingest_calls provider raw_payload update tr.
Proof.
  intros Hok Hr.
  apply (wp_run _ _ _ _ _ _ _ (wp_ingest_one provider raw_payload update [])) in Hr;
    [|done|apply valid_nil|constructor].
  destruct Hr as (l & -> & Hl). by rewrite app_nil_r.
Qed.

Lemma wp_ingest parse_dlr provider raw : wp (ingest parse_dlr provider raw) [] (fun _ _ => True).
Proof.
  unfold ingest. destruct (parse_dlr raw) as [updates|]; [|done].
  apply wp_bind. eapply wp_mono; [|apply (wp_for_each _ _ (fun _ => True)); [done|]]; [done|].
  intros u tr' _ _. apply wp_bind. eapply wp_mono; [|apply wp_ingest_one]. done.
Qed.

End IngestClaims.

(** ** Examples *)
Module DlrExamples.

#[local] Existing Instance demo_errors.

Definition ex_update : DeliveryUpdate :=
  mkDeliveryUpdate (lit "ref-1") OutFailed None (lit "DeliveryImpossible") None (Some (lit "orange")).

Definition ex_parse : RawCallback -> result (list DeliveryUpdate) ProviderError :=
  fun _ => Ok [ex_update].

Definition ex_raw : RawCallback := mkRawCallback [] [123; 125].

Abbreviation ex_ingest_one :=
  (ref_run accepting (ingest_one (lit "pv1") (lit "{}") ex_update) [] (ex_world MessageState.submitted)).

Lemma ingest_one_calls_witness :
  ingest_calls (lit "pv1") (lit "{}") ex_update (run_trace ex_ingest_one) /\
  message_writes (run_trace ex_ingest_one) =
    [(lit "m1", [Message.SetState MessageState.undelivered;
                 Message.SetLeaseUntil (Some (ex_now + seconds 5))], 7)].
Proof.
  split; [|vm_compute; reflexivity].
  apply (@ingest_one_calls demo_errors (ref_backend accepting) (lit "pv1") (lit "{}") ex_update
    (ex_world MessageState.submitted) (Ok tt) _ ex_ingest_one.2).
  - apply ex_world_ok.
  - apply ref_run_done. vm_compute. reflexivity.
Defined.

End DlrExamples.
