(* ===== verification/Jobs.v ===== *)
(** * sms-worker: background jobs (jobs.rs, jobs/error.rs, expire_stale.rs,
      purge_retention.rs)

    One [tick] of the jobs role, the transition each handler outcome makes,
    and the two handlers that act on messages.  A handler is a program from
    the job to a result; the registry maps a kind to its handler. *)

From S2P Require Import Prelude Float64 RoutingEngine Msisdn ProviderApi Schema Errors Db DbLogic.
From S2P Require Import DbRef Commits WorkerRouting DemoData Claim Dlr.

Definition BUDGET : Z := 10.

Definition BACKOFF_SCHEDULE : list duration :=
  [seconds 5; seconds 30; minutes 2; minutes 10; minutes 30].

Definition backoff_for (attempts : Z) : duration := schedule_at BACKOFF_SCHEDULE attempts.

Section Jobs.

Context `{E : CratestackErrors} `{U : UnicodeDebug}.

(** ** jobs/error.rs: the [Sql] source is its text *)
Inductive JobError :=
| JobDatabase (context : text) (source : CratestackError)
| JobSql (context : text) (source : text)
| JobNoHandler (kind : text)
| JobInjected (message : text).

Definition display_JobError (e : JobError) : text :=
  match e with
  | JobDatabase context source => context ++ lit ": " ++ error_to_string source
  | JobSql context source => context ++ lit ": " ++ source
  | JobNoHandler kind => lit "no handler registered for kind " ++ debug_str kind
  | JobInjected message => message
  end.

Definition JobHandler : Type := Job.t -> prog (result unit JobError).

(** [Registry]: a later registration of a kind replaces the earlier. *)
Definition Registry : Type := list (text * JobHandler).

Definition register (r : Registry) (kind : text) (h : JobHandler) : Registry := (kind, h) :: r.

Definition registry_handler (r : Registry) (kind : text) : option JobHandler :=
  snd <$> List.find (fun kh => bool_decide (kh.1 = kind)) r.

(** ** Outcomes *)
Definition swallow_stale_write (error : CratestackError) : result unit CratestackError :=
  if is_illegal_transition error then Err (map_database_error error)
  else match view error with
       | VPreconditionFailed _ => Ok tt
       | _ => Err error
       end.

Definition apply_failure (job : Job.t) (message : text) : prog (result unit CratestackError) :=
  let! r := do (Update TJob job.(Job.id)
    [ Job.SetState JobState.failed; Job.SetLastError (Some message) ] job.(Job.version)) in
  match r with
  | Err error => Ret (swallow_stale_write error)
  | Ok failed =>
      let! next :=
        if failed.(Job.maxAttempts) <=? failed.(Job.attempts) then
          Ret [ Job.SetState JobState.dead ]
        else
          let! now := do Now in
          Ret [ Job.SetState JobState.pending;
                Job.SetRunAt (now + backoff_for failed.(Job.attempts));
                Job.SetLeaseOwner None;
                Job.SetLeaseUntil None ] in
      let! r := do (Update TJob failed.(Job.id) next failed.(Job.version)) in
      match r with
      | Ok _ => Ret (Ok tt)
      | Err error => Ret (swallow_stale_write error)
      end
  end.

Definition apply_outcome (job : Job.t) (outcome : result unit JobError)
  : prog (result unit CratestackError) :=
  match outcome with
  | Ok tt =>
      let! r := do (Update TJob job.(Job.id) [ Job.SetState JobState.succeeded ] job.(Job.version)) in
      match r with
      | Ok _ => Ret (Ok tt)
      | Err error => Ret (swallow_stale_write error)
      end
  | Err error => apply_failure job (display_JobError error)
  end.

Definition run_one (registry : Registry) (job : Job.t) : prog unit :=
  let! outcome :=
    match registry_handler registry job.(Job.kind) with
    | Some handler => handler job
    | None => Ret (Err (JobNoHandler job.(Job.kind)))
    end in
  let! _ := apply_outcome job outcome in
  Ret tt.

(** A [pending] row of the batch was only requeued: it is not run. *)
Definition run_claimed (registry : Registry) (job : Job.t) : prog unit :=
  if bool_decide (job.(Job.state) = JobState.running) then run_one registry job else Ret tt.

Definition tick (worker : text) (registry : Registry) : prog (result unit CratestackError) :=
  let!? claimed := claim_batch (t := TJob) worker BUDGET in
  let! _ := for_each (run_claimed registry) claimed in
  Ret (Ok tt).

(** ** expire_stale.rs *)
Definition UNCERTAIN_GRACE : duration := hours 6.
Definition BATCH : Z := 500.

Definition in_state_until (s : MessageState.t) (column : Message.t -> Z) (limit : Z)
  : query TMessage :=
  mkQuery (fun m : row TMessage => bool_decide (m.(Message.state) = s) && (column m <=? limit))
    [] (Some BATCH).

(** The loop of [expire_matching]. *)
Fixpoint expire_each (l : list Message.t) : prog (result unit CratestackError) :=
  match l with
  | [] => Ret (Ok tt)
  | candidate :: rest =>
      let! r := do (Update TMessage candidate.(Message.id)
        [ Message.SetState MessageState.expired ] candidate.(Message.version)) in
      match r with
      | Ok _ => expire_each rest
      | Err error =>
          if is_illegal_transition error then Ret (Err (map_database_error error))
          else match view error with
               | VConflict _ | VPreconditionFailed _ => expire_each rest
               | _ => Ret (Err error)
               end
      end
  end.

Definition expire_matching (filter : query TMessage) : prog (result unit CratestackError) :=
  let!? candidates := do (FindMany TMessage filter) in
  expire_each candidates.

Definition CTX_SUBMITTED : text := lit "expiring stale submitted messages".
Definition CTX_UNCERTAIN : text := lit "expiring stale uncertain messages".
Definition CTX_UNDELIVERED : text := lit "expiring stale undelivered messages".

Definition with_context {A} (context : text) (p : prog (result A CratestackError))
  : prog (result A JobError) :=
  let! r := p in Ret (map_err (JobDatabase context) r).

Definition expire_stale_run_at (now : Z) : prog (result unit JobError) :=
  let!? _ := with_context CTX_SUBMITTED
    (expire_matching (in_state_until MessageState.submitted Message.expiresAt now)) in
  let!? _ := with_context CTX_UNCERTAIN
    (expire_matching (in_state_until MessageState.uncertain Message.updatedAt (now - UNCERTAIN_GRACE))) in
  let!? _ := with_context CTX_UNDELIVERED
    (expire_matching (in_state_until MessageState.undelivered Message.expiresAt now)) in
  Ret (Ok tt).

Definition expire_stale : JobHandler := fun _ =>
  let! now := do Now in expire_stale_run_at now.

(** ** purge_retention.rs *)
Definition RETENTION : duration := days 90.
Definition PURGED_MSISDN_PLACEHOLDER : text := lit "purged-msisdn".
Definition MESSAGE_BATCH : Z := 500.
Definition RECEIPT_BATCH : Z := 500.

Definition TERMINAL_STATES : list MessageState.t :=
  [MessageState.delivered; MessageState.failed; MessageState.expired; MessageState.rejected;
   MessageState.cancelled].

Definition purgeable (cutoff : Z) : query TMessage :=
  mkQuery (fun m : row TMessage =>
      bool_decide (m.(Message.state) ∈ TERMINAL_STATES) && (m.(Message.createdAt) <=? cutoff)
      && is_null m.(Message.purgedAt)) [] (Some MESSAGE_BATCH).

Definition purge_patch (now : Z) : list Message.col :=
  [ Message.SetMsisdn PURGED_MSISDN_PLACEHOLDER;
    Message.SetBody None;
    Message.SetClientRef None;
    Message.SetIdempotencyKey None;
    Message.SetStateReason None;
    Message.SetPurgedAt (Some now) ].

Fixpoint purge_each (now : Z) (purged : nat) (l : list Message.t)
  : prog (result nat CratestackError) :=
  match l with
  | [] => Ret (Ok purged)
  | candidate :: rest =>
      let! r := do (Update TMessage candidate.(Message.id) (purge_patch now)
        candidate.(Message.version)) in
      match r with
      | Ok _ => purge_each now (S purged) rest
      | Err error =>
          match view error with
          | VConflict _ | VPreconditionFailed _ => purge_each now purged rest
          | _ => Ret (Err error)
          end
      end
  end.

Definition purge_messages (cutoff now : Z) : prog (result nat CratestackError) :=
  let!? candidates := do (FindMany TMessage (purgeable cutoff)) in
  purge_each now 0 candidates.

Definition old_receipts (cutoff : Z) : query TReceipt :=
  mkQuery (fun d : row TReceipt => d.(DeliveryReceipt.receivedAt) <=? cutoff) [] (Some RECEIPT_BATCH).

Fixpoint delete_receipts (deleted : nat) (l : list DeliveryReceipt.t)
  : prog (result nat CratestackError) :=
  match l with
  | [] => Ret (Ok deleted)
  | candidate :: rest =>
      let!? _ := do (Delete TReceipt candidate.(DeliveryReceipt.id)) in
      delete_receipts (S deleted) rest
  end.

Definition purge_delivery_receipts (cutoff : Z) : prog (result nat CratestackError) :=
  let!? candidates := do (FindMany TReceipt (old_receipts cutoff)) in
  delete_receipts 0 candidates.

Definition CTX_PURGE_MESSAGES : text := lit "purging retained messages".
Definition CTX_PURGE_RECEIPTS : text := lit "purging retained delivery receipts".

Definition purge_retention_run_at (now : Z) : prog (result unit JobError) :=
  let cutoff := now - RETENTION in
  let!? _ := with_context CTX_PURGE_MESSAGES (purge_messages cutoff now) in
  let!? _ := with_context CTX_PURGE_RECEIPTS (purge_delivery_receipts cutoff) in
  Ret (Ok tt).

Definition purge_retention : JobHandler := fun _ =>
  let! now := do Now in purge_retention_run_at now.

End Jobs.

(** ** Facts *)
Section JobFacts.

Context `{E : CratestackErrors} `{U : UnicodeDebug}.

Definition failed_patch (message : text) : list Job.col :=
  [ Job.SetState JobState.failed; Job.SetLastError (Some message) ].

(** The second write of a failure, from the row the first one left. *)
Definition retry_write (b : Job.t) (l : trace) : Prop :=
  if b.(Job.maxAttempts) <=? b.(Job.attempts) then
    job_writes l = [(b.(Job.id), [Job.SetState JobState.dead], b.(Job.version))]
  else exists now, Ev Now now ∈ l /\
    job_writes l = [(b.(Job.id),
      [Job.SetState JobState.pending; Job.SetRunAt (now + backoff_for b.(Job.attempts));
       Job.SetLeaseOwner None; Job.SetLeaseUntil None], b.(Job.version))].

(** What recording an outcome does: [succeeded] at once; or [failed] with the
    error's text and then, once that is stored, [dead] exactly when the
    attempts are used up, else [pending] again after the backoff. *)
Definition outcome_policy (job : Job.t) (outcome : result unit JobError) (l : trace) : Prop :=
  match outcome with
  | Ok _ => job_writes l = [(job.(Job.id), [Job.SetState JobState.succeeded], job.(Job.version))]
  | Err e => exists reply l1,
      l = l1 ++ [Ev (Update TJob job.(Job.id) (failed_patch (display_JobError e)) job.(Job.version)) reply] /\
      match reply with
      | Err _ => l1 = []
      | Ok b => job_after (failed_patch (display_JobError e)) job b /\ retry_write b l1
      end
  end.

Lemma wp_apply_failure job message tr Q :
  known tr TJob job -> job.(Job.state) = JobState.running ->
  (forall r reply l1,
     match reply with
     | Err _ => l1 = []
     | Ok b => job_after (failed_patch message) job b /\ retry_write b l1
     end ->
     Q r (l1 ++ Ev (Update TJob job.(Job.id) (failed_patch message) job.(Job.version)) reply :: tr)) ->
  wp (apply_failure job message) tr Q.
Proof.
  intros Hk Hs HQ. unfold apply_failure. fold (failed_patch message).
  apply wp_update_job; [done | solve_edge Hs | |].
  2: { intros e _. cbn [wp]. by apply (HQ _ (Err e) []). }
  intros b Hb. set (first := Ev (Update TJob _ _ _) (Ok b)).
  assert (b.(Job.state) = JobState.failed) as Hbs by (by destruct Hb as (? & ? & ? & ->)).
  assert (known (first :: tr) TJob b) as Hkb by apply (known_update _ TJob).
  apply wp_bind. destruct (Job.maxAttempts b <=? Job.attempts b) eqn:Hd.
  - cbn [wp]. apply wp_update_job; [done | solve_edge Hbs | |].
    + intros b' _. cbn [wp]. eapply (HQ _ (Ok b) [_]). split; [done|]. unfold retry_write. by rewrite Hd.
    + intros e _. cbn [wp]. eapply (HQ _ (Ok b) [_]). split; [done|]. unfold retry_write. by rewrite Hd.
  - apply wp_now. intros now. cbn [wp]. apply wp_update_job; [by apply known_cons | solve_edge Hbs | |].
    + intros b' _. cbn [wp]. eapply (HQ _ (Ok b) [_; _]). split; [done|]. unfold retry_write. rewrite Hd.
      exists now. split; [right; by left | done].
    + intros e _. cbn [wp]. eapply (HQ _ (Ok b) [_; _]). split; [done|]. unfold retry_write. rewrite Hd.
      exists now. split; [right; by left | done].
Qed.

Lemma wp_apply_outcome job outcome tr :
  known tr TJob job -> job.(Job.state) = JobState.running ->
  wp (apply_outcome job outcome) tr
    (fun _ tr' => exists l, tr' = l ++ tr /\ outcome_policy job outcome l).
Proof.
  intros Hk Hs. unfold apply_outcome. destruct outcome as [[]|e].
  - apply wp_update_job; [done | solve_edge Hs | |]; intros; cbn [wp]; by eexists [_].
  - apply wp_apply_failure; [done | done|]. intros r reply l1 Hl.
    eexists (l1 ++ [_]). split; [by rewrite <- (assoc_L (++))|]. by exists reply, l1.
Qed.

(** Handlers a registry may hold: programs that are safe for any job. *)
Definition handlers_safe (registry : Registry) : Prop :=
  forall kind h, registry_handler registry kind = Some h ->
    forall job tr, wp (h job) tr (fun _ _ => True).

Lemma wp_run_claimed registry job tr :
  handlers_safe registry -> known tr TJob job ->
  wp (run_claimed registry job) tr (fun _ tr' => exists l, tr' = l ++ tr).
Proof.
  intros Hh Hk. unfold run_claimed. case_bool_decide as Hs; [|cbn; by exists []].
  unfold run_one. apply wp_bind.
  assert (wp (match registry_handler registry job.(Job.kind) with
      | Some handler => handler job | None => Ret (Err (JobNoHandler job.(Job.kind))) end) tr
    (fun _ tr' => True)) as Hrun.
  { destruct (registry_handler _ _) as [h|] eqn:Eh; [by eapply Hh | done]. }
  eapply wp_mono; [|apply wp_extends, Hrun]. intros outcome tr' [_ [l ->]].
  apply wp_bind. eapply wp_mono; [|apply wp_apply_outcome; [auto with vsms | done]].
  intros ? tr' (l' & -> & _). cbn [wp]. exists (l' ++ l). by rewrite <- (assoc_L (++)).
Qed.

Lemma wp_jobs_tick worker registry :
  handlers_safe registry -> wp (tick worker registry) [] (fun _ _ => True).
Proof.
  intros Hh. unfold tick. apply wp_ok_bind. eapply wp_mono; [|apply wp_claim_batch].
  intros r tr Hr. destruct r as [rows|e]; [|done].
  destruct (Hr rows eq_refl) as (_ & now & _ & Hl).
  apply wp_bind. eapply wp_mono; [|apply (wp_for_each _ _ (fun tr => Forall (leased_now tr worker now) rows)); [done|]].
  { done. }
  intros job tr' Hin HI. rewrite Forall_forall in HI.
  eapply wp_mono; [|apply wp_run_claimed; [done | apply won_known, (HI _ Hin)]].
  intros ? tr'' [l ->]. apply Forall_forall. intros b Hb. by apply leased_now_app, HI.
Qed.

(** ** The two modelled handlers *)
Lemma wp_expire_each l tr (s : MessageState.t) :
  legal_edge s MessageState.expired = true ->
  Forall (fun m => known tr TMessage m /\ m.(Message.state) = s) l ->
  wp (expire_each l) tr (fun _ _ => True).
Proof.
  intros He. revert tr. induction l as [|m l IH]; intros tr Hl; [done|].
  apply Forall_cons in Hl as [[Hk Hs] Hl].
  assert (forall e, wp (expire_each l) (e :: tr) (fun _ _ => True)) as Hrest.
  { intros e. apply IH. eapply Forall_impl; [exact Hl|]. intros x [? ?]. auto with vsms. }
  cbn [expire_each]. apply wp_update_message; [done | apply verdict_edge; [by rewrite Hs | done] | |].
  - intros b _. apply Hrest.
  - intros e _. repeat case_match; try done; apply Hrest.
Qed.

Lemma wp_expire_matching s column limit tr :
  legal_edge s MessageState.expired = true ->
  wp (expire_matching (in_state_until s column limit)) tr (fun _ _ => True).
Proof.
  intros He. unfold expire_matching. apply wp_find_ok; [|done]. intros rows Hrows _ _.
  apply (wp_expire_each _ _ s); [done|]. apply Forall_forall. intros m Hm.
  rewrite Forall_forall in Hrows. specialize (Hrows _ Hm). cbn in Hrows. split_and_bool.
  split; [by apply (known_find _ TMessage) | done].
Qed.

Lemma wp_expire_stale job tr : wp (expire_stale job) tr (fun _ _ => True).
Proof.
  unfold expire_stale. apply wp_now. intros now. unfold expire_stale_run_at, with_context.
  assert (forall s column limit tr, legal_edge s MessageState.expired = true ->
    forall (k : prog (result unit JobError)) context, (forall tr, wp k tr (fun _ _ => True)) ->
    wp (let!? _ := let! r := expire_matching (in_state_until s column limit) in
                   Ret (map_err (JobDatabase context) r) in k) tr (fun _ _ => True)) as Hone.
  { intros s column limit tr' He k context Hk. apply wp_ok_bind, wp_bind.
    eapply wp_mono; [|by apply wp_expire_matching]. intros r tr'' _. cbn [wp].
    destruct r; cbn [map_err]; [apply Hk | done]. }
  apply Hone; [reflexivity|]. intros. apply Hone; [reflexivity|]. intros.
  apply Hone; [reflexivity|]. done.
Qed.

Lemma purge_edge now m : message_edge (purge_patch now) m = true.
Proof. unfold message_edge, Guards.edge_ok. cbn. by rewrite bool_decide_eq_true_2. Qed.

(** Since [tr0], every message write is the purge of a row it may purge. *)
Definition purges (cutoff now : Z) (tr0 tr : trace) : Prop :=
  exists l, tr = l ++ tr0 /\
  Forall (fun w => exists m, known tr TMessage m /\
    w = (m.(Message.id), purge_patch now, m.(Message.version)) /\
    q_where (purgeable cutoff) m = true) (message_writes l).

Lemma purges_cons cutoff now e tr0 tr :
  purges cutoff now tr0 tr ->
  Forall (fun w => exists m, known tr TMessage m /\
    w = (m.(Message.id), purge_patch now, m.(Message.version)) /\
    q_where (purgeable cutoff) m = true) (message_writes [e]) ->
  purges cutoff now tr0 (e :: tr).
Proof.
  intros (l & -> & Ht) He. exists (e :: l). split; [done|].
  change (e :: l) with ([e] ++ l). rewrite message_writes_app. apply Forall_app.
  split; [eapply Forall_impl; [exact He|] | eapply Forall_impl; [exact Ht|]];
    intros w (m & ? & ?); exists m; auto with vsms.
Qed.

Lemma wp_purge_each cutoff now tr0 purged l tr :
  purges cutoff now tr0 tr ->
  Forall (fun m => known tr TMessage m /\ q_where (purgeable cutoff) m = true) l ->
  wp (purge_each now purged l) tr (fun _ tr' => purges cutoff now tr0 tr').
Proof.
  revert purged tr. induction l as [|m l IH]; intros purged tr Ht Hl; [done|].
  apply Forall_cons in Hl as [[Hk Hm] Hl].
  assert (forall e, message_writes [e] = [(m.(Message.id), purge_patch now, m.(Message.version))] ->
    purges cutoff now tr0 (e :: tr)) as Hp.
  { intros e He. apply purges_cons; [done|]. rewrite He. repeat constructor. by exists m. }
  assert (forall e n, message_writes [e] = [(m.(Message.id), purge_patch now, m.(Message.version))] ->
    wp (purge_each now n l) (e :: tr) (fun _ tr' => purges cutoff now tr0 tr')) as Hrest.
  { intros e n He. apply IH; [by apply Hp|].
    eapply Forall_impl; [exact Hl | intros x [? ?]; auto with vsms]. }
  cbn [purge_each]. apply wp_update_message; [done | apply purge_edge | |].
  - intros b _. by apply Hrest.
  - intros e _. case_match; try (by apply Hrest); cbn [wp]; by apply Hp.
Qed.

Lemma wp_delete_receipts cutoff now tr0 deleted l tr :
  purges cutoff now tr0 tr ->
  wp (delete_receipts deleted l) tr (fun _ tr' => purges cutoff now tr0 tr').
Proof.
  revert deleted tr. induction l as [|d l IH]; intros deleted tr Ht; [done|].
  cbn [delete_receipts]. apply wp_ok_bind, wp_do_last, wp_do; [done|]. intros r _. cbn [wp].
  destruct r as [x|e]; [apply IH|]; by apply purges_cons.
Qed.

Lemma wp_purge_run_at now tr0 tr :
  purges (now - RETENTION) now tr0 tr ->
  wp (purge_retention_run_at now) tr (fun _ tr' => purges (now - RETENTION) now tr0 tr').
Proof.
  intros Ht. unfold purge_retention_run_at, with_context. apply wp_ok_bind, wp_bind.
  unfold purge_messages. apply wp_find_ok; [|by intros e; apply purges_cons].
  intros rows Hrows _ _.
  eapply wp_mono; [|apply (wp_purge_each (now - RETENTION) now tr0); [by apply purges_cons|]].
  - intros r tr' Hp. cbn [wp]. destruct r as [n|e]; cbn [map_err]; [|done].
    apply wp_ok_bind, wp_bind. unfold purge_delivery_receipts.
    apply wp_find_ok; [|by intros e; apply purges_cons]. intros rcpts _ _ _.
    eapply wp_mono; [|apply (wp_delete_receipts (now - RETENTION) now tr0); by apply purges_cons].
    intros r tr'' Hp'. cbn [wp]. by destruct r.
  - rewrite Forall_forall in Hrows |- *. intros m Hm.
    split; [by apply (known_find _ TMessage) | by apply Hrows].
Qed.

Lemma wp_purge_retention job tr : wp (purge_retention job) tr (fun _ _ => True).
Proof.
  unfold purge_retention. apply wp_now. intros now.
  eapply wp_mono; [|apply (wp_purge_run_at now (Ev Now now :: tr))]; [done|].
  exists []. by split; [|constructor].
Qed.

End JobFacts.

(** ** The claims of this component *)
Section JobClaims.

Context `{E : CratestackErrors} `{B : !Backend} `{U : UnicodeDebug}.

(** Recording a job's outcome. Success is one write to [succeeded].  A
    failure is written to [failed] with the error's own text; only when that
    write is stored is a second one made, at the version it left: [dead]
    exactly when the attempts are used up, else back to [pending] at the
    backoff of the attempt, without its lease. *)
Theorem job_outcome_policy job outcome tr w r tr' w' :
  world_ok w -> valid tr w -> Forall (fun e => ~ illegal_reply e) tr ->
  known tr TJob job -> job.(Job.state) = JobState.running ->
  rtc step (apply_outcome job outcome, tr, w) (Ret r, tr', w') ->
  exists l, tr' = l ++ tr /\ outcome_policy job outcome l.
Proof.
  intros Hok Hv Hl Hk Hs Hr.
  by apply (wp_run _ _ _ _ _ _ _ (wp_apply_outcome job outcome tr Hk Hs)) in Hr.
Qed.

(** Retention. A purge writes only to messages in a terminal state, at
    least ninety days old and not purged before; and what it leaves keeps
    the state and every counter but no recipient number, body, client
    reference, idempotency key or reason, and is never purged again. *)
Theorem purge_retention_scope now w r tr w' :
  world_ok w -> rtc step (purge_retention_run_at now, [], w) (Ret r, tr, w') ->
  Forall (fun wr => exists m, known tr TMessage m /\
    wr = (m.(Message.id), purge_patch now, m.(Message.version)) /\
    Guards.message_terminal m.(Message.state) = true /\
    m.(Message.createdAt) + days 90 <= now /\ m.(Message.purgedAt) = None /\
    forall b, message_after (purge_patch now) m b ->
      b.(Message.state) = m.(Message.state) /\ b.(Message.attempts) = m.(Message.attempts) /\
      b.(Message.msisdn) = PURGED_MSISDN_PLACEHOLDER /\ b.(Message.body) = None /\
      b.(Message.clientRef) = None /\ b.(Message.idempotencyKey) = None /\
      b.(Message.stateReason) = None /\
      forall cutoff, q_where (purgeable cutoff) b = false) (message_writes tr).
Proof.
  intros Hok Hr.
  apply (wp_run _ _ _ _ _ _ _ (wp_purge_run_at now [] [] ltac:(exists []; by split; constructor))) in Hr;
    [|done|apply valid_nil|constructor].
  destruct Hr as (l & -> & Hl). rewrite !app_nil_r in *.
  eapply Forall_impl; [exact Hl|]. intros wr (m & Hk & -> & Hq). cbn in Hq.
  apply andb_true_iff in Hq as [[Hst Hcr%Z.leb_le]%andb_true_iff Hpu].
  exists m. split_and!; try done.
  - revert Hst. by destruct (Message.state m).
  - unfold RETENTION in *. lia.
  - by destruct (Message.purgedAt m).
  - intros b (clock & fin & sub & ->). cbn. split_and!; try done. intros cutoff.
    by rewrite andb_false_r.
Qed.

End JobClaims.

(** ** Rows no worker will ever pick up *)

(** The rows [jobs_dedupe_idx] keeps unique per kind and key. *)
Definition jobs_dedupe_idx (j : Job.t) : bool :=
  negb (is_null j.(Job.dedupeKey)) &&
  bool_decide (j.(Job.state) ∈ [JobState.pending; JobState.running; JobState.failed]).

(** The row the first write of a failure leaves is picked up by nothing:
    when the second write is lost (its error is returned and logged, the
    process stops), no claim at any time selects the job again, while its
    dedupe key still blocks the scheduler from enqueuing its kind. *)
Theorem failed_job_stranded job message b :
  job_after (failed_patch message) job b ->
  (forall now budget, q_where (pending_jobs now budget) b = false /\
                      q_where (reclaimable_jobs now budget) b = false) /\
  jobs_dedupe_idx b = negb (is_null job.(Job.dedupeKey)).
Proof.
  intros (clock & start & fin & ->). split; [done|].
  unfold jobs_dedupe_idx. cbn. by rewrite andb_true_r.
Qed.

(** ** Examples *)
Module JobExamples.

#[local] Existing Instance demo_errors.
#[local] Existing Instance demo_debug.

Definition ex_jobs_world : world :=
  insert_row (insert_row empty_world
    TJob (ex_job (lit "j1") (lit "expire_stale") JobState.pending 0))
    TMessage (Message.set_purgedAt None (ex_message (lit "m1") MessageState.delivered)).

Lemma ex_jobs_world_ok : world_ok ex_jobs_world.
Proof. unfold ex_jobs_world. auto with vsms. Qed.

Definition ex_running : Job.t := ex_job (lit "j2") (lit "nightly") JobState.running 3.

Definition ex_running_world : world := insert_row empty_world TJob ex_running.

Definition ex_job_read : trace :=
  [read_event ex_running_world TJob (mkQuery (fun _ => true) [] None)].

Abbreviation ex_outcome :=
  (ref_run accepting (apply_outcome ex_running (Err (JobInjected (lit "boom")))) ex_job_read
     ex_running_world).

Lemma job_outcome_policy_witness :
  (exists l, run_trace ex_outcome = l ++ ex_job_read /\
     outcome_policy ex_running (Err (JobInjected (lit "boom"))) l) /\
  (fun w => w.1.2) <$> job_writes (run_trace ex_outcome) =
    [[Job.SetState JobState.dead]; failed_patch (lit "boom")].
Proof.
  split; [|vm_compute; reflexivity].
  apply (@job_outcome_policy demo_errors (ref_backend accepting) demo_debug ex_running
    (Err (JobInjected (lit "boom"))) ex_job_read ex_running_world (Ok tt) _ ex_outcome.2).
  - unfold ex_running_world. auto with vsms.
  - apply (valid_read_event accepting); [unfold ex_running_world; auto with vsms | apply valid_nil].
  - repeat constructor; by intros [].
  - apply known_read_event.
    match goal with |- _ ∈ ?l => let l' := eval vm_compute in l in change l with l' end. by left.
  - reflexivity.
  - apply ref_run_done. vm_compute. reflexivity.
Defined.

Abbreviation ex_purge :=
  (ref_run accepting (purge_retention_run_at (days 100)) [] ex_jobs_world).

Lemma purge_retention_scope_witness :
  length (message_writes (run_trace ex_purge)) = 1%nat /\
  Forall (fun wr => exists m, wr = (m.(Message.id), purge_patch (days 100), m.(Message.version)))
    (message_writes (run_trace ex_purge)).
Proof.
  split; [vm_compute; reflexivity|].
  eapply Forall_impl.
  - apply (@purge_retention_scope demo_errors (ref_backend accepting) (days 100) ex_jobs_world (Ok tt)
      _ ex_purge.2).
    + apply ex_jobs_world_ok.
    + apply ref_run_done. vm_compute. reflexivity.
  - intros wr (m & _ & Hw & _). by exists m.
Defined.

Lemma failed_job_stranded_witness :
  jobs_dedupe_idx (Job.set_version 3 (Job.set_updatedAt 0 (Job.set_finishedAt None
    (Job.set_startedAt None (Job.apply (failed_patch (lit "x")) ex_running))))) = true.
Proof.
  apply (failed_job_stranded ex_running (lit "x")). by exists 0, None, None.
Defined.

End JobExamples.
