(* ===== verification/Scheduler.v ===== *)
(** * sms-worker: the scheduler (scheduler.rs)

    The recurring jobs, the seed of the in-memory "last enqueued" map, and
    one [tick]; [ticks] is a bounded number of rounds of the loop of [run]. *)

From S2P Require Import Prelude ProviderApi Schema Errors Db DbLogic DbRef DemoData.

Record RecurringJobSpec := mkSpec {
  rj_kind : text;
  rj_cadence : duration;
  rj_priority : Z;
  rj_max_attempts : Z }.

Definition schedule : list RecurringJobSpec :=
  [ mkSpec (lit "expire_stale") (minutes 1) 500 3;
    mkSpec (lit "reap_outbox") (hours 1) 500 3;
    mkSpec (lit "purge_retention") (days 1) 100 3;
    mkSpec (lit "anchor_audit") (days 1) 100 3;
    mkSpec (lit "grey_route_watch") (days 1) 100 3;
    mkSpec (lit "sweep_envelope_nonces") (minutes 15) 300 3 ].

(** [HashMap<&str, Option<DateTime>>] *)
Abbreviation LastEnqueued := (gmap text (option Z)).

Definition latest_of_kind (kind : text) : query TJob :=
  mkQuery (fun j : row TJob => bool_decide (j.(Job.kind) = kind))
    [Desc (fun j : row TJob => KInt (Some j.(Job.createdAt)))] (Some 1).

Section Scheduler.

Context `{E : CratestackErrors}.

Fixpoint seed_from (seeded : LastEnqueued) (specs : list RecurringJobSpec) : prog LastEnqueued :=
  match specs with
  | [] => Ret seeded
  | spec :: rest =>
      let! most_recent := do (FindMany TJob (latest_of_kind (rj_kind spec))) in
      let at_ := match most_recent with
                 | Ok rows => (fun r : Job.t => r.(Job.createdAt)) <$> head rows
                 | Err _ => None
                 end in
      seed_from (<[rj_kind spec := at_]> seeded) rest
  end.

Definition seed_last_enqueued (specs : list RecurringJobSpec) : prog LastEnqueued :=
  seed_from ∅ specs.

Definition enqueue_input (spec : RecurringJobSpec) (now : Z) : CreateJobInput :=
  mkCreateJob (rj_kind spec) (Some (rj_kind spec)) (lit "{}") (rj_priority spec) now
    (rj_max_attempts spec).

Definition try_enqueue (spec : RecurringJobSpec) (now : Z) : prog (result bool CratestackError) :=
  let! r := do (Create TJob (enqueue_input spec now)) in
  match r with
  | Ok _ => Ret (Ok true)
  | Err error =>
      if bool_decide (db_sqlstate error = Some UNIQUE_VIOLATION) then Ret (Ok false)
      else Ret (Err error)
  end.

Definition due (last : LastEnqueued) (spec : RecurringJobSpec) (now : Z) : bool :=
  match mjoin (last !! rj_kind spec) with
  | Some at_ => rj_cadence spec <=? now - at_
  | None => true
  end.

Fixpoint tick_specs (now : Z) (last : LastEnqueued) (specs : list RecurringJobSpec)
  : prog LastEnqueued :=
  match specs with
  | [] => Ret last
  | spec :: rest =>
      if due last spec now then
        let! r := try_enqueue spec now in
        match r with
        | Ok _ => tick_specs now (<[rj_kind spec := Some now]> last) rest
        | Err _ => tick_specs now last rest
        end
      else tick_specs now last rest
  end.

Definition tick (specs : list RecurringJobSpec) (last : LastEnqueued) : prog LastEnqueued :=
  let! now := do Now in tick_specs now last specs.

Fixpoint ticks (n : nat) (specs : list RecurringJobSpec) (last : LastEnqueued) : prog LastEnqueued :=
  match n with
  | O => Ret last
  | S n => let! last := tick specs last in ticks n specs last
  end.

(** [run], for its first [n] rounds. *)
Definition run_rounds (n : nat) : prog LastEnqueued :=
  let! last := seed_last_enqueued schedule in ticks n schedule last.

(** ** Accepted enqueues *)
Definition enqueued (e : event) : list CreateJobInput :=
  match e with
  | Ev c r =>
      match c in call R return R -> list CreateJobInput with
      | Create t c => fun r =>
          if is_ok r
          then match t return create_input t -> list CreateJobInput with
               | TJob => fun c => [c]
               | _ => fun _ => []
               end c
          else []
      | _ => fun _ => []
      end r
  end.

(** The run times of the accepted jobs of one kind, latest first. *)
Definition run_times (kind : text) (tr : trace) : list Z :=
  cj_runAt <$> List.filter (fun c => bool_decide (cj_kind c = kind)) (tr ≫= enqueued).

Definition spaced (cadence : duration) (l : list Z) : Prop :=
  Sorted (fun later earlier => earlier + cadence <= later) l.

(** The accepted jobs of a spec's kind are its cadence apart, and the map
    remembers a time no earlier than the latest. *)
Definition on_schedule (spec : RecurringJobSpec) (last : LastEnqueued) (tr : trace) : Prop :=
  spaced (rj_cadence spec) (run_times (rj_kind spec) tr) /\
  forall a, head (run_times (rj_kind spec) tr) = Some a ->
    exists t, last !! rj_kind spec = Some (Some t) /\ a <= t.

Lemma run_times_cons kind e tr :
  run_times kind (e :: tr) =
  (cj_runAt <$> List.filter (fun c => bool_decide (cj_kind c = kind)) (enqueued e)) ++ run_times kind tr.
Proof. unfold run_times. by rewrite bind_cons, List.filter_app, fmap_app. Qed.

Lemma on_schedule_silent spec last e tr :
  enqueued e = [] -> on_schedule spec last tr -> on_schedule spec last (e :: tr).
Proof. intros He. unfold on_schedule. by rewrite run_times_cons, He. Qed.

Lemma due_bound last spec now t :
  due last spec now = true -> last !! rj_kind spec = Some (Some t) -> t + rj_cadence spec <= now.
Proof. unfold due. intros Hd Hl. rewrite Hl in Hd. cbn in Hd. apply Z.leb_le in Hd. lia. Qed.

(** One spec of the list is tried; every spec stays on schedule. *)
Lemma wp_try_enqueue spec now last tr Q :
  due last spec now = true -> 0 <= rj_cadence spec ->
  (forall r e, (forall s, (rj_kind s = rj_kind spec -> s = spec) ->
      on_schedule s last tr ->
      on_schedule s (match r with Ok _ => <[rj_kind spec := Some now]> last | Err _ => last end) (e :: tr)) ->
     Q r (e :: tr)) ->
  wp (try_enqueue spec now) tr Q.
Proof.
  intros Hd Hc HQ. unfold try_enqueue. apply wp_do; [done|]. intros r _.
  assert (forall s reply, (rj_kind s = rj_kind spec -> s = spec) -> on_schedule s last tr ->
    on_schedule s (<[rj_kind spec := Some now]> last) (Ev (Create TJob (enqueue_input spec now)) reply :: tr)) as Hset.
  { intros s reply Hs [Hsp Hlast]. unfold on_schedule. rewrite run_times_cons.
    destruct (decide (rj_kind s = rj_kind spec)) as [He|Hne].
    - rewrite (Hs He) in *. rewrite lookup_insert_eq.
      assert (forall a, head (run_times (rj_kind spec) tr) = Some a -> a + rj_cadence spec <= now) as Hb.
      { intros a Ha. destruct (Hlast a Ha) as (t & Ht & Hle). pose proof (due_bound _ _ _ _ Hd Ht). lia. }
      destruct reply as [x|x]; cbn; [rewrite bool_decide_eq_true_2 by done; cbn|]; split.
      + constructor; [done|]. destruct (run_times _ tr) as [|a l]; constructor. by apply Hb.
      + intros a [= <-]. exists now. by split; [|lia].
      + done.
      + intros a Ha. exists now. split; [done|]. specialize (Hb _ Ha). lia.
    - rewrite lookup_insert_ne by done. destruct reply as [x|x]; cbn; [|done].
      by rewrite bool_decide_eq_false_2. }
  destruct r as [x|x]; cbn [wp].
  - apply HQ. intros s. by apply Hset.
  - case_bool_decide; cbn [wp]; apply HQ; intros s Hs; [by apply Hset|].
    by apply on_schedule_silent.
Qed.

Definition distinct_kinds (specs : list RecurringJobSpec) : Prop :=
  forall s s', s ∈ specs -> s' ∈ specs -> rj_kind s = rj_kind s' -> s = s'.

Lemma wp_tick_specs all now last specs tr :
  distinct_kinds all -> Forall (fun s => 0 <= rj_cadence s) all -> (forall s, s ∈ specs -> s ∈ all) ->
  Forall (fun s => on_schedule s last tr) all ->
  wp (tick_specs now last specs) tr (fun last' tr' => Forall (fun s => on_schedule s last' tr') all).
Proof.
  intros Hd Hc. revert last tr. induction specs as [|spec specs IH]; intros last tr Hin Hon; [done|].
  assert (spec ∈ all) as Hspec by (apply Hin; by left).
  assert (forall s, s ∈ specs -> s ∈ all) as Hrest by (intros s Hs; apply Hin; by right).
  cbn [tick_specs]. destruct (due last spec now) eqn:Hdue; [|by apply IH].
  rewrite Forall_forall in Hc. apply wp_bind, (wp_try_enqueue spec now last); [done | by apply Hc|].
  intros r e Hr. rewrite Forall_forall in Hon.
  assert (forall s, s ∈ all ->
    on_schedule s (match r with Ok _ => <[rj_kind spec := Some now]> last | Err _ => last end) (e :: tr)) as Hall.
  { intros s Hs. apply Hr; [by intros; apply Hd | by apply Hon]. }
  destruct r; (apply IH; [done | by apply Forall_forall]).
Qed.

Lemma wp_ticks n all last tr :
  distinct_kinds all -> Forall (fun s => 0 <= rj_cadence s) all ->
  Forall (fun s => on_schedule s last tr) all ->
  wp (ticks n all last) tr (fun last' tr' => Forall (fun s => on_schedule s last' tr') all).
Proof.
  intros Hd Hc. revert last tr. induction n as [|n IH]; intros last tr Hon; [done|].
  cbn [ticks]. apply wp_bind. unfold tick. apply wp_now. intros now.
  eapply wp_mono; [|apply (wp_tick_specs all); [done | done | done|]].
  - intros last' tr' Hon'. by apply IH.
  - eapply Forall_impl; [exact Hon|]. intros s Hs. by apply on_schedule_silent.
Qed.

Lemma wp_seed seeded specs tr :
  (forall k, run_times k tr = []) ->
  wp (seed_from seeded specs) tr (fun _ tr' => forall k, run_times k tr' = []).
Proof.
  revert seeded tr. induction specs as [|spec specs IH]; intros seeded tr Ht; [done|].
  cbn [seed_from]. apply wp_find; intros; apply IH; intros k; by rewrite run_times_cons, Ht.
Qed.

Lemma wp_run_rounds n :
  wp (run_rounds n) [] (fun last' tr' => Forall (fun s => on_schedule s last' tr') schedule).
Proof.
  unfold run_rounds, seed_last_enqueued. apply wp_bind. eapply wp_mono; [|by apply wp_seed].
  intros last' tr' Ht. apply wp_ticks.
  - intros s s'. apply NoDup_fmap_elem_inj.
    apply (bool_decide_unpack (NoDup (rj_kind <$> schedule))). by vm_compute.
  - by repeat constructor.
  - apply Forall_forall. intros s _. unfold on_schedule. rewrite Ht. by split; [constructor|].
Qed.

End Scheduler.

Section SchedulerClaims.

Context `{E : CratestackErrors} `{B : !Backend}.

(** The cadence: over any number of rounds of the scheduler's loop, with
    any other writers beside it and whatever the database answers, the
    accepted jobs of each recurring kind are at least that kind's cadence
    apart. *)
Theorem scheduler_cadence n w last tr w' spec :
  world_ok w -> spec ∈ schedule -> rtc step (run_rounds n, [], w) (Ret last, tr, w') ->
  spaced (rj_cadence spec) (run_times (rj_kind spec) tr).
Proof.
  intros Hok Hspec Hr. apply (wp_run _ _ _ _ _ _ _ (wp_run_rounds n)) in Hr; [|done|apply valid_nil|constructor].
  rewrite Forall_forall in Hr. by apply Hr.
Qed.

End SchedulerClaims.

(** ** Example: two rounds at the same instant enqueue each kind once *)
Module SchedulerExamples.

#[local] Existing Instance demo_errors.

Abbreviation ex_rounds := (ref_run accepting (run_rounds 2) [] empty_world).

Lemma scheduler_cadence_witness :
  run_times (lit "expire_stale") (run_trace ex_rounds) = [ex_now] /\
  spaced (minutes 1) (run_times (lit "expire_stale") (run_trace ex_rounds)).
Proof.
  split; [vm_compute; reflexivity|].
  apply (@scheduler_cadence demo_errors (ref_backend accepting) 2 empty_world
    (default ∅ (run_result ex_rounds))
    (run_trace ex_rounds) ex_rounds.2 (mkSpec (lit "expire_stale") (minutes 1) 500 3)).
  - apply empty_world_ok.
  - by left.
  - apply ref_run_finished. vm_compute. reflexivity.
Defined.

End SchedulerExamples.
