(* ===== verification/WebhookClaim.v ===== *)
(** * sms-worker: claiming webhook attempts (claim.rs, the hooks half)

    Which endpoints a worker may serve ([ServedModes], hmac_gate.rs's
    [HmacWebhooks]), the candidate queries, the second look at endpoint
    health, the claim itself, and the count of attempts held back. *)

From S2P Require Import Prelude ProviderApi Schema Errors Db DbLogic DbRef Commits DemoData Claim.

Inductive HmacWebhooks := Permitted | HmacDisabled.

Definition is_permitted (h : HmacWebhooks) : bool :=
  match h with Permitted => true | HmacDisabled => false end.

Inductive ServedModes := Both | HmacOnly | SealedOnly | Neither.

Definition served_of (holds_signing_key : bool) (hmac : HmacWebhooks) : ServedModes :=
  match holds_signing_key, is_permitted hmac with
  | true, true => Both
  | false, true => HmacOnly
  | true, false => SealedOnly
  | false, false => Neither
  end.

Definition serves (s : ServedModes) (mode : WebhookDeliveryMode.t) : bool :=
  match s, mode with
  | Both, _ | HmacOnly, WebhookDeliveryMode.hmac | SealedOnly, WebhookDeliveryMode.sealed => true
  | HmacOnly, _ | SealedOnly, _ | Neither, _ => false
  end.

Definition serves_nothing (s : ServedModes) : bool :=
  match s with Neither => true | _ => false end.

Definition can_claim (s : ServedModes) (endpoint : WebhookEndpoint.t) (now : Z) : bool :=
  serves s endpoint.(WebhookEndpoint.deliveryMode) && endpoint.(WebhookEndpoint.active)
  && match endpoint.(WebhookEndpoint.circuitOpenUntil) with
     | None => true
     | Some open_until => open_until <=? now
     end.

(** ** Filters *)
Definition due_attempts (now : Z) (a : WebhookAttempt.t) : bool :=
  bool_decide (a.(WebhookAttempt.state) ∈ [AttemptState.pending; AttemptState.failed])
  && (is_null a.(WebhookAttempt.nextAttemptAt) || col_lte a.(WebhookAttempt.nextAttemptAt) now).

Definition expired_leases (now : Z) (a : WebhookAttempt.t) : bool :=
  bool_decide (a.(WebhookAttempt.state) = AttemptState.delivering)
  && col_lt a.(WebhookAttempt.leaseUntil) now.

Definition attempt_query (filter : WebhookAttempt.t -> bool) (o : list (order TAttempt))
  (limit : option Z) : query TAttempt :=
  mkQuery (filter : row TAttempt -> bool) o limit.

Definition by_next_attempt : list (order TAttempt) :=
  [Asc (fun a : row TAttempt => KInt a.(WebhookAttempt.nextAttemptAt))].

Definition by_lease : list (order TAttempt) :=
  [Asc (fun a : row TAttempt => KInt a.(WebhookAttempt.leaseUntil))].

(** [sort_by_key] on [(nextAttemptAt.is_none(), nextAttemptAt)], stable. *)
Definition attempt_key_le (a b : WebhookAttempt.t) : bool :=
  match a.(WebhookAttempt.nextAttemptAt), b.(WebhookAttempt.nextAttemptAt) with
  | Some x, Some y => x <=? y
  | Some _, None => true
  | None, Some _ => false
  | None, None => true
  end.

Fixpoint insert_by_key (a : WebhookAttempt.t) (l : list WebhookAttempt.t) : list WebhookAttempt.t :=
  match l with
  | [] => [a]
  | b :: r => if attempt_key_le a b then a :: b :: r else b :: insert_by_key a r
  end.

Definition sort_by_key (l : list WebhookAttempt.t) : list WebhookAttempt.t :=
  foldr insert_by_key [] l.

(** [usize::try_from(n).unwrap_or(usize::MAX)] as a bound on a length. *)
Definition take_i64 {A} (n : Z) (l : list A) : list A :=
  if n <? 0 then l else take (Z.to_nat n) l.

Definition HOOKS_LEASE : duration := seconds 30.

Section WebhookClaim.

Context `{E : CratestackErrors}.

Definition time_ordered_candidates (now limit : Z)
  : prog (result (list WebhookAttempt.t) CratestackError) :=
  let!? ready := do (FindMany TAttempt (attempt_query (due_attempts now) by_next_attempt (Some limit))) in
  let remaining := remaining_budget limit (length ready) in
  if 0 <? remaining then
    let!? more := do (FindMany TAttempt (attempt_query (expired_leases now) by_lease (Some remaining))) in
    Ret (Ok (ready ++ more))
  else Ret (Ok ready).

(** The first loop of [per_endpoint_candidates]. *)
Fixpoint due_per_endpoint (now limit : Z) (ready : list WebhookAttempt.t) (endpoints : list text)
  : prog (result (list WebhookAttempt.t) CratestackError) :=
  match endpoints with
  | [] => Ret (Ok ready)
  | endpoint_id :: rest =>
      let!? rows := do (FindMany TAttempt (attempt_query (fun a =>
          due_attempts now a && bool_decide (a.(WebhookAttempt.endpointId) = endpoint_id))
        by_next_attempt (Some limit))) in
      due_per_endpoint now limit (ready ++ rows) rest
  end.

Definition per_endpoint_candidates (now limit : Z) (endpoints : list text)
  : prog (result (list WebhookAttempt.t) CratestackError) :=
  let!? ready := due_per_endpoint now limit [] endpoints in
  let ready := take_i64 limit (sort_by_key ready) in
  let remaining := remaining_budget limit (length ready) in
  if 0 <? remaining then
    let!? more := do (FindMany TAttempt (attempt_query (fun a =>
        expired_leases now a && bool_decide (a.(WebhookAttempt.endpointId) ∈ endpoints))
      by_lease (Some remaining))) in
    Ret (Ok (ready ++ more))
  else Ret (Ok ready).

Definition filter_by_endpoint_health (candidates : list WebhookAttempt.t) (now budget : Z)
  (served : ServedModes) : prog (result (list WebhookAttempt.t) CratestackError) :=
  match candidates with
  | [] => Ret (Ok candidates)
  | _ =>
      let endpoint_ids := sort_dedup (WebhookAttempt.endpointId <$> candidates) in
      let!? endpoints := do (FindMany TEndpoint (mkQuery (fun e : row TEndpoint =>
          bool_decide (e.(WebhookEndpoint.id) ∈ endpoint_ids)) [] None)) in
      let healthy : gset text :=
        list_to_set (WebhookEndpoint.id <$>
          List.filter (fun e => can_claim served e now) endpoints) in
      Ret (Ok (take_i64 budget
        (List.filter (fun a => bool_decide (a.(WebhookAttempt.endpointId) ∈ healthy)) candidates)))
  end.

Definition all_endpoints : query TEndpoint := mkQuery (fun _ => true) [] None.

Definition webhook_candidates (now budget : Z) (served : ServedModes)
  : prog (result (list WebhookAttempt.t) CratestackError) :=
  let!? endpoints := do (FindMany TEndpoint all_endpoints) in
  let total := length endpoints in
  let claimable := WebhookEndpoint.id <$> List.filter (fun e => can_claim served e now) endpoints in
  let!? candidates :=
    if (length claimable =? total)%nat then time_ordered_candidates now budget
    else match claimable with
         | [] => Ret (Ok [])
         | _ => per_endpoint_candidates now budget claimable
         end in
  filter_by_endpoint_health candidates now budget served.

Definition attempt_take_lease (self : WebhookAttempt.t) (worker : text) (now : Z)
  : prog (result WebhookAttempt.t CratestackError) :=
  match self.(WebhookAttempt.state) with
  | AttemptState.pending | AttemptState.failed =>
      do (Update TAttempt self.(WebhookAttempt.id)
            [ WebhookAttempt.SetState AttemptState.delivering;
              WebhookAttempt.SetAttempts (self.(WebhookAttempt.attempts) + 1);
              WebhookAttempt.SetLeaseOwner (Some worker);
              WebhookAttempt.SetLeaseUntil (Some (now + HOOKS_LEASE)) ]
            self.(WebhookAttempt.version))
  | AttemptState.delivering =>
      do (Update TAttempt self.(WebhookAttempt.id)
            [ WebhookAttempt.SetState AttemptState.delivering;
              WebhookAttempt.SetLeaseOwner (Some worker);
              WebhookAttempt.SetLeaseUntil (Some (now + HOOKS_LEASE)) ]
            self.(WebhookAttempt.version))
  | _ => Panic
  end.

#[export] Instance attempt_claimable : Claimable TAttempt := {
  candidates now budget := webhook_candidates now budget Both;
  take_lease := attempt_take_lease }.

Definition claim_webhook_attempts (worker : text) (budget : Z) (served : ServedModes)
  : prog (result (list WebhookAttempt.t) CratestackError) :=
  let! now := do Now in
  let!? candidates := webhook_candidates now budget served in
  lease_candidates (t := TAttempt) worker now candidates.

(** ** The held-back count *)
Definition WAITING_COUNT_CAP : nat := Z.to_nat 10000.

Definition waiting_of (found : nat) : nat :=
  if (WAITING_COUNT_CAP <? found)%nat then S WAITING_COUNT_CAP else found.

Definition is_more_than_cap (w : nat) : bool := (WAITING_COUNT_CAP <? w)%nat.

Definition display_Waiting (w : nat) : text :=
  if is_more_than_cap w then lit "more than " ++ show_Z (Z.of_nat WAITING_COUNT_CAP)
  else show_Z (Z.of_nat w).

(** At most the rows still of interest are read: the query selects only the
    sorted column, of which only the count is used. *)
Definition read_waiting (filter : WebhookAttempt.t -> bool) (found : nat)
  : prog (result nat CratestackError) :=
  let room := (S WAITING_COUNT_CAP - Nat.min found (S WAITING_COUNT_CAP))%nat in
  if (room =? 0)%nat then Ret (Ok 0%nat)
  else
    let!? rows := do (FindMany TAttempt (attempt_query filter [] (Some (Z.of_nat room)))) in
    Ret (Ok (length rows)).

(** The loop of [count_attempts_waiting]; [Err n] of the inner result is the
    early return with [n]. *)
Fixpoint count_due (now : Z) (found : nat) (endpoints : list text)
  : prog (result (result nat nat) CratestackError) :=
  match endpoints with
  | [] => Ret (Ok (Ok found))
  | endpoint_id :: rest =>
      let!? n := read_waiting (fun a =>
        due_attempts now a && bool_decide (a.(WebhookAttempt.endpointId) = endpoint_id)) found in
      let found := (found + n)%nat in
      if (WAITING_COUNT_CAP <? found)%nat then Ret (Ok (Err found)) else count_due now found rest
  end.

Definition count_attempts_waiting (now : Z) (mode : WebhookDeliveryMode.t)
  : prog (result nat CratestackError) :=
  let!? rows := do (FindMany TEndpoint all_endpoints) in
  let endpoints := WebhookEndpoint.id <$> List.filter (fun e =>
    e.(WebhookEndpoint.active) && bool_decide (e.(WebhookEndpoint.deliveryMode) = mode)) rows in
  match endpoints with
  | [] => Ret (Ok (waiting_of 0))
  | _ =>
      let!? due := count_due now 0 endpoints in
      match due with
      | Err found => Ret (Ok found)
      | Ok found =>
          let!? n := read_waiting (fun a =>
            expired_leases now a && bool_decide (a.(WebhookAttempt.endpointId) ∈ endpoints)) found in
          Ret (Ok (found + n)%nat)
      end
  end.

End WebhookClaim.

(** ** Facts *)
Section WebhookClaimFacts.

Context `{E : CratestackErrors}.

(** An attempt that may be leased: due, or delivering under a lease that ran
    out. *)
Definition attempt_claimable_at (now : Z) (a : WebhookAttempt.t) : Prop :=
  due_attempts now a = true \/ expired_leases now a = true.

(** Its endpoint, read in this trace, is one this worker may deliver to. *)
Definition endpoint_served (tr : trace) (served : ServedModes) (now : Z) (a : WebhookAttempt.t) : Prop :=
  exists e, known tr TEndpoint e /\ e.(WebhookEndpoint.id) = a.(WebhookAttempt.endpointId) /\
    can_claim served e now = true.

Definition attempt_leased (worker : text) (now : Z) (x b : WebhookAttempt.t) : Prop :=
  b.(WebhookAttempt.id) = x.(WebhookAttempt.id) /\
  b.(WebhookAttempt.endpointId) = x.(WebhookAttempt.endpointId) /\
  b.(WebhookAttempt.state) = AttemptState.delivering /\
  b.(WebhookAttempt.leaseOwner) = Some worker /\
  b.(WebhookAttempt.leaseUntil) = Some (now + HOOKS_LEASE) /\
  b.(WebhookAttempt.attempts) =
    match x.(WebhookAttempt.state) with
    | AttemptState.delivering => x.(WebhookAttempt.attempts)
    | _ => x.(WebhookAttempt.attempts) + 1
    end.

Lemma attempt_claimable_state now a :
  attempt_claimable_at now a ->
  a.(WebhookAttempt.state) = AttemptState.pending \/ a.(WebhookAttempt.state) = AttemptState.failed \/
  a.(WebhookAttempt.state) = AttemptState.delivering.
Proof.
  intros [Ha|Ha]; apply andb_true_iff in Ha as [Ha _]; apply bool_decide_eq_true in Ha.
  - rewrite !elem_of_cons in Ha. destruct Ha as [?|[?|[]%not_elem_of_nil]]; auto.
  - auto.
Qed.

Lemma wp_attempt_write (m : WebhookAttempt.t) p tr (F : WebhookAttempt.t -> Prop) :
  known tr TAttempt m -> attempt_edge p m = true -> (forall b, attempt_after p m b -> F b) ->
  wp (do (Update TAttempt m.(WebhookAttempt.id) p m.(WebhookAttempt.version))) tr
    (fun r tr' => forall b, r = Ok b -> won tr' TAttempt b /\ F b).
Proof.
  intros Hk He HF. apply wp_do_last, wp_update_attempt; [done | done | |].
  - intros b Hb. cbn [wp]. intros b' [= <-]. split; [|by apply HF]. exists p.
    destruct (attempt_after_key _ _ _ Hb) as [Hid Hv]. cbn. rewrite Hid, Hv. by left.
  - intros e _. cbn [wp]. done.
Qed.

Lemma wp_attempt_take_lease x worker now tr :
  known tr TAttempt x -> attempt_claimable_at now x ->
  wp (attempt_take_lease x worker now) tr
    (fun r tr' => forall b, r = Ok b -> won tr' TAttempt b /\ attempt_leased worker now x b).
Proof.
  intros Hk Hc. unfold attempt_take_lease, attempt_leased.
  destruct (attempt_claimable_state _ _ Hc) as [Hs|[Hs|Hs]]; rewrite Hs;
    (apply wp_attempt_write; [done | solve_edge Hs|]; intros b (del & ->); cbn; by split_and!).
Qed.

(** Candidates: rows read, each leasable; none when nothing was asked for. *)
Definition candidates_ok (now limit : Z) (tr : trace) (l : list WebhookAttempt.t) : Prop :=
  Forall (fun a => known tr TAttempt a /\ attempt_claimable_at now a) l /\ (limit < 0 -> l = []).

Lemma candidates_ok_app now limit ext tr l :
  candidates_ok now limit tr l -> candidates_ok now limit (ext ++ tr) l.
Proof.
  intros [Hl ?]. split; [|done]. eapply Forall_impl; [exact Hl|]. intros a [? ?]. auto with vsms.
Qed.

Lemma candidates_ok_join now limit e tr ready more :
  candidates_ok now limit tr ready -> candidates_ok now limit (e :: tr) more ->
  candidates_ok now limit (e :: tr) (ready ++ more).
Proof.
  intros [Hr Hn]%(candidates_ok_app now limit [e]) [Hm Hn']. split; [by apply Forall_app|].
  intros Hl. by rewrite Hn, Hn'.
Qed.

(** What a query over attempts adds. *)
Lemma wp_read_attempts {B} filter o limit limit' (f : _ -> prog (result B CratestackError)) now tr Q :
  limit' <= limit \/ 0 <= limit ->
  (forall a, filter a = true -> attempt_claimable_at now a) ->
  (forall rows e, candidates_ok now limit (e :: tr) rows -> wp (f rows) (e :: tr) Q) ->
  (forall er e, Q (Err er) (e :: tr)) ->
  wp (let!? rows := do (FindMany TAttempt (attempt_query filter o (Some limit'))) in f rows) tr Q.
Proof.
  intros Hlt Hf Hok Herr. apply wp_find_ok; [|intros e; apply Herr].
  intros rows Hrows _ Hlim. apply Hok. split.
  - apply Forall_forall. intros a Ha.
    rewrite Forall_forall in Hrows. split; [by apply (known_find _ TAttempt)|]. by apply Hf, Hrows.
  - intros Hneg. specialize (Hlim limit' eq_refl). change (row TAttempt) with WebhookAttempt.t in *.
    apply length_zero_iff_nil. lia.
Qed.

Lemma due_claimable now a : due_attempts now a = true -> attempt_claimable_at now a.
Proof. by left. Qed.

Lemma and_claimable now (b b' : bool) a :
  (b = true -> attempt_claimable_at now a) -> b && b' = true -> attempt_claimable_at now a.
Proof. intros Hf [Ha _]%andb_true_iff. by apply Hf. Qed.

Lemma remaining_limit limit n :
  0 < remaining_budget limit n -> remaining_budget limit n <= limit \/ 0 <= limit.
Proof. intros H. apply remaining_budget_pos in H. lia. Qed.

Lemma wp_time_ordered now limit tr :
  wp (time_ordered_candidates now limit) tr
    (fun r tr' => forall rows, r = Ok rows -> candidates_ok now limit tr' rows).
Proof.
  unfold time_ordered_candidates.
  apply (wp_read_attempts _ _ limit _ _ now); [by left | by left | | by intros].
  intros ready e Hr. case_match eqn:Hrem; [|cbn [wp]; by intros rows [= <-]].
  apply Z.ltb_lt, remaining_limit in Hrem.
  apply (wp_read_attempts _ _ limit _ _ now); [done | by right | | by intros].
  intros more e' Hm. cbn [wp]. intros rows [= <-]. by apply candidates_ok_join.
Qed.

Lemma insert_by_key_elem a x l : x ∈ insert_by_key a l <-> x = a \/ x ∈ l.
Proof.
  induction l as [|b l IH]; cbn [insert_by_key].
  - rewrite list_elem_of_singleton. split; [by left|]. intros [?|[]%not_elem_of_nil]. done.
  - case_match; rewrite !elem_of_cons; [tauto|]. rewrite IH. tauto.
Qed.

Lemma sort_by_key_elem x l : x ∈ sort_by_key l <-> x ∈ l.
Proof.
  induction l as [|a l IH]; [done|]. cbn [sort_by_key foldr].
  fold (sort_by_key l). by rewrite insert_by_key_elem, IH, elem_of_cons.
Qed.

Lemma take_i64_elem {A} n (l : list A) x : x ∈ take_i64 n l -> x ∈ l.
Proof.
  unfold take_i64. case_match; [done|]. intros Hx. rewrite <- (take_drop (Z.to_nat n) l).
  apply elem_of_app. by left.
Qed.

Lemma wp_due_per_endpoint now limit ready endpoints tr :
  candidates_ok now limit tr ready ->
  wp (due_per_endpoint now limit ready endpoints) tr
    (fun r tr' => forall rows, r = Ok rows -> candidates_ok now limit tr' rows).
Proof.
  revert ready tr. induction endpoints as [|ep endpoints IH]; intros ready tr Hr; cbn [due_per_endpoint].
  - cbn [wp]. by intros rows [= <-].
  - apply (wp_read_attempts _ _ limit _ _ now);
      [by left | intros a; by apply and_claimable, due_claimable | | by intros].
    intros rows e Hrows. apply IH. by apply candidates_ok_join.
Qed.

Lemma candidates_ok_take now limit tr l :
  candidates_ok now limit tr l -> candidates_ok now limit tr (take_i64 limit (sort_by_key l)).
Proof.
  intros [Hr Hn]. split.
  - rewrite Forall_forall in *. intros a Ha. by apply Hr, sort_by_key_elem, (take_i64_elem limit).
  - intros Hl. rewrite (Hn Hl). unfold take_i64. cbn. case_match; [done | apply take_nil].
Qed.

Lemma wp_per_endpoint now limit endpoints tr :
  wp (per_endpoint_candidates now limit endpoints) tr
    (fun r tr' => forall rows, r = Ok rows -> candidates_ok now limit tr' rows).
Proof.
  unfold per_endpoint_candidates. apply wp_ok_bind.
  eapply wp_mono; [|apply wp_due_per_endpoint; by repeat constructor]. intros r tr' Hr.
  destruct r as [ready|e]; [|by intros]. apply (candidates_ok_take _ _ _ ready) in Hr; [|done].
  case_match eqn:Hrem; [|cbn [wp]; by intros rows [= <-]].
  apply Z.ltb_lt, remaining_limit in Hrem.
  apply (wp_read_attempts _ _ limit _ _ now);
    [done | intros a; apply and_claimable; by right | | by intros].
  intros more e' Hm. cbn [wp]. intros rows [= <-]. by apply candidates_ok_join.
Qed.

Lemma length_take_i64 {A} n (l : list A) : 0 <= n -> Z.of_nat (length (take_i64 n l)) <= n.
Proof.
  intros Hn. unfold take_i64. rewrite (proj2 (Z.ltb_ge _ _)) by done. rewrite length_take. lia.
Qed.

(** What the claim hands to the lease loop. *)
Definition served_candidates (tr : trace) (served : ServedModes) (now budget : Z)
  (l : list WebhookAttempt.t) : Prop :=
  Z.of_nat (length l) <= Z.max 0 budget /\
  Forall (fun a => known tr TAttempt a /\ attempt_claimable_at now a /\
                   endpoint_served tr served now a) l.

Lemma wp_filter_by_health l now budget served tr :
  candidates_ok now budget tr l ->
  wp (filter_by_endpoint_health l now budget served) tr
    (fun r tr' => forall rows, r = Ok rows -> served_candidates tr' served now budget rows).
Proof.
  intros Hl. unfold filter_by_endpoint_health. destruct l as [|a0 l0].
  { cbn [wp]. intros rows [= <-]. split; [cbn; lia | constructor]. }
  revert Hl. generalize (a0 :: l0) as l. intros l Hl.
  apply wp_find_ok; [|by intros]. intros endpoints Hep _ _. cbn [wp]. intros rows [= <-].
  match goal with |- served_candidates (?e :: _) _ _ _ _ =>
    pose proof (candidates_ok_app now budget [e] tr l Hl) as [Hl' Hneg] end.
  rewrite Forall_forall in Hl'. split.
  - destruct (decide (budget < 0)) as [Hb|Hb].
    + rewrite (Hneg Hb). unfold take_i64. cbn. case_match; rewrite ?take_nil; cbn; lia.
    + etrans; [apply length_take_i64; lia | lia].
  - apply Forall_forall. intros a Ha%take_i64_elem.
    apply list_elem_of_In, List.filter_In in Ha as [Hin Ha]. apply list_elem_of_In, Hl' in Hin as [? ?].
    split_and!; [done | done|]. apply bool_decide_eq_true in Ha.
    apply elem_of_list_to_set, list_elem_of_fmap in Ha as (e & He & Hin).
    apply list_elem_of_In, List.filter_In in Hin as [Hin Hc]. exists e.
    split; [apply (known_find _ TEndpoint); by apply list_elem_of_In | done].
Qed.

Lemma wp_webhook_candidates now budget served tr :
  wp (webhook_candidates now budget served) tr
    (fun r tr' => forall rows, r = Ok rows -> served_candidates tr' served now budget rows).
Proof.
  unfold webhook_candidates. apply wp_find_ok; [|by intros]. intros endpoints _ _ _.
  apply wp_ok_bind. set (claimable := _ <$> _).
  assert (wp (if (length claimable =? length endpoints)%nat then time_ordered_candidates now budget
      else match claimable with [] => Ret (Ok []) | _ => per_endpoint_candidates now budget claimable end)
    (Ev (FindMany TEndpoint all_endpoints) (Ok endpoints) :: tr)
    (fun r tr' => forall rows, r = Ok rows -> candidates_ok now budget tr' rows)) as Hc.
  { case_match; [apply wp_time_ordered|]. destruct claimable; [|apply wp_per_endpoint].
    cbn [wp]. intros rows [= <-]. by repeat constructor. }
  eapply wp_mono; [|exact Hc]. intros r tr' Hr. destruct r as [cands|e]; [|by intros].
  by apply wp_filter_by_health, Hr.
Qed.

Lemma wp_attempt_candidates now budget tr :
  wp (candidates now budget) tr (fun r tr' => forall rows, r = Ok rows ->
    Z.of_nat (length rows) <= Z.max 0 budget /\
    Forall (fun x => known tr' TAttempt x /\ attempt_claimable_at now x) rows).
Proof.
  cbn [candidates attempt_claimable].
  eapply wp_mono; [|apply wp_webhook_candidates]. intros r tr' Hr rows Er.
  destruct (Hr rows Er) as [? Hf]. split; [done|].
  eapply Forall_impl; [exact Hf|]. by intros x (? & ? & _).
Qed.

#[export] Instance attempt_claimable_sound : ClaimableSound TAttempt := {
  claimable := attempt_claimable_at;
  leased := attempt_leased;
  wp_candidates := wp_attempt_candidates;
  wp_take_lease := wp_attempt_take_lease;
  leased_id worker now x b H := proj1 H }.

(** An attempt this worker leased now, for an endpoint it serves. *)
Definition attempt_claimed (tr : trace) (worker : text) (served : ServedModes) (now : Z)
  (b : WebhookAttempt.t) : Prop :=
  won tr TAttempt b /\ endpoint_served tr served now b /\
  exists x, known tr TAttempt x /\ attempt_claimable_at now x /\ attempt_leased worker now x b.

Lemma endpoint_served_app ext tr served now a :
  endpoint_served tr served now a -> endpoint_served (ext ++ tr) served now a.
Proof. intros (e & ? & ? & ?). exists e. auto with vsms. Qed.

Lemma wp_claim_webhook_attempts worker budget served tr :
  wp (claim_webhook_attempts worker budget served) tr (fun r tr' => forall rows, r = Ok rows ->
    Z.of_nat (length rows) <= Z.max 0 budget /\
    exists now, Ev Now now ∈ tr' /\ Forall (attempt_claimed tr' worker served now) rows).
Proof.
  unfold claim_webhook_attempts. apply wp_now. intros now. apply wp_ok_bind.
  eapply wp_mono; [|apply wp_extends, wp_webhook_candidates]. intros r tr' [Hr [ext ->]].
  destruct r as [cands|e]; [|by intros]. destruct (Hr cands eq_refl) as [Hlen Hc].
  set (tr1 := ext ++ _) in *.
  eapply wp_mono; [|apply wp_extends,
    (wp_lease_candidates_from (t := TAttempt) (endpoint_served tr1 served now) [] worker now cands);
    [exact Hc | constructor]].
  intros r tr' [Hi [ext' ->]] rows Er. destruct (Hi rows Er) as (Hf & more & -> & Hsub).
  pose proof (sublist_length _ _ Hsub) as Hle. rewrite !length_fmap in Hle.
  cbn [app] in *. change (row TAttempt) with WebhookAttempt.t in *.
  split; [lia|]. exists now. split.
  - apply elem_of_app. right. apply elem_of_app. right. by left.
  - eapply Forall_impl; [exact Hf|]. intros b (Hk & x & Hkx & Hcx & Hsx & Hlx).
    split; [done|]. split; [|by exists x]. apply endpoint_served_app.
    destruct Hsx as (e & ? & Hid & ?). exists e. destruct Hlx as (_ & Hep & _).
    rewrite Hep. by split_and!.
Qed.

(** ** The held-back count *)
Lemma wp_read_waiting filter found tr :
  Forall read_only tr ->
  wp (read_waiting filter found) tr (fun r tr' => Forall read_only tr' /\
    forall n, r = Ok n -> (found + n <= Nat.max found (S WAITING_COUNT_CAP))%nat).
Proof.
  intros Htr. unfold read_waiting. generalize WAITING_COUNT_CAP as cap. intros cap.
  set (room := (S cap - Nat.min found (S cap))%nat).
  destruct (Nat.eqb_spec room 0) as [Hz|Hz].
  { cbn [wp]. split; [done|]. intros n [= <-]. lia. }
  apply wp_find_ok.
  - intros rows _ _ Hlim. cbn [wp]. split; [by constructor|]. intros n [= <-].
    specialize (Hlim _ eq_refl). change (row TAttempt) with WebhookAttempt.t in *. lia.
  - intros e. split; [by constructor | done].
Qed.

Definition inner (r : result nat nat) : nat := match r with Ok n | Err n => n end.

Lemma wp_count_due now found endpoints tr :
  Forall read_only tr -> (found <= WAITING_COUNT_CAP)%nat ->
  wp (count_due now found endpoints) tr (fun r tr' => Forall read_only tr' /\
    forall due, r = Ok due -> (inner due <= S WAITING_COUNT_CAP)%nat).
Proof.
  revert found tr. induction endpoints as [|ep endpoints IH]; intros found tr Htr Hf; cbn [count_due].
  { cbn [wp]. split; [done|]. intros due [= <-]. cbn [inner]. lia. }
  apply wp_ok_bind. eapply wp_mono; [|by apply wp_read_waiting].
  intros r tr' [Htr' Hr]. destruct r as [n|e]; [|done]. specialize (Hr n eq_refl).
  destruct (Nat.ltb_spec WAITING_COUNT_CAP (found + n)).
  - cbn [wp]. split; [done|]. intros due [= <-]. cbn [inner]. lia.
  - by apply IH.
Qed.

Lemma wp_count_attempts_waiting now mode :
  wp (count_attempts_waiting now mode) [] (fun r tr' => Forall read_only tr' /\
    forall n, r = Ok n -> (n <= S WAITING_COUNT_CAP)%nat).
Proof.
  unfold count_attempts_waiting. apply wp_find_ok; [|intros e; split; [by repeat constructor | done]].
  intros rows _ _ _. destruct (_ <$> _) as [|ep endpoints].
  { cbn [wp]. split; [by repeat constructor|]. intros n [= <-]. unfold waiting_of.
    case_match; lia. }
  apply wp_ok_bind. eapply wp_mono; [|apply wp_count_due; [by repeat constructor | lia]].
  intros r tr' [Htr' Hr]. destruct r as [due|e]; [|done]. specialize (Hr due eq_refl).
  destruct due as [found|found]; cbn [inner] in Hr.
  - apply wp_ok_bind. eapply wp_mono; [|by apply wp_read_waiting].
    intros r tr'' [Htr'' Hn]. destruct r as [n|e]; [|done]. specialize (Hn n eq_refl).
    cbn [wp]. split; [done|]. intros n' [= <-]. lia.
  - cbn [wp]. split; [done|]. by intros n [= <-].
Qed.

End WebhookClaimFacts.

Section WebhookClaimClaims.

Context `{E : CratestackErrors} `{B : !Backend}.

(** A claim of webhook attempts, interleaved with any other writers, never
    panics and never proposes an illegal transition.  What it returns is at
    most the budget; each attempt was due, or delivering under a lease that
    ran out, and is now leased to this worker with the attempt counted once
    (a reclaim is not counted again); and its endpoint, as read during the
    claim, is active, has no open circuit and is in a delivery mode the
    worker serves. *)
Theorem webhook_claim_safe worker budget served w p' tr' w' :
  world_ok w ->
  rtc step (claim_webhook_attempts worker budget served, [], w) (p', tr', w') ->
  p' <> Panic /\ Forall (fun e => ~ illegal_reply e) tr' /\
  forall rows, p' = Ret (Ok rows) ->
    Z.of_nat (length rows) <= Z.max 0 budget /\
    exists now, Ev Now now ∈ tr' /\ Forall (attempt_claimed tr' worker served now) rows.
Proof.
  intros Hok Hr. pose proof (wp_claim_webhook_attempts worker budget served []) as Hwp.
  destruct (wp_run_safe _ _ _ _ _ _ Hwp Hok Hr) as [Hp Hl]. split_and!; [done | done|].
  intros rows ->. by apply (wp_run _ _ _ _ _ _ _ Hwp Hok (valid_nil w) (Forall_nil_2 _) Hr).
Qed.

(** The count of attempts held back only reads, reads no row beyond the
    first over the cap however long the backlog and however many endpoints
    it is spread over, and so is at most one more than the cap. *)
Theorem waiting_count_capped now mode w r tr' w' :
  world_ok w ->
  rtc step (count_attempts_waiting now mode, [], w) (Ret r, tr', w') ->
  Forall read_only tr' /\
  forall n, r = Ok n -> (n <= S WAITING_COUNT_CAP)%nat.
Proof.
  intros Hok Hr.
  exact (wp_run _ _ _ _ _ _ _ (wp_count_attempts_waiting now mode) Hok (valid_nil w)
    (Forall_nil_2 _) Hr).
Qed.

End WebhookClaimClaims.

(** ** Examples *)
Module WebhookClaimExamples.

#[local] Existing Instance demo_errors.

(** An hmac endpoint and a sealed one, an attempt due for each. *)
Definition ex_hooks_world : world :=
  insert_row (insert_row (insert_row (insert_row empty_world
    TEndpoint (ex_endpoint (lit "e1") WebhookDeliveryMode.hmac))
    TEndpoint (ex_endpoint (lit "e2") WebhookDeliveryMode.sealed))
    TAttempt (ex_attempt (lit "a1") (lit "e1") AttemptState.pending 0))
    TAttempt (ex_attempt (lit "a2") (lit "e2") AttemptState.failed 1).

Lemma ex_hooks_world_ok : world_ok ex_hooks_world.
Proof. unfold ex_hooks_world. auto 10 with vsms. Qed.

Abbreviation ex_claim served :=
  (ref_run accepting (claim_webhook_attempts (lit "w1") 20 served) [] ex_hooks_world).

(** What each kind of worker claims. *)
Definition claimed_ids (x : config (result (list WebhookAttempt.t) DemoError)) : option (list text) :=
  match run_result x with
  | Some (Ok rows) => Some (WebhookAttempt.id <$> rows)
  | _ => None
  end.

Example ex_claim_modes :
  claimed_ids (ex_claim HmacOnly) = Some [lit "a1"] /\
  claimed_ids (ex_claim SealedOnly) = Some [lit "a2"] /\
  claimed_ids (ex_claim Neither) = Some [].
Proof. vm_compute. split_and!; reflexivity. Qed.

Lemma webhook_claim_safe_witness :
  (ex_claim HmacOnly).1.1 <> Panic /\
  exists now, Forall (attempt_claimed (run_trace (ex_claim HmacOnly)) (lit "w1") HmacOnly now)
    match run_result (ex_claim HmacOnly) with Some (Ok rows) => rows | _ => [] end.
Proof.
  destruct (@webhook_claim_safe demo_errors (ref_backend accepting) (lit "w1") 20 HmacOnly
    ex_hooks_world (ex_claim HmacOnly).1.1 (run_trace (ex_claim HmacOnly)) (ex_claim HmacOnly).2
    ex_hooks_world_ok (ref_run_config accepting _ [] ex_hooks_world)) as (Hp & _ & Hrows).
  split; [exact Hp|].
  destruct (Hrows match run_result (ex_claim HmacOnly) with Some (Ok rows) => rows | _ => [] end)
    as (_ & now & _ & Hf).
  - vm_compute. reflexivity.
  - exists now. exact Hf.
Defined.

Abbreviation ex_count :=
  (ref_run accepting (count_attempts_waiting ex_now WebhookDeliveryMode.sealed) [] ex_hooks_world).

Lemma waiting_count_capped_witness :
  run_result ex_count = Some (Ok 1%nat) /\ Forall read_only (run_trace ex_count).
Proof.
  split; [vm_compute; reflexivity|].
  apply (@waiting_count_capped demo_errors (ref_backend accepting) ex_now WebhookDeliveryMode.sealed
    ex_hooks_world (Ok 1%nat) (run_trace ex_count) ex_count.2 ex_hooks_world_ok).
  apply ref_run_done. vm_compute. reflexivity.
Defined.

End WebhookClaimExamples.
