(* ===== verification/Webhook.v ===== *)
(** * sms-webhook: signing deliveries (hmac_v1.rs, lib.rs)

    The [v1] signature scheme: the canonical string, the header a sender
    writes, the receiver's verification; the route a sealed delivery binds
    and the guards before the envelope is sealed.  SHA-256, HMAC and URL
    parsing are library code, parameters of the model. *)

From S2P Require Import Prelude ProviderApi Schema Errors Db DbLogic.

(** ** Bytes *)

(** [str::as_bytes]. *)
Definition encode_char (c : Z) : list Z :=
  if c <? 128 then [c]
  else if c <? 2048 then [192 + c / 64; 128 + c mod 64]
  else if c <? 65536 then [224 + c / 4096; 128 + (c / 64) mod 64; 128 + c mod 64]
  else [240 + c / 262144; 128 + (c / 4096) mod 64; 128 + (c / 64) mod 64; 128 + c mod 64].

Definition as_bytes (s : text) : list Z := s ≫= encode_char.

(** [hex::encode], lower case, and [hex::decode], either case. *)
Definition hex_char (d : Z) : Z := if d <? 10 then 48 + d else 87 + d.

Definition hex_encode (bs : list Z) : text := bs ≫= (fun b => [hex_char (b / 16); hex_char (b mod 16)]).

Definition hex_value (c : Z) : option Z :=
  if (48 <=? c) && (c <=? 57) then Some (c - 48)
  else if (97 <=? c) && (c <=? 102) then Some (c - 87)
  else if (65 <=? c) && (c <=? 70) then Some (c - 55)
  else None.

Fixpoint hex_decode (s : text) : option (list Z) :=
  match s with
  | [] => Some []
  | [_] => None
  | a :: b :: r =>
      match hex_value a, hex_value b, hex_decode r with
      | Some x, Some y, Some bs => Some (16 * x + y :: bs)
      | _, _, _ => None
      end
  end.

(** ** Strings *)

(** [str::split] on a character. *)
Fixpoint split_on (c : Z) (s : text) : list text :=
  match s with
  | [] => [[]]
  | x :: r =>
      if x =? c then [] :: split_on c r
      else match split_on c r with
           | [] => [[x]]
           | w :: ws => (x :: w) :: ws
           end
  end.

Definition strip_prefix (s p : text) : option text :=
  if starts_with s p then Some (drop (length p) s) else None.

(** ** The scheme *)
Class MacLib := {
  sha256 : list Z -> list Z;
  hmac_sha256 : list Z -> list Z -> list Z;
  sha256_length b : length (sha256 b) = 32%nat;
  sha256_bytes b : Forall (fun x => 0 <= x < 256) (sha256 b);
  hmac_bytes k m : Forall (fun x => 0 <= x < 256) (hmac_sha256 k m) }.

Definition HEADER_EVENT : text := lit "X-Sms-Event".
Definition HEADER_EVENT_ID : text := lit "X-Sms-Event-Id".
Definition HEADER_TIMESTAMP : text := lit "X-Sms-Timestamp".
Definition HEADER_SIGNATURE : text := lit "X-Sms-Signature".
Definition SIGNATURE_VERSION : text := lit "v1".
Definition SECRET_PREFIX : text := lit "whsec_".

Section Scheme.

Context `{M : MacLib}.

Definition canonical_string (timestamp : Z) (event_id : text) (body : list Z) : text :=
  let body_hash := hex_encode (sha256 body) in
  SIGNATURE_VERSION ++ [10] ++ show_Z timestamp ++ [10] ++ event_id ++ [10] ++ body_hash.

Definition sign_canonical (secret canonical : text) : text :=
  hex_encode (hmac_sha256 (as_bytes secret) (as_bytes canonical)).

Definition sign_v1 (secret : text) (timestamp : Z) (event_id : text) (body : list Z) : text :=
  sign_canonical secret (canonical_string timestamp event_id body).

Definition sign_header (secrets : list text) (timestamp : Z) (event_id : text) (body : list Z)
  : text :=
  let canonical := canonical_string timestamp event_id body in
  join (lit ",")
    ((fun secret => SIGNATURE_VERSION ++ lit "=" ++ sign_canonical secret canonical) <$> secrets).

Definition presented_tags (signature_header : text) : list (list Z) :=
  omap (fun entry => strip_prefix (trim entry) (SIGNATURE_VERSION ++ lit "=") ≫= hex_decode)
    (split_on 44 signature_header).

(** [Mac::verify_slice] accepts exactly the keyed tag. *)
Definition verify (candidate_secrets : list text) (timestamp : Z) (event_id : text)
  (body : list Z) (signature_header : text) : bool :=
  let canonical := canonical_string timestamp event_id body in
  let tags := presented_tags signature_header in
  match tags with
  | [] => false
  | _ =>
      existsb (fun secret =>
          existsb (fun tag => bool_decide (tag = hmac_sha256 (as_bytes secret) (as_bytes canonical)))
            tags)
        (List.filter (fun secret => negb (bool_decide (secret = []))) candidate_secrets)
  end.

End Scheme.

Definition I64_MAX : Z := 2 ^ 63 - 1.
Definition I64_MIN : Z := - 2 ^ 63.

Definition saturating_sub (a b : Z) : Z := Z.max I64_MIN (Z.min I64_MAX (a - b)).

Definition is_timestamp_fresh (timestamp now tolerance_secs : Z) : bool :=
  Z.abs (saturating_sub now timestamp) <=? Z.abs tolerance_secs.

(** The 32 bytes come from the operating system's generator. *)
Definition generate_secret (bytes : list Z) : text := SECRET_PREFIX ++ hex_encode bytes.

(** ** Sealed deliveries (lib.rs) *)
Inductive SealError := SealUrl (why : text) | NoAudience | SealFailed (why : text).

Definition display_SealError (e : SealError) : text :=
  match e with
  | SealUrl why => lit "the endpoint URL cannot carry a sealed delivery: " ++ why
  | NoAudience => lit "the endpoint has no audience, so a delivery would bind no recipient"
  | SealFailed why => lit "sealing the delivery failed: " ++ why
  end.

Record ParsedUrl := mkParsedUrl {
  u_scheme : text;
  u_username : text;
  u_password : option text;
  u_path : text;
  u_query : option text;
  u_fragment : option text }.

Class UrlLib := { url_parse : text -> option ParsedUrl }.

(** [HeaderValue::to_str]: visible ASCII, spaces and tabs. *)
Definition header_to_str (v : list Z) : option text :=
  if forallb (fun b => ((32 <=? b) && (b <? 127)) || (b =? 9)) v then Some v else None.

Section Sealed.

Context `{U : UrlLib}.

Definition delivery_route (url : text) : result text SealError :=
  match url_parse url with
  | None => Err (SealUrl (lit "not a URL"))
  | Some parsed =>
      if negb (bool_decide (u_scheme parsed ∈ [lit "http"; lit "https"])) then
        Err (SealUrl (lit "the scheme is not http or https"))
      else if negb (bool_decide (u_username parsed = [])) || negb (is_null (u_password parsed)) then
        Err (SealUrl (lit "it carries credentials"))
      else if negb (is_null (u_query parsed)) then Err (SealUrl (lit "it carries a query"))
      else if negb (is_null (u_fragment parsed)) then Err (SealUrl (lit "it carries a fragment"))
      else if existsb (fun c => bool_decide (c ∈ lit "{}%")) (u_path parsed) then
        Err (SealUrl (lit "the path is not one literal route"))
      else Ok (u_path parsed)
  end.

Context `{E : CratestackErrors}.

(** The envelope call itself ([ClientEnvelope::seal_call]) is cratestack's:
    [Seal] is asked for the audience, the route and the payload, and answers
    with the raw headers and the sealed bytes. *)
Definition seal (audience url : text) (body : list Z) : prog (result SealedDelivery SealError) :=
  if bool_decide (audience = []) then Ret (Err NoAudience)
  else
    match delivery_route url with
    | Err e => Ret (Err e)
    | Ok route =>
        let! r := do (Seal audience route body) in
        match r with
        | Err why => Ret (Err (SealFailed why))
        | Ok sealed =>
            Ret (Ok (mkSealed
              (omap (fun nv => (fun v => (nv.1, v)) <$> header_to_str nv.2) (sd_headers sealed))
              (sd_body sealed)))
        end
    end.

End Sealed.

(** ** Facts *)
Lemma utf8_decode_ascii bs : Forall (fun b => b < 128) bs -> utf8_decode bs = bs.
Proof.
  induction 1 as [|b bs Hb _ IH]; [done|]. cbn [utf8_decode].
  by rewrite (proj2 (Z.ltb_lt b 128) Hb), IH.
Qed.

Definition decimal_char (c : Z) : Prop := is_ascii_digit c = true \/ c = 45.

Lemma pretty_N_go_decimal x s :
  Forall decimal_char (utf8_bytes s) -> Forall decimal_char (utf8_bytes (pretty_N_go x s)).
Proof.
  revert s. induction (N.lt_wf_0 x) as [x _ IH]. intros s Hs.
  destruct (decide (x = 0)%N) as [->|Hx]; [by rewrite pretty_N_go_0|].
  rewrite pretty_N_go_step by lia. apply IH; [apply N.div_lt; lia|].
  cbn [utf8_bytes]. constructor; [|done]. left. unfold pretty_N_char. by repeat case_match.
Qed.

Lemma pretty_N_decimal (x : N) : Forall decimal_char (utf8_bytes (pretty x)).
Proof.
  unfold pretty, pretty_N. case_decide; [by repeat constructor|]. by apply pretty_N_go_decimal.
Qed.

Lemma pretty_Z_decimal (z : Z) : Forall decimal_char (utf8_bytes (pretty z)).
Proof.
  destruct z as [|p|p]; [by repeat constructor | apply pretty_N_decimal|].
  cbn. constructor; [by right | apply pretty_N_decimal].
Qed.

Lemma decimal_ascii c : decimal_char c -> c < 128.
Proof. unfold decimal_char, is_ascii_digit. intros [Hc| ->]; [split_and_bool; lia | lia]. Qed.

Lemma show_Z_bytes z : show_Z z = utf8_bytes (pretty z).
Proof.
  apply utf8_decode_ascii. eapply Forall_impl; [apply pretty_Z_decimal | apply decimal_ascii].
Qed.

Lemma byte_val_inj a b : byte_val a = byte_val b -> a = b.
Proof.
  unfold byte_val. intros H. apply N2Z.inj in H.
  by rewrite <- (Ascii.ascii_N_embedding a), <- (Ascii.ascii_N_embedding b), H.
Qed.

Lemma utf8_bytes_inj s t : utf8_bytes s = utf8_bytes t -> s = t.
Proof.
  revert t. induction s as [|a s IH]; intros [|b t]; cbn; [done|done|done|].
  intros [= Hab%byte_val_inj Hst]. by rewrite Hab, (IH t Hst).
Qed.

Lemma show_Z_inj a b : show_Z a = show_Z b -> a = b.
Proof. rewrite !show_Z_bytes. intros H%utf8_bytes_inj. by apply (inj pretty). Qed.

Lemma show_Z_no_newline z : 10 ∉ show_Z z.
Proof.
  rewrite show_Z_bytes. intros Hin. pose proof (pretty_Z_decimal z) as Hd.
  rewrite Forall_forall in Hd. by destruct (Hd _ Hin) as [?|?].
Qed.

(** *** Hex *)
Abbreviation bytes := (Forall (fun x => 0 <= x < 256)).

Lemma hex_value_char d : 0 <= d < 16 -> hex_value (hex_char d) = Some d.
Proof.
  intros Hd. unfold hex_char, hex_value.
  destruct (Z.ltb_spec d 10).
  - rewrite (proj2 (Z.leb_le _ _)), (proj2 (Z.leb_le _ _)) by lia. cbn. f_equal. lia.
  - rewrite (proj2 (Z.leb_gt (87 + d) 57)) by lia. rewrite andb_false_r.
    rewrite (proj2 (Z.leb_le 97 _)), (proj2 (Z.leb_le _ 102)) by lia. cbn. f_equal. lia.
Qed.

Lemma byte_nibbles b : 0 <= b < 256 -> 0 <= b / 16 < 16 /\ 0 <= b mod 16 < 16.
Proof.
  intros. split; [|apply Z.mod_pos_bound; lia].
  split; [apply Z.div_pos; lia | apply Z.div_lt_upper_bound; lia].
Qed.

Lemma hex_decode_encode bs : bytes bs -> hex_decode (hex_encode bs) = Some bs.
Proof.
  induction 1 as [|b bs Hb _ IH]; [done|].
  change (hex_encode (b :: bs)) with (hex_char (b / 16) :: hex_char (b mod 16) :: hex_encode bs).
  cbn [hex_decode]. destruct (byte_nibbles b Hb). rewrite !hex_value_char, IH by done.
  by rewrite <- Z.div_mod.
Qed.

Lemma hex_encode_length bs : length (hex_encode bs) = (2 * length bs)%nat.
Proof.
  induction bs as [|b bs IH]; [done|].
  change (hex_encode (b :: bs)) with (hex_char (b / 16) :: hex_char (b mod 16) :: hex_encode bs).
  cbn. lia.
Qed.

(** Characters a signature header is made of besides the separator. *)
Definition tag_char (c : Z) : Prop := is_whitespace c = false /\ c <> 44.

Lemma hex_char_tag d : 0 <= d < 16 -> tag_char (hex_char d).
Proof.
  intros Hd. assert (hex_value (hex_char d) = Some d) as Hv by by apply hex_value_char.
  unfold tag_char, is_whitespace, hex_char in *. destruct (Z.ltb_spec d 10); split; try lia;
    repeat match goal with |- context [?x <=? ?y] => destruct (Z.leb_spec x y); try lia end;
    repeat match goal with |- context [?x =? ?y] => destruct (Z.eqb_spec x y); try lia end; done.
Qed.

Lemma hex_encode_tag bs : bytes bs -> Forall tag_char (hex_encode bs).
Proof.
  induction 1 as [|b bs Hb _ IH]; [constructor|].
  change (hex_encode (b :: bs)) with (hex_char (b / 16) :: hex_char (b mod 16) :: hex_encode bs).
  destruct (byte_nibbles b Hb). repeat constructor; try done; by apply hex_char_tag.
Qed.

(** *** Splitting and trimming *)
Lemma split_on_word c w : (c ∉ w) -> split_on c w = [w].
Proof.
  induction w as [|x w IH]; [done|]. rewrite not_elem_of_cons. intros [Hx Hw]. cbn [split_on].
  rewrite (proj2 (Z.eqb_neq x c)) by done. by rewrite (IH Hw).
Qed.

Lemma split_on_app c w s : (c ∉ w) -> split_on c (w ++ c :: s) = w :: split_on c s.
Proof.
  induction w as [|x w IH]; cbn [app split_on]; [by rewrite Z.eqb_refl|].
  rewrite not_elem_of_cons. intros [Hx Hw]. rewrite (proj2 (Z.eqb_neq x c)) by done.
  by rewrite (IH Hw).
Qed.

Lemma split_on_join c l : l <> [] -> Forall (fun w => c ∉ w) l -> split_on c (join [c] l) = l.
Proof.
  intros Hne Hl. induction Hl as [|w l Hw Hl IH]; [done|]. destruct l as [|w' l].
  - by apply split_on_word.
  - change (join [c] (w :: w' :: l)) with (w ++ c :: join [c] (w' :: l)).
    by rewrite split_on_app, IH.
Qed.

Lemma trim_start_none s : Forall tag_char s -> trim_start s = s.
Proof. destruct 1 as [|c s [Hc _] _]; [done|]. cbn. by rewrite Hc. Qed.

Lemma trim_none s : Forall tag_char s -> trim s = s.
Proof.
  intros Hs. unfold trim. rewrite (trim_start_none s) by done.
  rewrite trim_start_none; [apply reverse_involutive|]. by apply Forall_reverse.
Qed.

Lemma tag_char_no_comma s : Forall tag_char s -> 44 ∉ s.
Proof. intros Hs Hin. rewrite Forall_forall in Hs. by destruct (Hs _ Hin). Qed.

Lemma strip_prefix_app p s : strip_prefix (p ++ s) p = Some s.
Proof.
  unfold strip_prefix. rewrite (proj2 (starts_with_spec _ _)) by eauto. by rewrite drop_app_length.
Qed.

Section SchemeFacts.

Context `{M : MacLib}.

Definition tag_of (secret canonical : text) : list Z :=
  hmac_sha256 (as_bytes secret) (as_bytes canonical).

(** Reading back the header that was signed. *)
Lemma presented_sign_header secrets timestamp event_id body :
  presented_tags (sign_header secrets timestamp event_id body) =
  (fun s => tag_of s (canonical_string timestamp event_id body)) <$> secrets.
Proof.
  unfold sign_header, presented_tags. set (canonical := canonical_string _ _ _).
  set (entry := fun secret : text => SIGNATURE_VERSION ++ lit "=" ++ sign_canonical secret canonical).
  change (lit ",") with [44].
  assert (forall s, Forall tag_char (entry s)) as Htag.
  { intros s. unfold entry. apply Forall_app. split; [by repeat constructor|].
    apply Forall_app. split; [by repeat constructor | apply hex_encode_tag, hmac_bytes]. }
  assert (forall s, strip_prefix (trim (entry s)) (SIGNATURE_VERSION ++ lit "=") ≫= hex_decode
      = Some (tag_of s canonical)) as Hdec.
  { intros s. rewrite trim_none by done. unfold entry. rewrite (assoc_L (++)), strip_prefix_app.
    cbn [mbind option_bind]. apply hex_decode_encode, hmac_bytes. }
  destruct (decide (secrets = [])) as [->|Hne]; [done|].
  rewrite split_on_join.
  - clear Hne. induction secrets as [|s secrets IH]; [done|].
    rewrite fmap_cons. cbn [omap list_omap]. by rewrite Hdec, IH.
  - by destruct secrets.
  - apply Forall_forall. intros w Hw. apply list_elem_of_fmap in Hw as (s & -> & _).
    by apply tag_char_no_comma.
Qed.

Lemma verify_spec candidates timestamp event_id body header :
  verify candidates timestamp event_id body header = true <->
  exists secret, secret ∈ candidates /\ secret <> [] /\
    tag_of secret (canonical_string timestamp event_id body) ∈ presented_tags header.
Proof.
  unfold verify. set (tags := presented_tags header). set (canonical := canonical_string _ _ _).
  assert (existsb (fun secret => existsb (fun tag =>
      bool_decide (tag = hmac_sha256 (as_bytes secret) (as_bytes canonical))) tags)
      (List.filter (fun secret => negb (bool_decide (secret = []))) candidates) = true <->
    exists secret, secret ∈ candidates /\ secret <> [] /\ tag_of secret canonical ∈ tags) as Hx.
  { rewrite existsb_exists. split.
    - intros (s & Hs & Ht). apply List.filter_In in Hs as [Hin Hne].
      apply existsb_exists in Ht as (t & Hin' & Ht). split_and_bool. subst t.
      exists s. rewrite !list_elem_of_In. done.
    - intros (s & Hin & Hne & Ht). exists s. rewrite list_elem_of_In in Hin, Ht. split.
      + apply List.filter_In. split; [done|]. by rewrite bool_decide_eq_false_2.
      + apply existsb_exists. exists (tag_of s canonical). split; [done|].
        by apply bool_decide_eq_true. }
  destruct tags as [|t tags]; [|exact Hx]. split; [done|].
  intros (s & _ & _ & []%not_elem_of_nil).
Qed.

(** Signing and verifying agree through a rotation: a header signed under
    any list of secrets is accepted by a receiver exactly when one of the
    receiver's non-empty secrets gives the same tag as one of the signing
    secrets. In particular any non-empty secret the two sides share is
    enough, in any order; and a receiver that holds only empty secrets
    accepts nothing. *)
Theorem verify_sign_header candidates secrets timestamp event_id body :
  verify candidates timestamp event_id body (sign_header secrets timestamp event_id body) = true <->
  exists c s, c ∈ candidates /\ c <> [] /\ s ∈ secrets /\
    tag_of c (canonical_string timestamp event_id body) =
    tag_of s (canonical_string timestamp event_id body).
Proof.
  rewrite verify_spec. setoid_rewrite presented_sign_header.
  setoid_rewrite list_elem_of_fmap. split.
  - intros (c & Hc & Hne & s & He & Hs). by exists c, s.
  - intros (c & s & Hc & Hne & Hs & He). exists c. split_and!; [done | done|]. by exists s.
Qed.

Lemma newline_split a b c d :
  (10 ∉ a) -> (10 ∉ c) -> a ++ [10] ++ b = c ++ [10] ++ d -> a = c /\ b = d.
Proof.
  revert c. induction a as [|x a IH]; intros [|y c]; cbn.
  - by intros _ _ [= ->].
  - rewrite not_elem_of_cons. intros _ [? _] [= ? _]. done.
  - rewrite not_elem_of_cons. intros [? _] _ [= ? _]. done.
  - rewrite !not_elem_of_cons. intros [_ Ha] [_ Hc] [= -> H].
    by destruct (IH c Ha Hc H) as [-> ->].
Qed.

(** The signed bytes pin down the delivery: two canonical strings are
    equal only for the same timestamp, the same event id (whatever
    characters it is made of) and bodies with the same SHA-256 digest, so a
    tag cannot be moved from one delivery to another. *)
Theorem canonical_string_injective t1 e1 b1 t2 e2 b2 :
  canonical_string t1 e1 b1 = canonical_string t2 e2 b2 ->
  t1 = t2 /\ e1 = e2 /\ sha256 b1 = sha256 b2.
Proof.
  unfold canonical_string. intros H. apply app_inv_head in H. injection H as H.
  apply newline_split in H as [Ht H]; [|apply show_Z_no_newline..].
  apply show_Z_inj in Ht. split; [done|].
  apply app_inj_2 in H as [He Hh].
  - split; [done|]. injection Hh as Hh.
    apply (f_equal hex_decode) in Hh. rewrite !hex_decode_encode in Hh by apply sha256_bytes.
    by injection Hh.
  - cbn. by rewrite !hex_encode_length, !sha256_length.
Qed.

End SchemeFacts.

(** The freshness check on 64-bit timestamps: for a tolerance below the
    largest [i64] it accepts exactly the timestamps within the tolerance,
    in either direction, however far apart the two clocks are (the
    subtraction saturates rather than wraps). *)
Theorem is_timestamp_fresh_spec timestamp now tolerance :
  I64_MIN <= timestamp <= I64_MAX -> I64_MIN <= now <= I64_MAX -> 0 <= tolerance < I64_MAX ->
  is_timestamp_fresh timestamp now tolerance = true <-> Z.abs (now - timestamp) <= tolerance.
Proof.
  unfold is_timestamp_fresh, saturating_sub, I64_MIN, I64_MAX. intros. rewrite Z.leb_le. lia.
Qed.

(** ** Examples *)
Module WebhookExamples.

(** A stand-in for the hash functions: deterministic, of the right size. *)
Definition toy_sum (b : list Z) : Z := foldl (fun a x => (31 * a + x) mod 65536) 7 b.

Definition toy_digest (b : list Z) : list Z := toy_sum b / 256 :: toy_sum b mod 256 :: replicate 30 0.

Lemma toy_sum_bound b : 0 <= toy_sum b < 65536.
Proof.
  unfold toy_sum. assert (0 <= 7 < 65536) as H by lia. revert H. generalize 7 as a.
  induction b as [|x b IH]; intros a Ha; [done|]. apply IH. by apply Z.mod_pos_bound.
Qed.

Lemma toy_digest_bytes b : Forall (fun x => 0 <= x < 256) (toy_digest b).
Proof.
  pose proof (toy_sum_bound b). constructor; [|constructor].
  - split; [apply Z.div_pos; lia | apply Z.div_lt_upper_bound; lia].
  - apply Z.mod_pos_bound. lia.
  - by apply Forall_replicate.
Qed.

Definition demo_mac : MacLib := {|
  sha256 := toy_digest;
  hmac_sha256 k m := toy_digest (k ++ m);
  sha256_length b := eq_refl;
  sha256_bytes := toy_digest_bytes;
  hmac_bytes k m := toy_digest_bytes (k ++ m) |}.

Definition demo_url : UrlLib := {|
  url_parse u := if starts_with u (lit "https://example.test/") then
      Some (mkParsedUrl (lit "https") [] None (drop 20 u) None None)
    else None |}.

#[local] Existing Instance demo_mac.

(** A rotation: the sender signs with the new and the old secret, the
    receiver still knows only the old one. *)
Example ex_rotation :
  verify [lit "old"] 1700000000 (lit "e1") [1; 2; 3]
    (sign_header [lit "new"; lit "old"] 1700000000 (lit "e1") [1; 2; 3]) = true /\
  verify [[]] 1700000000 (lit "e1") [1; 2; 3]
    (sign_header [[]] 1700000000 (lit "e1") [1; 2; 3]) = false.
Proof. vm_compute. split; reflexivity. Qed.

(** The receiver that still knows only the old secret. *)
Lemma verify_sign_header_witness :
  verify [lit "old"] 1700000000 (lit "e1") [1; 2; 3]
    (sign_header [lit "new"; lit "old"] 1700000000 (lit "e1") [1; 2; 3]) = true.
Proof.
  apply (verify_sign_header [lit "old"] [lit "new"; lit "old"] 1700000000 (lit "e1") [1; 2; 3]).
  exists (lit "old"), (lit "old"). split; [by left|]. split; [done|].
  split; [right; by left | reflexivity].
Defined.

Lemma canonical_string_injective_witness :
  canonical_string 17 (lit "e1") [1] = canonical_string 17 (lit "e1") [1] /\ sha256 [1] = sha256 [1].
Proof.
  split; [reflexivity|].
  apply (canonical_string_injective 17 (lit "e1") [1] 17 (lit "e1") [1]). reflexivity.
Defined.

Lemma is_timestamp_fresh_spec_witness :
  is_timestamp_fresh 100 I64_MAX 300 = true <-> Z.abs (I64_MAX - 100) <= 300.
Proof.
  apply (is_timestamp_fresh_spec 100 I64_MAX 300); unfold I64_MAX, I64_MIN; lia.
Defined.

End WebhookExamples.
