(* ===== verification/Hooks.v ===== *)
(** * sms-worker: webhook delivery (hooks.rs)

    Claiming attempts, building and authenticating each delivery in the
    endpoint's own mode, and writing back what its outcome implies for the
    attempt and for the endpoint's circuit breaker. *)

From S2P Require Import Prelude Float64 ProviderApi Schema Errors Breaker Db DbLogic DbRef.
From S2P Require Import Commits DemoData Claim WebhookClaim Webhook Dlr.

Definition BUDGET : Z := 20.

Definition ENDPOINT_BREAKER : BreakerPolicy := mkBreakerPolicy 20 (minutes 15).

Definition BACKOFF_SCHEDULE : list duration :=
  [seconds 1; seconds 5; seconds 25; minutes 2; minutes 10; hours 1; hours 6; hours 24].

Definition backoff_for (attempts : Z) : duration := schedule_at BACKOFF_SCHEDULE attempts.

(** serde_json, chrono's RFC 3339 form and the [Display] of an HTTP status. *)
Class DeliveryLib := {
  json : Type;
  json_from_str : text -> result json text;
  json_string : text -> json;
  json_object : list (text * json) -> json;
  json_to_string : json -> text;
  to_rfc3339_secs : Z -> text;
  display_status : Z -> text }.

(** What a hooks worker was started with. *)
Record HooksContext := mkHooksContext {
  has_sealer : bool;
  hmac_webhooks : HmacWebhooks }.

Definition served_modes (ctx : HooksContext) : ServedModes :=
  served_of (has_sealer ctx) (hmac_webhooks ctx).

(** [HttpClients::for_mode]: whether the client of a mode follows redirects. *)
Definition for_mode (mode : WebhookDeliveryMode.t) : bool :=
  match mode with
  | WebhookDeliveryMode.sealed => false
  | WebhookDeliveryMode.hmac => true
  end.

Inductive Outcome :=
| Success (status : Z)
| Gone
| Retryable (status : option Z) (message : text)
| MalformedPayload (message : text).

(** [StatusCode::is_success] and [StatusCode::GONE]. *)
Definition is_success (status : Z) : bool := (200 <=? status) && (status <? 300).
Definition GONE : Z := 410.

Section Hooks.

Context `{E : CratestackErrors} `{M : MacLib} `{U : UrlLib} `{D : DeliveryLib}.

Definition build_envelope (attempt : WebhookAttempt.t) (endpoint : WebhookEndpoint.t) (now : Z)
  : result text text :=
  let? data := json_from_str attempt.(WebhookAttempt.payload) in
  let occurred_at := to_rfc3339_secs now in
  Ok (json_to_string
    match endpoint.(WebhookEndpoint.deliveryMode) with
    | WebhookDeliveryMode.sealed => json_object
        [(lit "id", json_string attempt.(WebhookAttempt.id));
         (lit "eventId", json_string attempt.(WebhookAttempt.sourceEventId));
         (lit "type", json_string attempt.(WebhookAttempt.eventType));
         (lit "occurredAt", json_string occurred_at);
         (lit "appId", json_string endpoint.(WebhookEndpoint.appId));
         (lit "endpointId", json_string endpoint.(WebhookEndpoint.id));
         (lit "data", data)]
    | WebhookDeliveryMode.hmac => json_object
        [(lit "id", json_string attempt.(WebhookAttempt.id));
         (lit "type", json_string attempt.(WebhookAttempt.eventType));
         (lit "occurredAt", json_string occurred_at);
         (lit "data", data)]
    end).

Definition not_sealed (message : text) : Outcome := Retryable None message.

Definition sealed_request (follow : bool) (sealer : bool) (endpoint : WebhookEndpoint.t) (body : text)
  : prog (result HttpRequest Outcome) :=
  if negb sealer then
    Ret (Err (not_sealed (lit "delivery not sealed: this worker holds no envelope signing key. Start it with --envelope-signing-key-file (the gateway's key), or switch the endpoint to hmac")))
  else
    let audience := from_option id [] endpoint.(WebhookEndpoint.audience) in
    let! r := seal audience endpoint.(WebhookEndpoint.url) (as_bytes body) in
    match r with
    | Err error => Ret (Err (not_sealed (lit "delivery not sealed: " ++ display_SealError error)))
    | Ok delivery =>
        Ret (Ok (mkHttpRequest follow endpoint.(WebhookEndpoint.url) (sd_headers delivery)
                   (sd_body delivery)))
    end.

Definition hmac_request (follow : bool) (endpoint : WebhookEndpoint.t) (attempt : WebhookAttempt.t)
  (body : text) (now : Z) : result HttpRequest Outcome :=
  match endpoint.(WebhookEndpoint.secret) with
  | None => Err (Retryable None
      (lit "delivery not signed: this hmac endpoint has no secret. Rotate it (rotateWebhookSecret) to mint one"))
  | Some secret =>
      let timestamp := now / seconds 1 in
      let event_id := attempt.(WebhookAttempt.sourceEventId) in
      let secrets := secret :: match endpoint.(WebhookEndpoint.prevSecret) with
                               | Some p => [p]
                               | None => []
                               end in
      let signature := sign_header secrets timestamp event_id (as_bytes body) in
      Ok (mkHttpRequest follow endpoint.(WebhookEndpoint.url)
            [(HEADER_EVENT, attempt.(WebhookAttempt.eventType));
             (HEADER_EVENT_ID, event_id);
             (HEADER_TIMESTAMP, show_Z timestamp);
             (HEADER_SIGNATURE, signature);
             (lit "content-type", lit "application/json")]
            (as_bytes body))
  end.

(** The status handling after the send, one function for both modes. *)
Definition outcome_of (reply : result Z text) : Outcome :=
  match reply with
  | Ok status =>
      if is_success status then Success status
      else if status =? GONE then Gone
      else Retryable (Some status) (lit "endpoint responded " ++ display_status status)
  | Err error => Retryable None error
  end.

Definition send (sealer : bool) (endpoint : WebhookEndpoint.t) (attempt : WebhookAttempt.t)
  (body : text) (now : Z) : prog Outcome :=
  let client := for_mode endpoint.(WebhookEndpoint.deliveryMode) in
  let! request :=
    match endpoint.(WebhookEndpoint.deliveryMode) with
    | WebhookDeliveryMode.sealed => sealed_request client sealer endpoint body
    | WebhookDeliveryMode.hmac => Ret (hmac_request client endpoint attempt body now)
    end in
  match request with
  | Err outcome => Ret outcome
  | Ok request =>
      let! reply := do (Post request) in
      Ret (outcome_of reply)
  end.

(** ** Writes *)
Definition succeeded_patch (status now : Z) : list WebhookAttempt.col :=
  [ WebhookAttempt.SetState AttemptState.succeeded;
    WebhookAttempt.SetLastStatusCode (Some status);
    WebhookAttempt.SetLastError None;
    WebhookAttempt.SetLastAttemptAt (Some now);
    WebhookAttempt.SetLeaseOwner None;
    WebhookAttempt.SetLeaseUntil None ].

Definition failed_patch (attempts : Z) (status : option Z) (message : text) (now : Z)
  : list WebhookAttempt.col :=
  [ WebhookAttempt.SetState AttemptState.failed;
    WebhookAttempt.SetLastStatusCode status;
    WebhookAttempt.SetLastError (Some message);
    WebhookAttempt.SetLastAttemptAt (Some now);
    WebhookAttempt.SetNextAttemptAt (Some (now + backoff_for attempts));
    WebhookAttempt.SetLeaseOwner None;
    WebhookAttempt.SetLeaseUntil None ].

Definition dead_patch (status : option Z) (message : text) (now : Z) : list WebhookAttempt.col :=
  [ WebhookAttempt.SetState AttemptState.dead;
    WebhookAttempt.SetLastStatusCode status;
    WebhookAttempt.SetLastError (Some message);
    WebhookAttempt.SetLastAttemptAt (Some now);
    WebhookAttempt.SetLeaseOwner None;
    WebhookAttempt.SetLeaseUntil None ].

Definition write_attempt (attempt : WebhookAttempt.t) (p : list WebhookAttempt.col) : prog unit :=
  let! _ := do (Update TAttempt attempt.(WebhookAttempt.id) p attempt.(WebhookAttempt.version)) in
  Ret tt.

Definition write_succeeded (attempt : WebhookAttempt.t) (status now : Z) : prog unit :=
  write_attempt attempt (succeeded_patch status now).

Definition write_failed_retry (attempt : WebhookAttempt.t) (status : option Z) (message : text)
  (now : Z) : prog unit :=
  write_attempt attempt (failed_patch attempt.(WebhookAttempt.attempts) status message now).

Definition write_dead (attempt : WebhookAttempt.t) (status : option Z) (message : text) (now : Z)
  : prog unit :=
  write_attempt attempt (dead_patch status message now).

Definition write_endpoint (endpoint : WebhookEndpoint.t) (p : list WebhookEndpoint.col) : prog unit :=
  let! _ := do (Update TEndpoint endpoint.(WebhookEndpoint.id) p endpoint.(WebhookEndpoint.version)) in
  Ret tt.

Definition failure_patch (endpoint : WebhookEndpoint.t) (now : Z) : list WebhookEndpoint.col :=
  let decision := on_failure ENDPOINT_BREAKER endpoint.(WebhookEndpoint.consecutiveFailures) now in
  WebhookEndpoint.SetConsecutiveFailures (consecutive_failures decision) ::
  if opened_circuit decision then [WebhookEndpoint.SetCircuitOpenUntil (circuit_open_until decision)]
  else [].

Definition record_endpoint_failure (endpoint : WebhookEndpoint.t) (now : Z) : prog unit :=
  write_endpoint endpoint (failure_patch endpoint now).

Definition reset_patch : list WebhookEndpoint.col :=
  [WebhookEndpoint.SetConsecutiveFailures 0; WebhookEndpoint.SetCircuitOpenUntil None].

Definition endpoint_needs_reset (endpoint : WebhookEndpoint.t) : bool :=
  needs_reset endpoint.(WebhookEndpoint.consecutiveFailures) endpoint.(WebhookEndpoint.circuitOpenUntil).

Definition reset_endpoint_failures (endpoint : WebhookEndpoint.t) : prog unit :=
  if negb (endpoint_needs_reset endpoint) then Ret tt
  else write_endpoint endpoint reset_patch.

Definition deactivate_endpoint (endpoint : WebhookEndpoint.t) : prog unit :=
  write_endpoint endpoint [WebhookEndpoint.SetActive false].

Definition write_outcome (attempt : WebhookAttempt.t) (endpoint : WebhookEndpoint.t)
  (outcome : Outcome) (now : Z) : prog unit :=
  match outcome with
  | Success status =>
      let! _ := write_succeeded attempt status now in
      reset_endpoint_failures endpoint
  | Gone =>
      let! _ := write_dead attempt (Some 410) (lit "endpoint returned 410 Gone; deactivating") now in
      deactivate_endpoint endpoint
  | Retryable status message =>
      let! _ :=
        if endpoint.(WebhookEndpoint.maxAttempts) <=? attempt.(WebhookAttempt.attempts) then
          write_dead attempt status
            (lit "max attempts (" ++ show_Z endpoint.(WebhookEndpoint.maxAttempts)
               ++ lit ") reached: " ++ message) now
        else write_failed_retry attempt status message now in
      record_endpoint_failure endpoint now
  | MalformedPayload message =>
      write_dead attempt None (lit "malformed payload, not retried: " ++ message) now
  end.

(** ** One delivery, one poll *)
Definition endpoint_by_id (endpoint_id : text) : query TEndpoint :=
  mkQuery (fun e : row TEndpoint => bool_decide (e.(WebhookEndpoint.id) = endpoint_id)) [] (Some 1).

Definition fetch_endpoint (endpoint_id : text)
  : prog (result (option WebhookEndpoint.t) CratestackError) :=
  let!? rows := do (FindMany TEndpoint (endpoint_by_id endpoint_id)) in
  Ret (Ok (head rows)).

Definition deliver_one (ctx : HooksContext) (attempt : WebhookAttempt.t) : prog unit :=
  let! found := fetch_endpoint attempt.(WebhookAttempt.endpointId) in
  match found with
  | Ok (Some endpoint) =>
      if negb (serves (served_modes ctx) endpoint.(WebhookEndpoint.deliveryMode)) then Ret tt
      else
        let! now := do Now in
        match build_envelope attempt endpoint now with
        | Err error =>
            write_outcome attempt endpoint
              (MalformedPayload (lit "payload did not parse as JSON: " ++ error)) now
        | Ok body =>
            let! outcome := send (has_sealer ctx) endpoint attempt body now in
            write_outcome attempt endpoint outcome now
        end
  | _ => Ret tt
  end.

Definition deliver_claimed (ctx : HooksContext) (claimed : list WebhookAttempt.t) : prog unit :=
  for_each (deliver_one ctx) claimed.

Definition tick (ctx : HooksContext) (worker : text) : prog (result unit CratestackError) :=
  let!? claimed := claim_webhook_attempts worker BUDGET (served_modes ctx) in
  let! _ := deliver_claimed ctx claimed in
  Ret (Ok tt).

(** ** The backlog watches *)
Definition BACKLOG_WARNING_EVERY : duration := minutes 5.

Definition sealed_report (ctx : HooksContext) (every : Throttle) (now : Z)
  : prog (result (option nat) CratestackError * Throttle) :=
  if has_sealer ctx then Ret (Ok None, every)
  else
    let '(admitted, every) := admit_key every (lit "sealed-backlog") now in
    if negb admitted then Ret (Ok None, every)
    else
      let! utc := do Now in
      let! waiting := count_attempts_waiting utc WebhookDeliveryMode.sealed in
      Ret (match waiting with Ok n => Ok (Some n) | Err e => Err e end, every).

Definition hmac_report (ctx : HooksContext) (every : Throttle) (now : Z)
  : prog (result (option nat) CratestackError * Throttle) :=
  if is_permitted (hmac_webhooks ctx) then Ret (Ok None, every)
  else
    let '(admitted, every) := admit_key every (lit "hmac-backlog") now in
    if negb admitted then Ret (Ok None, every)
    else
      let! utc := do Now in
      let! held := count_attempts_waiting utc WebhookDeliveryMode.hmac in
      Ret (match held with Ok n => Ok (Some n) | Err e => Err e end, every).

End Hooks.

(** ** What a delivery's outcome implies *)
Definition breaker_of (e : WebhookEndpoint.t) : BreakerState :=
  mkBreakerState e.(WebhookEndpoint.consecutiveFailures) e.(WebhookEndpoint.circuitOpenUntil).

(** The state an outcome leaves the attempt in. *)
Definition verdict (a : WebhookAttempt.t) (e : WebhookEndpoint.t) (o : Outcome) : AttemptState.t :=
  match o with
  | Success _ => AttemptState.succeeded
  | Gone | MalformedPayload _ => AttemptState.dead
  | Retryable _ _ =>
      if e.(WebhookEndpoint.maxAttempts) <=? a.(WebhookAttempt.attempts) then AttemptState.dead
      else AttemptState.failed
  end.

(** The attempt as its outcome leaves it: the verdict, no lease, the count of
    the claim, and behind the backoff only when it is to be tried again. *)
Definition attempt_verdict (a : WebhookAttempt.t) (e : WebhookEndpoint.t) (o : Outcome) (now : Z)
  (b : WebhookAttempt.t) : Prop :=
  b.(WebhookAttempt.state) = verdict a e o /\
  b.(WebhookAttempt.leaseOwner) = None /\ b.(WebhookAttempt.leaseUntil) = None /\
  b.(WebhookAttempt.lastAttemptAt) = Some now /\
  b.(WebhookAttempt.attempts) = a.(WebhookAttempt.attempts) /\
  b.(WebhookAttempt.nextAttemptAt) =
    match verdict a e o with
    | AttemptState.failed => Some (now + backoff_for a.(WebhookAttempt.attempts))
    | _ => a.(WebhookAttempt.nextAttemptAt)
    end.

Definition endpoint_after (e : WebhookEndpoint.t)
  (ws : list (text * list WebhookEndpoint.col * Z)) : WebhookEndpoint.t :=
  foldl (fun e w => WebhookEndpoint.apply w.1.2 e) e ws.

(** The endpoint's bookkeeping: its breaker takes one step for an outcome that
    says something about it, a [410] switches it off, and a payload that never
    parsed leaves it alone. *)
Definition endpoint_verdict (e : WebhookEndpoint.t) (o : Outcome) (now : Z)
  (ws : list (text * list WebhookEndpoint.col * Z)) : Prop :=
  Forall (fun w => w.1.1 = e.(WebhookEndpoint.id) /\ w.2 = e.(WebhookEndpoint.version)) ws /\
  (length ws <= 1)%nat /\
  let e' := endpoint_after e ws in
  e'.(WebhookEndpoint.active) = match o with Gone => false | _ => e.(WebhookEndpoint.active) end /\
  breaker_of e' =
    match o with
    | Success _ => breaker_step ENDPOINT_BREAKER (breaker_of e) BSuccess
    | Retryable _ _ => breaker_step ENDPOINT_BREAKER (breaker_of e) (BFail now)
    | Gone | MalformedPayload _ => breaker_of e
    end /\
  match o with MalformedPayload _ => ws = [] | _ => True end.

Section HooksFacts.

Context `{E : CratestackErrors} `{M : MacLib} `{U : UrlLib} `{D : DeliveryLib}.

Lemma attempt_writes_app l l' : attempt_writes (l ++ l') = attempt_writes l ++ attempt_writes l'.
Proof. apply bind_app. Qed.

Lemma endpoint_writes_app l l' : endpoint_writes (l ++ l') = endpoint_writes l ++ endpoint_writes l'.
Proof. apply bind_app. Qed.

Lemma posts_app l l' : posts (l ++ l') = posts l ++ posts l'.
Proof. apply bind_app. Qed.

(** Exactly the writes an outcome calls for, and no request. *)
Definition outcome_writes (a : WebhookAttempt.t) (e : WebhookEndpoint.t) (o : Outcome) (now : Z)
  (l : trace) : Prop :=
  posts l = [] /\
  (exists p, attempt_writes l = [(a.(WebhookAttempt.id), p, a.(WebhookAttempt.version))] /\
     attempt_verdict a e o now (WebhookAttempt.apply p a)) /\
  endpoint_verdict e o now (endpoint_writes l).

Lemma wp_write_attempt a p tr (Q : unit -> trace -> Prop) :
  known tr TAttempt a -> attempt_edge p a = true ->
  (forall r, Q tt (Ev (Update TAttempt a.(WebhookAttempt.id) p a.(WebhookAttempt.version)) r :: tr)) ->
  wp (write_attempt a p) tr Q.
Proof.
  intros Hk He HQ. apply wp_update_attempt; [done | done | |]; intros; cbn [wp]; apply HQ.
Qed.

Lemma wp_write_endpoint e p tr (Q : unit -> trace -> Prop) :
  known tr TEndpoint e ->
  (forall r, Q tt (Ev (Update TEndpoint e.(WebhookEndpoint.id) p e.(WebhookEndpoint.version)) r :: tr)) ->
  wp (write_endpoint e p) tr Q.
Proof. intros Hk HQ. by apply (wp_logged TEndpoint e). Qed.

Lemma wp_write_outcome a e o now tr :
  known tr TAttempt a -> a.(WebhookAttempt.state) = AttemptState.delivering -> known tr TEndpoint e ->
  wp (write_outcome a e o now) tr (fun _ tr' => exists l, tr' = l ++ tr /\ outcome_writes a e o now l).
Proof.
  intros Hk Hs He. unfold write_outcome, outcome_writes, endpoint_verdict. cbv zeta. destruct o as [st| |st msg|msg].
  - apply wp_bind, wp_write_attempt; [done | solve_edge Hs|]. intros r.
    unfold reset_endpoint_failures. destruct (endpoint_needs_reset e) eqn:Hn; cbn [negb].
    + apply wp_write_endpoint; [auto with vsms|]. intros r'. eexists [_; _]. split; [done|].
      split_and!; [done | by eexists | by repeat constructor | done | done | | done].
      unfold breaker_step, endpoint_needs_reset in *. cbn. by rewrite Hn.
    + cbn [wp]. eexists [_]. split; [done|].
      split_and!; [done | by eexists | constructor | cbn; lia | done | | done].
      unfold breaker_step, endpoint_needs_reset in *. cbn. by rewrite Hn.
  - apply wp_bind, wp_write_attempt; [done | solve_edge Hs|]. intros r.
    apply wp_write_endpoint; [auto with vsms|]. intros r'. eexists [_; _]. split; [done|].
    split_and!; [done | by eexists | by repeat constructor | done | done | done | done].
  - apply wp_bind.
    apply (wp_mono _ _ (fun _ tr' => exists r p,
      tr' = Ev (Update TAttempt a.(WebhookAttempt.id) p a.(WebhookAttempt.version)) r :: tr /\
      attempt_verdict a e (Retryable st msg) now (WebhookAttempt.apply p a))).
    + intros _ tr' (r & p & -> & Hp). apply wp_write_endpoint; [auto with vsms|]. intros r'.
      eexists [_; _]. split; [done|]. split; [done|]. split; [by exists p|].
      split; [by repeat constructor|]. split; [done|].
      unfold endpoint_after, failure_patch, breaker_step, breaker_of. cbn.
      destruct (opened_circuit _) eqn:Ho; by cbn; rewrite ?Ho.
    + unfold attempt_verdict, verdict.
      destruct (Z.leb_spec (WebhookEndpoint.maxAttempts e) (WebhookAttempt.attempts a));
        (apply wp_write_attempt; [done | solve_edge Hs|]; intros r; by eexists _, _).
  - apply wp_write_attempt; [done | solve_edge Hs|]. intros r. eexists [_]. split; [done|].
    split_and!; [done | by eexists | constructor | cbn; lia | done | done | done].
Qed.

(** What the body of a delivery says: which attempt, event and moment, and the
    payload; in sealed mode also the event's id, the app and the endpoint. *)
Definition envelope_of (a : WebhookAttempt.t) (e : WebhookEndpoint.t) (now : Z) (data : json) (body : text) : Prop :=
  exists fields, body = json_to_string (json_object fields) /\ NoDup fields.*1 /\
    let common := [(lit "id", json_string a.(WebhookAttempt.id));
                   (lit "type", json_string a.(WebhookAttempt.eventType));
                   (lit "occurredAt", json_string (to_rfc3339_secs now)); (lit "data", data)] in
    fields ≡ₚ match e.(WebhookEndpoint.deliveryMode) with
              | WebhookDeliveryMode.hmac => common
              | WebhookDeliveryMode.sealed =>
                  [(lit "eventId", json_string a.(WebhookAttempt.sourceEventId));
                   (lit "appId", json_string e.(WebhookEndpoint.appId));
                   (lit "endpointId", json_string e.(WebhookEndpoint.id))] ++ common
              end.

(** Why nothing can be sent: in sealed mode the worker holds no key, the
    endpoint has no audience or no route, or sealing failed; in hmac mode the
    endpoint has no secret. *)
Definition unsendable (sealer : bool) (e : WebhookEndpoint.t) (l : trace) : Prop :=
  match e.(WebhookEndpoint.deliveryMode) with
  | WebhookDeliveryMode.sealed =>
      sealer = false \/ from_option id [] e.(WebhookEndpoint.audience) = [] \/
      is_ok (delivery_route e.(WebhookEndpoint.url)) = false \/
      exists audience route body why, Ev (Seal audience route body) (Err why) ∈ l
  | WebhookDeliveryMode.hmac => e.(WebhookEndpoint.secret) = None
  end.

(** What is posted in sealed mode is what sealing the body for the endpoint's
    audience and route answered: the sealed bytes and the headers that are
    text, and no redirect is followed. *)
Definition sealed_post (e : WebhookEndpoint.t) (body : text) (l : trace) (q : HttpRequest) : Prop :=
  rq_follow_redirects q = false /\
  exists audience route sealed, e.(WebhookEndpoint.audience) = Some audience /\ audience <> [] /\
    delivery_route e.(WebhookEndpoint.url) = Ok route /\
    Ev (Seal audience route (as_bytes body)) (Ok sealed) ∈ l /\
    rq_body q = sd_body sealed /\
    forall n v, (n, v) ∈ rq_headers q <-> exists raw, (n, raw) ∈ sd_headers sealed /\ header_to_str raw = Some v.

(** In hmac mode the body is posted as it is, under headers that name the event
    and the second it is sent in and carry a signature over them and the body
    that holders of the current and of the previous secret accept. *)
Definition hmac_post (e : WebhookEndpoint.t) (a : WebhookAttempt.t) (body : text) (now : Z) (q : HttpRequest) : Prop :=
  rq_follow_redirects q = true /\ rq_body q = as_bytes body /\
  (HEADER_EVENT, a.(WebhookAttempt.eventType)) ∈ rq_headers q /\
  (HEADER_EVENT_ID, a.(WebhookAttempt.sourceEventId)) ∈ rq_headers q /\
  (HEADER_TIMESTAMP, show_Z (now / seconds 1)) ∈ rq_headers q /\
  exists signature, (HEADER_SIGNATURE, signature) ∈ rq_headers q /\
    forall secret, secret <> [] ->
      e.(WebhookEndpoint.secret) = Some secret \/ e.(WebhookEndpoint.prevSecret) = Some secret ->
      verify [secret] (now / seconds 1) a.(WebhookAttempt.sourceEventId) (as_bytes body) signature = true.

(** The request of one delivery: nothing was sent because nothing could be,
    which is retryable; or exactly one POST was made, to the endpoint's
    URL, sealed or signed as its mode says, and the outcome is what the reply
    says. *)
Definition request_made (sealer : bool) (e : WebhookEndpoint.t) (a : WebhookAttempt.t) (body : text) (now : Z)
  (l : trace) (o : Outcome) : Prop :=
  attempt_writes l = [] /\ endpoint_writes l = [] /\
  ((posts l = [] /\ unsendable sealer e l /\ exists message, o = Retryable None message) \/
   exists q reply, posts l = [q] /\ Ev (Post q) reply ∈ l /\ o = outcome_of reply /\
     rq_url q = e.(WebhookEndpoint.url) /\
     match e.(WebhookEndpoint.deliveryMode) with
     | WebhookDeliveryMode.sealed => sealed_post e body l q
     | WebhookDeliveryMode.hmac => hmac_post e a body now q
     end).

Lemma wp_seal audience url body tr (Q : result SealedDelivery SealError -> trace -> Prop) :
  (audience = [] -> Q (Err NoAudience) tr) ->
  (forall e, delivery_route url = Err e -> Q (Err e) tr) ->
  (forall route why, Q (Err (SealFailed why)) (Ev (Seal audience route body) (Err why) :: tr)) ->
  (forall route sealed hs, audience <> [] -> delivery_route url = Ok route ->
     (forall n v, (n, v) ∈ hs <-> exists raw, (n, raw) ∈ sd_headers sealed /\ header_to_str raw = Some v) ->
     Q (Ok (mkSealed hs (sd_body sealed))) (Ev (Seal audience route body) (Ok sealed) :: tr)) ->
  wp (seal audience url body) tr Q.
Proof.
  intros H0 H1 H2 H3. unfold seal. case_bool_decide; [by apply H0|].
  destruct (delivery_route url) as [route|e]; [|by apply H1].
  apply wp_do; [done|]. intros [d|why] _; cbn [wp]; [apply H3; try done | apply H2].
  intros n v. rewrite list_elem_of_omap. split.
  - intros ([n' raw] & Hin & (v' & Hv & [= -> ->])%fmap_Some). by exists raw.
  - intros (raw & Hin & Hv). exists (n, raw). cbn. by rewrite Hv.
Qed.

Lemma wp_post_last (req : HttpRequest) tr (Q : Outcome -> trace -> Prop) :
  (forall reply, Q (outcome_of reply) (Ev (Post req) reply :: tr)) ->
  wp (let! reply := do (Post req) in Ret (outcome_of reply)) tr Q.
Proof. intros HQ. apply wp_do; [done|]. intros reply _. apply HQ. Qed.

(** What the worker signs, a receiver accepts. *)
Lemma signed_accepted secret secrets timestamp event_id body :
  secret <> [] -> secret ∈ secrets ->
  verify [secret] timestamp event_id body (sign_header secrets timestamp event_id body) = true.
Proof.
  intros Hne Hs. apply verify_spec. exists secret. split; [by left|]. split; [done|].
  rewrite presented_sign_header. apply list_elem_of_fmap. by exists secret.
Qed.

Lemma hmac_request_post e a body now q :
  hmac_request true e a body now = Ok q -> rq_url q = e.(WebhookEndpoint.url) /\ hmac_post e a body now q.
Proof.
  unfold hmac_request. destruct (WebhookEndpoint.secret e) as [cur|] eqn:Hcur; [|done]. intros [= <-].
  split; [done|]. split; [done|]. split; [done|]. split; [by left|]. split; [right; by left|].
  split; [right; right; by left|]. eexists. split; [right; right; right; by left|].
  intros secret Hne Hs. apply signed_accepted; [done|].
  destruct Hs as [Hs|Hs]; rewrite ?Hcur in Hs; [injection Hs as ->; by left | rewrite Hs; right; by left].
Qed.

Lemma hmac_request_err follow e a body now o :
  hmac_request follow e a body now = Err o ->
  e.(WebhookEndpoint.secret) = None /\ exists message, o = Retryable None message.
Proof. unfold hmac_request. case_match; [done|]. intros [= <-]. split; [done | by eexists]. Qed.

(** Nothing was sent. *)
Lemma unsent sealer e a body now l message :
  attempt_writes l = [] -> endpoint_writes l = [] -> posts l = [] -> unsendable sealer e l ->
  request_made sealer e a body now l (Retryable None message).
Proof. intros. split; [done|]. split; [done|]. left. split; [done|]. split; [done | by eexists]. Qed.

Lemma wp_send sealer e a body now tr :
  wp (send sealer e a body now) tr
    (fun o tr' => exists l, tr' = l ++ tr /\ request_made sealer e a body now l o).
Proof.
  unfold send. destruct (WebhookEndpoint.deliveryMode e) eqn:Hm; cbn [for_mode].
  - apply wp_bind. unfold sealed_request. destruct sealer; cbn [negb].
    + apply wp_bind, wp_seal; cbn [wp].
      * intros Ha. exists []. split; [done|]. apply unsent; [done..|]. unfold unsendable. rewrite Hm. right. by left.
      * intros err Hr. exists []. split; [done|]. apply unsent; [done..|]. unfold unsendable. rewrite Hm.
        do 2 right. left. by rewrite Hr.
      * intros route why. eexists [_]. split; [done|]. apply unsent; [done..|]. unfold unsendable. rewrite Hm.
        do 3 right. do 4 eexists. by left.
      * intros route sealed hs Ha Hr Hh. cbn [wp]. apply wp_post_last. intros reply. eexists [_; _]. split; [done|].
        split; [done|]. split; [done|]. right. eexists _, reply. rewrite Hm.
        split; [done|]. split; [by left|]. split; [done|]. split; [done|]. split; [done|].
        destruct (WebhookEndpoint.audience e) as [audience|] eqn:Hau; [|done]. exists audience, route, sealed.
        cbn [from_option id] in *. split_and!; try done. right. by left.
    + cbn [wp]. exists []. split; [done|]. apply unsent; [done..|]. unfold unsendable. rewrite Hm. by left.
  - apply wp_bind. cbn [wp].
    destruct (hmac_request true e a body now) as [q|o] eqn:Hq.
    + apply wp_post_last. intros reply. exists [Ev (Post q) reply]. split; [done|].
      split; [done|]. split; [done|]. right. exists q, reply. rewrite Hm.
      apply hmac_request_post in Hq as [Hu Hq]. split_and!; [done | by left | done | done | done].
    + cbn [wp]. exists []. split; [done|]. apply hmac_request_err in Hq as [Hn [message ->]].
      apply unsent; [done..|]. unfold unsendable. by rewrite Hm.
Qed.

Lemma build_envelope_of a e now :
  match json_from_str a.(WebhookAttempt.payload) with
  | Ok data => exists body, build_envelope a e now = Ok body /\ envelope_of a e now data body
  | Err error => build_envelope a e now = Err error
  end.
Proof.
  unfold build_envelope. destruct (json_from_str _) as [data|err]; [|done]. cbn [rbind]. eexists. split; [done|].
  unfold envelope_of. destruct (WebhookEndpoint.deliveryMode e); eexists; (split; [reflexivity|]; split).
  - by apply (bool_decide_unpack _); vm_compute.
  - cbn. solve_Permutation.
  - by apply (bool_decide_unpack _); vm_compute.
  - cbn. solve_Permutation.
Qed.

(** Everything one delivery can do, latest call first. *)
Definition delivery (ctx : HooksContext) (a : WebhookAttempt.t) (l : trace) : Prop :=
  let find := FindMany TEndpoint (endpoint_by_id a.(WebhookAttempt.endpointId)) in
  (exists r, l = [Ev find r] /\ forall e rest, r = Ok (e :: rest) ->
     serves (served_modes ctx) e.(WebhookEndpoint.deliveryMode) = false) \/
  exists e rest now o lw lq, l = lw ++ lq ++ [Ev Now now; Ev find (Ok (e :: rest))] /\
    e.(WebhookEndpoint.id) = a.(WebhookAttempt.endpointId) /\
    serves (served_modes ctx) e.(WebhookEndpoint.deliveryMode) = true /\
    match json_from_str a.(WebhookAttempt.payload) with
    | Ok data => exists body, envelope_of a e now data body /\
        request_made (has_sealer ctx) e a body now lq o
    | Err _ => lq = [] /\ exists message, o = MalformedPayload message
    end /\
    outcome_writes a e o now lw.

Lemma wp_deliver_one ctx a tr :
  known tr TAttempt a -> a.(WebhookAttempt.state) = AttemptState.delivering ->
  wp (deliver_one ctx a) tr (fun _ tr' => exists l, tr' = l ++ tr /\ delivery ctx a l).
Proof.
  intros Hk Hs. unfold deliver_one, fetch_endpoint. apply wp_bind, wp_find_ok.
  2: { intros err. cbn [wp]. eexists [_]. split; [done|]. left. by eexists. }
  intros rows Hrows _ _. cbn [wp]. destruct rows as [|e rest]; cbn [head].
  { cbn [wp]. eexists [_]. split; [done|]. left. by eexists. }
  apply Forall_cons in Hrows as [Hid%bool_decide_eq_true _].
  set (f := Ev _ (Ok (e :: rest))).
  assert (known (f :: tr) TEndpoint e) as Hke by (apply (known_find _ TEndpoint); by left).
  destruct (serves _ _) eqn:Hsv; cbn [negb].
  2: { cbn [wp]. exists [f]. split; [done|]. left. eexists. split; [done|]. by intros ? ? [= -> ->]. }
  apply wp_now. intros now.
  pose proof (build_envelope_of a e now) as Henv.
  destruct (json_from_str (WebhookAttempt.payload a)) as [data|err] eqn:Hb;
    [destruct Henv as (body & -> & Henv) | rewrite Henv].
  - apply wp_bind. eapply wp_mono; [|apply wp_send]. intros o tr1 (lq & -> & Hq).
    eapply wp_mono; [|apply wp_write_outcome; auto with vsms].
    intros _ tr2 (lw & -> & Hw). exists (lw ++ lq ++ [Ev Now now; f]).
    rewrite <- !(assoc_L (++)). split; [done|]. right. exists e, rest, now, o, lw, lq.
    rewrite Hb. split_and!; try done. by exists body.
  - eapply wp_mono; [|apply wp_write_outcome; auto with vsms].
    intros _ tr2 (lw & -> & Hw). exists (lw ++ [] ++ [Ev Now now; f]).
    rewrite <- !(assoc_L (++)). split; [done|]. right. eexists e, rest, now, _, lw, [].
    rewrite Hb. split_and!; [done | done | done | done | by eexists | exact Hw].
Qed.

(** ** Corollaries on a whole poll *)
Lemma outcome_writes_posts a e o now l : outcome_writes a e o now l -> posts l = [].
Proof. by intros [? _]. Qed.

Lemma delivery_posts ctx a l : delivery ctx a l -> (length (posts l) <= 1)%nat.
Proof.
  intros [(r & -> & _)|(e & rest & now & o & lw & lq & -> & _ & _ & Hq & Hw)]; [cbn; lia|].
  rewrite !posts_app, (outcome_writes_posts _ _ _ _ _ Hw). cbn [app].
  rewrite length_app. cbn [length posts mbind list_bind app].
  destruct (json_from_str (WebhookAttempt.payload a)).
  - destruct Hq as (body & _ & _ & _ & [[-> _]|(q & reply & -> & _)]); cbn; lia.
  - destruct Hq as [-> _]. cbn. lia.
Qed.

Lemma wp_deliver_claimed ctx claimed tr :
  Forall (fun a => known tr TAttempt a /\ a.(WebhookAttempt.state) = AttemptState.delivering) claimed ->
  wp (deliver_claimed ctx claimed) tr (fun _ tr' => exists ls, tr' = concat ls ++ tr /\
    Forall2 (delivery ctx) (reverse claimed) ls).
Proof.
  revert tr. unfold deliver_claimed. induction claimed as [|a claimed IH]; intros tr Hc.
  { cbn [wp for_each]. exists []. split; [done | constructor]. }
  apply Forall_cons in Hc as [[Hk Hs] Hc]. cbn [for_each]. apply wp_bind.
  eapply wp_mono; [|by apply wp_deliver_one]. intros _ tr1 (l & -> & Hd).
  eapply wp_mono; [|apply IH].
  - intros _ tr2 (ls & -> & Hls). exists (ls ++ [l]).
    rewrite concat_app, <- (assoc_L (++)). cbn [concat]. rewrite app_nil_r. split; [done|].
    rewrite reverse_cons. apply Forall2_app; [done|]. apply Forall2_cons_2; [done | apply Forall2_nil_2].
  - eapply Forall_impl; [exact Hc|]. intros x [? ?]. auto with vsms.
Qed.

End HooksFacts.

Section HooksClaims.

Context `{E : CratestackErrors} `{B : !Backend} `{M : MacLib} `{U : UrlLib} `{D : DeliveryLib}.

Lemma concat_posts ctx claimed ls :
  Forall2 (delivery ctx) claimed ls -> (length (posts (concat ls)) <= length claimed)%nat.
Proof.
  induction 1 as [|a l claimed ls Hd _ IH]; [done|]. cbn [concat]. rewrite posts_app, length_app.
  pose proof (delivery_posts _ _ _ Hd). cbn [length]. lia.
Qed.

(** Claiming posts nothing. *)
Fixpoint no_post {A} (p : prog A) : Prop :=
  match p with
  | Ret _ | Panic => True
  | Call c k => match c with Post _ => False | _ => True end /\ forall r, no_post (k r)
  end.

Lemma no_post_bind {A X} (p : prog A) (f : A -> prog X) :
  no_post p -> (forall a, no_post (f a)) -> no_post (pbind p f).
Proof.
  intros Hp Hf. induction p as [a| |R c k IH]; cbn in *; [apply Hf | done |].
  destruct Hp as [Hc Hk]. split; [done|]. intros r. by apply IH.
Qed.

Lemma no_post_bind_ok {A X Y} (p : prog (result A Y)) (f : A -> prog (result X Y)) :
  no_post p -> (forall a, no_post (f a)) -> no_post (pbind_ok p f).
Proof. intros Hp Hf. apply no_post_bind; [done|]. by intros [a|e]. Qed.

Lemma wp_no_post {A} (p : prog A) tr Q :
  no_post p -> wp p tr Q -> wp p tr (fun a tr' => Q a tr' /\ posts tr' = posts tr).
Proof.
  revert tr. induction p as [a| |R c k IH]; intros tr; cbn; [done | done |].
  intros [Hc Hns] [Hok Hk]. split; [done|]. intros r Hr.
  eapply wp_mono; [|apply IH; [apply Hns | apply Hk, Hr]].
  intros a tr' [HQ ->]. split; [done|]. by destruct c.
Qed.

Lemma no_post_due now limit ready endpoints : no_post (due_per_endpoint now limit ready endpoints).
Proof.
  revert ready. induction endpoints as [|ep endpoints IH]; intros ready; [done|].
  cbn [due_per_endpoint]. apply no_post_bind_ok; [done|]. intros rows. apply IH.
Qed.

Lemma no_post_candidates now budget served : no_post (webhook_candidates now budget served).
Proof.
  unfold webhook_candidates. apply no_post_bind_ok; [done|]. intros endpoints.
  apply no_post_bind_ok.
  - case_match; [|case_match; [done|]].
    + unfold time_ordered_candidates. apply no_post_bind_ok; [done|]. intros. destruct (0 <? _); [|done]. by apply no_post_bind_ok.
    + unfold per_endpoint_candidates. apply no_post_bind_ok; [apply no_post_due|].
      intros. destruct (0 <? _); [|done]. by apply no_post_bind_ok.
  - intros cands. unfold filter_by_endpoint_health. case_match; [done|]. by apply no_post_bind_ok.
Qed.

Lemma no_post_lease claimed worker now (l : list (row TAttempt)) :
  no_post (lease_candidates_from (t := TAttempt) claimed worker now l).
Proof.
  revert claimed. induction l as [|x l IH]; intros claimed; [done|]. cbn [lease_candidates_from].
  apply no_post_bind.
  - cbn [take_lease attempt_claimable]. unfold attempt_take_lease. by case_match.
  - intros r. repeat case_match; by try apply IH.
Qed.

Lemma no_post_claim worker budget served : no_post (claim_webhook_attempts worker budget served).
Proof.
  unfold claim_webhook_attempts. split; [done|]. intros now.
  apply no_post_bind_ok; [apply no_post_candidates|]. intros cands. apply no_post_lease.
Qed.

(** One whole poll: the claim, then one delivery per claimed attempt. *)
Definition poll (ctx : HooksContext) (worker : text) (tr : trace) : Prop :=
  exists claimed ls claim now,
    tr = concat ls ++ claim /\ Forall2 (delivery ctx) (reverse claimed) ls /\ posts claim = [] /\
    Forall (attempt_claimed claim worker (served_modes ctx) now) claimed /\
    Z.of_nat (length claimed) <= BUDGET.

Lemma wp_hooks_tick ctx worker :
  wp (tick ctx worker) [] (fun r tr' => r = Ok tt -> poll ctx worker tr').
Proof.
  unfold tick. apply wp_ok_bind.
  eapply wp_mono; [|apply wp_no_post; [apply no_post_claim | apply wp_claim_webhook_attempts]].
  intros r claim [Hr Hp]. destruct r as [claimed|e]; [|done].
  destruct (Hr claimed eq_refl) as (Hlen & now & _ & Hc). apply wp_bind.
  eapply wp_mono; [|apply wp_deliver_claimed].
  - intros _ tr' (ls & -> & Hls). cbn [wp]. intros _. exists claimed, ls, claim, now.
    split_and!; [done | done | done | done|]. unfold BUDGET in *. lia.
  - eapply Forall_impl; [exact Hc|]. intros a (Hk & _ & x & _ & _ & Hl).
    split; [by apply won_known|]. by destruct Hl as (_ & _ & ? & _).
Qed.

(** A poll of the hooks worker, interleaved with any other writers, never
    panics and never proposes an illegal transition; a finished one makes at
    most twenty requests, one at most per attempt it claimed. *)
Theorem hooks_tick_safe ctx worker w p' tr' w' :
  world_ok w -> rtc step (tick ctx worker, [], w) (p', tr', w') ->
  p' <> Panic /\ Forall (fun e => ~ illegal_reply e) tr' /\
  (p' = Ret (Ok tt) -> (length (posts tr') <= 20)%nat).
Proof.
  intros Hok Hr. pose proof (wp_hooks_tick ctx worker) as Hwp.
  destruct (wp_run_safe _ _ _ _ _ _ Hwp Hok Hr) as [Hp Hl]. split_and!; [done | done|].
  intros ->. destruct (wp_run _ _ _ _ _ _ _ Hwp Hok (valid_nil w) (Forall_nil_2 _) Hr eq_refl)
    as (claimed & ls & claim & now & -> & Hls & Hc & _ & Hb).
  apply concat_posts in Hls. rewrite length_reverse in Hls.
  rewrite posts_app, Hc, app_nil_r. unfold BUDGET in Hb. lia.
Qed.

(** C7. One delivery, every branch. An endpoint that cannot be read, or that
    was switched to a mode this worker does not serve, leaves the attempt
    untouched and sends nothing.  Otherwise one request is made, to the
    endpoint's URL and before any write, unless none can be built (no sealing
    key, audience, route or secret, or sealing failed): its envelope names the
    attempt, the event, the moment and the payload; in sealed mode what is
    posted are the bytes and headers that sealing that envelope for the
    endpoint's audience and route answered, and no redirect is followed; in
    hmac mode the envelope under a signature that holders of the current or
    previous secret accept.  Then the attempt is written once: [succeeded] on a
    2xx; [dead] on a 410, which also switches the endpoint off; [dead] on a
    payload that does not parse, with no request and without touching the
    endpoint; on any other failure [dead] exactly when the attempts counted
    reach the endpoint's maximum, else [failed] behind the backoff; and the
    endpoint's breaker takes the matching step. *)
Theorem deliver_one_policy ctx a tr w r tr' w' :
  world_ok w -> valid tr w -> Forall (fun e => ~ illegal_reply e) tr ->
  known tr TAttempt a -> a.(WebhookAttempt.state) = AttemptState.delivering ->
  rtc step (deliver_one ctx a, tr, w) (Ret r, tr', w') ->
  exists l, tr' = l ++ tr /\ delivery ctx a l.
Proof.
  intros Hok Hv Hl Hk Hs Hr.
  exact (wp_run _ _ _ _ _ _ _ (wp_deliver_one ctx a tr Hk Hs) Hok Hv Hl Hr).
Qed.

(** What the worker signs, a receiver accepts: the headers of an hmac
    request carry the timestamp, the event id and a signature that [verify]
    accepts over the very bytes sent, for a receiver holding the endpoint's
    current secret, or the previous one during a rotation, provided the
    secret it holds is not empty. *)
Theorem hmac_request_verifies follow e a body now q secret :
  hmac_request follow e a body now = Ok q ->
  e.(WebhookEndpoint.secret) = Some secret \/ e.(WebhookEndpoint.prevSecret) = Some secret ->
  secret <> [] ->
  exists timestamp event_id signature,
    (HEADER_TIMESTAMP, show_Z timestamp) ∈ rq_headers q /\
    (HEADER_EVENT_ID, event_id) ∈ rq_headers q /\
    (HEADER_SIGNATURE, signature) ∈ rq_headers q /\
    verify [secret] timestamp event_id (rq_body q) signature = true.
Proof.
  unfold hmac_request. intros Hq Hs Hne.
  destruct (WebhookEndpoint.secret e) as [cur|] eqn:Hcur; [|done]. injection Hq as <-.
  cbn [rq_headers rq_body].
  eexists _, _, _. split; [right; right; left|]. split; [right; left|].
  split; [right; right; right; left|]. apply signed_accepted; [done|].
  destruct Hs as [[= ->]| ->]; [by left | right; by left].
Qed.

End HooksClaims.

(** ** Examples *)
Module HooksExamples.

Import WebhookExamples.

#[local] Existing Instance demo_errors.
#[local] Existing Instance demo_mac.
#[local] Existing Instance demo_url.

Definition quoted (s : text) : text := [34] ++ s ++ [34].

Definition demo_delivery : DeliveryLib := {|
  json := text;
  json_from_str s := if bool_decide (s = []) then Err (lit "EOF while parsing a value") else Ok s;
  json_string := quoted;
  json_object l := lit "{" ++ join (lit ",") ((fun kv => quoted kv.1 ++ lit ":" ++ kv.2) <$> l) ++ lit "}";
  json_to_string v := v;
  to_rfc3339_secs now := show_Z (now / seconds 1);
  display_status := show_Z |}.

#[local] Existing Instance demo_delivery.

Definition ex_ctx : HooksContext := mkHooksContext true Permitted.

(** One endpoint with nineteen failures behind it, two attempts due. *)
Definition ex_failing_endpoint : WebhookEndpoint.t :=
  WebhookEndpoint.set_consecutiveFailures 19 (ex_endpoint (lit "e1") WebhookDeliveryMode.hmac).

Definition ex_two : world :=
  insert_row (insert_row (insert_row empty_world
    TEndpoint ex_failing_endpoint)
    TAttempt (ex_attempt (lit "a1") (lit "e1") AttemptState.pending 0))
    TAttempt (ex_attempt (lit "a2") (lit "e1") AttemptState.pending 0).

Lemma ex_two_ok : world_ok ex_two.
Proof. unfold ex_two. auto 10 with vsms. Qed.

Abbreviation unavailable := (failing Unsupported).
Abbreviation ex_poll := (ref_run unavailable (tick ex_ctx (lit "w1")) [] ex_two).

Lemma hooks_tick_safe_witness :
  ex_poll.1.1 = Ret (Ok tt) /\ (length (posts (run_trace ex_poll)) <= 20)%nat.
Proof.
  assert (ex_poll.1.1 = Ret (Ok tt)) as Hret by (vm_compute; reflexivity).
  split; [exact Hret|].
  destruct (@hooks_tick_safe demo_errors (ref_backend unavailable) demo_mac demo_url demo_delivery
    ex_ctx (lit "w1") ex_two ex_poll.1.1 (run_trace ex_poll) ex_poll.2 ex_two_ok
    (ref_run_config unavailable _ [] ex_two)) as (_ & _ & Hposts).
  exact (Hposts Hret).
Defined.

(** A circuit that opens during a poll does not stop the poll: after the
    twentieth failure opened the endpoint's circuit, the same poll sends the
    next claimed attempt to that endpoint and records its failure against
    the breaker that is already open. *)
Theorem open_circuit_still_attempted :
  let tr := run_trace (ref_run unavailable (tick ex_ctx (lit "w1")) [] ex_two) in
  length (posts tr) = 2%nat /\
  endpoint_writes tr =
    [(lit "e1", [WebhookEndpoint.SetConsecutiveFailures 1], 4);
     (lit "e1", [WebhookEndpoint.SetConsecutiveFailures 0;
                 WebhookEndpoint.SetCircuitOpenUntil (Some (ex_now + minutes 15))], 3)].
Proof. vm_compute. split; reflexivity. Qed.

(** The claimed attempt, as read. *)
Definition ex_a : WebhookAttempt.t :=
  ex_attempt (lit "a3") (lit "e1") AttemptState.delivering 1.

Definition ex_one : world :=
  insert_row (insert_row empty_world TEndpoint ex_failing_endpoint) TAttempt ex_a.

Definition ex_seen : trace := [read_event ex_one TAttempt (mkQuery (fun _ => true) [] None)].

Lemma ex_one_ok : world_ok ex_one.
Proof. unfold ex_one. auto 10 with vsms. Qed.

Abbreviation ex_delivery o := (ref_run o (deliver_one ex_ctx ex_a) ex_seen ex_one).

Lemma deliver_one_policy_witness :
  exists l, run_trace (ex_delivery accepting) = l ++ ex_seen /\ delivery ex_ctx ex_a l.
Proof.
  apply (@deliver_one_policy demo_errors (ref_backend accepting) demo_mac demo_url demo_delivery
    ex_ctx ex_a ex_seen ex_one tt _ (ex_delivery accepting).2 ex_one_ok).
  - apply (valid_read_event accepting); [apply ex_one_ok | apply valid_nil].
  - repeat constructor; by intros [].
  - apply known_read_event.
    match goal with |- _ ∈ ?l => let l' := eval vm_compute in l in change l with l' end. by left.
  - reflexivity.
  - apply ref_run_done. vm_compute. reflexivity.
Defined.

Lemma hmac_request_verifies_witness :
  exists timestamp event_id signature q,
    hmac_request true ex_failing_endpoint ex_a (lit "{}") ex_now = Ok q /\
    verify [lit "0123456789abcdef0123456789abcdef"] timestamp event_id (rq_body q) signature = true.
Proof.
  destruct (hmac_request true ex_failing_endpoint ex_a (lit "{}") ex_now) as [q|o] eqn:Hq.
  - destruct (hmac_request_verifies true ex_failing_endpoint ex_a (lit "{}") ex_now q
      (lit "0123456789abcdef0123456789abcdef") Hq) as (ts & ev & sig & _ & _ & _ & Hv).
    + left. reflexivity.
    + done.
    + exists ts, ev, sig, q. split; [reflexivity | exact Hv].
  - exfalso. vm_compute in Hq. discriminate.
Defined.

End HooksExamples.
