(* ===== verification/AuditChain.v ===== *)
(** * sms-api/src/audit_log.rs and sms-worker/src/jobs/anchor_audit.rs

    The audit log's anchors: each commits to the audit rows of its period and
    to the anchor before it.  What the chain is for: whoever holds the newest
    chain hash and finds the chain and the periods verified has exactly the
    rows that were anchored, or a broken hash function. *)

From Stdlib Require Import SpecFloat.
From S2P Require Import Prelude Float64 ProviderApi Schema ApiSchema Errors Sql Db DbLogic DbReads DbRef.
From S2P Require Import Webhook WorkerRouting DemoData Jobs.

(** ** What is hashed *)

(** [u64::to_be_bytes] and [i64::to_be_bytes] at [n] bytes. *)
Fixpoint be_bytes (n : nat) (v : Z) : list Z :=
  match n with
  | O => []
  | S n' => be_bytes n' (v / 256) ++ [v mod 256]
  end.

Definition ROW_FOLD_GENESIS : list Z := repeat 0 32.

Definition genesis_hex : text := repeat 48 64.

Definition write_len_prefixed (bytes : list Z) : list Z :=
  be_bytes 8 (Z.of_nat (length bytes)) ++ bytes.

Definition write_optional_str (value : option text) : list Z :=
  match value with
  | Some s => [1] ++ write_len_prefixed (as_bytes s)
  | None => [0]
  end.

(** The keys of an object are distinct, so taking the keys in order and
    looking each up is taking the entries in the order of their keys. *)
Fixpoint insert_entry (kv : text * Json) (l : list (text * Json)) : list (text * Json) :=
  match l with
  | [] => [kv]
  | x :: r => if text_leb kv.1 x.1 then kv :: l else x :: insert_entry kv r
  end.

Definition sort_entries (l : list (text * Json)) : list (text * Json) := foldr insert_entry [] l.

Fixpoint sorted (value : Json) : Json :=
  match value with
  | JObject entries => JObject (sort_entries (map (fun kv => (kv.1, sorted kv.2)) entries))
  | JArray items => JArray (map sorted items)
  | other => other
  end.

(** A value serde_json can hold: integers of 64 bits, finite floats, strings of
    scalar values. *)
Definition is_scalar (c : Z) : bool :=
  (0 <=? c) && (c <? 1114112) && negb ((55296 <=? c) && (c <=? 57343)).

Definition is_finite (x : f64) : bool :=
  match x with S754_zero _ | S754_finite _ _ _ => true | _ => false end.

Definition is_text (s : text) : bool := forallb is_scalar s.

Fixpoint json_wf (value : Json) : bool :=
  match value with
  | JNull | JBool _ => true
  | JInt n => (- 2 ^ 63 <=? n) && (n <? 2 ^ 64)
  | JFloat x => is_finite x && valid_binary 53 1024 x
  | JString s => is_text s
  | JArray items => forallb json_wf items
  | JObject entries => forallb (fun kv => is_text kv.1 && json_wf kv.2) entries
  end.

(** [serde_json::to_string] of a value: a [String], from which the value can
    be read back. *)
Class JsonLib := {
  value_to_string : Json -> text;
  value_to_string_text v : json_wf v = true -> is_text (value_to_string v) = true;
  value_to_string_inj v v' : json_wf v = true -> json_wf v' = true ->
    value_to_string v = value_to_string v' -> v = v' }.

Section Hashes.

Context `{M : MacLib} `{J : JsonLib}.

Definition canonical_json (value : Json) : text := value_to_string (sorted value).

Definition audit_row_bytes (row : AuditRow) : list Z :=
  write_len_prefixed (ar_event_id row) ++
  write_len_prefixed (as_bytes (ar_schema_name row)) ++
  write_len_prefixed (as_bytes (ar_model row)) ++
  write_len_prefixed (as_bytes (ar_operation row)) ++
  write_len_prefixed (as_bytes (canonical_json (ar_primary_key row))) ++
  write_len_prefixed (as_bytes (canonical_json (ar_actor row))) ++
  write_optional_str (ar_tenant row) ++
  write_optional_str (canonical_json <$> ar_before row) ++
  write_optional_str (canonical_json <$> ar_after row) ++
  write_optional_str (ar_request_id row) ++
  be_bytes 8 (ar_occurred_at row).

Definition hash_audit_row (row : AuditRow) : list Z := sha256 (audit_row_bytes row).

Definition fold_row (acc : list Z) (row : AuditRow) : list Z := sha256 (acc ++ hash_audit_row row).

Definition fold_rows (rows : list AuditRow) : list Z := foldl fold_row ROW_FOLD_GENESIS rows.

Definition chain_bytes (prev : text) (period_start : option Z) (period_end row_count : Z)
  (range_hash : text) : list Z :=
  as_bytes prev ++
  match period_start with
  | Some start => [1] ++ be_bytes 8 start
  | None => [0]
  end ++
  be_bytes 8 period_end ++ be_bytes 8 row_count ++ as_bytes range_hash.

Definition compute_chain_hash_hex (prev : text) (period_start : option Z)
  (period_end row_count : Z) (range_hash : text) : text :=
  hex_encode (sha256 (chain_bytes prev period_start period_end row_count range_hash)).

(** The loop of [verify_chain_linkage], from the previous link. *)
Definition anchor_chain_hash (a : AuditAnchor.t) : text :=
  compute_chain_hash_hex a.(AuditAnchor.prevChainHash) a.(AuditAnchor.periodStart)
    a.(AuditAnchor.periodEnd) a.(AuditAnchor.rowCount) a.(AuditAnchor.rangeHash).

Fixpoint linkage_breaks (previous : option text) (anchors : list AuditAnchor.t) : list text :=
  match anchors with
  | [] => []
  | anchor :: rest =>
      let expected_prev := default genesis_hex previous in
      let recomputed := anchor_chain_hash anchor in
      (if bool_decide (anchor.(AuditAnchor.prevChainHash) = expected_prev) then [] else
         [lit "anchor " ++ anchor.(AuditAnchor.id) ++ lit " prevChainHash ("
            ++ anchor.(AuditAnchor.prevChainHash)
            ++ lit ") does not equal the expected previous link (" ++ expected_prev ++ lit ")"]) ++
      (if bool_decide (recomputed = anchor.(AuditAnchor.chainHash)) then [] else
         [lit "anchor " ++ anchor.(AuditAnchor.id) ++ lit " chainHash ("
            ++ anchor.(AuditAnchor.chainHash)
            ++ lit ") does not match its own stored fields (recomputed " ++ recomputed ++ lit ")"]) ++
      linkage_breaks (Some anchor.(AuditAnchor.chainHash)) rest
  end.

End Hashes.

(** ** Reading the hashed bytes back *)
Lemma be_bytes_length n v : length (be_bytes n v) = n.
Proof. revert v. induction n as [|n IH]; intros v; [done|]. cbn. rewrite length_app, IH. cbn. lia. Qed.

Lemma be_bytes_inj n a b : be_bytes n a = be_bytes n b -> a mod 256 ^ Z.of_nat n = b mod 256 ^ Z.of_nat n.
Proof.
  revert a b. induction n as [|n IH]; intros a b H.
  - change (256 ^ Z.of_nat 0) with 1. by rewrite !Z.mod_1_r.
  - cbn [be_bytes] in H. apply app_inj_tail in H as [Hq Hr]. apply IH in Hq.
    rewrite Nat2Z.inj_succ, Z.pow_succ_r by lia.
    rewrite !Z.rem_mul_r by (try apply Z.pow_pos_nonneg; lia). by rewrite Hr, Hq.
Qed.

(** A value of 64 bits, signed or not. *)
Definition fits64 (v : Z) : Prop := - 2 ^ 63 <= v < 2 ^ 63.

Lemma be_bytes_app a b x y :
  be_bytes 8 a ++ x = be_bytes 8 b ++ y -> be_bytes 8 a = be_bytes 8 b /\ x = y.
Proof. intros H. apply app_inj_1 in H; [done|]. by rewrite !be_bytes_length. Qed.

Lemma be_bytes_signed a b : fits64 a -> fits64 b -> be_bytes 8 a = be_bytes 8 b -> a = b.
Proof.
  unfold fits64. intros Ha Hb H%be_bytes_inj. change (256 ^ Z.of_nat 8) with (2 ^ 64) in H.
  assert (forall v, - 2 ^ 63 <= v < 2 ^ 63 -> v mod 2 ^ 64 = if v <? 0 then v + 2 ^ 64 else v) as Hm.
  { intros v Hv. destruct (Z.ltb_spec v 0); [|apply Z.mod_small; lia].
    symmetry. apply (Z.mod_unique v (2 ^ 64) (-1)); lia. }
  rewrite !Hm in H by done. destruct (Z.ltb_spec a 0), (Z.ltb_spec b 0); lia.
Qed.

Definition short (bytes : list Z) : Prop := Z.of_nat (length bytes) < 2 ^ 63.

Lemma len_prefixed_app a b x y : short a -> short b ->
  write_len_prefixed a ++ x = write_len_prefixed b ++ y -> a = b /\ x = y.
Proof.
  unfold write_len_prefixed, short. intros Ha Hb H. rewrite <- !app_assoc in H.
  apply be_bytes_app in H as [Hl H]. apply be_bytes_signed in Hl; [|unfold fits64; lia..].
  apply app_inj_1 in H; [done | lia].
Qed.

Lemma decode_encode_char c r : is_scalar c = true -> utf8_decode (encode_char c ++ r) = c :: utf8_decode r.
Proof.
  unfold is_scalar. rewrite !andb_true_iff, Z.leb_le, Z.ltb_lt. intros [[H0 Hlt] _].
  unfold encode_char.
  assert (forall x, (128 + x mod 64 <? 128) = false) as Ht
    by (intros x; apply Z.ltb_ge; pose proof (Z.mod_pos_bound x 64); lia).
  assert (c = 64 * (c / 64) + c mod 64) as H1 by (apply Z.div_mod; lia).
  assert (c / 64 = 64 * (c / 4096) + (c / 64) mod 64) as H2
    by (change 4096 with (64 * 64); rewrite <- (Z.div_div c 64 64) by lia; apply Z.div_mod; lia).
  assert (c / 4096 = 64 * (c / 262144) + (c / 4096) mod 64) as H3
    by (change 262144 with (4096 * 64); rewrite <- (Z.div_div c 4096 64) by lia; apply Z.div_mod; lia).
  assert (0 <= c / 64 /\ 0 <= c / 4096 /\ 0 <= c / 262144) as (? & ? & ?)
    by (repeat split; apply Z.div_pos; lia).
  destruct (Z.ltb_spec c 128) as [Hc|Hc]; [cbn [app utf8_decode]; by rewrite (proj2 (Z.ltb_lt _ _) Hc)|].
  destruct (Z.ltb_spec c 2048) as [Hc2|Hc2].
  - assert (c / 64 < 32) by (apply Z.div_lt_upper_bound; lia). cbn [app utf8_decode].
    rewrite (proj2 (Z.ltb_ge _ 128)), (proj2 (Z.ltb_lt _ 224)) by lia. f_equal. lia.
  - destruct (Z.ltb_spec c 65536) as [Hc3|Hc3].
    + assert (c / 4096 < 16) by (apply Z.div_lt_upper_bound; lia). cbn [app utf8_decode].
      rewrite (proj2 (Z.ltb_ge _ 128)), (proj2 (Z.ltb_ge _ 224)), (proj2 (Z.ltb_lt _ 240)) by lia.
      f_equal. lia.
    + cbn [app utf8_decode].
      rewrite (proj2 (Z.ltb_ge _ 128)), (proj2 (Z.ltb_ge _ 224)), (proj2 (Z.ltb_ge _ 240)) by lia.
      f_equal. lia.
Qed.

Lemma utf8_round_trip s : is_text s = true -> utf8_decode (as_bytes s) = s.
Proof.
  induction s as [|c s IH]; [done|]. cbn [is_text forallb]. intros [Hc Hs]%andb_true_iff.
  change (as_bytes (c :: s)) with (encode_char c ++ as_bytes s).
  by rewrite decode_encode_char, IH.
Qed.

Lemma as_bytes_inj s s' : is_text s = true -> is_text s' = true -> as_bytes s = as_bytes s' -> s = s'.
Proof. intros Hs Hs' H. by rewrite <- (utf8_round_trip s Hs), <- (utf8_round_trip s' Hs'), H. Qed.

(** ** Canonical JSON *)
Lemma elem_of_insert_entry x kv l : x ∈ insert_entry kv l <-> x = kv \/ x ∈ l.
Proof.
  induction l as [|y l IH]; cbn [insert_entry]; [by rewrite elem_of_cons|].
  destruct (text_leb kv.1 y.1); rewrite !elem_of_cons, ?IH, ?elem_of_cons; tauto.
Qed.

Lemma elem_of_sort_entries x l : x ∈ sort_entries l <-> x ∈ l.
Proof.
  induction l as [|y l IH]; [done|]. change (sort_entries (y :: l)) with (insert_entry y (sort_entries l)).
  by rewrite elem_of_insert_entry, IH, elem_of_cons.
Qed.

Fixpoint sorted_wf (v : Json) : json_wf v = true -> json_wf (sorted v) = true.
Proof.
  destruct v as [|b|n|x|s|items|entries]; cbn [json_wf sorted]; try done.
  - induction items as [|v items IH]; cbn [map forallb]; [done|].
    intros [Hv Hi]%andb_true_iff. by rewrite (sorted_wf v Hv), IH.
  - intros H. apply forallb_forall. intros kv Hkv.
    apply list_elem_of_In in Hkv. rewrite elem_of_sort_entries in Hkv. revert Hkv.
    induction entries as [|[k v] entries IH]; cbn [map]; [by intros ?%not_elem_of_nil|].
    cbn [forallb fst snd] in H. apply andb_true_iff in H as [[Hk Hv]%andb_true_iff Hr].
    intros [->|Hin]%elem_of_cons; [|by apply IH]. cbn [fst snd]. by rewrite Hk, (sorted_wf v Hv).
Qed.

Section Binding.

Context `{M : MacLib} `{J : JsonLib}.

Definition fits_text (s : text) : Prop := is_text s = true /\ short (as_bytes s).

Definition fits_json (v : Json) : Prop := json_wf v = true /\ short (as_bytes (canonical_json v)).

(** A row within the widths the code works with. *)
Record row_fits (r : AuditRow) : Prop := {
  fit_id : short (ar_event_id r);
  fit_schema : fits_text (ar_schema_name r);
  fit_model : fits_text (ar_model r);
  fit_operation : fits_text (ar_operation r);
  fit_key : fits_json (ar_primary_key r);
  fit_actor : fits_json (ar_actor r);
  fit_tenant : forall s, ar_tenant r = Some s -> fits_text s;
  fit_before : forall v, ar_before r = Some v -> fits_json v;
  fit_after : forall v, ar_after r = Some v -> fits_json v;
  fit_request : forall s, ar_request_id r = Some s -> fits_text s;
  fit_at : fits64 (ar_occurred_at r) }.

(** A row up to the order of the keys in its JSON. *)
Definition canonical_row (r : AuditRow) : AuditRow :=
  mkAuditRow (ar_event_id r) (ar_schema_name r) (ar_model r) (ar_operation r)
    (sorted (ar_primary_key r)) (sorted (ar_actor r)) (ar_tenant r) (sorted <$> ar_before r)
    (sorted <$> ar_after r) (ar_request_id r) (ar_occurred_at r).

Lemma text_app s s' x y : fits_text s -> fits_text s' ->
  write_len_prefixed (as_bytes s) ++ x = write_len_prefixed (as_bytes s') ++ y -> s = s' /\ x = y.
Proof.
  intros [? ?] [? ?] He. apply len_prefixed_app in He as [He ->]; [|done..].
  split; [by apply as_bytes_inj | done].
Qed.

Lemma fits_canonical v : fits_json v -> fits_text (canonical_json v).
Proof. intros [Hw Hs]. split; [by apply value_to_string_text, sorted_wf | done]. Qed.

Lemma canonical_inj v v' : fits_json v -> fits_json v' -> canonical_json v = canonical_json v' -> sorted v = sorted v'.
Proof. intros [Hw _] [Hw' _] H. by apply value_to_string_inj in H; [|apply sorted_wf..]. Qed.

Lemma optional_app o o' x y :
  (forall s, o = Some s -> fits_text s) -> (forall s, o' = Some s -> fits_text s) ->
  write_optional_str o ++ x = write_optional_str o' ++ y -> o = o' /\ x = y.
Proof.
  intros Ho Ho'. destruct o as [s|], o' as [s'|]; cbn [write_optional_str]; try (by intros [=]).
  rewrite <- !app_assoc. intros H%app_inv_head. apply text_app in H as [-> ->]; auto.
Qed.

Lemma optional_json_app o o' x y :
  (forall v, o = Some v -> fits_json v) -> (forall v, o' = Some v -> fits_json v) ->
  write_optional_str (canonical_json <$> o) ++ x = write_optional_str (canonical_json <$> o') ++ y ->
  sorted <$> o = sorted <$> o' /\ x = y.
Proof.
  intros Ho Ho' H. apply optional_app in H as [H ->].
  - split; [|done]. destruct o as [v|], o' as [v'|]; try done. cbn in *. injection H as H.
    f_equal. apply canonical_inj; auto.
  - intros s (v & -> & ->)%fmap_Some. by apply fits_canonical, Ho.
  - intros s (v & -> & ->)%fmap_Some. by apply fits_canonical, Ho'.
Qed.

(** The bytes that are hashed pin the row down. *)
Lemma audit_row_bytes_inj r r' : row_fits r -> row_fits r' ->
  audit_row_bytes r = audit_row_bytes r' -> canonical_row r = canonical_row r'.
Proof.
  intros [] []. unfold audit_row_bytes, canonical_row. intros H.
  apply len_prefixed_app in H as [-> H]; [|done..].
  do 3 (apply text_app in H as [-> H]; [|done..]).
  do 2 (apply text_app in H as [?%canonical_inj H]; [|try done; by apply fits_canonical..]).
  apply optional_app in H as [-> H]; [|done..].
  apply optional_json_app in H as [Hb H]; [|done..].
  apply optional_json_app in H as [Ha H]; [|done..].
  apply optional_app in H as [-> H]; [|done..].
  apply be_bytes_signed in H; [|done..]. by rewrite Hb, Ha, H; f_equal.
Qed.

(** A hash that failed on the given inputs: two of them collide, or one of
    them hashes to the genesis value. *)
Definition hash_break (inputs : list (list Z)) : Prop :=
  (exists x y, x ∈ inputs /\ y ∈ inputs /\ x <> y /\ sha256 x = sha256 y) \/
  (exists x, x ∈ inputs /\ sha256 x = ROW_FOLD_GENESIS).

Lemma hash_binds inputs x y : x ∈ inputs -> y ∈ inputs -> sha256 x = sha256 y ->
  x = y \/ hash_break inputs.
Proof. intros Hx Hy H. destruct (decide (x = y)) as [|Hne]; [by left|]. right. left. by exists x, y. Qed.

(** Everything a fold hashes. *)
Fixpoint fold_inputs (acc : list Z) (rows : list AuditRow) : list (list Z) :=
  match rows with
  | [] => []
  | r :: rest => audit_row_bytes r :: (acc ++ hash_audit_row r) :: fold_inputs (fold_row acc r) rest
  end.

Lemma fold_inputs_snoc acc rows r :
  fold_inputs acc (rows ++ [r]) =
  fold_inputs acc rows ++ [audit_row_bytes r; foldl fold_row acc rows ++ hash_audit_row r].
Proof. revert acc. induction rows as [|x rows IH]; intros acc; [done|]. cbn. by rewrite IH. Qed.

Lemma fold_rows_snoc rows r : fold_rows (rows ++ [r]) = sha256 (fold_rows rows ++ hash_audit_row r).
Proof. unfold fold_rows. by rewrite foldl_app. Qed.

Lemma fold_rows_length rows : length (fold_rows rows) = 32%nat.
Proof.
  destruct rows as [|r rows] using rev_ind; [done|]. rewrite fold_rows_snoc. apply sha256_length.
Qed.

Lemma fold_rows_bytes rows : Forall (fun x => 0 <= x < 256) (fold_rows rows).
Proof.
  destruct rows as [|r rows] using rev_ind; [|rewrite fold_rows_snoc; apply sha256_bytes].
  apply Forall_forall. intros x Hx. apply list_elem_of_In, repeat_spec in Hx. lia.
Qed.

(** A fold pins the rows down, in number and order. *)
Lemma fold_rows_binds inputs rows rows' :
  Forall row_fits rows -> Forall row_fits rows' ->
  fold_inputs ROW_FOLD_GENESIS rows ⊆ inputs -> fold_inputs ROW_FOLD_GENESIS rows' ⊆ inputs ->
  fold_rows rows = fold_rows rows' ->
  canonical_row <$> rows = canonical_row <$> rows' \/ hash_break inputs.
Proof.
  revert rows'. induction rows as [|r rows IH] using rev_ind; intros rows' Hf Hf' Hi Hi' He.
  - destruct rows' as [|r' rows'] using rev_ind; [by left|]. right. right.
    rewrite fold_rows_snoc in He. eexists. split; [|symmetry; exact He].
    apply Hi'. rewrite fold_inputs_snoc. set_solver.
  - rewrite fold_rows_snoc in He. rewrite fold_inputs_snoc in Hi.
    destruct rows' as [|r' rows' _] using rev_ind.
    { right. right. eexists. split; [|exact He]. apply Hi. set_solver. }
    rewrite fold_rows_snoc in He. rewrite fold_inputs_snoc in Hi'.
    fold (fold_rows rows) in Hi. fold (fold_rows rows') in Hi'.
    apply Forall_app in Hf as [Hf [Hr _]%Forall_cons], Hf' as [Hf' [Hr' _]%Forall_cons].
    apply (hash_binds inputs) in He as [He|]; [|by right|set_solver..].
    apply app_inj_1 in He as [Hacc Hrow]; [|by rewrite !fold_rows_length].
    apply (hash_binds inputs) in Hrow as [Hrow|]; [|by right|set_solver..].
    apply audit_row_bytes_inj in Hrow; [|done..].
    destruct (IH rows') as [Hrest|]; [done | done | set_solver | set_solver | done | | by right].
    left. by rewrite !fmap_app, Hrest, !fmap_cons, Hrow.
Qed.

(** *** Chains *)
Lemma as_bytes_ascii s : Forall (fun c => 0 <= c < 128) s -> as_bytes s = s.
Proof.
  induction 1 as [|c s Hc _ IH]; [done|]. change (as_bytes (c :: s)) with (encode_char c ++ as_bytes s).
  unfold encode_char. by rewrite (proj2 (Z.ltb_lt c 128)), IH by lia.
Qed.

(** The hex form of 32 bytes. *)
Definition is_digest (h : list Z) : Prop := length h = 32%nat /\ Forall (fun x => 0 <= x < 256) h.

Lemma sha256_digest x : is_digest (sha256 x).
Proof. split; [apply sha256_length | apply sha256_bytes]. Qed.

Lemma fold_rows_digest rows : is_digest (fold_rows rows).
Proof. split; [apply fold_rows_length | apply fold_rows_bytes]. Qed.

Lemma genesis_digest : is_digest ROW_FOLD_GENESIS.
Proof. exact (fold_rows_digest []). Qed.

Lemma genesis_hex_encode : genesis_hex = hex_encode ROW_FOLD_GENESIS.
Proof. reflexivity. Qed.

Lemma hex_encode_inj h h' : is_digest h -> is_digest h' -> hex_encode h = hex_encode h' -> h = h'.
Proof.
  intros [_ Hh] [_ Hh'] H. apply (f_equal hex_decode) in H. rewrite !hex_decode_encode in H by done.
  by injection H.
Qed.

Lemma hex_encode_ascii h : is_digest h -> as_bytes (hex_encode h) = hex_encode h.
Proof.
  intros [_ Hh]. apply as_bytes_ascii. induction Hh as [|b h Hb _ IH]; [constructor|].
  change (hex_encode (b :: h)) with (hex_char (b / 16) :: hex_char (b mod 16) :: hex_encode h).
  assert (0 <= b / 16 < 16) by (split; [apply Z.div_pos | apply Z.div_lt_upper_bound]; lia).
  pose proof (Z.mod_pos_bound b 16). unfold hex_char.
  constructor; [destruct (Z.ltb_spec (b / 16) 10); lia|].
  constructor; [destruct (Z.ltb_spec (b mod 16) 10); lia | done].
Qed.

Record anchor_fits (a : AuditAnchor.t) : Prop := {
  fit_start : forall s, a.(AuditAnchor.periodStart) = Some s -> fits64 s;
  fit_end : fits64 a.(AuditAnchor.periodEnd);
  fit_count : fits64 a.(AuditAnchor.rowCount);
  fit_range : is_text a.(AuditAnchor.rangeHash) = true }.

(** What an anchor says, without its id and the time it was stored. *)
Definition link_of (a : AuditAnchor.t) : option Z * Z * Z * text * text * text :=
  (a.(AuditAnchor.periodStart), a.(AuditAnchor.periodEnd), a.(AuditAnchor.rowCount),
   a.(AuditAnchor.rangeHash), a.(AuditAnchor.prevChainHash), a.(AuditAnchor.chainHash)).

Definition anchor_bytes (a : AuditAnchor.t) : list Z :=
  chain_bytes a.(AuditAnchor.prevChainHash) a.(AuditAnchor.periodStart)
    a.(AuditAnchor.periodEnd) a.(AuditAnchor.rowCount) a.(AuditAnchor.rangeHash).

Lemma chain_bytes_inj h h' s s' e e' n n' r r' :
  is_digest h -> is_digest h' ->
  (forall x, s = Some x -> fits64 x) -> (forall x, s' = Some x -> fits64 x) ->
  fits64 e -> fits64 e' -> fits64 n -> fits64 n' -> is_text r = true -> is_text r' = true ->
  chain_bytes (hex_encode h) s e n r = chain_bytes (hex_encode h') s' e' n' r' ->
  h = h' /\ s = s' /\ e = e' /\ n = n' /\ r = r'.
Proof.
  intros Hh Hh' Hs Hs' He He' Hn Hn' Hr Hr' H. unfold chain_bytes in H.
  rewrite !hex_encode_ascii in H by done.
  apply app_inj_1 in H as [Hp H]; [|rewrite !hex_encode_length; by destruct Hh as [-> _], Hh' as [-> _]].
  apply hex_encode_inj in Hp; [|done..].
  assert (s = s' /\ be_bytes 8 e ++ be_bytes 8 n ++ as_bytes r =
          be_bytes 8 e' ++ be_bytes 8 n' ++ as_bytes r') as [-> H'].
  { destruct s as [x|], s' as [x'|]; try (by injection H); rewrite <- ?app_assoc in H;
      apply app_inv_head in H; [|done].
    apply be_bytes_app in H as [Hx H]. split; [|done]. f_equal. apply be_bytes_signed; auto. }
  apply be_bytes_app in H' as [?%be_bytes_signed H']; [|done..].
  apply be_bytes_app in H' as [?%be_bytes_signed ?%as_bytes_inj]; done.
Qed.

(** The newest hash of a chain. *)
Definition tip (anchors : list AuditAnchor.t) : text :=
  default genesis_hex (AuditAnchor.chainHash <$> last anchors).

Lemma unless_nil {A} (P : Prop) `{Decision P} (x : A) : (if bool_decide P then [] else [x]) = [] <-> P.
Proof. case_bool_decide; naive_solver. Qed.

Lemma linkage_one previous a : linkage_breaks previous [a] = [] <->
  a.(AuditAnchor.prevChainHash) = default genesis_hex previous /\
  hex_encode (sha256 (anchor_bytes a)) = a.(AuditAnchor.chainHash).
Proof.
  unfold linkage_breaks. rewrite app_nil_r, app_nil, !unless_nil. done.
Qed.

Lemma linkage_cons previous x l :
  linkage_breaks previous (x :: l) =
  linkage_breaks previous [x] ++ linkage_breaks (Some x.(AuditAnchor.chainHash)) l.
Proof. unfold linkage_breaks at 1 2. fold linkage_breaks. by rewrite app_nil_r, app_assoc. Qed.

Lemma linkage_app previous l a :
  linkage_breaks previous (l ++ [a]) =
  linkage_breaks previous l ++
  linkage_breaks (from_option (fun x => Some x.(AuditAnchor.chainHash)) previous (last l)) [a].
Proof.
  revert previous. induction l as [|x l IH]; intros previous; [done|].
  change ((x :: l) ++ [a]) with (x :: (l ++ [a])).
  rewrite (linkage_cons _ x (l ++ [a])), (linkage_cons _ x l), IH, app_assoc, last_cons.
  by destruct (last l).
Qed.

(** Extending a chain: the new anchor names the newest hash and its own. *)
Lemma linkage_snoc l a : linkage_breaks None (l ++ [a]) = [] <->
  linkage_breaks None l = [] /\ a.(AuditAnchor.prevChainHash) = tip l /\
  hex_encode (sha256 (anchor_bytes a)) = a.(AuditAnchor.chainHash).
Proof.
  rewrite linkage_app, app_nil, linkage_one. unfold tip.
  by destruct (last l).
Qed.

(** *** A history: anchors, each with the rows of its period *)
Abbreviation history := (list (AuditAnchor.t * list AuditRow)).

(** What the code checks: the chain has no break, and every period's rows fold
    to what its anchor holds. *)
Definition verified (h : history) : Prop :=
  linkage_breaks None h.*1 = [] /\
  Forall (fun x => hex_encode (fold_rows x.2) = x.1.(AuditAnchor.rangeHash)) h.

Definition history_fits (h : history) : Prop :=
  Forall (fun x => anchor_fits x.1 /\ Forall row_fits x.2) h.

(** Everything that is hashed to check it. *)
Definition history_inputs (h : history) : list (list Z) :=
  h ≫= (fun x => anchor_bytes x.1 :: fold_inputs ROW_FOLD_GENESIS x.2).

(** A period as the chain commits to it. *)
Definition said (x : AuditAnchor.t * list AuditRow) :=
  (link_of x.1, canonical_row <$> x.2).

Lemma history_inputs_snoc (h : history) x :
  history_inputs (h ++ [x]) = history_inputs h ++ anchor_bytes x.1 :: fold_inputs ROW_FOLD_GENESIS x.2.
Proof. unfold history_inputs. by rewrite bind_app, bind_cons, app_nil_r. Qed.

Lemma verified_snoc (h : history) x : verified (h ++ [x]) <->
  verified h /\ x.1.(AuditAnchor.prevChainHash) = tip h.*1 /\
  hex_encode (sha256 (anchor_bytes x.1)) = x.1.(AuditAnchor.chainHash) /\
  hex_encode (fold_rows x.2) = x.1.(AuditAnchor.rangeHash).
Proof.
  unfold verified. rewrite fmap_app. cbn [fmap list_fmap]. rewrite linkage_snoc, Forall_app, Forall_singleton.
  tauto.
Qed.

Lemma tip_snoc (h : history) x : tip (h ++ [x]).*1 = x.1.(AuditAnchor.chainHash).
Proof. unfold tip. rewrite fmap_app. cbn [fmap list_fmap]. by rewrite last_snoc. Qed.

(** The newest hash of a verified chain is the hex form of a digest: the
    genesis value, or the hash of what the last anchor says. *)
Lemma tip_digest h : verified h -> exists d, is_digest d /\ tip h.*1 = hex_encode d.
Proof.
  destruct h as [|x h] using rev_ind; intros Hv.
  - exists ROW_FOLD_GENESIS. split; [exact genesis_digest | exact genesis_hex_encode].
  - apply verified_snoc in Hv as (_ & _ & Hc & _). exists (sha256 (anchor_bytes x.1)).
    split; [apply sha256_digest|]. by rewrite tip_snoc, Hc.
Qed.

(** Two last links with one hash say the same, and so do the tips they name. *)
Lemma anchor_binds inputs h h' x x' :
  verified (h ++ [x]) -> verified (h' ++ [x']) -> anchor_fits x.1 -> anchor_fits x'.1 ->
  anchor_bytes x.1 ∈ inputs -> anchor_bytes x'.1 ∈ inputs ->
  x.1.(AuditAnchor.chainHash) = x'.1.(AuditAnchor.chainHash) ->
  (link_of x.1 = link_of x'.1 /\ tip h.*1 = tip h'.*1) \/ hash_break inputs.
Proof.
  intros (Hv & Hp & Hc & _)%verified_snoc (Hv' & Hp' & Hc' & _)%verified_snoc Hf Hf' Hi Hi' He.
  destruct (tip_digest h Hv) as (d & Hd & Ht), (tip_digest h' Hv') as (d' & Hd' & Ht').
  pose proof He as Hch. rewrite <- Hc, <- Hc' in He. apply hex_encode_inj in He; [|apply sha256_digest..].
  apply (hash_binds inputs) in He as [He|]; [|by right|done..]. left.
  unfold anchor_bytes in He. rewrite Hp, Hp', Ht, Ht' in He. destruct Hf, Hf'.
  apply chain_bytes_inj in He as (-> & Hs & Hen & Hn & Hr); [|done..].
  unfold link_of. split; [|by rewrite Ht, Ht'].
  by rewrite Hs, Hen, Hn, Hr, Hp, Hp', Ht, Ht', Hch.
Qed.

Lemma history_binds inputs h h' :
  verified h -> verified h' -> history_fits h -> history_fits h' ->
  history_inputs h ⊆ inputs -> history_inputs h' ⊆ inputs -> tip h.*1 = tip h'.*1 ->
  said <$> h = said <$> h' \/ hash_break inputs.
Proof.
  revert h'. induction h as [|x h IH] using rev_ind; intros h' Hv Hv' Hf Hf' Hi Hi' He.
  - destruct h' as [|x' h' _] using rev_ind; [by left|]. right. right. rewrite tip_snoc in He.
    apply verified_snoc in Hv' as (_ & _ & Hc & _). rewrite <- Hc in He.
    exists (anchor_bytes x'.1). split; [apply Hi'; rewrite history_inputs_snoc; set_solver|].
    symmetry. apply hex_encode_inj; [exact genesis_digest | apply sha256_digest | exact He].
  - rewrite tip_snoc in He. rewrite history_inputs_snoc in Hi.
    apply list_subseteq_app_iff_l in Hi as [Hi Hin].
    assert (anchor_bytes x.1 ∈ inputs) as Ha by (apply Hin; left).
    destruct h' as [|x' h' _] using rev_ind.
    { right. right. apply verified_snoc in Hv as (_ & _ & Hc & _). rewrite <- Hc in He.
      exists (anchor_bytes x.1). split; [done|].
      apply hex_encode_inj; [apply sha256_digest | exact genesis_digest | exact He]. }
    rewrite tip_snoc in He. rewrite history_inputs_snoc in Hi'.
    apply list_subseteq_app_iff_l in Hi' as [Hi' Hin'].
    assert (anchor_bytes x'.1 ∈ inputs) as Ha' by (apply Hin'; left).
    apply Forall_app in Hf as [Hf [Hx _]%Forall_cons], Hf' as [Hf' [Hx' _]%Forall_cons].
    destruct (anchor_binds inputs h h' x x') as [[Hl Ht]|]; [done | done | apply Hx | apply Hx' |
      done | done | done | | by right].
    apply verified_snoc in Hv as (Hv & _ & _ & Hr), Hv' as (Hv' & _ & _ & Hr').
    destruct (IH h') as [Hh|]; [done | done | done | done | done | done | done | | by right].
    destruct (fold_rows_binds inputs x.2 x'.2) as [Hrows|];
      [apply Hx | apply Hx' | intros y Hy; apply Hin; by right | intros y Hy; apply Hin'; by right | | | by right].
    { apply hex_encode_inj; [apply fold_rows_digest..|]. rewrite Hr, Hr'. by injection Hl. }
    left. rewrite !fmap_app, Hh. cbn [fmap list_fmap]. unfold said. by rewrite Hl, Hrows.
Qed.

End Binding.

(** ** Reading and checking the chain *)
Definition MAX_AUDIT_LOG_LIMIT : Z := 200.

Definition ANCHOR_LAG : duration := minutes 5.

Definition CTX_LATEST_ANCHOR : text := lit "loading the most recent audit anchor".
Definition CTX_CHAIN_LINKAGE : text := lit "verifying the audit anchor chain's own linkage".
Definition CTX_ROWS_IN_PERIOD : text := lit "reading cratestack_audit for the new period".
Definition CTX_WRITE_ANCHOR : text := lit "writing the new audit anchor".

Record ChainStatus := mkChainStatus {
  cs_latest_anchor : option AuditAnchor.t;
  cs_linkage_breaks : list text;
  cs_latest_period_content_verified : option bool }.

Record AuditLogEntry := mkEntry {
  ae_event_id : text;
  ae_model : text;
  ae_operation : text;
  ae_primary_key : text;
  ae_actor : text;
  ae_tenant : option text;
  ae_before : option text;
  ae_after : option text;
  ae_request_id : option text;
  ae_occurred_at : Z }.

Record AuditLogPage := mkPage {
  pg_entries : list AuditLogEntry;
  pg_has_more : bool }.

(** [Uuid]'s [Display]: 8-4-4-4-12 lower-case hex digits. *)
Definition uuid_to_string (bytes : list Z) : text :=
  let part i n := hex_encode (take n (drop i bytes)) in
  part 0%nat 4%nat ++ lit "-" ++ part 4%nat 2%nat ++ lit "-" ++ part 6%nat 2%nat ++ lit "-" ++
  part 8%nat 2%nat ++ lit "-" ++ part 10%nat 6%nat.

Section Chain.

Context `{E : CratestackErrors} `{UD : UnicodeDebug} `{M : MacLib} `{J : JsonLib}.

(** A framework table that was never created has no rows. *)
Definition rows_in_period (period_start : option Z) (period_end : Z)
  : prog (result (list AuditRow) SqlError) :=
  let! r := do (Raw (SelectAuditPeriod period_start period_end)) in
  match r with
  | Ok rows => Ret (Ok rows)
  | Err error => if is_undefined_table error then Ret (Ok []) else Ret (Err error)
  end.

Definition latest_anchor : prog (result (option AuditAnchor.t) CratestackError) :=
  let!? rows := do (FindMany TAnchor
    (mkQuery (t := TAnchor) (fun _ => true) [Desc (t := TAnchor) (fun a => KInt (Some a.(AuditAnchor.periodEnd)))]
       (Some 1))) in
  Ret (Ok (last rows)).

Definition verify_chain_linkage : prog (result (list text) CratestackError) :=
  let!? anchors := do (FindMany TAnchor
    (mkQuery (t := TAnchor) (fun _ => true) [Asc (t := TAnchor) (fun a => KInt (Some a.(AuditAnchor.periodEnd)))]
       None)) in
  Ret (Ok (linkage_breaks None anchors)).

Definition verify_period_content (anchor : AuditAnchor.t) : prog (result bool SqlError) :=
  let!? rows := rows_in_period anchor.(AuditAnchor.periodStart) anchor.(AuditAnchor.periodEnd) in
  Ret (Ok (bool_decide (hex_encode (fold_rows rows) = anchor.(AuditAnchor.rangeHash)))).

Definition chain_status : prog (result ChainStatus CratestackError) :=
  let!? latest := latest_anchor in
  let!? breaks := verify_chain_linkage in
  let! content :=
    match latest with
    | Some anchor => let! r := verify_period_content anchor in
                     Ret (match r with Ok b => Some b | Err _ => None end)
    | None => Ret None
    end in
  Ret (Ok (mkChainStatus latest breaks content)).

Definition to_entry (row : AuditRow) : AuditLogEntry :=
  mkEntry (uuid_to_string (ar_event_id row)) (ar_model row) (ar_operation row)
    (canonical_json (ar_primary_key row)) (canonical_json (ar_actor row)) (ar_tenant row)
    (canonical_json <$> ar_before row) (canonical_json <$> ar_after row) (ar_request_id row)
    (ar_occurred_at row).

Definition list_audit_entries (filter : AuditLogFilter) (limit offset : Z)
  : prog (result AuditLogPage CratestackError) :=
  if (limit <? 0) || (offset <? 0) then
    Ret (Err (Validation (lit "limit and offset must not be negative")))
  else
    let capped_limit := Z.max 1 (Z.min limit MAX_AUDIT_LOG_LIMIT) in
    let! r := do (Raw (SelectAuditLog filter (capped_limit + 1) offset)) in
    let page rows :=
      mkPage (to_entry <$> take (Z.to_nat capped_limit) rows)
        (Z.to_nat capped_limit <? length rows)%nat in
    match r with
    | Ok rows => Ret (Ok (page rows))
    | Err error =>
        if is_undefined_table error then Ret (Ok (page []))
        else Ret (Err (Internal (lit "reading cratestack_audit for the console audit log: "
                                   ++ se_text error)))
    end.

(** ** anchor_audit.rs *)
Definition sql_context {A} (context : text) (p : prog (result A SqlError))
  : prog (result A JobError) :=
  let! r := p in Ret (map_err (fun source => JobSql context (se_text source)) r).

Definition anchor_input (latest : option AuditAnchor.t) (period_end : Z) (rows : list AuditRow)
  : CreateAuditAnchorInput :=
  let period_start := AuditAnchor.periodEnd <$> latest in
  let row_count := Z.min (Z.of_nat (length rows)) (2 ^ 63 - 1) in
  let range_hash_hex := hex_encode (fold_rows rows) in
  let prev_chain_hash_hex := default genesis_hex (AuditAnchor.chainHash <$> latest) in
  mkCreateAnchor period_start period_end row_count range_hash_hex prev_chain_hash_hex
    (compute_chain_hash_hex prev_chain_hash_hex period_start period_end row_count range_hash_hex).

Definition anchor_audit_run_at (now : Z) : prog (result unit JobError) :=
  let!? latest := with_context CTX_LATEST_ANCHOR latest_anchor in
  let!? breaks := with_context CTX_CHAIN_LINKAGE verify_chain_linkage in
  let! _ :=
    match latest with
    | Some anchor => let! _ := verify_period_content anchor in Ret tt
    | None => Ret tt
    end in
  let period_start := AuditAnchor.periodEnd <$> latest in
  let period_end := now - ANCHOR_LAG in
  if match period_start with Some start => period_end <=? start | None => false end then Ret (Ok tt)
  else
    let!? rows := sql_context CTX_ROWS_IN_PERIOD (rows_in_period period_start period_end) in
    let!? _ := with_context CTX_WRITE_ANCHOR
      (do (Create TAnchor (anchor_input latest period_end rows))) in
    Ret (Ok tt).

Definition anchor_audit : JobHandler := fun _ =>
  let! now := do Now in anchor_audit_run_at now.

End Chain.

(** ** What the job leaves *)
Section Anchoring.

Context `{E : CratestackErrors} `{UD : UnicodeDebug} `{M : MacLib} `{J : JsonLib}.

(** The rows a period was read to have. *)
Definition period_read (tr : trace) (period_start : option Z) (period_end : Z)
  (rows : list AuditRow) : Prop :=
  exists r, Ev (Raw (SelectAuditPeriod period_start period_end)) r ∈ tr /\
    match r with Ok rows' => rows = rows' | Err e => is_undefined_table e = true /\ rows = [] end.

(** At most one anchor is written, over the rows since the newest one up to
    five minutes ago, and it extends any verified history that ends there. *)
Definition anchored (now : Z) (tr : trace) : Prop :=
  creates TAnchor tr = [] \/
  exists input latest rows, creates TAnchor tr = [input] /\
    (forall a, latest = Some a -> known tr TAnchor a /\ a.(AuditAnchor.periodEnd) < ch_periodEnd input) /\
    ch_periodStart input = AuditAnchor.periodEnd <$> latest /\ ch_periodEnd input = now - minutes 5 /\
    period_read tr (ch_periodStart input) (ch_periodEnd input) rows /\
    forall h id at_, verified h -> last h.*1 = latest ->
      verified (h ++ [(created TAnchor id at_ input, rows)]).

Lemma anchor_input_extends latest period_end rows h id at_ :
  verified h -> last h.*1 = latest ->
  verified (h ++ [(created TAnchor id at_ (anchor_input latest period_end rows), rows)]).
Proof. intros Hv Hl. apply verified_snoc. split_and!; [done | | done | done]. cbn. unfold tip. by rewrite Hl. Qed.

Lemma wp_rows_in_period s e tr :
  wp (rows_in_period s e) tr (fun r tr' => exists reply,
    tr' = Ev (Raw (SelectAuditPeriod s e)) reply :: tr /\
    forall rows, r = Ok rows -> period_read tr' s e rows).
Proof.
  apply wp_any; [done|]. intros [rows|er]; cbn [wp].
  - exists (Ok rows). split; [done|]. intros rows' [= <-]. exists (Ok rows). split; [by left | done].
  - destruct (is_undefined_table er) eqn:Hu; cbn [wp]; exists (Err er); split; try done.
    intros rows [= <-]. exists (Err er). by split; [left|].
Qed.

(** Looking at the newest period changes nothing. *)
Lemma wp_content {B} (latest : option AuditAnchor.t) (k : prog B) tr (I : trace -> Prop) Q :
  I tr -> (forall R (q : sql R) r tr, I tr -> I (Ev (Raw q) r :: tr)) ->
  (forall tr', I tr' -> wp k tr' Q) ->
  wp (let! _ := match latest with
                | Some anchor => let! _ := verify_period_content anchor in Ret tt
                | None => Ret tt
                end in k) tr Q.
Proof.
  intros HI Hraw Hk. apply wp_bind. destruct latest as [a|]; [|by apply Hk].
  apply wp_bind, wp_ok_bind. eapply wp_mono; [|apply wp_rows_in_period].
  intros r tr' (reply & -> & _). destruct r; cbn [wp]; by apply Hk, Hraw.
Qed.

Lemma wp_anchor_audit now : wp (anchor_audit_run_at now) [] (fun _ tr => anchored now tr).
Proof.
  unfold anchor_audit_run_at. apply wp_ok_bind, wp_bind, wp_find_ok; [|by left].
  intros anchors _ _ _. cbn [wp map_err]. apply wp_ok_bind, wp_bind, wp_find_ok; [|by left].
  intros chain _ _ _. cbn [wp map_err]. set (latest := last anchors).
  apply (wp_content _ _ _ (fun tr => creates TAnchor tr = [] /\ forall a, latest = Some a -> known tr TAnchor a)).
  { split; [done|]. intros a Ha. apply known_cons, known_find. by apply last_Some_elem_of. }
  { intros R q r tr [Hc Hk]. split; [done|]. intros a Ha. by apply known_cons, Hk. }
  intros tr [Hc Hk]. set (due := match AuditAnchor.periodEnd <$> latest with Some _ => _ | None => _ end).
  destruct due eqn:Hdue; [by left|].
  apply wp_ok_bind, wp_bind. eapply wp_mono; [|apply wp_rows_in_period].
  intros [rows|er] tr' (reply & -> & Hread); cbn [wp map_err]; [|by left].
  specialize (Hread rows eq_refl). set (tr1 := Ev (Raw _) reply :: tr) in *.
  apply wp_ok_bind, wp_bind, wp_any; [done|]. intros r.
  assert (anchored now (Ev (Create TAnchor (anchor_input latest (now - ANCHOR_LAG) rows)) r :: tr1)) as Ha.
  { right. eexists _, latest, rows. rewrite creates_same. split; [by rewrite <- Hc|]. split_and!.
    - intros a Ha. split; [by do 2 apply known_cons; apply Hk|]. cbn [ch_periodEnd anchor_input].
      subst due. rewrite Ha in Hdue. cbn in Hdue. by apply Z.leb_gt in Hdue.
    - done.
    - done.
    - destruct Hread as (r' & Hin & Hr). exists r'. by split; [right|].
    - intros h id at_. apply anchor_input_extends. }
  by destruct r.
Qed.

End Anchoring.

(** ** The claims of this component *)
Section AuditClaims.

Context `{E : CratestackErrors} `{B : !Backend} `{UD : UnicodeDebug} `{M : MacLib} `{J : JsonLib}.

(** C34. Tamper evidence. Take two histories, each a chain of anchors with the
    audit rows of their periods, which both pass the checks: no break in the
    linkage, and every period's rows fold to what its anchor holds. If their
    newest hashes agree, the histories agree: the same periods and counts, and
    the same rows in the same order, up to the order of keys inside their
    JSON. The one way out is an explicit failure of SHA-256 on the very bytes
    that were hashed to check the two: a collision, or a preimage of zero. *)
Theorem audit_tamper_evident h h' :
  verified h -> verified h' -> history_fits h -> history_fits h' -> tip h.*1 = tip h'.*1 ->
  said <$> h = said <$> h' \/ hash_break (history_inputs h ++ history_inputs h').
Proof.
  intros Hv Hv' Hf Hf' Ht. apply history_binds; try done; intros x Hx; apply elem_of_app; auto.
Qed.

(** What an anchoring run leaves. It never panics; it writes at most one
    anchor, over the audit rows read for the period from the newest anchor it
    read up to five minutes ago, and that anchor extends every verified history
    that ends with the newest anchor to a verified one. *)
Theorem anchor_extends_history now p tr w w' :
  world_ok w -> rtc step (anchor_audit_run_at now, [], w) (p, tr, w') ->
  p <> Panic /\ forall r, p = Ret r -> anchored now tr.
Proof.
  intros Hok Hr. pose proof (wp_anchor_audit now) as Hwp.
  split; [by apply (wp_run_safe _ _ _ _ _ _ Hwp Hok Hr)|]. intros r ->.
  exact (wp_run _ _ _ _ _ _ _ Hwp Hok (valid_nil _) (Forall_nil_2 _) Hr).
Qed.

End AuditClaims.

(** ** Examples *)
Section Demo.

#[local] Existing Instance demo_errors.
#[local] Existing Instance demo_debug.
#[local] Existing Instance WebhookExamples.demo_mac.

(** A printer of JSON that can be read back: the tree's code in binary. *)
Definition float_code (x : f64) : list Z :=
  match x with
  | S754_zero s => [0; Z.b2z s]
  | S754_infinity s => [1; Z.b2z s]
  | S754_nan => [2]
  | S754_finite s m e => [3; Z.b2z s; Z.pos m; e]
  end.

Fixpoint to_tree (v : Json) : gen_tree (list Z) :=
  match v with
  | JNull => GenLeaf [0]
  | JBool b => GenLeaf [1; Z.b2z b]
  | JInt n => GenLeaf [2; n]
  | JFloat x => GenLeaf (3 :: float_code x)
  | JString s => GenLeaf (4 :: s)
  | JArray items => GenNode 0 (map to_tree items)
  | JObject entries => GenNode 1 (map (fun kv => GenNode 2 [GenLeaf kv.1; to_tree kv.2]) entries)
  end.

Fixpoint binary (p : positive) : text :=
  match p with
  | xH => [49]
  | xO q => 48 :: binary q
  | xI q => 50 :: binary q
  end.

Lemma binary_inj p q : binary p = binary q -> p = q.
Proof.
  revert q. induction p as [p IH|p IH|]; intros [q|q|]; cbn; intros H; try discriminate H; try done;
    injection H as H; by rewrite (IH q H).
Qed.

Lemma binary_text p : is_text (binary p) = true.
Proof. induction p as [p IH|p IH|]; cbn [binary is_text forallb]; by rewrite ?IH. Qed.

Lemma b2z_inj a b : Z.b2z a = Z.b2z b -> a = b.
Proof. by destruct a, b. Qed.

Lemma float_code_inj x y : float_code x = float_code y -> x = y.
Proof.
  destruct x, y; cbn; intros [=]; try done; f_equal; try done; by apply b2z_inj.
Qed.

Fixpoint to_tree_inj (v v' : Json) {struct v} : to_tree v = to_tree v' -> v = v'.
Proof.
  destruct v as [|b|n|x|s|items|entries], v' as [|b'|n'|x'|s'|items'|entries']; cbn [to_tree];
    intros H; try discriminate H; try reflexivity; injection H as H; try (by rewrite H).
  - by rewrite (b2z_inj _ _ H).
  - by rewrite (float_code_inj _ _ H).
  - f_equal. revert items' H. induction items as [|v items IH]; intros [|v' items'] H;
      try discriminate H; [done|]. cbn [map] in H. injection H as Hv H.
    by rewrite (to_tree_inj v v' Hv), (IH items' H).
  - f_equal. revert entries' H. induction entries as [|[k v] entries IH]; intros [|[k' v'] entries'] H;
      try discriminate H; [done|]. cbn [map fst snd] in H. injection H as Hk Hv H.
    by rewrite Hk, (to_tree_inj v v' Hv), (IH entries' H).
Qed.

Definition demo_json : JsonLib.
Proof.
  refine {| value_to_string v := binary (encode (to_tree v)) |}.
  - intros v _. apply binary_text.
  - intros v v' _ _ H. apply to_tree_inj, encode_inj, binary_inj, H.
Defined.

#[local] Existing Instance demo_json.

Definition demo_row (key : Json) : AuditRow :=
  mkAuditRow (repeat 7 16) (lit "vsms") (lit "Job") (lit "update") key (JObject []) None None
    (Some (JInt 5)) (Some (lit "req-1")) ex_now.

(** One update, its key's fields in either order. *)
Definition demo_rows (swapped : bool) : list AuditRow :=
  [demo_row (JObject (if swapped then [(lit "b", JNull); (lit "a", JInt 1)]
                      else [(lit "a", JInt 1); (lit "b", JNull)]))].

Definition demo_history (swapped : bool) : list (AuditAnchor.t * list AuditRow) :=
  [(created TAnchor (lit "an1") ex_now (anchor_input None ex_now (demo_rows swapped)), demo_rows swapped)].

Lemma demo_verified b : verified (demo_history b).
Proof. apply (anchor_input_extends None ex_now (demo_rows b) []); [|done]. by split. Qed.

Lemma demo_fits b : history_fits (demo_history b).
Proof.
  constructor; [|constructor]. split.
  - split; [intros s [=] | split; [discriminate | reflexivity].. | destruct b; vm_compute; reflexivity].
  - constructor; [|constructor]. split.
    + vm_compute. reflexivity.
    + split; vm_compute; reflexivity.
    + split; vm_compute; reflexivity.
    + split; vm_compute; reflexivity.
    + destruct b; split; vm_compute; reflexivity.
    + split; vm_compute; reflexivity.
    + intros s [=].
    + intros v [=].
    + intros v H. injection H as <-. split; vm_compute; reflexivity.
    + intros s H. injection H as <-. split; vm_compute; reflexivity.
    + split; [discriminate | reflexivity].
Qed.

Lemma demo_tips : tip (demo_history false).*1 = tip (demo_history true).*1.
Proof. vm_compute. reflexivity. Qed.

Lemma audit_tamper_evident_witness :
  demo_history false <> demo_history true /\
  (said <$> demo_history false = said <$> demo_history true \/
   hash_break (history_inputs (demo_history false) ++ history_inputs (demo_history true))).
Proof.
  split; [intros H; by vm_compute in H|].
  exact (audit_tamper_evident (demo_history false) (demo_history true)
    (demo_verified _) (demo_verified _) (demo_fits _) (demo_fits _) demo_tips).
Defined.

(** A database whose audit log holds the one row. *)
Definition audit_oracle : oracle :=
  mkOracle ex_now f64_zero (o_submit accepting) (o_seal accepting) (o_post accepting)
    (fun R q => match q in sql R return result R SqlError with
                | SelectAuditPeriod _ _ => Ok (demo_rows false)
                | q => no_tables _ q
                end).

Definition anchor_run : config (result unit JobError) :=
  ref_run audit_oracle (anchor_audit_run_at ex_now) [] empty_world.

Lemma anchor_run_creates :
  is_null (run_result anchor_run) = false /\ length (creates TAnchor (run_trace anchor_run)) = 1%nat.
Proof. split; vm_compute; reflexivity. Qed.

Lemma anchor_extends_history_witness :
  anchored ex_now (run_trace anchor_run) /\ length (creates TAnchor (run_trace anchor_run)) = 1%nat.
Proof.
  split; [|exact (proj2 anchor_run_creates)].
  destruct (run_result anchor_run) as [r|] eqn:Hr; [|exfalso; by vm_compute in Hr].
  exact (proj2 (@anchor_extends_history _ (ref_backend audit_oracle) _ _ ex_now _ _ empty_world _
    empty_world_ok (ref_run_done audit_oracle _ [] empty_world r Hr)) r eq_refl).
Defined.

End Demo.
