(* ===== verification/Nonces.v ===== *)
(** * The nonces of signed requests

    The store that remembers which nonces were used (sms-api/src/envelope.rs)
    and the job that forgets the expired ones
    (sms-worker/src/jobs/sweep_envelope_nonces.rs).  Together they refuse a
    replay: a nonce that was recorded is not recorded again before it
    expires. *)

From Stdlib Require Import Eqdep_dec.
From S2P Require Import Prelude ProviderApi Schema ApiSchema Errors Db DbLogic DbReads DbRef Discipline.
From S2P Require Import WorkerRouting DemoData Jobs.

Definition NONCE_BATCH : Z := 500.
Definition MAX_BATCHES : nat := 40.

Definition CTX_SWEEP : text := lit "sweeping expired envelope nonces".

Section Nonces.

Context `{E : CratestackErrors} `{UD : UnicodeDebug}.

(** ** envelope.rs *)
Definition nonce_insert (nonce : text) (expires_at : Z) : prog (result unit CratestackError) :=
  let!? _ := do (Create TNonce (mkCreateNonce nonce expires_at)) in Ret (Ok tt).

Definition is_duplicate (error : CratestackError) : bool :=
  bool_decide (db_sqlstate error = Some UNIQUE_VIOLATION).

Definition insert_once_more (nonce : text) (expires_at : Z) : prog (result bool CratestackError) :=
  let! r := nonce_insert nonce expires_at in
  match r with
  | Ok _ => Ret (Ok true)
  | Err error => if is_duplicate error then Ret (Ok false) else Ret (Err error)
  end.

Definition nonce_query (nonce : text) : query TNonce :=
  mkQuery (t := TNonce) (fun n => bool_decide (n.(EnvelopeNonce.nonce) = nonce)) [] (Some 1).

Definition is_not_found (error : CratestackError) : bool :=
  match view error with VNotFound _ => true | _ => false end.

(** A recorded nonce is looked at, and replaced once it has expired. *)
Definition replace_if_expired (nonce : text) (expires_at : Z) : prog (result bool CratestackError) :=
  let!? existing := first_row (nonce_query nonce) in
  match existing with
  | None => insert_once_more nonce expires_at
  | Some existing =>
      let! now := do Now in
      if now <? existing.(EnvelopeNonce.expiresAt) then Ret (Ok false)
      else
        let! r := do (Delete TNonce existing.(EnvelopeNonce.id)) in
        match r with
        | Ok _ => insert_once_more nonce expires_at
        | Err error =>
            if is_not_found error then insert_once_more nonce expires_at else Ret (Err error)
        end
  end.

Definition record_if_unseen (nonce : text) (expires_at : Z) : prog (result bool CratestackError) :=
  let! r := nonce_insert nonce expires_at in
  match r with
  | Ok _ => Ret (Ok true)
  | Err error => if is_duplicate error then replace_if_expired nonce expires_at else Ret (Err error)
  end.

(** ** sweep_envelope_nonces.rs *)
Definition expired_nonces (now : Z) : query TNonce :=
  mkQuery (t := TNonce) (fun n => n.(EnvelopeNonce.expiresAt) <? now)
    [Asc (t := TNonce) (fun n => KInt (Some n.(EnvelopeNonce.expiresAt)))] (Some NONCE_BATCH).

Fixpoint sweep_rows (rows : list EnvelopeNonce.t) (deleted : nat) : prog (result nat JobError) :=
  match rows with
  | [] => Ret (Ok deleted)
  | row :: rest =>
      let! r := do (Delete TNonce row.(EnvelopeNonce.id)) in
      match r with
      | Ok _ => sweep_rows rest (S deleted)
      | Err source =>
          if is_not_found source then sweep_rows rest deleted
          else Ret (Err (JobDatabase CTX_SWEEP source))
      end
  end.

Fixpoint sweep_batches (batches : nat) (now : Z) (deleted : nat) : prog (result nat JobError) :=
  match batches with
  | O => Ret (Ok deleted)
  | S batches' =>
      let!? batch := with_context CTX_SWEEP (do (FindMany TNonce (expired_nonces now))) in
      let full := bool_decide (Z.of_nat (length batch) = NONCE_BATCH) in
      let!? deleted := sweep_rows batch deleted in
      if full then sweep_batches batches' now deleted else Ret (Ok deleted)
  end.

Definition sweep_run_at (now : Z) : prog (result nat JobError) := sweep_batches MAX_BATCHES now 0.

Definition sweep_envelope_nonces : JobHandler := fun _ =>
  let! now := do Now in
  let!? _ := sweep_run_at now in Ret (Ok tt).

End Nonces.

(** ** What the two are allowed to do

    Both only read the clock, read, insert and delete nonces, and a delete
    names a row they read, at a time they read at which it had expired. *)
Section Discipline.

Context `{E : CratestackErrors} `{UD : UnicodeDebug}.

Definition expired_in (tr : trace) (id : text) : Prop :=
  exists r now, known tr TNonce r /\ r.(EnvelopeNonce.id) = id /\ Ev Now now ∈ tr /\
    r.(EnvelopeNonce.expiresAt) <= now.

Definition nonce_call R (tr : trace) (c : call R) : Prop :=
  match c with
  | Now => True
  | FindMany t _ => t = TNonce
  | Create t _ => t = TNonce
  | Delete t id => t = TNonce /\ expired_in tr id
  | _ => False
  end.

Definition nonce_reply R (c : call R) : R -> Prop :=
  match c in call R return R -> Prop with
  | FindMany t q => fun r => forall rows, r = Ok rows -> Forall (fun y => q_where q y = true) rows
  | _ => fun _ => True
  end.

#[local] Abbreviation nonce_disciplined := (disciplined nonce_call nonce_reply).

(** A nonce was stored within the trace. *)
Definition recorded (nonce : text) (tr : trace) : Prop :=
  exists e b, Ev (Create TNonce (mkCreateNonce nonce e)) (Ok b) ∈ tr.

Lemma disciplined_insert {B} nonce e (f : result unit CratestackError -> prog B) tr Q :
  (forall b, nonce_disciplined (f (Ok tt)) (Ev (Create TNonce (mkCreateNonce nonce e)) (Ok b) :: tr) Q) ->
  (forall er, nonce_disciplined (f (Err er)) (Ev (Create TNonce (mkCreateNonce nonce e)) (Err er) :: tr) Q) ->
  nonce_disciplined (pbind (nonce_insert nonce e) f) tr Q.
Proof. intros Hok Her. split; [done|]. intros [b|er] _; [apply Hok | apply Her]. Qed.

Lemma recorded_here nonce e b tr : recorded nonce (Ev (Create TNonce (mkCreateNonce nonce e)) (Ok b) :: tr).
Proof. exists e, b. by left. Qed.

Lemma disciplined_once_more nonce e tr :
  nonce_disciplined (insert_once_more nonce e) tr (fun r tr' => r = Ok true -> recorded nonce tr').
Proof.
  apply disciplined_insert; [intros b _; apply recorded_here|]. intros er.
  by destruct (is_duplicate er); intros [=].
Qed.

Lemma disciplined_record nonce e tr :
  nonce_disciplined (record_if_unseen nonce e) tr (fun r tr' => r = Ok true -> recorded nonce tr').
Proof.
  apply disciplined_insert; [intros b _; apply recorded_here|]. intros er.
  destruct (is_duplicate er); [|by intros [=]].
  split; [done|]. intros [[|row rows]|er'] Hr; cbn [pbind head]; [apply disciplined_once_more | | by intros [=]].
  split; [done|]. intros now _. cbn [pbind]. destruct (Z.ltb_spec now (EnvelopeNonce.expiresAt row)) as [|Hexp]; [by intros [=]|].
  split.
  - split; [done|]. exists row, now. split_and!; [|done|by left|done].
    apply known_cons. exact (known_find _ TNonce _ _ row (list_elem_of_here _ _)).
  - intros [b|er'] _; cbn [pbind]; [apply disciplined_once_more|].
    destruct (is_not_found er'); [apply disciplined_once_more | by intros [=]].
Qed.

Lemma disciplined_sweep_rows now rows deleted tr :
  Forall (fun r => known tr TNonce r /\ r.(EnvelopeNonce.expiresAt) <= now) rows -> Ev Now now ∈ tr ->
  nonce_disciplined (sweep_rows rows deleted) tr (fun _ tr' => Ev Now now ∈ tr').
Proof.
  revert deleted tr. induction rows as [|r rows IH]; intros deleted tr Hrows Hnow; [exact Hnow|].
  apply Forall_cons in Hrows as [[Hk He] Hrows]. split; [split; [done|]; by exists r, now|].
  intros reply _. set (tr' := Ev _ reply :: tr).
  assert (Ev Now now ∈ tr') as Hnow' by by right.
  assert (Forall (fun r => known tr' TNonce r /\ r.(EnvelopeNonce.expiresAt) <= now) rows) as Hrows'.
  { eapply Forall_impl; [exact Hrows|]. intros y [? ?]. split; [by apply known_cons | done]. }
  destruct reply as [b|er]; cbn [pbind]; [by apply IH|].
  destruct (is_not_found er); [by apply IH | exact Hnow'].
Qed.

Lemma disciplined_sweep batches now deleted tr : Ev Now now ∈ tr ->
  nonce_disciplined (sweep_batches batches now deleted) tr (fun _ _ => True).
Proof.
  revert deleted tr. induction batches as [|n IH]; intros deleted tr Hnow; [exact I|].
  split; [done|]. intros [rows|er] Hr; [|exact I]. cbn [pbind map_err].
  apply disciplined_bind. eapply disciplined_mono; [|apply (disciplined_sweep_rows now)].
  - intros [d|e] tr' Hin; [|exact I]. cbn beta iota. destruct (bool_decide _); [by apply IH | exact I].
  - specialize (Hr rows eq_refl). apply Forall_forall. intros r Hin. split; [by apply (known_find _ TNonce)|].
    rewrite Forall_forall in Hr. specialize (Hr r Hin). apply Z.ltb_lt in Hr. lia.
  - by right.
Qed.

End Discipline.

(** ** Replays *)
Section Replay.

Context `{E : CratestackErrors} `{B : !Backend} `{UD : UnicodeDebug}.

#[local] Abbreviation nonce_disciplined := (disciplined nonce_call nonce_reply).

(** A request being checked, or a run of the sweeping job. *)
Inductive nonce_actor :=
| Recorder (nonce : text) (expires_at : Z)
| Sweeper.

Definition nonce_prog (a : nonce_actor) : prog (result bool CratestackError) :=
  match a with
  | Recorder nonce expires_at => record_if_unseen nonce expires_at
  | Sweeper => let! now := do Now in let! _ := sweep_run_at now in Ret (Ok false)
  end.

Definition nonce_post (a : nonce_actor) (r : result bool CratestackError) (tr : trace) : Prop :=
  match a with
  | Recorder nonce _ => r = Ok true -> recorded nonce tr
  | Sweeper => True
  end.

Lemma disciplined_actor a : nonce_disciplined (nonce_prog a) [] (nonce_post a).
Proof.
  destruct a as [nonce e|]; [apply disciplined_record|]. split; [done|]. intros now _.
  change (nonce_disciplined (let! _ := sweep_run_at now in Ret (Ok false)) [Ev Now now] (nonce_post Sweeper)).
  apply disciplined_bind. eapply disciplined_mono; [|by apply disciplined_sweep; left]. done.
Qed.

(** The nonce that was recorded, and runs in which no clock has reached its
    expiry; the rest of the system leaves it alone. *)
Variable x : EnvelopeNonce.t.

Definition early R (c : call R) : R -> Prop :=
  match c in call R return R -> Prop with
  | Now => fun now => now < x.(EnvelopeNonce.expiresAt)
  | _ => fun _ => True
  end.

Definition leaves_alone (_ w' : world) : Prop := stored TNonce x w' /\ rows_ok w'.

#[local] Abbreviation nonce_step := (steered_step leaves_alone early).

(** What a trace shows while the nonce stands. *)
Record faithful (tr : trace) : Prop := {
  faith_row : forall r, known tr TNonce r -> r.(EnvelopeNonce.id) = x.(EnvelopeNonce.id) -> r = x;
  faith_clock : forall now, Ev Now now ∈ tr -> now < x.(EnvelopeNonce.expiresAt);
  faith_create : ~ recorded x.(EnvelopeNonce.nonce) tr }.

Definition early_event (e : event) : Prop := match e with Ev c r => early _ c r end.

Definition new_nonce (e : event) : option text :=
  match e with
  | Ev c r =>
      match c in call R return R -> option text with
      | Create t i => fun r =>
          match t return create_input t -> option text with
          | TNonce => fun i => if is_ok r then Some (cn_nonce i) else None
          | _ => fun _ => None
          end i
      | _ => fun _ => None
      end r
  end.

Lemma known_inv (e : event) tr t (r : row t) :
  known (e :: tr) t r -> existT t r ∈ event_rows e \/ known tr t r.
Proof. intros (e' & [->|Hin]%elem_of_cons & Hr); [by left|]. right. by exists e'. Qed.

Lemma faithful_cons (e : event) tr :
  faithful tr -> early_event e -> new_nonce e <> Some x.(EnvelopeNonce.nonce) ->
  (forall y, existT TNonce y ∈ event_rows e -> y.(EnvelopeNonce.id) = x.(EnvelopeNonce.id) -> y = x) ->
  faithful (e :: tr).
Proof.
  intros [Hr Hc Hn] He Hnew Hrow. split.
  - intros y [Hy|Hy]%known_inv; [by apply Hrow | by apply Hr].
  - intros now [<-|Hin]%elem_of_cons; [exact He | by apply Hc].
  - intros (ex & b & [<-|Hin]%elem_of_cons); [by apply Hnew|]. apply Hn. by exists ex, b.
Qed.

Definition nonce_stands (actors : list nonce_actor) (y : pool (result bool CratestackError)) : Prop :=
  stored TNonce x y.2 /\ rows_ok y.2 /\
  forall i p tr, y.1 !! i = Some (p, tr) ->
    faithful tr /\ exists a, actors !! i = Some a /\ nonce_disciplined p tr (nonce_post a).

(** One call keeps the nonce stored, and its reply tells nothing else. *)
Lemma nonce_call_keeps R (c : call R) w r w' tr :
  stored TNonce x w -> rows_ok w -> exec R c w r w' -> nonce_call R tr c -> faithful tr -> early R c r ->
  stored TNonce x w' /\ nonce_reply R c r /\ faithful (Ev c r :: tr).
Proof.
  intros Hx Hok Hexec Hcall Hf Hearly. unfold stored in *.
  destruct c; cbn in Hcall; try done.
  - apply exec_Now in Hexec as ->. split_and!; [done | done|].
    apply faithful_cons; [done | done | done | by intros y ?%not_elem_of_nil].
  - subst t. apply exec_FindMany in Hexec as [-> Hrows]. split_and!; [done | |].
    + intros rows ->. destruct (Hrows rows eq_refl) as [Hr _].
      eapply Forall_impl; [exact Hr | by intros y (_ & ? & _)].
    + apply faithful_cons; [done | done | done|]. intros y Hy Hid. destruct r as [rows|e];
        [|by apply not_elem_of_nil in Hy].
      destruct (Hrows rows eq_refl) as [Hr _]. cbn in Hy. apply list_elem_of_fmap in Hy as (y' & Hy & Hin).
      apply inj_pair2_eq_dec in Hy; [|solve_decision]. subst y'.
      rewrite Forall_forall in Hr. destruct (Hr y Hin) as [Hs _]. cbn in Hs, Hx. rewrite Hid, Hx in Hs.
      by injection Hs.
  - subst t. destruct (Hok _ _ _ Hx) as [_ Hused].
    assert (forall b, r = Ok b -> b.(EnvelopeNonce.nonce) = cn_nonce c /\
              b.(EnvelopeNonce.id) <> x.(EnvelopeNonce.id)) as Hnew.
    { intros b ->. apply exec_Create in Hexec as [[_ ?]|(id & now & Hf' & _ & Hb & _)]; [done|].
      rewrite (Hb b eq_refl). split; [done|]. cbn. by intros ->. }
    split_and!; [| done |].
    + apply exec_Create in Hexec as [[-> _]|(id & now & Hf' & Hw & _)]; [done|].
      rewrite (written_row _ _ _ _ Hw), created_id. rewrite lookup_insert_ne; [done|]. by intros ->.
    + apply faithful_cons; [done | done | |].
      * cbn. destruct r as [b|e]; [|done]. cbn. intros [= Hn].
        pose proof (exec_Create_unique _ _ _ _ _ _ _ Hexec Hx) as Hcf. cbn in Hcf.
        destruct (Hnew b eq_refl) as [Hb _]. by rewrite Hb, Hn, bool_decide_eq_true_2 in Hcf.
      * intros y Hy Hid. destruct r as [b|e]; [|by apply not_elem_of_nil in Hy].
        cbn in Hy. apply list_elem_of_singleton in Hy. apply inj_pair2_eq_dec in Hy; [|solve_decision].
        subst y. by destruct (Hnew b eq_refl).
  - destruct Hcall as (-> & y & now & Hk & Hid & Hnow & Hexp). destruct Hf as [Hrow Hclock Hcr].
    assert (id <> x.(EnvelopeNonce.id)) as Hne.
    { intros He. rewrite He in Hid. specialize (Hrow y Hk Hid). subst y. specialize (Hclock now Hnow). lia. }
    split_and!; [|done|].
    + apply exec_Delete in Hexec as [->|(Hd & _)]; [done|]. rewrite Hd. by rewrite lookup_delete_ne.
    + apply faithful_cons; [by split | done | done | by intros y' ?%not_elem_of_nil].
Qed.

Lemma nonce_stands_step actors y z : nonce_step y z -> nonce_stands actors y -> nonce_stands actors z.
Proof.
  intros Hs (Hx & Hok & Hps). destruct Hs as [ps w w' [Hx' Hok']|ps i R c k tr w r w' Hi Hexec Hearly];
    [by split_and!|]. cbn [fst snd] in *.
  destruct (Hps i _ _ Hi) as (Hf & a & Ha & Hc & Hk).
  destruct (nonce_call_keeps R c w r w' tr Hx Hok Hexec Hc Hf Hearly) as (Hx' & Hr & Hf').
  split_and!; [done | by destruct (exec_rows _ _ _ _ _ Hok Hexec) as (_ & ? & _)|].
  intros j p tr' Hj. cbn [fst] in Hj. apply list_lookup_insert_Some in Hj.
  destruct Hj as [(<- & Hq & _)|[_ Hj]]; [|by apply Hps].
  injection Hq as <- <-. split; [done|]. exists a. split; [done|]. by apply Hk.
Qed.

(** C35. Replays are refused. While the clocks have not reached the expiry of a
    recorded nonce, any number of requests being checked and sweeping runs,
    interleaved call by call, leave the nonce recorded and none of those
    requests with the same nonce is let through. *)
Theorem nonce_replay_refused actors w ps w' :
  stored TNonce x w -> rows_ok w ->
  rtc (steered_step leaves_alone early) (start (nonce_prog <$> actors) w) (ps, w') ->
  stored TNonce x w' /\
  forall i e tr, actors !! i = Some (Recorder x.(EnvelopeNonce.nonce) e) ->
    ps !! i <> Some (Ret (Ok true), tr).
Proof.
  intros Hx Hok Hr.
  assert (nonce_stands actors (ps, w')) as (Hx' & _ & Hps).
  { refine (steered_invariant _ _ (nonce_stands actors) _ _ (nonce_stands_step actors) Hr _).
    split_and!; [done | done|]. intros i p tr Hi.
    unfold start in Hi. cbn [fst] in Hi. rewrite <- list_fmap_compose in Hi.
    apply list_lookup_fmap_Some in Hi as (a & [= -> ->] & Ha). split.
    - split; [by intros y (e & ?%not_elem_of_nil & _) | by intros now ?%not_elem_of_nil|].
      by intros (e & b & ?%not_elem_of_nil).
    - exists a. split; [done | apply disciplined_actor]. }
  split; [done|]. intros i e tr Ha Hi. destruct (Hps i _ _ Hi) as ([_ _ Hf] & a & Ha' & Hpost).
  rewrite Ha in Ha'. injection Ha' as <-. by apply Hf, Hpost.
Qed.

End Replay.

(** ** Example: a replay while the nonce stands, with a sweep alongside *)
Section Demo.

#[local] Existing Instance demo_errors.
#[local] Existing Instance demo_debug.

Definition seen_nonce : EnvelopeNonce.t :=
  EnvelopeNonce.mk (lit "n1") 0 0 (lit "abc") (ex_now + minutes 5).

Definition nonce_world : world :=
  insert_row (insert_row empty_world TNonce seen_nonce)
    TNonce (EnvelopeNonce.mk (lit "n0") 0 0 (lit "old") (ex_now - minutes 5)).

Definition replay_actors : list nonce_actor := [Recorder (lit "abc") (ex_now + minutes 5); Sweeper].

Lemma early_reply R (c : call R) w : early seen_nonce R c (ref_exec accepting c w).1.
Proof. destruct c; try exact I. vm_compute. reflexivity. Qed.

Definition replay_run : pool (result bool CratestackError) :=
  turns accepting [0; 1; 0; 1; 0; 1; 0; 1]%nat (start (nonce_prog <$> replay_actors) nonce_world).

Lemma nonce_replay_refused_witness :
  stored TNonce seen_nonce replay_run.2 /\ is_null (w_tables replay_run.2 TNonce !! lit "n0") = true /\
  forall tr, replay_run.1 !! 0%nat <> Some (Ret (Ok true), tr).
Proof.
  pose proof (turns_steps accepting (leaves_alone seen_nonce) (early seen_nonce)
    [0; 1; 0; 1; 0; 1; 0; 1]%nat (start (nonce_prog <$> replay_actors) nonce_world) early_reply) as Hr.
  fold replay_run in Hr. rewrite (surjective_pairing replay_run) in Hr.
  destruct (@nonce_replay_refused _ (ref_backend accepting) seen_nonce replay_actors nonce_world _ _
    ltac:(vm_compute; reflexivity)
    (proj1 (insert_row_ok _ _ _ (insert_row_ok _ _ _ empty_world_ok))) Hr) as [Hx Hno].
  split; [exact Hx|]. split; [vm_compute; reflexivity|]. intros tr. exact (Hno 0%nat _ tr eq_refl).
Defined.

End Demo.
