(* ===== verification/JobHandlers.v ===== *)
(** * The remaining job handlers and the registry

    sms-worker jobs/reap_outbox.rs, jobs/grey_route_watch.rs and
    [default_registry] of jobs.rs, with the handlers of every kind. *)

From Stdlib Require Import SpecFloat.
From S2P Require Import Prelude Float64 Msisdn ProviderApi Schema ApiSchema Errors Sql Db DbLogic DbReads.
From S2P Require Import DbRef WorkerRouting DemoData Jobs Webhook AuditChain Nonces.

(** ** reap_outbox.rs *)
Module ReapOutbox.

Definition DELIVERED_RETENTION : duration := hours 24.
Definition POISON_ATTEMPTS_THRESHOLD : Z := 5.
Definition DELETE_BATCH : Z := 1000.
Definition ALERT_BATCH : Z := 200.

Definition CTX_POISON_SCAN : text := lit "scanning the event outbox for poison rows".
Definition CTX_REAP_DELIVERED : text := lit "reaping delivered event outbox rows".

Section Reap.

Context `{E : CratestackErrors}.

Definition alert_poison_rows : prog (result Z SqlError) :=
  let! r := do (Raw (SelectPoison POISON_ATTEMPTS_THRESHOLD ALERT_BATCH)) in
  match r with
  | Ok rows => Ret (Ok (Z.of_nat (length rows)))
  | Err error => if is_undefined_table error then Ret (Ok 0) else Ret (Err error)
  end.

Definition reap_delivered (cutoff : Z) : prog (result Z SqlError) :=
  let! r := do (Raw (DeleteDelivered cutoff DELETE_BATCH)) in
  match r with
  | Ok affected => Ret (Ok affected)
  | Err error => if is_undefined_table error then Ret (Ok 0) else Ret (Err error)
  end.

Definition run_at (now : Z) : prog (result unit JobError) :=
  let!? _ := sql_context CTX_POISON_SCAN alert_poison_rows in
  let!? _ := sql_context CTX_REAP_DELIVERED (reap_delivered (now - DELIVERED_RETENTION)) in
  Ret (Ok tt).

Definition reap_outbox : JobHandler := fun _ => let! now := do Now in run_at now.

End Reap.

End ReapOutbox.

(** ** grey_route_watch.rs *)
Module GreyRoute.

(** [f64] beyond what the router uses. *)
Definition f64_sub : f64 -> f64 -> f64 := SFsub 53 1024.
Definition f64_sqrt : f64 -> f64 := SFsqrt 53 1024.
Definition f64_abs : f64 -> f64 := SFabs.
Definition f64_eqb : f64 -> f64 -> bool := SFeqb.

Definition MIN_SAMPLE : Z := 30.
Definition MIN_DELTA : f64 := f64_div (f64_of_Z 15) (f64_of_Z 100).
Definition Z_THRESHOLD : f64 := f64_of_Z 3.
Definition LOOKBACK : duration := days 7.
Definition FETCH_LIMIT : Z := 20000.
Definition VALIDATION_INTERVAL : duration := days 30.

Definition CTX_DIVERGENCE : text := lit "checking route delivery-rate divergence".
Definition CTX_OVERDUE : text := lit "checking overdue route validations".

Record RouteOutcome := mkRouteOutcome {
  ro_operator : OperatorCode.t;
  ro_class : MessageClass.t;
  ro_route_id : text;
  ro_delivered : Z;
  ro_failed : Z }.

Definition total (o : RouteOutcome) : Z := ro_delivered o + ro_failed o.

Definition rate (o : RouteOutcome) : f64 := f64_div (f64_of_Z (ro_delivered o)) (f64_of_Z (total o)).

Record MessageOutcome := mkMessageOutcome {
  mo_operator : OperatorCode.t;
  mo_class : MessageClass.t;
  mo_route_id : text;
  mo_state : MessageState.t }.

Definition operator_tag (value : OperatorCode.t) : text :=
  match value with
  | OperatorCode.mtn => lit "mtn"
  | OperatorCode.orange => lit "orange"
  | OperatorCode.camtel => lit "camtel"
  | OperatorCode.nexttel => lit "nexttel"
  | OperatorCode.unknown => lit "unknown"
  end.

Definition class_tag (value : MessageClass.t) : text :=
  match value with
  | MessageClass.otp => lit "otp"
  | MessageClass.transactional => lit "transactional"
  | MessageClass.notification => lit "notification"
  | MessageClass.marketing => lit "marketing"
  end.

Definition outcome_key (row : MessageOutcome) : text * text * text :=
  (operator_tag (mo_operator row), class_tag (mo_class row), mo_route_id row).

Definition add_outcome (totals : gmap (text * text * text) RouteOutcome) (row : MessageOutcome)
  : gmap (text * text * text) RouteOutcome :=
  let entry := default (mkRouteOutcome (mo_operator row) (mo_class row) (mo_route_id row) 0 0)
                 (totals !! outcome_key row) in
  let entry :=
    match mo_state row with
    | MessageState.delivered =>
        mkRouteOutcome (ro_operator entry) (ro_class entry) (ro_route_id entry)
          (ro_delivered entry + 1) (ro_failed entry)
    | MessageState.undelivered | MessageState.failed | MessageState.expired =>
        mkRouteOutcome (ro_operator entry) (ro_class entry) (ro_route_id entry)
          (ro_delivered entry) (ro_failed entry + 1)
    | _ => entry
    end in
  <[outcome_key row := entry]> totals.

Record DivergenceFinding := mkFinding {
  df_operator : OperatorCode.t;
  df_class : MessageClass.t;
  df_reference_route_id : text;
  df_reference_rate : f64;
  df_reference_n : Z;
  df_route_id : text;
  df_rate : f64;
  df_n : Z;
  df_delta : f64;
  df_z_score : f64 }.

Definition two_proportion_z (reference candidate : RouteOutcome) : f64 :=
  let n1 := f64_of_Z (total reference) in
  let n2 := f64_of_Z (total candidate) in
  let pooled := f64_div (f64_of_Z (ro_delivered reference + ro_delivered candidate)) (f64_add n1 n2) in
  let se := f64_sqrt (f64_mul (f64_mul pooled (f64_sub f64_one pooled))
                        (f64_add (f64_div f64_one n1) (f64_div f64_one n2))) in
  if f64_eqb se f64_zero then f64_zero
  else f64_div (f64_sub (rate reference) (rate candidate)) se.

(** [sort_by] on [b.rate().partial_cmp(&a.rate())]: stable, highest first. *)
Fixpoint insert_by_rate (x : RouteOutcome) (l : list RouteOutcome) : list RouteOutcome :=
  match l with
  | [] => [x]
  | y :: r => if f64_ltb (rate y) (rate x) then x :: l else y :: insert_by_rate x r
  end.

Definition sort_by_rate (l : list RouteOutcome) : list RouteOutcome :=
  foldl (fun acc x => insert_by_rate x acc) [] l.

Definition flags (reference candidate : RouteOutcome) : option DivergenceFinding :=
  let delta := f64_sub (rate reference) (rate candidate) in
  if f64_ltb delta MIN_DELTA then None
  else
    let z_score := two_proportion_z reference candidate in
    if f64_ltb (f64_abs z_score) Z_THRESHOLD then None
    else Some (mkFinding (ro_operator reference) (ro_class reference) (ro_route_id reference)
                 (rate reference) (total reference) (ro_route_id candidate) (rate candidate)
                 (total candidate) delta z_score).

Definition group_findings (members : list RouteOutcome) : list DivergenceFinding :=
  match sort_by_rate (List.filter (fun route => MIN_SAMPLE <=? total route) members) with
  | reference :: candidate :: rest => omap (flags reference) (candidate :: rest)
  | _ => []
  end.

Definition group_key (o : RouteOutcome) : text * text :=
  (operator_tag (ro_operator o), class_tag (ro_class o)).

Definition add_member (groups : gmap (text * text) (list RouteOutcome)) (o : RouteOutcome)
  : gmap (text * text) (list RouteOutcome) :=
  <[group_key o := default [] (groups !! group_key o) ++ [o]]> groups.

Definition is_overdue (last_validated : option Z) (now : Z) : bool :=
  match last_validated with
  | None => true
  | Some at_ => VALIDATION_INTERVAL <? now - at_
  end.

Section Watch.

(** The order in which a [HashMap] yields its values. *)
Variable hash_order : forall A, list A -> list A.

Definition aggregate_outcomes (rows : list MessageOutcome) : list RouteOutcome :=
  hash_order _ (map_to_list (foldl add_outcome ∅ rows)).*2.

Definition detect_divergent_routes (outcomes : list RouteOutcome) : list DivergenceFinding :=
  hash_order _ (map_to_list (foldl add_member ∅ outcomes)).*2 ≫= group_findings.

Context `{E : CratestackErrors}.

Definition outcome_of_message (row : Message.t) : option MessageOutcome :=
  (fun route_id => mkMessageOutcome row.(Message.operator) row.(Message.class) route_id
                     row.(Message.state)) <$> row.(Message.routeId).

Definition watched_messages (cutoff : Z) : query TMessage :=
  mkQuery (t := TMessage)
    (fun m => negb (is_null m.(Message.routeId)) && (cutoff <? m.(Message.createdAt)) &&
              bool_decide (m.(Message.state) ∈ [MessageState.delivered; MessageState.undelivered;
                                                MessageState.failed; MessageState.expired]))
    [Desc (t := TMessage) (fun m => KInt (Some m.(Message.createdAt)))] (Some FETCH_LIMIT).

Definition check_divergence (now : Z) : prog (result nat CratestackError) :=
  let!? rows := do (FindMany TMessage (watched_messages (now - LOOKBACK))) in
  Ret (Ok (length (detect_divergent_routes (aggregate_outcomes (omap outcome_of_message rows))))).

Definition validations_of (route_id : text) : query TValidation :=
  mkQuery (t := TValidation) (fun v => bool_decide (v.(RouteValidation.routeId) = route_id))
    [Desc (t := TValidation) (fun v => KInt (Some v.(RouteValidation.performedAt)))] (Some 1).

Fixpoint count_overdue (routes : list Route.t) (now : Z) (overdue : nat)
  : prog (result nat CratestackError) :=
  match routes with
  | [] => Ret (Ok overdue)
  | candidate :: rest =>
      let!? last_validated := first_row (validations_of candidate.(Route.id)) in
      count_overdue rest now
        (if is_overdue (RouteValidation.performedAt <$> last_validated) now then S overdue else overdue)
  end.

Definition enabled_routes : query TRoute :=
  mkQuery (t := TRoute) (fun r => r.(Route.enabled)) [] None.

Definition check_overdue_validations (now : Z) : prog (result nat CratestackError) :=
  let!? routes := do (FindMany TRoute enabled_routes) in count_overdue routes now 0.

Definition run_at (now : Z) : prog (result unit JobError) :=
  let!? _ := with_context CTX_DIVERGENCE (check_divergence now) in
  let!? _ := with_context CTX_OVERDUE (check_overdue_validations now) in
  Ret (Ok tt).

Definition grey_route_watch : JobHandler := fun _ => let! now := do Now in run_at now.

End Watch.

End GreyRoute.

(** ** jobs.rs: the registry *)
Section Handlers.

Context `{E : CratestackErrors} `{UD : UnicodeDebug} `{M : MacLib} `{J : JsonLib}.
Variable hash_order : forall A, list A -> list A.

Definition default_registry : Registry :=
  register (register (register (register (register (register []
    (lit "expire_stale") expire_stale)
    (lit "reap_outbox") ReapOutbox.reap_outbox)
    (lit "purge_retention") purge_retention)
    (lit "anchor_audit") anchor_audit)
    (lit "grey_route_watch") (GreyRoute.grey_route_watch hash_order))
    (lit "sweep_envelope_nonces") sweep_envelope_nonces.

(** A program that updates no row that is there, deletes no message and puts
    nothing in a cache: nothing it does can be refused by a guard. *)
Fixpoint unguarded {A} (p : prog A) : Prop :=
  match p with
  | Ret _ => True
  | Panic => False
  | Call c k =>
      match c with
      | Update _ _ _ _ | Overwrite _ _ _ | Tx _ | CachePut _ _ _ => False
      | Delete t _ => t <> TMessage
      | _ => True
      end /\ forall r, unguarded (k r)
  end.

Lemma unguarded_bind {A B} (p : prog A) (f : A -> prog B) :
  unguarded p -> (forall a, unguarded (f a)) -> unguarded (pbind p f).
Proof.
  induction p as [a| |R c k IH]; intros Hp Hf; [apply Hf | done |]. destruct Hp as [Hc Hk].
  split; [exact Hc|]. intros r. by apply IH.
Qed.

Lemma unguarded_bind_ok {A B X} (p : prog (result A X)) (f : A -> prog (result B X)) :
  unguarded p -> (forall a, unguarded (f a)) -> unguarded (pbind_ok p f).
Proof. intros Hp Hf. apply unguarded_bind; [done|]. by intros [a|e]. Qed.

Lemma wp_unguarded {A} (p : prog A) tr : unguarded p -> wp p tr (fun _ _ => True).
Proof.
  revert tr. induction p as [a| |R c k IH]; intros tr; [done | done |]. intros [Hc Hk].
  split; [by destruct c|]. intros r _. by apply IH.
Qed.

Ltac unguarded :=
  repeat first
    [ progress intros
    | apply unguarded_bind
    | apply unguarded_bind_ok
    | match goal with |- unguarded (do _) => split; [exact I | intros; exact I] end
    | exact I
    | case_match ].

Lemma unguarded_context {A} context (p : prog (result A CratestackError)) :
  unguarded p -> unguarded (with_context context p).
Proof. intros Hp. by apply unguarded_bind. Qed.

Lemma unguarded_rows s e : unguarded (rows_in_period s e).
Proof. unfold rows_in_period. unguarded. Qed.

Lemma unguarded_anchor now : unguarded (anchor_audit_run_at now).
Proof.
  unfold anchor_audit_run_at. apply unguarded_bind_ok; [apply unguarded_context; unfold latest_anchor; unguarded|].
  intros latest. apply unguarded_bind_ok; [apply unguarded_context; unfold verify_chain_linkage; unguarded|].
  intros _. apply unguarded_bind.
  - destruct latest as [a|]; [|exact I]. apply unguarded_bind; [|intros; exact I].
    apply unguarded_bind_ok; [apply unguarded_rows | intros; exact I].
  - intros _. case_match; [exact I|].
    apply unguarded_bind_ok; [apply unguarded_bind; [apply unguarded_rows | intros; exact I]|].
    intros rows. apply unguarded_bind_ok; [apply unguarded_context; unguarded | intros; exact I].
Qed.

Lemma unguarded_reap now : unguarded (ReapOutbox.run_at now).
Proof.
  unfold ReapOutbox.run_at, sql_context, ReapOutbox.alert_poison_rows, ReapOutbox.reap_delivered.
  unguarded.
Qed.

Lemma unguarded_overdue routes now n : unguarded (GreyRoute.count_overdue routes now n).
Proof.
  revert n. induction routes as [|r routes IH]; intros n; [exact I|].
  apply unguarded_bind_ok; [unfold first_row; unguarded | intros v; apply IH].
Qed.

Lemma unguarded_watch now : unguarded (GreyRoute.run_at hash_order now).
Proof.
  unfold GreyRoute.run_at. apply unguarded_bind_ok.
  - apply unguarded_context. unfold GreyRoute.check_divergence. unguarded.
  - intros _. apply unguarded_bind_ok; [|intros; exact I]. apply unguarded_context, unguarded_bind_ok;
      [unguarded | intros; apply unguarded_overdue].
Qed.

Lemma unguarded_sweep_rows rows n : unguarded (sweep_rows rows n).
Proof.
  revert n. induction rows as [|r rows IH]; intros n; [exact I|].
  split; [done|]. intros [b|e]; cbn [pbind]; [apply IH|]. by destruct (is_not_found e).
Qed.

Lemma unguarded_sweep n now d : unguarded (sweep_batches n now d).
Proof.
  revert d. induction n as [|n IH]; intros d; [exact I|].
  apply unguarded_bind_ok; [apply unguarded_context; unguarded|]. intros rows.
  apply unguarded_bind_ok; [apply unguarded_sweep_rows|]. intros d'. by case_match.
Qed.

(** Every registered handler is safe. *)
Lemma default_registry_safe : handlers_safe default_registry.
Proof.
  assert (forall (f : Z -> prog (result unit JobError)), (forall now, unguarded (f now)) ->
    forall tr, wp (let! now := do Now in f now) tr (fun _ _ => True)) as Hu.
  { intros f Hf tr. apply wp_unguarded, unguarded_bind; [unguarded | exact Hf]. }
  intros kind h. unfold default_registry, register, registry_handler. cbn [List.find fst].
  repeat (case_bool_decide; [intros [= <-] job tr|]).
  - apply Hu. intros now. apply unguarded_bind_ok; [apply unguarded_sweep | intros; exact I].
  - apply Hu, unguarded_watch.
  - apply Hu, unguarded_anchor.
  - apply wp_purge_retention.
  - apply Hu, unguarded_reap.
  - apply wp_expire_stale.
  - done.
Qed.

End Handlers.
