(* ===== verification/Expiry.v ===== *)
(** * What background work does to a message past its validity

    The poll of the dispatch role and the poll of the jobs role with every
    registered handler, followed call by call: at each call that writes a
    message, which message it may be. *)

From S2P Require Import Prelude SentinelList Float64 RoutingEngine Msisdn ProviderApi Schema Errors Db DbLogic DbRef.
From S2P Require Import Commits WorkerRouting DemoData Claim Dispatch Dlr Jobs Webhook AuditChain Nonces JobHandlers.


Section Watch.

Context `{E : CratestackErrors}.








Abbreviation grown tr := (fun _ tr' => exists l, tr' = l ++ tr).








End Watch.


(** ** The dispatch role *)
Section Dispatching.

Context `{E : CratestackErrors} `{P : PhoneLib} `{U : UnicodeDebug}.

Abbreviation grown tr := (fun _ tr' => exists l, tr' = l ++ tr).
















End Dispatching.

(** ** The jobs role *)
Section Running.

Context `{E : CratestackErrors} `{U : UnicodeDebug} `{M : MacLib} `{J : JsonLib} (hash_order : forall A, list A -> list A).

Abbreviation grown tr := (fun _ tr' => exists l, tr' = l ++ tr).

















End Running.

(** ** What becomes of an overdue message *)
Section Stranded.

Context `{E : CratestackErrors} `{P : PhoneLib} `{U : UnicodeDebug} `{M : MacLib} `{J : JsonLib}.
Context `{B : !Backend}.








End Stranded.

(** ** Example: the job runs while an overdue message is queued *)
Module ExpiryExamples.

#[local] Existing Instance demo_errors.
#[local] Existing Instance demo_phone.
#[local] Existing Instance demo_debug.
#[local] Existing Instance WebhookExamples.demo_mac.











#[local] Existing Instance demo_json.



End ExpiryExamples.
