(* ===== verification/Subscribers.v ===== *)
(** * sms-api/src/webhooks.rs: from a message's events to webhook attempts

    The subscriber that runs for every creation and update of a message: it
    stores one attempt for each endpoint of the message's app that asked for
    the event. *)

From S2P Require Import Prelude SentinelList Msisdn ProviderApi Schema ApiSchema Errors Sql Db DbLogic DbReads.
From S2P Require Import DbRef DemoData Webhook WorkerRouting AuditChain.

Definition message_event_type (state : MessageState.t) : option text :=
  match state with
  | MessageState.accepted => Some (lit "message.accepted")
  | MessageState.submitted => Some (lit "message.submitted")
  | MessageState.delivered => Some (lit "message.delivered")
  | MessageState.failed => Some (lit "message.failed")
  | MessageState.expired => Some (lit "message.expired")
  | MessageState.uncertain => Some (lit "message.uncertain")
  | MessageState.cancelled => Some (lit "message.cancelled")
  | MessageState.queued | MessageState.routed | MessageState.undelivered | MessageState.rejected => None
  end.

(** The enums as they are serialized. *)
Definition state_str (s : MessageState.t) : text :=
  match s with
  | MessageState.accepted => lit "accepted"
  | MessageState.queued => lit "queued"
  | MessageState.routed => lit "routed"
  | MessageState.submitted => lit "submitted"
  | MessageState.delivered => lit "delivered"
  | MessageState.undelivered => lit "undelivered"
  | MessageState.failed => lit "failed"
  | MessageState.expired => lit "expired"
  | MessageState.rejected => lit "rejected"
  | MessageState.cancelled => lit "cancelled"
  | MessageState.uncertain => lit "uncertain"
  end.

Definition operator_str (o : OperatorCode.t) : text :=
  match o with
  | OperatorCode.mtn => lit "mtn"
  | OperatorCode.orange => lit "orange"
  | OperatorCode.camtel => lit "camtel"
  | OperatorCode.nexttel => lit "nexttel"
  | OperatorCode.unknown => lit "unknown"
  end.

Section Subscriber.

Context `{E : CratestackErrors} `{PL : PhoneLib} `{J : JsonLib}.

(** [Decimal]'s [Display]. *)
Variable decimal_to_string : Decimal -> text.

(** The recipient as an endpoint sees it. *)
Definition shown_recipient (message : Message.t) (mask_recipient : bool) : text :=
  match Msisdn.parse message.(Message.msisdn) with
  | Err _ => message.(Message.msisdn)
  | Ok parsed => if mask_recipient then masked parsed else e164 parsed
  end.

(** [json!]: serde_json's map keeps its keys in order. *)
Definition message_payload (message : Message.t) (mask_recipient : bool) : text :=
  value_to_string (JObject (sort_entries [
    (lit "messageId", JString message.(Message.id));
    (lit "appId", JString message.(Message.appId));
    (lit "clientRef", from_option JString JNull message.(Message.clientRef));
    (lit "to", JString (shown_recipient message mask_recipient));
    (lit "state", JString (state_str message.(Message.state)));
    (lit "operator", JString (operator_str message.(Message.operator)));
    (lit "segments", JInt message.(Message.segments));
    (lit "costXaf", JString (decimal_to_string message.(Message.costXaf))) ])).

Definition subscribed (app_id event_type : text) : query TEndpoint :=
  mkQuery (t := TEndpoint)
    (fun e => bool_decide (e.(WebhookEndpoint.appId) = app_id) && e.(WebhookEndpoint.active) &&
              str_contains e.(WebhookEndpoint.eventTypes) (needle event_type)) [] None.

Definition attempt_input (source_event_id : text) (message : Message.t) (event_type : text) (now : Z)
  (endpoint : WebhookEndpoint.t) : CreateWebhookAttemptInput :=
  mkCreateAttempt endpoint.(WebhookEndpoint.id) source_event_id message.(Message.id) event_type
    (message_payload message endpoint.(WebhookEndpoint.maskRecipient)) (Some now).

Fixpoint enqueue_each (source_event_id : text) (message : Message.t) (event_type : text)
  (endpoints : list WebhookEndpoint.t) : prog (result unit CratestackError) :=
  match endpoints with
  | [] => Ret (Ok tt)
  | endpoint :: rest =>
      let! now := do Now in
      let! r := do (Create TAttempt (attempt_input source_event_id message event_type now endpoint)) in
      match r with
      | Ok _ => enqueue_each source_event_id message event_type rest
      | Err error =>
          if bool_decide (db_sqlstate error = Some UNIQUE_VIOLATION) then
            enqueue_each source_event_id message event_type rest
          else Ret (Err error)
      end
  end.

Definition enqueue_message_webhook_attempts (source_event_id : text) (message : Message.t)
  : prog (result unit CratestackError) :=
  if negb (is_null message.(Message.purgedAt)) then Ret (Ok tt)
  else
    match message_event_type message.(Message.state) with
    | None => Ret (Ok tt)
    | Some event_type =>
        let!? endpoints := do (FindMany TEndpoint (subscribed message.(Message.appId) event_type)) in
        enqueue_each source_event_id message event_type endpoints
    end.

End Subscriber.

(** ** What one event leaves *)
Section Enqueued.

Context `{E : CratestackErrors} `{PL : PhoneLib} `{J : JsonLib}.
Variable decimal_to_string : Decimal -> text.

(** An endpoint that asked for the event, on a list of event types as it is
    packed. *)
Definition asked (app_id event_type : text) (e : WebhookEndpoint.t) : Prop :=
  e.(WebhookEndpoint.appId) = app_id /\ e.(WebhookEndpoint.active) = true /\
  forall types, Forall packable types -> e.(WebhookEndpoint.eventTypes) = packed_of types ->
    event_type ∈ types.

(** The attempt stored for an endpoint. *)
Definition attempt_for (source_event_id : text) (message : Message.t) (event_type : text)
  (e : WebhookEndpoint.t) (c : CreateWebhookAttemptInput) : Prop :=
  cw_endpointId c = e.(WebhookEndpoint.id) /\ cw_aggregateId c = message.(Message.id) /\
  cw_eventType c = event_type /\ cw_sourceEventId c = source_event_id /\
  cw_payload c = message_payload decimal_to_string message e.(WebhookEndpoint.maskRecipient).

(** Every insert was accepted, or refused as already there. *)
Definition taken_or_there (e : event) : Prop :=
  match e with
  | Ev c r => match c in call R return R -> Prop with
              | Create _ _ => fun r => match r with
                                       | Ok _ => True
                                       | Err er => db_sqlstate er = Some UNIQUE_VIOLATION
                                       end
              | _ => fun _ => True
              end r
  end.

Definition enqueued (source_event_id : text) (message : Message.t) (r : result unit CratestackError)
  (tr : trace) : Prop :=
  match message.(Message.purgedAt), message_event_type message.(Message.state) with
  | None, Some event_type =>
      (is_ok r = false /\ creates TAttempt tr = []) \/
      exists endpoints done rest,
        Ev (FindMany TEndpoint (subscribed message.(Message.appId) event_type)) (Ok endpoints) ∈ tr /\
        Forall (asked message.(Message.appId) event_type) endpoints /\
        NoDup (WebhookEndpoint.id <$> endpoints) /\ endpoints = done ++ rest /\
        Forall2 (attempt_for source_event_id message event_type) done (reverse (creates TAttempt tr)) /\
        (is_ok r = true -> rest = [] /\ Forall taken_or_there tr)
  | _, _ => r = Ok tt /\ tr = []
  end.

Lemma event_type_packable state ty : message_event_type state = Some ty -> packable ty.
Proof.
  assert (forall s, is_null (message_event_type s) ||
    match message_event_type s with
    | Some t => negb (bool_decide (t = [])) && forallb (fun c => negb (is_whitespace c)) t
    | None => true
    end = true) as H by (intros []; vm_compute; reflexivity).
  intros Ht. specialize (H state). rewrite Ht in H. cbn in H. apply andb_true_iff in H as [Hne Hw].
  split; [by intros ->|]. apply Forall_forall. intros c Hc. apply list_elem_of_In in Hc.
  rewrite forallb_forall in Hw. specialize (Hw c Hc). by apply negb_true_iff in Hw.
Qed.

Lemma subscribed_asked app_id state ty e :
  message_event_type state = Some ty -> q_where (subscribed app_id ty) e = true -> asked app_id ty e.
Proof.
  intros Ht Hq. cbn in Hq. apply andb_true_iff in Hq as [[Ha Hact]%andb_true_iff Hs].
  apply bool_decide_eq_true in Ha. split_and!; [done | done|]. intros types Hf He. rewrite He in Hs.
  apply needle_in_packed in Hs; [done | done | by eapply event_type_packable].
Qed.

Lemma wp_enqueue_each ev message ty done rest tr :
  Forall2 (attempt_for ev message ty) done (reverse (creates TAttempt tr)) -> Forall taken_or_there tr ->
  wp (enqueue_each decimal_to_string ev message ty rest) tr (fun r tr' =>
    exists done' rest' l, tr' = l ++ tr /\ done ++ rest = done' ++ rest' /\
      Forall2 (attempt_for ev message ty) done' (reverse (creates TAttempt tr')) /\
      (is_ok r = true -> rest' = [] /\ Forall taken_or_there tr')).
Proof.
  revert done tr. induction rest as [|e rest IH]; intros dn tr Hd Hl.
  - exists dn, [], []. by split_and!.
  - apply wp_now. intros now. apply wp_any; [done|]. intros r. set (c := attempt_input _ _ _ _ _ _).
    assert (Forall2 (attempt_for ev message ty) (dn ++ [e])
      (reverse (creates TAttempt (Ev (Create TAttempt c) r :: Ev Now now :: tr)))) as Hd'.
    { rewrite creates_same, reverse_cons. apply Forall2_app; [exact Hd|]. by repeat constructor. }
    assert (taken_or_there (Ev (Create TAttempt c) r) ->
      wp (enqueue_each decimal_to_string ev message ty rest) (Ev (Create TAttempt c) r :: Ev Now now :: tr)
        (fun r' tr' => exists done' rest' l, tr' = l ++ tr /\ dn ++ e :: rest = done' ++ rest' /\
          Forall2 (attempt_for ev message ty) done' (reverse (creates TAttempt tr')) /\
          (is_ok r' = true -> rest' = [] /\ Forall taken_or_there tr'))) as Hrest.
    { intros Ht. eapply wp_mono; [|apply (IH (dn ++ [e])); [exact Hd' | by repeat constructor]].
      intros r' tr' (d' & s' & l & -> & Heq & Hf & Hok). exists d', s', (l ++ [Ev (Create TAttempt c) r; Ev Now now]).
      split_and!; [by rewrite <- app_assoc | by rewrite <- Heq, <- app_assoc | done | done]. }
    destruct r as [b|er]; [by apply Hrest|]. case_bool_decide as Hu; [by apply Hrest|].
    exists (dn ++ [e]), rest, [Ev (Create TAttempt c) (Err er); Ev Now now].
    split_and!; [done | by rewrite <- app_assoc | exact Hd' | done].
Qed.

Lemma wp_enqueue ev message :
  wp (enqueue_message_webhook_attempts decimal_to_string ev message) [] (enqueued ev message).
Proof.
  unfold enqueue_message_webhook_attempts, enqueued.
  destruct (Message.purgedAt message) as [p|]; [done|]. cbn [negb is_null].
  destruct (message_event_type (Message.state message)) as [ty|] eqn:Hty; [|done].
  apply wp_find_ok; [|by left]. intros endpoints Hq Hn _. set (tr := Ev _ _ :: _).
  eapply wp_mono; [|apply (wp_enqueue_each ev message ty [] endpoints tr); [constructor | by repeat constructor]].
  intros r tr' (dn & rest & l & -> & Heq & Hf & Hok). right. exists endpoints, dn, rest.
  split_and!; [apply elem_of_app; right; by left | | exact Hn | done | done | done].
  eapply Forall_impl; [exact Hq|]. intros e He. by eapply subscribed_asked.
Qed.

End Enqueued.

(** What a message's event leaves. A purged message, or one in a state that
    is no event, touches nothing. Otherwise the endpoints read are those of
    the message's app that are active and asked for exactly this event, and
    in order each is given one attempt, carrying the payload with the
    recipient masked or not as that endpoint asked; the run ends early only
    with an error, and an [Ok] means every one was stored or was there
    already. It never panics, whatever other writers do. *)
Theorem enqueue_policy `{E : CratestackErrors} `{B : !Backend} `{PL : PhoneLib} `{J : JsonLib}
  decimal_to_string ev message p tr w w' :
  world_ok w ->
  rtc step (enqueue_message_webhook_attempts decimal_to_string ev message, [], w) (p, tr, w') ->
  p <> Panic /\ forall r, p = Ret r -> enqueued decimal_to_string ev message r tr.
Proof.
  intros Hok Hr. pose proof (wp_enqueue decimal_to_string ev message) as Hwp.
  split; [by apply (wp_run_safe _ _ _ _ _ _ Hwp Hok Hr)|]. intros r ->.
  exact (wp_run _ _ _ _ _ _ _ Hwp Hok (valid_nil _) (Forall_nil_2 _) Hr).
Qed.

(** ** Example: two endpoints, one of which already has the attempt *)
Section Demo.

#[local] Existing Instance demo_errors.
#[local] Existing Instance demo_phone.
#[local] Existing Instance demo_json.

Definition subscriber_world : world :=
  insert_row (insert_row (insert_row empty_world
    TEndpoint (ex_endpoint (lit "ep1") WebhookDeliveryMode.sealed))
    TEndpoint (ex_endpoint (lit "ep2") WebhookDeliveryMode.hmac))
    TAttempt (ex_attempt (lit "a1") (lit "ep1") AttemptState.pending 0).

Definition subscriber_run : config (result unit CratestackError) :=
  ref_run accepting
    (enqueue_message_webhook_attempts (fun _ => lit "25.00") (lit "ev-1")
       (ex_message (lit "m1") MessageState.delivered)) [] subscriber_world.

Lemma subscriber_run_ok :
  is_null (run_result subscriber_run) = false /\
  length (creates TAttempt (run_trace subscriber_run)) = 2%nat /\
  size (w_tables subscriber_run.2 TAttempt) = 2%nat.
Proof. vm_compute. split_and!; reflexivity. Qed.

Lemma enqueue_policy_witness :
  length (creates TAttempt (run_trace subscriber_run)) = 2%nat /\
  exists r, run_result subscriber_run = Some r /\
    enqueued (fun _ => lit "25.00") (lit "ev-1") (ex_message (lit "m1") MessageState.delivered) r
      (run_trace subscriber_run).
Proof.
  split; [exact (proj1 (proj2 subscriber_run_ok))|].
  destruct (run_result subscriber_run) as [r|] eqn:Hr;
    [|destruct (eq_true_false_abs _ (f_equal is_null Hr) (proj1 subscriber_run_ok))].
  exists r. split; [done|].
  exact (proj2 (@enqueue_policy _ (ref_backend accepting) _ _ (fun _ => lit "25.00") (lit "ev-1")
    (ex_message (lit "m1") MessageState.delivered) _ _ subscriber_world _
    (insert_row_ok _ _ _ (insert_row_ok _ _ _ (insert_row_ok _ _ _ empty_world_ok)))
    (ref_run_done accepting _ [] subscriber_world r Hr)) r eq_refl).
Defined.

End Demo.
