(* ===== verification/Cache.v ===== *)
(** * sms-api: the TTL cache (cache.rs)

    [TtlCache] is a map from a key to a value and the instant it was fetched,
    behind a lock; the locked sections are [get] and the final [insert] of
    [get_or_fetch], and anything may happen between the two (the fetch awaits).
    The cache is proved to refine a log of everything ever fetched; the
    programs of the API use it through the calls [CacheGet] and [CachePut]. *)

From S2P Require Import Prelude Schema ApiSchema Errors Db DbLogic.

Section TtlCache.

Context {K V : Type} `{Countable K}.

Record TtlCache := mkCache {
  tc_ttl : Z;
  tc_entries : gmap K (V * Z) }.

Definition cache_new (ttl : Z) : TtlCache := mkCache ttl ∅.

(** [Instant::elapsed] is 0 when the clock reads earlier than the instant. *)
Definition elapsed (now fetched_at : Z) : Z := Z.max 0 (now - fetched_at).

Definition cache_get (c : TtlCache) (now : Z) (key : K) : option V :=
  match tc_entries c !! key with
  | Some (value, fetched_at) => if elapsed now fetched_at <? tc_ttl c then Some value else None
  | None => None
  end.

Definition cache_insert (c : TtlCache) (now : Z) (key : K) (value : V) : TtlCache :=
  mkCache (tc_ttl c) (<[key := (value, now)]> (tc_entries c)).

(** ** The abstract cache: a log of fetches, latest first *)
Record fetched := mkFetched { f_key : K; f_value : V; f_at : Z }.

Definition log_get (ttl : Z) (log : list fetched) (now : Z) (key : K) : option V :=
  match List.find (fun f => bool_decide (f_key f = key)) log with
  | Some f => if elapsed now (f_at f) <? ttl then Some (f_value f) else None
  | None => None
  end.

(** The locked sections of any number of requests, in the order they took the
    lock, each with the reading of the clock. *)
Inductive access := Get (now : Z) (key : K) | Insert (now : Z) (key : K) (value : V).

Fixpoint run_cache (c : TtlCache) (l : list access) : list (option V) :=
  match l with
  | [] => []
  | Get now key :: r => cache_get c now key :: run_cache c r
  | Insert now key value :: r => run_cache (cache_insert c now key value) r
  end.

Fixpoint run_log (ttl : Z) (log : list fetched) (l : list access) : list (option V) :=
  match l with
  | [] => []
  | Get now key :: r => log_get ttl log now key :: run_log ttl log r
  | Insert now key value :: r => run_log ttl (mkFetched key value now :: log) r
  end.

(** The map holds the latest fetch of every key. *)
Definition represents (log : list fetched) (c : TtlCache) : Prop :=
  forall key, tc_entries c !! key =
    (fun f => (f_value f, f_at f)) <$> List.find (fun f => bool_decide (f_key f = key)) log.

Lemma represents_get log c now key :
  represents log c -> cache_get c now key = log_get (tc_ttl c) log now key.
Proof.
  intros Hr. unfold cache_get, log_get. rewrite Hr. by destruct (List.find _ log).
Qed.

Lemma represents_insert log c now key value :
  represents log c -> represents (mkFetched key value now :: log) (cache_insert c now key value).
Proof.
  intros Hr k. cbn [List.find cache_insert tc_entries f_key].
  destruct (bool_decide_reflect (key = k)) as [<-|Hne].
  - by rewrite lookup_insert_eq.
  - rewrite lookup_insert_ne by done. apply Hr.
Qed.

Lemma run_cache_represents log c l :
  represents log c -> run_cache c l = run_log (tc_ttl c) log l.
Proof.
  revert log c. induction l as [|[now key|now key value] l IH]; intros log c Hr; cbn; [done| |].
  - by rewrite (represents_get log) by done; f_equal; apply IH.
  - rewrite (IH (mkFetched key value now :: log)) by (by apply represents_insert). done.
Qed.

(** What the log answers was fetched for that key, last of all, and less than
    the time to live ago. *)
Lemma log_get_Some ttl log now key v :
  log_get ttl log now key = Some v ->
  exists newer f older, log = newer ++ f :: older /\
    f_key f = key /\ f_value f = v /\ now - f_at f < ttl /\
    Forall (fun g => f_key g <> key) newer.
Proof.
  unfold log_get. destruct (List.find _ log) as [f|] eqn:Hf; [|done].
  destruct (Z.ltb_spec (elapsed now (f_at f)) ttl) as [Hlt|]; [|done]. intros [= <-].
  revert Hf. induction log as [|g log IH]; [done|]. cbn [List.find].
  case_bool_decide as Hg.
  - intros [= <-]. exists [], g, log. split_and!; [done | done | done | unfold elapsed in Hlt; lia | done].
  - intros Hf. destruct (IH Hf) as (newer & f' & older & -> & ? & ? & ? & ?).
    exists (g :: newer), f', older. split_and!; try done. by constructor.
Qed.

(** The fetches of a sequence of accesses, latest first. *)
Fixpoint inserts (log : list fetched) (l : list access) : list fetched :=
  match l with
  | [] => log
  | Get _ _ :: r => inserts log r
  | Insert now key value :: r => inserts (mkFetched key value now :: log) r
  end.

Lemma run_log_app ttl log l l' :
  run_log ttl log (l ++ l') = run_log ttl log l ++ run_log ttl (inserts log l) l'.
Proof.
  revert log. induction l as [|[now key|now key value] l IH]; intros log; cbn; [done| |];
    by rewrite IH.
Qed.

End TtlCache.

Arguments TtlCache K V {_ _}.
Arguments fetched K V : clear implicits.
Arguments access K V : clear implicits.

(** The cache refines the log of everything fetched. Whatever the order in
    which any number of requests read and fill it, every read of a new cache
    answers exactly as the log does: and an answer is the value most recently
    stored for that very key, stored less than the time to live before. *)
Theorem ttl_cache_refines_log {K V} `{Countable K} (ttl : Z) (l : list (access K V)) :
  run_cache (cache_new ttl) l = run_log ttl [] l /\
  forall now key v, last (run_cache (cache_new ttl) (l ++ [Get now key])) = Some (Some v) ->
    exists newer f older, inserts [] l = newer ++ f :: older /\
      f_key f = key /\ f_value f = v /\ now - f_at f < ttl /\
      Forall (fun g => f_key g <> key) newer.
Proof.
  split.
  - by rewrite (run_cache_represents []).
  - intros now key v. rewrite (run_cache_represents []) by done. rewrite run_log_app. cbn [run_log].
    rewrite last_snoc. intros [= Hv]. by apply log_get_Some in Hv.
Qed.

Lemma ttl_cache_refines_log_witness :
  run_log 60 [] [Get 0 1; Insert 5 1 (lit "a")] = [None] /\
  exists newer f older, inserts [] [Get 0 1; Insert 5 1 (lit "a")] = newer ++ f :: older /\
    f_key f = 1 /\ f_value f = lit "a" /\ 64 - f_at f < 60 /\
    Forall (fun g => f_key g <> 1) newer.
Proof.
  destruct (ttl_cache_refines_log 60 [Get 0 1; Insert 5 1 (lit "a")]) as [He Hf]. split.
  - rewrite <- He. reflexivity.
  - apply (Hf 64 1 (lit "a")). vm_compute. reflexivity.
Defined.

(** ** [get_or_fetch] in a program *)
Section GetOrFetch.

Context `{E : CratestackErrors}.

Definition get_or_fetch (c : cache) (key : cache_key c)
  (fetch : cache_key c -> prog (result (cache_val c) CratestackError))
  : prog (result (cache_val c) CratestackError) :=
  let! hit := do (CacheGet c key) in
  match hit with
  | Some value => Ret (Ok value)
  | None =>
      let!? value := fetch key in
      let! _ := do (CachePut c key value) in
      Ret (Ok value)
  end.

(** What is cached and what is fetched meet the same postcondition, and what
    is fetched is fit for the cache. *)
Lemma wp_get_or_fetch c key fetch tr Q :
  (forall v, cache_wf c key v -> Q (Ok v) (Ev (CacheGet c key) (Some v) :: tr)) ->
  wp (fetch key) (Ev (CacheGet c key) None :: tr) (fun r tr' =>
    match r with
    | Ok v => cache_wf c key v /\ Q (Ok v) (Ev (CachePut c key v) tt :: tr')
    | Err e => Q (Err e) tr'
    end) ->
  wp (get_or_fetch c key fetch) tr Q.
Proof.
  intros Hhit Hf. unfold get_or_fetch. apply wp_do; [done|]. intros [v|] Hr.
  - apply Hhit. by apply Hr.
  - apply wp_ok_bind. eapply wp_mono; [|exact Hf]. intros [v|e] tr'; [|done].
    intros [Hwf HQ]. split; [done|]. by intros [] _.
Qed.

End GetOrFetch.
