(* ===== verification/Rbac.v ===== *)
(** * sms-api: who a request acts as, and what it may do

    The authenticated context and the permission check (rbac.rs), how a
    context is built from a principal (auth.rs), the guards in front of
    single routes (owner_grant.rs, pair_scope.rs, hmac_gate.rs,
    keypair_gate.rs) and the composition check (composition.rs).

    A guard is middleware: it lets the request through ([Pass]) or answers it
    with an error ([Refuse]).  Decoding a request body is the framework's;
    what a guard decodes is an argument ([Decoders]). *)

From S2P Require Import Prelude SentinelList Schema ApiSchema Errors Db DbLogic WebhookClaim.
From S2P Require Import Webhook WorkerRouting.

#[local] Set Warnings "-register-all".

(** The variants of cratestack's [Value] the code matches on. *)
Inductive Value := VNull | VString (s : text) | VList (l : list Value) | VOtherValue.

Record CratestackContext := mkContext {
  auth_fields : list (text * Value);
  extensions : list (text * Value);
  request_id : option text }.

Definition assoc (name : text) (l : list (text * Value)) : option Value :=
  snd <$> List.find (fun kv => bool_decide (kv.1 = name)) l.

Definition auth_field (ctx : CratestackContext) (name : text) : option Value :=
  assoc name (auth_fields ctx).

Definition insert_extension (name : text) (v : Value) (ctx : CratestackContext) : CratestackContext :=
  mkContext (auth_fields ctx) ((name, v) :: extensions ctx) (request_id ctx).

Definition with_request_id (id : text) (ctx : CratestackContext) : CratestackContext :=
  mkContext (auth_fields ctx) (extensions ctx) (Some id).

(** A claim read as a string, [None] for anything else. *)
Definition string_field (ctx : CratestackContext) (name : text) : option text :=
  match auth_field ctx name with Some (VString s) => Some s | _ => None end.

(** [str::eq_ignore_ascii_case]. *)
Definition eq_ignore_ascii_case (a b : text) : bool :=
  bool_decide (to_ascii_uppercase <$> a = to_ascii_uppercase <$> b).

(** ** rbac.rs *)
Definition rbac_holds (perms : list text) (scope : option text) (permission : text) : bool :=
  existsb (fun p => bool_decide (p = permission)) perms ||
  match scope with Some s => contains s permission | None => false end.

Definition context_perms (ctx : CratestackContext) : list text :=
  match assoc (lit "perms") (extensions ctx) with
  | Some (VList items) =>
      omap (fun item => match item with VString p => Some p | _ => None end) items
  | _ => []
  end.

Definition context_scope (ctx : CratestackContext) : option text :=
  match assoc (lit "scope") (extensions ctx) with Some (VString s) => Some s | _ => None end.

Definition path_step (t a : text) : bool :=
  (starts_with t [123] && match last t with Some c => c =? 125 | None => false end)
  || bool_decide (t = a).

Fixpoint match_segments (template actual : list text) : bool :=
  match template, actual with
  | t :: template', a :: actual' => if path_step t a then match_segments template' actual' else false
  | [], [] => true
  | _, _ => false
  end.

Definition path_matches (template actual : text) : bool :=
  match_segments (split_on 47 template) (split_on 47 actual).

Inductive Method := GET | HEAD | POST | PUT | PATCH | DELETE | OtherMethod.

#[export] Instance Method_eq_dec : EqDecision Method.
Proof. solve_decision. Defined.

Record RoutePermission := mkRoutePermission {
  rp_method : Method;
  rp_path : text;
  rp_permission : text }.

Definition applies_to (r : RoutePermission) (method : Method) (path : text) : bool :=
  let same_method := bool_decide (rp_method r = method) ||
    (bool_decide (rp_method r = GET) && bool_decide (method = HEAD)) in
  same_method && path_matches (rp_path r) path.

(** ** auth.rs: principals *)
Inductive PrincipalKind := KUser | KApp.

Definition kind_str (k : PrincipalKind) : text :=
  match k with KUser => lit "user" | KApp => lit "app" end.

Record Principal := mkPrincipal {
  pr_sub : text;
  pr_kind : PrincipalKind;
  pr_role : text;
  pr_app_id : text }.

Record Grants := mkGrants { message_read : bool; opt_out_read : bool }.

Definition MESSAGE_READ_PERMISSION : text := lit "sms:read".
Definition OPT_OUT_READ_PERMISSION : text := lit "optout:read".
Definition OPT_OUT_MANAGE_PERMISSION : text := lit "optout:manage".

Definition grants_of (perms : list text) (scope : Value) : Grants :=
  let scope := match scope with VString s => Some s | _ => None end in
  mkGrants (rbac_holds perms scope MESSAGE_READ_PERMISSION)
    (rbac_holds perms scope OPT_OUT_READ_PERMISSION ||
     rbac_holds perms None OPT_OUT_MANAGE_PERMISSION).

Definition into_context_granting (p : Principal) (g : Grants) : CratestackContext :=
  let claim (granted : bool) := VString (if granted then lit "granted" else lit "denied") in
  mkContext
    [ (lit "sub", VString (pr_sub p)); (lit "kind", VString (kind_str (pr_kind p)));
      (lit "role", VString (pr_role p)); (lit "appId", VString (pr_app_id p));
      (lit "messageRead", claim (message_read g)); (lit "optOutRead", claim (opt_out_read g)) ]
    [] None.

Definition into_context (p : Principal) : CratestackContext :=
  into_context_granting p (mkGrants false false).

Inductive Standing := SApp (app : AppStanding) | SUser (user : UserStanding).

Definition context_for (standing : Standing) : CratestackContext :=
  let '(principal, perms, scope) :=
    match standing with
    | SApp app =>
        (mkPrincipal (as_client_id app) KApp (lit "app") (as_app_id app), [], VString (as_scopes app))
    | SUser person =>
        (mkPrincipal (us_user_id person) KUser (us_role person) [], us_perms person, VNull)
    end in
  let ctx := into_context_granting principal (grants_of perms scope) in
  insert_extension (lit "scope") scope
    (insert_extension (lit "perms") (VList (VString <$> perms)) ctx).

Definition system_context (sub : text) : CratestackContext :=
  into_context (mkPrincipal sub KApp (lit "system") []).

Definition DEVICE_ONLY_ROLES : list text := [lit "owner"; lit "admin"].

Definition DEVICE_REQUIRED : text :=
  lit "this account's role acts only from a paired console key; a signed-in session cannot carry it".

(** ** Middleware

    A [VerifiedSigner] is what the envelope leaves on a request whose signature
    it has checked: the key's thumbprint and its algorithm ([None] for an
    identifier [CoseAlg::from_id] does not know). *)
Inductive CoseAlg := Ed25519 | Esp256 | OtherAlg.

Record VerifiedSigner := mkSigner {
  vs_thumbprint : list Z;
  vs_alg : option CoseAlg }.

Record ApiRequest := mkApiRequest {
  rq_method : Method;
  rq_path : text;
  rq_headers : list (text * list Z);
  rq_payload : option (list Z);
  rq_signer : option VerifiedSigner;
  rq_bearer : option Standing;
  rq_principal : option text }.

Definition header_values (r : ApiRequest) (name : text) : list (list Z) :=
  snd <$> List.filter (fun kv => bool_decide (kv.1 = name)) (rq_headers r).

(** What a guard's decoder gives for a request's headers and body: the fields
    the guard looks at. An [Update] leaves a field it does not name unset. *)
Record EndpointUpdate := mkEndpointUpdate {
  eu_deliveryMode : option WebhookDeliveryMode.t;
  eu_secret : option (option text);
  eu_prevSecret : option (option text) }.

Section Guards.

Context `{E : CratestackErrors}.
Context `{UD : UnicodeDebug}.

Definition require_permission (ctx : CratestackContext) (required : text)
  : result unit CratestackError :=
  if rbac_holds (context_perms ctx) (context_scope ctx) required then Ok tt
  else Err (Forbidden (lit "missing required permission " ++ debug_str required)).

Definition refuse_device_only_role (person : UserStanding) : result unit CratestackError :=
  if bool_decide (us_role person ∈ DEVICE_ONLY_ROLES) then Err (Forbidden DEVICE_REQUIRED) else Ok tt.

Inductive gate := Pass (r : ApiRequest) | Refuse (e : CratestackError).

(** [enforce_route_permission]: the first rule that applies decides; the
    context is what authenticating the request gives. *)
Definition enforce_route_permission (requirements : list RoutePermission)
  (authenticate : ApiRequest -> prog (result CratestackContext CratestackError)) (r : ApiRequest)
  : prog gate :=
  match List.find (fun q => applies_to q (rq_method r) (rq_path r)) requirements with
  | None => Ret (Pass r)
  | Some requirement =>
      let! ctx := authenticate r in
      match ctx with
      | Err error => Ret (Refuse error)
      | Ok ctx =>
          match require_permission ctx (rp_permission requirement) with
          | Err error => Ret (Refuse error)
          | Ok _ => Ret (Pass r)
          end
      end
  end.

(** What the framework generates from the schema: the decoder of each guarded
    input, and the routes there are. *)
Class Decoders := {
  decode_create_user : list (text * list Z) -> list Z -> result text CratestackError;
  decode_update_user : list (text * list Z) -> list Z -> result (option text) CratestackError;
  decode_create_client : list (text * list Z) -> list Z -> result text CratestackError;
  decode_update_client : list (text * list Z) -> list Z -> result (option text) CratestackError;
  decode_create_endpoint :
    list (text * list Z) -> list Z -> result WebhookDeliveryMode.t CratestackError;
  decode_update_endpoint : list (text * list Z) -> list Z -> result EndpointUpdate CratestackError;
  has_route : Method -> text -> bool;
  is_unsupported_media_type : CratestackError -> bool }.

Context `{DC : Decoders}.

Definition as_client_error (error : CratestackError) : CratestackError :=
  if is_unsupported_media_type error then error
  else match view error with
  | VBadRequest _ => error
  | _ => BadRequest (lit "request body could not be decoded")
  end.

Definition method_str (m : Method) : text :=
  match m with
  | GET => lit "GET" | HEAD => lit "HEAD" | POST => lit "POST" | PUT => lit "PUT"
  | PATCH => lit "PATCH" | DELETE => lit "DELETE" | OtherMethod => lit "OTHER"
  end.

Inductive Shape := ShapeCreate | ShapeUpdate.

Record GuardedRoute := mkGuarded { gr_method : Method; gr_path : text; gr_shape : Shape }.

Definition find_guarded (routes : list GuardedRoute) (r : ApiRequest) : option GuardedRoute :=
  List.find (fun g => bool_decide (gr_method g = rq_method r) && path_matches (gr_path g) (rq_path r))
    routes.

(** [route_capabilities]: a guarded route the schema no longer generates is an
    internal error, never a silent pass. *)
Definition route_capabilities (guard : text) (route : GuardedRoute) : result unit CratestackError :=
  if has_route (gr_method route) (gr_path route) then Ok tt
  else Err (Internal (guard ++ lit ": no generated route " ++ method_str (gr_method route)
              ++ lit " " ++ gr_path route)).

(** The part the three body guards share: read the body, judge it, let the
    request on with the same bytes. *)
Definition guard_body (refuse : list (text * list Z) -> list Z -> result unit CratestackError)
  (r : ApiRequest) : gate :=
  match rq_payload r with
  | None => Refuse (BadRequest (lit "request body is too large or unreadable"))
  | Some body =>
      match refuse (rq_headers r) body with
      | Err error => Refuse error
      | Ok _ => Pass r
      end
  end.

(** *** owner_grant.rs *)
Definition OWNER_ROLE_KEY : text := lit "owner".

Definition OWNER_ROUTES : list GuardedRoute :=
  [ mkGuarded POST (lit "/users") ShapeCreate; mkGuarded PATCH (lit "/users/{id}") ShapeUpdate ].

Definition is_owner (ctx : CratestackContext) : bool :=
  bool_decide (string_field ctx (lit "role") = Some OWNER_ROLE_KEY).

Definition names_owner (role_key : text) : bool :=
  eq_ignore_ascii_case (trim role_key) OWNER_ROLE_KEY.

Definition refuse_owner_grant (route : GuardedRoute) (headers : list (text * list Z)) (body : list Z)
  : result unit CratestackError :=
  let? _ := route_capabilities (lit "owner-grant guard") route in
  let? role_key :=
    match gr_shape route with
    | ShapeCreate => map_err as_client_error (decode_create_user headers body)
    | ShapeUpdate =>
        let? k := map_err as_client_error (decode_update_user headers body) in Ok (default [] k)
    end in
  if names_owner role_key then Err (Forbidden (lit "only an owner may assign the owner role"))
  else Ok tt.

Definition enforce_owner_grant_guard
  (authenticate : ApiRequest -> prog (result CratestackContext CratestackError)) (r : ApiRequest)
  : prog gate :=
  match find_guarded OWNER_ROUTES r with
  | None => Ret (Pass r)
  | Some route =>
      let! ctx := authenticate r in
      match ctx with
      | Err error => Ret (Refuse error)
      | Ok ctx =>
          Ret (if is_owner ctx then Pass r else guard_body (refuse_owner_grant route) r)
      end
  end.

(** *** pair_scope.rs *)
Definition PAIR_SCOPE : text := lit "console:pair".

Definition names_pair_scope (scopes : text) : bool :=
  existsb (fun scope => eq_ignore_ascii_case scope PAIR_SCOPE) (unpack scopes).

Definition PAIR_ROUTES : list GuardedRoute :=
  [ mkGuarded POST (lit "/app_clients") ShapeCreate;
    mkGuarded PATCH (lit "/app_clients/{id}") ShapeUpdate ].

Definition refuse_pair_scope (scopes : text) : result unit CratestackError :=
  if names_pair_scope scopes
  then Err (Forbidden (PAIR_SCOPE ++ lit " is granted only by `sms-gateway register-client`"))
  else Ok tt.

Definition refuse_pair_grant (route : GuardedRoute) (headers : list (text * list Z)) (body : list Z)
  : result unit CratestackError :=
  let? _ := route_capabilities (lit "pair-scope guard") route in
  let? scopes :=
    match gr_shape route with
    | ShapeCreate => map_err as_client_error (decode_create_client headers body)
    | ShapeUpdate =>
        let? s := map_err as_client_error (decode_update_client headers body) in Ok (default [] s)
    end in
  refuse_pair_scope scopes.

Definition enforce_pair_scope_guard (r : ApiRequest) : gate :=
  match find_guarded PAIR_ROUTES r with
  | None => Pass r
  | Some route => guard_body (refuse_pair_grant route) r
  end.

(** *** hmac_gate.rs *)
Definition AUTH_METHOD_DISABLED : text := lit "auth_method_disabled".

Definition hmac_require (h : HmacWebhooks) (what : text) : result unit CratestackError :=
  match h with
  | Permitted => Ok tt
  | HmacDisabled =>
      Err (Validation (AUTH_METHOD_DISABLED
        ++ lit ": this deployment does not permit hmac_webhooks (auth.methods), so "
        ++ what ++ lit ". Use a sealed endpoint"))
  end.

Definition HMAC_ROUTES : list GuardedRoute :=
  [ mkGuarded POST (lit "/webhook_endpoints") ShapeCreate;
    mkGuarded PATCH (lit "/webhook_endpoints/{id}") ShapeUpdate ].

Definition sets_secret (s : option (option text)) : bool :=
  match s with Some (Some _) => true | _ => false end.

Definition refuse_hmac_body (route : GuardedRoute) (headers : list (text * list Z)) (body : list Z)
  : result unit CratestackError :=
  let? _ := route_capabilities (lit "hmac gate") route in
  let? sets_hmac :=
    match gr_shape route with
    | ShapeCreate =>
        let? m := map_err as_client_error (decode_create_endpoint headers body) in
        Ok (bool_decide (m = WebhookDeliveryMode.hmac))
    | ShapeUpdate =>
        let? u := map_err as_client_error (decode_update_endpoint headers body) in
        Ok (bool_decide (eu_deliveryMode u = Some WebhookDeliveryMode.hmac)
            || sets_secret (eu_secret u) || sets_secret (eu_prevSecret u))
    end in
  if sets_hmac then
    hmac_require HmacDisabled
      (match gr_shape route with
       | ShapeCreate => lit "an hmac endpoint cannot be created"
       | ShapeUpdate => lit "an endpoint cannot be given an hmac mode or a signing secret"
       end)
  else Ok tt.

Definition enforce_hmac_gate (hmac : HmacWebhooks) (r : ApiRequest) : gate :=
  if is_permitted hmac then Pass r
  else match find_guarded HMAC_ROUTES r with
  | None => Pass r
  | Some route => guard_body (refuse_hmac_body route) r
  end.

Definition count_hmac_endpoints : prog (result Z CratestackError) :=
  do (Count TEndpoint
        (fun e => bool_decide (e.(WebhookEndpoint.deliveryMode) = WebhookDeliveryMode.hmac))).

(** [HmacBoot]: what the process reports at start. *)
Definition hmac_boot_read (hmac : HmacWebhooks)
  : prog (result (HmacWebhooks * Z) CratestackError) :=
  let!? count := count_hmac_endpoints in Ret (Ok (hmac, count)).

Definition hmac_boot_is_warning (b : HmacWebhooks * Z) : bool :=
  negb (is_permitted b.1) && (0 <? b.2).

(** *** keypair_gate.rs *)
Inductive Keypair := KeypairPermitted | KeypairDisabled.

Definition keypair_is_permitted (k : Keypair) : bool :=
  match k with KeypairPermitted => true | KeypairDisabled => false end.

Definition REGISTRATION_ROUTES : list (text * text) :=
  [ (lit "/$procs/registerAppClientKey",
     lit "a signing key cannot be registered; register a machine client with provision-client");
    (lit "/$procs/registerConsoleKey",
     lit "a console key cannot be paired; pairing a console returns with VSA-5") ].

Definition keypair_require (k : Keypair) (what : text) : result unit CratestackError :=
  match k with
  | KeypairPermitted => Ok tt
  | KeypairDisabled =>
      Err (Validation (AUTH_METHOD_DISABLED
        ++ lit ": this deployment does not permit keypair (auth.methods), so " ++ what))
  end.

Definition enforce_keypair_gate (k : Keypair) (r : ApiRequest) : gate :=
  if keypair_is_permitted k || negb (bool_decide (rq_method r = POST)) then Pass r
  else match List.find (fun pw => bool_decide (pw.1 = rq_path r)) REGISTRATION_ROUTES with
  | None => Pass r
  | Some (_, what) =>
      match keypair_require k what with
      | Ok _ => Pass r
      | Err error => Refuse error
      end
  end.

(** ** composition.rs *)
Definition COMPOSE_PERMISSION : text := lit "sms:send".
Definition OPERATIONS : list text := [lit "send"; lit "preview"].

Definition is_sha256_hex (s : text) : bool :=
  (byte_len s =? 64) &&
  forallb (fun b => is_ascii_digit b || ((97 <=? b) && (b <=? 102))) (as_bytes s).

Record CompositionAuthorization := mkComposition {
  ca_userId : text;
  ca_role : text;
  ca_operation : text;
  ca_inputSha256 : text }.

Definition authorize (ctx : CratestackContext) (operation inputSha256 : text)
  : result CompositionAuthorization CratestackError :=
  if negb (bool_decide (string_field ctx (lit "kind") = Some (kind_str KUser))) then
    Err (Forbidden (lit "authorizeComposition is for a signed-in person only"))
  else
    let? _ := require_permission ctx COMPOSE_PERMISSION in
    if negb (bool_decide (operation ∈ OPERATIONS)) then
      Err (Validation (lit "operation must be `send` or `preview`"))
    else if negb (is_sha256_hex inputSha256) then
      Err (Validation (lit "inputSha256 must be 64 lowercase hexadecimal digits"))
    else match string_field ctx (lit "sub"), string_field ctx (lit "role") with
    | Some user_id, Some role => Ok (mkComposition user_id role operation inputSha256)
    | _, _ => Err (Unauthorized (lit "the caller names no person"))
    end.

End Guards.
