(* ===== verification/Signers.v ===== *)
(** * sms-api: who is calling

    The signer directory (signers.rs): what a verified signature or a verified
    token stands for, read from rows, with the standing of a client and of a
    person cached; the bearer door (bearer.rs); and [GatewayAuth::authenticate]
    (auth.rs), which turns the one verified credential of a request into the
    context every policy and permission check reads.

    The check of the signature itself and the check of a token
    ([BearerVerifier]) happen before: a verified signer is a field of the
    request, and a token's verifier is an argument. *)

From S2P Require Import Prelude SentinelList Schema ApiSchema Errors Db DbLogic DbReads DbRef.
From S2P Require Import WorkerRouting WebhookClaim Webhook Cache Rbac.

(** [hex::encode] of a thumbprint is [hex_encode]. *)
Definition KID_HEX_LEN : Z := 16.
Definition STANDING_TTL : Z := 60000000.

Definition principal_of (s : Standing) : text :=
  match s with
  | SApp app => lit "client:" ++ as_client_id app
  | SUser user => lit "user:" ++ us_user_id user
  end.

Inductive BearerRefusal :=
| Malformed | MissingKid | UnknownKid | BadSignature | WrongIssuer | WrongAudience | TokenExpired
| NotYetValid | HumanToken | MachineToken | IdToken | SenderConstrained.

Inductive VerifiedBearer :=
| Machine (client_id : text) (scope : option text)
| Person (user_id client_id : text).

(** The scopes a token may use: granted to the client, registered for it, and
    named by the token when it names any; never the pairing scope. *)
Definition effective_scopes (granted registered : text) (claimed : option text) : text :=
  let registered := unpack registered in
  let kept := List.filter (fun scope =>
    negb (names_pair_scope scope)
    && bool_decide (scope ∈ registered)
    && match claimed with
       | None => true
       | Some claim => existsb (fun named => bool_decide (named = scope)) (unpack claim)
       end) (unpack granted) in
  match SentinelList.pack kept with Ok s => s | Err _ => [] end.

Definition bearer_token (headers : list (list Z)) : result text BearerRefusal :=
  match headers with
  | [value] =>
      match header_to_str value with
      | None => Err Malformed
      | Some t =>
          match split_once t [32] with
          | None => Err Malformed
          | Some (scheme, token) =>
              let token := trim token in
              if eq_ignore_ascii_case scheme (lit "bearer") && negb (bool_decide (token = []))
              then Ok token else Err Malformed
          end
      end
  | _ => Err Malformed
  end.

Definition MAX_INBOUND_REQUEST_ID_LEN : Z := 200.

Section Directory.

Context `{E : CratestackErrors}.
Context `{UD : UnicodeDebug}.

Definition unknown : CratestackError := Unauthorized (lit "unknown signer").

Definition live_client_key (hex : text) : prog (result (option ClientKey.t) CratestackError) :=
  first_row (t := TClientKey)
    (mkQuery (t := TClientKey)
       (fun k => bool_decide (k.(ClientKey.thumbprint) = hex) && is_null k.(ClientKey.revokedAt))
       [] (Some 1)).

Definition live_console_key (hex : text) (now : Z)
  : prog (result (option ConsoleKey.t) CratestackError) :=
  first_row (t := TConsoleKey)
    (mkQuery (t := TConsoleKey)
       (fun k => bool_decide (k.(ConsoleKey.thumbprint) = hex) && is_null k.(ConsoleKey.revokedAt)
                 && (now <? k.(ConsoleKey.expiresAt)))
       [] (Some 1)).

Definition live_oauth_client (client_id : text) : prog (result OauthClient.t CratestackError) :=
  let!? row := first_row (t := TOauthClient)
    (mkQuery (t := TOauthClient)
       (fun c => bool_decide (c.(OauthClient.clientId) = client_id) && c.(OauthClient.active))
       [] (Some 1)) in
  Ret (ok_or row unknown).

Definition load_app (app_client_id : text) : prog (result AppStanding CratestackError) :=
  let!? row := first_row (t := TAppClient)
    (mkQuery (t := TAppClient)
       (fun c => bool_decide (c.(AppClient.id) = app_client_id) && c.(AppClient.active)
                 && is_null c.(AppClient.retiredAt))
       [] (Some 1)) in
  let!? client := lift (ok_or row unknown) in
  Ret (Ok (mkAppStanding client.(AppClient.clientId) client.(AppClient.appId)
             client.(AppClient.scopes))).

Definition refuse_reserved_role (role_key : text) : result unit CratestackError :=
  if bool_decide (role_key ∈ RESERVED_ROLE_KEYS) then Err unknown else Ok tt.

Definition load_user (user_id : text) : prog (result UserStanding CratestackError) :=
  let!? row := first_row (t := TUser)
    (mkQuery (t := TUser)
       (fun u => bool_decide (u.(User.id) = user_id) && u.(User.active)) [] (Some 1)) in
  let!? person := lift (ok_or row unknown) in
  let!? row := first_row (t := TRole)
    (mkQuery (t := TRole)
       (fun r => bool_decide (r.(Role.key) = person.(User.roleKey))) [] (Some 1)) in
  let!? role_row := lift (ok_or row unknown) in
  let!? _ := lift (refuse_reserved_role role_row.(Role.key)) in
  Ret (Ok (mkUserStanding person.(User.id) role_row.(Role.key)
             (unpack role_row.(Role.permissions)))).

Definition standing (signer : VerifiedSigner) (now : Z) : prog (result Standing CratestackError) :=
  let hex := hex_encode (vs_thumbprint signer) in
  match vs_alg signer with
  | Some Ed25519 =>
      let!? key := live_client_key hex in
      let!? key := lift (ok_or key unknown) in
      let!? app := get_or_fetch AppStandings key.(ClientKey.appClientId) load_app in
      Ret (Ok (SApp app))
  | Some Esp256 =>
      let!? key := live_console_key hex now in
      let!? key := lift (ok_or key unknown) in
      let!? user := get_or_fetch UserStandings key.(ConsoleKey.userId) load_user in
      Ret (Ok (SUser user))
  | _ => Ret (Err unknown)
  end.

Definition machine_standing (client_id : text) (claimed : option text)
  : prog (result Standing CratestackError) :=
  let!? client := live_oauth_client client_id in
  let!? app_client_id := lift (ok_or client.(OauthClient.appClientId) unknown) in
  let!? app := get_or_fetch AppStandings app_client_id load_app in
  if negb (bool_decide (as_client_id app = client_id)) then Ret (Err unknown)
  else Ret (Ok (SApp (mkAppStanding (as_client_id app) (as_app_id app)
    (effective_scopes (as_scopes app) client.(OauthClient.scopes) claimed)))).

Definition person_standing (user_id client_id : text) : prog (result Standing CratestackError) :=
  let!? console := live_oauth_client client_id in
  if negb (is_null console.(OauthClient.appClientId))
     || negb (bool_decide (console.(OauthClient.tokenEndpointAuthMethod) = ClientAuthMethod.none))
  then Ret (Err unknown)
  else
    let!? person := get_or_fetch UserStandings user_id load_user in
    let!? _ := lift (refuse_device_only_role person) in
    Ret (Ok (SUser person)).

Definition bearer_standing (bearer : VerifiedBearer) : prog (result Standing CratestackError) :=
  match bearer with
  | Machine client_id scope => machine_standing client_id scope
  | Person user_id client_id => person_standing user_id client_id
  end.

(** ** DirectoryKeys: the keys a message may be verified with

    A key of the crypto library is kept as the bytes it was made from;
    [CoseVerifyKey::ed25519] and [CoseVerifyKey::p256_sec1] are arguments. *)
Definition resolve (ed25519 p256_sec1 : list Z -> option (list Z)) (kid : list Z) (alg : CoseAlg)
  : prog (result (list (list Z)) CratestackError) :=
  let prefix := hex_encode kid in
  if negb (byte_len prefix =? KID_HEX_LEN) then Ret (Ok [])
  else match alg with
  | Ed25519 =>
      let!? rows := do (FindMany TClientKey (mkQuery (t := TClientKey)
        (fun k => starts_with k.(ClientKey.thumbprint) prefix && is_null k.(ClientKey.revokedAt))
        [] (Some 8))) in
      Ret (Ok (omap (fun row =>
        if (length row.(ClientKey.publicKey) =? 32)%nat then ed25519 row.(ClientKey.publicKey)
        else None) rows))
  | Esp256 =>
      let! now := do Now in
      let!? rows := do (FindMany TConsoleKey (mkQuery (t := TConsoleKey)
        (fun k => starts_with k.(ConsoleKey.thumbprint) prefix && is_null k.(ConsoleKey.revokedAt)
                  && (now <? k.(ConsoleKey.expiresAt)))
        [] (Some 8))) in
      Ret (Ok (omap (fun row => p256_sec1 row.(ConsoleKey.publicKey)) rows))
  | OtherAlg => Ret (Ok [])
  end.

(** ** auth.rs: [authenticate] *)
Definition AUTHORIZATION : text := lit "authorization".

Definition one_credential : CratestackError :=
  BadRequest (lit "a signed request cannot also carry an Authorization header: send one credential").

Definition request_id_from (headers : list (list Z)) : prog text :=
  let inbound :=
    v ← head headers;
    s ← header_to_str v;
    let s := trim s in
    if negb (bool_decide (s = [])) && (byte_len s <=? MAX_INBOUND_REQUEST_ID_LEN) then Some s else None in
  match inbound with
  | Some s => Ret s
  | None => do NewUuid
  end.

Definition authenticate (r : ApiRequest) : prog (result CratestackContext CratestackError) :=
  let authorization := negb (bool_decide (header_values r AUTHORIZATION = [])) in
  let! id := request_id_from (header_values r (lit "x-request-id")) in
  let!? st :=
    match rq_signer r, rq_bearer r with
    | Some _, Some _ => Ret (Err (Unauthorized (lit "more than one verified credential")))
    | Some signer, None =>
        if authorization then Ret (Err one_credential)
        else let! now := do Now in standing signer now
    | None, Some caller =>
        match caller with
        | SUser person => lift (let? _ := refuse_device_only_role person in Ok caller)
        | SApp _ => Ret (Ok caller)
        end
    | None, None => Ret (Err (Unauthorized (lit "no verified credential")))
    end in
  Ret (Ok (with_request_id id (context_for st))).

(** ** bearer.rs: the doors *)
Record ApiDoors := mkDoors {
  door_keypair : bool;
  door_bearer : option (text -> prog (result VerifiedBearer BearerRefusal)) }.

Definition doors_new (keypair : bool)
  (bearer : option (text -> prog (result VerifiedBearer BearerRefusal))) : option ApiDoors :=
  if negb keypair && is_null bearer then None else Some (mkDoors keypair bearer).

Variable UNAUTHENTICATED : text.

Definition unauthenticated : CratestackError := Unauthorized UNAUTHENTICATED.

Definition authenticate_bearer (verify : text -> prog (result VerifiedBearer BearerRefusal))
  (r : ApiRequest) : prog (result VerifiedBearer BearerRefusal) :=
  let!? token := lift (bearer_token (header_values r AUTHORIZATION)) in verify token.

Definition set_caller (r : ApiRequest) (s : Standing) : ApiRequest :=
  mkApiRequest (rq_method r) (rq_path r) (Rbac.rq_headers r) (rq_payload r) (rq_signer r)
    (Some s) (Some (principal_of s)).

Definition enforce_bearer_door (doors : ApiDoors) (r : ApiRequest) : prog gate :=
  match rq_signer r with
  | Some _ =>
      if negb (bool_decide (header_values r AUTHORIZATION = [])) then Ret (Refuse one_credential)
      else Ret (Pass r)
  | None =>
      match door_bearer doors with
      | None => Ret (Refuse unauthenticated)
      | Some checker =>
          let! claims := authenticate_bearer checker r in
          match claims with
          | Err _ => Ret (Refuse unauthenticated)
          | Ok claims =>
              let! s := bearer_standing claims in
              match s with
              | Ok s => Ret (Pass (set_caller r s))
              | Err error =>
                  match view error with
                  | VUnauthorized _ => Ret (Refuse unauthenticated)
                  | _ => Ret (Refuse error)
                  end
              end
          end
      end
  end.

End Directory.

(** ** What a standing rests on *)

Section Authenticated.

Context `{E : CratestackErrors}.
Context `{UD : UnicodeDebug}.

(** What the standing of a client or a person rests on: rows read during the
    request, of a client that is active and not retired, of a person who is
    active and of the role they have, which is not reserved; or what is cached
    under that very id. *)
Definition live_app (tr : trace) (id : text) (a : AppStanding) : Prop :=
  Ev (CacheGet AppStandings id) (Some a) ∈ tr \/
  exists c, known tr TAppClient c /\ c.(AppClient.id) = id /\ c.(AppClient.active) = true /\
    c.(AppClient.retiredAt) = None /\
    a = mkAppStanding c.(AppClient.clientId) c.(AppClient.appId) c.(AppClient.scopes).

Definition live_user (tr : trace) (id : text) (u : UserStanding) : Prop :=
  us_user_id u = id /\ (us_role u ∉ RESERVED_ROLE_KEYS) /\
  (Ev (CacheGet UserStandings id) (Some u) ∈ tr \/
   exists p role, known tr TUser p /\ p.(User.id) = id /\ p.(User.active) = true /\
     known tr TRole role /\ role.(Role.key) = p.(User.roleKey) /\
     u = mkUserStanding id role.(Role.key) (unpack role.(Role.permissions))).

Lemma live_app_app l tr id a : live_app tr id a -> live_app (l ++ tr) id a.
Proof.
  intros [?|(c & Hk & ?)]; [left; apply elem_of_app; by right|]. right. exists c.
  split; [by apply known_app | done].
Qed.

Lemma live_user_app l tr id u : live_user tr id u -> live_user (l ++ tr) id u.
Proof.
  intros (? & ? & [?|(p & role & Hk & ? & ? & Hr & ?)]); (split; [done|]; split; [done|]).
  - left. apply elem_of_app. by right.
  - right. exists p, role. split_and!; try done; [by apply known_app | by apply known_app | tauto | tauto].
Qed.

Lemma is_null_None {A} (o : option A) : is_null o = true -> o = None.
Proof. by destruct o. Qed.

Lemma wp_load_user id tr :
  wp (load_user id) tr (fun r tr' => forall v, r = Ok v -> live_user tr' id v).
Proof.
  unfold load_user. apply wp_ok_bind, wp_first_row; [|by intros|by intros].
  intros person rows [Hid Hact]%andb_true_iff _ Hk. apply bool_decide_eq_true in Hid.
  apply wp_ok_bind. cbn [wp lift ok_or]. apply wp_ok_bind, wp_first_row; [|by intros|by intros].
  intros role rows' Hkey _ Hk'. cbn [q_where] in Hkey. apply bool_decide_eq_true in Hkey.
  apply wp_ok_bind. cbn [wp lift ok_or]. unfold refuse_reserved_role.
  apply wp_ok_bind. cbn [wp lift]. case_bool_decide as Hr; [by intros|]. intros v [= <-].
  split; [done|]. split; [done|]. right. exists person, role.
  split_and!; try done; [by apply known_cons | by rewrite Hid].
Qed.

Lemma wp_load_app id tr :
  wp (load_app id) tr (fun r tr' => forall v, r = Ok v -> live_app tr' id v).
Proof.
  unfold load_app. apply wp_ok_bind, wp_first_row; [|by intros|by intros].
  intros c rows Hw _ Hk. cbn [q_where] in Hw. split_and_bool.
  match goal with H : is_null _ = true |- _ => apply is_null_None in H end.
  apply wp_ok_bind. cbn [wp lift ok_or]. intros v [= <-]. right. exists c. by split_and!.
Qed.

Lemma wp_user_standing id tr (Q : _ -> trace -> Prop) :
  (forall v l, live_user (l ++ tr) id v -> Q (Ok v) (l ++ tr)) ->
  (forall e l, Q (Err e) (l ++ tr)) ->
  wp (get_or_fetch UserStandings id load_user) tr Q.
Proof.
  intros Hok Herr. eapply wp_mono with (Q := fun r tr' =>
    (forall v, r = Ok v -> live_user tr' id v) /\ exists l, tr' = l ++ tr).
  - intros [v|e] tr' [Hv [l ->]]; [|apply Herr]. by apply Hok, Hv.
  - apply wp_extends, wp_get_or_fetch.
    + intros v [Hid Hr] ? [= <-]. split; [done|]. split; [done|]. left. by left.
    + eapply wp_mono; [|apply wp_load_user]. intros [v|e] tr' Hv; [|done].
      specialize (Hv v eq_refl). split; [by destruct Hv as (? & ? & _)|].
      intros ? [= <-]. by apply (live_user_app [_]).
Qed.

Lemma wp_app_standing id tr (Q : _ -> trace -> Prop) :
  (forall v l, live_app (l ++ tr) id v -> Q (Ok v) (l ++ tr)) -> (forall e l, Q (Err e) (l ++ tr)) ->
  wp (get_or_fetch AppStandings id load_app) tr Q.
Proof.
  intros Hok Herr. eapply wp_mono with (Q := fun r tr' =>
    (forall v, r = Ok v -> live_app tr' id v) /\ exists l, tr' = l ++ tr).
  - intros [v|e] tr' [Hv [l ->]]; [by apply Hok, Hv | apply Herr].
  - apply wp_extends, wp_get_or_fetch.
    + intros v _ ? [= <-]. left. by left.
    + eapply wp_mono; [|apply wp_load_app]. intros [v|e] tr' Hv; [|done].
      split; [done|]. intros ? [= <-]. by apply (live_app_app [_]), Hv.
Qed.

(** What a signature stands for: a key row, read during the request, that is
    not revoked and (for a person) has not expired, and the live standing of
    the client or person the key belongs to. *)
Definition backed (tr : trace) (signer : VerifiedSigner) (now : Z) (st : Standing) : Prop :=
  match st with
  | SApp a => vs_alg signer = Some Ed25519 /\
      exists key, known tr TClientKey key /\
        key.(ClientKey.thumbprint) = hex_encode (vs_thumbprint signer) /\
        key.(ClientKey.revokedAt) = None /\ live_app tr key.(ClientKey.appClientId) a
  | SUser u => vs_alg signer = Some Esp256 /\
      exists key, known tr TConsoleKey key /\
        key.(ConsoleKey.thumbprint) = hex_encode (vs_thumbprint signer) /\
        key.(ConsoleKey.revokedAt) = None /\ now < key.(ConsoleKey.expiresAt) /\
        live_user tr key.(ConsoleKey.userId) u
  end.

Lemma backed_app l tr signer now st : backed tr signer now st -> backed (l ++ tr) signer now st.
Proof.
  destruct st as [a|u]; intros [Ha (key & Hk & Hrest)]; split; try done; exists key;
    (split; [by apply known_app|]).
  - destruct Hrest as (? & ? & ?). split_and!; try done. by apply live_app_app.
  - destruct Hrest as (? & ? & ? & ?). split_and!; try done. by apply live_user_app.
Qed.

Lemma wp_standing signer now tr :
  wp (standing signer now) tr (fun r tr' => forall st, r = Ok st -> backed tr' signer now st).
Proof.
  unfold standing. destruct (vs_alg signer) as [[]|] eqn:Halg; try (by intros ? [=]).
  - apply wp_ok_bind. unfold live_client_key. apply (wp_first_row (t := TClientKey)); [|by intros|by intros].
    intros key rows [Hth Hrev]%andb_true_iff _ Hk. apply bool_decide_eq_true in Hth.
    apply is_null_None in Hrev. apply wp_ok_bind. cbn [wp lift ok_or].
    apply wp_ok_bind, wp_app_standing; [|by intros].
    intros v l Hl. cbn [wp]. intros st [= <-]. split; [done|]. exists key.
    split; [by apply known_app | done].
  - apply wp_ok_bind. unfold live_console_key. apply (wp_first_row (t := TConsoleKey)); [|by intros|by intros].
    intros key rows Hw _ Hk. cbn [q_where] in Hw. split_and_bool.
    match goal with H : is_null _ = true |- _ => apply is_null_None in H end.
    apply wp_ok_bind. cbn [wp lift ok_or]. apply wp_ok_bind, wp_user_standing; [|by intros].
    intros v l Hl. cbn [wp]. intros st [= <-]. split; [done|]. exists key.
    split; [by apply known_app | done].
Qed.

(** What a verified token stands for: an OAuth client that is active, read
    during the request, of the token's client id.  For a machine, the live
    client it is registered for, with the scopes granted to that client that
    are registered, that the token names if it names any, and that are not the
    pairing scope.  For a person, signed in through a public client of no app,
    their live standing, whose role is not for devices only. *)
Definition token_backed (tr : trace) (bearer : VerifiedBearer) (st : Standing) : Prop :=
  match bearer with
  | Machine client_id claimed => exists oauth id app scopes,
      known tr TOauthClient oauth /\ oauth.(OauthClient.clientId) = client_id /\
      oauth.(OauthClient.active) = true /\ oauth.(OauthClient.appClientId) = Some id /\
      live_app tr id app /\ as_client_id app = client_id /\
      st = SApp (mkAppStanding client_id (as_app_id app) scopes) /\
      forall s, s ∈ unpack scopes <-> s ∈ unpack (as_scopes app) /\ s ∈ unpack oauth.(OauthClient.scopes) /\
        names_pair_scope s = false /\ forall claim, claimed = Some claim -> s ∈ unpack claim
  | Person user_id client_id => exists oauth user,
      known tr TOauthClient oauth /\ oauth.(OauthClient.clientId) = client_id /\
      oauth.(OauthClient.active) = true /\ oauth.(OauthClient.appClientId) = None /\
      oauth.(OauthClient.tokenEndpointAuthMethod) = ClientAuthMethod.none /\
      live_user tr user_id user /\ (us_role user ∉ DEVICE_ONLY_ROLES) /\ st = SUser user
  end.

Lemma effective_scopes_unpack granted registered claimed :
  unpack (effective_scopes granted registered claimed) =
  List.filter (fun scope =>
    negb (names_pair_scope scope) && bool_decide (scope ∈ unpack registered)
    && match claimed with
       | None => true
       | Some claim => existsb (fun named => bool_decide (named = scope)) (unpack claim)
       end) (unpack granted).
Proof.
  unfold effective_scopes. set (kept := List.filter _ _).
  assert (Forall packable kept) as Hp.
  { apply Forall_forall. intros x Hx%list_elem_of_In. apply List.filter_In in Hx as [Hx _].
    apply list_elem_of_In in Hx. pose proof (unpack_packable granted) as Ha.
    rewrite Forall_forall in Ha. by apply Ha. }
  unfold SentinelList.pack. rewrite (pack_values_ok EMPTY kept) by done.
  by rewrite <- (unpack_packed_of kept Hp) at 2.
Qed.

Lemma effective_scopes_elem granted registered claimed s :
  s ∈ unpack (effective_scopes granted registered claimed) <->
  s ∈ unpack granted /\ s ∈ unpack registered /\ names_pair_scope s = false /\
  forall claim, claimed = Some claim -> s ∈ unpack claim.
Proof.
  rewrite effective_scopes_unpack, list_elem_of_In, List.filter_In, <- list_elem_of_In.
  rewrite !andb_true_iff, negb_true_iff, bool_decide_eq_true.
  assert (match claimed with
          | Some claim => existsb (fun named => bool_decide (named = s)) (unpack claim)
          | None => true
          end = true <-> forall claim, claimed = Some claim -> s ∈ unpack claim) as ->.
  { destruct claimed as [claim|]; [|done]. rewrite existsb_exists. split.
    - intros (x & Hx & He) ? [= <-]. apply bool_decide_eq_true in He as ->. by apply list_elem_of_In.
    - intros Hs. exists s. split; [by apply list_elem_of_In, Hs | by apply bool_decide_eq_true]. }
  tauto.
Qed.

Lemma wp_oauth_client client_id tr (Q : _ -> trace -> Prop) :
  (forall c l, known (l ++ tr) TOauthClient c -> c.(OauthClient.clientId) = client_id ->
     c.(OauthClient.active) = true -> Q (Ok c) (l ++ tr)) -> (forall e l, Q (Err e) (l ++ tr)) ->
  wp (live_oauth_client client_id) tr Q.
Proof.
  intros Hok Herr. unfold live_oauth_client.
  apply wp_ok_bind, (wp_first_row (t := TOauthClient)); cbn [wp ok_or].
  - intros x rows [Hc Ha]%andb_true_iff _ Hk. apply bool_decide_eq_true in Hc. by apply (Hok x [_]).
  - apply (Herr _ [_]).
  - intros e. apply (Herr _ [_]).
Qed.

Lemma wp_bearer_standing b tr :
  wp (bearer_standing b) tr (fun r tr' => forall st, r = Ok st -> token_backed tr' b st).
Proof.
  destruct b as [client_id scope|user_id client_id]; cbn [bearer_standing].
  - unfold machine_standing. apply wp_ok_bind, wp_oauth_client; [|by intros]. intros c l Hk Hid Ha.
    apply wp_ok_bind. destruct (OauthClient.appClientId c) as [id|] eqn:Hc; cbn [wp lift ok_or]; [|by intros].
    apply wp_ok_bind, wp_app_standing; [|by intros]. intros app l' Hl.
    case_bool_decide as He; [|by intros ? [=]]. cbn [negb wp]. intros st [= <-].
    eexists c, id, app, _. split; [by apply known_app|]. split_and!; try done; [by rewrite He|].
    intros s. apply effective_scopes_elem.
  - unfold person_standing. apply wp_ok_bind, wp_oauth_client; [|by intros]. intros c l Hk Hid Ha.
    destruct (OauthClient.appClientId c) as [id|] eqn:Hc; [by intros ? [=]|]. cbn [is_null negb orb].
    case_bool_decide as Hm; [|by intros ? [=]]. cbn [negb].
    apply wp_ok_bind, wp_user_standing; [|by intros].
    intros u l' Hl. apply wp_ok_bind. cbn [wp lift]. unfold refuse_device_only_role.
    case_bool_decide as Hd; [by intros ? [=]|]. cbn [wp]. intros st [= <-].
    exists c, u. split; [by apply known_app|]. by split_and!.
Qed.

(** What an authenticated request rests on: its one credential. *)
Definition vouched (tr : trace) (r : ApiRequest) (st : Standing) : Prop :=
  match rq_signer r, rq_bearer r with
  | Some signer, None =>
      header_values r AUTHORIZATION = [] /\
      exists now, Ev Now now ∈ tr /\ backed tr signer now st
  | None, Some caller =>
      st = caller /\ match st with SUser u => us_role u ∉ DEVICE_ONLY_ROLES | SApp _ => True end
  | _, _ => False
  end.

Lemma vouched_app l tr r st : vouched tr r st -> vouched (l ++ tr) r st.
Proof.
  unfold vouched. destruct (rq_signer r), (rq_bearer r); try done.
  intros [Ha (now & Hn & Hb)]. split; [done|]. exists now.
  split; [by apply elem_of_app; right | by apply backed_app].
Qed.

Lemma wp_request_id hs tr (Q : _ -> trace -> Prop) :
  (forall id l, Q id (l ++ tr)) -> wp (request_id_from hs) tr Q.
Proof.
  intros HQ. unfold request_id_from. destruct (_ ≫= _) as [s|]; cbn [wp do]; [apply (HQ s [])|].
  split; [done|]. intros id _. apply (HQ id [_]).
Qed.

Lemma wp_authenticate r tr :
  wp (authenticate r) tr (fun res tr' => forall ctx, res = Ok ctx ->
    exists st id, ctx = with_request_id id (context_for st) /\ vouched tr' r st).
Proof.
  unfold authenticate. apply wp_bind, wp_request_id. intros id l. unfold vouched.
  apply wp_ok_bind. destruct (rq_signer r) as [signer|], (rq_bearer r) as [caller|];
    cbn [wp]; try (by intros ? [=]).
  - case_bool_decide as Ha; cbn [negb wp]; [|by intros ? [=]].
    apply wp_now. intros now. eapply wp_mono; [|apply wp_extends, wp_standing].
    intros [st|e] tr' [Hst [l' ->]]; [|by intros ? [=]]. cbn [wp]. intros ctx [= <-].
    exists st, id. split; [done|]. split; [done|]. exists now.
    split; [|by apply Hst]. apply elem_of_app. right. by left.
  - destruct caller as [app|person]; cbn [wp lift].
    + intros ctx [= <-]. by exists (SApp app), id.
    + unfold refuse_device_only_role. case_bool_decide as Hd; cbn [rbind wp]; [by intros ? [=]|].
      intros ctx [= <-]. by exists (SUser person), id.
Qed.

End Authenticated.

(** ** What a context grants *)

(** The permissions a standing holds: a machine by its scopes, a person by
    their role. *)
Definition holds (st : Standing) (permission : text) : Prop :=
  match st with
  | SApp a => permission ∈ unpack (as_scopes a)
  | SUser u => permission ∈ us_perms u
  end.

Lemma context_perms_for st :
  context_perms (context_for st) = match st with SApp _ => [] | SUser u => us_perms u end.
Proof.
  destruct st as [a|u]; [reflexivity|].
  transitivity (omap (fun item => match item with VString p => Some p | _ => None end)
    (VString <$> us_perms u)); [reflexivity|].
  induction (us_perms u) as [|p l IH]; [reflexivity|]. rewrite fmap_cons. cbn. by rewrite IH.
Qed.

Lemma context_scope_for st :
  context_scope (context_for st) = match st with SApp a => Some (as_scopes a) | SUser _ => None end.
Proof. by destruct st. Qed.

Lemma rbac_holds_spec perms scope p :
  rbac_holds perms scope p = true <->
  p ∈ perms \/ exists s, scope = Some s /\ p ∈ unpack s.
Proof.
  unfold rbac_holds. rewrite orb_true_iff. f_equiv.
  - rewrite existsb_exists. split.
    + intros (x & Hx & He). apply bool_decide_eq_true in He as ->. by apply list_elem_of_In.
    + intros Hp. exists p. split; [by apply list_elem_of_In | by apply bool_decide_eq_true].
  - destruct scope as [s|]; [|split; [done | by intros (? & ? & _)]]. unfold contains. rewrite andb_true_iff, bool_decide_eq_true.
    split; [by intros [_ Hp]; exists s|]. intros (s' & [= <-] & Hp). split; [|done].
    apply negb_true_iff, bool_decide_eq_false. intros ->. pose proof (unpack_packable s) as Ha.
    rewrite Forall_forall in Ha. by destruct (Ha _ Hp).
Qed.

Lemma require_permission_holds `{E : CratestackErrors} `{UD : UnicodeDebug} id st p :
  is_ok (require_permission (with_request_id id (context_for st)) p) = true <-> holds st p.
Proof.
  unfold require_permission, context_perms, context_scope. cbn [extensions with_request_id].
  fold (context_perms (context_for st)). fold (context_scope (context_for st)).
  rewrite context_perms_for, context_scope_for.
  destruct (rbac_holds _ _ p) eqn:Hh; cbn [is_ok].
  - apply rbac_holds_spec in Hh. destruct st as [a|u]; cbn [holds].
    + destruct Hh as [[]%not_elem_of_nil|(s & [= <-] & Hs)]. done.
    + destruct Hh as [Hp|(s & [=] & _)]. done.
  - split; [done|]. intros Hst. exfalso. apply not_true_iff_false in Hh. apply Hh.
    apply rbac_holds_spec. destruct st as [a|u]; cbn [holds] in Hst; [right; by eexists | by left].
Qed.

Lemma context_role st :
  string_field (context_for st) (lit "role") =
  Some (match st with SApp _ => lit "app" | SUser u => us_role u end).
Proof. by destruct st. Qed.

(** What a token may use. A scope holds for a token exactly when it is
    granted to the client, registered for it, named by the token (when the
    token names any) and is not the pairing scope in any spelling. *)
Theorem effective_scopes_spec granted registered claimed s :
  contains (effective_scopes granted registered claimed) s = true <->
  s ∈ unpack granted /\ s ∈ unpack registered /\ names_pair_scope s = false /\
  forall claim, claimed = Some claim -> s ∈ unpack claim.
Proof.
  assert (contains (effective_scopes granted registered claimed) s = true <->
          s ∈ unpack (effective_scopes granted registered claimed)) as ->.
  { pose proof (rbac_holds_spec [] (Some (effective_scopes granted registered claimed)) s) as Hr.
    cbn [rbac_holds existsb orb] in Hr. rewrite Hr. split.
    - by intros [[]%not_elem_of_nil|(? & [= <-] & ?)].
    - intros Hs. right. by eexists. }
  apply effective_scopes_elem.
Qed.
