(* ===== verification/Router.v ===== *)
(** * sms-api: the layers in front of the generated router (router.rs)

    Which permission each generated route asks for, and the stack of layers a
    request passes before the generated router sees it.  The rate limiters, the
    idempotency store and the envelope itself are the framework's: they refuse
    a request or hand it on unchanged, and are left out here. *)

From S2P Require Import Prelude SentinelList Schema ApiSchema Errors Db DbLogic DbRef WorkerRouting.
From S2P Require Import ProviderApi DemoData WebhookClaim Webhook Cache Rbac Signers.

Definition PROVIDER_WRITE_ROUTES : list RoutePermission :=
  [ mkRoutePermission PATCH (lit "/providers/{id}") (lit "provider:update") ].

Definition JOB_READ_ROUTES : list RoutePermission :=
  [ mkRoutePermission GET (lit "/jobs") (lit "job:read");
    mkRoutePermission GET (lit "/jobs/{id}") (lit "job:read") ].

Definition PROVIDER_ROUTE_READ_ROUTES : list RoutePermission :=
  [ mkRoutePermission GET (lit "/providers") (lit "provider:read");
    mkRoutePermission GET (lit "/providers/{id}") (lit "provider:read");
    mkRoutePermission GET (lit "/routes") (lit "route:read");
    mkRoutePermission GET (lit "/routes/{id}") (lit "route:read") ].

Definition SENDER_AND_WEBHOOK_WRITE_ROUTES : list RoutePermission :=
  [ mkRoutePermission POST (lit "/sender_ids") (lit "sender:manage");
    mkRoutePermission PATCH (lit "/sender_ids/{id}") (lit "sender:manage");
    mkRoutePermission POST (lit "/sender_id_registrations") (lit "sender:manage");
    mkRoutePermission PATCH (lit "/sender_id_registrations/{id}") (lit "sender:manage");
    mkRoutePermission POST (lit "/webhook_endpoints") (lit "webhook:manage");
    mkRoutePermission PATCH (lit "/webhook_endpoints/{id}") (lit "webhook:manage");
    mkRoutePermission DELETE (lit "/webhook_endpoints/{id}") (lit "webhook:manage") ].

Definition MESSAGE_READ_ROUTES : list RoutePermission :=
  [ mkRoutePermission GET (lit "/messages") (lit "sms:read");
    mkRoutePermission GET (lit "/messages/{id}") (lit "sms:read");
    mkRoutePermission GET (lit "/delivery_receipts") (lit "sms:read");
    mkRoutePermission GET (lit "/delivery_receipts/{id}") (lit "sms:read");
    mkRoutePermission GET (lit "/message_parts") (lit "sms:read");
    mkRoutePermission GET (lit "/message_parts/{id}") (lit "sms:read") ].

Record ApiAuth `{E : CratestackErrors} := mkApiAuth {
  auth_hmac : HmacWebhooks;
  auth_doors : ApiDoors }.

Section Layers.

Context `{E : CratestackErrors}.
Context `{UD : UnicodeDebug}.
Context `{DC : !Decoders}.
Variable UNAUTHENTICATED : text.

(** One layer inside another: it sees the request the outer one lets on. *)
Definition then_layer (outer : prog gate) (inner : ApiRequest -> prog gate) : prog gate :=
  let! g := outer in
  match g with
  | Refuse e => Ret (Refuse e)
  | Pass r => inner r
  end.

Definition keypair_of (doors : ApiDoors) : Keypair :=
  if door_keypair doors then KeypairPermitted else KeypairDisabled.

Definition permission_layers : list (list RoutePermission) :=
  [ MESSAGE_READ_ROUTES; SENDER_AND_WEBHOOK_WRITE_ROUTES; PROVIDER_ROUTE_READ_ROUTES;
    JOB_READ_ROUTES; PROVIDER_WRITE_ROUTES ].

(** The layers a request with a settled caller meets, outermost first. *)
Definition router_layers (auth : ApiAuth) (r : ApiRequest) : prog gate :=
  then_layer (enforce_bearer_door UNAUTHENTICATED (auth_doors auth) r) (fun r =>
  then_layer (Ret (enforce_pair_scope_guard r)) (fun r =>
  then_layer (enforce_owner_grant_guard authenticate r) (fun r =>
  then_layer (enforce_route_permission MESSAGE_READ_ROUTES authenticate r) (fun r =>
  then_layer (enforce_route_permission SENDER_AND_WEBHOOK_WRITE_ROUTES authenticate r) (fun r =>
  then_layer (enforce_route_permission PROVIDER_ROUTE_READ_ROUTES authenticate r) (fun r =>
  then_layer (enforce_route_permission JOB_READ_ROUTES authenticate r) (fun r =>
  then_layer (enforce_route_permission PROVIDER_WRITE_ROUTES authenticate r) (fun r =>
  then_layer (Ret (enforce_hmac_gate (auth_hmac auth) r)) (fun r =>
  Ret (enforce_keypair_gate (keypair_of (auth_doors auth)) r)))))))))).

(** ** What passes *)
Definition passes (P : ApiRequest -> trace -> Prop) (g : gate) (tr : trace) : Prop :=
  forall r, g = Pass r -> P r tr.

Lemma wp_then p f tr (P Q : ApiRequest -> trace -> Prop) :
  wp p tr (passes P) -> (forall r tr', P r tr' -> wp (f r) tr' (passes Q)) ->
  wp (then_layer p f) tr (passes Q).
Proof.
  intros Hp Hf. apply wp_bind. eapply wp_mono; [|exact Hp].
  intros [r|e] tr' Hg; [by apply Hf, Hg | by intros ? [=]].
Qed.

(** A layer that hands the request on as it is and adds a fact. *)
Definition adds (p : prog gate) (r : ApiRequest) (F : trace -> Prop) : Prop :=
  forall tr, wp p tr (passes (fun r' tr' => r' = r /\ F tr')).

Definition kept (F : trace -> Prop) : Prop := forall l tr, F tr -> F (l ++ tr).

Lemma adds_then p f r (F G : trace -> Prop) :
  kept F -> adds p r F -> adds (f r) r G -> adds (then_layer p f) r (fun tr => F tr /\ G tr).
Proof.
  intros HK Hp Hf tr. eapply wp_then; [apply Hp|]. intros r' tr' [-> HF].
  eapply wp_mono; [|apply wp_extends, Hf].
  intros g tr'' [Hg [l ->]] r'' ->. destruct (Hg r'' eq_refl) as [-> HG].
  split; [done|]. split; [by apply HK | done].
Qed.

(** *** Permissions *)
Definition may (tr : trace) (r : ApiRequest) (permission : text) : Prop :=
  exists st, vouched tr r st /\ holds st permission.

Lemma may_app l tr r p : may tr r p -> may (l ++ tr) r p.
Proof. intros (st & Hv & Hh). exists st. split; [by apply vouched_app | done]. Qed.

(** A template and a path that meet the same request overlap. *)
Definition wildcard (t : text) : bool :=
  starts_with t [123] && match last t with Some c => c =? 125 | None => false end.

Fixpoint overlap (s t : list text) : bool :=
  match s, t with
  | [], [] => true
  | a :: s', b :: t' => (wildcard a || wildcard b || bool_decide (a = b)) && overlap s' t'
  | _, _ => false
  end.

Lemma match_segments_overlap s t a :
  match_segments s a = true -> match_segments t a = true -> overlap s t = true.
Proof.
  revert t a. induction s as [|x s IH]; intros [|y t] [|z a]; try done.
  cbn [match_segments overlap]. unfold path_step. fold (wildcard x). fold (wildcard y).
  destruct (wildcard x) eqn:Hx, (wildcard y) eqn:Hy; cbn [orb andb];
    repeat case_bool_decide; subst; cbn [andb]; try done; by apply IH.
Qed.

Definition unambiguous (rules : list RoutePermission) : bool :=
  forallb (fun p => forallb (fun q =>
    negb (overlap (split_on 47 (rp_path p)) (split_on 47 (rp_path q)))
    || negb (bool_decide (rp_method p = rp_method q))
    || bool_decide (rp_permission p = rp_permission q)) rules) rules.

Lemma permission_layers_unambiguous : forallb unambiguous permission_layers = true.
Proof. vm_compute. reflexivity. Qed.

Lemma no_head_rules :
  forallb (forallb (fun q => negb (bool_decide (rp_method q = HEAD)))) permission_layers = true.
Proof. vm_compute. reflexivity. Qed.

(** The rule a layer finds asks for what every rule that applies asks for. *)
Lemma find_rule rules q (r : ApiRequest) :
  unambiguous rules = true -> forallb (fun q => negb (bool_decide (rp_method q = HEAD))) rules = true ->
  q ∈ rules -> applies_to q (rq_method r) (rq_path r) = true ->
  exists q', List.find (fun q => applies_to q (rq_method r) (rq_path r)) rules = Some q' /\
    rp_permission q' = rp_permission q.
Proof.
  intros Hu Hh Hq Ha. destruct (List.find _ rules) as [q'|] eqn:Hf.
  - exists q'. split; [done|]. apply List.find_some in Hf as [Hq' Ha'].
    unfold unambiguous in Hu. rewrite forallb_forall in Hu, Hh. pose proof (Hu q' Hq') as Hu'. rewrite forallb_forall in Hu'.
    specialize (Hu' q (proj1 (list_elem_of_In _ _) Hq)).
    pose proof (Hh q' Hq') as Hhq'. pose proof (Hh q (proj1 (list_elem_of_In _ _) Hq)) as Hhq.
    unfold applies_to, path_matches in *. split_and_bool.
    rewrite (match_segments_overlap _ _ (split_on 47 (rq_path r))) in Hu' by done.
    assert (rp_method q' = rp_method q) as Hm.
    { repeat match goal with H : _ || _ = true |- _ => apply orb_true_iff in H as [H|H] end;
        split_and_bool; congruence. }
    rewrite bool_decide_eq_true_2 in Hu' by done. cbn [negb orb] in Hu'. by split_and_bool.
  - pose proof (List.find_none _ _ Hf q (proj1 (list_elem_of_In _ _) Hq)) as Hn. cbn in Hn. congruence.
Qed.

(** Every rule that applies is met. *)
Definition permitted (rules : list RoutePermission) (r : ApiRequest) (tr : trace) : Prop :=
  forall q, q ∈ rules -> applies_to q (rq_method r) (rq_path r) = true ->
    may tr r (rp_permission q).

Lemma permitted_app rules r l tr : permitted rules r tr -> permitted rules r (l ++ tr).
Proof. intros Hp q Hq Ha. by apply may_app, Hp. Qed.

Lemma adds_permission rules r :
  rules ∈ permission_layers ->
  adds (enforce_route_permission rules authenticate r) r (permitted rules r).
Proof.
  intros Hin tr. pose proof permission_layers_unambiguous as Hu. pose proof no_head_rules as Hh.
  rewrite forallb_forall in Hu, Hh. specialize (Hu _ (proj1 (list_elem_of_In _ _) Hin)).
  specialize (Hh _ (proj1 (list_elem_of_In _ _) Hin)).
  unfold enforce_route_permission. destruct (List.find _ rules) as [q|] eqn:Hf.
  - apply wp_bind. eapply wp_mono; [|apply wp_authenticate].
    intros [ctx|e] tr' Hctx; [|by intros ? [=]].
    destruct (Hctx ctx eq_refl) as (st & id & -> & Hv).
    pose proof (require_permission_holds id st (rp_permission q)) as Hp.
    destruct (require_permission _ _) as [[]|e]; [|by intros ? [=]].
    cbn [is_ok] in Hp. intros r' [= <-]. split; [done|]. intros q' Hq' Ha.
    destruct (find_rule _ _ _ Hu Hh Hq' Ha) as (q'' & Hf' & <-).
    rewrite Hf in Hf'. injection Hf' as <-. exists st. split; [done | by apply Hp].
  - intros r' [= <-]. split; [done|]. intros q Hq Ha.
    destruct (find_rule _ _ _ Hu Hh Hq Ha) as (q'' & Hf' & _). congruence.
Qed.

(** *** What the body guards look for, in the request itself *)
Definition route_is (m : Method) (template : text) (r : ApiRequest) : Prop :=
  rq_method r = m /\ path_matches template (rq_path r) = true.

(** The body makes a user an owner. *)
Definition assigns_owner (r : ApiRequest) : Prop :=
  exists body role, rq_payload r = Some body /\ names_owner role = true /\
    ((route_is POST (lit "/users") r /\ decode_create_user (Rbac.rq_headers r) body = Ok role) \/
     (route_is PATCH (lit "/users/{id}") r /\
      decode_update_user (Rbac.rq_headers r) body = Ok (Some role))).

(** The body gives a client the pairing scope. *)
Definition grants_pairing (r : ApiRequest) : Prop :=
  exists body scopes, rq_payload r = Some body /\ names_pair_scope scopes = true /\
    ((route_is POST (lit "/app_clients") r /\
      decode_create_client (Rbac.rq_headers r) body = Ok scopes) \/
     (route_is PATCH (lit "/app_clients/{id}") r /\
      decode_update_client (Rbac.rq_headers r) body = Ok (Some scopes))).

(** The body makes an endpoint signed by HMAC, or stores a signing secret. *)
Definition makes_hmac (r : ApiRequest) : Prop :=
  exists body, rq_payload r = Some body /\
    ((route_is POST (lit "/webhook_endpoints") r /\
      decode_create_endpoint (Rbac.rq_headers r) body = Ok WebhookDeliveryMode.hmac) \/
     (route_is PATCH (lit "/webhook_endpoints/{id}") r /\
      exists u, decode_update_endpoint (Rbac.rq_headers r) body = Ok u /\
        (eu_deliveryMode u = Some WebhookDeliveryMode.hmac \/
         (exists s, eu_secret u = Some (Some s)) \/ exists s, eu_prevSecret u = Some (Some s)))).

Definition registers_key (r : ApiRequest) : Prop :=
  rq_method r = POST /\
  (rq_path r = lit "/$procs/registerAppClientKey" \/ rq_path r = lit "/$procs/registerConsoleKey").

(** Of two guarded routes of different methods, the one that applies is found. *)
Lemma find_guarded_create m1 p1 m2 p2 r :
  m1 <> m2 -> route_is m1 p1 r ->
  find_guarded [mkGuarded m1 p1 ShapeCreate; mkGuarded m2 p2 ShapeUpdate] r =
    Some (mkGuarded m1 p1 ShapeCreate).
Proof.
  intros _ [Hm Hp]. unfold find_guarded. cbn [List.find gr_method gr_path].
  by rewrite bool_decide_eq_true_2, Hp.
Qed.

Lemma find_guarded_update m1 p1 m2 p2 r :
  m1 <> m2 -> route_is m2 p2 r ->
  find_guarded [mkGuarded m1 p1 ShapeCreate; mkGuarded m2 p2 ShapeUpdate] r =
    Some (mkGuarded m2 p2 ShapeUpdate).
Proof.
  intros Hne [Hm Hp]. unfold find_guarded. cbn [List.find gr_method gr_path].
  rewrite bool_decide_eq_false_2 by congruence. cbn [andb].
  by rewrite bool_decide_eq_true_2, Hp.
Qed.

(** A body guard hands on the request as it is, and only if it accepts the
    body. *)
Lemma guard_body_pass refuse r r' :
  guard_body refuse r = Pass r' ->
  r' = r /\ forall body, rq_payload r = Some body -> is_ok (refuse (Rbac.rq_headers r) body) = true.
Proof.
  unfold guard_body. destruct (rq_payload r) as [b|]; [|done].
  destruct (refuse _ b) eqn:He; [|done]. intros [= <-]. split; [done|].
  intros body [= <-]. by rewrite He.
Qed.

Lemma refused_owner r :
  assigns_owner r -> exists route body, find_guarded OWNER_ROUTES r = Some route /\
    rq_payload r = Some body /\ is_ok (refuse_owner_grant route (Rbac.rq_headers r) body) = false.
Proof.
  intros (body & role & Hb & Hn & [[Hr Hd]|[Hr Hd]]); eexists _, body;
    (split; [first [by apply find_guarded_create | by apply find_guarded_update]|]); (split; [done|]);
    unfold refuse_owner_grant; cbn [gr_shape]; rewrite Hd; destruct (route_capabilities _ _);
    cbn [rbind map_err from_option id]; try done; by rewrite Hn.
Qed.

Lemma refused_pairing r :
  grants_pairing r -> exists route body, find_guarded PAIR_ROUTES r = Some route /\
    rq_payload r = Some body /\ is_ok (refuse_pair_grant route (Rbac.rq_headers r) body) = false.
Proof.
  intros (body & scopes & Hb & Hn & [[Hr Hd]|[Hr Hd]]); eexists _, body;
    (split; [first [by apply find_guarded_create | by apply find_guarded_update]|]); (split; [done|]);
    unfold refuse_pair_grant, refuse_pair_scope; cbn [gr_shape]; rewrite Hd;
    destruct (route_capabilities _ _); cbn [rbind map_err from_option id]; try done;
    by rewrite Hn.
Qed.

Lemma refused_hmac r :
  makes_hmac r -> exists route body, find_guarded HMAC_ROUTES r = Some route /\
    rq_payload r = Some body /\ is_ok (refuse_hmac_body route (Rbac.rq_headers r) body) = false.
Proof.
  intros (body & Hb & [[Hr Hd]|[Hr (u & Hd & Hu)]]); eexists _, body;
    (split; [first [by apply find_guarded_create | by apply find_guarded_update]|]); (split; [done|]);
    unfold refuse_hmac_body; cbn [gr_shape]; rewrite Hd;
    destruct (route_capabilities _ _); cbn [rbind map_err]; try done.
  destruct Hu as [Hu|[[s Hu]|[s Hu]]]; rewrite Hu; cbn [sets_secret];
    rewrite ?bool_decide_eq_true_2 by done; rewrite ?orb_true_r; done.
Qed.

(** *** The facts each layer adds *)
Lemma adds_pair_scope r :
  adds (Ret (enforce_pair_scope_guard r)) r (fun _ => ~ grants_pairing r).
Proof.
  intros tr r'. unfold enforce_pair_scope_guard.
  destruct (find_guarded PAIR_ROUTES r) as [route|] eqn:Hf.
  - intros [-> Hok]%guard_body_pass. split; [done|].
    intros (route' & body & Hf' & Hb & Hno)%refused_pairing.
    rewrite Hf in Hf'. injection Hf' as <-. by rewrite (Hok body Hb) in Hno.
  - intros [= <-]. split; [done|]. intros (route & body & Hf' & _)%refused_pairing. congruence.
Qed.

Lemma adds_hmac_gate hmac r :
  adds (Ret (enforce_hmac_gate hmac r)) r (fun _ => hmac = HmacDisabled -> ~ makes_hmac r).
Proof.
  intros tr r'. unfold enforce_hmac_gate. destruct hmac; cbn [is_permitted]; [by intros [= <-]|].
  destruct (find_guarded HMAC_ROUTES r) as [route|] eqn:Hf.
  - intros [-> Hok]%guard_body_pass. split; [done|].
    intros _ (route' & body & Hf' & Hb & Hno)%refused_hmac.
    rewrite Hf in Hf'. injection Hf' as <-. by rewrite (Hok body Hb) in Hno.
  - intros [= <-]. split; [done|]. intros _ (route & body & Hf' & _)%refused_hmac. congruence.
Qed.

(** The registration routes, by path. *)
Lemma registration_listed (r : ApiRequest) :
  registers_key r -> exists what, (rq_path r, what) ∈ REGISTRATION_ROUTES.
Proof.
  intros [_ [-> | ->]]; eexists; unfold REGISTRATION_ROUTES; [apply list_elem_of_here|].
  apply list_elem_of_further, list_elem_of_here.
Qed.

Lemma keypair_required what : is_ok (keypair_require KeypairDisabled what) = false.
Proof. reflexivity. Qed.

Lemma find_listed {A B} `{EqDecision A} (l : list (A * B)) a b :
  (a, b) ∈ l -> List.find (fun pw => bool_decide (pw.1 = a)) l = None -> False.
Proof.
  intros Hin%list_elem_of_In Hf. pose proof (List.find_none _ _ Hf _ Hin) as Hn. cbn in Hn.
  by apply bool_decide_eq_false in Hn.
Qed.

Lemma adds_keypair_gate k r :
  adds (Ret (enforce_keypair_gate k r)) r (fun _ => k = KeypairDisabled -> ~ registers_key r).
Proof.
  intros tr r'. unfold enforce_keypair_gate. destruct k; cbn [keypair_is_permitted]; [by intros [= <-]|].
  destruct (bool_decide_reflect (rq_method r = POST)) as [Hm|Hm]; cbn [negb orb].
  - destruct (List.find _ _) as [[p what]|] eqn:Hf.
    + pose proof (keypair_required what) as Hk. by destruct (keypair_require _ what).
    + intros [= <-]. split; [done|]. intros _ [what Hin]%registration_listed.
      exact (find_listed _ _ _ Hin Hf).
  - intros [= <-]. split; [done|]. intros _ [Hp _]. done.
Qed.

(** Only an owner makes an owner. *)
Definition owned (r : ApiRequest) (tr : trace) : Prop :=
  assigns_owner r -> exists u, vouched tr r (SUser u) /\ us_role u = OWNER_ROLE_KEY.

Lemma owned_app r l tr : owned r tr -> owned r (l ++ tr).
Proof. intros Ho (u & Hv & Hr)%Ho. exists u. split; [by apply vouched_app | done]. Qed.

Lemma adds_owner_grant r : adds (enforce_owner_grant_guard authenticate r) r (owned r).
Proof.
  intros tr. unfold enforce_owner_grant_guard.
  destruct (find_guarded OWNER_ROUTES r) as [route|] eqn:Hf.
  - apply wp_bind. eapply wp_mono; [|apply wp_authenticate].
    intros [ctx|e] tr' Hctx; [|by intros ? [=]].
    destruct (Hctx ctx eq_refl) as (st & id & -> & Hv). cbn [wp]. unfold is_owner.
    change (string_field (with_request_id id (context_for st)) (lit "role"))
      with (string_field (context_for st) (lit "role")).
    rewrite context_role. intros r'. case_bool_decide as Ho.
    + intros [= <-]. split; [done|]. intros _. injection Ho as Ho.
      destruct st as [a|u]; [by vm_compute in Ho|]. by exists u.
    + intros [-> Hok]%guard_body_pass. split; [done|].
      intros (route' & body & Hf' & Hb & Hno)%refused_owner.
      rewrite Hf in Hf'. injection Hf' as <-. by rewrite (Hok body Hb) in Hno.
  - intros r' [= <-]. split; [done|]. intros (route & body & Hf' & _)%refused_owner. congruence.
Qed.

(** The one Authorization header of a request, when it is a bearer token. *)
Definition carries_token (r : ApiRequest) (token : text) : Prop :=
  token <> [] /\ exists value scheme rest, header_values r AUTHORIZATION = [value] /\
    header_to_str value = Some (scheme ++ [32] ++ rest) /\
    eq_ignore_ascii_case scheme (lit "bearer") = true /\ token = trim rest.

Lemma bearer_token_carried r token :
  bearer_token (header_values r AUTHORIZATION) = Ok token -> carries_token r token.
Proof.
  unfold bearer_token, carries_token. destruct (header_values r AUTHORIZATION) as [|value []]; [done| |done].
  destruct (header_to_str value) as [t|] eqn:Ht; [|done].
  destruct (split_once t [32]) as [[scheme rest]|] eqn:Hs; [|done]. apply split_once_Some in Hs as ->.
  destruct (eq_ignore_ascii_case scheme (lit "bearer")) eqn:He; [|done]. cbn [andb].
  case_bool_decide as Hne; [done|]. intros [= <-]. split; [done|]. by exists value, scheme, rest.
Qed.

(** What the verifier of tokens accepts; besides, it may do anything a program
    may. *)
Definition verifier_ok (doors : ApiDoors) (accepts : text -> VerifiedBearer -> Prop) : Prop :=
  forall v token tr, door_bearer doors = Some v ->
    wp (v token) tr (fun r _ => forall b, r = Ok b -> accepts token b).

(** The caller after the doors: a signature alone, or the standing that rows
    read during the request give a token the verifier accepted. *)
Definition settled (accepts : text -> VerifiedBearer -> Prop) (r r' : ApiRequest) (tr : trace) : Prop :=
  (is_Some (rq_signer r) /\ header_values r AUTHORIZATION = [] /\ r' = r) \/
  (rq_signer r = None /\ exists token bearer st, carries_token r token /\ accepts token bearer /\
     token_backed tr bearer st /\ r' = set_caller r st).

Lemma token_backed_app l tr b st : token_backed tr b st -> token_backed (l ++ tr) b st.
Proof.
  destruct b; cbn [token_backed].
  - intros (o & id & app & scopes & Hk & ? & ? & ? & Hl & Hrest). exists o, id, app, scopes.
    split; [by apply known_app|]. split_and!; try done; [by apply live_app_app | apply Hrest | apply Hrest | apply Hrest].
  - intros (o & u & Hk & ? & ? & ? & ? & Hl & ?). exists o, u. split; [by apply known_app|].
    split_and!; try done; [by apply live_user_app | tauto | tauto].
Qed.

Lemma settled_app accepts r r' l tr : settled accepts r r' tr -> settled accepts r r' (l ++ tr).
Proof.
  intros [?|(? & token & b & st & ? & ? & Hb & ?)]; [by left|]. right. split; [done|].
  exists token, b, st. split_and!; try done. by apply token_backed_app.
Qed.

Lemma wp_bearer_door doors accepts r tr :
  verifier_ok doors accepts ->
  wp (enforce_bearer_door UNAUTHENTICATED doors r) tr (passes (settled accepts r)).
Proof.
  intros Hver. unfold enforce_bearer_door. destruct (rq_signer r) as [s|] eqn:Hs.
  - case_bool_decide as Ha; cbn [negb wp]; [|by intros ? [=]].
    intros r' [= <-]. left. by rewrite Hs.
  - destruct (door_bearer doors) as [v|] eqn:Hv; [|by intros ? [=]].
    apply wp_bind. unfold authenticate_bearer. apply wp_ok_bind. cbn [wp lift].
    destruct (bearer_token _) as [token|e] eqn:Htok; [|by intros ? [=]]. apply bearer_token_carried in Htok.
    eapply wp_mono; [|by apply (Hver v)]. intros [claims|e] tr' Hacc; [|by intros ? [=]].
    apply wp_bind. eapply wp_mono; [|apply wp_bearer_standing].
    intros [st|e] tr'' Hst; cbn [wp].
    + intros r' [= <-]. right. split; [done|]. exists token, claims, st.
      split_and!; try done; [by apply Hacc | by apply Hst].
    + destruct (view e); by intros ? [=].
Qed.

(** The facts that hold of a request the layers let on. *)
Definition admissible (auth : ApiAuth) (accepts : text -> VerifiedBearer -> Prop)
  (r0 r : ApiRequest) (tr : trace) : Prop :=
  settled accepts r0 r tr /\ owned r tr /\ Forall (fun rules => permitted rules r tr) permission_layers /\
  ~ grants_pairing r /\ (auth_hmac auth = HmacDisabled -> ~ makes_hmac r) /\
  (door_keypair (auth_doors auth) = false -> ~ registers_key r).

Ltac solve_layer :=
  first [ intros l tr'; apply owned_app | intros l tr'; apply permitted_app
        | by intros l tr' ? | set_solver ].

Lemma wp_router_layers auth accepts r tr :
  verifier_ok (auth_doors auth) accepts ->
  wp (router_layers auth r) tr (passes (admissible auth accepts r)).
Proof.
  intros Hver. eapply wp_then; [by apply (wp_bearer_door _ accepts)|]. intros r1 tr1 Hset.
  eapply wp_mono; [|apply wp_extends, (adds_then _ _ r1); [| apply adds_pair_scope
    | apply (adds_then _ _ r1); [| apply adds_owner_grant
    | apply (adds_then _ _ r1); [| apply adds_permission
    | apply (adds_then _ _ r1); [| apply adds_permission
    | apply (adds_then _ _ r1); [| apply adds_permission
    | apply (adds_then _ _ r1); [| apply adds_permission
    | apply (adds_then _ _ r1); [| apply adds_permission
    | apply (adds_then _ _ r1); [| apply adds_hmac_gate | apply adds_keypair_gate]]]]]]]]].
  1: { intros g tr' [Hg [l ->]] r' ->. destruct (Hg r' eq_refl) as (-> & Hpair & Hown & Hm & Hs & Hr & Hj & Hw & Hh & Hk).
    split_and!; try done; [by apply settled_app | by repeat constructor|].
    intros Hd. apply Hk. unfold keypair_of. by rewrite Hd. }
  all: solve_layer.
Qed.

(** Nobody the doors let in acts as the gateway itself. *)
Definition role_of (st : Standing) : text :=
  match st with SApp _ => lit "app" | SUser u => us_role u end.

Lemma settled_role accepts r0 r tr st :
  settled accepts r0 r tr -> vouched tr r st -> role_of st <> lit "system".
Proof.
  assert (lit "app" <> lit "system") as Hne by (vm_compute; by intros [=]).
  assert (forall u : UserStanding, us_role u ∉ RESERVED_ROLE_KEYS -> us_role u <> lit "system") as Hu.
  { intros u Hr He. apply Hr. rewrite He. apply list_elem_of_here. }
  intros Hset Hv. unfold vouched in Hv. destruct st as [a|u]; [done|]. apply Hu.
  destruct Hset as [([s Hs] & _ & ->)|(Hs & token & b & st' & _ & _ & Hb & ->)].
  - rewrite Hs in Hv. destruct (rq_bearer r0); [done|]. destruct Hv as (_ & now & _ & _ & key & Hb).
    destruct Hb as (_ & _ & _ & _ & _ & Hr & _). done.
  - cbn [rq_signer rq_bearer set_caller] in Hv. rewrite Hs in Hv. destruct Hv as [<- _].
    destruct b; cbn [token_backed] in Hb; [by destruct Hb as (? & ? & ? & ? & _ & _ & _ & _ & _ & _ & [=] & _)|].
    destruct Hb as (? & ? & _ & _ & _ & _ & _ & (_ & Hr & _) & _ & [= ->]). done.
Qed.

End Layers.

(** C12. What reaches the generated router. A request that passes every layer
    carries one verified credential: a signature and no Authorization header;
    or exactly one Authorization header with a bearer token that the verifier
    accepted, whose OAuth client was read as active and which stands, through
    the live client or person it names, for exactly the scopes granted,
    registered and asked for, or for a person of no reserved or device-only
    role.  For every guarded route it matches, a caller this request vouched
    for, from a live key and standing, holds the route's permission; only an
    owner makes an owner; no client is given the pairing scope; where HMAC webhooks
    are not permitted no endpoint becomes one, and where key pairs are not
    permitted no key is registered. No caller acts as "system", and the layers
    never panic, whatever other writers do meanwhile.  A standing is live when
    its rows were read active during the request, or when it is the one cached
    under that id. *)
Theorem router_admits `{E : CratestackErrors} `{B : !Backend} `{UD : UnicodeDebug} `{DC : !Decoders}
  UNAUTHENTICATED auth accepts r p tr w w' :
  verifier_ok (auth_doors auth) accepts -> world_ok w ->
  rtc step (router_layers UNAUTHENTICATED auth r, [], w) (p, tr, w') ->
  p <> Panic /\
  forall r', p = Ret (Pass r') ->
    settled accepts r r' tr /\
    (forall st, vouched tr r' st -> role_of st <> lit "system") /\
    (forall rules q, rules ∈ permission_layers -> q ∈ rules ->
       applies_to q (rq_method r') (rq_path r') = true ->
       exists st, vouched tr r' st /\ holds st (rp_permission q)) /\
    (assigns_owner r' -> exists u, vouched tr r' (SUser u) /\ us_role u = OWNER_ROLE_KEY) /\
    ~ grants_pairing r' /\
    (auth_hmac auth = HmacDisabled -> ~ makes_hmac r') /\
    (door_keypair (auth_doors auth) = false -> ~ registers_key r').
Proof.
  intros Hver Hok Hrun. pose proof (wp_router_layers UNAUTHENTICATED auth accepts r [] Hver) as Hwp.
  split; [by apply (wp_run_safe _ _ _ _ _ _ Hwp Hok Hrun)|]. intros r' ->.
  pose proof (wp_run _ _ _ _ _ _ _ Hwp Hok (valid_nil _) (Forall_nil_2 _) Hrun) as Hg.
  destruct (Hg r' eq_refl) as (Hset & Hown & Hperm & Hpair & Hh & Hk).
  split_and!; try done.
  - intros st Hv. by eapply settled_role.
  - intros rules q Hr Hq Ha. rewrite Forall_forall in Hperm. by apply (Hperm rules).
Qed.

(** ** An example: a paired console reads a message *)
Section Demo.

#[local] Existing Instance demo_errors.
#[local] Existing Instance demo_debug.

(** The example's bodies are the fields themselves. *)
#[local] Instance demo_decoders : Decoders := {|
  decode_create_user _ b := Ok b;
  decode_update_user _ b := Ok (Some b);
  decode_create_client _ b := Ok b;
  decode_update_client _ b := Ok (Some b);
  decode_create_endpoint _ _ := Ok WebhookDeliveryMode.hmac;
  decode_update_endpoint _ _ := Ok (mkEndpointUpdate None None None);
  has_route _ _ := true;
  is_unsupported_media_type _ := false |}.

Definition demo_thumb : list Z := [171; 205].

Definition console_world : world :=
  insert_row (insert_row (insert_row empty_world TConsoleKey
      (ConsoleKey.mk (lit "ck1") 0 0 (lit "u1") ConsoleKeyAlg.esp256 [4] (hex_encode demo_thumb) None 0
         (ex_now + minutes 60) None))
    TUser (User.mk (lit "u1") 0 0 (lit "sub") (lit "a@example.test") (lit "A") (lit "operator") true
             None false None 0))
    TRole (Role.mk (lit "r1") 0 0 (lit "operator") (lit "Operator") None true (lit " sms:read job:read ") 0).

Definition console_request : ApiRequest :=
  mkApiRequest HEAD (lit "/messages/m1") [] (Some []) (Some (mkSigner demo_thumb (Some Esp256))) None
    None.

Definition demo_auth : ApiAuth := mkApiAuth _ HmacDisabled (mkDoors true None).

Definition console_run : config gate :=
  ref_run accepting (router_layers (lit "unauthenticated") demo_auth console_request) [] console_world.

Lemma console_run_passes : run_result console_run = Some (Pass console_request).
Proof. vm_compute. reflexivity. Qed.

(** The same person with a token: the verifier knows one token. *)
Definition token_world : world :=
  insert_row console_world TOauthClient
    (OauthClient.mk (lit "o1") 0 0 (lit "console") None ClientAuthMethod.none None (lit " authorization_code ")
       (lit " openid ") (lit " ") true true).

Definition demo_verifier (token : text) : prog (result VerifiedBearer BearerRefusal) :=
  Ret (if bool_decide (token = lit "t1") then Ok (Person (lit "u1") (lit "console")) else Err BadSignature).

Definition token_auth : ApiAuth := mkApiAuth _ HmacDisabled (mkDoors false (Some demo_verifier)).

Definition token_request : ApiRequest :=
  mkApiRequest GET (lit "/messages/m1") [(AUTHORIZATION, lit "Bearer t1")] (Some []) None None None.

Definition token_run : config gate :=
  ref_run accepting (router_layers (lit "unauthenticated") token_auth token_request) [] token_world.

Definition demo_caller : Standing :=
  SUser (mkUserStanding (lit "u1") (lit "operator") [lit "sms:read"; lit "job:read"]).

Lemma token_run_passes : run_result token_run = Some (Pass (set_caller token_request demo_caller)).
Proof. vm_compute. reflexivity. Qed.

Lemma router_admits_witness :
  exists token st, token = lit "t1" /\ token_backed (run_trace token_run) (Person (lit "u1") (lit "console")) st /\
    holds st (lit "sms:read").
Proof.
  pose proof (ref_run_done _ _ _ _ _ token_run_passes) as Hrun.
  apply (@router_admits _ (ref_backend accepting) _ _ _ _
    (fun token b => token = lit "t1" /\ b = Person (lit "u1") (lit "console"))) in Hrun as [_ Hp].
  - destruct (Hp _ eq_refl) as (Hset & _ & Hperm & _).
    destruct Hset as [[[s Hs] _]|(_ & token & b & st & _ & [Ht ->] & Hb & Hset)]; [discriminate Hs|].
    exists token, st. split; [exact Ht|]. split; [exact Hb|].
    destruct (Hperm MESSAGE_READ_ROUTES (mkRoutePermission GET (lit "/messages/{id}") (lit "sms:read"))) as (st' & Hv & Hh).
    + apply list_elem_of_here.
    + apply list_elem_of_further, list_elem_of_here.
    + vm_compute. reflexivity.
    + cbn [vouched rq_signer rq_bearer set_caller token_request] in Hv. destruct Hv as [-> _].
      injection Hset as <-. exact Hh.
  - intros v token tr [= <-]. unfold demo_verifier. case_bool_decide as Ht; cbn [wp]; [|done].
    intros b [= <-]. by split.
  - unfold token_world, console_world. auto with vsms.
Defined.

End Demo.
