(* ===== verification/Send.v ===== *)
(** * sms-api: accepting a message (procedures.rs, consent.rs, pepper.rs)

    [previewMessage] and [sendMessage]: the checks a message passes before it
    is stored (permission, app, recipient, opt-out, quiet hours, consent,
    quota, sender), what is stored, and what is answered.

    chrono's calendar ([Calendar]) and rust_decimal's product ([DecimalLib])
    are parameters; chrono's range and its panics on overflow are written out. *)

From S2P Require Import Prelude Encoding SentinelList Msisdn ProviderApi Schema ApiSchema Errors.
From S2P Require Import Db DbLogic DbReads DbRef WorkerRouting DemoData Dlr WebhookClaim Webhook.
From S2P Require Import Cache Rbac Signers.

(** ** chrono *)

(** The day of the month of a day counted from 1970-01-01 (UTC). *)
Class Calendar := {
  day_of_month : Z -> Z;
  day_of_month_range d : 1 <= day_of_month d <= 31;
  day_of_month_step d :
    day_of_month (d + 1) = day_of_month d + 1 \/ day_of_month (d + 1) = 1 }.

Definition DAY : Z := hours 24.

(** [TimeDelta::minutes]: more than [i64::MAX] milliseconds panics. *)
Definition chrono_minutes (n : Z) : option Z :=
  if Z.abs (n * 60) <=? 9223372036854775 then Some (minutes n) else None.

(** [Timelike::hour]. *)
Definition hour (t : Z) : Z := (t / hours 1) mod 24.

(** ** consent.rs *)
Definition MARKETING_QUIET_HOURS_START_WAT : Z := 8.
Definition MARKETING_QUIET_HOURS_END_WAT : Z := 20.
Definition WAT_OFFSET_HOURS : Z := 1.

Definition requires_recipient_consent_controls (class : MessageClass.t) : bool :=
  match class with
  | MessageClass.otp | MessageClass.transactional => false
  | MessageClass.notification | MessageClass.marketing => true
  end.

Definition subject_to_quiet_hours (class : MessageClass.t) : bool :=
  match class with
  | MessageClass.marketing => true
  | MessageClass.otp | MessageClass.transactional | MessageClass.notification => false
  end.

Definition is_within_marketing_quiet_hours (now_utc : Z) : option bool :=
  wat ← chrono_add now_utc (hours WAT_OFFSET_HOURS);
  Some ((MARKETING_QUIET_HOURS_START_WAT <=? hour wat)
        && (hour wat <? MARKETING_QUIET_HOURS_END_WAT)).

(** ** pepper.rs *)
Definition MIN_PEPPER_BYTES : Z := 32.
Definition HASH_SCHEME : text := lit "hmac-sha256-v1".

Inductive PepperError := TooShort (min actual : Z).

Definition pepper_new (value : text) : result text PepperError :=
  if byte_len value <? MIN_PEPPER_BYTES then Err (TooShort MIN_PEPPER_BYTES (byte_len value))
  else Ok value.

Definition hmac_sha256_hex `{MacLib} (pepper input : text) : text :=
  HASH_SCHEME ++ lit ":" ++ hex_encode (hmac_sha256 (as_bytes pepper) (as_bytes input)).

(** ** Displayed errors *)

(** [<char as Debug>]. *)
Definition debug_char `{UnicodeDebug} (c : Z) : text :=
  [39] ++ (if c =? 34 then [34] else if c =? 39 then [92; 39] else escape_char true c) ++ [39].

Definition display_MsisdnError `{UnicodeDebug} (e : MsisdnError) : text :=
  match e with
  | MsisdnEmpty => lit "empty number"
  | InvalidCharacter ch => lit "unexpected character " ++ debug_char ch ++ lit " in number"
  | UnknownRegion code => debug_str code ++ lit " is not an ISO 3166-1 alpha-2 region code"
  | UnknownCountryCode digits => lit "no country uses the calling code in +" ++ digits
  | LegacyEightDigit digits =>
      digits ++ lit " is an eight-digit pre-2014 Cameroon number; it needs a leading 6 (mobile) or 2 (fixed)"
  | BadLength got => show_Z got ++ lit " digits is not a usable length for a number in this country"
  | UnallocatedNumber national => national ++ lit " is not in an assigned range"
  | NotAddressable national line_type =>
      national ++ lit " cannot receive an SMS: line type " ++ line_type_str line_type
  end.

(** ** Small conversions *)
Definition encoding_of (e : SmsEncoding) : EncodingCode.t :=
  match e with Gsm7 => EncodingCode.gsm7 | Ucs2 => EncodingCode.ucs2 end.

Definition distinct_offending (report : EncodingReport) : list text :=
  foldl (fun seen o => if bool_decide ([oc_ch o] ∈ seen) then seen else seen ++ [[oc_ch o]]) []
    (er_offending report).

Definition operator_code_str (code : OperatorCode.t) : text :=
  match code with
  | OperatorCode.mtn => lit "mtn"
  | OperatorCode.orange => lit "orange"
  | OperatorCode.camtel => lit "camtel"
  | OperatorCode.nexttel => lit "nexttel"
  | OperatorCode.unknown => lit "unknown"
  end.

(** [Debug] of the schema's class. *)
Definition debug_class (c : MessageClass.t) : text :=
  match c with
  | MessageClass.otp => lit "otp"
  | MessageClass.transactional => lit "transactional"
  | MessageClass.notification => lit "notification"
  | MessageClass.marketing => lit "marketing"
  end.

Definition month_start `{Calendar} (now : Z) : Z :=
  (now / DAY - (day_of_month (now / DAY) - 1)) * DAY.

Definition default_validity (class : MessageClass.t) : Z :=
  match class with
  | MessageClass.otp => minutes 15
  | MessageClass.transactional | MessageClass.notification | MessageClass.marketing => hours 24
  end.

Definition I64_MAX : Z := 9223372036854775807.

(** [i64::try_from(n).unwrap_or(i64::MAX)] of a length. *)
Definition clamp_i64 (n : Z) : Z := if n <=? I64_MAX then n else I64_MAX.

(** [Decimal * Decimal::from(i64)]: [None] where rust_decimal panics. *)
Class DecimalLib := {
  decimal_mul : Decimal -> Z -> option Decimal;
  decimal_mul_exact m s n : Z.abs (m * n) < 2 ^ 96 -> decimal_mul (m, s) n = Some (m * n, s) }.

Record SendMessageInput := mkSendInput {
  si_to : text;
  si_body : text;
  si_senderId : option text;
  si_class : option MessageClass.t;
  si_clientRef : option text;
  si_scheduledAt : option Z;
  si_validityMinutes : option Z }.

Record SendMessageResult := mkSendResult {
  sr_messageId : text;
  sr_state : MessageState.t;
  sr_encoding : EncodingCode.t;
  sr_segments : Z;
  sr_operator : OperatorCode.t;
  sr_estimatedCostXaf : Decimal }.

Record PreviewResult := mkPreview {
  pv_encoding : EncodingCode.t;
  pv_segments : Z;
  pv_length : Z;
  pv_perSegment : Z;
  pv_offending : list text;
  pv_suggestion : option text;
  pv_operator : OperatorCode.t;
  pv_normalizedTo : option text }.

Section Procedures.

Context `{E : CratestackErrors}.
Context `{UD : UnicodeDebug}.
Context `{PL : PhoneLib}.
Context `{UN : UnicodeNormalization}.
Context `{ML : MacLib}.
Context `{CA : Calendar}.
Context `{DL : DecimalLib}.

(** The pepper the process was started with. *)
Variable pepper : text.

Definition keyed_hash_hex (input : text) : text := hmac_sha256_hex pepper input.

Definition preview (body : text) (to : option text) : result PreviewResult CratestackError :=
  let normalised := normalise body in
  let report := analyse normalised in
  let? normalized_to :=
    match to with
    | Some to =>
        if bool_decide (trim to = []) then Ok None
        else
          let? m := map_err (fun error => Validation (display_MsisdnError error)) (parse_mobile to) in
          Ok (Some (e164 m))
    | None => Ok None
    end in
  Ok (mkPreview (encoding_of (er_encoding report)) (er_segments report)
        (clamp_i64 (er_length report)) (clamp_i64 (er_per_segment report))
        (distinct_offending report) (er_suggestion report) OperatorCode.unknown normalized_to).

Definition load_app_of (client_id : text) : prog (result App.t CratestackError) :=
  let!? app_client := first_or (t := TAppClient) (mkQuery (t := TAppClient)
      (fun c => bool_decide (c.(AppClient.clientId) = client_id) && c.(AppClient.active)) [] (Some 1))
    (Unauthorized (lit "unknown client")) in
  first_or (t := TApp) (mkQuery (t := TApp)
      (fun a => bool_decide (a.(App.id) = app_client.(AppClient.appId)) && a.(App.active)) [] (Some 1))
    (Unauthorized (lit "app not found or inactive")).

Definition resolve_app (client_id : text) : prog (result App.t CratestackError) :=
  get_or_fetch AppCache client_id load_app_of.

Definition load_operator_table (_ : unit) : prog (result OperatorPrefixTable CratestackError) :=
  let!? rows := do (FindMany TPrefixRule
    (mkQuery (t := TPrefixRule) (fun r => r.(OperatorPrefixRule.active)) [] None)) in
  Ret (Ok (table_new ((fun r : OperatorPrefixRule.t =>
    (r.(OperatorPrefixRule.prefix), operator_code_str r.(OperatorPrefixRule.operator))) <$> rows))).

Definition operator_table : prog (result OperatorPrefixTable CratestackError) :=
  get_or_fetch OperatorCache tt load_operator_table.

Definition lookup_operator (table : OperatorPrefixTable) (msisdn : Msisdn) : OperatorCode.t :=
  default OperatorCode.unknown (lookup_national table (national msisdn) ≫= parse_operator_code).

Definition classify_operator (msisdn : Msisdn) : prog (result OperatorCode.t CratestackError) :=
  let!? table := operator_table in
  Ret (Ok (lookup_operator table msisdn)).

Definition opted_out_query (msisdn_hash : text) : query TOptOut :=
  mkQuery (t := TOptOut) (fun o => bool_decide (o.(OptOut.msisdnHash) = msisdn_hash)) [] (Some 1).

Definition ensure_not_opted_out (msisdn_hash : text) : prog (result unit CratestackError) :=
  let!? opted_out := do (FindMany TOptOut (opted_out_query msisdn_hash)) in
  match opted_out with
  | [] => Ret (Ok tt)
  | _ => Ret (Err (Validation (lit "recipient has opted out of messages from this scope")))
  end.

(** [{:02}]. *)
Definition two_digits (n : Z) : text := (if n <? 10 then lit "0" else []) ++ show_Z n.

Definition ensure_within_marketing_quiet_hours (delivery_utc : Z) : prog (result unit CratestackError) :=
  or_panic (is_within_marketing_quiet_hours delivery_utc) (fun within =>
  if within then Ret (Ok tt)
  else Ret (Err (Validation (lit "marketing messages are only sent between "
    ++ two_digits MARKETING_QUIET_HOURS_START_WAT ++ lit ":00 and "
    ++ two_digits MARKETING_QUIET_HOURS_END_WAT
    ++ lit ":00 WAT (self-imposed quiet hours, docs/architecture.md §10) — schedule this send for that window instead")))).

Definition consent_query (app_id msisdn_hash : text) (class : MessageClass.t) : query TConsent :=
  mkQuery (t := TConsent)
    (fun c => bool_decide (c.(ConsentRecord.appId) = app_id)
              && bool_decide (c.(ConsentRecord.msisdnHash) = msisdn_hash)
              && bool_decide (c.(ConsentRecord.scope) = class)) [] (Some 1).

Definition ensure_consent_on_file (app_id msisdn_hash : text) (class : MessageClass.t)
  : prog (result unit CratestackError) :=
  let!? consented := do (FindMany TConsent (consent_query app_id msisdn_hash class)) in
  match consented with
  | [] =>
      Ret (Err (Validation (lit "no consent record on file for this recipient for "
        ++ debug_class class
        ++ lit " messages — Law No. 2024/017 requires opt-in consent before this class may be sent")))
  | _ => Ret (Ok tt)
  end.

Definition counted (app : App.t) (now : Z) (m : Message.t) : bool :=
  bool_decide (m.(Message.appId) = app.(App.id)) && (month_start now <=? m.(Message.createdAt)).

Definition ensure_within_quota (app : App.t) (now : Z) : prog (result unit CratestackError) :=
  let!? sent_this_month := do (Count TMessage (counted app now)) in
  if sent_this_month <? app.(App.monthlyQuota) then Ret (Ok tt)
  else Ret (Err (Validation (lit "monthly quota of " ++ show_Z app.(App.monthlyQuota)
                               ++ lit " messages exceeded"))).

Definition requested_sender (app : App.t) (requested : option text) : prog (result text CratestackError) :=
  match requested with
  | Some value => Ret (Ok value)
  | None =>
      let!? default_id := lift (ok_or app.(App.defaultSenderIdId)
        (Validation (lit "no senderId given and this app has no default sender"))) in
      let!? sender := first_or (t := TSenderId) (mkQuery (t := TSenderId)
          (fun s => bool_decide (s.(SenderId.id) = default_id)) [] (Some 1))
        (Validation (lit "this app's default sender id no longer exists")) in
      Ret (Ok sender.(SenderId.value))
  end.

Definition resolve_sender_id (app : App.t) (requested : option text) : prog (result text CratestackError) :=
  let!? value := requested_sender app requested in
  let!? sender := first_or (t := TSenderId) (mkQuery (t := TSenderId)
      (fun s => bool_decide (s.(SenderId.value) = value) && s.(SenderId.active)) [] (Some 1))
    (Validation (lit "sender id " ++ debug_str value ++ lit " is not a registered sender")) in
  let!? _ := first_or (t := TSenderReg) (mkQuery (t := TSenderReg)
      (fun r => bool_decide (r.(SenderIdRegistration.senderIdId) = sender.(SenderId.id))
                && bool_decide (r.(SenderIdRegistration.status) = SenderIdRegistrationStatus.approved))
      [] (Some 1))
    (Validation (lit "sender id " ++ debug_str value ++ lit " has no approved provider registration")) in
  Ret (Ok value).

Definition estimate_cost (segments : Z) : prog (result Decimal CratestackError) :=
  let!? cheapest := do (FindMany TProvider (mkQuery (t := TProvider)
    (fun p => bool_decide (p.(Provider.state) = ProviderState.active))
    [Asc (t := TProvider) (fun p => KDecimal p.(Provider.costPerSegmentXaf))] (Some 1))) in
  let per_segment := match cheapest with [] => (0, 0) | p :: _ => p.(Provider.costPerSegmentXaf) end in
  or_panic (decimal_mul per_segment segments) (fun cost => Ret (Ok cost)).

Definition caller_client_id (ctx : CratestackContext) : result text CratestackError :=
  let? kind := ok_or (string_field ctx (lit "kind")) (Unauthorized (lit "missing kind claim")) in
  if negb (bool_decide (kind = kind_str KApp)) then
    Err (Validation (lit "sendMessage currently requires a machine (registered client key) caller — deriving an App for a human caller has no design yet"))
  else ok_or (string_field ctx (lit "sub")) (Unauthorized (lit "missing sub claim")).

Definition stored_body (app : App.t) (body : text) : text :=
  let normalised := normalise body in
  if app.(App.transliterateToGsm7) then (transliterate_to_gsm7 normalised).1 else normalised.

Definition validity_of (class : MessageClass.t) (validityMinutes : option Z) : option Z :=
  match validityMinutes with
  | Some n => chrono_minutes n
  | None => Some (default_validity class)
  end.

Definition send (ctx : CratestackContext) (args : SendMessageInput)
  : prog (result SendMessageResult CratestackError) :=
  let!? _ := lift (require_permission ctx (lit "sms:send")) in
  let! now := do Now in
  let!? client_id := lift (caller_client_id ctx) in
  let!? app := resolve_app client_id in
  let!? msisdn := lift (map_err (fun error => Validation (display_MsisdnError error))
                          (parse_mobile (si_to args))) in
  let msisdn_hash := keyed_hash_hex (e164 msisdn) in
  let class := default MessageClass.transactional (si_class args) in
  let!? _ := if requires_recipient_consent_controls class then ensure_not_opted_out msisdn_hash
             else Ret (Ok tt) in
  let!? _ := if subject_to_quiet_hours class
             then ensure_within_marketing_quiet_hours (default now (si_scheduledAt args))
             else Ret (Ok tt) in
  let!? _ := if requires_recipient_consent_controls class
             then ensure_consent_on_file app.(App.id) msisdn_hash class else Ret (Ok tt) in
  let!? _ := ensure_within_quota app now in
  let!? sender_id_value := resolve_sender_id app (si_senderId args) in
  let body := stored_body app (si_body args) in
  let report := analyse body in
  let!? operator := classify_operator msisdn in
  let segments := er_segments report in
  let!? estimated_cost := estimate_cost segments in
  or_panic (validity_of class (si_validityMinutes args)) (fun validity =>
  or_panic (chrono_add (default now (si_scheduledAt args)) validity) (fun expires_at =>
  let!? message := do (Create TMessage (mkCreateMessage app.(App.id) (si_clientRef args)
    (si_clientRef args) (e164 msisdn) msisdn_hash operator sender_id_value class 100 (Some body)
    (keyed_hash_hex body) (clamp_i64 (byte_len body)) (encoding_of (er_encoding report)) segments 3
    (si_scheduledAt args) expires_at)) in
  Ret (Ok (mkSendResult message.(Message.id) message.(Message.state) message.(Message.encoding)
             message.(Message.segments) message.(Message.operator) estimated_cost)))).

End Procedures.

(** ** What each check rests on *)
Section Checks.

Context `{E : CratestackErrors}.
Context `{UD : UnicodeDebug}.
Context `{PL : PhoneLib}.
Context `{UN : UnicodeNormalization}.
Context `{ML : MacLib}.
Context `{CA : Calendar}.
Context `{DL : DecimalLib}.
Variable pepper : text.

Lemma get_or_fetch_reader c key fetch :
  reader (fetch key) -> reader (get_or_fetch c key fetch).
Proof.
  intros Hf. unfold get_or_fetch. split; [done|]. intros [v|]; [done|].
  apply reader_bind_ok; [done|]. intros v. by split.
Qed.

Lemma resolve_app_reader id : reader (resolve_app id).
Proof. apply get_or_fetch_reader. unfold load_app_of. solve_reader. Qed.

(** The app a client of this id sends for: the active app, read during the
    request, of an active client row with that very client id; or the active
    app this process has cached under it. *)
Definition app_of_client (tr : trace) (client_id : text) (a : App.t) : Prop :=
  a.(App.active) = true /\
  (Ev (CacheGet AppCache client_id) (Some a) ∈ tr \/
   exists c, known tr TAppClient c /\ c.(AppClient.clientId) = client_id /\
     c.(AppClient.active) = true /\ known tr TApp a /\ a.(App.id) = c.(AppClient.appId)).

Lemma app_of_client_app l tr id a : app_of_client tr id a -> app_of_client (l ++ tr) id a.
Proof.
  intros [Ha [?|(c & Hc & ? & ? & Hk & ?)]]; (split; [done|]).
  - left. apply elem_of_app. by right.
  - right. exists c. split_and!; try done; by apply known_app.
Qed.

Lemma app_of_client_cons e tr id a : app_of_client tr id a -> app_of_client (e :: tr) id a.
Proof. apply (app_of_client_app [e]). Qed.

Lemma wp_resolve_app id tr :
  wp (resolve_app id) tr (fun r tr' => forall a, r = Ok a -> app_of_client tr' id a).
Proof.
  apply wp_get_or_fetch; [intros v Hv ? [= <-]; split; [done|]; left; by left|]. unfold load_app_of.
  apply wp_ok_bind, wp_first_or; [|by intros]. intros c rows [Hid Hact]%andb_true_iff _ Hc.
  apply (wp_first_or (t := TApp)); [|by intros].
  intros a rows' [Hid' Ha]%andb_true_iff _ Hk. apply bool_decide_eq_true in Hid, Hid'.
  split; [done|]. intros ? [= <-]. apply app_of_client_cons. split; [done|]. right. exists c.
  split_and!; try done. by apply known_cons.
Qed.

Lemma classify_operator_reader m : reader (classify_operator m).
Proof.
  apply reader_bind_ok; [|done]. apply get_or_fetch_reader. unfold load_operator_table. solve_reader.
Qed.

Lemma wp_classify_operator m tr : wp (classify_operator m) tr (fun _ _ => True).
Proof.
  apply wp_ok_bind, wp_get_or_fetch; [done|]. unfold load_operator_table.
  apply wp_find_ok; [|done]. by intros.
Qed.

Lemma ensure_not_opted_out_reader h : reader (ensure_not_opted_out h).
Proof. unfold ensure_not_opted_out. solve_reader. Qed.

Lemma wp_not_opted_out h tr :
  wp (ensure_not_opted_out h) tr (fun r tr' =>
    is_ok r = true -> Ev (FindMany TOptOut (opted_out_query h)) (Ok []) ∈ tr').
Proof.
  unfold ensure_not_opted_out. apply wp_find_ok; [|done].
  intros [|o rows] _ _ _; cbn [wp]; [intros _; by left | done].
Qed.

Lemma ensure_consent_reader a h c : reader (ensure_consent_on_file a h c).
Proof. unfold ensure_consent_on_file. solve_reader. Qed.

Lemma wp_consent a h class tr :
  wp (ensure_consent_on_file a h class) tr (fun r tr' => is_ok r = true ->
    exists c, known tr' TConsent c /\ c.(ConsentRecord.appId) = a /\
      c.(ConsentRecord.msisdnHash) = h /\ c.(ConsentRecord.scope) = class).
Proof.
  unfold ensure_consent_on_file. apply wp_find_ok; [|done].
  intros [|c rows] Hw _ _; cbn [wp]; [done|]. intros _. apply Forall_cons in Hw as [Hc _].
  cbn [q_where consent_query] in Hc. split_and_bool. exists c.
  split; [|done]. apply known_find. by left.
Qed.

Lemma ensure_quota_reader a now : reader (ensure_within_quota a now).
Proof. unfold ensure_within_quota. solve_reader. Qed.

Lemma counted_spec app now m :
  counted app now m = true <->
  m.(Message.appId) = app.(App.id) /\ month_start now <= m.(Message.createdAt).
Proof. unfold counted. by rewrite andb_true_iff, bool_decide_eq_true, Z.leb_le. Qed.

Lemma wp_quota a now tr :
  wp (ensure_within_quota a now) tr (fun r tr' => is_ok r = true ->
    exists n, Ev (Count TMessage (counted a now)) (Ok n) ∈ tr' /\ n < a.(App.monthlyQuota)).
Proof.
  unfold ensure_within_quota. apply wp_ok_bind. split; [done|]. intros [n|e] _; cbn [wp]; [|done].
  destruct (Z.ltb_spec n (App.monthlyQuota a)); cbn [wp]; [|done].
  intros _. exists n. split; [by left | done].
Qed.

Lemma resolve_sender_reader a s : reader (resolve_sender_id a s).
Proof. unfold resolve_sender_id, requested_sender. solve_reader. Qed.

(** The sender is active and registered with some provider. *)
Definition registered (tr : trace) (sender : text) : Prop :=
  exists s reg, known tr TSenderId s /\ s.(SenderId.value) = sender /\ s.(SenderId.active) = true /\
    known tr TSenderReg reg /\ reg.(SenderIdRegistration.senderIdId) = s.(SenderId.id) /\
    reg.(SenderIdRegistration.status) = SenderIdRegistrationStatus.approved.

Lemma wp_sender a requested tr :
  wp (resolve_sender_id a requested) tr (fun r tr' => forall v, r = Ok v ->
    registered tr' v /\ forall u, requested = Some u -> v = u).
Proof.
  unfold resolve_sender_id. apply wp_ok_bind.
  apply wp_mono with (Q := fun r _ => forall v, r = Ok v -> forall u, requested = Some u -> v = u).
  - intros [v|e] tr1 Hv; [|by intros ? [=]]. apply wp_ok_bind, (wp_first_or (t := TSenderId)); [|by intros].
    intros s rows Hs _ Hk. cbn [q_where] in Hs. split_and_bool.
    apply wp_ok_bind, (wp_first_or (t := TSenderReg)); [|by intros].
    intros reg rows' Hr _ Hk'. cbn [q_where] in Hr. split_and_bool. intros ? [= <-].
    split; [|by apply Hv]. exists s, reg. split_and!; try done. by apply known_cons.
  - unfold requested_sender. destruct requested as [u|]; [by intros ? [= <-] ? [= <-]|].
    apply wp_ok_bind. cbn [wp lift]. destruct (App.defaultSenderIdId a); cbn [ok_or]; [|by intros].
    apply wp_ok_bind, (wp_first_or (t := TSenderId)); by intros.
Qed.

Lemma estimate_cost_reader n : reader (estimate_cost n).
Proof. unfold estimate_cost, or_panic. solve_reader. Qed.

Lemma wp_cost n tr : 0 <= n <= 255 -> wp (estimate_cost n) tr (fun _ _ => True).
Proof.
  intros Hn. unfold estimate_cost. apply wp_ok_bind. split; [done|]. intros [rows|e] Hr; [|done].
  destruct Hr as [Hw _]. cbn [wp].
  assert (exists m s, match rows with [] => (0, 0) | p :: _ => Provider.costPerSegmentXaf p end = (m, s)
            /\ Z.abs m < 2 ^ 80) as (m & s & -> & Hm).
  { destruct rows as [|p rows]; [by exists 0, 0|]. apply Forall_cons in Hw as [[_ Hwf] _].
    cbn [row_wf] in Hwf. unfold price_ok in Hwf. apply Z.ltb_lt in Hwf.
    destruct (Provider.costPerSegmentXaf p) as [m s]. by exists m, s. }
  rewrite (decimal_mul_exact m s n); [done|]. rewrite Z.abs_mul. nia.
Qed.

Lemma quiet_hours_reader t : reader (ensure_within_marketing_quiet_hours t).
Proof. unfold ensure_within_marketing_quiet_hours, or_panic. solve_reader. Qed.

(** Delivery between 8:00 and 20:00 in UTC+1. *)
Definition in_marketing_window (t : Z) : Prop := 8 <= (t / hours 1 + 1) mod 24 < 20.

Lemma wp_quiet_hours t tr :
  MIN_UTC / 2 <= t <= MAX_UTC / 2 ->
  wp (ensure_within_marketing_quiet_hours t) tr (fun r _ => is_ok r = true -> in_marketing_window t).
Proof.
  intros Ht. unfold ensure_within_marketing_quiet_hours, is_within_marketing_quiet_hours, chrono_add.
  assert (hour (t + hours WAT_OFFSET_HOURS) = (t / hours 1 + 1) mod 24) as Hh.
  { unfold hour. change (hours WAT_OFFSET_HOURS) with (1 * hours 1).
    by rewrite Z.div_add by done. }
  assert ((MIN_UTC <=? t + hours WAT_OFFSET_HOURS) && (t + hours WAT_OFFSET_HOURS <=? MAX_UTC) = true) as ->.
  { change (MIN_UTC / 2) with (-4167300614400000000) in Ht.
    change (MAX_UTC / 2) with 4105133438399999999 in Ht.
    change (hours WAT_OFFSET_HOURS) with 3600000000. unfold MIN_UTC, MAX_UTC.
    apply andb_true_iff. split; apply Z.leb_le; lia. }
  cbn [mbind option_bind or_panic]. rewrite Hh.
  unfold MARKETING_QUIET_HOURS_START_WAT, MARKETING_QUIET_HOURS_END_WAT.
  destruct (_ && _) eqn:Hb; cbn [wp]; [|done]. intros _. split_and_bool.
  unfold in_marketing_window. lia.
Qed.

(** Arguments that stay clear of the ends of chrono's range: a validity of at
    most a billion minutes, a time within half the range. *)
Definition sane (args : SendMessageInput) : Prop :=
  (forall n, si_validityMinutes args = Some n -> -1000000000 <= n <= 1000000000) /\
  (forall t, si_scheduledAt args = Some t -> MIN_UTC / 2 <= t <= MAX_UTC / 2).

Definition class_of (args : SendMessageInput) : MessageClass.t :=
  default MessageClass.transactional (si_class args).

(** The classes that need the recipient's consent. *)
Definition consent_class (c : MessageClass.t) : Prop :=
  c = MessageClass.notification \/ c = MessageClass.marketing.

(** When the message is due, and when it stops being worth sending. *)
Definition due_at (now : Z) (args : SendMessageInput) : Z := default now (si_scheduledAt args).

Definition expiry (now : Z) (args : SendMessageInput) : Z :=
  due_at now args +
  match si_validityMinutes args, class_of args with
  | Some n, _ => minutes n
  | None, MessageClass.otp => minutes 15
  | None, _ => hours 24
  end.

(** Everything that was established, within this request, before the message
    was stored. *)
Record cleared (tr : trace) (client_id : text) (args : SendMessageInput) (now : Z) (app : App.t)
  (hash sender : text) : Prop := {
  clear_app : app_of_client tr client_id app;
  clear_opt_out : consent_class (class_of args) ->
    Ev (FindMany TOptOut (opted_out_query hash)) (Ok []) ∈ tr;
  clear_consent : consent_class (class_of args) ->
    exists c, known tr TConsent c /\ c.(ConsentRecord.appId) = app.(App.id) /\
      c.(ConsentRecord.msisdnHash) = hash /\ c.(ConsentRecord.scope) = class_of args;
  clear_quiet : class_of args = MessageClass.marketing -> in_marketing_window (due_at now args);
  clear_quota : exists f n, Ev (Count TMessage f) (Ok n) ∈ tr /\ n < app.(App.monthlyQuota) /\
    (forall m, f m = true <-> m.(Message.appId) = app.(App.id) /\ month_start now <= m.(Message.createdAt));
  clear_sender : registered tr sender /\ forall u, si_senderId args = Some u -> sender = u }.

Lemma expiry_defined now args :
  sane args -> 0 <= now < CLOCK_END ->
  exists v, validity_of (class_of args) (si_validityMinutes args) = Some v /\
    chrono_add (due_at now args) v = Some (expiry now args).
Proof.
  intros [Hval Hsch] Hnow.
  assert (MIN_UTC / 2 <= due_at now args <= MAX_UTC / 2) as Hd.
  { unfold due_at. destruct (si_scheduledAt args) as [t|]; cbn [from_option id]; [by apply Hsch|].
    unfold CLOCK_END in Hnow. change (MIN_UTC / 2) with (-4167300614400000000).
    change (MAX_UTC / 2) with 4105133438399999999. lia. }
  assert (exists v, validity_of (class_of args) (si_validityMinutes args) = Some v /\
            expiry now args = due_at now args + v /\ Z.abs v <= 60000000000000000)
    as (v & Hv & -> & Hb).
  { unfold expiry, validity_of. destruct (si_validityMinutes args) as [n|].
    - specialize (Hval n eq_refl). exists (minutes n). unfold chrono_minutes.
      rewrite (proj2 (Z.leb_le _ _)) by lia. split_and!; [done | done|].
      unfold minutes, seconds. lia.
    - eexists. split; [done|]. by destruct (class_of args). }
  exists v. split; [done|]. unfold chrono_add.
  change (MIN_UTC / 2) with (-4167300614400000000) in Hd.
  change (MAX_UTC / 2) with 4105133438399999999 in Hd. unfold MIN_UTC, MAX_UTC.
  by rewrite (proj2 (andb_true_iff _ _)) by (split; apply Z.leb_le; lia).
Qed.

Lemma pack_loop_grows cap seg u l : seg <= pack_loop cap seg u l.
Proof.
  revert seg u. induction l as [|c l IH]; intros seg u; cbn [pack_loop]; [lia|].
  destruct (u + c >? cap); [|apply IH]. etrans; [|apply IH]. lia.
Qed.

Lemma segments_range body : 0 <= er_segments (analyse body) <= 255.
Proof.
  assert (forall costs single cap, 0 <= p_segments (Encoding.pack costs single cap) <= 255) as Hp.
  { intros costs single cap. unfold Encoding.pack. destruct (_ <=? _); cbn [p_segments]; [lia|].
    pose proof (pack_loop_grows cap 1 0 costs). lia. }
  unfold analyse. destruct (analyse_loop body) as [[[|o offending] escapes] costs]; apply Hp.
Qed.

(** The row an accepted message is stored as. *)
Definition message_input (args : SendMessageInput) (now : Z) (app : App.t) (to sender : text)
  (operator : OperatorCode.t) : CreateMessageInput :=
  let body := stored_body app (si_body args) in
  let report := analyse body in
  {| cm_appId := app.(App.id); cm_clientRef := si_clientRef args;
     cm_idempotencyKey := si_clientRef args; cm_msisdn := to;
     cm_msisdnHash := hmac_sha256_hex pepper to; cm_operator := operator;
     cm_senderIdValue := sender; cm_class := class_of args; cm_priority := 100;
     cm_body := Some body; cm_bodyHash := hmac_sha256_hex pepper body;
     cm_bodyLength := clamp_i64 (byte_len body); cm_encoding := encoding_of (er_encoding report);
     cm_segments := er_segments report; cm_maxAttempts := 3;
     cm_scheduledAt := si_scheduledAt args; cm_expiresAt := expiry now args |}.

(** What a finished [send] leaves: an accepted message, stored once after
    every check; or a refusal, with nothing stored but what a failed insert
    may have left. *)
Definition sent (ctx : CratestackContext) (args : SendMessageInput)
  (r : result SendMessageResult CratestackError) (tr : trace) : Prop :=
  match r with
  | Ok res => exists now client app msisdn operator sender id at_ cost,
      let input := message_input args now app (e164 msisdn) sender operator in
      Ev Now now ∈ tr /\
      rbac_holds (context_perms ctx) (context_scope ctx) (lit "sms:send") = true /\
      string_field ctx (lit "kind") = Some (lit "app") /\
      string_field ctx (lit "sub") = Some client /\
      parse_mobile (si_to args) = Ok msisdn /\
      cleared tr client args now app (cm_msisdnHash input) sender /\
      creates TMessage tr = [input] /\
      head tr = Some (Ev (Create TMessage input) (Ok (created TMessage id at_ input))) /\
      res = mkSendResult id MessageState.accepted (cm_encoding input) (cm_segments input) operator cost
  | Err _ => creates TMessage tr = [] \/
      exists input e l, tr = Ev (Create TMessage input) (Err e) :: l /\ creates TMessage l = []
  end.

(** Facts about a shorter trace hold of a longer one. *)
Ltac grow :=
  repeat first [ assumption | apply list_elem_of_here | apply app_of_client_app
               | apply app_of_client_cons | apply known_app | apply known_cons
               | apply elem_of_app; right | apply list_elem_of_further ].

Lemma consent_controls c : requires_recipient_consent_controls c = true <-> consent_class c.
Proof. unfold consent_class. destruct c; split; intros H; try done; auto; by destruct H. Qed.

(** A check made only for some classes. *)
Lemma wp_when {B} (b : bool) (p : prog (result unit CratestackError)) (f : unit -> prog (result B CratestackError))
  tr (P : trace -> Prop) Q :
  (b = true -> reader p) -> (b = true -> wp p tr (fun r tr' => is_ok r = true -> P tr')) ->
  (forall e l, Forall read_only l -> Q (Err e) (l ++ tr)) ->
  (forall l, Forall read_only l -> (b = true -> P (l ++ tr)) -> wp (f tt) (l ++ tr) Q) ->
  wp (pbind_ok (if b then p else Ret (Ok tt)) f) tr Q.
Proof.
  intros Hr Hp He Hf. destruct b.
  - eapply wp_read_ok; [by apply Hr | by apply Hp | done |].
    intros [] l Hl HP. apply Hf; [done|]. intros _. by apply HP.
  - apply (Hf []); [constructor | done].
Qed.

Lemma wp_send_message ctx args : sane args -> wp (send pepper ctx args) [] (sent ctx args).
Proof.
  intros Hsane. unfold send. apply wp_ok_bind. cbn [wp lift]. unfold require_permission.
  destruct (rbac_holds _ _ _) eqn:Hperm; [|by left].
  apply wp_clock. intros now Hnow. apply wp_ok_bind. cbn [wp lift]. unfold caller_client_id.
  destruct (string_field ctx (lit "kind")) as [kind|] eqn:Hkind; cbn [ok_or rbind]; [|by left].
  case_bool_decide as Hk; cbn [negb]; [|by left]. subst kind.
  destruct (string_field ctx (lit "sub")) as [client|] eqn:Hclient; cbn [ok_or]; [|by left].
  assert (forall tr e l, creates TMessage tr = [] -> Forall read_only l ->
    sent ctx args (Err e) (l ++ tr)) as Hrefuse.
  { intros tr e l Htr Hl. left. by rewrite creates_app_reads. }
  assert (forall tr l, creates TMessage tr = [] -> Forall read_only l ->
    creates TMessage (l ++ tr) = []) as Hnone.
  { intros tr l Htr Hl. by rewrite creates_app_reads. }
  assert (creates TMessage [Ev Now now] = []) as H0 by done.
  eapply wp_read_ok; [apply resolve_app_reader | apply wp_resolve_app | auto |].
  intros app l1 Hl1 Happ. specialize (Happ app eq_refl). pose proof (Hnone _ _ H0 Hl1) as H1.
  apply wp_ok_bind. cbn [wp lift]. destruct (parse_mobile (si_to args)) as [msisdn|e] eqn:Hto;
    cbn [map_err]; [|by left]. fold (class_of args).
  apply (wp_when _ _ _ _ (fun tr => Ev (FindMany TOptOut
    (opted_out_query (keyed_hash_hex pepper (e164 msisdn)))) (Ok []) ∈ tr));
    [intros; apply ensure_not_opted_out_reader | intros; apply wp_not_opted_out | auto |].
  intros l2 Hl2 Hopt. pose proof (Hnone _ _ H1 Hl2) as H2.
  fold (due_at now args).
  assert (MIN_UTC / 2 <= due_at now args <= MAX_UTC / 2) as Hd.
  { unfold due_at. destruct (si_scheduledAt args) as [t|] eqn:Ht; cbn [from_option id].
    - by apply Hsane.
    - unfold CLOCK_END in Hnow. change (MIN_UTC / 2) with (-4167300614400000000).
      change (MAX_UTC / 2) with 4105133438399999999. lia. }
  apply (wp_when _ _ _ _ (fun _ => in_marketing_window (due_at now args)));
    [intros; apply quiet_hours_reader | intros; by apply wp_quiet_hours | auto |].
  intros l3 Hl3 Hquiet. pose proof (Hnone _ _ H2 Hl3) as H3.
  apply (wp_when _ _ _ _ (fun tr => exists c, known tr TConsent c /\
      c.(ConsentRecord.appId) = app.(App.id) /\
      c.(ConsentRecord.msisdnHash) = keyed_hash_hex pepper (e164 msisdn) /\
      c.(ConsentRecord.scope) = class_of args));
    [intros; apply ensure_consent_reader | intros; apply wp_consent | auto |].
  intros l4 Hl4 Hcons. pose proof (Hnone _ _ H3 Hl4) as H4.
  eapply wp_read_ok; [apply ensure_quota_reader | apply wp_quota | auto |].
  intros [] l5 Hl5 Hquota. pose proof (Hnone _ _ H4 Hl5) as H5.
  eapply wp_read_ok; [apply resolve_sender_reader | apply wp_sender | auto |].
  intros sender l6 Hl6 Hsend. pose proof (Hnone _ _ H5 Hl6) as H6.
  eapply wp_read_ok; [apply classify_operator_reader | apply wp_classify_operator | auto |].
  intros operator l7 Hl7 _. pose proof (Hnone _ _ H6 Hl7) as H7.
  eapply wp_read_ok; [apply estimate_cost_reader | apply wp_cost, segments_range | auto |].
  intros cost l8 Hl8 _. pose proof (Hnone _ _ H7 Hl8) as H8.
  destruct (expiry_defined now args Hsane Hnow) as (v & -> & Hexp). cbn [or_panic].
  rewrite Hexp. cbn [or_panic]. apply wp_ok_bind. split; [done|].
  set (input := mkCreateMessage _ _ _ _ _ _ _ _ _ _ _ _ _ _ _ _ _).
  intros [row|e] Hrow; cbn [wp]; [|right; by eexists input, e, _].
  destruct Hrow as (id & at_ & ->).
  exists now, client, app, msisdn, operator, sender, id, at_, cost.
  change (message_input args now app (e164 msisdn) sender operator) with input.
  split_and!; try done; [grow | | by rewrite creates_same, H8].
  destruct Hquota as (n & Hn & Hlt); [done|]. destruct (Hsend sender eq_refl) as [Hreg Hsame].
  constructor.
  - grow.
  - intros Hc%consent_controls. specialize (Hopt Hc). cbn [cm_msisdnHash input]. grow.
  - intros Hc%consent_controls. destruct (Hcons Hc) as (c & Hc' & Hrest). exists c. split; [grow | done].
  - intros Hm. apply Hquiet. by rewrite Hm.
  - exists (counted app now), n. split_and!; [grow | done | apply counted_spec].
  - split; [|done]. destruct Hreg as (sn & reg & Hs & ? & ? & Hr & ? & ?). exists sn, reg.
    split_and!; try done; grow.
Qed.

End Checks.

(** C13. Accepting a message. A [send] with arguments clear of the ends of
    chrono's range never panics, whatever other writers do. When it answers
    [Ok] the caller held sms:send and was a machine, the number parsed as one
    an SMS can reach, and, within this request and before anything was stored:
    the app is the caller's own, which is the active app of the active client
    row whose client id is the caller's subject, read then, or the active app
    cached under that id; for a notification or a marketing message no opt-out was on file and a
    consent of that app, recipient and class was; a marketing message is due
    between 8:00 and 20:00 local time; fewer messages than the quota were
    counted this month; the sender is active and approved. Then exactly one
    message was stored, last of all, with the checked columns, and the answer
    repeats them. When it answers an error nothing was stored, or the insert
    itself failed. *)
Theorem send_accepts `{E : CratestackErrors} `{B : !Backend} `{UD : UnicodeDebug} `{PL : PhoneLib}
  `{UN : UnicodeNormalization} `{ML : MacLib} `{CA : Calendar} `{DL : DecimalLib}
  pepper ctx args p tr w w' :
  sane args -> world_ok w ->
  rtc step (send pepper ctx args, [], w) (p, tr, w') ->
  p <> Panic /\ forall r, p = Ret r -> sent pepper ctx args r tr.
Proof.
  intros Hsane Hok Hrun. pose proof (wp_send_message pepper ctx args Hsane) as Hwp.
  split; [by apply (wp_run_safe _ _ _ _ _ _ Hwp Hok Hrun)|]. intros r ->.
  exact (wp_run _ _ _ _ _ _ _ Hwp Hok (valid_nil _) (Forall_nil_2 _) Hrun).
Qed.

Lemma send_opted_out `{E : CratestackErrors} `{B : !Backend} `{UD : UnicodeDebug}
  `{PL : PhoneLib} `{UN : UnicodeNormalization} `{ML : MacLib} `{CA : Calendar} `{DL : DecimalLib}
  pepper ctx args m o r tr w w' :
  sane args -> world_ok w -> consent_class (class_of args) ->
  parse_mobile (si_to args) = Ok m ->
  o.(OptOut.msisdnHash) = hmac_sha256_hex pepper (e164 m) ->
  rtc (step_with TOptOut o) (send pepper ctx args, [], w) (Ret r, tr, w') -> is_ok r = false.
Proof.
  intros Hsane Hok Hc Hm Ho Hrun. destruct r as [res|e]; [|done].
  pose proof (wp_run _ _ _ _ _ _ _ (wp_send_message pepper ctx args Hsane) Hok (valid_nil _) (Forall_nil_2 _)
    (step_with_step _ _ _ _ Hrun)) as Hs.
  destruct Hs as (now & client & app & m' & op & sender & id & at_ & cost & _ & _ & _ & _ & Hm' & Hcl & _).
  rewrite Hm in Hm'. injection Hm' as <-. pose proof (clear_opt_out _ _ _ _ _ _ _ Hcl Hc) as He.
  exfalso. apply (seen TOptOut o _ _ _ _ _ _ eq_refl Hrun He). split; [done|].
  split; [|by intros n [= <-]]. exists eq_refl. cbn [eq_rect q_where opted_out_query].
  apply bool_decide_eq_true. exact Ho.
Qed.

(** An opt-out is honoured. While an opt-out for a number is on file, no
    [send] of a notification or a marketing message to that number is
    accepted, however it is spelt, whatever app asks and whatever other
    writers do meanwhile. *)
Theorem opted_out_never_accepted `{E : CratestackErrors} `{B : !Backend} `{UD : UnicodeDebug}
  `{PL : PhoneLib} `{UN : UnicodeNormalization} `{ML : MacLib} `{CA : Calendar} `{DL : DecimalLib}
  pepper ctx args m o r tr w w' :
  sane args -> world_ok w -> consent_class (class_of args) ->
  parse_mobile (si_to args) = Ok m ->
  o.(OptOut.msisdnHash) = hmac_sha256_hex pepper (e164 m) ->
  rtc (step_with TOptOut o) (send pepper ctx args, [], w) (Ret r, tr, w') -> is_ok r = false.
Proof. apply send_opted_out. Qed.

(** ** The start of the month *)

(** Counting back from a day reaches the first of its month. *)
Lemma day_of_month_back `{Calendar} d k :
  0 <= k < day_of_month d -> day_of_month (d - k) = day_of_month d - k.
Proof.
  intros Hk. assert (exists n, k = Z.of_nat n) as [n ->] by (exists (Z.to_nat k); lia).
  induction n as [|n IH]; [by rewrite !Z.sub_0_r|].
  destruct (day_of_month_step (d - Z.of_nat (S n))) as [Hs|Hs];
    replace (d - Z.of_nat (S n) + 1) with (d - Z.of_nat n) in Hs by lia;
    rewrite IH in Hs by lia; lia.
Qed.

(** The quota is counted from the start of the month: a midnight, on a
    first of the month, not after now, and the latest such. *)
Theorem month_start_latest `{Calendar} now :
  let s := month_start now in
  s <= now /\ s mod DAY = 0 /\ day_of_month (s / DAY) = 1 /\
  forall t, t mod DAY = 0 -> day_of_month (t / DAY) = 1 -> t <= now -> t <= s.
Proof.
  unfold month_start. cbn zeta. assert (0 < DAY) as HD by done.
  pose proof (Z.div_mod now DAY ltac:(lia)) as Hn.
  pose proof (Z.mod_pos_bound now DAY HD) as Hb.
  assert (forall t, t <= now -> t / DAY <= now / DAY) as Hmono by (intros; by apply Z.div_le_mono).
  generalize dependent (now / DAY). intros d Hn Hmono.
  pose proof (day_of_month_range d) as Hr.
  rewrite Z.div_mul by lia. rewrite Z.mod_mul by lia. split_and!.
  - nia.
  - done.
  - rewrite day_of_month_back; lia.
  - intros t Ht Hd Hle. pose proof (Z.div_mod t DAY ltac:(lia)) as Htd. rewrite Ht in Htd.
    specialize (Hmono t Hle). generalize dependent (t / DAY). intros e He Htd Hle'.
    destruct (Z_le_gt_dec e (d - (day_of_month d - 1))) as [Hl|Hg]; [nia|]. exfalso.
    assert (day_of_month (d - (d - e)) = day_of_month d - (d - e)) as Hx
      by (apply day_of_month_back; lia).
    replace (d - (d - e)) with e in Hx by lia. lia.
Qed.

(** ** Example: a calendar, a decimal library, and a run *)

(** The proleptic Gregorian calendar, in periods of 400 years from 1 March of
    the year 0: the day of such a year, and its day of the month. *)
Definition day_of_year (doe : Z) : Z :=
  let century := Z.min (doe / 36524) 3 in
  let s := (doe - century * 36524) mod 1461 in
  s - 365 * Z.min (s / 365) 3.

Definition month_day (doy : Z) : Z := doy - (153 * ((5 * doy + 2) / 153) + 2) / 5 + 1.

Definition gregorian_day (d : Z) : Z := month_day (day_of_year ((d + 719468) mod 146097)).

Lemma day_of_year_step doe :
  0 <= doe < 146097 ->
  0 <= day_of_year doe <= 365 /\
  (day_of_year ((doe + 1) mod 146097) = day_of_year doe + 1 \/
   day_of_year ((doe + 1) mod 146097) = 0).
Proof.
  intros Hd. destruct (decide (doe = 146096)) as [->|Hne].
  - split; [split; vm_compute; discriminate | right; reflexivity].
  - rewrite (Z.mod_small (doe + 1)) by lia. unfold day_of_year. cbn zeta.
    Z.to_euclidean_division_equations. lia.
Qed.

Lemma month_day_step doy :
  0 <= doy <= 365 ->
  1 <= month_day doy <= 31 /\
  (month_day (doy + 1) = month_day doy + 1 \/ month_day (doy + 1) = 1).
Proof. intros Hd. unfold month_day. Z.to_euclidean_division_equations. lia. Qed.

Lemma gregorian_spec d :
  1 <= gregorian_day d <= 31 /\
  (gregorian_day (d + 1) = gregorian_day d + 1 \/ gregorian_day (d + 1) = 1).
Proof.
  unfold gregorian_day. replace (d + 1 + 719468) with (d + 719468 + 1) by lia.
  rewrite <- (Zplus_mod_idemp_l (d + 719468) 1). pose proof (Z.mod_pos_bound (d + 719468) 146097 ltac:(lia)) as Hb.
  destruct (day_of_year_step _ Hb) as [Hr Hs]. destruct (month_day_step _ Hr) as [Hm Hms].
  split; [done|]. by destruct Hs as [-> | ->]; [|right].
Qed.

Definition gregorian : Calendar := {|
  day_of_month := gregorian_day;
  day_of_month_range d := proj1 (gregorian_spec d);
  day_of_month_step d := proj2 (gregorian_spec d) |}.

(** Exact products that fit 96 bits. *)
Definition demo_decimal : DecimalLib.
Proof.
  refine {| decimal_mul d n := if Z.abs (d.1 * n) <? 2 ^ 96 then Some (d.1 * n, d.2) else None |}.
  intros m s n Hlt. cbn [fst snd]. by rewrite (proj2 (Z.ltb_lt _ _) Hlt).
Defined.

Definition demo_unicode : UnicodeNormalization := {| nfc s := s; nfd_char c := [c] |}.

Section Demo.

#[local] Existing Instance demo_errors.
#[local] Existing Instance demo_debug.
#[local] Existing Instance demo_phone.
#[local] Existing Instance WebhookExamples.demo_mac.
#[local] Existing Instance gregorian.
#[local] Existing Instance demo_decimal.
#[local] Existing Instance demo_unicode.

Definition demo_pepper : text := lit "0123456789abcdef0123456789abcdef".

Definition demo_app : App.t :=
  App.mk (lit "app1") 0 0 (lit "Shop") (lit "shop") None (Some (lit "s1")) 2 (lit " ") true true None 0.

(** One app with its client, an approved sender, a provider and a consent. *)
Definition shop_world : world :=
  insert_row (insert_row (insert_row (insert_row (insert_row (insert_row (insert_row empty_world
    TApp demo_app)
    TAppClient (AppClient.mk (lit "ac1") 0 0 (lit "app1") (lit "shop-1") (lit "Shop") (lit " sms:send ")
                  true None None 0))
    TSenderId (SenderId.mk (lit "s1") 0 0 (lit "SHOP") SenderIdKind.alphanumeric None true 0))
    TSenderReg (SenderIdRegistration.mk (lit "sr1") 0 0 (lit "s1") (lit "pv1")
                  SenderIdRegistrationStatus.approved None None None None 0))
    TProvider (ex_provider (lit "pv1") (lit "orange_cm") 0))
    TPrefixRule (OperatorPrefixRule.mk (lit "o1") 0 0 (lit "67") OperatorCode.mtn OperatorPrefixSource.seed
                   OperatorPrefixConfidence.verified None None true 0))
    TConsent (ConsentRecord.mk (lit "c1") 0 0 (lit "app1")
                (hmac_sha256_hex demo_pepper (lit "+237677123456")) (lit "+237677123456")
                MessageClass.marketing ConsentChannel.web_form 0 None).

Definition shop_context : CratestackContext :=
  context_for (SApp (mkAppStanding (lit "shop-1") (lit "app1") (lit " sms:send "))).

(** Marketing for noon of the day, valid for an hour. *)
Definition shop_args (validity : option Z) : SendMessageInput :=
  mkSendInput (lit "677 12 34 56") (lit "Sale today") None (Some MessageClass.marketing)
    (Some (lit "order-7")) (Some (ex_now / DAY * DAY + hours 11)) validity.

Definition shop_send (validity : option Z) : prog (result SendMessageResult DemoError) :=
  send demo_pepper shop_context (shop_args validity).

Definition shop_run : config (result SendMessageResult DemoError) :=
  ref_run accepting (shop_send (Some 60)) [] shop_world.

Lemma shop_world_ok : world_ok shop_world.
Proof. unfold shop_world. auto 12 with vsms. Qed.

Lemma shop_sane : sane (shop_args (Some 60)).
Proof. split; [intros n [= <-]; lia|]. intros t [= <-]. split; by vm_compute. Qed.

Lemma shop_run_ok : is_null (run_result shop_run) = false /\
  option_map is_ok (run_result shop_run) = Some true.
Proof. split; vm_compute; reflexivity. Qed.

Lemma send_accepts_witness :
  exists r, run_result shop_run = Some r /\ is_ok r = true /\
    sent demo_pepper shop_context (shop_args (Some 60)) r (run_trace shop_run).
Proof.
  destruct (run_result shop_run) as [r|] eqn:Hr; [|exfalso; revert Hr; by vm_compute].
  exists r. split; [done|]. split.
  - destruct shop_run_ok as [_ Ho]. rewrite Hr in Ho. by injection Ho.
  - destruct (@send_accepts _ (ref_backend accepting) _ _ _ _ _ _ demo_pepper shop_context
      (shop_args (Some 60)) _ _ shop_world _ shop_sane shop_world_ok
      (ref_run_done accepting _ [] shop_world r Hr)) as [_ Hs].
    by apply Hs.
Defined.

(** A run of the reference database that only reads keeps every row. *)
Fixpoint ref_reads {A} (o : oracle) (p : prog A) (w : world) : bool :=
  match p with
  | Ret _ | Panic => true
  | Call c k => read_call c && ref_reads o (k (ref_exec o c w).1) w
  end.

Lemma ref_read_call o {R} (c : call R) w : read_call c = true -> (ref_exec o c w).2 = w.
Proof. by destruct c. Qed.

Lemma ref_reads_steps {A} o (p : prog A) tr w t x :
  ref_reads o p w = true -> stored t x w ->
  rtc (@step_with _ (ref_backend o) A t x) (p, tr, w)
    ((ref_run o p tr w).1.1, (ref_run o p tr w).1.2, (ref_run o p tr w).2).
Proof.
  revert tr. induction p as [a| |R c k IH]; intros tr Hr Hx; cbn; [apply rtc_refl|apply rtc_refl|].
  cbn [ref_reads] in Hr. apply andb_true_iff in Hr as [Hc Hr].
  pose proof (ref_read_call o c w Hc) as Hw. destruct (ref_exec o c w) as [r w'] eqn:He.
  cbn [fst snd] in *. subst w'. eapply rtc_l; [|by apply IH].
  split; [by apply step_call | done].
Qed.

Definition demo_opt_out : OptOut.t :=
  OptOut.mk (lit "x1") 0 0 (hmac_sha256_hex demo_pepper (lit "+237677123456")) (lit "+237677123456")
    OptOutSource.inbound_stop (lit "all") None 0.

Definition opted_out_world : world := insert_row shop_world TOptOut demo_opt_out.

Definition opted_out_run : config (result SendMessageResult DemoError) :=
  ref_run accepting (shop_send (Some 60)) [] opted_out_world.

Lemma opted_out_reads : ref_reads accepting (shop_send (Some 60)) opted_out_world = true.
Proof. vm_compute. reflexivity. Qed.

Lemma opted_out_stored : stored TOptOut demo_opt_out opted_out_world.
Proof. vm_compute. reflexivity. Qed.

Lemma opted_out_finished : is_null (run_result opted_out_run) = false.
Proof. vm_compute. reflexivity. Qed.

Lemma opted_out_world_ok : world_ok opted_out_world.
Proof. exact (insert_row_ok _ _ _ shop_world_ok). Qed.

Lemma demo_parse : parse_mobile (si_to (shop_args (Some 60))) = Ok demo_msisdn.
Proof. vm_compute. reflexivity. Qed.

Lemma opted_out_steps :
  rtc (@step_with _ (ref_backend accepting) _ TOptOut demo_opt_out)
    (shop_send (Some 60), [], opted_out_world)
    (opted_out_run.1.1, opted_out_run.1.2, opted_out_run.2).
Proof. exact (ref_reads_steps _ _ _ _ _ _ opted_out_reads opted_out_stored). Qed.

(** The answer of a finished run. *)
Lemma refused_run {A X} (x : config (result A X)) :
  is_null (run_result x) = false -> (forall r, x.1.1 = Ret r -> is_ok r = false) ->
  option_map is_ok (run_result x) = Some false.
Proof.
  destruct x as [[p tr] w]. unfold run_result. cbn [fst snd]. destruct p as [r| |]; [|done|done].
  intros _ Hr. cbn. by rewrite (Hr r eq_refl).
Qed.

Lemma opted_out_never_accepted_witness :
  option_map is_ok (run_result opted_out_run) = Some false.
Proof.
  apply refused_run; [exact opted_out_finished|]. intros r Hp.
  pose proof opted_out_steps as Hrun. rewrite Hp in Hrun.
  exact (@opted_out_never_accepted _ (ref_backend accepting) _ _ _ _ _ _ demo_pepper shop_context
    (shop_args (Some 60)) demo_msisdn demo_opt_out r _ _ _ shop_sane opted_out_world_ok
    (or_intror eq_refl) demo_parse eq_refl Hrun).
Defined.

(** A validity that chrono cannot hold panics the request: the range check
    of [Duration::minutes] is a panic, and [send] passes the caller's number to
    it unchecked, after every other check has passed. *)
Theorem send_validity_unchecked :
  (ref_run accepting (shop_send (Some 153722867280913)) [] shop_world).1.1 = Panic /\
  option_map is_ok (run_result (ref_run accepting (shop_send (Some 60)) [] shop_world)) = Some true.
Proof. split; vm_compute; reflexivity. Qed.

End Demo.
