(* ===== verification/Operators.v ===== *)
(** * sms-api: the operator procedures (procedures.rs)

    [rotateWebhookSecret], [switchWebhookDeliveryMode], [replayWebhookAttempt]
    and [requeueJob]: each checks a permission and then makes its change in one
    serializable transaction.

    What an endpoint's deliveries are authenticated with is specified as a
    small machine ([credential], [cred_step]); the two endpoint procedures are
    proved to refine it, over the whole table of endpoints. *)

From S2P Require Import Prelude SealableUrl SentinelList ProviderApi Schema ApiSchema Errors.
From S2P Require Import Db DbLogic DbReads DbRef Commits Transactions WorkerRouting DemoData Jobs WebhookClaim.
From S2P Require Import Webhook Rbac.

Definition SECRET_BYTES : nat := 32.

Definition debug_AttemptState (s : AttemptState.t) : text :=
  match s with
  | AttemptState.pending => lit "pending"
  | AttemptState.delivering => lit "delivering"
  | AttemptState.succeeded => lit "succeeded"
  | AttemptState.failed => lit "failed"
  | AttemptState.dead => lit "dead"
  end.

Definition debug_JobState (s : JobState.t) : text :=
  match s with
  | JobState.pending => lit "pending"
  | JobState.running => lit "running"
  | JobState.succeeded => lit "succeeded"
  | JobState.failed => lit "failed"
  | JobState.dead => lit "dead"
  | JobState.cancelled => lit "cancelled"
  end.

Definition mode_name (m : WebhookDeliveryMode.t) : text :=
  match m with
  | WebhookDeliveryMode.sealed => lit "sealed"
  | WebhookDeliveryMode.hmac => lit "hmac"
  end.

Section Procedures.

Context `{E : CratestackErrors}.
Context `{UD : UnicodeDebug}.
Context `{UL : UrlLib}.

(** The deployment's choice about HMAC webhooks. *)
Variable hmac_webhooks : HmacWebhooks.

Definition endpoint_with (id : text) : query TEndpoint :=
  mkQuery (t := TEndpoint) (fun e => bool_decide (e.(WebhookEndpoint.id) = id)) [] (Some 1).

Definition no_endpoint (id : text) : CratestackError :=
  NotFound (lit "no WebhookEndpoint with id " ++ id).

Definition rotate_body (endpoint_id : text) : txn (result WebhookEndpoint.t CratestackError) :=
  lett? endpoint := tfirst_or (endpoint_with endpoint_id) (no_endpoint endpoint_id) in
  if negb (bool_decide (endpoint.(WebhookEndpoint.deliveryMode) = WebhookDeliveryMode.hmac)) then
    TRet (Err (Validation (lit "webhook endpoint " ++ endpoint_id
      ++ lit " is sealed: it has no signing secret to rotate (its deliveries are sealed under vsms's envelope signing key)")))
  else
    lett bytes := tdo (TRandomBytes SECRET_BYTES) in
    lett now := tdo TNow in
    tdo (TUpdate TEndpoint endpoint_id
      [ WebhookEndpoint.SetSecret (Some (generate_secret bytes));
        WebhookEndpoint.SetPrevSecret endpoint.(WebhookEndpoint.secret);
        WebhookEndpoint.SetSecretRotatedAt (Some now) ] endpoint.(WebhookEndpoint.version)).

Definition rotate_secret (ctx : CratestackContext) (endpoint_id : text)
  : prog (result WebhookEndpoint.t CratestackError) :=
  let!? _ := lift (require_permission ctx (lit "webhook:manage")) in
  let!? _ := lift (hmac_require hmac_webhooks
                     (lit "a signing secret cannot be rotated (rotateWebhookSecret)")) in
  do (Tx (rotate_body endpoint_id)).

(** The change of mode, or why there is none. *)
Definition refuse_switch {A} (message : text) : txn (result A CratestackError) :=
  TRet (Err (Validation message)).

Definition plan_mode_switch (endpoint : WebhookEndpoint.t) (mode : WebhookDeliveryMode.t)
  (audience : option text) : txn (result (list WebhookEndpoint.col) CratestackError) :=
  if bool_decide (endpoint.(WebhookEndpoint.deliveryMode) = mode) then
    refuse_switch (lit "webhook endpoint " ++ endpoint.(WebhookEndpoint.id) ++ lit " is already "
                     ++ mode_name mode ++ lit ": there is nothing to switch")
  else match mode with
  | WebhookDeliveryMode.hmac =>
      if negb (is_null audience) then
        refuse_switch (lit "an hmac endpoint has no audience: leave it out")
      else
        lett bytes := tdo (TRandomBytes SECRET_BYTES) in
        TRet (Ok [ WebhookEndpoint.SetDeliveryMode WebhookDeliveryMode.hmac;
                   WebhookEndpoint.SetAudience None;
                   WebhookEndpoint.SetSecret (Some (generate_secret bytes));
                   WebhookEndpoint.SetPrevSecret None;
                   WebhookEndpoint.SetSecretRotatedAt None ])
  | WebhookDeliveryMode.sealed =>
      match audience with
      | None | Some [] =>
          refuse_switch (lit "a sealed endpoint needs an audience: the name its receiver answers to")
      | Some audience =>
          if negb (url_can_be_sealed endpoint.(WebhookEndpoint.url)) then
            let reason := match delivery_route endpoint.(WebhookEndpoint.url) with
                          | Err (SealUrl reason) => reason
                          | _ => lit "its host or port is not written in the form a sealed endpoint takes"
                          end in
            refuse_switch (lit "webhook endpoint " ++ endpoint.(WebhookEndpoint.id)
              ++ lit "'s URL cannot carry a sealed delivery (" ++ reason ++ lit "): change the URL first")
          else TRet (Ok [ WebhookEndpoint.SetDeliveryMode WebhookDeliveryMode.sealed;
                          WebhookEndpoint.SetAudience (Some audience);
                          WebhookEndpoint.SetSecret None;
                          WebhookEndpoint.SetPrevSecret None;
                          WebhookEndpoint.SetSecretRotatedAt None ])
      end
  end.

Definition switch_body (endpoint_id : text) (mode : WebhookDeliveryMode.t) (audience : option text)
  : txn (result WebhookEndpoint.t CratestackError) :=
  lett? endpoint := tfirst_or (endpoint_with endpoint_id) (no_endpoint endpoint_id) in
  lett? change := plan_mode_switch endpoint mode audience in
  tmap_err map_database_error
    (tdo (TUpdate TEndpoint endpoint_id change endpoint.(WebhookEndpoint.version))).

Definition switch_mode (ctx : CratestackContext) (endpoint_id : text)
  (mode : WebhookDeliveryMode.t) (audience : option text)
  : prog (result WebhookEndpoint.t CratestackError) :=
  let!? _ := lift (require_permission ctx (lit "webhook:manage")) in
  let!? _ := lift (if bool_decide (mode = WebhookDeliveryMode.hmac)
                   then hmac_require hmac_webhooks
                          (lit "an endpoint cannot be switched to hmac (switchWebhookDeliveryMode)")
                   else Ok tt) in
  do (Tx (switch_body endpoint_id mode audience)).

(** *** replayWebhookAttempt *)
Definition replayed_patch (now : Z) : list WebhookAttempt.col :=
  [ WebhookAttempt.SetState AttemptState.pending;
    WebhookAttempt.SetAttempts 0;
    WebhookAttempt.SetLastStatusCode None;
    WebhookAttempt.SetLastError None;
    WebhookAttempt.SetLeaseOwner None;
    WebhookAttempt.SetLeaseUntil None;
    WebhookAttempt.SetNextAttemptAt (Some now) ].

(** A replay of an hmac endpoint's attempt, where the deployment has none. *)
Definition refuse_hmac_replay (endpoint_id : text) : txn (result unit CratestackError) :=
  if is_permitted hmac_webhooks then TRet (Ok tt)
  else
    lett? found := tfirst_row (endpoint_with endpoint_id) in
    if match found with
       | Some endpoint =>
           bool_decide (endpoint.(WebhookEndpoint.deliveryMode) = WebhookDeliveryMode.hmac)
       | None => false
       end
    then tlift (hmac_require hmac_webhooks
                  (lit "an hmac endpoint's attempt cannot be replayed (replayWebhookAttempt)"))
    else TRet (Ok tt).

(** The endpoint's breaker is closed again. *)
Definition close_circuit (endpoint_id : text) : txn (result unit CratestackError) :=
  lett? found := tfirst_row (endpoint_with endpoint_id) in
  match found with
  | Some endpoint =>
      if negb (endpoint.(WebhookEndpoint.consecutiveFailures) =? 0)
         || negb (is_null endpoint.(WebhookEndpoint.circuitOpenUntil)) then
        lett? _ := tdo (TUpdate TEndpoint endpoint.(WebhookEndpoint.id)
          [ WebhookEndpoint.SetConsecutiveFailures 0; WebhookEndpoint.SetCircuitOpenUntil None ]
          endpoint.(WebhookEndpoint.version)) in
        TRet (Ok tt)
      else TRet (Ok tt)
  | None => TRet (Ok tt)
  end.

Definition attempt_with (id : text) : query TAttempt :=
  mkQuery (t := TAttempt) (fun a => bool_decide (a.(WebhookAttempt.id) = id)) [] (Some 1).

Definition replay_body (attempt_id : text) (now : Z) : txn (result WebhookAttempt.t CratestackError) :=
  lett? attempt := tfirst_or (attempt_with attempt_id)
    (NotFound (lit "no WebhookAttempt with id " ++ attempt_id)) in
  match attempt.(WebhookAttempt.state) with
  | AttemptState.failed | AttemptState.dead =>
      lett? _ := refuse_hmac_replay attempt.(WebhookAttempt.endpointId) in
      lett? updated := tdo (TUpdate TAttempt attempt_id (replayed_patch now)
                              attempt.(WebhookAttempt.version)) in
      lett? _ := close_circuit attempt.(WebhookAttempt.endpointId) in
      TRet (Ok updated)
  | other =>
      TRet (Err (Conflict (lit "webhook attempt " ++ attempt_id ++ lit " is "
        ++ debug_AttemptState other ++ lit "; replay only applies to a failed or dead delivery")))
  end.

Definition replay_attempt (ctx : CratestackContext) (attempt_id : text)
  : prog (result WebhookAttempt.t CratestackError) :=
  let!? _ := lift (require_permission ctx (lit "webhook:manage")) in
  let! now := do Now in
  pmap_err map_database_error (do (Tx (replay_body attempt_id now))).

(** *** requeueJob *)
Definition requeued_patch (now : Z) : list Job.col :=
  [ Job.SetState JobState.pending;
    Job.SetAttempts 0;
    Job.SetLastError None;
    Job.SetLeaseOwner None;
    Job.SetLeaseUntil None;
    Job.SetRunAt now ].

Definition job_with (id : text) : query TJob :=
  mkQuery (t := TJob) (fun j => bool_decide (j.(Job.id) = id)) [] (Some 1).

Definition requeue_body (job_id : text) (now : Z) : txn (result Job.t CratestackError) :=
  lett? existing := tfirst_or (job_with job_id) (NotFound (lit "no Job with id " ++ job_id)) in
  if negb (bool_decide (existing.(Job.state) = JobState.dead)) then
    TRet (Err (Conflict (lit "job " ++ job_id ++ lit " is " ++ debug_JobState existing.(Job.state)
                           ++ lit "; requeue only applies to a dead job")))
  else tdo (TUpdate TJob job_id (requeued_patch now) existing.(Job.version)).

Definition requeue (ctx : CratestackContext) (job_id : text) : prog (result Job.t CratestackError) :=
  let!? _ := lift (require_permission ctx (lit "job:enqueue")) in
  let! now := do Now in
  pmap_err map_database_error (do (Tx (requeue_body job_id now))).

End Procedures.

(** ** The credential of an endpoint, as a machine *)
Inductive credential :=
| Shared (current : text) (previous : option text)
| Envelope (audience : text).

Definition cred_of (e : WebhookEndpoint.t) : option credential :=
  match e.(WebhookEndpoint.deliveryMode) with
  | WebhookDeliveryMode.hmac =>
      (fun s => Shared s e.(WebhookEndpoint.prevSecret)) <$> e.(WebhookEndpoint.secret)
  | WebhookDeliveryMode.sealed => Envelope <$> e.(WebhookEndpoint.audience)
  end.

Inductive endpoint_op := Rotate | ToHmac | ToSealed (audience : text).

(** A fresh secret is [whsec_] and 64 hexadecimal digits. *)
Definition fresh_secret (s : text) : Prop :=
  exists bytes, length bytes = 32%nat /\ Forall (fun b => 0 <= b < 256) bytes /\
    s = lit "whsec_" ++ hex_encode bytes.

(** Rotating keeps the old secret for one more rotation; switching keeps
    nothing of the other mode. *)
Inductive cred_step : endpoint_op -> credential -> credential -> Prop :=
| rotates s p s' : fresh_secret s' -> cred_step Rotate (Shared s p) (Shared s' (Some s))
| to_hmac a s' : fresh_secret s' -> cred_step ToHmac (Envelope a) (Shared s' None)
| to_sealed s p a : a <> [] -> a <> lit "vsms" -> cred_step (ToSealed a) (Shared s p) (Envelope a).

(** The table of credentials a database holds. *)
Definition creds (w : world) : gmap text credential := omap cred_of (w_tables w TEndpoint).

(** An endpoint but for its credential. *)
Definition same_but_credential (a b : WebhookEndpoint.t) : Prop :=
  b.(WebhookEndpoint.id) = a.(WebhookEndpoint.id) /\
  b.(WebhookEndpoint.createdAt) = a.(WebhookEndpoint.createdAt) /\
  b.(WebhookEndpoint.maskRecipient) = a.(WebhookEndpoint.maskRecipient) /\
  b.(WebhookEndpoint.maxAttempts) = a.(WebhookEndpoint.maxAttempts) /\
  b.(WebhookEndpoint.appId) = a.(WebhookEndpoint.appId) /\
  b.(WebhookEndpoint.url) = a.(WebhookEndpoint.url) /\
  b.(WebhookEndpoint.eventTypes) = a.(WebhookEndpoint.eventTypes) /\
  b.(WebhookEndpoint.active) = a.(WebhookEndpoint.active) /\
  b.(WebhookEndpoint.consecutiveFailures) = a.(WebhookEndpoint.consecutiveFailures) /\
  b.(WebhookEndpoint.circuitOpenUntil) = a.(WebhookEndpoint.circuitOpenUntil) /\
  b.(WebhookEndpoint.version) = a.(WebhookEndpoint.version) + 1.

Section Refinement.

Context `{E : CratestackErrors} `{B : !Backend}.
Context `{UL : UrlLib}.

Definition op_body (op : endpoint_op) (id : text) : txn (result WebhookEndpoint.t CratestackError) :=
  match op with
  | Rotate => rotate_body id
  | ToHmac => switch_body id WebhookDeliveryMode.hmac None
  | ToSealed a => switch_body id WebhookDeliveryMode.sealed (Some a)
  end.

(** The assignments each operation makes, and what they do to a credential. *)
Inductive op_patch : endpoint_op -> WebhookEndpoint.t -> list WebhookEndpoint.col -> Prop :=
| rotate_patch e s now : fresh_secret s -> e.(WebhookEndpoint.deliveryMode) = WebhookDeliveryMode.hmac ->
    op_patch Rotate e
      [ WebhookEndpoint.SetSecret (Some s);
        WebhookEndpoint.SetPrevSecret e.(WebhookEndpoint.secret);
        WebhookEndpoint.SetSecretRotatedAt (Some now) ]
| hmac_patch e s : fresh_secret s -> e.(WebhookEndpoint.deliveryMode) = WebhookDeliveryMode.sealed ->
    op_patch ToHmac e
      [ WebhookEndpoint.SetDeliveryMode WebhookDeliveryMode.hmac; WebhookEndpoint.SetAudience None;
        WebhookEndpoint.SetSecret (Some s); WebhookEndpoint.SetPrevSecret None;
        WebhookEndpoint.SetSecretRotatedAt None ]
| sealed_patch e a : e.(WebhookEndpoint.deliveryMode) = WebhookDeliveryMode.hmac ->
    op_patch (ToSealed a) e
      [ WebhookEndpoint.SetDeliveryMode WebhookDeliveryMode.sealed;
        WebhookEndpoint.SetAudience (Some a); WebhookEndpoint.SetSecret None;
        WebhookEndpoint.SetPrevSecret None; WebhookEndpoint.SetSecretRotatedAt None ].

Lemma random_secret bytes w w' :
  exec _ (RandomBytes SECRET_BYTES) w bytes w' -> w' = w /\ fresh_secret (generate_secret bytes).
Proof. intros (-> & Hl & Hb)%exec_RandomBytes. split; [done|]. by exists bytes. Qed.

(** Every run of a body that succeeds found the endpoint and made one
    conditional update of it with the operation's assignments. *)
Lemma op_body_run op id w e' w' :
  run_tx (op_body op id) w (Ok e') w' ->
  exists e p, w_tables w TEndpoint !! id = Some e /\ e.(WebhookEndpoint.id) = id /\
    endpoint_checks e = true /\ op_patch op e p /\
    exec _ (Update TEndpoint id p e.(WebhookEndpoint.version)) w (Ok e') w'.
Proof.
  assert (forall w1 e, w1 = w /\ (forall x, (Ok e : result _ CratestackError) = Ok x ->
      w_tables w TEndpoint !! row_id TEndpoint x = Some x /\
      q_where (endpoint_with id) x = true /\ row_wf TEndpoint x = true) ->
    w1 = w /\ w_tables w TEndpoint !! id = Some e /\ e.(WebhookEndpoint.id) = id /\
      endpoint_checks e = true) as Hfound.
  { intros w1 e [-> Hx]. destruct (Hx e eq_refl) as (Hs & Hid & Hwf). cbn [q_where endpoint_with] in Hid.
    apply bool_decide_eq_true in Hid. cbn [row_id] in Hs. by rewrite Hid in Hs. }
  destruct op as [| |a]; cbn [op_body]; unfold rotate_body, switch_body;
    (intros [(e & w1 & Hf & Hr)|(? & _ & [=])]%txrun_bind_ok);
    apply (txrun_first_or (t := TEndpoint)), Hfound in Hf as (-> & Hs & Hid & Hc);
    exists e; revert Hr.
  - destruct (bool_decide_reflect (WebhookEndpoint.deliveryMode e = WebhookDeliveryMode.hmac))
      as [Hm|]; cbn [negb]; [|by intros [[=] _]%txrun_inv].
    intros (bytes & w1 & [-> Hsec]%txrun_do%random_secret & Hr)%txrun_bind.
    apply txrun_bind in Hr as (now & w2 & Hn%txrun_do%exec_Now & Hr%txrun_do). subst w2.
    eexists. by split_and!; [| | |by apply rotate_patch|].
  - intros [(p & w1 & Hp & Hr)|(? & _ & [=])]%txrun_bind_ok.
    apply txrun_bind in Hr as ([b|er] & w2 & Hu%txrun_do & [He ->]%txrun_inv); [|done].
    injection He as ->. revert Hp. unfold plan_mode_switch.
    case_bool_decide as Hm; [by intros [[=] _]%txrun_inv|]. cbn [is_null negb].
    intros (bytes & w3 & [-> Hsec]%txrun_do%random_secret & [Hp ->]%txrun_inv)%txrun_bind.
    injection Hp as ->. eexists. split_and!; [done | done | done | apply hmac_patch; [done|] | done].
    by destruct (WebhookEndpoint.deliveryMode e).
  - intros [(p & w1 & Hp & Hr)|(? & _ & [=])]%txrun_bind_ok.
    apply txrun_bind in Hr as ([b|er] & w2 & Hu%txrun_do & [He ->]%txrun_inv); [|done].
    injection He as ->. revert Hp. unfold plan_mode_switch.
    case_bool_decide as Hm; [by intros [[=] _]%txrun_inv|].
    destruct a as [|x a]; [by intros [[=] _]%txrun_inv|].
    destruct (url_can_be_sealed _); cbn [negb]; [|by intros [[=] _]%txrun_inv].
    intros [Hp ->]%txrun_inv. injection Hp as ->. eexists.
    split_and!; [done | done | done | apply sealed_patch | done].
    by destruct (WebhookEndpoint.deliveryMode e).
Qed.

(** What the assignments do to a credential, given the CHECK constraints before
    and after. *)
Lemma op_patch_step op e p now clock b :
  op_patch op e p -> endpoint_checks e = true -> commit TEndpoint now clock p e = Some b ->
  endpoint_checks b = true ->
  same_but_credential e b /\
  exists c c', cred_of e = Some c /\ cred_of b = Some c' /\ cred_step op c c'.
Proof.
  intros Hp He [= <-] Hb. split; [by destruct Hp|].
  destruct Hp as [e s at_ Hs Hm|e s Hs Hm|e a Hm]; unfold endpoint_checks in He, Hb; rewrite Hm in He;
    unfold cred_of; cbn in Hb |- *; rewrite ?Hm; split_and_bool.
  - destruct (WebhookEndpoint.secret e) as [cur|]; [|done]. eexists _, _. split; [done|].
    split; [done|]. by constructor.
  - destruct (WebhookEndpoint.audience e) as [a|]; [|done]. eexists _, _. split; [done|].
    split; [done|]. by constructor.
  - destruct (WebhookEndpoint.secret e) as [cur|]; [|done]. eexists _, _. split; [done|].
    split; [done|]. constructor; [by intros -> | done].
Qed.

Lemma creds_lookup w id e : w_tables w TEndpoint !! id = Some e -> creds w !! id = cred_of e.
Proof.
  intros Hs. etrans; [apply lookup_omap|].
  exact (f_equal (fun o : option WebhookEndpoint.t => o ≫= cred_of) Hs).
Qed.

Lemma creds_written w e c w' :
  written w TEndpoint e w' -> cred_of e = Some c ->
  creds w' = <[e.(WebhookEndpoint.id) := c]> (creds w).
Proof.
  intros Hw Hc. unfold creds.
  etrans; [exact (f_equal (omap cred_of) (written_row _ _ _ _ Hw))|].
  exact (omap_insert_Some cred_of (w_tables w TEndpoint) e.(WebhookEndpoint.id) e c Hc).
Qed.

(** One committed run of a body is one step of the machine at that endpoint. *)
Lemma op_run_step op id w e' w' :
  rows_ok w -> run_tx (op_body op id) w (Ok e') w' ->
  exists e c c', w_tables w TEndpoint !! id = Some e /\ same_but_credential e e' /\
    endpoint_checks e' = true /\ creds w !! id = Some c /\ cred_step op c c' /\
    creds w' = <[id := c']> (creds w).
Proof.
  intros Hok Hr. destruct (op_body_run _ _ _ _ _ Hr) as (e & p & Hs & Hid & Hc & Hp & Hu).
  pose proof (exec_Update_wf _ _ _ _ _ _ _ Hu) as Hwf.
  apply exec_Update in Hu as (a & now & clock & Ha & Hv & Hcm & Hw & _).
  pose proof (eq_trans (eq_sym Ha) Hs) as Hae. injection Hae as ->.
  destruct (op_patch_step _ _ _ _ _ _ Hp Hc Hcm Hwf) as (Hsame & c & c' & Hce & Hcb & Hstep).
  exists e, c, c'. split_and!; try done.
  - by rewrite (creds_lookup _ _ _ Hs).
  - rewrite (creds_written _ _ _ _ Hw Hcb). destruct Hsame as [-> _]. by rewrite Hid.
Qed.

End Refinement.

(** C36. The endpoint procedures refine the credential machine. A transaction of
    rotateWebhookSecret or switchWebhookDeliveryMode either leaves the whole
    table of credentials as it was and reports an error, or makes exactly one
    step of the machine at that endpoint: a rotation keeps the old secret as
    the previous one, a switch keeps nothing of the mode it leaves. When it
    answers [Ok] the step was made, the row it answers carries the new
    credential and is otherwise the row that was stored, it satisfies the
    database's CHECK constraints, and a sealed endpoint's URL has no brace,
    percent sign, query or fragment. *)
Theorem endpoint_credentials_refine `{E : CratestackErrors} `{B : !Backend} `{UL : UrlLib}
  op id w r w' :
  rows_ok w -> exec _ (Tx (op_body op id)) w r w' ->
  (exists e c c', w_tables w TEndpoint !! id = Some e /\ creds w !! id = Some c /\
     cred_step op c c' /\ creds w' = <[id := c']> (creds w) /\
     forall e', r = Ok e' -> cred_of e' = Some c' /\ same_but_credential e e' /\
       endpoint_checks e' = true /\
       (forall a, op = ToSealed a -> Forall (fun ch => ch ∉ unsealable) e'.(WebhookEndpoint.url))) \/
  (is_ok r = false /\ w' = w).
Proof.
  intros Hok Hx.
  destruct (exec_Tx _ _ _ _ _ Hx) as [(r0 & w1 & Hr & Hres)|(er & -> & -> & _)]; [|by right].
  destruct r0 as [e'|er]; [|destruct Hres as [-> ->]; by right].
  destruct (op_run_step _ _ _ _ _ Hok Hr) as (e & c & c' & Hs & Hsame & Hc & Hcr & Hstep & Hw).
  assert (creds w1 !! id = cred_of e') as Hce'.
  { destruct (op_body_run _ _ _ _ _ Hr) as (e0 & p & _ & Hid & _ & _ & Hu).
    apply exec_Update in Hu as (a & now & clock & Ha & _ & Hcm & Hwr & _).
    apply creds_lookup. rewrite (written_row _ _ _ _ Hwr).
    pose proof (commit_facts _ _ _ _ _ _ Hcm) as (Hid' & _). cbn [row_id] in Hid' |- *.
    assert (WebhookEndpoint.id e' = id) as ->; [|apply lookup_insert_eq].
    rewrite Hid'. by apply (Hok TEndpoint). }
  rewrite Hw, lookup_insert_eq in Hce'.
  assert (forall a, op = ToSealed a -> Forall (fun ch => ch ∉ unsealable) e'.(WebhookEndpoint.url)) as Hurl.
  { intros a ->. inversion Hstep; subst. apply sealable_plain. symmetry in Hce'. unfold cred_of in Hce'.
    unfold endpoint_checks in Hc. destruct (WebhookEndpoint.deliveryMode e').
    - by split_and_bool.
    - by destruct (WebhookEndpoint.secret e'). }
  destruct Hres as [[-> ->]|(er & -> & _ & [-> | ->])]; [| by right |].
  - left. exists e, c, c'. split_and!; try done. intros e'' [= <-]. split_and!; auto.
  - left. exists e, c, c'. split_and!; try done.
Qed.

(** ** None of them panics or proposes an illegal move *)
Section Safety.

Context `{E : CratestackErrors} `{ES : !CratestackErrorsSound}.
Context `{UD : UnicodeDebug}.
Context `{UL : UrlLib}.
Variable hmac_webhooks : HmacWebhooks.

Lemma twp_rotate id tr : twp (rotate_body id) tr (fun r _ => no_sm001 r).
Proof.
  unfold rotate_body. apply twp_bind_ok, (twp_first_or (t := TEndpoint));
    [apply own_NotFound | |by intros].
  intros e rows Hq _ Hk. cbn [q_where endpoint_with] in Hq. apply bool_decide_eq_true in Hq.
  destruct (bool_decide _); cbn [negb]; [|apply own_Validation].
  apply twp_bind. split; [done|]. intros bytes _. apply twp_bind. split; [done|]. intros now _.
  apply (twp_update_last TEndpoint e); [by apply known_cons, known_cons | done | done | by eexists].
Qed.

Lemma twp_plan e mode aud tr :
  twp (plan_mode_switch e mode aud) tr (fun r tr' => no_sm001 r /\ exists l, tr' = l ++ tr).
Proof.
  unfold plan_mode_switch, refuse_switch.
  repeat case_match; cbn [twp tbind tdo]; try (split; [apply own_Validation | by exists []]);
    try (split; [done | by exists []]).
  all: split; [done|]; intros bytes _; split; [done | by eexists [_]].
Qed.

Lemma twp_switch id mode aud tr : twp (switch_body id mode aud) tr (fun r _ => no_sm001 r).
Proof.
  unfold switch_body. apply twp_bind_ok, (twp_first_or (t := TEndpoint));
    [apply own_NotFound | |by intros].
  intros e rows Hq _ Hk. cbn [q_where endpoint_with] in Hq. apply bool_decide_eq_true in Hq.
  apply twp_bind_ok. eapply twp_mono; [|apply twp_plan].
  intros [p|er] tr' [Hn [l ->]]; [|done]. apply twp_bind. eapply twp_mono;
    [|apply (twp_update_last TEndpoint e); [by apply known_app | done | done | by eexists]].
  intros [b|er] tr'' Hr; [done|]. by apply mapped_error.
Qed.

Lemma twp_requeue id now tr : twp (requeue_body id now) tr (fun r _ => no_sm001 r).
Proof.
  unfold requeue_body. apply twp_bind_ok, (twp_first_or (t := TJob)); [apply own_NotFound | |by intros].
  intros j rows Hq _ Hk. cbn [q_where job_with] in Hq. apply bool_decide_eq_true in Hq.
  destruct (bool_decide_reflect (Job.state j = JobState.dead)) as [Hd|]; cbn [negb]; [|apply own_Conflict].
  apply (twp_update_last TJob j); [done | done | done |]. intros at_ clock.
  pose proof (commit_job at_ clock (requeued_patch now) j) as Hc.
  destruct (commit TJob _ _ _ _); [by eexists|]. unfold job_edge in Hc. cbn in Hc. by rewrite Hd in Hc.
Qed.

Lemma twp_refuse_hmac id tr :
  twp (refuse_hmac_replay hmac_webhooks id) tr (fun r tr' => no_sm001 r /\ exists l, tr' = l ++ tr).
Proof.
  unfold refuse_hmac_replay. destruct (is_permitted hmac_webhooks); [split; [done | by exists []]|].
  apply twp_bind_ok, (twp_first_row (t := TEndpoint)).
  - intros e rows _ _ _. destruct (bool_decide _); cbn [twp tlift]; [|split; [done | by eexists [_]]].
    split; [|by eexists [_]]. destruct hmac_webhooks; [done | apply own_Validation].
  - intros rows. split; [done | by eexists [_]].
  - intros e ev He. split; [done | by eexists [_]].
Qed.

Lemma twp_close_circuit id tr : twp (close_circuit id) tr (fun r _ => no_sm001 r).
Proof.
  unfold close_circuit. apply twp_bind_ok, (twp_first_row (t := TEndpoint)); [|done|done].
  intros e rows _ _ Hk. destruct (_ || _); [|done]. by apply (twp_update_ok TEndpoint e).
Qed.

Lemma twp_replay id now tr : twp (replay_body hmac_webhooks id now) tr (fun r _ => no_sm001 r).
Proof.
  unfold replay_body. apply twp_bind_ok, (twp_first_or (t := TAttempt)); [apply own_NotFound | |by intros].
  intros a rows Hq _ Hk. cbn [q_where attempt_with] in Hq. apply bool_decide_eq_true in Hq.
  assert (forall tr', known tr' TAttempt a ->
    (a.(WebhookAttempt.state) = AttemptState.failed \/ a.(WebhookAttempt.state) = AttemptState.dead) ->
    twp (lett? _ := refuse_hmac_replay hmac_webhooks a.(WebhookAttempt.endpointId) in
         lett? updated := tdo (TUpdate TAttempt id (replayed_patch now) a.(WebhookAttempt.version)) in
         lett? _ := close_circuit a.(WebhookAttempt.endpointId) in
         TRet (Ok updated)) tr' (fun r _ => no_sm001 r)) as Hgo.
  { intros tr' Hk' Hst. apply twp_bind_ok. eapply twp_mono; [|apply twp_refuse_hmac].
    intros [[]|e] tr'' [Hn [l ->]]; [|done]. subst id. apply (twp_update_ok TAttempt a).
    - by apply known_app.
    - intros at_ clock. pose proof (commit_attempt at_ clock (replayed_patch now) a) as Hc.
      destruct (commit TAttempt _ _ _ _); [by eexists|]. unfold attempt_edge in Hc. cbn in Hc.
      by destruct Hst as [Hst|Hst]; rewrite Hst in Hc.
    - intros b at_ clock _ _. apply twp_bind_ok. eapply twp_mono; [|apply twp_close_circuit].
      by intros [[]|e].
    - done. }
  destruct (WebhookAttempt.state a) eqn:Hst; try (apply own_Conflict); apply Hgo; auto.
Qed.

Lemma wp_rotate ctx id tr : wp (rotate_secret hmac_webhooks ctx id) tr (fun _ _ => True).
Proof.
  apply wp_ok_bind. cbn [wp lift]. destruct (require_permission _ _) as [[]|]; [|done].
  apply wp_ok_bind. cbn [wp lift]. destruct (hmac_require _ _) as [[]|]; [|done].
  apply wp_tx_last. apply twp_rotate.
Qed.

Lemma wp_switch ctx id mode aud tr : wp (switch_mode hmac_webhooks ctx id mode aud) tr (fun _ _ => True).
Proof.
  apply wp_ok_bind. cbn [wp lift]. destruct (require_permission _ _) as [[]|]; [|done].
  apply wp_ok_bind. cbn [wp lift]. destruct (if bool_decide _ then _ else _) as [[]|]; [|done].
  apply wp_tx_last. apply twp_switch.
Qed.

Lemma wp_requeue ctx id tr : wp (requeue ctx id) tr (fun _ _ => True).
Proof.
  apply wp_ok_bind. cbn [wp lift]. destruct (require_permission _ _) as [[]|]; [|done].
  apply wp_now. intros now. apply wp_pmap_err, wp_tx_last. intros tr'. apply twp_requeue.
Qed.

Lemma wp_replay ctx id tr : wp (replay_attempt hmac_webhooks ctx id) tr (fun _ _ => True).
Proof.
  apply wp_ok_bind. cbn [wp lift]. destruct (require_permission _ _) as [[]|]; [|done].
  apply wp_now. intros now. apply wp_pmap_err, wp_tx_last. intros tr'. apply twp_replay.
Qed.

End Safety.

(** ** What the two repairs do *)
Section Repairs.

Context `{E : CratestackErrors} `{B : !Backend}.
Context `{UD : UnicodeDebug}.
Variable hmac_webhooks : HmacWebhooks.

Lemma job_with_id id x : q_where (job_with id) x = true -> row_id TJob x = id.
Proof. cbn. by intros ?%bool_decide_eq_true. Qed.

Lemma attempt_with_id id x : q_where (attempt_with id) x = true -> row_id TAttempt x = id.
Proof. cbn. by intros ?%bool_decide_eq_true. Qed.

Lemma endpoint_with_id id x : q_where (endpoint_with id) x = true -> row_id TEndpoint x = id.
Proof. cbn. by intros ?%bool_decide_eq_true. Qed.

Lemma requeue_run id now w j' w' :
  rows_ok w -> run_tx (requeue_body id now) w (Ok j') w' ->
  exists j, w_tables w TJob !! id = Some j /\ j.(Job.state) = JobState.dead /\
    w_tables w' TJob !! id = Some j' /\ job_after (requeued_patch now) j j'.
Proof.
  intros Hok [(j & w1 & Hf & Hr)|(? & _ & [=])]%txrun_bind_ok.
  apply (found_stored (t := TJob) _ _ id) in Hf as (-> & Hs & _); [|apply job_with_id].
  destruct (bool_decide_reflect (Job.state j = JobState.dead)) as [Hd|]; cbn [negb] in Hr;
    [|by apply txrun_inv in Hr as [[=] _]].
  apply txrun_do in Hr. destruct (updated_stored _ _ _ _ _ _ _ _ Hok Hs Hr) as (at_ & clock & Hc & Hs' & _).
  exists j. split_and!; try done. pose proof (commit_job at_ clock (requeued_patch now) j) as Hcj.
  rewrite Hc in Hcj. by destruct Hcj.
Qed.

(** The breaker of a well-formed endpoint is closed. *)
Definition circuit_closed (w : world) (id : text) : Prop :=
  forall e, w_tables w TEndpoint !! id = Some e -> endpoint_checks e = true ->
    e.(WebhookEndpoint.consecutiveFailures) = 0 /\ e.(WebhookEndpoint.circuitOpenUntil) = None.

Lemma close_circuit_run id w w' :
  rows_ok w -> run_tx (close_circuit id) w (Ok tt) w' ->
  circuit_closed w' id /\ forall t, t <> TEndpoint -> w_tables w' t = w_tables w t.
Proof.
  intros Hok [(found & w1 & Hf & Hr)|(? & _ & [=])]%txrun_bind_ok.
  apply txrun_bind_ok in Hf as [(rows & w2 & Hx%txrun_do & [He ->]%txrun_inv)|(? & _ & [=])].
  injection He as ->. cbn [of_tcall] in Hx.
  destruct (exec_FindMany _ _ _ _ _ Hx) as [-> Hrows]. destruct (Hrows rows eq_refl) as [Hf _].
  assert (forall e, w_tables w TEndpoint !! id = Some e -> endpoint_checks e = true -> rows <> []) as Hsome.
  { intros e He Hwf. apply (exec_FindMany_complete TEndpoint _ _ _ _ e Hx); cbn.
    - by destruct (Hok TEndpoint _ _ He) as [<- _].
    - apply bool_decide_eq_true. by destruct (Hok TEndpoint _ _ He).
    - done.
    - by intros n [= <-]. }
  destruct rows as [|e rows]; cbn [head] in Hr.
  - apply txrun_inv in Hr as [_ ->]. split; [|done]. intros e He Hwf. by destruct (Hsome e He Hwf).
  - apply Forall_cons in Hf as [(Hs & Hid & Hwf) _]. apply endpoint_with_id in Hid. rewrite Hid in Hs.
    destruct (_ || _) eqn:Hb.
    + apply txrun_bind_ok in Hr as [(b & w2 & Hu%txrun_do & [_ ->]%txrun_inv)|(? & _ & [=])].
      cbn [of_tcall row_id] in Hu, Hid. rewrite Hid in Hu.
      destruct (updated_stored TEndpoint _ _ _ _ _ _ _ Hok Hs Hu) as (at_ & clock & Hc & Hs' & Hfr).
      split; [|done]. intros e' He' _. injection Hc as <-.
      pose proof (eq_trans (eq_sym He') Hs') as [= ->]. done.
    + apply txrun_inv in Hr as [_ ->]. split; [|done]. intros e' He' _.
      pose proof (eq_trans (eq_sym He') Hs) as [= ->]. split_and_bool.
      split; [done|]. by destruct (WebhookEndpoint.circuitOpenUntil e).
Qed.

Lemma refuse_hmac_run id w w' :
  run_tx (refuse_hmac_replay hmac_webhooks id) w (Ok tt) w' -> w' = w.
Proof.
  unfold refuse_hmac_replay. destruct (is_permitted hmac_webhooks); [by intros [_ ->]%txrun_inv|].
  intros [(found & w1 & Hf & Hr)|(? & _ & [=])]%txrun_bind_ok.
  apply txrun_bind_ok in Hf as [(rows & w2 & Hx%txrun_do & [_ ->]%txrun_inv)|(? & _ & [=])].
  cbn [of_tcall] in Hx. apply exec_FindMany in Hx as [-> _].
  by destruct found as [e|]; [destruct (bool_decide _)|]; apply txrun_inv in Hr as [_ ->].
Qed.

Lemma replay_run id now w a' w' :
  rows_ok w -> run_tx (replay_body hmac_webhooks id now) w (Ok a') w' ->
  exists a, w_tables w TAttempt !! id = Some a /\
    a.(WebhookAttempt.state) ∈ [AttemptState.failed; AttemptState.dead] /\
    w_tables w' TAttempt !! id = Some a' /\ attempt_after (replayed_patch now) a a' /\
    circuit_closed w' a.(WebhookAttempt.endpointId).
Proof.
  intros Hok [(a & w1 & Hf & Hr)|(? & _ & [=])]%txrun_bind_ok.
  apply (found_stored (t := TAttempt) _ _ id) in Hf as (-> & Hs & _); [|apply attempt_with_id].
  assert (a.(WebhookAttempt.state) ∈ [AttemptState.failed; AttemptState.dead] /\
    run_tx (lett? _ := refuse_hmac_replay hmac_webhooks a.(WebhookAttempt.endpointId) in
         lett? updated := tdo (TUpdate TAttempt id (replayed_patch now) a.(WebhookAttempt.version)) in
         lett? _ := close_circuit a.(WebhookAttempt.endpointId) in
         TRet (Ok updated)) w (Ok a') w') as [Hst Hgo].
  { destruct (WebhookAttempt.state a); try (by apply txrun_inv in Hr as [[=] _]);
      (split; [set_solver | exact Hr]). }
  clear Hr. apply txrun_bind_ok in Hgo as [([] & w1 & ->%refuse_hmac_run & Hr)|(? & _ & [=])].
  apply txrun_bind_ok in Hr as [(b & w1 & Hu%txrun_do & Hr)|(? & _ & [=])].
  apply txrun_bind_ok in Hr as [([] & w2 & Hcl & [He ->]%txrun_inv)|(? & _ & [=])]. injection He as ->.
  cbn [of_tcall] in Hu.
  destruct (updated_stored TAttempt _ _ _ _ _ _ _ Hok Hs Hu) as (at_ & clock & Hc & Hs' & _).
  destruct (tcall_moves _ (TUpdate TAttempt id (replayed_patch now) (WebhookAttempt.version a)) _ _ _ Hok Hu)
    as (_ & Hok1 & _).
  destruct (close_circuit_run _ _ _ Hok1 Hcl) as [Hclosed Hfr].
  exists a. split_and!; try done.
  - by rewrite (Hfr TAttempt).
  - pose proof (commit_attempt at_ clock (replayed_patch now) a) as Hca. rewrite Hc in Hca. by destruct Hca.
Qed.

End Repairs.

(** Requeueing revives dead jobs and nothing else. A job in any other state
    (a [failed] one included) is refused and the database is left as it was;
    an answered job is stored as pending, due now, with its attempts, its last
    error and its lease cleared, and its kind, payload and dedupe key kept. *)
Theorem requeue_revives_dead `{E : CratestackErrors} `{B : !Backend} id now w r w' :
  rows_ok w -> exec _ (Tx (requeue_body id now)) w r w' ->
  (forall j, w_tables w TJob !! id = Some j -> j.(Job.state) <> JobState.dead ->
     is_ok r = false /\ w' = w) /\
  (forall j', r = Ok j' -> w_tables w' TJob !! id = Some j' /\
     exists j, w_tables w TJob !! id = Some j /\ j.(Job.state) = JobState.dead /\
       j'.(Job.state) = JobState.pending /\ j'.(Job.runAt) = now /\ j'.(Job.attempts) = 0 /\
       j'.(Job.lastError) = None /\ j'.(Job.leaseOwner) = None /\ j'.(Job.leaseUntil) = None /\
       j'.(Job.kind) = j.(Job.kind) /\ j'.(Job.payload) = j.(Job.payload) /\
       j'.(Job.dedupeKey) = j.(Job.dedupeKey) /\ j'.(Job.version) = j.(Job.version) + 1).
Proof.
  intros Hok Hx. apply tx_outcome in Hx as [(a & Hr & Ha)|[Hno ->]].
  - destruct (requeue_run _ _ _ _ _ Hok Hr) as (j & Hj & Hd & Hs & (clock & st & fin & Haf)).
    split; [intros j0 Hj0 Hnd; congruence|]. intros j' ->%Ha. split; [done|].
    exists j. by rewrite Haf.
  - split; [done|]. by intros j' ->.
Qed.

(** Replaying a webhook attempt. Only a failed or dead attempt is replayed;
    it is stored as pending, due now, with its attempts, its last status and
    error and its lease cleared, and in the same transaction its endpoint's
    breaker is closed; otherwise the database is left as it was. *)
Theorem replay_resets `{E : CratestackErrors} `{B : !Backend} hmac id now w r w' :
  rows_ok w -> exec _ (Tx (replay_body hmac id now)) w r w' ->
  (is_ok r = false /\ w' = w) \/
  exists a a', w_tables w TAttempt !! id = Some a /\ w_tables w' TAttempt !! id = Some a' /\
    (forall b, r = Ok b -> b = a') /\
    a.(WebhookAttempt.state) ∈ [AttemptState.failed; AttemptState.dead] /\
    a'.(WebhookAttempt.state) = AttemptState.pending /\ a'.(WebhookAttempt.attempts) = 0 /\
    a'.(WebhookAttempt.nextAttemptAt) = Some now /\ a'.(WebhookAttempt.lastStatusCode) = None /\
    a'.(WebhookAttempt.lastError) = None /\ a'.(WebhookAttempt.leaseOwner) = None /\
    a'.(WebhookAttempt.leaseUntil) = None /\ a'.(WebhookAttempt.payload) = a.(WebhookAttempt.payload) /\
    a'.(WebhookAttempt.sourceEventId) = a.(WebhookAttempt.sourceEventId) /\
    circuit_closed w' a.(WebhookAttempt.endpointId).
Proof.
  intros Hok Hx. apply tx_outcome in Hx as [(a' & Hr & Ha)|Hno]; [|by left]. right.
  destruct (replay_run _ _ _ _ _ _ Hok Hr) as (a & Hs & Hst & Hs' & (del & Haf) & Hcl).
  exists a, a'. by split_and!; try done; rewrite Haf.
Qed.

(** ** Examples *)
Section Demo.

#[local] Existing Instance demo_errors.
#[local] Existing Instance demo_debug.
#[local] Existing Instance WebhookExamples.demo_url.

(** The outcome of a transaction on the reference database. *)
Definition endpoint_world (m : WebhookDeliveryMode.t) : world :=
  insert_row empty_world TEndpoint (ex_endpoint (lit "ep1") m).

Lemma endpoint_world_ok m : rows_ok (endpoint_world m).
Proof. exact (proj1 (insert_row_ok _ _ _ empty_world_ok)). Qed.

Lemma switch_succeeds :
  is_ok (tx_result (op_body (ToSealed (lit "billing")) (lit "ep1"))
    (endpoint_world WebhookDeliveryMode.hmac)) = true.
Proof. vm_compute. reflexivity. Qed.

Lemma endpoint_credentials_refine_witness :
  exists c, cred_step (ToSealed (lit "billing")) c (Envelope (lit "billing")) /\
    creds (tx_world (op_body (ToSealed (lit "billing")) (lit "ep1"))
             (endpoint_world WebhookDeliveryMode.hmac)) =
    <[lit "ep1" := Envelope (lit "billing")]> (creds (endpoint_world WebhookDeliveryMode.hmac)).
Proof.
  destruct (@endpoint_credentials_refine _ (ref_backend accepting) _ (ToSealed (lit "billing")) (lit "ep1")
    _ _ _ (endpoint_world_ok WebhookDeliveryMode.hmac)
    (tx_exec (op_body (ToSealed (lit "billing")) (lit "ep1")) _))
    as [(e & c & c' & _ & _ & Hstep & Hcr & _)|[Hno _]].
  - exists c. inversion Hstep; subst. split; assumption.
  - destruct (eq_true_false_abs _ switch_succeeds Hno).
Defined.

Definition job_world (s : JobState.t) : world :=
  insert_row empty_world TJob (ex_job (lit "j1") (lit "expire_stale") s 3).

Lemma requeue_succeeds :
  is_ok (tx_result (requeue_body (lit "j1") ex_now) (job_world JobState.dead)) = true.
Proof. vm_compute. reflexivity. Qed.

Lemma requeue_revives_dead_witness :
  (exists j', tx_result (requeue_body (lit "j1") ex_now) (job_world JobState.dead) = Ok j' /\
     j'.(Job.state) = JobState.pending) /\
  is_ok (tx_result (requeue_body (lit "j1") ex_now) (job_world JobState.failed)) = false.
Proof.
  split.
  - destruct (tx_result (requeue_body (lit "j1") ex_now) (job_world JobState.dead)) as [j'|e] eqn:Hr;
      [|pose proof requeue_succeeds as Hs; rewrite Hr in Hs; discriminate].
    exists j'. split; [done|].
    destruct (@requeue_revives_dead _ (ref_backend accepting) (lit "j1") ex_now _ _ _
      (proj1 (insert_row_ok _ _ _ empty_world_ok))
      (tx_exec (requeue_body (lit "j1") ex_now) (job_world JobState.dead))) as [_ Hj].
    destruct (Hj j' Hr) as (_ & j & _ & _ & Hp & _). exact Hp.
  - destruct (@requeue_revives_dead _ (ref_backend accepting) (lit "j1") ex_now _ _ _
      (proj1 (insert_row_ok _ _ _ empty_world_ok))
      (tx_exec (requeue_body (lit "j1") ex_now) (job_world JobState.failed))) as [Hn _].
    apply (Hn (ex_job (lit "j1") (lit "expire_stale") JobState.failed 3)); [reflexivity | done].
Defined.

Definition replay_world : world :=
  insert_row (endpoint_world WebhookDeliveryMode.sealed) TAttempt
    (ex_attempt (lit "a1") (lit "ep1") AttemptState.dead 8).

Lemma replay_succeeds :
  is_ok (tx_result (replay_body HmacDisabled (lit "a1") ex_now) replay_world) = true.
Proof. vm_compute. reflexivity. Qed.

Lemma replay_resets_witness :
  exists a', w_tables (tx_world (replay_body HmacDisabled (lit "a1") ex_now) replay_world)
    TAttempt !! lit "a1" = Some a' /\ a'.(WebhookAttempt.state) = AttemptState.pending.
Proof.
  destruct (@replay_resets _ (ref_backend accepting) HmacDisabled (lit "a1") ex_now _ _ _
    (proj1 (insert_row_ok _ _ _ (insert_row_ok _ _ _ empty_world_ok)))
    (tx_exec (replay_body HmacDisabled (lit "a1") ex_now) replay_world))
    as [[Hno _]|(a & a' & _ & Hs & _ & _ & Hp & _)].
  - destruct (eq_true_false_abs _ replay_succeeds Hno).
  - exists a'. split; [exact Hs | exact Hp].
Defined.

End Demo.
