(* ===== verification/Simulator.v ===== *)
(** * sms-api/src/route_simulator.rs and [simulateRoute]

    Which route a message would take, and why, without sending it: the rows
    are fetched and converted, the engine decides, and the decision is written
    out flat. *)

From S2P Require Import Prelude Float64 Encoding SentinelList RoutingEngine Msisdn ProviderApi Schema ApiSchema.
From S2P Require Import Errors Db DbLogic DbReads DbRef WorkerRouting DemoData Webhook Cache Rbac Send.

(** ** The wire types *)
Module RouteOutcomeKind.

Inductive t := excluded | disabled | predicate_failed | provider_unavailable | eligible.

End RouteOutcomeKind.

Module PredicateKind.

Inductive t := operator | class | app_id | prefix.

End PredicateKind.

Record RouteEvaluationInfo := mkEvaluationInfo {
  re_routeId : text;
  re_routeName : text;
  re_priority : Z;
  re_weight : Z;
  re_providerId : text;
  re_outcome : RouteOutcomeKind.t;
  re_winningBand : bool;
  re_predicateKind : option PredicateKind.t;
  re_predicateExpected : option text;
  re_predicateActual : option text;
  re_unavailableReason : option text }.

Record TieBreakRangeInfo := mkRangeInfo {
  ri_routeId : text;
  ri_weight : Z;
  ri_low : f64;
  ri_high : f64 }.

Record TieBreakInfo := mkTieBreakInfo {
  ti_priority : Z;
  ti_draw : f64;
  ti_ranges : list TieBreakRangeInfo;
  ti_winnerRouteId : text }.

Record RouteWinnerInfo := mkWinnerInfo {
  wi_routeId : text;
  wi_providerId : text;
  wi_failoverRouteId : option text }.

Record SimulateRouteInput := mkSimulateInput {
  sm_msisdn : text;
  sm_class : MessageClass.t;
  sm_appId : text;
  sm_draw : option f64 }.

Record SimulateRouteResult := mkSimulateResult {
  sr_operatorCode : OperatorCode.t;
  sr_msisdnNational : text;
  sr_noRoutesConfigured : bool;
  sr_evaluations : list RouteEvaluationInfo;
  sr_tieBreak : option TieBreakInfo;
  sr_winner : option RouteWinnerInfo }.

(** ** route_simulator.rs *)
Module Simulator.

Definition operator_str (value : Operator) : text :=
  match value with
  | Mtn => lit "mtn"
  | Orange => lit "orange"
  | Camtel => lit "camtel"
  | Nexttel => lit "nexttel"
  | UnknownOperator => lit "unknown"
  end.

Definition class_str (value : RoutingEngine.MessageClass) : text :=
  match value with
  | Otp => lit "otp"
  | Transactional => lit "transactional"
  | Notification => lit "notification"
  | Marketing => lit "marketing"
  end.

(** The breaker of a provider is not looked at. *)
Definition convert_provider (row : Provider.t) : ProviderRow :=
  let available := bool_decide (row.(Provider.state) = ProviderState.active) in
  let reason :=
    if available then None
    else Some (lit "provider state is " ++ debug_ProviderState row.(Provider.state) ++ lit ", not active") in
  mkProviderRow row.(Provider.id) available reason.

Definition provider_map (rows : list Provider.t) : gmap text ProviderRow :=
  foldl (fun m row => <[row.(Provider.id) := convert_provider row]> m) ∅ rows.

Definition predicate_kind (failure : PredicateFailure) : PredicateKind.t :=
  match failure with
  | PFOperator _ _ => PredicateKind.operator
  | PFClass _ _ => PredicateKind.class
  | PFAppId _ _ => PredicateKind.app_id
  | PFPrefix _ _ => PredicateKind.prefix
  end.

Definition predicate_expected_actual (failure : PredicateFailure) : text * text :=
  match failure with
  | PFOperator expected actual => (operator_str expected, operator_str actual)
  | PFClass expected actual => (class_str expected, class_str actual)
  | PFAppId expected actual => (expected, actual)
  | PFPrefix expected msisdn_national => (expected, msisdn_national)
  end.

Definition evaluation_to_wire (evaluation : RouteEvaluation) : RouteEvaluationInfo :=
  let flat := mkEvaluationInfo (ev_route_id evaluation) (ev_route_name evaluation)
    (ev_priority evaluation) (ev_weight evaluation) (ev_provider_id evaluation) in
  match ev_outcome evaluation with
  | Excluded => flat RouteOutcomeKind.excluded false None None None None
  | Disabled => flat RouteOutcomeKind.disabled false None None None None
  | PredicateFailed failure =>
      let (expected, actual) := predicate_expected_actual failure in
      flat RouteOutcomeKind.predicate_failed false (Some (predicate_kind failure)) (Some expected)
        (Some actual) None
  | ProviderUnavailable reason =>
      flat RouteOutcomeKind.provider_unavailable false None None None (Some reason)
  | Eligible winning_band => flat RouteOutcomeKind.eligible winning_band None None None None
  end.

Definition range_to_wire (range : TieBreakRange) : TieBreakRangeInfo :=
  mkRangeInfo (tr_route_id range) (tr_weight range) (tr_low range) (tr_high range).

Definition tie_break_to_wire (tie_break : TieBreak) : TieBreakInfo :=
  mkTieBreakInfo (tb_priority tie_break) (tb_draw tie_break) (range_to_wire <$> tb_ranges tie_break)
    (tb_winner_route_id tie_break).

Definition winner_to_wire (winner : Winner) : RouteWinnerInfo :=
  mkWinnerInfo (w_route_id winner) (w_provider_id winner) (w_failover_route_id winner).

Definition decision_to_wire (decision : RouteDecision) (operator : OperatorCode.t)
  (msisdn_national : text) (no_routes_configured : bool) : SimulateRouteResult :=
  mkSimulateResult operator msisdn_national no_routes_configured
    (evaluation_to_wire <$> d_evaluations decision) (tie_break_to_wire <$> d_tie_break decision)
    (winner_to_wire <$> d_winner decision).

Section Simulate.

Context `{E : CratestackErrors} `{UD : UnicodeDebug} `{PL : PhoneLib}.

Definition fetch_routes_and_providers
  : prog (result (list RouteRow * gmap text ProviderRow) CratestackError) :=
  let!? routes := do (FindMany TRoute all_routes) in
  let provider_ids := sort_dedup (Route.providerId <$> routes) in
  let!? providers :=
    if bool_decide (provider_ids = []) then Ret (Ok ∅)
    else
      let!? rows := do (FindMany TProvider (providers_in provider_ids)) in
      Ret (Ok (provider_map rows)) in
  Ret (Ok (convert_route <$> routes, providers)).

Definition candidate_of (args : SimulateRouteInput) (operator : OperatorCode.t) (msisdn : Msisdn)
  : RoutingCandidate :=
  mkRoutingCandidate (convert_operator operator) (convert_class (sm_class args)) (sm_appId args)
    (national msisdn).

Definition simulate (ctx : CratestackContext) (args : SimulateRouteInput)
  : prog (result SimulateRouteResult CratestackError) :=
  let!? _ := lift (require_permission ctx (lit "route:read")) in
  let!? msisdn := lift (map_err (fun error => Validation (display_MsisdnError error))
                          (parse_mobile (sm_msisdn args))) in
  let!? operator := classify_operator msisdn in
  let!? fetched := fetch_routes_and_providers in
  let '(routes, providers) := fetched in
  let! draw := match sm_draw args with Some draw => Ret draw | None => do Random end in
  match select_route routes providers (candidate_of args operator msisdn) ∅ draw with
  | Some decision =>
      Ret (Ok (decision_to_wire decision operator (national msisdn) (bool_decide (routes = []))))
  | None => Panic
  end.

End Simulate.

End Simulator.

(** ** Nothing of a decision is lost on the wire *)
Lemma operator_str_inj a b : Simulator.operator_str a = Simulator.operator_str b -> a = b.
Proof. destruct a, b; vm_compute; intros H; by try discriminate H. Qed.

Lemma class_str_inj a b : Simulator.class_str a = Simulator.class_str b -> a = b.
Proof. destruct a, b; vm_compute; intros H; by try discriminate H. Qed.

Lemma predicate_inj f g :
  Simulator.predicate_kind f = Simulator.predicate_kind g ->
  Simulator.predicate_expected_actual f = Simulator.predicate_expected_actual g -> f = g.
Proof.
  destruct f as [a b|a b|a b|a b], g as [c d|c d|c d|c d]; try discriminate 1; intros _ H;
    unfold Simulator.predicate_expected_actual in H; apply (f_equal fst) in H as H1;
    apply (f_equal snd) in H as H2; unfold fst, snd in H1, H2.
  - by rewrite (operator_str_inj _ _ H1), (operator_str_inj _ _ H2).
  - by rewrite (class_str_inj _ _ H1), (class_str_inj _ _ H2).
  - by rewrite H1, H2.
  - by rewrite H1, H2.
Qed.

Lemma evaluation_inj a b : Simulator.evaluation_to_wire a = Simulator.evaluation_to_wire b -> a = b.
Proof.
  destruct a as [i n p w v o], b as [i' n' p' w' v' o']. unfold Simulator.evaluation_to_wire.
  cbn [ev_outcome ev_route_id ev_route_name ev_priority ev_weight ev_provider_id].
  pose proof predicate_inj as Hp.
  destruct o as [| |f|r|band], o' as [| |f'|r'|band'];
    try (destruct (Simulator.predicate_expected_actual f) as [x y] eqn:Hf);
    try (destruct (Simulator.predicate_expected_actual f') as [x' y'] eqn:Hf'); intros H;
    try discriminate H; injection H as -> -> -> -> ->; intros; subst; try done.
  rewrite (Hp f f'); [done | done | by rewrite Hf, Hf'].
Qed.

Lemma range_inj a b : Simulator.range_to_wire a = Simulator.range_to_wire b -> a = b.
Proof. destruct a, b. unfold Simulator.range_to_wire. cbn. by intros [= -> -> -> ->]. Qed.

#[local] Instance evaluation_Inj : Inj (=) (=) Simulator.evaluation_to_wire := evaluation_inj.
#[local] Instance range_Inj : Inj (=) (=) Simulator.range_to_wire := range_inj.

Lemma tie_break_inj a b : Simulator.tie_break_to_wire a = Simulator.tie_break_to_wire b -> a = b.
Proof.
  destruct a, b. unfold Simulator.tie_break_to_wire. cbn. intros [= -> -> Hr ->].
  apply (inj (fmap Simulator.range_to_wire)) in Hr. by rewrite Hr.
Qed.

Lemma winner_inj a b : Simulator.winner_to_wire a = Simulator.winner_to_wire b -> a = b.
Proof. destruct a, b. unfold Simulator.winner_to_wire. cbn. by intros [= -> -> ->]. Qed.

#[local] Instance tie_break_Inj : Inj (=) (=) Simulator.tie_break_to_wire := tie_break_inj.
#[local] Instance winner_Inj : Inj (=) (=) Simulator.winner_to_wire := winner_inj.

(** ** The decision is the dispatcher's *)

(** The breaker of every provider is closed at [now]. *)
Definition breakers_closed (now : Z) (rows : list Provider.t) : Prop :=
  Forall (fun p => forall u, p.(Provider.circuitOpenUntil) = Some u -> u <= now) rows.

Lemma provider_maps_agree now rows :
  breakers_closed now rows -> Simulator.provider_map rows = provider_map now rows.
Proof.
  unfold Simulator.provider_map, provider_map. generalize (∅ : gmap text ProviderRow).
  induction rows as [|p rows IH]; intros m Hc; [done|]. apply Forall_cons in Hc as [Hp Hc].
  cbn [foldl]. rewrite IH by done. do 3 f_equal. unfold Simulator.convert_provider, convert_provider.
  destruct (Provider.circuitOpenUntil p) as [u|]; cbn [negb];
    [rewrite (proj2 (Z.ltb_ge now u)) by by apply Hp|]; by case_bool_decide.
Qed.

Section Replays.

Context `{E : CratestackErrors} `{UD : UnicodeDebug} `{PL : PhoneLib}.

(** The rows the answer was computed from. *)
Definition rows_read (tr : trace) (routes : list Route.t) (rows : list Provider.t) : Prop :=
  Ev (FindMany TRoute all_routes) (Ok routes) ∈ tr /\
  ((routes = [] /\ rows = []) \/
   Ev (FindMany TProvider (providers_in (sort_dedup (Route.providerId <$> routes)))) (Ok rows) ∈ tr).

(** What an answer is: the engine's decision on what was read, for the number
    that parsed, with the draw that was given or drawn. *)
Definition replayed (ctx : CratestackContext) (args : SimulateRouteInput)
  (r : result SimulateRouteResult CratestackError) (tr : trace) : Prop :=
  Forall read_only tr /\
  forall res, r = Ok res ->
    rbac_holds (context_perms ctx) (context_scope ctx) (lit "route:read") = true /\
    exists msisdn routes rows draw d,
      parse_mobile (sm_msisdn args) = Ok msisdn /\ rows_read tr routes rows /\
      (sm_draw args = Some draw \/ Ev Random draw ∈ tr) /\
      select_route (convert_route <$> routes) (Simulator.provider_map rows)
        (Simulator.candidate_of args (sr_operatorCode res) msisdn) ∅ draw = Some d /\
      (forall now, breakers_closed now rows ->
         select_route (convert_route <$> routes) (provider_map now rows)
           (Simulator.candidate_of args (sr_operatorCode res) msisdn) ∅ draw = Some d) /\
      res = Simulator.decision_to_wire d (sr_operatorCode res) (national msisdn)
              (bool_decide (routes = [])).

Lemma wp_fetch tr Q :
  (forall routes rows l, Forall read_only l -> rows_read (l ++ tr) routes rows ->
     Q (Ok (convert_route <$> routes, Simulator.provider_map rows)) (l ++ tr)) ->
  (forall e l, Forall read_only l -> Q (Err e) (l ++ tr)) ->
  wp Simulator.fetch_routes_and_providers tr Q.
Proof.
  intros HQ HE. unfold Simulator.fetch_routes_and_providers.
  apply wp_find_ok; [|intros e; apply (HE e [_]); by repeat constructor].
  intros routes _ _ _. set (e1 := Ev (FindMany TRoute all_routes) (Ok routes)).
  case_bool_decide as Hids; cbn [pbind pbind_ok].
  - cbn [wp]. apply (HQ routes [] [e1]); [by repeat constructor|]. split; [by left|]. left. split; [|done].
    destruct routes as [|r routes]; [done|]. exfalso.
    assert (Route.providerId r ∈ sort_dedup (Route.providerId <$> r :: routes)) as Hin
      by (apply elem_of_sort_dedup; left). rewrite Hids in Hin. by apply not_elem_of_nil in Hin.
  - apply wp_ok_bind, wp_find_ok; [|intros e; apply (HE e [_; e1]); by repeat constructor].
    intros rows _ _ _. cbn [wp]. apply (HQ routes rows [_; e1]); [by repeat constructor|].
    split; [right; by left|]. right. by left.
Qed.

Lemma bool_decide_fmap_nil {A B} (f : A -> B) (l : list A) :
  bool_decide (f <$> l = []) = bool_decide (l = []).
Proof. apply bool_decide_ext. destruct l; split; try done; by intros. Qed.

Lemma wp_simulate ctx args : wp (Simulator.simulate ctx args) [] (replayed ctx args).
Proof.
  assert (forall e l, Forall read_only l -> replayed ctx args (Err e) l) as Herr by (intros; by split).
  unfold Simulator.simulate. apply wp_ok_bind. cbn [wp lift]. unfold require_permission.
  destruct (rbac_holds _ _ _) eqn:Hperm; [|by apply Herr].
  apply wp_ok_bind. cbn [wp lift].
  destruct (parse_mobile (sm_msisdn args)) as [msisdn|e] eqn:Hto; cbn [map_err]; [|by apply Herr].
  eapply wp_read_ok; [apply classify_operator_reader | apply wp_classify_operator | |].
  { intros e l Hl. rewrite app_nil_r. by apply Herr. }
  intros operator l1 Hl1 _. apply wp_ok_bind, wp_fetch; [|intros e l Hl; apply Herr; by apply Forall_app; split; rewrite ?app_nil_r].
  intros routes rows l2 Hl2 Hread. cbn [pbind_ok]. apply wp_bind.
  assert (forall draw l3, Forall read_only l3 ->
    (sm_draw args = Some draw \/ Ev Random draw ∈ l3 ++ l2 ++ l1 ++ []) ->
    wp match select_route (convert_route <$> routes) (Simulator.provider_map rows)
             (Simulator.candidate_of args operator msisdn) ∅ draw with
       | Some decision => Ret (Ok (Simulator.decision_to_wire decision operator (national msisdn)
                                     (bool_decide (convert_route <$> routes = []))))
       | None => Panic
       end (l3 ++ l2 ++ l1 ++ []) (replayed ctx args)) as Hgo.
  { intros draw l3 Hl3 Hdraw.
    destruct (select_route_spec (convert_route <$> routes) (Simulator.provider_map rows)
      (Simulator.candidate_of args operator msisdn) ∅ draw) as (d & Hd & _). rewrite Hd. cbn [wp].
    split; [by repeat (apply Forall_app; split)|]. intros res [= <-]. split; [done|].
    exists msisdn, routes, rows, draw, d. cbn [sr_operatorCode Simulator.decision_to_wire].
    split_and!; [done | | done | done | | by rewrite bool_decide_fmap_nil];
      [|intros now Hc; by rewrite <- (provider_maps_agree _ _ Hc)].
    destruct Hread as [Hr Hp]. split; [by apply elem_of_app; right|].
    destruct Hp as [|Hp]; [by left|]. right. by apply elem_of_app; right. }
  destruct (sm_draw args) as [draw|] eqn:Hdraw.
  - cbn [wp]. by apply (Hgo draw []); [|left].
  - apply wp_any; [done|]. intros draw. apply (Hgo draw [Ev Random draw]); [by repeat constructor|].
    right. by left.
Qed.

(** Simulating a route never panics, and an answer is given only to a
    caller with [route:read].  The answer is the decision of the routing
    engine for the parsed number on the routes and providers that were read,
    with the draw that was asked for or drawn, written out flat; nothing is
    written to the database; and when no breaker is open it is the decision
    the dispatcher takes on the same rows and the same draw. *)
Theorem simulate_replays `{B : !Backend} ctx args p tr w w' :
  world_ok w -> rtc step (Simulator.simulate ctx args, [], w) (p, tr, w') ->
  p <> Panic /\ forall r, p = Ret r -> replayed ctx args r tr.
Proof.
  intros Hok Hr. pose proof (wp_simulate ctx args) as Hwp.
  split; [by apply (wp_run_safe _ _ _ _ _ _ Hwp Hok Hr)|]. intros r ->.
  exact (wp_run _ _ _ _ _ _ _ Hwp Hok (valid_nil _) (Forall_nil_2 _) Hr).
Qed.

End Replays.

(** The flat answer loses nothing: two decisions with the same operator,
    number and flag are written out alike only when they are equal, so that
    every outcome, predicate, range and winner can be read back. *)
Theorem wire_lossless d d' operator operator' n n' none none' :
  Simulator.decision_to_wire d operator n none = Simulator.decision_to_wire d' operator' n' none' <->
  d = d' /\ operator = operator' /\ n = n' /\ none = none'.
Proof.
  split; [|by intros (-> & -> & -> & ->)]. unfold Simulator.decision_to_wire. intros [= -> -> -> He Ht Hw].
  apply (inj (fmap Simulator.evaluation_to_wire)) in He.
  apply (inj (fmap Simulator.tie_break_to_wire)) in Ht.
  apply (inj (fmap Simulator.winner_to_wire)) in Hw.
  destruct d, d'. cbn in *. by subst.
Qed.

(** ** Example: one provider, with its breaker closed and open *)
Section Demo.

#[local] Existing Instance demo_errors.
#[local] Existing Instance demo_debug.
#[local] Existing Instance demo_phone.

Definition simulated_provider (until : option Z) : Provider.t :=
  Provider.mk (lit "pv1") 0 0 (lit "orange_cm") (lit "Provider") ProviderKind.orange_cm_http
    ProviderState.active (lit "{}") (lit "cred") (f64_of_Z 5) 1000 true true true true (2500, 2)
    None true 0 until 4.

Definition simulator_world (until : option Z) : world :=
  insert_row (insert_row empty_world
    TProvider (simulated_provider until))
    TRoute (ex_route_row (lit "rt1") (lit "pv1")).

Definition simulator_context : CratestackContext :=
  context_for (SApp (mkAppStanding (lit "shop-1") (lit "app1") (lit " route:read "))).

Definition simulator_args : SimulateRouteInput :=
  mkSimulateInput (lit "677 12 34 56") MessageClass.otp (lit "app1") None.

Definition simulator_run (until : option Z) : config (result SimulateRouteResult DemoError) :=
  ref_run accepting (Simulator.simulate simulator_context simulator_args) [] (simulator_world until).

(** The winner the simulator answers with. *)
Definition simulated_winner (until : option Z) : option text :=
  match run_result (simulator_run until) with
  | Some (Ok res) => wi_routeId <$> sr_winner res
  | _ => None
  end.

(** The winner the dispatcher settles on, in the same database. *)
Definition dispatched_winner (until : option Z) : option text :=
  match run_result (ref_run accepting
          (decide_route (mkCandidate OperatorCode.unknown MessageClass.otp (lit "app1")
                           (lit "+237677123456")) ∅) [] (simulator_world until)) with
  | Some (Ok d) => w_route_id <$> d_winner d
  | _ => None
  end.

Lemma simulator_run_finished : is_null (run_result (simulator_run None)) = false.
Proof. vm_compute. reflexivity. Qed.

Lemma simulate_replays_witness :
  simulated_winner None = Some (lit "rt1") /\
  exists r, run_result (simulator_run None) = Some r /\
    replayed simulator_context simulator_args r (run_trace (simulator_run None)).
Proof.
  split; [vm_compute; reflexivity|].
  destruct (run_result (simulator_run None)) as [r|] eqn:Hr;
    [|destruct (eq_true_false_abs _ (f_equal is_null Hr) simulator_run_finished)].
  exists r. split; [done|].
  exact (proj2 (@simulate_replays _ _ _ (ref_backend accepting) simulator_context simulator_args _ _
    (simulator_world None) _ (insert_row_ok _ _ _ (insert_row_ok _ _ _ empty_world_ok))
    (ref_run_done accepting _ [] (simulator_world None) r Hr)) r eq_refl).
Defined.

(** The simulator and the dispatcher do not see the same providers: with
    the breaker closed both name the only route, while with the breaker open
    the simulator still names it and the dispatcher names none. *)
Theorem simulator_ignores_breaker :
  (simulated_winner None = Some (lit "rt1") /\ dispatched_winner None = Some (lit "rt1")) /\
  (simulated_winner (Some (ex_now + 1)) = Some (lit "rt1") /\
   dispatched_winner (Some (ex_now + 1)) = None).
Proof. vm_compute. split; split; reflexivity. Qed.

End Demo.
