(* ===== verification/DeliveryStatus.v ===== *)
(** * sms-api/src/delivery_status.rs and [lookupDeliveryStatus]

    "Did this message arrive?", for a caller that may not read the message.
    The answer has no body and a masked number; an app sees its own messages
    only; each lookup leaves a row in a ledger before it is answered, and what
    can be guessed is limited to sixty lookups an hour, counted on that ledger
    after the lookup's own row is in it. *)

From S2P Require Import Prelude Msisdn ProviderApi Schema ApiSchema Errors Db DbLogic DbReads DbRef.
From S2P Require Import Discipline WorkerRouting DemoData Webhook Cache Rbac Send.

(** ** The wire types *)
Record DeliveryStatusQuery := mkStatusQuery {
  dq_messageId : option text;
  dq_appId : option text;
  dq_clientRef : option text;
  dq_msisdn : option text;
  dq_since : option Z;
  dq_until : option Z;
  dq_limit : option Z }.

Record DeliveryReceiptSummary := mkReceiptSummary {
  rs_id : text;
  rs_providerId : text;
  rs_outcome : DeliveryOutcomeCode.t;
  rs_rawStatus : text;
  rs_errorCode : option text;
  rs_networkCode : OperatorCode.t;
  rs_receivedAt : Z;
  rs_occurredAt : option Z }.

Record DeliveryStatus := mkStatus {
  ds_messageId : text;
  ds_appId : text;
  ds_recipient : option text;
  ds_operator : OperatorCode.t;
  ds_senderIdValue : text;
  ds_class : MessageClass.t;
  ds_encoding : EncodingCode.t;
  ds_segments : Z;
  ds_state : MessageState.t;
  ds_attempts : Z;
  ds_acceptedAt : Z;
  ds_scheduledAt : option Z;
  ds_submittedAt : option Z;
  ds_finalizedAt : option Z;
  ds_expiresAt : Z;
  ds_purged : bool;
  ds_lastReceipt : option DeliveryReceiptSummary }.

Record DeliveryStatusResult := mkStatusResult {
  dr_statuses : list DeliveryStatus;
  dr_truncated : bool }.

(** ** The plan of a lookup *)
Definition BUDGETED_LOOKUPS_PER_HOUR : Z := 60.
Definition DEFAULT_LIMIT : Z := 10.
Definition MAX_LIMIT : Z := 50.
Definition DEFAULT_WINDOW_DAYS : Z := 7.
Definition MAX_WINDOW_DAYS : Z := 90.

Definition is_cuid (value : text) : bool :=
  let bytes := as_bytes value in
  (2 <=? Z.of_nat (length bytes)) && (Z.of_nat (length bytes) <=? 32) &&
  forallb (fun b => ((97 <=? b) && (b <=? 122)) || is_ascii_digit b) bytes.

Inductive Asker := Person | AskerApp (app_id : text).

Inductive Key := KeyMessageId (id : text) | KeyClientRef (reference : text) | KeyMsisdn (number : text).

Definition key_kind (k : Key) : DeliveryLookupKey.t :=
  match k with
  | KeyMessageId _ => DeliveryLookupKey.message_id
  | KeyClientRef _ => DeliveryLookupKey.client_ref
  | KeyMsisdn _ => DeliveryLookupKey.msisdn
  end.

Record LookupPlan := mkPlan {
  lp_key : Key;
  lp_app_id : option text;
  lp_since : option Z;
  lp_until : option Z;
  lp_limit : Z }.

Record Caller := mkCaller {
  ca_sub : text;
  ca_role : text;
  ca_asker : Asker }.

Definition caller_kind (c : Caller) : text :=
  match ca_asker c with Person => lit "user" | AskerApp _ => lit "app" end.

Section Lookup.

Context `{E : CratestackErrors} `{UD : UnicodeDebug} `{PL : PhoneLib} `{ML : MacLib}.
Variable pepper : text.

Definition invalid (message : text) : CratestackError := Validation message.

Definition named {A} (o : option A) : Z := if is_null o then 0 else 1.

(** The app the lookup is confined to. *)
Definition plan_app (args : DeliveryStatusQuery) (asker : Asker)
  : result (option text) CratestackError :=
  let? app_id :=
    match asker, dq_appId args with
    | AskerApp app_id, None => Ok (Some app_id)
    | AskerApp app_id, Some other =>
        if bool_decide (other = app_id) then Ok (Some app_id)
        else Err (invalid (lit "an app key looks up its own app's messages only"))
    | Person, other => Ok other
    end in
  match app_id with
  | Some id => if is_cuid id then Ok (Some id) else Err (invalid (lit "appId is not an id"))
  | None => Ok None
  end.

Definition plan_key (args : DeliveryStatusQuery) (app_id : option text) : result Key CratestackError :=
  match dq_messageId args, dq_clientRef args with
  | Some id, _ =>
      if is_cuid id then Ok (KeyMessageId id) else Err (invalid (lit "messageId is not an id"))
  | None, Some reference =>
      if bool_decide (trim reference = []) then Err (invalid (lit "clientRef must not be blank"))
      else if is_null app_id then
        Err (invalid (lit "a clientRef belongs to one app: name it with appId"))
      else Ok (KeyClientRef reference)
  | None, None =>
      let? number := map_err (fun _ => invalid (lit "msisdn is not a valid mobile number"))
                       (parse_mobile (default [] (dq_msisdn args))) in
      Ok (KeyMsisdn (e164 number))
  end.

(** [until - Duration::days(7)] is computed also where [since] is given; out of
    chrono's range it panics ([None]). *)
Definition plan_window (key : Key) (since until : option Z) (now : Z) : option (option Z * option Z) :=
  match key with
  | KeyMessageId _ => Some (since, until)
  | _ =>
      let until := default now until in
      earliest ← chrono_add until (- days DEFAULT_WINDOW_DAYS);
      Some (Some (default earliest since), Some until)
  end.

(** Whether a lookup by number reaches back too far. *)
Definition too_old (key : Key) (since now : Z) : option bool :=
  match key with
  | KeyMsisdn _ => floor ← chrono_add now (- days MAX_WINDOW_DAYS); Some (since <? floor)
  | _ => Some false
  end.

Definition check_window (key : Key) (window : option Z * option Z) (now : Z)
  : option (result unit CratestackError) :=
  match window with
  | (Some since, Some until) =>
      if until <? since then Some (Err (invalid (lit "since is after until")))
      else if days MAX_WINDOW_DAYS <? until - since then
        Some (Err (invalid (lit "the window may not be wider than " ++ show_Z MAX_WINDOW_DAYS ++ lit " days")))
      else
        old ← too_old key since now;
        Some (if (old : bool) then
                Err (invalid (lit "a lookup by number may not start more than "
                                ++ show_Z MAX_WINDOW_DAYS ++ lit " days ago"))
              else Ok tt)
  | _ => Some (Ok tt)
  end.

Definition plan_limit (args : DeliveryStatusQuery) : result Z CratestackError :=
  let limit := default DEFAULT_LIMIT (dq_limit args) in
  if (1 <=? limit) && (limit <=? MAX_LIMIT) then Ok limit
  else Err (invalid (lit "limit must be between 1 and " ++ show_Z MAX_LIMIT)).

Definition from_args (args : DeliveryStatusQuery) (asker : Asker) (now : Z)
  : option (result LookupPlan CratestackError) :=
  if negb (named (dq_messageId args) + named (dq_clientRef args) + named (dq_msisdn args) =? 1) then
    Some (Err (invalid (lit "name exactly one of messageId, clientRef or msisdn")))
  else
    match let? app_id := plan_app args asker in
          let? key := plan_key args app_id in
          let? limit := plan_limit args in
          Ok (app_id, key, limit) with
    | Err e => Some (Err e)
    | Ok (app_id, key, limit) =>
        window ← plan_window key (dq_since args) (dq_until args) now;
        checked ← check_window key window now;
        Some (let? _ := checked in Ok (mkPlan key app_id window.1 window.2 limit))
    end.

(** ** The caller *)
Definition caller_of (ctx : CratestackContext) : result Caller CratestackError :=
  let filled name := match string_field ctx name with
                     | Some s => if bool_decide (s = []) then None else Some s
                     | None => None
                     end in
  match filled (lit "sub") with
  | None => Err (Forbidden (lit "a delivery lookup needs a caller identity"))
  | Some sub =>
      let role := default [] (string_field ctx (lit "role")) in
      let kind := default [] (string_field ctx (lit "kind")) in
      if bool_decide (kind = kind_str KApp) then
        match filled (lit "appId") with
        | None => Err (Forbidden (lit "an app key without an app cannot look up messages"))
        | Some app_id => Ok (mkCaller sub role (AskerApp app_id))
        end
      else if bool_decide (kind = kind_str KUser) then Ok (mkCaller sub role Person)
      else Err (Forbidden (lit "a delivery lookup needs a person or an app key"))
  end.

Definition budgeted (c : Caller) (key : Key) : bool :=
  match key with
  | KeyMsisdn _ => true
  | KeyClientRef _ => match ca_asker c with Person => true | AskerApp _ => false end
  | KeyMessageId _ => false
  end.

Definition budgeted_kinds (c : Caller) : list DeliveryLookupKey.t :=
  match ca_asker c with
  | Person => [DeliveryLookupKey.msisdn; DeliveryLookupKey.client_ref]
  | AskerApp _ => [DeliveryLookupKey.msisdn]
  end.

(** ** What is read and what is shown *)
Definition message_filter (plan : LookupPlan) (m : row TMessage) : bool :=
  match lp_key plan with
  | KeyMessageId id => bool_decide (m.(Message.id) = id)
  | KeyClientRef reference => col_eq m.(Message.idempotencyKey) reference
  | KeyMsisdn number =>
      bool_decide (m.(Message.msisdnHash) = hmac_sha256_hex pepper number) && is_null m.(Message.purgedAt)
  end &&
  match lp_app_id plan with Some app_id => bool_decide (m.(Message.appId) = app_id) | None => true end &&
  match lp_since plan with Some since => since <=? m.(Message.createdAt) | None => true end &&
  match lp_until plan with Some until => m.(Message.createdAt) <=? until | None => true end.

Definition audited_key (key : Key) : text :=
  match key with
  | KeyMessageId id => id
  | KeyMsisdn number => hmac_sha256_hex pepper number
  | KeyClientRef reference => hmac_sha256_hex pepper (lit "delivery-lookup:client_ref:" ++ reference)
  end.

Definition recipient (m : Message.t) : option text :=
  if is_null m.(Message.purgedAt) then
    match parse m.(Message.msisdn) with Ok number => Some (masked number) | Err _ => None end
  else None.

Definition summary (r : DeliveryReceipt.t) : DeliveryReceiptSummary :=
  mkReceiptSummary r.(DeliveryReceipt.id) r.(DeliveryReceipt.providerId) r.(DeliveryReceipt.outcome)
    r.(DeliveryReceipt.rawStatus) r.(DeliveryReceipt.errorCode) r.(DeliveryReceipt.networkCode)
    r.(DeliveryReceipt.receivedAt) r.(DeliveryReceipt.occurredAt).

Definition status (m : Message.t) (last_receipt : option DeliveryReceiptSummary) : DeliveryStatus :=
  mkStatus m.(Message.id) m.(Message.appId) (recipient m) m.(Message.operator)
    m.(Message.senderIdValue) m.(Message.class) m.(Message.encoding) m.(Message.segments)
    m.(Message.state) m.(Message.attempts) m.(Message.createdAt) m.(Message.scheduledAt)
    m.(Message.submittedAt) m.(Message.finalizedAt) m.(Message.expiresAt)
    (negb (is_null m.(Message.purgedAt))) last_receipt.

(** ** The ledger *)
Definition account (c : Caller) (plan : LookupPlan) (outcome : DeliveryLookupOutcome.t)
  (result_count : option Z) : CreateDeliveryLookupInput :=
  mkCreateLookup (ca_sub c) (caller_kind c)
    (if bool_decide (ca_role c = []) then lit "none" else ca_role c)
    (match ca_asker c with AskerApp app_id => Some app_id | Person => None end)
    (key_kind (lp_key plan)) (audited_key (lp_key plan)) (lp_app_id plan) outcome result_count.

Definition settle (id : text) (outcome : DeliveryLookupOutcome.t) (result_count : option Z)
  : prog (result unit CratestackError) :=
  let!? _ := do (Overwrite TLookup id [ DeliveryLookup.SetOutcome outcome;
                                        DeliveryLookup.SetResultCount result_count ]) in
  Ret (Ok tt).

(** The lookups of the last hour that count against the caller. *)
Definition used_in (c : Caller) (since : Z) (l : row TLookup) : bool :=
  bool_decide (l.(DeliveryLookup.actorSub) = ca_sub c) &&
  bool_decide (l.(DeliveryLookup.actorKind) = caller_kind c) &&
  bool_decide (l.(DeliveryLookup.keyKind) ∈ budgeted_kinds c) &&
  negb (bool_decide (l.(DeliveryLookup.outcome) = DeliveryLookupOutcome.over_budget)) &&
  (since <=? l.(DeliveryLookup.createdAt)).

Definition claim_budget (c : Caller) (plan : LookupPlan) (now : Z) : prog (result text CratestackError) :=
  let!? own := do (Create TLookup (account c plan DeliveryLookupOutcome.pending None)) in
  or_panic (chrono_add now (- hours 1)) (fun since =>
  let!? used := do (Count TLookup (used_in c since)) in
  if BUDGETED_LOOKUPS_PER_HOUR <? used then
    let!? _ := settle own.(DeliveryLookup.id) DeliveryLookupOutcome.over_budget None in
    Ret (Err (Forbidden (lit "delivery lookup budget exhausted: " ++ show_Z BUDGETED_LOOKUPS_PER_HOUR
                           ++ lit " lookups by number or reference per hour")))
  else Ret (Ok own.(DeliveryLookup.id))).

(** ** The lookup *)
Definition receipts_of (ids : list text) : query TReceipt :=
  mkQuery (t := TReceipt) (fun r => bool_decide (r.(DeliveryReceipt.messageId) ∈ ids))
    [Desc (t := TReceipt) (fun r => KInt (Some r.(DeliveryReceipt.receivedAt)))] None.

(** [entry(…).or_insert_with(…)]: the first row of a message wins. *)
Definition keep_first (newest : gmap text DeliveryReceiptSummary) (r : DeliveryReceipt.t)
  : gmap text DeliveryReceiptSummary :=
  match newest !! r.(DeliveryReceipt.messageId) with
  | Some _ => newest
  | None => <[r.(DeliveryReceipt.messageId) := summary r]> newest
  end.

Definition newest_receipts (ids : list text)
  : prog (result (gmap text DeliveryReceiptSummary) CratestackError) :=
  if bool_decide (ids = []) then Ret (Ok ∅)
  else
    let!? rows := do (FindMany TReceipt (receipts_of ids)) in
    Ret (Ok (foldl keep_first ∅ rows)).

(** Each row takes its receipt out of the map. *)
Fixpoint statuses_of (rows : list Message.t) (receipts : gmap text DeliveryReceiptSummary)
  : list DeliveryStatus :=
  match rows with
  | [] => []
  | m :: rest =>
      status m (receipts !! m.(Message.id)) :: statuses_of rest (delete m.(Message.id) receipts)
  end.

Definition messages_query (plan : LookupPlan) : query TMessage :=
  mkQuery (t := TMessage) (message_filter plan)
    [Desc (t := TMessage) (fun m => KInt (Some m.(Message.createdAt)))] (Some (lp_limit plan + 1)).

Definition account_for (c : Caller) (plan : LookupPlan) (claimed : option text) (count : Z)
  : prog (result unit CratestackError) :=
  match claimed with
  | Some id => settle id DeliveryLookupOutcome.answered (Some count)
  | None =>
      let!? _ := do (Create TLookup (account c plan DeliveryLookupOutcome.answered (Some count))) in
      Ret (Ok tt)
  end.

Definition answer (c : Caller) (plan : LookupPlan) (claimed : option text)
  : prog (result DeliveryStatusResult CratestackError) :=
  let limit := Z.to_nat (lp_limit plan) in
  let!? found := do (FindMany TMessage (messages_query plan)) in
  let truncated := (limit <? length found)%nat in
  let rows := take limit found in
  let!? receipts := newest_receipts (Message.id <$> rows) in
  let statuses := statuses_of rows receipts in
  let!? _ := account_for c plan claimed (Z.of_nat (length statuses)) in
  Ret (Ok (mkStatusResult statuses truncated)).

Definition lookup (ctx : CratestackContext) (args : DeliveryStatusQuery) (now : Z)
  : prog (result DeliveryStatusResult CratestackError) :=
  let!? c := lift (caller_of ctx) in
  or_panic (from_args args (ca_asker c) now) (fun planned =>
  let!? plan := lift planned in
  let!? claimed :=
    if budgeted c (lp_key plan) then
      let!? id := claim_budget c plan now in Ret (Ok (Some id))
    else Ret (Ok None) in
  answer c plan claimed).

Definition delivery_status (ctx : CratestackContext) (args : DeliveryStatusQuery)
  : prog (result DeliveryStatusResult CratestackError) :=
  let!? _ := lift (require_permission ctx (lit "delivery:read")) in
  let! now := do Now in
  lookup ctx args now.

End Lookup.

(** ** What a plan allows *)
Section Plans.

Context `{E : CratestackErrors} `{UD : UnicodeDebug} `{PL : PhoneLib} `{ML : MacLib}.
Variable pepper : text.

(** A window that stays clear of the lower end of chrono's range. *)
Definition sane_window (args : DeliveryStatusQuery) : Prop :=
  forall until, dq_until args = Some until -> MIN_UTC + days DEFAULT_WINDOW_DAYS <= until <= MAX_UTC.

Lemma clock_back now d : 0 <= now < CLOCK_END -> 0 <= d <= days 90 -> chrono_add now (- d) = Some (now - d).
Proof.
  intros Hn Hd. unfold chrono_add. rewrite (proj2 (andb_true_iff _ _)); [done|]. unfold CLOCK_END in Hn.
  assert (days 90 = 7776000000000) as Hdays by reflexivity.
  split; apply Z.leb_le; unfold MIN_UTC, MAX_UTC; lia.
Qed.

Lemma week_back args now : sane_window args -> 0 <= now < CLOCK_END ->
  is_Some (chrono_add (default now (dq_until args)) (- days DEFAULT_WINDOW_DAYS)).
Proof.
  intros Hs Hn. change (days DEFAULT_WINDOW_DAYS) with 604800000000.
  destruct (dq_until args) as [until|] eqn:Hu; cbn [default from_option id].
  - specialize (Hs until Hu). change (days DEFAULT_WINDOW_DAYS) with 604800000000 in Hs.
    unfold chrono_add. rewrite (proj2 (andb_true_iff _ _)); [by eexists|]. split; apply Z.leb_le; lia.
  - rewrite clock_back by (change (days 90) with 7776000000000; lia). by eexists.
Qed.

Lemma from_args_total args asker now :
  sane_window args -> 0 <= now < CLOCK_END -> is_Some (from_args args asker now).
Proof.
  intros Hs Hn. unfold from_args. case_match; [by eexists|]. case_match; [|by eexists].
  destruct a as [[app key] limit].
  destruct (week_back args now Hs Hn) as [earliest He].
  assert (is_Some (plan_window key (dq_since args) (dq_until args) now)) as [window Hw]
    by (unfold plan_window; rewrite He; by destruct key; eexists).
  rewrite Hw. cbn [mbind option_bind]. unfold check_window.
  destruct window as [[since|] [until|]]; try by eexists.
  case_match; [by eexists|]. case_match; [by eexists|]. unfold too_old.
  destruct key; try by eexists.
  rewrite clock_back by (change (days MAX_WINDOW_DAYS) with 7776000000000;
    change (days 90) with 7776000000000; lia). by eexists.
Qed.

Lemma plan_app_confined args asker app : plan_app args asker = Ok app ->
  forall own, asker = AskerApp own -> app = Some own.
Proof.
  unfold plan_app. intros Hp own ->. destruct (dq_appId args) as [other|]; [case_bool_decide; [|done]|];
    cbn [rbind] in Hp; destruct (is_cuid own); congruence.
Qed.

(** What a plan that was let through is bound to. *)
Record confined (asker : Asker) (now : Z) (plan : LookupPlan) : Prop := {
  confined_app own : asker = AskerApp own -> lp_app_id plan = Some own;
  confined_ref reference : lp_key plan = KeyClientRef reference -> is_Some (lp_app_id plan);
  confined_number number : lp_key plan = KeyMsisdn number ->
    exists since, lp_since plan = Some since /\ now - days MAX_WINDOW_DAYS <= since;
  confined_window since until : lp_since plan = Some since -> lp_until plan = Some until ->
    since <= until <= since + days MAX_WINDOW_DAYS;
  confined_limit : 1 <= lp_limit plan <= MAX_LIMIT }.

Lemma plan_key_ref args app reference : plan_key args app = Ok (KeyClientRef reference) -> is_Some app.
Proof.
  unfold plan_key. destruct (dq_messageId args); [by case_match|]. destruct (dq_clientRef args).
  - case_bool_decide; [done|]. destruct app; [by eexists | done].
  - destruct (parse_mobile _); done.
Qed.

Lemma check_window_ok key since until now : 0 <= now < CLOCK_END ->
  check_window key (since, until) now = Some (Ok tt) ->
  (forall s u, since = Some s -> until = Some u -> s <= u <= s + days MAX_WINDOW_DAYS) /\
  (forall s u number, key = KeyMsisdn number -> since = Some s -> until = Some u ->
     now - days MAX_WINDOW_DAYS <= s).
Proof.
  intros Hn Hc. unfold check_window in Hc. destruct since as [s|], until as [u|]; try done.
  destruct (Z.ltb_spec u s) as [|Hsu]; [done|]. destruct (Z.ltb_spec (days MAX_WINDOW_DAYS) (u - s)) as [|Hw]; [done|].
  split.
  - intros ?? [= <-] [= <-]. lia.
  - intros ? ? number -> [= <-] [= <-]. unfold too_old in Hc.
    rewrite clock_back in Hc by (change (days MAX_WINDOW_DAYS) with 7776000000000;
      change (days 90) with 7776000000000; lia).
    cbn [mbind option_bind] in Hc. destruct (Z.ltb_spec s (now - days MAX_WINDOW_DAYS)); [done | lia].
Qed.

Lemma plan_window_some key since until now window :
  plan_window key since until now = Some window -> forall number, key = KeyMsisdn number ->
  is_Some window.1 /\ is_Some window.2.
Proof.
  intros Hw number ->. unfold plan_window in Hw. destruct (chrono_add _ _); [|done].
  cbn in Hw. injection Hw as <-. split; by eexists.
Qed.

Lemma from_args_confined args asker now plan : 0 <= now < CLOCK_END ->
  from_args args asker now = Some (Ok plan) -> confined asker now plan.
Proof.
  intros Hn. unfold from_args. case_match; [done|].
  destruct (plan_app args asker) as [app|] eqn:Happ; [|done]. cbn [rbind].
  destruct (plan_key args app) as [key|] eqn:Hkey; [|done]. cbn [rbind].
  destruct (plan_limit args) as [limit|] eqn:Hlimit; [|done]. cbn [rbind].
  destruct (plan_window key (dq_since args) (dq_until args) now) as [[since until]|] eqn:Hw; [|done].
  cbn [mbind option_bind]. destruct (check_window key (since, until) now) as [[[]|]|] eqn:Hc; [|done|done].
  cbn [mbind option_bind rbind fst snd]. intros [= <-].
  destruct (check_window_ok _ _ _ _ Hn Hc) as [Hwin Hold]. split; cbn.
  - by apply (plan_app_confined args).
  - intros reference ->. by apply (plan_key_ref args) in Hkey.
  - intros number ->. destruct (plan_window_some _ _ _ _ _ Hw number eq_refl) as [[s Hs] [u Hu]].
    cbn in Hs, Hu. exists s. split; [done|]. by apply (Hold s u number).
  - apply Hwin.
  - unfold plan_limit in Hlimit. case_match eqn:Hl; [|done]. injection Hlimit as <-.
    apply andb_true_iff in Hl as [?%Z.leb_le ?%Z.leb_le]. done.
Qed.

Lemma by_number args asker now plan :
  from_args args asker now = Some (Ok plan) -> is_null (dq_messageId args) = true ->
  is_null (dq_clientRef args) = true -> exists number, lp_key plan = KeyMsisdn number.
Proof.
  unfold from_args. case_match; [done|]. destruct (plan_app args asker) as [app|]; [|done]. cbn [rbind].
  destruct (plan_key args app) as [key|] eqn:Hkey; [|done]. cbn [rbind].
  destruct (plan_limit args) as [limit|]; [|done]. cbn [rbind].
  destruct (plan_window key _ _ now) as [window|]; [|done]. cbn [mbind option_bind].
  destruct (check_window key window now) as [[[]|]|]; [|done|done]. cbn. intros [= <-] Hm Hr. cbn.
  unfold plan_key in Hkey. destruct (dq_messageId args); [done|]. destruct (dq_clientRef args); [done|].
  destruct (parse_mobile _) as [number|]; [|done]. injection Hkey as <-. by eexists.
Qed.

End Plans.

(** ** What an answer rests on *)
Section Answers.

Context `{E : CratestackErrors} `{UD : UnicodeDebug} `{PL : PhoneLib} `{ML : MacLib}.
Variable pepper : text.

(** Nothing but the ledger is written. *)
Definition ledger_or_read (e : event) : Prop :=
  read_only e \/
  match e with
  | Ev c _ => match c with Create t _ => t = TLookup | Overwrite t _ _ => t = TLookup | _ => False end
  end.

(** A list of visible events of that kind. *)
#[local] Ltac ledger_events := repeat (apply Forall_cons_2; [first [by left | by right]|]); apply Forall_nil_2.

Lemma ledger_reads l : Forall read_only l -> Forall ledger_or_read l.
Proof. intros Hl. eapply Forall_impl; [exact Hl|]. by left. Qed.

(** A status is the view of a message the plan selects, with a receipt of that
    message. *)
Definition shown_from (plan : LookupPlan) (tr : trace) (s : DeliveryStatus) : Prop :=
  exists m last, known tr TMessage m /\ message_filter pepper plan m = true /\ s = status m last /\
    forall d, last = Some d -> exists r, known tr TReceipt r /\
      r.(DeliveryReceipt.messageId) = m.(Message.id) /\ d = summary r.

Lemma shown_from_app l plan tr s : shown_from plan tr s -> shown_from plan (l ++ tr) s.
Proof.
  intros (m & last & Hm & Hf & Hs & Hl). exists m, last. split_and!; [by apply known_app | done | done|].
  intros d Hd. destruct (Hl d Hd) as (r & Hr & Hid & Hsum). exists r. by split; [apply known_app|].
Qed.

(** What closes a lookup in the ledger, before it is answered. *)
Definition closes (c : Caller) (plan : LookupPlan) (claimed : option text) (count : Z) (e : event) : Prop :=
  match claimed with
  | Some id => exists b, e = Ev (Overwrite TLookup id
      [ DeliveryLookup.SetOutcome DeliveryLookupOutcome.answered;
        DeliveryLookup.SetResultCount (Some count) ]) (Ok b)
  | None => exists own,
      e = Ev (Create TLookup (account pepper c plan DeliveryLookupOutcome.answered (Some count))) (Ok own)
  end.

Definition receipts_known (tr : trace) (m : gmap text DeliveryReceiptSummary) : Prop :=
  forall id d, m !! id = Some d ->
    exists r, known tr TReceipt r /\ r.(DeliveryReceipt.messageId) = id /\ d = summary r.

Lemma keep_first_known tr rows m :
  receipts_known tr m -> Forall (fun r => known tr TReceipt r) rows -> receipts_known tr (foldl keep_first m rows).
Proof.
  revert m. induction rows as [|r rows IH]; intros m Hm Hr; [done|]. apply Forall_cons in Hr as [Hr Hrs].
  cbn [foldl]. apply IH; [|done]. unfold keep_first. case_match eqn:Hl; [done|]. intros id d.
  destruct (decide (id = r.(DeliveryReceipt.messageId))) as [->|Hne].
  - rewrite lookup_insert_eq. intros [= <-]. by exists r.
  - rewrite lookup_insert_ne by done. apply Hm.
Qed.

Lemma wp_newest ids tr Q :
  (forall m l, Forall read_only l -> receipts_known (l ++ tr) m -> Q (Ok m) (l ++ tr)) ->
  (forall e l, Forall read_only l -> Q (Err e) (l ++ tr)) -> wp (newest_receipts ids) tr Q.
Proof.
  intros HQ HE. unfold newest_receipts. case_bool_decide.
  - apply (HQ ∅ []); [done|]. by intros id d ?%lookup_empty_Some.
  - apply wp_find_ok; [|intros e; apply (HE e [_]); by repeat constructor].
    intros rows _ _ _. cbn [wp]. apply (HQ _ [_]); [by repeat constructor|].
    apply keep_first_known; [by intros id d ?%lookup_empty_Some|].
    apply Forall_forall. intros r Hr. by apply (known_find _ TReceipt).
Qed.

Lemma statuses_shown plan tr rows receipts :
  Forall (fun m => known tr TMessage m /\ message_filter pepper plan m = true) rows ->
  receipts_known tr receipts -> Forall (shown_from plan tr) (statuses_of rows receipts).
Proof.
  intros Hr. revert receipts. induction Hr as [|m rows [Hm Hf] _ IH]; intros receipts Hk; [constructor|].
  cbn [statuses_of]. constructor.
  - exists m, (receipts !! Message.id m). split_and!; [done | done | done|]. intros d. apply Hk.
  - apply IH. intros id d [_ Hd]%lookup_delete_Some. by apply Hk.
Qed.

Lemma statuses_length rows receipts : length (statuses_of rows receipts) = length rows.
Proof. revert receipts. induction rows as [|m rows IH]; intros receipts; [done|]. cbn. by rewrite IH. Qed.

(** The reading half: what is shown, and what closes the lookup. *)
Lemma wp_answer c plan claimed tr Q : 0 <= lp_limit plan ->
  (forall e l, Forall ledger_or_read l -> (length (creates TLookup l) <= if is_null claimed then 1 else 0)%nat ->
     Q (Err e) (l ++ tr)) ->
  (forall res l e, Forall read_only l -> Forall (shown_from plan (l ++ tr)) (dr_statuses res) ->
     Z.of_nat (length (dr_statuses res)) <= lp_limit plan ->
     closes c plan claimed (Z.of_nat (length (dr_statuses res))) e -> Q (Ok res) (e :: l ++ tr)) ->
  wp (answer pepper c plan claimed) tr Q.
Proof.
  intros Hlim HE HQ. unfold answer.
  assert (forall e l, Forall read_only l -> Q (Err e) (l ++ tr)) as HE'.
  { intros e l Hl. apply HE; [by apply ledger_reads|]. rewrite creates_reads by done. cbn. lia. }
  apply wp_find_ok; [|intros e; apply (HE' e [_]); by repeat constructor].
  intros found Hw _ Hn. set (e1 := Ev (FindMany TMessage (messages_query pepper plan)) (Ok found)).
  set (rows := take (Z.to_nat (lp_limit plan)) found).
  apply wp_ok_bind, wp_newest; [|intros e l Hl; rewrite (app_assoc l [e1] tr : l ++ e1 :: tr = _);
    apply HE'; apply Forall_app; split; [done | by repeat constructor]].
  intros receipts l Hl Hk. rewrite (app_assoc l [e1] tr : l ++ e1 :: tr = _) in *.
  set (l' := l ++ [e1]) in *.
  assert (Forall read_only l') as Hl' by (apply Forall_app; split; [done | by repeat constructor]).
  assert (Forall (shown_from plan (l' ++ tr)) (statuses_of rows receipts)) as Hshown.
  { apply statuses_shown; [|done]. apply Forall_take, Forall_forall. intros m Hm. split.
    - unfold l'. rewrite <- (assoc_L (++)). apply known_app. by apply (known_find _ TMessage).
    - rewrite Forall_forall in Hw. by apply (Hw m). }
  assert (Z.of_nat (length (statuses_of rows receipts)) <= lp_limit plan) as Hlen.
  { rewrite statuses_length. unfold rows. rewrite length_take. lia. }
  apply wp_ok_bind. unfold account_for, settle. destruct claimed as [id|]; apply wp_any; try done; intros [b|e].
  - cbn [wp]. apply HQ; [done | done | done|]. by eexists.
  - cbn [wp]. apply (HE e (_ :: l')); [constructor; [by right | by apply ledger_reads]|].
    rewrite creates_skip, creates_reads by done. cbn. lia.
  - cbn [wp]. apply HQ; [done | done | done|]. by eexists.
  - cbn [wp]. apply (HE e (_ :: l')); [constructor; [by right | by apply ledger_reads]|].
    rewrite creates_same, creates_reads by done. cbn. lia.
Qed.

(** The budget: the lookup's own row first, then the count. *)
Lemma wp_claim_budget c plan now tr Q : 0 <= now < CLOCK_END ->
  (forall e l, Forall ledger_or_read l -> length (creates TLookup l) = 1%nat -> Q (Err e) (l ++ tr)) ->
  (forall own used, used <= BUDGETED_LOOKUPS_PER_HOUR ->
     Q (Ok own.(DeliveryLookup.id))
       ([ Ev (Count TLookup (used_in c (now - hours 1))) (Ok used);
          Ev (Create TLookup (account pepper c plan DeliveryLookupOutcome.pending None)) (Ok own) ] ++ tr)) ->
  wp (claim_budget pepper c plan now) tr Q.
Proof.
  intros Hn HE HQ. unfold claim_budget. apply wp_any; [done|].
  intros [own|e]; cbn [wp]; [|apply (HE e [_]); [ledger_events | by rewrite creates_same]].
  rewrite clock_back by (change (days 90) with 7776000000000; change (hours 1) with 3600000000; lia).
  cbn [or_panic]. apply wp_any; [done|].
  intros [used|e]; cbn [wp].
  2: { apply (HE e [_; _]); [ledger_events|]. by rewrite creates_skip, creates_same. }
  destruct (Z.ltb_spec BUDGETED_LOOKUPS_PER_HOUR used) as [_|Hu]; [|by apply HQ].
  apply wp_ok_bind. unfold settle. apply wp_any; [done|].
  intros [b|e]; cbn [wp]; apply (HE _ [_; _; _]);
    [ledger_events | by rewrite creates_skip, creates_skip, creates_same | ledger_events | by rewrite creates_skip, creates_skip, creates_same].
Qed.

(** What closing a lookup and its budget leave in the trace. *)
Definition accounted (c : Caller) (plan : LookupPlan) (now count : Z) (tr : trace) : Prop :=
  exists e l, tr = e :: l /\
  if budgeted c (lp_key plan) then
    exists own used, closes c plan (Some own.(DeliveryLookup.id)) count e /\
      Ev (Create TLookup (account pepper c plan DeliveryLookupOutcome.pending None)) (Ok own) ∈ l /\
      Ev (Count TLookup (used_in c (now - hours 1))) (Ok used) ∈ l /\
      used <= BUDGETED_LOOKUPS_PER_HOUR
  else closes c plan None count e.

Definition answered (ctx : CratestackContext) (args : DeliveryStatusQuery)
  (r : result DeliveryStatusResult CratestackError) (tr : trace) : Prop :=
  Forall ledger_or_read tr /\ (length (creates TLookup tr) <= 1)%nat /\
  forall res, r = Ok res ->
    rbac_holds (context_perms ctx) (context_scope ctx) (lit "delivery:read") = true /\
    exists c plan now, caller_of ctx = Ok c /\ Ev Now now ∈ tr /\
      from_args args (ca_asker c) now = Some (Ok plan) /\ confined (ca_asker c) now plan /\
      Forall (shown_from plan tr) (dr_statuses res) /\
      Z.of_nat (length (dr_statuses res)) <= lp_limit plan /\
      accounted c plan now (Z.of_nat (length (dr_statuses res))) tr.

Lemma closes_ledger c plan claimed count e : closes c plan claimed count e -> ledger_or_read e.
Proof. destruct claimed; intros [? ->]; by right. Qed.

Lemma closes_creates c plan claimed count e :
  closes c plan claimed count e -> (length (create_of TLookup e) <= if is_null claimed then 1 else 0)%nat.
Proof. destruct claimed; intros [? ->]; cbn; [lia|]. by destruct (decide (TLookup = TLookup)). Qed.

Lemma wp_lookup ctx args : sane_window args -> wp (delivery_status pepper ctx args) [] (answered ctx args).
Proof.
  intros Hs. unfold delivery_status. apply wp_ok_bind. cbn [wp lift]. unfold require_permission.
  assert (forall e l, Forall ledger_or_read l -> (length (creates TLookup l) <= 1)%nat ->
            answered ctx args (Err e) l) as Herr by (intros; by split).
  destruct (rbac_holds _ _ _) eqn:Hperm; [|by apply Herr; [|cbn; lia]].
  apply wp_clock. intros now Hn. unfold lookup. apply wp_ok_bind. cbn [wp lift].
  assert (forall e, answered ctx args (Err e) [Ev Now now]) as Herr1
    by (intros e; apply Herr; [ledger_events | cbn; lia]).
  destruct (caller_of ctx) as [c|e] eqn:Hc; [|apply Herr1].
  destruct (from_args_total args (ca_asker c) now Hs Hn) as [[plan|e] Hplan]; rewrite Hplan;
    cbn [or_panic pbind_ok pbind lift]; [|apply Herr1].
  pose proof (from_args_confined args (ca_asker c) now plan Hn Hplan) as Hconf.
  pose proof (confined_limit _ _ _ Hconf) as Hlim.
  apply wp_ok_bind. destruct (budgeted c (lp_key plan)) eqn:Hb.
  - apply wp_ok_bind, wp_claim_budget; [done | |].
    { intros e l Hl Hlen. apply Herr; [apply Forall_app; split; [done | ledger_events]|].
      rewrite creates_app. change (creates TLookup [Ev Now now]) with (@nil CreateDeliveryLookupInput).
      rewrite app_nil_r. lia. }
    intros own used Hused. cbn [wp]. set (l0 := [_; _] ++ [Ev Now now]).
    assert (Forall ledger_or_read l0) as Hl0
      by ledger_events.
    assert (creates TLookup l0 = [account pepper c plan DeliveryLookupOutcome.pending None]) as Hcr
      by (unfold l0; cbn [app]; by rewrite creates_skip, creates_same).
    apply wp_answer; [lia | |].
    + intros e l Hl Hlen. apply Herr; [by apply Forall_app|]. cbn in Hlen. rewrite creates_app, Hcr, length_app. cbn. lia.
    + intros res l e Hl Hsh Hlen Hcl. split_and!.
      * constructor; [by eapply closes_ledger|]. apply Forall_app. split; [by apply ledger_reads | done].
      * pose proof (closes_creates _ _ _ _ _ Hcl) as He. cbn in He.
        rewrite creates_skip by (destruct (create_of TLookup e); [done | cbn in He; lia]).
        by rewrite creates_app_reads, Hcr.
      * intros ? [= <-]. split; [done|]. exists c, plan, now. split_and!; [done| |done|done| |done|].
        -- right. apply elem_of_app. right. right. right. by left.
        -- eapply Forall_impl; [exact Hsh|]. intros s. apply (shown_from_app [e]).
        -- exists e, (l ++ l0). split; [done|]. rewrite Hb. exists own, used.
           split_and!; [done | | | done]; apply elem_of_app; right; [right; by left | by left].
  - cbn [wp]. apply wp_answer; [lia | |].
    + intros e l Hl Hlen. apply Herr; [apply Forall_app; split; [done | ledger_events]|].
      cbn in Hlen. rewrite creates_app. change (creates TLookup [Ev Now now]) with (@nil CreateDeliveryLookupInput).
      rewrite app_nil_r. exact Hlen.
    + intros res l e Hl Hsh Hlen Hcl. split_and!.
      * constructor; [by eapply closes_ledger|]. apply Forall_app. split; [by apply ledger_reads|].
        ledger_events.
      * pose proof (closes_creates _ _ _ _ _ Hcl) as He. cbn in He. unfold creates. rewrite bind_cons.
        fold (creates TLookup (l ++ [Ev Now now])). rewrite creates_app_reads by done. rewrite length_app. cbn. lia.
      * intros ? [= <-]. split; [done|]. exists c, plan, now. split_and!; [done| |done|done| |done|].
        -- right. apply elem_of_app. right. by left.
        -- eapply Forall_impl; [exact Hsh|]. intros s. apply (shown_from_app [e]).
        -- exists e, (l ++ [Ev Now now]). split; [done|]. by rewrite Hb.
Qed.

(** A delivery lookup writes nothing but its one row of the ledger and,
    with a window that chrono can hold, never panics.  It is answered only to
    a caller with [delivery:read], after the row has been closed with the
    number of messages shown, and, where the lookup is budgeted, after the row
    was counted with at most sixty of the hour.  Every status shown is the
    view of a message the plan selects, with a receipt of that message, at
    most [limit] of them.  An app is shown its own messages only; by number
    only messages that are not purged, of the last ninety days; a number is
    shown masked. *)
Theorem lookup_confined `{B : !Backend} ctx args p tr w w' :
  sane_window args -> world_ok w ->
  rtc step (delivery_status pepper ctx args, [], w) (p, tr, w') ->
  p <> Panic /\
  forall r, p = Ret r -> answered ctx args r tr /\
    forall res, r = Ok res -> Forall (fun s => exists c now m, caller_of ctx = Ok c /\ Ev Now now ∈ tr /\
      known tr TMessage m /\ ds_messageId s = m.(Message.id) /\
      (forall app, ca_asker c = AskerApp app -> ds_appId s = app) /\
      (is_null (dq_messageId args) = true -> is_null (dq_clientRef args) = true ->
         ds_purged s = false /\ now - days MAX_WINDOW_DAYS <= ds_acceptedAt s) /\
      (forall shown, ds_recipient s = Some shown -> ds_purged s = false /\
         exists number, parse m.(Message.msisdn) = Ok number /\ shown = masked number)) (dr_statuses res).
Proof.
  intros Hs Hok Hr. pose proof (wp_lookup ctx args Hs) as Hwp.
  split; [by apply (wp_run_safe _ _ _ _ _ _ Hwp Hok Hr)|]. intros r ->.
  pose proof (wp_run _ _ _ _ _ _ _ Hwp Hok (valid_nil _) (Forall_nil_2 _) Hr) as Ha.
  split; [done|]. intros res ->. destruct Ha as (_ & _ & Hans).
  destruct (Hans res eq_refl) as (_ & c & plan & now & Hc & Hnow & Hplan & Hconf & Hsh & _).
  eapply Forall_impl; [exact Hsh|]. intros s (m & last & Hk & Hf & -> & _).
  exists c, now, m. split_and!; [done | done | done | done | | |].
  - intros app Ha. pose proof (confined_app _ _ _ Hconf app Ha) as Hp. unfold message_filter in Hf.
    rewrite Hp in Hf. by split_and_bool.
  - intros Hm1 Hm2. destruct (by_number _ _ _ _ Hplan Hm1 Hm2) as [number Hkey].
    destruct (confined_number _ _ _ Hconf number Hkey) as (since & Hsince & Hold).
    unfold message_filter in Hf. rewrite Hkey, Hsince in Hf. split_and_bool. cbn.
    split; [by rewrite negb_false_iff | lia].
  - intros shown. cbn. unfold recipient. destruct (is_null (Message.purgedAt m)) eqn:Hp; [|done].
    destruct (parse (Message.msisdn m)) as [number|] eqn:Hn; [|done]. intros [= <-].
    split; [done|]. by exists number.
Qed.

End Answers.

(** ** Example: a support agent looks up a number *)
Section Demo.

#[local] Existing Instance demo_errors.
#[local] Existing Instance demo_debug.
#[local] Existing Instance demo_phone.
#[local] Existing Instance WebhookExamples.demo_mac.

Definition support_context : CratestackContext :=
  context_for (SUser (mkUserStanding (lit "u1") (lit "support") [lit "delivery:read"])).

Definition number_query (until : option Z) : DeliveryStatusQuery :=
  mkStatusQuery None None None (Some (lit "677 12 34 56")) None until None.

Definition lookup_message : Message.t :=
  Message.set_updatedAt 0 (Message.mk (lit "m1") ex_now 0 (lit "app1") None None (lit "+237677123456")
    (hmac_sha256_hex demo_pepper (lit "+237677123456"))
    OperatorCode.mtn (lit "VSMS") MessageClass.otp 100 (Some (lit "code 1234")) (lit "bh") 9
    EncodingCode.gsm7 1 MessageState.delivered None (Some (lit "rt1")) (Some (lit "pv1"))
    (Some (lit "ref-1")) None None 0 3 None None None (ex_now + minutes 10) None None None (0, 0) 7).

Definition lookup_world : world := insert_row empty_world TMessage lookup_message.

Definition lookup_run (until : option Z) : config (result DeliveryStatusResult DemoError) :=
  ref_run accepting (delivery_status demo_pepper support_context (number_query until)) [] lookup_world.

(** The recipients an answer shows. *)
Definition shown (r : result DeliveryStatusResult DemoError) : list (option text) :=
  match r with Ok res => ds_recipient <$> dr_statuses res | Err _ => [] end.

Lemma lookup_run_ok :
  is_null (run_result (lookup_run None)) = false /\
  shown <$> run_result (lookup_run None) = Some [Some (lit "+237*******56")].
Proof. vm_compute. split; reflexivity. Qed.

Lemma lookup_confined_witness :
  shown <$> run_result (lookup_run None) = Some [Some (lit "+237*******56")] /\
  exists r, run_result (lookup_run None) = Some r /\
    answered demo_pepper support_context (number_query None) r (run_trace (lookup_run None)).
Proof.
  split; [exact (proj2 lookup_run_ok)|].
  destruct (run_result (lookup_run None)) as [r|] eqn:Hr;
    [|destruct (eq_true_false_abs _ (f_equal is_null Hr) (proj1 lookup_run_ok))].
  exists r. split; [done|].
  assert (sane_window (number_query None)) as Hs by (intros u; discriminate).
  exact (proj1 (proj2 (@lookup_confined _ _ _ _ demo_pepper (ref_backend accepting) support_context
    (number_query None) _ _ lookup_world _ Hs (insert_row_ok _ _ _ empty_world_ok)
    (ref_run_done accepting _ [] lookup_world r Hr)) r eq_refl)).
Defined.

(** A window that ends too early panics: [until] less seven days leaves
    chrono's range when [until] is its first instant, before the window has
    been checked, in a request the caller is otherwise entitled to make. *)
Theorem lookup_until_unchecked :
  (lookup_run (Some MIN_UTC)).1.1 = Panic /\
  option_map is_ok (run_result (lookup_run (Some ex_now))) = Some true.
Proof. vm_compute. split; reflexivity. Qed.

End Demo.
