(* ===== verification/LookupBudget.v ===== *)
(** * The hourly budget of delivery lookups

    delivery_status.rs stores a lookup's row first and counts afterwards, its
    own row included.  Here any number of lookups run side by side, call by
    call, and the budget is shown to hold without a lock. *)

From S2P Require Import Prelude Msisdn ProviderApi Schema ApiSchema Errors Db DbLogic DbReads DbRef.
From S2P Require Import Discipline WorkerRouting DemoData Webhook Cache Rbac Send DeliveryStatus.

(** ** The hourly budget holds under concurrency *)
Section Budget.

Context `{E : CratestackErrors} `{UD : UnicodeDebug} `{PL : PhoneLib} `{ML : MacLib}.
Variable pepper : text.

(** What an event says of the ledger: the row it stored, the number it
    counted, whether it marked a row as over the budget. *)
Definition own_of (e : event) : option DeliveryLookup.t :=
  match e with
  | Ev c r =>
      match c in call R return R -> option DeliveryLookup.t with
      | Create t _ => fun r =>
          match t return result (row t) CratestackError -> option DeliveryLookup.t with
          | TLookup => fun r => match r with Ok own => Some own | Err _ => None end
          | _ => fun _ => None
          end r
      | _ => fun _ => None
      end r
  end.

Definition owned (tr : trace) : list DeliveryLookup.t := omap own_of tr.

Definition count_of (e : event) : option ((DeliveryLookup.t -> bool) * Z) :=
  match e with
  | Ev c r =>
      match c in call R return R -> option ((DeliveryLookup.t -> bool) * Z) with
      | Count t f => fun r =>
          match t return (row t -> bool) -> option ((DeliveryLookup.t -> bool) * Z) with
          | TLookup => fun f => match r with Ok n => Some (f, n) | Err _ => None end
          | _ => fun _ => None
          end f
      | _ => fun _ => None
      end r
  end.

Definition settled_as (outcome : DeliveryLookupOutcome.t) (count : option Z) : list DeliveryLookup.col :=
  [DeliveryLookup.SetOutcome outcome; DeliveryLookup.SetResultCount count].

Definition refusing (e : event) : Prop :=
  match e with
  | Ev c _ =>
      match c with
      | Overwrite t _ p =>
          match t return overwrite t -> Prop with
          | TLookup => fun p => p = settled_as DeliveryLookupOutcome.over_budget None
          | _ => fun _ => False
          end p
      | _ => False
      end
  end.

(** What a lookup may call: it stores one row, and settles its own. *)
Definition ledger_call R (tr : trace) (c : call R) : Prop :=
  match c with
  | Now | FindMany _ _ | Count _ _ => True
  | Create t i =>
      match t return create_input t -> Prop with
      | TLookup => fun i => cl_outcome i <> DeliveryLookupOutcome.over_budget
      | _ => fun _ => False
      end i
  | Overwrite t id p =>
      match t return overwrite t -> Prop with
      | TLookup => fun p => (exists own, own ∈ owned tr /\ own.(DeliveryLookup.id) = id) /\
          exists outcome count, p = settled_as outcome count /\
            (outcome = DeliveryLookupOutcome.over_budget -> count = None)
      | _ => fun _ => False
      end p
  | _ => False
  end.

Definition ledger_reply R (c : call R) : R -> Prop :=
  match c in call R return R -> Prop with
  | Create t i => fun r => forall b, r = Ok b -> exists id now, b = created t id now i
  | _ => fun _ => True
  end.

#[local] Abbreviation on_ledger := (disciplined ledger_call ledger_reply).

(** The row's count came out within the budget, after the row was stored. *)
Definition within_budget (c : Caller) (now : Z) (own : DeliveryLookup.t) (tr : trace) : Prop :=
  exists l e rest used, tr = l ++ e :: rest /\ count_of e = Some (used_in c (now - hours 1), used) /\
    used <= BUDGETED_LOOKUPS_PER_HOUR /\ own ∈ owned rest.

Definition charged (c : Caller) (own : DeliveryLookup.t) : Prop :=
  own.(DeliveryLookup.actorSub) = ca_sub c /\ own.(DeliveryLookup.actorKind) = caller_kind c /\
  own.(DeliveryLookup.keyKind) ∈ budgeted_kinds c.

(** What a lookup that may still be answered has left. *)
Definition let_through (c : Caller) (now : Z) (tr : trace) : Prop :=
  Ev Now now ∈ tr /\ Forall (fun e => ~ refusing e) tr /\
  forall own, own ∈ owned tr ->
    own.(DeliveryLookup.actorSub) = ca_sub c /\ own.(DeliveryLookup.actorKind) = caller_kind c /\
    (own.(DeliveryLookup.keyKind) ∈ budgeted_kinds c -> within_budget c now own tr).

Definition budget_post (r : result DeliveryStatusResult CratestackError) (tr : trace) : Prop :=
  is_ok r = true -> exists c now, let_through c now tr.

Lemma within_budget_cons c now own e tr : within_budget c now own tr -> within_budget c now own (e :: tr).
Proof. intros (l & e' & rest & used & -> & Hrest). by exists (e :: l), e', rest, used. Qed.

Lemma let_through_neutral c now e tr :
  own_of e = None -> ~ refusing e -> let_through c now tr -> let_through c now (e :: tr).
Proof.
  intros He Hr (Hn & Hf & Ho). split_and!; [by right | by constructor|]. unfold owned. cbn. rewrite He.
  intros own Hin. destruct (Ho own Hin) as (Hs & Hk & Hw). split_and!; [done | done|].
  intros Hb. by apply within_budget_cons, Hw.
Qed.

Lemma budgeted_spec c key : budgeted c key = bool_decide (key_kind key ∈ budgeted_kinds c).
Proof. unfold budgeted, budgeted_kinds. destruct key, (ca_asker c); reflexivity. Qed.

Lemma budget_post_err e tr : budget_post (Err e) tr.
Proof. done. Qed.

(** The row a lookup will close: its own, or none yet. *)
Definition ready (c : Caller) (plan : LookupPlan) (claimed : option text) (tr : trace) : Prop :=
  match claimed with
  | Some id => exists own, own ∈ owned tr /\ own.(DeliveryLookup.id) = id
  | None => owned tr = [] /\ budgeted c (lp_key plan) = false
  end.

Lemma ready_neutral c plan claimed e tr :
  own_of e = None -> ready c plan claimed tr -> ready c plan claimed (e :: tr).
Proof. intros He. unfold ready, owned. cbn. by rewrite He. Qed.

Lemma disciplined_close c plan claimed count res now tr :
  let_through c now tr -> ready c plan claimed tr ->
  on_ledger (let!? _ := account_for pepper c plan claimed count in Ret (Ok res)) tr budget_post.
Proof.
  intros Hl Hr. destruct claimed as [id|].
  - split; [split; [exact Hr | by eexists _, _]|]. intros [b|e] _; [|done]. cbn. intros _. exists c, now.
    apply let_through_neutral; [done | done | exact Hl].
  - destruct Hr as [Hnone Hb], Hl as (Hn & Hf & _). split; [done|]. intros [b|e] Hb'; [|done]. cbn. intros _.
    exists c, now. destruct (Hb' b eq_refl) as (id & at_ & ->).
    split_and!; [by right | constructor; [by intros []|done]|].
    unfold owned. cbn [omap list_omap own_of]. fold (owned tr). rewrite Hnone.
    intros own ->%list_elem_of_singleton. cbn. split_and!; [done | done|]. intros Hk.
    rewrite budgeted_spec in Hb. by apply bool_decide_eq_false in Hb.
Qed.

Lemma disciplined_answer c plan claimed now tr :
  let_through c now tr -> ready c plan claimed tr -> on_ledger (answer pepper c plan claimed) tr budget_post.
Proof.
  intros Hl Hr. unfold answer. split; [done|]. intros [found|e] _; [|done]. cbn [pbind].
  set (e1 := Ev (FindMany TMessage _) _). set (rows := take _ found). unfold newest_receipts.
  assert (let_through c now (e1 :: tr)) as Hl1
    by exact (let_through_neutral c now e1 tr eq_refl (fun f => f) Hl).
  assert (ready c plan claimed (e1 :: tr)) as Hr1 by exact (ready_neutral _ _ _ e1 tr eq_refl Hr).
  apply disciplined_ok. case_bool_decide; [by apply (disciplined_close _ _ _ _ _ now)|].
  split; [done|]. intros [receipts|e] _; [|done].
  apply (disciplined_close _ _ _ _ _ now).
  - apply let_through_neutral; [reflexivity | exact (fun f => f) | exact Hl1].
  - apply ready_neutral; [reflexivity | exact Hr1].
Qed.

Lemma disciplined_claim c plan now tr (Q : _ -> trace -> Prop) :
  Ev Now now ∈ tr -> Forall (fun e => ~ refusing e) tr -> owned tr = [] ->
  (forall id tr', let_through c now tr' -> ready c plan (Some id) tr' -> Q (Ok id) tr') ->
  (forall e tr', Q (Err e) tr') -> on_ledger (claim_budget pepper c plan now) tr Q.
Proof.
  intros Hn Hf Ho HQ HE. split; [done|]. intros [own|e] Hown; [|apply HE]. cbn [pbind].
  destruct (chrono_add now (- hours 1)) as [since|] eqn:Hs; [|exact I]. cbn [or_panic].
  assert (since = now - hours 1) as -> by (unfold chrono_add in Hs; case_match; [injection Hs as <-; lia | done]).
  split; [done|]. intros [used|e] _; [|apply HE]. cbn [pbind].
  set (e2 := Ev (Count TLookup _) _). set (e1 := Ev (Create TLookup _) _).
  assert (owned (e2 :: e1 :: tr) = [own]) as Howned.
  { unfold owned. cbn [omap list_omap own_of e2 e1]. fold (owned tr). by rewrite Ho. }
  destruct (Z.ltb_spec BUDGETED_LOOKUPS_PER_HOUR used) as [_|Hused].
  - split.
    + split; [|by eexists _, _]. exists own. rewrite Howned. split; [by left | done].
    + intros [b|e] _; apply HE.
  - destruct (Hown own eq_refl) as (id & at_ & ->). apply HQ.
    + split_and!; [by do 2 right | constructor; [by intros []|]; constructor; [by intros []|done]|].
      rewrite Howned. intros own ->%list_elem_of_singleton. cbn. split_and!; [done | done|]. intros _.
      exists [], e2, (e1 :: tr), used. split_and!; [done | done | done|].
      unfold owned. cbn [omap list_omap own_of e1]. by left.
    + eexists. rewrite Howned. split; [by left | done].
Qed.

Lemma disciplined_status ctx args : on_ledger (delivery_status pepper ctx args) [] budget_post.
Proof.
  unfold delivery_status, require_permission. destruct (rbac_holds _ _ _); [|done].
  split; [done|]. intros now _. cbn [pbind]. unfold lookup.
  destruct (caller_of ctx) as [c|e]; [|done]. cbn [pbind_ok pbind lift].
  destruct (from_args args (ca_asker c) now) as [[plan|e]|]; [|done|done]. cbn [or_panic pbind_ok pbind lift].
  assert (Forall (fun e => ~ refusing e) [Ev Now now]) as Hf by (constructor; [by intros []|done]).
  apply disciplined_ok. destruct (budgeted c (lp_key plan)) eqn:Hb.
  - apply disciplined_ok, disciplined_claim; [by left | done | done| |done].
    intros id tr Hl Hr. by apply (disciplined_answer _ _ _ now).
  - apply (disciplined_answer _ _ _ now); [|done]. split_and!; [by left | done|].
    by intros own ?%not_elem_of_nil.
Qed.

(** *** Lookups side by side *)
Context `{B : !Backend}.

(** A row of the ledger, later: who asked and when have not changed, and it has
    not been marked as over the budget. *)
Definition stands (own : DeliveryLookup.t) (w : world) : Prop :=
  exists b, w_tables w TLookup !! own.(DeliveryLookup.id) = Some b /\
    b.(DeliveryLookup.actorSub) = own.(DeliveryLookup.actorSub) /\
    b.(DeliveryLookup.actorKind) = own.(DeliveryLookup.actorKind) /\
    b.(DeliveryLookup.keyKind) = own.(DeliveryLookup.keyKind) /\
    b.(DeliveryLookup.createdAt) = own.(DeliveryLookup.createdAt) /\
    b.(DeliveryLookup.outcome) <> DeliveryLookupOutcome.over_budget.

(** Only lookups write to the ledger. *)
Definition keeps_ledger (w w' : world) : Prop :=
  rows_ok w' /\ w_tables w' TLookup = w_tables w TLookup /\ w_used w' TLookup = w_used w TLookup.

Lemma stands_written own w (b : row TLookup) w' :
  stands own w -> written w TLookup b w' -> row_id TLookup b <> own.(DeliveryLookup.id) -> stands own w'.
Proof.
  intros (x & Hx & Hrest) Hw Hne. exists x. split; [|exact Hrest].
  rewrite (written_row _ _ _ _ Hw). by rewrite lookup_insert_ne.
Qed.

(** A call keeps a row standing, unless it marks that very row. *)
Lemma stands_call R (c : call R) w r w' tr own :
  exec R c w r w' -> ledger_call R tr c -> rows_ok w -> stands own w ->
  (~ refusing (Ev c r) \/ forall x, x ∈ owned tr -> x.(DeliveryLookup.id) <> own.(DeliveryLookup.id)) ->
  stands own w'.
Proof.
  intros Hx Hc Hok Hs Hno. destruct c; cbn in Hc; try done.
  - by apply exec_Now in Hx as ->.
  - by apply exec_FindMany in Hx as [-> _].
  - destruct t; try done. apply exec_Create in Hx as [[-> _]|(id & now & Hf & Hw & _)]; [done|].
    apply (stands_written own w _ w' Hs Hw). rewrite created_id. intros ->.
    destruct Hs as (b & Hb & _). by destruct (Hok TLookup _ _ Hb).
  - by apply exec_Count in Hx as [-> _].
  - destruct t; try done. destruct Hc as [(x & Hin & Hid) (outcome & count & -> & Hcount)].
    apply exec_Overwrite in Hx as [[-> _]|(a & b & clock & Ha & Hcm & Hw & _ & _)]; [done|].
    cbn [commit_overwrite] in Hcm. apply lookup_guard_inv in Hcm as (-> & _ & _ & _).
    destruct (decide (id = own.(DeliveryLookup.id))) as [He|Hne].
    + destruct Hno as [Hno|Hno]; [|by destruct (Hno x Hin); rewrite Hid].
      destruct Hs as (x' & Hx' & Hrest). rewrite He in Ha.
      assert (Some x' = Some a) as [= <-] by exact (eq_trans (eq_sym Hx') Ha).
      eexists. split.
      * rewrite (written_row _ _ _ _ Hw). cbn. destruct (Hok TLookup _ _ Hx') as [Hxid _]. cbn in Hxid. rewrite Hxid.
        apply lookup_insert_eq.
      * cbn. destruct Hrest as (? & ? & ? & ? & _). split_and!; try done. intros ->. apply Hno. cbn.
        by rewrite Hcount.
    + apply (stands_written own w _ w' Hs Hw). cbn. destruct (Hok TLookup _ _ Ha) as [Hxid _]. cbn in Hxid. congruence.
Qed.

(** What a call stores stands. *)
Lemma stands_own R (c : call R) w r w' tr own :
  exec R c w r w' -> ledger_call R tr c -> own_of (Ev c r) = Some own ->
  (own.(DeliveryLookup.id) ∉ w_used w TLookup) /\ own.(DeliveryLookup.id) ∈ w_used w' TLookup /\ stands own w'.
Proof.
  intros Hx Hc Hown. destruct c; cbn in Hown; try done. destruct t; try done.
  destruct r as [b|e]; [|done]. injection Hown as <-.
  apply exec_Create in Hx as [[_ ?]|(id & now & Hf & Hw & Hb & Hu & _)]; [done|].
  rewrite (Hb b eq_refl). cbn. split_and!; [done | rewrite Hu; apply elem_of_union_l, elem_of_singleton_2; done|].
  eexists. split; [|by split_and!; try done]. rewrite (written_row _ _ _ _ Hw). cbn. apply lookup_insert_eq.
Qed.

Lemma ledger_used R (c : call R) w r w' tr :
  exec R c w r w' -> ledger_call R tr c -> w_used w TLookup ⊆ w_used w' TLookup.
Proof.
  intros Hx Hc. destruct c; cbn in Hc; try done.
  - by apply exec_Now in Hx as ->.
  - by apply exec_FindMany in Hx as [-> _].
  - destruct t; try done. apply exec_Create in Hx as [[-> _]|(id & now & _ & _ & _ & Hu & _)]; [done|].
    rewrite Hu. apply union_subseteq_r.
  - by apply exec_Count in Hx as [-> _].
  - destruct t; try done. apply exec_Overwrite in Hx as [[-> _]|(? & ? & ? & _ & _ & _ & Hu & _)]; [done|].
    by rewrite Hu.
Qed.

Lemma exec_promised R (c : call R) w r w' tr :
  exec R c w r w' -> ledger_call R tr c -> ledger_reply R c r.
Proof.
  intros Hx Hc. destruct c; try done. intros b ->.
  apply exec_Create in Hx as [[_ ?]|(id & now & _ & _ & Hb & _)]; [done|]. by eexists _, _; apply Hb.
Qed.

(** A count is at least the number of standing rows it should count. *)
Lemma count_covers R (c : call R) w r w' who since n rows :
  exec R c w r w' -> count_of (Ev c r) = Some (used_in who since, n) ->
  NoDup (DeliveryLookup.id <$> rows) ->
  Forall (fun own => stands own w /\ charged who own /\ since <= own.(DeliveryLookup.createdAt)) rows ->
  Z.of_nat (length rows) <= n.
Proof.
  intros Hx Hn Hnd Hrows. destruct c; cbn in Hn; try done. destruct t; try done.
  destruct r as [m|e]; [|done]. injection Hn as -> ->.
  apply exec_Count in Hx as [_ Hc]. rewrite (Hc n eq_refl). apply Nat2Z.inj_le.
  rewrite <- (length_map DeliveryLookup.id rows).
  rewrite <- (length_map fst (List.filter _ _)).
  apply submseteq_length, NoDup_submseteq; [exact Hnd|]. intros id Hid.
  apply list_elem_of_fmap in Hid as (own & -> & Hin).
  rewrite Forall_forall in Hrows. destruct (Hrows own Hin) as ((b & Hb & Hs & Hk & Hkk & Hat & Ho) & (Hc1 & Hc2 & Hc3) & Hsince).
  apply (list_elem_of_fmap_2' fst _ (DeliveryLookup.id own, b)); [|done].
  apply list_elem_of_In, filter_In. split; [by apply list_elem_of_In, elem_of_map_to_list|].
  cbn. unfold used_in. rewrite Hs, Hk, Hkk, Hat, Hc1, Hc2, !bool_decide_eq_true_2, bool_decide_eq_false_2 by done.
  by apply Z.leb_le.
Qed.

(** A lookup that has passed its count, within the hour from [T]. *)
Definition spent (c : Caller) (T : Z) (tr : trace) : Prop :=
  exists own now, Forall (fun e => ~ refusing e) tr /\ within_budget c now own tr /\ charged c own /\
    T <= own.(DeliveryLookup.createdAt) /\ now <= T + hours 1.

Record ledger_inv (y : pool (result DeliveryStatusResult CratestackError)) : Prop := {
  li_ok : rows_ok y.2;
  li_prog i p tr : y.1 !! i = Some (p, tr) -> on_ledger p tr budget_post;
  li_used i p tr own : y.1 !! i = Some (p, tr) -> own ∈ owned tr ->
    own.(DeliveryLookup.id) ∈ w_used y.2 TLookup;
  li_stands i p tr own : y.1 !! i = Some (p, tr) -> own ∈ owned tr ->
    Forall (fun e => ~ refusing e) tr -> stands own y.2;
  li_distinct i j p q tr tr' own own' : y.1 !! i = Some (p, tr) -> y.1 !! j = Some (q, tr') ->
    own ∈ owned tr -> own' ∈ owned tr' -> own.(DeliveryLookup.id) = own'.(DeliveryLookup.id) -> i = j;
  li_budget c T J : NoDup J ->
    (forall j, j ∈ J -> exists p tr, y.1 !! j = Some (p, tr) /\ spent c T tr) ->
    Z.of_nat (length J) <= BUDGETED_LOOKUPS_PER_HOUR }.

Lemma within_budget_owned c now own tr : within_budget c now own tr -> own ∈ owned tr.
Proof.
  intros (l & e & rest & used & -> & _ & _ & Hin). unfold owned. rewrite omap_app.
  apply elem_of_app. right. cbn. case_match; [by right | done].
Qed.

Lemma owned_cons e tr own : own ∈ owned (e :: tr) -> own_of e = Some own \/ own ∈ owned tr.
Proof.
  unfold owned. cbn. destruct (own_of e) as [x|]; [|by right].
  intros [->|Hin]%elem_of_cons; [by left | by right].
Qed.

(** The budget at one count: all the lookups that passed before stand in the
    ledger, and so does the one that counts. *)
Lemma budget_count y i R (c : call R) k tr r w' who T J n now own :
  ledger_inv y -> y.1 !! i = Some (Call c k, tr) -> exec R c y.2 r w' ->
  count_of (Ev c r) = Some (used_in who (now - hours 1), n) -> n <= BUDGETED_LOOKUPS_PER_HOUR ->
  own ∈ owned tr -> Forall (fun e => ~ refusing e) tr -> charged who own ->
  T <= own.(DeliveryLookup.createdAt) -> now <= T + hours 1 -> NoDup J ->
  (forall j, j ∈ J -> j <> i -> exists p tr, y.1 !! j = Some (p, tr) /\ spent who T tr) ->
  Z.of_nat (length J) <= BUDGETED_LOOKUPS_PER_HOUR.
Proof.
  intros Hinv Hi Hx Hn Hle Hown Hf Hch HT Hnow Hnd HJ.
  set (P j x := exists p tr, y.1 !! j = Some (p, tr) /\ x ∈ owned tr /\ stands x y.2 /\ charged who x /\
         T <= x.(DeliveryLookup.createdAt)).
  assert (Forall (fun j => exists x, P j x) J) as HP.
  { apply Forall_forall. intros j Hj. destruct (decide (j = i)) as [->|Hne].
    - exists own. exists (Call c k), tr. split_and!; try done. by eapply li_stands.
    - destruct (HJ j Hj Hne) as (p & tr' & Hp & x & now' & Hf' & Hw & Hcx & HTx & _). exists x, p, tr'.
      apply within_budget_owned in Hw. split_and!; try done. by eapply li_stands. }
  apply Forall_choose in HP as [rows HP]. rewrite (Forall2_length _ _ _ HP).
  etrans; [|exact Hle]. apply (count_covers R c y.2 r w' who (now - hours 1) n rows Hx Hn).
  - apply (NoDup_choose P DeliveryLookup.id J rows Hnd HP).
    intros j j' x x' (p & t & Hp & Hin & _) (p' & t' & Hp' & Hin' & _) Heq. by eapply (li_distinct y Hinv).
  - apply Forall_forall. intros x Hin. apply list_elem_of_lookup in Hin as [m Hm].
    destruct (Forall2_lookup_r _ _ _ _ _ HP Hm) as (j & _ & p & t & _ & _ & Hst & Hcx & HTx).
    split_and!; [done | done | lia].
Qed.

Lemma spent_cons who T e tr : spent who T (e :: tr) ->
  spent who T tr \/
  exists own now n, count_of e = Some (used_in who (now - hours 1), n) /\ n <= BUDGETED_LOOKUPS_PER_HOUR /\
    own ∈ owned tr /\ Forall (fun e => ~ refusing e) tr /\ charged who own /\
    T <= own.(DeliveryLookup.createdAt) /\ now <= T + hours 1.
Proof.
  intros (own & now & Hf & (l & e' & rest & n & Heq & Hc & Hn & Hin) & Hch & HT & Hnow).
  apply Forall_cons in Hf as [_ Hf]. destruct l as [|e0 l]; injection Heq as -> ->.
  - right. by exists own, now, n.
  - left. exists own, now. split_and!; try done. by exists l, e', rest, n.
Qed.

Lemma ledger_inv_step y z :
  steered_step keeps_ledger (fun _ _ _ => True) y z -> ledger_inv y -> ledger_inv z.
Proof.
  intros Hs Hinv. destruct Hs as [ps w w' (Hok & Ht & Hu)|ps i R c k tr w r w' Hi Hx _].
  - destruct Hinv as [? ? Hused Hst ? ?]. cbn [fst snd] in *. split; cbn [fst snd]; try done.
    + intros i p tr own Hp Ho. rewrite Hu. by eapply Hused.
    + intros i p tr own Hp Ho Hf. unfold stands. rewrite Ht. by eapply Hst.
  - pose proof (li_prog _ Hinv i _ _ Hi) as [Hc Hk]. cbn [fst snd] in *.
    pose proof (li_ok _ Hinv) as Hok. cbn in Hok.
    assert (forall j p t, <[i:=(k r, Ev c r :: tr)]> ps !! j = Some (p, t) ->
              (j = i /\ p = k r /\ t = Ev c r :: tr) \/ (j <> i /\ ps !! j = Some (p, t))) as Hat.
    { intros j p t [(<- & [= <- <-] & _)|[Hne Hj]]%list_lookup_insert_Some; [by left | by right]. }
    assert (forall j p t own, <[i:=(k r, Ev c r :: tr)]> ps !! j = Some (p, t) -> own ∈ owned t ->
              (j = i /\ own_of (Ev c r) = Some own) \/
              (exists q t', ps !! j = Some (q, t') /\ own ∈ owned t')) as Hold.
    { intros j p t own [(-> & -> & ->)|[Hne Hj]]%Hat Ho; [|right; by exists p, t].
      apply owned_cons in Ho as [Ho|Ho]; [by left | right; by exists (Call c k), tr]. }
    split; cbn [fst snd].
    + by destruct (exec_rows _ _ _ _ _ Hok Hx) as (_ & ? & _).
    + intros j p t [(-> & -> & ->)|[_ Hj]]%Hat; [|by eapply li_prog].
      apply Hk. by eapply exec_promised.
    + intros j p t own Hp Ho. destruct (Hold j p t own Hp Ho) as [[-> Hown]|(q & t' & Hq & Hin)].
      * by destruct (stands_own _ _ _ _ _ _ _ Hx Hc Hown) as (_ & ? & _).
      * apply (ledger_used _ _ _ _ _ _ Hx Hc). by eapply (li_used _ Hinv).
    + intros j p t own Hp Ho Hf. destruct (Hat j p t Hp) as [(-> & -> & ->)|[Hne Hj]].
      * apply Forall_cons in Hf as [He Hf]. apply owned_cons in Ho as [Ho|Ho].
        -- by destruct (stands_own _ _ _ _ _ _ _ Hx Hc Ho) as (_ & _ & ?).
        -- eapply stands_call; [exact Hx | exact Hc | exact Hok | by eapply (li_stands _ Hinv) | by left].
      * eapply stands_call; [exact Hx | exact Hc | exact Hok | by eapply (li_stands _ Hinv)|].
        right. intros x Hxin Heq. apply Hne. by eapply (li_distinct _ Hinv).
    + intros j j' p q t t' own own' Hp Hq Ho Ho' Heq.
      destruct (Hold j p t own Hp Ho) as [[-> Hown]|(q1 & t1 & Hq1 & Hin1)],
        (Hold j' q t' own' Hq Ho') as [[-> Hown']|(q2 & t2 & Hq2 & Hin2)]; [done | | |by eapply (li_distinct _ Hinv)].
      * destruct (stands_own _ _ _ _ _ _ _ Hx Hc Hown) as [Hfresh _]. destruct Hfresh. rewrite Heq.
        by eapply (li_used _ Hinv).
      * destruct (stands_own _ _ _ _ _ _ _ Hx Hc Hown') as [Hfresh _]. destruct Hfresh. rewrite <- Heq.
        by eapply (li_used _ Hinv).
    + intros who T J Hnd HJ.
      assert (forall j, j ∈ J -> j <> i -> exists p tr, ps !! j = Some (p, tr) /\ spent who T tr) as Hothers.
      { intros j Hj Hne. destruct (HJ j Hj) as (p & t & [(? & _)|[_ Hp]]%Hat & Hsp); [done|]. by exists p, t. }
      destruct (decide (i ∈ J)) as [Hin|Hout].
      2: { apply (li_budget _ Hinv who T J Hnd). intros j Hj. apply Hothers; [done|]. by intros ->. }
      destruct (HJ i Hin) as (p & t & [(_ & -> & ->)|[? _]]%Hat & Hsp); [|done].
      apply spent_cons in Hsp as [Hsp|(own & now & n & Hcn & Hle & Ho & Hf & Hch & HT & Hnow)].
      * apply (li_budget _ Hinv who T J Hnd). intros j Hj. destruct (decide (j = i)) as [->|Hne]; [|by apply Hothers].
        by exists (Call c k), tr.
      * by eapply (budget_count (ps, w) i R c k tr r w' who T J n now own).
Qed.

(** C33. The budget holds however many lookups run together.  Of any number of
    lookups, by any callers, interleaved call by call with each other and with
    a system that leaves the ledger to them, at most sixty that are charged to
    one caller are answered among those recorded from some time on whose clock
    reads at most an hour past it. *)
Theorem lookup_budget_holds actors w ps w' c T J :
  rows_ok w ->
  rtc (steered_step keeps_ledger (fun _ _ _ => True))
    (start ((fun a : CratestackContext * DeliveryStatusQuery => delivery_status pepper a.1 a.2) <$> actors) w)
    (ps, w') ->
  NoDup J ->
  (forall j, j ∈ J -> exists res tr own, ps !! j = Some (Ret (Ok res), tr) /\ own ∈ owned tr /\
     charged c own /\ T <= own.(DeliveryLookup.createdAt) /\
     forall now, Ev Now now ∈ tr -> now <= T + hours 1) ->
  Z.of_nat (length J) <= BUDGETED_LOOKUPS_PER_HOUR.
Proof.
  intros Hok Hr Hnd HJ.
  assert (ledger_inv (ps, w')) as Hinv.
  { refine (steered_invariant _ _ ledger_inv _ _ ledger_inv_step Hr _).
    assert (forall i p tr, (start ((fun a => delivery_status pepper a.1 a.2) <$> actors) w).1 !! i = Some (p, tr) ->
      tr = [] /\ exists a, p = delivery_status pepper a.1 a.2) as Hstart.
    { intros i p tr Hi. unfold start in Hi. cbn [fst] in Hi. rewrite <- list_fmap_compose in Hi.
      apply list_lookup_fmap_Some in Hi as (a & [= -> ->] & _). split; [done | by exists a]. }
    split; [done| | | | |].
    - intros i p tr (-> & a & ->)%Hstart. apply disciplined_status.
    - by intros i p tr own (-> & _)%Hstart ?%not_elem_of_nil.
    - by intros i p tr own (-> & _)%Hstart ?%not_elem_of_nil.
    - by intros i j p q tr tr' own own' (-> & _)%Hstart _ ?%not_elem_of_nil.
    - intros who T' [|j J'] _ HJ'; [done|]. destruct (HJ' j ltac:(by left)) as (p & tr & (-> & _)%Hstart & Hsp).
      destruct Hsp as (own & now & _ & Hw & _). apply within_budget_owned in Hw. by apply not_elem_of_nil in Hw. }
  apply (li_budget _ Hinv c T J Hnd). intros j Hj.
  destruct (HJ j Hj) as (res & tr & own & Hp & Ho & (Hsub & Hkind & Hkey) & HT & Hclock).
  exists (Ret (Ok res)), tr. split; [done|].
  destruct (li_prog _ Hinv j _ _ Hp eq_refl) as (c' & now & Hnow & Hf & Hown).
  destruct (Hown own Ho) as (Hsub' & Hkind' & Hwithin).
  assert (budgeted_kinds c' = budgeted_kinds c) as Hkinds.
  { rewrite Hkind in Hkind'. unfold budgeted_kinds, caller_kind in *. by destruct (ca_asker c), (ca_asker c'). }
  exists own, now. split_and!; [done | | done | done | by apply Hclock].
  destruct (Hwithin ltac:(by rewrite Hkinds)) as (l & e & rest & n & Heq & Hc & Hrest).
  exists l, e, rest, n. split; [done|]. split; [|done]. rewrite Hc. do 2 f_equal. unfold used_in.
  by rewrite Hkinds, <- Hsub, <- Hsub', <- Hkind, <- Hkind'.
Qed.

End Budget.

(** ** Example: agents at their budget *)
Section Demo.

#[local] Existing Instance demo_errors.
#[local] Existing Instance demo_debug.
#[local] Existing Instance demo_phone.
#[local] Existing Instance WebhookExamples.demo_mac.

(** As many agents as the budget allows and one more, one after the other. *)
Definition agents (n : nat) : list (CratestackContext * DeliveryStatusQuery) :=
  replicate n (support_context, number_query None).

Definition one_by_one (n : nat) : list nat := seq 0 n ≫= (fun i => replicate 6 i).

Definition agents_run (n : nat) : pool (result DeliveryStatusResult DemoError) :=
  turns accepting (one_by_one n)
    (start ((fun a => delivery_status demo_pepper a.1 a.2) <$> agents n) lookup_world).

Definition was_answered (x : prog (result DeliveryStatusResult DemoError) * trace) : bool :=
  match x.1 with Ret (Ok _) => true | _ => false end.

(** The sixty-first is refused. *)
Example sixty_first_refused :
  was_answered <$> (agents_run 61).1 = replicate 60 true ++ [false].
Proof. vm_compute. reflexivity. Qed.

Definition agent : Caller := mkCaller (lit "u1") (lit "support") Person.

(** An answered lookup charged to the agent, recorded from [ex_now] on, whose
    clock reads at most an hour later; as a check. *)
Definition early_event (e : event) : bool :=
  match e with
  | Ev c r => match c in call R return R -> bool with
              | Now => fun now => now <=? ex_now + hours 1
              | _ => fun _ => true
              end r
  end.

Definition qualifies (x : prog (result DeliveryStatusResult DemoError) * trace) : bool :=
  was_answered x && existsb (used_in agent ex_now) (owned x.2) && forallb early_event x.2.

Lemma qualifies_spec (ps : list (prog (result DeliveryStatusResult DemoError) * trace)) j :
  qualifies <$> ps !! j = Some true ->
  exists res tr own, ps !! j = Some (Ret (Ok res), tr) /\ own ∈ owned tr /\ charged agent own /\
    ex_now <= own.(DeliveryLookup.createdAt) /\ forall now, Ev Now now ∈ tr -> now <= ex_now + hours 1.
Proof.
  destruct (ps !! j) as [[p tr]|]; [|done]. intros [= Hq]. unfold qualifies in Hq. cbn [fst snd] in Hq.
  split_and_bool. destruct p as [[res|e]| |R c k]; try done.
  apply existsb_exists in H1 as (own & Hin & Hu). apply list_elem_of_In in Hin. unfold used_in in Hu.
  split_and_bool. exists res, tr, own. split_and!; [done | done | done | done|].
  intros now Hnow. rewrite forallb_forall in H0. apply list_elem_of_In in Hnow.
  by specialize (H0 _ Hnow) as ?%Z.leb_le.
Qed.

Lemma agents_qualify : qualifies <$> (agents_run 2).1 !! 0%nat = Some true /\
  qualifies <$> (agents_run 2).1 !! 1%nat = Some true.
Proof. vm_compute. split; reflexivity. Qed.

Lemma lookup_budget_holds_witness :
  qualifies <$> (agents_run 2).1 !! 1%nat = Some true /\
  Z.of_nat (length [0%nat; 1%nat]) <= BUDGETED_LOOKUPS_PER_HOUR.
Proof.
  split; [exact (proj2 agents_qualify)|].
  pose proof (turns_steps accepting keeps_ledger (fun _ _ _ => True) (one_by_one 2)
    (start ((fun a => delivery_status demo_pepper a.1 a.2) <$> agents 2) lookup_world)
    (fun _ _ _ => I) : rtc _ _ (agents_run 2)) as Hr.
  rewrite (surjective_pairing (agents_run 2)) in Hr.
  refine (@lookup_budget_holds _ _ _ _ demo_pepper (ref_backend accepting) (agents 2) lookup_world _ _
    agent ex_now [0%nat; 1%nat] (proj1 (insert_row_ok _ _ _ empty_world_ok)) Hr _ _).
  - apply NoDup_cons. split; [by intros ?%list_elem_of_singleton | apply NoDup_singleton].
  - intros j [-> | ->%list_elem_of_singleton]%elem_of_cons; apply qualifies_spec;
      [exact (proj1 agents_qualify) | exact (proj2 agents_qualify)].
Defined.

End Demo.
