(* ===== verification/Keys.v ===== *)
(** * sms-api: public keys (client_keys.rs, console_keys.rs)

    A machine caller signs with an Ed25519 key ([ClientKeys]), a person's
    console with a P-256 key ([ConsoleKeys]).  Both are registered and revoked
    here; [provisionAppClient] makes a client and its first key together, and
    [provisionUser] a person (procedures.rs).

    Decoding base64, the curves and COSE thumbprints are libraries: the class
    [CoseLib]. *)

From S2P Require Import Prelude SentinelList ProviderApi Schema ApiSchema Errors Db DbLogic DbReads DbRef.
From S2P Require Import Commits WorkerRouting DemoData Transactions Webhook Rbac.

(** The base64, COSE and P-256 libraries: unpadded base64url; the thumbprint
    of a key [CoseVerifyKey] accepts; signatures and verifying keys. *)
Class CoseLib `{E : CratestackErrors} := {
  base64url_decode : text -> option (list Z);
  ed25519_thumbprint : list Z -> result (list Z) CratestackError;
  p256_thumbprint : list Z -> result (list Z) CratestackError;
  Signature : Type;
  signature_from_slice : list Z -> option Signature;
  VerifyingKey : Type;
  verifying_key_from_sec1 : list Z -> option VerifyingKey;
  ecdsa_verify : VerifyingKey -> list Z -> Signature -> bool }.

(** [Uuid]'s [Display] of the 32 digits of its simple form. *)
Definition hyphenated (simple : text) : text :=
  let part i n := take n (drop i simple) in
  part 0%nat 8%nat ++ lit "-" ++ part 8%nat 4%nat ++ lit "-" ++ part 12%nat 4%nat ++ lit "-"
  ++ part 16%nat 4%nat ++ lit "-" ++ part 20%nat 12%nat.

Record ProvisionClientInput := mkProvisionClient {
  pc_appId : text;
  pc_label : text;
  pc_scopes : list text;
  pc_publicKey : text }.

Record ProvisionClientResult := mkProvisioned {
  pr_clientId : text;
  pr_keyId : text;
  pr_thumbprint : text }.

Record RegisterClientKeyInput := mkRegisterClientKey {
  rk_appClientId : text;
  rk_publicKey : text;
  rk_label : option text }.

Record RegisterConsoleKeyInput := mkRegisterConsoleKey {
  rc_vaamUserId : text;
  rc_displayName : option text;
  rc_publicKey : text;
  rc_possessionProof : text;
  rc_issuedAt : Z }.

Record ProvisionUserInput := mkProvisionUser {
  pu_email : text;
  pu_displayName : text;
  pu_roleKey : text }.

Record ProvisionUserResult := mkProvisionedUser {
  ps_userId : text;
  ps_email : text;
  ps_roleKey : text }.

(** A validated public key and its thumbprint, in hexadecimal
    ([ParsedPublicKey], [ParsedConsoleKey]). *)
Record ParsedKey := mkParsed {
  pk_bytes : list Z;
  pk_thumbprint : text }.

Section Shared.

Context `{E : CratestackErrors}.

(** An insert that lost the race for a unique index. *)
Definition lost_race (constraints : list text) (error : CratestackError) : bool :=
  bool_decide (db_sqlstate error = Some UNIQUE_VIOLATION) &&
  match db_constraint error with
  | Some c => bool_decide (c ∈ constraints)
  | None => false
  end.

(** The [loop] of both registrations: run again, while attempts are left, when
    the race was lost. *)
Fixpoint again {A} (more : nat) (lost : CratestackError -> bool)
  (attempt : prog (result A CratestackError)) : prog (result A CratestackError) :=
  let! outcome := attempt in
  match outcome, more with
  | Err error, S more => if lost error then again more lost attempt else Ret (Err error)
  | _, _ => Ret outcome
  end.

(** [clean_label] of both files. *)
Definition clean_label (max : Z) (label : option text) : result (option text) CratestackError :=
  match label with
  | None => Ok None
  | Some label =>
      let trimmed := trim label in
      if bool_decide (trimmed = []) || (max <? Z.of_nat (length trimmed)) then
        Err (Validation (lit "label must be 1-" ++ show_Z max ++ lit " characters"))
      else Ok (Some trimmed)
  end.

Definition revoked_key {A} : result A CratestackError :=
  Err (Conflict (lit "this public key was revoked; generate a new keypair, a revoked key is never reinstated")).

End Shared.

(** ** client_keys.rs *)
Module ClientKeys.

Definition ED25519_PUBLIC_KEY_LEN : Z := 32.
Definition LABEL_MAX_CHARS : Z := 64.
Definition THUMBPRINT_CONSTRAINT : text := lit "client_keys_thumbprint_key".

Inductive Registrant := Caller | Operator.

#[export] Instance Registrant_eq_dec : EqDecision Registrant.
Proof. solve_decision. Defined.

Section Operations.

Context `{E : CratestackErrors} `{C : !CoseLib} `{UD : UnicodeDebug}.

Definition parse_public_key (public_key : text) : result ParsedKey CratestackError :=
  let? decoded :=
    match base64url_decode (trim public_key) with
    | Some decoded => Ok decoded
    | None => Err (Validation (lit "publicKey must be the raw Ed25519 public key as unpadded base64url"))
    end in
  let? bytes :=
    if Z.of_nat (length decoded) =? ED25519_PUBLIC_KEY_LEN then Ok decoded
    else Err (Validation (lit "publicKey must be " ++ show_Z ED25519_PUBLIC_KEY_LEN
           ++ lit " bytes (a raw Ed25519 public key), got " ++ show_Z (Z.of_nat (length decoded)))) in
  let? print := ed25519_thumbprint bytes in
  Ok (mkParsed bytes (hex_encode print)).

Definition same_registration (existing : ClientKey.t) (app_client_id : text)
  : result ClientKey.t CratestackError :=
  if negb (bool_decide (existing.(ClientKey.appClientId) = app_client_id)) then
    Err (Conflict (lit "this public key is already registered to another client"))
  else if negb (is_null existing.(ClientKey.revokedAt)) then revoked_key
  else Ok existing.

Definition key_with_thumbprint (thumbprint : text) : query TClientKey :=
  mkQuery (t := TClientKey) (fun k => bool_decide (k.(ClientKey.thumbprint) = thumbprint)) [] (Some 1).

Definition client_with (id : text) : query TAppClient :=
  mkQuery (t := TAppClient) (fun c => bool_decide (c.(AppClient.id) = id)) [] (Some 1).

Definition new_key (app_client_id : text) (parsed : ParsedKey) (label : option text) : CreateClientKeyInput :=
  mkCreateClientKey app_client_id ClientKeyAlg.ed25519 (pk_bytes parsed) (pk_thumbprint parsed) label None.

Definition register_body (parsed : ParsedKey) (label : option text) (app_client_id : text)
  (registrant : Registrant) : txn (result (ClientKey.t * bool) CratestackError) :=
  lett? client := tfirst_or (client_with app_client_id)
    (NotFound (lit "no AppClient with id " ++ app_client_id)) in
  if negb client.(AppClient.active) || negb (is_null client.(AppClient.retiredAt)) then
    TRet (Err (Validation (lit "AppClient " ++ client.(AppClient.id) ++ lit " is retired or inactive")))
  else if bool_decide (registrant = Caller) && names_pair_scope client.(AppClient.scopes) then
    TRet (Err (Forbidden (lit "AppClient " ++ client.(AppClient.id) ++ lit " holds " ++ PAIR_SCOPE
      ++ lit ": its keys are registered only by `sms-gateway register-client`")))
  else
    lett? existing := tfirst_row (key_with_thumbprint (pk_thumbprint parsed)) in
    match existing with
    | Some existing =>
        lett? key := tlift (same_registration existing app_client_id) in TRet (Ok (key, false))
    | None =>
        lett? created := tdo (TCreate TClientKey (new_key app_client_id parsed label)) in
        TRet (Ok (created, true))
    end.

Definition register (args : RegisterClientKeyInput) (registrant : Registrant)
  : prog (result ClientKey.t CratestackError) :=
  let!? parsed := lift (parse_public_key (rk_publicKey args)) in
  let!? label := lift (clean_label LABEL_MAX_CHARS (rk_label args)) in
  let!? answer := again 1 (lost_race [THUMBPRINT_CONSTRAINT])
    (do (Tx (register_body parsed label (rk_appClientId args) registrant))) in
  Ret (Ok answer.1).

Definition key_with (id : text) : query TClientKey :=
  mkQuery (t := TClientKey) (fun k => bool_decide (k.(ClientKey.id) = id)) [] (Some 1).

Definition revoke_body (key_id : text) : txn (result ClientKey.t CratestackError) :=
  lett? key := tfirst_or (key_with key_id) (NotFound (lit "no ClientKey with id " ++ key_id)) in
  if negb (is_null key.(ClientKey.revokedAt)) then TRet (Ok key)
  else
    lett now := tdo TNow in
    tdo (TOverwrite TClientKey key_id [ClientKey.SetRevokedAt (Some now)]).

Definition revoke (key_id : text) : prog (result ClientKey.t CratestackError) :=
  do (Tx (revoke_body key_id)).

(** [registerAppClientKey]: a signed call, never the operator. *)
Definition register_app_client_key (args : RegisterClientKeyInput)
  : prog (result ClientKey.t CratestackError) := register args Caller.

(** *** [provisionAppClient] (procedures.rs) *)
Definition pack_error (error : PackError) : text :=
  match error with
  | ContainsSeparator value => lit "value " ++ debug_str value ++ lit " contains the separator and cannot be packed"
  | PackEmpty => lit "an empty value cannot be packed"
  end.

Definition app_with (id : text) : query TApp :=
  mkQuery (t := TApp) (fun a => bool_decide (a.(App.id) = id)) [] (Some 1).

Definition provision_body (parsed : ParsedKey) (app_id client_id label scopes : text)
  : txn (result ClientKey.t CratestackError) :=
  lett? taken := tfirst_row (key_with_thumbprint (pk_thumbprint parsed)) in
  if negb (is_null taken) then
    TRet (Err (Conflict (lit "this public key is already registered to a client")))
  else
    lett? app_client := tdo (TCreate TAppClient (mkCreateAppClient app_id client_id label scopes None None)) in
    tdo (TCreate TClientKey (new_key app_client.(AppClient.id) parsed (Some label))).

Definition provision_client (args : ProvisionClientInput)
  : prog (result ProvisionClientResult CratestackError) :=
  let!? scopes_packed := lift (map_err (fun e => Validation (pack_error e)) (pack (pc_scopes args))) in
  let!? _ := lift (refuse_pair_scope scopes_packed) in
  let!? parsed := lift (parse_public_key (pc_publicKey args)) in
  let!? app := first_or (app_with (pc_appId args)) (NotFound (lit "no App with id " ++ pc_appId args)) in
  if negb app.(App.active) then
    Ret (Err (Validation (lit "App " ++ app.(App.id) ++ lit " is not active")))
  else
    let! uuid := do NewUuid in
    let client_id := lit "appc_" ++ uuid in
    let!? key := pmap_err map_database_error
      (do (Tx (provision_body parsed (pc_appId args) client_id (pc_label args) scopes_packed))) in
    Ret (Ok (mkProvisioned client_id key.(ClientKey.id) key.(ClientKey.thumbprint))).

End Operations.

End ClientKeys.

(** ** console_keys.rs *)
Module ConsoleKeys.

Definition FEDERATION_ISSUER : text := lit "vaam".
Definition PAIRED_ROLE : text := lit "admin".
Definition PROOF_MAX_SKEW_SECS : Z := 300.
Definition KEY_LIFETIME_DAYS : Z := 30.
Definition P256_SEC1_LEN : Z := 65.
Definition PROOF_TAG : text := lit "vsms.console-pair.v1".
Definition LABEL_MAX_CHARS : Z := 64.
Definition DISPLAY_NAME_MAX_CHARS : Z := 128.
Definition VAAM_USER_ID_MAX_CHARS : Z := 64.
Definition SYNTHETIC_EMAIL_DOMAIN : text := lit "vaam.invalid".
Definition THUMBPRINT_CONSTRAINT : text := lit "console_keys_thumbprint_key".
Definition LINK_CONSTRAINT : text := lit "federated_links_issuer_subject_key".
Definition USER_EMAIL_CONSTRAINT : text := lit "users_email_key".

Definition is_ascii_alphanumeric (c : Z) : bool := is_ascii_alphabetic c || is_ascii_digit c.

(** The text is what the caller sent, not the decoded point. *)
Definition possession_message (public_key : text) (issued_at_unix : Z) : list Z :=
  as_bytes (PROOF_TAG ++ [10] ++ public_key ++ [10] ++ show_Z issued_at_unix).

Section Operations.

Context `{E : CratestackErrors} `{C : !CoseLib} `{UD : UnicodeDebug}.

Definition parse_public_key (public_key : text) : result ParsedKey CratestackError :=
  let? decoded :=
    match base64url_decode (trim public_key) with
    | Some decoded => Ok decoded
    | None => Err (Validation (lit "publicKey must be the SEC1 uncompressed P-256 point as unpadded base64url"))
    end in
  let? bytes :=
    if Z.of_nat (length decoded) =? P256_SEC1_LEN then Ok decoded
    else Err (Validation (lit "publicKey must be " ++ show_Z P256_SEC1_LEN
           ++ lit " bytes (a SEC1 uncompressed P-256 point), got " ++ show_Z (Z.of_nat (length decoded)))) in
  if negb (bool_decide (head bytes = Some 4)) then
    Err (Validation (lit "publicKey must be the uncompressed SEC1 form (first byte 0x04); a compressed point is refused"))
  else
    let? print := p256_thumbprint bytes in
    Ok (mkParsed bytes (hex_encode print)).

Definition refused : CratestackError :=
  Validation (lit "possessionProof does not verify under publicKey").

Definition verify_possession (key : ParsedKey) (message : list Z) (proof : text)
  : result unit CratestackError :=
  match base64url_decode (trim proof) with
  | None => Err (Validation (lit "possessionProof must be unpadded base64url"))
  | Some signature =>
      match signature_from_slice signature with
      | None => Err (Validation (lit "possessionProof must be a 64-byte r||s ECDSA signature"))
      | Some signature =>
          match verifying_key_from_sec1 (pk_bytes key) with
          | None => Err refused
          | Some verifying_key =>
              if ecdsa_verify verifying_key message signature then Ok tt else Err refused
          end
      end
  end.

Definition check_proof (args : RegisterConsoleKeyInput) (now : Z) : result ParsedKey CratestackError :=
  let? key := parse_public_key (rc_publicKey args) in
  if seconds PROOF_MAX_SKEW_SECS <? Z.abs (now - rc_issuedAt args) then
    Err (Validation (lit "the pairing request expired: issuedAt must be within "
           ++ show_Z PROOF_MAX_SKEW_SECS ++ lit " seconds of the server's clock"))
  else
    let message := possession_message (rc_publicKey args) (rc_issuedAt args / seconds 1) in
    let? _ := verify_possession key message (rc_possessionProof args) in
    Ok key.

Definition require_pair_scope (ctx : CratestackContext) : result unit CratestackError :=
  match assoc (lit "scope") (extensions ctx) with
  | Some (VString scope) =>
      if contains scope PAIR_SCOPE then Ok tt
      else Err (Forbidden (lit "registerConsoleKey needs the " ++ PAIR_SCOPE ++ lit " scope"))
  | _ => Err (Forbidden (lit "registerConsoleKey needs the " ++ PAIR_SCOPE ++ lit " scope"))
  end.

Definition clean_vaam_user_id (id : text) : result text CratestackError :=
  if bool_decide (id = []) || (VAAM_USER_ID_MAX_CHARS <? Z.of_nat (length id))
     || negb (forallb (fun c => is_ascii_alphanumeric c || (c =? 95) || (c =? 45)) id) then
    Err (Validation (lit "vaamUserId must be 1-" ++ show_Z VAAM_USER_ID_MAX_CHARS
                       ++ lit " characters of A-Z a-z 0-9 _ -"))
  else Ok id.

Definition display_name_for (display_name : option text) (vaam_user_id : text)
  : result text CratestackError :=
  match display_name with
  | None => Ok (lit "vaam " ++ vaam_user_id)
  | Some name =>
      let trimmed := trim name in
      if bool_decide (trimmed = []) || (DISPLAY_NAME_MAX_CHARS <? Z.of_nat (length trimmed)) then
        Err (Validation (lit "displayName must be 1-" ++ show_Z DISPLAY_NAME_MAX_CHARS ++ lit " characters"))
      else Ok trimmed
  end.

(** [now] is a reading of the clock: thirty days later is a date. *)
Definition new_key_input (user_id : text) (key : ParsedKey) (label : option text) (now : Z)
  : CreateConsoleKeyInput :=
  mkCreateConsoleKey user_id ConsoleKeyAlg.esp256 (pk_bytes key) (pk_thumbprint key) label now
    (now + days KEY_LIFETIME_DAYS) None.

Definition other_user {A} : result A CratestackError :=
  Err (Conflict (lit "this public key is already registered to another user")).

Definition same_registration (existing : ConsoleKey.t) (user_id : text) (now : Z)
  : result ConsoleKey.t CratestackError :=
  if negb (bool_decide (existing.(ConsoleKey.userId) = user_id)) then other_user
  else if negb (is_null existing.(ConsoleKey.revokedAt)) then revoked_key
  else if existing.(ConsoleKey.expiresAt) <=? now then
    Err (Conflict (lit "this public key has expired; generate a new keypair, an expired key is never extended"))
  else Ok existing.

Definition deactivated : CratestackError := Forbidden (lit "this person's vsms account is deactivated").

Definition owner_pairs_by_cli : CratestackError :=
  Forbidden (lit "an owner pairs a console only through `sms-gateway pair-console-key`").

(** A new [User], whose [subject] becomes its own id. *)
Definition create_own_subject (email display_name role_key : text) : txn (result User.t CratestackError) :=
  lett uuid := tdo TUuid in
  lett? created := tdo (TCreate TUser
    (mkCreateUser (lit "pending-" ++ hyphenated uuid) email display_name role_key None None)) in
  lett? _ := tdo (TUpdate TUser created.(User.id) [User.SetSubject created.(User.id)] created.(User.version)) in
  TRet (Ok created).

Definition create_user_and_link (vaam_user_id display_name : text) : txn (result text CratestackError) :=
  lett? created := create_own_subject (vaam_user_id ++ lit "@" ++ SYNTHETIC_EMAIL_DOMAIN) display_name
    PAIRED_ROLE in
  lett? _ := tdo (TCreate TFedLink (mkCreateLink FEDERATION_ISSUER vaam_user_id created.(User.id))) in
  TRet (Ok created.(User.id)).

Definition link_of (vaam_user_id : text) : query TFedLink :=
  mkQuery (t := TFedLink) (fun l => bool_decide (l.(FederatedLink.issuer) = FEDERATION_ISSUER)
    && bool_decide (l.(FederatedLink.subject) = vaam_user_id)) [] (Some 1).

Definition key_with_thumbprint (thumbprint : text) : query TConsoleKey :=
  mkQuery (t := TConsoleKey) (fun k => bool_decide (k.(ConsoleKey.thumbprint) = thumbprint)) [] (Some 1).

Definition active_user (id : text) : query TUser :=
  mkQuery (t := TUser) (fun u => bool_decide (u.(User.id) = id) && u.(User.active)) [] (Some 1).

(** Whose key it will be: the linked person, who must be active and no owner,
    or a new one. *)
Definition person_for (link : option FederatedLink.t) (vaam_user_id display_name : text)
  : txn (result text CratestackError) :=
  match link with
  | Some link =>
      lett? active := tfirst_or (active_user link.(FederatedLink.userId)) deactivated in
      if bool_decide (active.(User.roleKey) = OWNER_ROLE_KEY) then TRet (Err owner_pairs_by_cli)
      else TRet (Ok active.(User.id))
  | None => create_user_and_link vaam_user_id display_name
  end.

Definition register_body (parsed : ParsedKey) (vaam_user_id display_name : text) (now : Z)
  : txn (result (ConsoleKey.t * bool) CratestackError) :=
  lett? link := tfirst_row (link_of vaam_user_id) in
  lett? existing := tfirst_row (key_with_thumbprint (pk_thumbprint parsed)) in
  match existing with
  | Some existing =>
      match link with
      | None => TRet other_user
      | Some link =>
          lett? key := tlift (same_registration existing link.(FederatedLink.userId) now) in
          TRet (Ok (key, false))
      end
  | None =>
      lett? user_id := person_for link vaam_user_id display_name in
      lett? key := tdo (TCreate TConsoleKey (new_key_input user_id parsed None now)) in
      TRet (Ok (key, true))
  end.

Definition register (args : RegisterConsoleKeyInput) (now : Z) : prog (result ConsoleKey.t CratestackError) :=
  let!? parsed := lift (check_proof args now) in
  let!? vaam_user_id := lift (clean_vaam_user_id (rc_vaamUserId args)) in
  let!? display_name := lift (display_name_for (rc_displayName args) vaam_user_id) in
  let!? answer := again 1 (lost_race [THUMBPRINT_CONSTRAINT; LINK_CONSTRAINT; USER_EMAIL_CONSTRAINT])
    (do (Tx (register_body parsed vaam_user_id display_name now))) in
  Ret (Ok answer.1).

(** [registerConsoleKey]: the scope is checked before any work. *)
Definition register_console_key (ctx : CratestackContext) (args : RegisterConsoleKeyInput)
  : prog (result ConsoleKey.t CratestackError) :=
  let!? _ := lift (require_pair_scope ctx) in
  let! now := do Now in
  register args now.

(** The operator's selector: an email if it has an [@], an id otherwise. *)
Definition selected_user (user : text) : query TUser :=
  mkQuery (t := TUser) (fun u =>
    (if bool_decide (64 ∈ user) then bool_decide (u.(User.email) = trim user)
     else bool_decide (u.(User.id) = trim user)) && u.(User.active)) [] (Some 1).

Fixpoint pair_attempts (more : nat) (parsed : ParsedKey) (label : option text) (found : User.t) (now : Z)
  : prog (result (ConsoleKey.t * User.t * bool) CratestackError) :=
  let!? existing := first_row (key_with_thumbprint (pk_thumbprint parsed)) in
  match existing with
  | Some existing =>
      let!? key := lift (same_registration existing found.(User.id) now) in
      Ret (Ok (key, found, false))
  | None =>
      let! outcome := do (Create TConsoleKey (new_key_input found.(User.id) parsed label now)) in
      match outcome, more with
      | Ok created, _ => Ret (Ok (created, found, true))
      | Err error, S more =>
          if lost_race [THUMBPRINT_CONSTRAINT] error then pair_attempts more parsed label found now
          else Ret (Err error)
      | Err error, O => Ret (Err error)
      end
  end.

(** [sms-gateway pair-console-key]: no proof, the operator is the authority. *)
Definition pair_existing_user (user public_key : text) (label : option text) (now : Z)
  : prog (result (ConsoleKey.t * User.t * bool) CratestackError) :=
  let!? parsed := lift (parse_public_key public_key) in
  let!? label := lift (clean_label LABEL_MAX_CHARS label) in
  let!? found := first_or (selected_user user)
    (NotFound (lit "no active user matches " ++ debug_str user ++ lit " (by email or id)")) in
  pair_attempts 1 parsed label found now.

Definition key_with (id : text) : query TConsoleKey :=
  mkQuery (t := TConsoleKey) (fun k => bool_decide (k.(ConsoleKey.id) = id)) [] (Some 1).

Definition revoke_body (key_id : text) : txn (result ConsoleKey.t CratestackError) :=
  lett? key := tfirst_or (key_with key_id) (NotFound (lit "no ConsoleKey with id " ++ key_id)) in
  if negb (is_null key.(ConsoleKey.revokedAt)) then TRet (Ok key)
  else
    lett now := tdo TNow in
    tdo (TOverwrite TConsoleKey key_id [ConsoleKey.SetRevokedAt (Some now)]).

Definition revoke (key_id : text) : prog (result ConsoleKey.t CratestackError) :=
  do (Tx (revoke_body key_id)).

(** *** [provisionUser] (procedures.rs) *)
Definition provision_user_body (email display_name role_key : text) : txn (result text CratestackError) :=
  lett? user := create_own_subject email display_name role_key in TRet (Ok user.(User.id)).

Definition provision_console_user (ctx : CratestackContext) (args : ProvisionUserInput)
  : prog (result ProvisionUserResult CratestackError) :=
  let!? _ := lift (require_permission ctx (lit "user:manage")) in
  let!? user_id := pmap_err map_database_error
    (do (Tx (provision_user_body (pu_email args) (pu_displayName args) (pu_roleKey args)))) in
  Ret (Ok (mkProvisionedUser user_id (pu_email args) (pu_roleKey args))).

End Operations.

End ConsoleKeys.

(** ** Pairing a console *)
Section Pairing.

Context `{E : CratestackErrors} `{B : !Backend}.

(** The new person: active, with the given role, named by their own id. *)
Definition provisioned (u : User.t) (email role : text) : Prop :=
  u.(User.subject) = u.(User.id) /\ u.(User.email) = email /\ u.(User.roleKey) = role /\
  u.(User.active) = true.

Lemma own_subject_run email name role w u w' :
  rows_ok w -> run_tx (ConsoleKeys.create_own_subject email name role) w (Ok u) w' ->
  exists u', w_tables w' TUser = <[u.(User.id) := u']> (w_tables w TUser) /\
    (u.(User.id) ∉ w_used w TUser) /\ u'.(User.id) = u.(User.id) /\ provisioned u' email role /\
    forall t, t <> TUser -> w_tables w' t = w_tables w t.
Proof.
  intros Hok Hr. apply txrun_bind in Hr as (uuid & w0 & Hu%txrun_do & Hr).
  apply exec_NewUuid in Hu as ->. apply txrun_bind_Ok in Hr as (a & w1 & Hc & Hr).
  apply txrun_bind_Ok in Hr as (b & w2 & Hup%txrun_do & [[= ->] ->]%txrun_inv).
  pose proof (txrun_rows _ _ _ _ Hok Hc) as Hok1.
  apply txrun_create in Hc as (id & now & -> & Hf & Ht & Hfr).
  assert (w_tables w1 TUser !! id = Some (created TUser id now
    (mkCreateUser (lit "pending-" ++ hyphenated uuid) email name role None None))) as Hs
    by (rewrite Ht; apply lookup_insert_eq).
  destruct (updated_table TUser _ _ _ _ _ _ _ Hok1 Hs Hup) as (? & ? & Hc & Ht' & Hfr').
  exists b. cbn [User.id created] in *. split_and!; [| done | | |].
  - rewrite Ht', Ht. apply insert_insert_eq.
  - by injection Hc as <-.
  - injection Hc as <-. by split_and!.
  - intros t Hne. by rewrite Hfr', Hfr.
Qed.

(** [t] keeps its rows, and a new one satisfies [P]. *)
Definition only_adds (t : tbl) (w w' : world) (P : row t -> Prop) : Prop :=
  (forall id r, w_tables w t !! id = Some r -> w_tables w' t !! id = Some r) /\
  forall id r, w_tables w' t !! id = Some r -> w_tables w t !! id = Some r \/ P r.

Lemma only_adds_same t w w' P : w_tables w' t = w_tables w t -> only_adds t w w' P.
Proof. intros Ht. unfold only_adds. rewrite Ht. split; auto. Qed.

Lemma only_adds_insert t w w' id r (P : row t -> Prop) :
  rows_ok w -> (id ∉ w_used w t) -> w_tables w' t = <[id := r]> (w_tables w t) -> P r ->
  only_adds t w w' P.
Proof.
  intros Hok Hf Ht HP. unfold only_adds. rewrite Ht. split; intros id' r'.
  - intros Hs. destruct (decide (id' = id)) as [->|]; [by destruct (Hok _ _ _ Hs)|].
    by rewrite lookup_insert_ne.
  - intros [[_ <-]|[_ ?]]%lookup_insert_Some; auto.
Qed.

(** The link of a person at vaam to the user it names. *)
Definition linked (w : world) (vaam_user_id user_id : text) : Prop :=
  exists link, w_tables w TFedLink !! link.(FederatedLink.id) = Some link /\
    link.(FederatedLink.issuer) = ConsoleKeys.FEDERATION_ISSUER /\
    link.(FederatedLink.subject) = vaam_user_id /\ link.(FederatedLink.userId) = user_id.

Definition synthetic_email (vaam_user_id : text) : text :=
  vaam_user_id ++ lit "@" ++ ConsoleKeys.SYNTHETIC_EMAIL_DOMAIN.

(** The person a key is attached to: linked, active, and no owner. *)
Definition pairable (w : world) (vaam_user_id user_id : text) : Prop :=
  linked w vaam_user_id user_id /\
  exists u, w_tables w TUser !! user_id = Some u /\ u.(User.active) = true /\
    u.(User.roleKey) <> OWNER_ROLE_KEY.

Lemma paired_role_not_owner : ConsoleKeys.PAIRED_ROLE <> OWNER_ROLE_KEY.
Proof. by apply (bool_decide_eq_false_1 _). Qed.

Lemma link_found vaam_user_id w link w' :
  run_tx (tfirst_row (ConsoleKeys.link_of vaam_user_id)) w (Ok (Some link)) w' ->
  linked w vaam_user_id link.(FederatedLink.userId).
Proof.
  intros (_ & Hs & _)%txrun_first_row. destruct (Hs link eq_refl) as (Hl & Hq & _). cbn in Hq.
  split_and_bool. by exists link.
Qed.

Lemma person_run link vaam_user_id name w user_id w' :
  rows_ok w -> (forall l, link = Some l -> linked w vaam_user_id l.(FederatedLink.userId)) ->
  run_tx (ConsoleKeys.person_for link vaam_user_id name) w (Ok user_id) w' ->
  pairable w' vaam_user_id user_id /\ w_tables w' TConsoleKey = w_tables w TConsoleKey /\
  only_adds TUser w w' (fun u => u.(User.id) = user_id /\
    provisioned u (synthetic_email vaam_user_id) ConsoleKeys.PAIRED_ROLE).
Proof.
  intros Hok Hl Hr. destruct link as [link|]; cbn [ConsoleKeys.person_for] in Hr.
  - apply txrun_bind_Ok in Hr as (u & w1 & [-> Hu]%txrun_first_or & Hr).
    destruct (Hu u eq_refl) as (Hs & Hq & _). cbn in Hq, Hs. split_and_bool.
    case_bool_decide as Hrole; apply txrun_inv in Hr as [[=] ->]. subst user_id.
    split; [|split; [done | by apply only_adds_same]]. split.
    + match goal with H : User.id u = _ |- _ => rewrite H end. by apply Hl.
    + by exists u.
  - apply txrun_bind_Ok in Hr as (u & w1 & Hu & Hr).
    apply txrun_bind_Ok in Hr as (l & w2 & Hc & [[= ->] ->]%txrun_inv).
    apply own_subject_run in Hu as (u' & Ht & Hf & Hid & Hp & Hfr); [|done].
    apply txrun_create in Hc as (id & now & -> & _ & Htl & Hfl).
    assert (w_tables w2 TUser = <[u.(User.id) := u']> (w_tables w TUser)) as Ht2 by (by rewrite Hfl).
    split; [split|split].
    + eexists. cbn. rewrite Htl. split; [apply lookup_insert_eq | done].
    + exists u'. destruct Hp as (_ & _ & -> & ->). rewrite Ht2.
      split; [apply lookup_insert_eq|]. split; [done | apply paired_role_not_owner].
    + by rewrite Hfl, Hfr.
    + by apply (only_adds_insert TUser _ _ _ u' _ Hok Hf Ht2).
Qed.

(** A stored key that answers a repeated pairing: the person's own, and live. *)
Definition live_for (w : world) (vaam_user_id : text) (now : Z) (key : ConsoleKey.t) : Prop :=
  w_tables w TConsoleKey !! key.(ConsoleKey.id) = Some key /\
  linked w vaam_user_id key.(ConsoleKey.userId) /\
  key.(ConsoleKey.revokedAt) = None /\ now < key.(ConsoleKey.expiresAt).

Lemma pairing_run parsed vaam_user_id name now w key fresh w' :
  rows_ok w ->
  run_tx (ConsoleKeys.register_body parsed vaam_user_id name now) w (Ok (key, fresh)) w' ->
  key.(ConsoleKey.thumbprint) = pk_thumbprint parsed /\
  if fresh then
    pairable w' vaam_user_id key.(ConsoleKey.userId) /\
    w_tables w' TConsoleKey = <[key.(ConsoleKey.id) := key]> (w_tables w TConsoleKey) /\
    w_tables w TConsoleKey !! key.(ConsoleKey.id) = None /\
    key.(ConsoleKey.publicKey) = pk_bytes parsed /\ key.(ConsoleKey.revokedAt) = None /\
    key.(ConsoleKey.expiresAt) = now + days 30 /\
    only_adds TUser w w' (fun u => u.(User.id) = key.(ConsoleKey.userId) /\
      provisioned u (synthetic_email vaam_user_id) ConsoleKeys.PAIRED_ROLE)
  else w' = w /\ live_for w vaam_user_id now key.
Proof.
  intros Hok Hr. apply txrun_bind_Ok in Hr as (link & w0 & Hlink & Hr).
  pose proof (txrun_first_row _ _ _ _ Hlink) as (-> & _).
  assert (forall l, link = Some l -> linked w vaam_user_id l.(FederatedLink.userId)) as Hl
    by (intros l ->; by eapply link_found).
  apply txrun_bind_Ok in Hr as (existing & w1 & (-> & Hk & _)%txrun_first_row & Hr).
  destruct existing as [k|].
  - destruct (Hk k eq_refl) as (Hs & Hq & _). cbn in Hs, Hq. split_and_bool.
    destruct link as [link|]; [|by apply txrun_inv in Hr as [[=] _]].
    apply txrun_bind_Ok in Hr as (key' & w2 & [Hsame ->]%txrun_inv & [[= -> ->] ->]%txrun_inv).
    unfold ConsoleKeys.same_registration in Hsame. case_bool_decide as Hu; [|done]. cbn [negb] in Hsame.
    destruct (ConsoleKey.revokedAt k) eqn:Hrev; [done|]. cbn [is_null negb] in Hsame.
    destruct (Z.leb_spec (ConsoleKey.expiresAt k) now) as [|Hexp]; [done|]. injection Hsame as <-.
    split; [done|]. split; [done|]. unfold live_for. rewrite Hu. split_and!; try done. by apply Hl.
  - apply txrun_bind_Ok in Hr as (user_id & w2 & Hp & Hr).
    pose proof (txrun_rows _ _ _ _ Hok Hp) as Hok2.
    apply (person_run _ _ _ _ _ _ Hok Hl) in Hp as (Hpair & Hkeys & Hadds).
    apply txrun_bind_Ok in Hr as (key' & w3 & Hc & [[= -> ->] ->]%txrun_inv).
    apply txrun_create in Hc as (id & at_ & -> & Hf & Ht & Hfr). cbn.
    rewrite Ht, Hkeys. split_and!; try done.
    + destruct Hpair as [(l & Hls & Hrest) (u & Hu & Hact)]. split.
      * exists l. by rewrite Hfr.
      * exists u. by rewrite Hfr.
    + rewrite <- Hkeys. apply eq_None_not_Some. intros [x Hx]. by destruct (Hok2 TConsoleKey _ _ Hx).
    + unfold only_adds. by rewrite Hfr.
Qed.

(** *** Client keys *)
Lemma client_registration_run parsed label client_id registrant w key fresh w' :
  rows_ok w ->
  run_tx (ClientKeys.register_body parsed label client_id registrant) w (Ok (key, fresh)) w' ->
  key.(ClientKey.thumbprint) = pk_thumbprint parsed /\ key.(ClientKey.revokedAt) = None /\
  key.(ClientKey.appClientId) = client_id /\
  (exists client, w_tables w TAppClient !! client_id = Some client /\
     client.(AppClient.active) = true /\ client.(AppClient.retiredAt) = None /\
     (registrant = ClientKeys.Caller -> names_pair_scope client.(AppClient.scopes) = false)) /\
  if fresh then
    w_tables w' TClientKey = <[key.(ClientKey.id) := key]> (w_tables w TClientKey) /\
    w_tables w TClientKey !! key.(ClientKey.id) = None /\
    key.(ClientKey.publicKey) = pk_bytes parsed /\
    forall t, t <> TClientKey -> w_tables w' t = w_tables w t
  else w' = w /\ w_tables w TClientKey !! key.(ClientKey.id) = Some key.
Proof.
  intros Hok Hr. apply txrun_bind_Ok in Hr as (client & w0 & Hf & Hr).
  apply (found_stored (t := TAppClient) _ _ client_id) in Hf as (-> & Hs & Hid);
    [|by intros x ?%bool_decide_eq_true].
  destruct (negb (AppClient.active client) || negb (is_null (AppClient.retiredAt client))) eqn:Hlive;
    [by apply txrun_inv in Hr as [[=] _]|].
  apply orb_false_iff in Hlive as [Hact%negb_false_iff Hret%negb_false_iff].
  destruct (bool_decide (registrant = ClientKeys.Caller) && names_pair_scope (AppClient.scopes client))
    eqn:Hpair; [by apply txrun_inv in Hr as [[=] _]|].
  assert (exists client, w_tables w TAppClient !! client_id = Some client /\
     client.(AppClient.active) = true /\ client.(AppClient.retiredAt) = None /\
     (registrant = ClientKeys.Caller -> names_pair_scope client.(AppClient.scopes) = false)) as Hcl.
  { exists client. split_and!; [done | done | by destruct (AppClient.retiredAt client)|].
    intros ->. by rewrite bool_decide_eq_true_2 in Hpair. }
  apply txrun_bind_Ok in Hr as (existing & w1 & (-> & Hk & _)%txrun_first_row & Hr).
  destruct existing as [k|].
  - destruct (Hk k eq_refl) as (Hks & Hq & _). cbn in Hks, Hq. apply bool_decide_eq_true in Hq.
    apply txrun_bind_Ok in Hr as (key' & w2 & [Hsame ->]%txrun_inv & [[= -> ->] ->]%txrun_inv).
    unfold ClientKeys.same_registration in Hsame. case_bool_decide as Hu; [|done]. cbn [negb] in Hsame.
    destruct (ClientKey.revokedAt k) eqn:Hrev; [done|]. cbn [is_null negb] in Hsame.
    injection Hsame as <-. by split_and!.
  - apply txrun_bind_Ok in Hr as (key' & w3 & Hc & [[= -> ->] ->]%txrun_inv).
    apply txrun_create in Hc as (id & at_ & -> & Hf & Ht & Hfr). cbn in *. split_and!; try done.
    apply eq_None_not_Some. intros [x Hx]. by destruct (Hok TClientKey _ _ Hx).
Qed.

Lemma provision_run parsed app_id client_id label scopes w key w' :
  run_tx (ClientKeys.provision_body parsed app_id client_id label scopes) w (Ok key) w' ->
  exists client,
    w_tables w' TAppClient = <[client.(AppClient.id) := client]> (w_tables w TAppClient) /\
    client.(AppClient.appId) = app_id /\ client.(AppClient.clientId) = client_id /\
    client.(AppClient.scopes) = scopes /\ client.(AppClient.active) = true /\
    (client.(AppClient.id) ∉ w_used w TAppClient) /\
    w_tables w' TClientKey = <[key.(ClientKey.id) := key]> (w_tables w TClientKey) /\
    key.(ClientKey.appClientId) = client.(AppClient.id) /\
    key.(ClientKey.thumbprint) = pk_thumbprint parsed /\ key.(ClientKey.publicKey) = pk_bytes parsed /\
    key.(ClientKey.revokedAt) = None /\
    forall t, t <> TAppClient -> t <> TClientKey -> w_tables w' t = w_tables w t.
Proof.
  intros Hr. apply txrun_bind_Ok in Hr as (taken & w1 & (-> & _)%txrun_first_row & Hr).
  destruct taken as [k|]; [by apply txrun_inv in Hr as [[=] _]|]. cbn [is_null negb] in Hr.
  apply txrun_bind_Ok in Hr as (client & w2 & Hc & Hk).
  apply txrun_create in Hc as (id & at_ & -> & Hf & Ht & Hfr).
  apply (txrun_create TClientKey) in Hk as (id' & at' & -> & Hf' & Ht' & Hfr').
  exists (created TAppClient id at_ (mkCreateAppClient app_id client_id label scopes None None)).
  cbn in *. rewrite Hfr' by done. rewrite Ht, Ht'. split_and!; try done.
  - by rewrite Hfr.
  - intros t Ha Hb. by rewrite Hfr', Hfr.
Qed.

End Pairing.

(** A pairing never gives anyone an owner's standing: whatever
    [registerConsoleKey]'s transaction does, either the database is untouched
    (and a key it answers is the linked person's own, neither revoked nor
    expired), or one key that lives thirty days was added, for a person who is
    linked to the vaam id, active, and not an owner; existing users are as they
    were, and a user it created is an [admin]. *)
Theorem pairing_never_owner `{E : CratestackErrors} `{B : !Backend} parsed vaam_user_id name now w r w' :
  rows_ok w -> exec _ (Tx (ConsoleKeys.register_body parsed vaam_user_id name now)) w r w' ->
  (w' = w /\ forall key fresh, r = Ok (key, fresh) ->
     fresh = false /\ key.(ConsoleKey.thumbprint) = pk_thumbprint parsed /\ live_for w vaam_user_id now key) \/
  (exists key, (forall key' fresh, r = Ok (key', fresh) -> key' = key /\ fresh = true) /\
     w_tables w' TConsoleKey = <[key.(ConsoleKey.id) := key]> (w_tables w TConsoleKey) /\
     w_tables w TConsoleKey !! key.(ConsoleKey.id) = None /\
     key.(ConsoleKey.thumbprint) = pk_thumbprint parsed /\ key.(ConsoleKey.revokedAt) = None /\
     key.(ConsoleKey.expiresAt) = now + days 30 /\
     pairable w' vaam_user_id key.(ConsoleKey.userId) /\
     only_adds TUser w w' (fun u => u.(User.id) = key.(ConsoleKey.userId) /\
       provisioned u (synthetic_email vaam_user_id) (lit "admin"))).
Proof.
  intros Hok Hx. apply tx_outcome in Hx as [([key fresh] & Hr & Hb)|[Hno ->]].
  - destruct (pairing_run _ _ _ _ _ _ _ _ Hok Hr) as [Hth Hrun]. destruct fresh.
    + right. exists key. destruct Hrun as (Hp & Ht & Hn & _ & Hrev & Hexp & Hadds). split_and!; try done.
      intros key' fresh Hk. by injection (Hb _ Hk) as -> ->.
    + left. destruct Hrun as [-> Hlive]. split; [done|]. intros key' fresh Hk.
      by injection (Hb _ Hk) as -> ->.
  - left. split; [done|]. intros key fresh ->. done.
Qed.

(** A new client and its key exist together or not at all: when
    [provisionAppClient]'s transaction changed anything, exactly one client
    was added, for the given app and with the given scopes, and exactly one
    key, the client's, under the thumbprint of the public key. *)
Theorem client_provisioned_whole `{E : CratestackErrors} `{B : !Backend}
    parsed app_id client_id label scopes w r w' :
  exec _ (Tx (ClientKeys.provision_body parsed app_id client_id label scopes)) w r w' ->
  (w' = w /\ is_ok r = false) \/
  exists client key, (forall key', r = Ok key' -> key' = key) /\
    w_tables w' TAppClient = <[client.(AppClient.id) := client]> (w_tables w TAppClient) /\
    w_tables w' TClientKey = <[key.(ClientKey.id) := key]> (w_tables w TClientKey) /\
    (client.(AppClient.id) ∉ w_used w TAppClient) /\
    client.(AppClient.appId) = app_id /\ client.(AppClient.scopes) = scopes /\
    key.(ClientKey.appClientId) = client.(AppClient.id) /\
    key.(ClientKey.thumbprint) = pk_thumbprint parsed /\ key.(ClientKey.revokedAt) = None /\
    forall t, t <> TAppClient -> t <> TClientKey -> w_tables w' t = w_tables w t.
Proof.
  intros [(key & Hr & Hb)|[Hno ->]]%tx_outcome; [|by left]. right.
  destruct (provision_run _ _ _ _ _ _ _ _ Hr) as
    (client & Hc & Happ & _ & Hsc & _ & Hf & Hk & Hof & Hth & _ & Hrev & Hfr).
  exists client, key. by split_and!.
Qed.

(** ** Examples *)
Section Demo.

#[local] Existing Instance demo_errors.
#[local] Existing Instance demo_debug.

(** A library in which a key is its own encoding and thumbprint, and a
    signature is the message. *)
Definition demo_cose : CoseLib := {|
  base64url_decode := Some;
  ed25519_thumbprint := Ok;
  p256_thumbprint := Ok;
  Signature := list Z;
  signature_from_slice := Some;
  VerifyingKey := list Z;
  verifying_key_from_sec1 := Some;
  ecdsa_verify := fun _ message signature => bool_decide (signature = message) |}.

Definition demo_console_key : ParsedKey := mkParsed (4 :: repeat 65 64) (hex_encode (4 :: repeat 65 64)).
Definition demo_client_key : ParsedKey := mkParsed (repeat 65 32) (hex_encode (repeat 65 32)).

Definition demo_pairing := ConsoleKeys.register_body demo_console_key (lit "v1") (lit "vaam v1") ex_now.

Lemma pairs_afresh :
  match tx_result demo_pairing empty_world with Ok (_, fresh) => fresh | Err _ => false end = true.
Proof. vm_compute. reflexivity. Qed.

Lemma pairing_never_owner_witness :
  exists key, w_tables (tx_world demo_pairing empty_world) TConsoleKey !! key.(ConsoleKey.id) = Some key /\
    pairable (tx_world demo_pairing empty_world) (lit "v1") key.(ConsoleKey.userId).
Proof.
  destruct (@pairing_never_owner _ (ref_backend accepting) demo_console_key (lit "v1") (lit "vaam v1") ex_now
    _ _ _ (proj1 empty_world_ok) (tx_exec demo_pairing empty_world))
    as [[_ Hold]|(key & _ & Ht & _ & _ & _ & _ & Hp & _)].
  - pose proof pairs_afresh as Hf. destruct (tx_result demo_pairing empty_world) as [[key fresh]|e]; [|discriminate Hf].
    destruct (Hold key fresh eq_refl) as [Hno _]. destruct (eq_true_false_abs _ Hf Hno).
  - exists key. split; [|exact Hp]. rewrite Ht. apply lookup_insert_eq.
Defined.

Definition demo_provision :=
  ClientKeys.provision_body demo_client_key (lit "app1") (lit "appc_1") (lit "ci") (lit " sms:send ").

Lemma provisions : is_ok (tx_result demo_provision empty_world) = true.
Proof. vm_compute. reflexivity. Qed.

Lemma client_provisioned_whole_witness :
  exists client key,
    w_tables (tx_world demo_provision empty_world) TAppClient = {[client.(AppClient.id) := client]} /\
    w_tables (tx_world demo_provision empty_world) TClientKey = {[key.(ClientKey.id) := key]} /\
    key.(ClientKey.appClientId) = client.(AppClient.id).
Proof.
  destruct (@client_provisioned_whole _ (ref_backend accepting) demo_client_key (lit "app1") (lit "appc_1")
    (lit "ci") (lit " sms:send ") _ _ _ (tx_exec demo_provision empty_world))
    as [[_ Hno]|(client & key & _ & Hc & Hk & _ & _ & _ & Hof & _)].
  - destruct (eq_true_false_abs _ provisions Hno).
  - exists client, key. split; [exact Hc|]. split; [exact Hk | exact Hof].
Defined.

End Demo.
