(* ===== verification/KeyRegistry.v ===== *)
(** * The registry of public keys, under concurrency

    Every operation on client and console keys (Keys.v) runs side by side with
    the others, call by call, in the rely-guarantee logic of
    RelyGuarantee.v.  The registry only moves forward: a key is never removed,
    handed to someone else, re-encoded, extended or un-revoked; no two keys
    share a thumbprint; and a thumbprint that was revoked is never answered as
    registered again. *)

From S2P Require Import Prelude SentinelList ProviderApi Schema ApiSchema Errors Db DbLogic DbReads DbRef.
From S2P Require Import Discipline RelyGuarantee Commits WorkerRouting DemoData Transactions Webhook Rbac Keys.

(** ** The registry *)
Definition is_key (t : tbl) : bool :=
  match t with TClientKey | TConsoleKey => true | _ => false end.

Definition key_revoked (t : tbl) : row t -> option Z :=
  match t with
  | TClientKey => ClientKey.revokedAt
  | TConsoleKey => ConsoleKey.revokedAt
  | _ => fun _ => None
  end.

(** A key later: only its revocation may have been stamped, once. *)
Definition row_kept (t : tbl) : row t -> row t -> Prop :=
  match t with
  | TClientKey => fun a b => exists at_ rev, b = ClientKey.set_updatedAt at_ (ClientKey.set_revokedAt rev a) /\
      forall x, a.(ClientKey.revokedAt) = Some x -> rev = Some x
  | TConsoleKey => fun a b => exists at_ rev, b = ConsoleKey.set_updatedAt at_ (ConsoleKey.set_revokedAt rev a) /\
      forall x, a.(ConsoleKey.revokedAt) = Some x -> rev = Some x
  | _ => fun _ _ => True
  end.

Lemma row_kept_refl t a : row_kept t a a.
Proof.
  destruct t; try done; [exists a.(ClientKey.updatedAt), a.(ClientKey.revokedAt)
                        |exists a.(ConsoleKey.updatedAt), a.(ConsoleKey.revokedAt)];
    (split; [by destruct a | done]).
Qed.

Lemma row_kept_trans t a b c : row_kept t a b -> row_kept t b c -> row_kept t a c.
Proof.
  destruct t; try done; cbn; intros (? & ? & -> & H1) (at_ & rev & -> & H2);
    exists at_, rev; (split; [done|]); intros v Hv; apply H2, H1, Hv.
Qed.

Lemma row_kept_key t a b : is_key t = true -> row_kept t a b ->
  row_id t b = row_id t a /\ (forall c, conflicts t b c = conflicts t a c) /\
  (forall x, key_revoked t a = Some x -> key_revoked t b = Some x).
Proof. destruct t; try done; intros _ (at_ & rev & -> & Hrev); cbn; auto. Qed.

Lemma conflicts_sym t a b : is_key t = true -> conflicts t a b = conflicts t b a.
Proof. by destruct t; try done; intros _; apply bool_decide_ext. Qed.

Definition keys_later (w w' : world) : Prop :=
  forall t id a, is_key t = true -> w_tables w t !! id = Some a ->
    exists b, w_tables w' t !! id = Some b /\ row_kept t a b.

#[export] Instance keys_later_preorder : PreOrder keys_later.
Proof.
  split.
  - intros w t id a _ Ha. exists a. split; [done | apply row_kept_refl].
  - intros w1 w2 w3 H12 H23 t id a Hk Ha. destruct (H12 t id a Hk Ha) as (b & Hb & Hab).
    destruct (H23 t id b Hk Hb) as (c & Hc & Hbc). exists c. split; [done|]. by eapply row_kept_trans.
Qed.

Section Registry.

Context `{E : CratestackErrors} `{C : !CoseLib}.

(** A key's thumbprint is the one of its public key, and a console key lives
    thirty days. *)
Definition key_wf (t : tbl) : row t -> Prop :=
  match t with
  | TClientKey => fun k => exists print, ed25519_thumbprint k.(ClientKey.publicKey) = Ok print /\
      k.(ClientKey.thumbprint) = hex_encode print
  | TConsoleKey => fun k => (exists print, p256_thumbprint k.(ConsoleKey.publicKey) = Ok print /\
      k.(ConsoleKey.thumbprint) = hex_encode print) /\
      k.(ConsoleKey.expiresAt) = k.(ConsoleKey.pairedAt) + days 30
  | _ => fun _ => True
  end.

Definition keys_ok (w : world) : Prop :=
  forall t, is_key t = true ->
    (forall id k, w_tables w t !! id = Some k -> key_wf t k) /\
    forall id k id' k', w_tables w t !! id = Some k -> w_tables w t !! id' = Some k' ->
      conflicts t k k' = true -> id = id'.

Definition registry (w : world) : Prop := rows_ok w /\ keys_ok w.

Lemma keys_frame w w' :
  (forall t, is_key t = true -> w_tables w' t = w_tables w t) -> keys_ok w ->
  keys_ok w' /\ keys_later w w'.
Proof.
  intros Ht Hok. split.
  - intros t Hk. rewrite Ht by done. by apply Hok.
  - intros t id a Hk Ha. exists a. rewrite Ht by done. split; [done | apply row_kept_refl].
Qed.

(** Storing a row in place of itself, later, or where there was none. *)
Lemma keys_store w w' t (b : row t) :
  is_key t = true -> registry w -> rows_ok w' -> written w t b w' -> key_wf t b ->
  (forall a, w_tables w t !! row_id t b = Some a -> row_kept t a b) ->
  (forall id x, w_tables w t !! id = Some x -> conflicts t x b = true -> id = row_id t b) ->
  keys_ok w' /\ keys_later w w'.
Proof.
  intros Hk [Hok Hkeys] Hok' Hw Hwf Hkept Huniq. pose proof (written_row _ _ _ _ Hw) as Ht. split.
  - intros t' Hk'. destruct (decide (t' = t)) as [->|Hne].
    2: { rewrite (written_frame _ _ _ _ Hw) by done. by apply Hkeys. }
    rewrite Ht. destruct (Hkeys t Hk) as [Hall Hu]. split.
    + intros id k [[_ <-]|[_ ?]]%lookup_insert_Some; [done | by eapply Hall].
    + intros id k id' k' [[<- <-]|[_ Hs]]%lookup_insert_Some [[<- <-]|[_ Hs']]%lookup_insert_Some Hcf.
      * done.
      * rewrite conflicts_sym in Hcf by done. symmetry. by eapply Huniq.
      * by eapply Huniq.
      * by eapply Hu.
  - intros t' id a Hk' Ha. destruct (decide (t' = t)) as [->|Hne].
    2: { rewrite (written_frame _ _ _ _ Hw) by done. exists a. split; [done | apply row_kept_refl]. }
    rewrite Ht. destruct (decide (id = row_id t b)) as [->|Hid].
    + exists b. split; [apply lookup_insert_eq | by apply Hkept].
    + exists a. rewrite lookup_insert_ne by done. split; [done | apply row_kept_refl].
Qed.

Context `{B : !Backend}.

Lemma keys_create t c w r w' :
  registry w -> (is_key t = true -> forall id now, key_wf t (created t id now c)) ->
  exec _ (Create t c) w r w' -> registry w' /\ keys_later w w'.
Proof.
  intros [Hok Hkeys] Hwf Hx. destruct (exec_rows _ _ _ _ _ Hok Hx) as (_ & Hok' & _).
  apply exec_Create in Hx as [[-> _]|(id & now & Hf & Hw & _ & _ & _ & Hu)]; [by split|].
  enough (keys_ok w' /\ keys_later w w') as [? ?] by done.
  destruct (is_key t) eqn:Hk.
  - apply (keys_store w w' t (created t id now c)); rewrite ?created_id; try done; [by apply Hwf | |].
    + intros a Ha. by destruct (Hok _ _ _ Ha).
    + intros id' x Hx Hcf. by rewrite (Hu id' x Hx) in Hcf.
  - apply keys_frame; [|done]. intros t' Hk'. apply (written_frame _ _ _ _ Hw). by intros ->; rewrite Hk in Hk'.
Qed.

(** Stamping the revocation of a key that has none. *)
Lemma keys_stamp t (p : overwrite t) id a w r w' :
  is_key t = true -> registry w -> w_tables w t !! id = Some a ->
  (forall clock b, commit_overwrite t clock p a = Some b -> row_kept t a b /\ (key_wf t a -> key_wf t b)) ->
  exec _ (Overwrite t id p) w r w' -> registry w' /\ keys_later w w'.
Proof.
  intros Hk [Hok Hkeys] Ha Hp Hx. destruct (exec_rows _ _ _ _ _ Hok Hx) as (_ & Hok' & _).
  apply exec_Overwrite in Hx as [[-> _]|(a' & b & clock & Ha' & Hc & Hw & _)]; [by split|].
  rewrite Ha in Ha'. injection Ha' as <-. destruct (Hp _ _ Hc) as [Hkept Hwf].
  destruct (row_kept_key _ _ _ Hk Hkept) as (Hid & Hcf & _). destruct (Hok _ _ _ Ha) as [Haid _].
  destruct (Hkeys t Hk) as [Hall Hu].
  enough (keys_ok w' /\ keys_later w w') as [? ?] by done.
  apply (keys_store w w' t b); try done; rewrite ?Hid, ?Haid.
  - by eapply Hwf, Hall.
  - intros a' Ha'. by rewrite Ha in Ha'; injection Ha' as <-.
  - intros id' x Hx. rewrite conflicts_sym, Hcf, conflicts_sym by done. intros Hc'. by eapply Hu.
Qed.

(** *** Bodies that only add *)
Definition adding {R} (c : tcall R) : Prop :=
  match c with
  | TCreate t i => is_key t = true -> forall id now, key_wf t (created t id now i)
  | TOverwrite _ _ _ => False
  | _ => True
  end.

Fixpoint adds_only {A} (p : txn A) : Prop :=
  match p with
  | TRet _ => True
  | TCall c k => adding c /\ forall r, adds_only (k r)
  end.

Lemma adds_only_bind {A D} (p : txn A) (f : A -> txn D) :
  adds_only p -> (forall a, adds_only (f a)) -> adds_only (tbind p f).
Proof. intros Hp Hf. induction p as [a|R c k IH]; [apply Hf|]. destruct Hp as [Hc Hk]. split; auto. Qed.

Lemma adds_only_ok {A D X} (p : txn (result A X)) (f : A -> txn (result D X)) :
  adds_only p -> (forall a, adds_only (f a)) -> adds_only (tbind_ok p f).
Proof. intros Hp Hf. apply adds_only_bind; [done|]. by intros [a|e]. Qed.

Lemma adds_only_find {t} (q : query t) : adds_only (tfirst_row q).
Proof. apply adds_only_ok; [by split|]. done. Qed.

Lemma adds_only_find_or {t} (q : query t) e : adds_only (tfirst_or q e).
Proof. apply adds_only_ok; [apply adds_only_find|]. done. Qed.

Lemma adding_keeps {R} (c : tcall R) w r w' :
  registry w -> adding c -> exec R (of_tcall c) w r w' -> registry w' /\ keys_later w w'.
Proof.
  intros Hreg Hc Hx. destruct c; cbn [of_tcall] in Hx; cbn in Hc.
  - by apply exec_Now in Hx as ->.
  - by apply exec_NewUuid in Hx as ->.
  - by apply exec_RandomBytes in Hx as [-> _].
  - by apply exec_FindMany in Hx as [-> _].
  - destruct Hreg as [Hok Hkeys]. destruct (exec_rows _ _ _ _ _ Hok Hx) as (_ & Hok' & _).
    enough (keys_ok w' /\ keys_later w w') as [? ?] by done.
    apply keys_frame; [|done]. intros t' Hk. apply exec_Update in Hx.
    assert (w' = w \/ exists b, written w t b w') as [-> |(b & Hw)]; [|done|].
    { destruct r as [b|e]; [|destruct Hx as [[-> _]|(_ & ? & b & ? & ? & _ & _ & _ & Hw & _)]];
        [destruct Hx as (? & ? & ? & _ & _ & _ & Hw & _)| |]; eauto. }
    apply (written_frame _ _ _ _ Hw). intros ->. by destruct t, p.
  - done.
  - by eapply keys_create.
Qed.

Lemma adds_only_run {A} (p : txn A) w a w' :
  registry w -> adds_only p -> run_tx p w a w' -> registry w' /\ keys_later w w'.
Proof.
  intros Hreg Hp Hr. revert w Hreg Hr Hp. induction p as [b|R c k IH]; intros w Hreg Hr Hp.
  - by apply txrun_inv in Hr as [_ ->].
  - destruct Hp as [Hc Hk]. apply txrun_inv in Hr as (r & w1 & Hx & Hr).
    destruct (adding_keeps c w r w1 Hreg Hc Hx) as [Hreg1 Hl].
    destruct (IH r w1 Hreg1 Hr (Hk r)) as [? ?]. split; [done|]. by etrans.
Qed.

(** A transaction whose committed runs keep the registry keeps it. *)
Lemma tx_keeps {A} (body : txn (result A CratestackError)) (P : world -> Prop) (M : A -> world -> Prop) :
  (forall w a w', registry w -> P w -> run_tx body w (Ok a) w' ->
     registry w' /\ keys_later w w' /\ M a w') ->
  guarantees registry keys_later (Tx body) P
    (fun r w' => match r with Ok a => M a w' | Err _ => True end).
Proof.
  intros Hb w r w' Hreg HP Hx. apply tx_outcome in Hx as [(a & Hr & Ha)|[Hno ->]].
  - destruct (Hb w a w' Hreg HP Hr) as (? & ? & HM). split_and!; [done | done|].
    destruct r as [b|e]; [|done]. by rewrite (Ha b eq_refl).
  - split_and!; [done | done|]. by destruct r.
Qed.

End Registry.

(** ** Everyone who touches keys *)
Inductive key_actor :=
| RegisterClient (args : RegisterClientKeyInput) (registrant : ClientKeys.Registrant)
| ProvisionClient (args : ProvisionClientInput)
| RevokeClient (key_id : text)
| PairConsole (ctx : CratestackContext) (args : RegisterConsoleKeyInput)
| PairByOperator (user public_key : text) (label : option text) (now : Z)
| RevokeConsole (key_id : text)
| ProvisionUser (ctx : CratestackContext) (args : ProvisionUserInput).

Inductive key_answer :=
| AClientKey (key : ClientKey.t)
| AConsoleKey (key : ConsoleKey.t)
| AProvisioned (answer : ProvisionClientResult)
| AUser (answer : ProvisionUserResult).

Section Actors.

Context `{E : CratestackErrors} `{C : !CoseLib} `{UD : UnicodeDebug} `{B : !Backend}.

Definition answering {A} (f : A -> key_answer) (p : prog (result A CratestackError))
  : prog (result key_answer CratestackError) := let!? a := p in Ret (Ok (f a)).

Definition key_prog (a : key_actor) : prog (result key_answer CratestackError) :=
  match a with
  | RegisterClient args registrant => answering AClientKey (ClientKeys.register args registrant)
  | ProvisionClient args => answering AProvisioned (ClientKeys.provision_client args)
  | RevokeClient key_id => answering AClientKey (ClientKeys.revoke key_id)
  | PairConsole ctx args => answering AConsoleKey (ConsoleKeys.register_console_key ctx args)
  | PairByOperator user public_key label now =>
      answering (fun r => AConsoleKey r.1.1) (ConsoleKeys.pair_existing_user user public_key label now)
  | RevokeConsole key_id => answering AConsoleKey (ConsoleKeys.revoke key_id)
  | ProvisionUser ctx args => answering AUser (ConsoleKeys.provision_console_user ctx args)
  end.

(** A key that was answered is still stored, but for its revocation. *)
Definition held (t : tbl) (key : row t) (w : world) : Prop :=
  exists b, w_tables w t !! row_id t key = Some b /\ row_kept t key b.

Variable w0 : world.

(** No key that was revoked at the start has its thumbprint. *)
Definition not_reinstated (t : tbl) (key : row t) : Prop :=
  forall id a, w_tables w0 t !! id = Some a -> conflicts t a key = true -> key_revoked t a = None.

(** The console key signed the pairing request, which is fresh. *)
Definition possession_proven (args : RegisterConsoleKeyInput) (parsed : ParsedKey) : Prop :=
  ConsoleKeys.parse_public_key (rc_publicKey args) = Ok parsed /\
  (exists now, Z.abs (now - rc_issuedAt args) <= seconds 300) /\
  exists slice signature key, base64url_decode (trim (rc_possessionProof args)) = Some slice /\
    signature_from_slice slice = Some signature /\ verifying_key_from_sec1 (pk_bytes parsed) = Some key /\
    ecdsa_verify key (ConsoleKeys.possession_message (rc_publicKey args) (rc_issuedAt args / seconds 1))
      signature = true.

(** What an answer promises, at any later time. *)
Definition promise (a : key_actor) (answer : key_answer) (w : world) : Prop :=
  match a, answer with
  | RegisterClient args _, AClientKey key =>
      (exists parsed, ClientKeys.parse_public_key (rk_publicKey args) = Ok parsed /\
         key.(ClientKey.thumbprint) = pk_thumbprint parsed) /\
      key.(ClientKey.appClientId) = rk_appClientId args /\
      held TClientKey key w /\ not_reinstated TClientKey key
  | ProvisionClient args, AProvisioned answer =>
      exists key, key.(ClientKey.id) = pr_keyId answer /\
        key.(ClientKey.thumbprint) = pr_thumbprint answer /\
        held TClientKey key w /\ not_reinstated TClientKey key
  | RevokeClient key_id, AClientKey key =>
      key.(ClientKey.id) = key_id /\ is_Some key.(ClientKey.revokedAt) /\ held TClientKey key w
  | PairConsole ctx args, AConsoleKey key =>
      (exists scope, context_scope ctx = Some scope /\ contains scope PAIR_SCOPE = true) /\
      (exists parsed, possession_proven args parsed /\
         key.(ConsoleKey.thumbprint) = pk_thumbprint parsed) /\
      held TConsoleKey key w /\ not_reinstated TConsoleKey key
  | PairByOperator _ public_key _ _, AConsoleKey key =>
      (exists parsed, ConsoleKeys.parse_public_key public_key = Ok parsed /\
         key.(ConsoleKey.thumbprint) = pk_thumbprint parsed) /\
      held TConsoleKey key w /\ not_reinstated TConsoleKey key
  | RevokeConsole key_id, AConsoleKey key =>
      key.(ConsoleKey.id) = key_id /\ is_Some key.(ConsoleKey.revokedAt) /\ held TConsoleKey key w
  | ProvisionUser _ _, AUser _ => True
  | _, _ => False
  end.

#[local] Abbreviation relying := (rely registry keys_later).
#[local] Abbreviation steady := (stable registry keys_later).

Lemma held_stable t key : is_key t = true -> steady (held t key).
Proof.
  intros Hk w w' _ _ Hl (b & Hb & Hkept). destruct (Hl t _ b Hk Hb) as (c & Hc & Hbc).
  exists c. split; [done|]. by eapply row_kept_trans.
Qed.

Lemma since_stable : steady (keys_later w0).
Proof. intros w w' _ _ Hl H0. by etrans. Qed.

(** A live key of the registry. *)
Lemma live_answer t key w :
  is_key t = true -> registry w -> keys_later w0 w -> w_tables w t !! row_id t key = Some key ->
  key_revoked t key = None -> held t key w /\ not_reinstated t key.
Proof.
  intros Hk [Hok Hkeys] Hl Hs Hlive. split; [by exists key; split; [|apply row_kept_refl]|].
  intros id a Ha Hcf. destruct (Hl t id a Hk Ha) as (b & Hb & Hkept).
  destruct (row_kept_key _ _ _ Hk Hkept) as (_ & Hcfb & Hrev). rewrite <- Hcfb in Hcf.
  destruct (Hkeys t Hk) as [_ Hu]. pose proof (Hu _ _ _ _ Hb Hs Hcf) as ->.
  rewrite Hs in Hb. injection Hb as <-. destruct (key_revoked t a) as [x|] eqn:Hra; [|done].
  by rewrite (Hrev x eq_refl) in Hlive.
Qed.

(** An answer to one attempt: the start is still behind us, and an [Ok]
    satisfies [M]. *)
Definition outcome {A} (M : A -> world -> Prop) (r : result A CratestackError) (w : world) : Prop :=
  keys_later w0 w /\ match r with Ok a => M a w | Err _ => True end.

Lemma outcome_stable {A} (M : A -> world -> Prop) r : (forall a, steady (M a)) -> steady (outcome M r).
Proof.
  intros HM w w' Hi Hi' Hl [H0 Hr]. split; [by etrans|]. destruct r as [a|e]; [|done].
  exact (HM a w w' Hi Hi' Hl Hr).
Qed.

Lemma relying_again {A} more lost (attempt : prog (result A CratestackError)) M :
  relying attempt (keys_later w0) (outcome M) -> relying (again more lost attempt) (keys_later w0) (outcome M).
Proof.
  intros Ha. induction more as [|more IH]; cbn [again]; (apply (rely_bind _ _ _ _ _ (outcome M)); [done|]).
  - intros [a|e]; by intros w _ Hr.
  - intros [a|e]; [by intros w _ Hr|]. destruct (lost e); [|by intros w _ Hr].
    eapply rely_weaken; [|exact IH]. by intros w _ [? _].
Qed.

Lemma relying_tx {A} (body : txn (result A CratestackError)) M :
  (forall a, steady (M a)) ->
  (forall w a w', registry w -> keys_later w0 w -> run_tx body w (Ok a) w' ->
     registry w' /\ keys_later w w' /\ (keys_later w0 w' -> M a w')) ->
  relying (do (Tx body)) (keys_later w0) (outcome M).
Proof.
  intros HM Hb. apply rely_do; [intros r; by apply outcome_stable|].
  intros w r w' Hi H0 Hx.
  destruct (tx_keeps body (keys_later w0) (fun a w' => keys_later w0 w' -> M a w') Hb w r w' Hi H0 Hx)
    as (Hi' & Hl & Hr). split; [done|]. split; [done|]. split; [by etrans|].
  destruct r as [a|e]; [|done]. apply Hr. by etrans.
Qed.

(** *** Each operation *)
Lemma client_key_wf parsed public_key client label id now :
  ClientKeys.parse_public_key public_key = Ok parsed ->
  key_wf TClientKey (created TClientKey id now (ClientKeys.new_key client parsed label)).
Proof.
  unfold ClientKeys.parse_public_key. destruct (base64url_decode _) as [d|]; [|done]. cbn [rbind].
  destruct (_ =? _); [|done]. cbn [rbind].
  destruct (ed25519_thumbprint d) as [print|] eqn:Hp; [|done]. intros [= <-]. by exists print.
Qed.

Lemma console_key_wf parsed public_key user label at_ id now :
  ConsoleKeys.parse_public_key public_key = Ok parsed ->
  key_wf TConsoleKey (created TConsoleKey id now (ConsoleKeys.new_key_input user parsed label at_)).
Proof.
  unfold ConsoleKeys.parse_public_key. destruct (base64url_decode _) as [d|]; [|done]. cbn [rbind].
  destruct (_ =? _); [|done]. cbn [rbind]. case_bool_decide; [|done]. cbn [negb].
  destruct (p256_thumbprint d) as [print|] eqn:Hp; [|done]. intros [= <-]. split; [by exists print | done].
Qed.

Definition client_live (parsed : ParsedKey) (key : ClientKey.t) (w : world) : Prop :=
  key.(ClientKey.thumbprint) = pk_thumbprint parsed /\ held TClientKey key w /\ not_reinstated TClientKey key.

Definition console_live (parsed : ParsedKey) (key : ConsoleKey.t) (w : world) : Prop :=
  key.(ConsoleKey.thumbprint) = pk_thumbprint parsed /\ held TConsoleKey key w /\ not_reinstated TConsoleKey key.

Lemma client_live_stable parsed key : steady (client_live parsed key).
Proof.
  intros w w' Hi Hi' Hl (Hth & Hh & Hn). split_and!; [done | |done].
  exact (held_stable TClientKey key eq_refl w w' Hi Hi' Hl Hh).
Qed.

Lemma console_live_stable parsed key : steady (console_live parsed key).
Proof.
  intros w w' Hi Hi' Hl (Hth & Hh & Hn). split_and!; [done | |done].
  exact (held_stable TConsoleKey key eq_refl w w' Hi Hi' Hl Hh).
Qed.

Lemma register_adds parsed public_key label client registrant :
  ClientKeys.parse_public_key public_key = Ok parsed ->
  adds_only (ClientKeys.register_body parsed label client registrant).
Proof.
  intros Hp. apply adds_only_ok; [apply adds_only_find_or|]. intros c.
  destruct (_ || _); [done|]. destruct (_ && _); [done|].
  apply adds_only_ok; [apply adds_only_find|]. intros [k|].
  - destruct (ClientKeys.same_registration k client); done.
  - apply adds_only_ok; [|done]. split; [|done]. intros _ id now. by eapply client_key_wf.
Qed.

Lemma relying_register_client args registrant :
  relying (ClientKeys.register args registrant) (keys_later w0)
    (outcome (fun key w => exists parsed, ClientKeys.parse_public_key (rk_publicKey args) = Ok parsed /\
       key.(ClientKey.appClientId) = rk_appClientId args /\ client_live parsed key w)).
Proof.
  unfold ClientKeys.register.
  destruct (ClientKeys.parse_public_key (rk_publicKey args)) as [parsed|e] eqn:Hp; [|by intros w _ Hw].
  cbn [pbind_ok pbind lift]. destruct (clean_label _ _) as [label|e]; [|by intros w _ Hw].
  cbn [pbind_ok pbind lift].
  eapply rely_bind_ok; [apply relying_again, (relying_tx _ (fun a w =>
    a.1.(ClientKey.appClientId) = rk_appClientId args /\ client_live parsed a.1 w))| |].
  - intros [key fresh] w w' Hi Hi' Hl [Hc Hlive]. split; [done|]. by eapply client_live_stable, Hlive.
  - intros w [key fresh] w' Hi H0 Hr.
    destruct (adds_only_run _ _ _ _ Hi (register_adds _ _ _ _ registrant Hp) Hr) as [Hi' Hl].
    split_and!; [done | done|]. intros H0'.
    destruct (client_registration_run _ _ _ _ _ _ _ _ (proj1 Hi) Hr) as (Hth & Hrev & Hof & _ & Hst).
    split; [done|]. split; [done|]. apply live_answer; try done. destruct fresh.
    + destruct Hst as (Ht & _). rewrite Ht. apply lookup_insert_eq.
    + by destruct Hst as [-> Hs].
  - intros [key fresh] w _ [H0 [Hof Hlive]]. split; [done|]. by exists parsed.
  - intros e w _ [H0 _]. by split.
Qed.

Lemma provision_adds parsed public_key app_id client_id label scopes :
  ClientKeys.parse_public_key public_key = Ok parsed ->
  adds_only (ClientKeys.provision_body parsed app_id client_id label scopes).
Proof.
  intros Hp. apply adds_only_ok; [apply adds_only_find|]. intros [k|]; [done|]. cbn [is_null negb].
  apply adds_only_ok; [by split|]. intros c. split; [|done]. intros _ id now. by eapply client_key_wf.
Qed.

(** A read, or a draw, that the registry does not notice. *)
Lemma relying_quiet {R} (c : call R) :
  (forall w r w', exec R c w r w' -> w' = w) ->
  relying (do c) (keys_later w0) (fun _ => keys_later w0).
Proof.
  intros Hc. apply rely_do; [intros r; apply since_stable|]. intros w r w' Hi H0 Hx.
  apply Hc in Hx as ->. done.
Qed.

Lemma relying_first_row {t} (q : query t) :
  relying (first_row q) (keys_later w0) (fun _ => keys_later w0).
Proof.
  apply (rely_bind_ok _ _ _ _ _ (fun _ => keys_later w0)); [|by intros rows w _ Hw | done].
  apply relying_quiet. by intros w r w' [-> _]%exec_FindMany.
Qed.

Lemma relying_first_or {t} (q : query t) e :
  relying (first_or q e) (keys_later w0) (fun _ => keys_later w0).
Proof.
  apply (rely_bind_ok _ _ _ _ _ (fun _ => keys_later w0)); [apply relying_first_row | | done].
  by intros row w _ Hw.
Qed.

Lemma relying_map_err {A} f (p : prog (result A CratestackError)) M :
  relying p (keys_later w0) (outcome M) -> relying (pmap_err f p) (keys_later w0) (outcome M).
Proof. intros Hp. apply (rely_bind _ _ _ _ _ (outcome M)); [done|]. intros [a|e]; by intros w _ Hr. Qed.

Lemma relying_provision args :
  relying (ClientKeys.provision_client args) (keys_later w0)
    (outcome (fun answer w => exists key parsed, key.(ClientKey.id) = pr_keyId answer /\
       key.(ClientKey.thumbprint) = pr_thumbprint answer /\ client_live parsed key w)).
Proof.
  unfold ClientKeys.provision_client. destruct (map_err _ _) as [scopes|e]; [|by intros w _ Hw].
  cbn [pbind_ok pbind lift]. destruct (refuse_pair_scope scopes) as [[]|e]; [|by intros w _ Hw].
  cbn [pbind_ok pbind lift].
  destruct (ClientKeys.parse_public_key (pc_publicKey args)) as [parsed|e] eqn:Hp; [|by intros w _ Hw].
  eapply rely_bind_ok; [apply relying_first_or| |by intros e w _ H0].
  intros app. destruct (App.active app); [|by intros w _ H0]. cbn [negb].
  eapply rely_bind; [apply relying_quiet; by intros w r w' ->%exec_NewUuid|]. intros uuid.
  eapply rely_bind_ok; [apply relying_map_err, (relying_tx _ (client_live parsed))| |].
  - apply client_live_stable.
  - intros w key w' Hi H0 Hr.
    destruct (adds_only_run _ _ _ _ Hi (provision_adds _ _ _ _ _ _ Hp) Hr) as [Hi' Hl].
    split_and!; [done | done|]. intros H0'.
    destruct (provision_run _ _ _ _ _ _ _ _ Hr) as (client & _ & _ & _ & _ & _ & _ & Ht & _ & Hth & _ & Hrev & _).
    split; [done|]. apply live_answer; try done. rewrite Ht. apply lookup_insert_eq.
  - intros key w _ [H0 Hlive]. split; [done|]. by exists key, parsed.
  - intros e w _ [H0 _]. by split.
Qed.

(** The one write that is not an insert: a revocation, of a key that has none. *)
Definition stamped (t : tbl) (id : text) (key : row t) (w : world) : Prop :=
  row_id t key = id /\ is_Some (key_revoked t key) /\ held t key w.

Lemma stamped_stable t id key : is_key t = true -> steady (stamped t id key).
Proof.
  intros Hk w w' Hi Hi' Hl (Hid & Hr & Hh). split_and!; [done | done|].
  exact (held_stable t key Hk w w' Hi Hi' Hl Hh).
Qed.

Lemma revoked_answer t id (key : row t) w :
  w_tables w t !! id = Some key -> row_id t key = id -> is_Some (key_revoked t key) -> stamped t id key w.
Proof. intros Hs Hid Hr. split_and!; [done | done|]. exists key. rewrite Hid. split; [done | apply row_kept_refl]. Qed.

Lemma stamp_run t (p : Z -> overwrite t) id a w b w' :
  is_key t = true -> registry w -> w_tables w t !! id = Some a ->
  (forall now clock b, commit_overwrite t clock (p now) a = Some b ->
     row_kept t a b /\ (key_wf t a -> key_wf t b) /\ is_Some (key_revoked t b)) ->
  run_tx (lett now := tdo TNow in tdo (TOverwrite t id (p now))) w (Ok b) w' ->
  registry w' /\ keys_later w w' /\ stamped t id b w'.
Proof.
  intros Hk Hreg Ha Hp Hr. apply txrun_bind in Hr as (now & w1 & Hn%txrun_do & Hr).
  apply exec_Now in Hn as ->. apply txrun_do in Hr. cbn [of_tcall] in Hr.
  destruct (keys_stamp t (p now) id a w (Ok b) w' Hk Hreg Ha) as [Hreg' Hl]; [|done|].
  { intros clock c Hc. by destruct (Hp now clock c Hc) as (? & ? & _). }
  split_and!; [done | done|].
  apply exec_Overwrite in Hr as [[_ [=]]|(a' & c & clock & Ha' & Hc & Hw & _ & Hb)].
  rewrite Ha in Ha'. injection Ha' as <-. rewrite (Hb b eq_refl).
  destruct (Hp now clock c Hc) as (Hkept & _ & Hrev). destruct (row_kept_key _ _ _ Hk Hkept) as (Hid & _ & _).
  destruct Hreg as [Hok _]. destruct (Hok _ _ _ Ha) as [Haid _].
  apply revoked_answer; [|congruence | done]. rewrite (written_row _ _ _ _ Hw), Hid, Haid. apply lookup_insert_eq.
Qed.

Lemma relying_revoke_client key_id :
  relying (ClientKeys.revoke key_id) (keys_later w0) (outcome (stamped TClientKey key_id)).
Proof.
  apply (relying_tx (A := ClientKey.t) _ (stamped TClientKey key_id)); [intros a; by apply stamped_stable|].
  intros w key w' Hi H0 Hr. apply txrun_bind_Ok in Hr as (k & w1 & Hf & Hr).
  apply (found_stored (t := TClientKey) _ _ key_id) in Hf as (-> & Hs & Hid);
    [|by intros x ?%bool_decide_eq_true].
  destruct (ClientKey.revokedAt k) as [x|] eqn:Hrev; cbn [is_null negb] in Hr.
  - apply txrun_inv in Hr as [[= ->] ->]. split_and!; [done | done|]. intros _.
    apply revoked_answer; [done | done | cbn; by rewrite Hrev].
  - destruct (stamp_run TClientKey (fun now => [ClientKey.SetRevokedAt (Some now)]) key_id k w key w' eq_refl Hi Hs)
      as (Hi' & Hl & Hst); [|exact Hr | by split_and!].
    intros now clock b [= <-]. split_and!; [|done | done]. exists clock, (Some now). split; [done|].
    by rewrite Hrev.
Qed.

Lemma relying_revoke_console key_id :
  relying (ConsoleKeys.revoke key_id) (keys_later w0) (outcome (stamped TConsoleKey key_id)).
Proof.
  apply (relying_tx (A := ConsoleKey.t) _ (stamped TConsoleKey key_id)); [intros a; by apply stamped_stable|].
  intros w key w' Hi H0 Hr. apply txrun_bind_Ok in Hr as (k & w1 & Hf & Hr).
  apply (found_stored (t := TConsoleKey) _ _ key_id) in Hf as (-> & Hs & Hid);
    [|by intros x ?%bool_decide_eq_true].
  destruct (ConsoleKey.revokedAt k) as [x|] eqn:Hrev; cbn [is_null negb] in Hr.
  - apply txrun_inv in Hr as [[= ->] ->]. split_and!; [done | done|]. intros _.
    apply revoked_answer; [done | done | cbn; by rewrite Hrev].
  - destruct (stamp_run TConsoleKey (fun now => [ConsoleKey.SetRevokedAt (Some now)]) key_id k w key w' eq_refl Hi Hs)
      as (Hi' & Hl & Hst); [|exact Hr | by split_and!].
    intros now clock b [= <-]. split_and!; [|done | done]. exists clock, (Some now). split; [done|].
    by rewrite Hrev.
Qed.

(** *** Consoles *)
Lemma own_subject_adds email name role : adds_only (ConsoleKeys.create_own_subject email name role).
Proof.
  apply adds_only_bind; [by split|]. intros uuid. apply adds_only_ok; [by split|]. intros u.
  apply adds_only_ok; [by split | done].
Qed.

Lemma pairing_adds parsed public_key vaam_user_id name now :
  ConsoleKeys.parse_public_key public_key = Ok parsed ->
  adds_only (ConsoleKeys.register_body parsed vaam_user_id name now).
Proof.
  intros Hp. apply adds_only_ok; [apply adds_only_find|]. intros link.
  apply adds_only_ok; [apply adds_only_find|]. intros [k|].
  - destruct link as [l|]; [|done]. by destruct (ConsoleKeys.same_registration _ _ _).
  - apply adds_only_ok.
    + destruct link as [l|]; [apply adds_only_ok; [apply adds_only_find_or|]; intros u; by case_bool_decide|].
      apply adds_only_ok; [apply own_subject_adds|]. intros u. apply adds_only_ok; [by split | done].
    + intros user. apply adds_only_ok; [|done]. split; [|done]. intros _ id at_. by eapply console_key_wf.
Qed.

Lemma check_proof_ok args now parsed :
  ConsoleKeys.check_proof args now = Ok parsed -> possession_proven args parsed.
Proof.
  unfold ConsoleKeys.check_proof.
  destruct (ConsoleKeys.parse_public_key (rc_publicKey args)) as [key|] eqn:Hp; [|done]. cbn [rbind].
  destruct (Z.ltb_spec (seconds ConsoleKeys.PROOF_MAX_SKEW_SECS) (Z.abs (now - rc_issuedAt args))) as [|Hskew];
    [done|].
  unfold ConsoleKeys.verify_possession.
  destruct (base64url_decode (trim (rc_possessionProof args))) as [slice|] eqn:Hd; [|done].
  destruct (signature_from_slice slice) as [signature|] eqn:Hs; [|done].
  destruct (verifying_key_from_sec1 (pk_bytes key)) as [vk|] eqn:Hv; [|done].
  destruct (ecdsa_verify _ _ _) eqn:He; [|done]. intros [= <-].
  split_and!; [done | by exists now | by exists slice, signature, vk].
Qed.

Lemma relying_pair args now :
  relying (ConsoleKeys.register args now) (keys_later w0)
    (outcome (fun key w => exists parsed, possession_proven args parsed /\ console_live parsed key w)).
Proof.
  unfold ConsoleKeys.register.
  destruct (ConsoleKeys.check_proof args now) as [parsed|e] eqn:Hcheck; [|by intros w _ Hw].
  apply check_proof_ok in Hcheck as Hproof. destruct Hproof as (Hp & _).
  cbn [pbind_ok pbind lift]. destruct (ConsoleKeys.clean_vaam_user_id _) as [vaam|e]; [|by intros w _ Hw].
  cbn [pbind_ok pbind lift]. destruct (ConsoleKeys.display_name_for _ _) as [name|e]; [|by intros w _ Hw].
  cbn [pbind_ok pbind lift].
  eapply rely_bind_ok; [apply relying_again, (relying_tx _ (fun a => console_live parsed a.1))| |].
  - intros [key fresh]. apply console_live_stable.
  - intros w [key fresh] w' Hi H0 Hr.
    destruct (adds_only_run _ _ _ _ Hi (pairing_adds _ _ _ _ _ Hp) Hr) as [Hi' Hl].
    split_and!; [done | done|]. intros H0'.
    destruct (pairing_run _ _ _ _ _ _ _ _ (proj1 Hi) Hr) as [Hth Hst]. split; [done|].
    destruct fresh.
    + destruct Hst as (_ & Ht & _ & _ & Hrev & _). apply live_answer; try done.
      rewrite Ht. apply lookup_insert_eq.
    + destruct Hst as (-> & Hs & _ & Hrev & _). by apply live_answer.
  - intros [key fresh] w _ [H0 Hlive]. split; [done|]. exists parsed. split; [by eapply check_proof_ok | done].
  - intros e w _ [H0 _]. by split.
Qed.

Lemma relying_pair_call ctx args :
  relying (ConsoleKeys.register_console_key ctx args) (keys_later w0)
    (outcome (fun key w => (exists scope, context_scope ctx = Some scope /\ contains scope PAIR_SCOPE = true) /\
       exists parsed, possession_proven args parsed /\ console_live parsed key w)).
Proof.
  unfold ConsoleKeys.register_console_key, ConsoleKeys.require_pair_scope, context_scope.
  destruct (assoc _ _) as [[|scope| |]|]; cbn [pbind_ok pbind lift]; try (by intros w _ Hw).
  destruct (contains scope PAIR_SCOPE) eqn:Hs; cbn [pbind_ok pbind lift]; [|by intros w _ Hw].
  eapply rely_bind; [apply relying_quiet; by intros w r w' ->%exec_Now|]. intros now.
  eapply rely_post; [|apply relying_pair]. intros [key|e] w _ [H0 Hr]; (split; [done|]); [|done].
  split; [by exists scope | done].
Qed.

Lemma same_registration_live existing user now key :
  ConsoleKeys.same_registration existing user now = Ok key ->
  key = existing /\ key.(ConsoleKey.revokedAt) = None.
Proof.
  unfold ConsoleKeys.same_registration. case_bool_decide; [|done]. cbn [negb].
  destruct (ConsoleKey.revokedAt existing) eqn:Hr; [done|]. cbn [is_null negb].
  destruct (_ <=? _); [done|]. by intros [= <-].
Qed.

(** The operator's pairing is no transaction: a look, and then an insert. *)
Definition looked (parsed : ParsedKey) (k : option ConsoleKey.t) (w : world) : Prop :=
  forall key, k = Some key -> key.(ConsoleKey.revokedAt) = None -> console_live parsed key w.

Lemma looked_stable parsed k : steady (looked parsed k).
Proof.
  intros w w' Hi Hi' Hl Hk key Hs Hrev. by apply (console_live_stable parsed key w w' Hi Hi' Hl), Hk.
Qed.

Lemma relying_look parsed :
  relying (first_row (ConsoleKeys.key_with_thumbprint (pk_thumbprint parsed))) (keys_later w0)
    (outcome (looked parsed)).
Proof.
  eapply rely_bind_ok; [apply rely_do with (Q := outcome (fun rows => looked parsed (head rows)))| |].
  - intros r. apply outcome_stable. intros rows. apply looked_stable.
  - intros w r w' Hi H0 Hx. apply (exec_FindMany TConsoleKey) in Hx as [-> Hrows]. split; [done|]. split; [done|]. split; [done|].
    destruct r as [rows|e]; [|done]. intros key Hk Hrev. destruct rows as [|k rows]; [done|]. injection Hk as ->.
    destruct (Hrows _ eq_refl) as [Hall _]. apply Forall_cons in Hall as [(Hs & Hq & _) _].
    apply bool_decide_eq_true in Hq. split; [done|]. by apply live_answer.
  - intros rows w _ Hr. exact Hr.
  - intros e w _ [H0 _]. by split.
Qed.

Lemma relying_insert parsed public_key user label now :
  ConsoleKeys.parse_public_key public_key = Ok parsed ->
  relying (do (Create TConsoleKey (ConsoleKeys.new_key_input user parsed label now))) (keys_later w0)
    (outcome (console_live parsed)).
Proof.
  intros Hp. apply rely_do; [intros r; apply outcome_stable, console_live_stable|].
  intros w r w' Hi H0 Hx. destruct (keys_create TConsoleKey _ _ _ _ Hi (fun _ id at_ => console_key_wf _ _ user label now id at_ Hp) Hx)
    as [Hi' Hl]. split; [done|]. split; [done|]. split; [by etrans|].
  destruct r as [key|e]; [|done].
  apply (exec_Create TConsoleKey) in Hx as [[_ [=]]|(id & at_ & _ & Hw & Hb & _)]. rewrite (Hb key eq_refl).
  split; [done|]. apply live_answer; try done; [by etrans|].
  rewrite (written_row _ _ _ _ Hw). apply lookup_insert_eq.
Qed.

Lemma relying_attempts more parsed public_key label found now :
  ConsoleKeys.parse_public_key public_key = Ok parsed ->
  relying (ConsoleKeys.pair_attempts more parsed label found now) (keys_later w0)
    (outcome (fun a => console_live parsed a.1.1)).
Proof.
  intros Hp. induction more as [|more IH]; cbn [ConsoleKeys.pair_attempts];
    (eapply rely_bind_ok; [apply relying_look| |by intros e w _ [H0 _]]); intros [k|].
  1,3: destruct (ConsoleKeys.same_registration k _ now) as [key|e] eqn:Hs;
    [apply same_registration_live in Hs as [-> Hrev]; intros w _ [H0 Hk]; by split; [|apply Hk]
    |by intros w _ [H0 _]].
  all: eapply rely_bind; [eapply rely_weaken; [|by eapply relying_insert]; by intros w _ [H0 _]|];
    intros [key|e]; try (by intros w _ Hr).
  destruct (lost_race _ e); [|by intros w _ Hr]. eapply rely_weaken; [|exact IH]. by intros w _ [H0 _].
Qed.

Lemma relying_operator user public_key label now :
  relying (ConsoleKeys.pair_existing_user user public_key label now) (keys_later w0)
    (outcome (fun a w => exists parsed, ConsoleKeys.parse_public_key public_key = Ok parsed /\
       console_live parsed a.1.1 w)).
Proof.
  unfold ConsoleKeys.pair_existing_user.
  destruct (ConsoleKeys.parse_public_key public_key) as [parsed|e] eqn:Hp; [|by intros w _ Hw].
  cbn [pbind_ok pbind lift]. destruct (clean_label _ label) as [label'|e]; [|by intros w _ Hw].
  eapply rely_bind_ok; [apply relying_first_or| |by intros e w _ H0]. intros found.
  eapply rely_post; [|by eapply relying_attempts]. intros [a|e] w _ [H0 Hr]; (split; [done|]); [|done].
  by exists parsed.
Qed.

Lemma relying_provision_user ctx args :
  relying (ConsoleKeys.provision_console_user ctx args) (keys_later w0) (outcome (fun _ _ => True)).
Proof.
  unfold ConsoleKeys.provision_console_user. destruct (require_permission _ _) as [[]|e]; [|by intros w _ Hw].
  cbn [pbind_ok pbind lift].
  eapply rely_bind_ok; [apply relying_map_err, (relying_tx _ (fun _ _ => True))| |by intros e w _ [H0 _]].
  - by intros a w w'.
  - intros w a w' Hi H0 Hr.
    assert (adds_only (ConsoleKeys.provision_user_body (pu_email args) (pu_displayName args) (pu_roleKey args)))
      as Hadds by (apply adds_only_ok; [apply own_subject_adds | done]).
    destruct (adds_only_run _ _ _ _ Hi Hadds Hr) as [? ?]. by split.
  - by intros a w _ [H0 _].
Qed.

(** What the answers promise. *)
Lemma relying_answer {A} f (p : prog (result A CratestackError)) (M : A -> world -> Prop) a :
  relying p (keys_later w0) (outcome M) -> (forall x w, M x w -> promise a (f x) w) ->
  relying (answering f p) (keys_later w0)
    (fun r w => match r with Ok answer => promise a answer w | Err _ => True end).
Proof.
  intros Hp HM. eapply rely_bind_ok; [exact Hp| |done]. intros x w _ [H0 Hx]. by apply HM.
Qed.

Lemma relying_actor a :
  relying (key_prog a) (keys_later w0)
    (fun r w => match r with Ok answer => promise a answer w | Err _ => True end).
Proof.
  destruct a; cbn [key_prog].
  - eapply relying_answer; [apply relying_register_client|].
    intros key w (parsed & Hp & Hof & Hth & Hh & Hn). split_and!; [by exists parsed | done | done | done].
  - eapply relying_answer; [apply relying_provision|].
    intros answer w (key & parsed & Hid & Hth & _ & Hh & Hn). by exists key.
  - eapply relying_answer; [apply relying_revoke_client|]. by intros key w Hst.
  - eapply relying_answer; [apply relying_pair_call|].
    intros key w (Hs & parsed & Hp & Hth & Hh & Hn). split_and!; [done | by exists parsed | done | done].
  - eapply relying_answer; [apply relying_operator|].
    intros key w (parsed & Hp & Hth & Hh & Hn). split_and!; [by exists parsed | done | done].
  - eapply relying_answer; [apply relying_revoke_console|]. by intros key w Hst.
  - eapply relying_answer; [apply relying_provision_user|]. done.
Qed.

End Actors.

(** Nobody else writes keys. *)
Definition leaves_keys `{E : CratestackErrors} (w w' : world) : Prop :=
  rows_ok w' /\ forall t, is_key t = true -> w_tables w' t = w_tables w t.

(** C30. The registry only moves forward, whoever registers, pairs, provisions and
    revokes at the same time and however their calls interleave: every stored
    key keeps its owner, public key, thumbprint and expiry, and a revocation
    its time; thumbprints stay unique and match their keys; a key that was
    answered as registered is stored from then on, is of no thumbprint that
    was revoked, and, when a console paired, was signed with over the pairing
    request; a key answered as revoked stays so. *)
Theorem key_registry_forward `{E : CratestackErrors} `{C : !CoseLib} `{UD : UnicodeDebug} `{B : !Backend}
    actors w0 ps w :
  registry w0 -> rtc (steered_step leaves_keys (fun _ _ _ => True)) (start (key_prog <$> actors) w0) (ps, w) ->
  keys_ok w /\ keys_later w0 w /\
  forall i a answer tr, actors !! i = Some a -> ps !! i = Some (Ret (Ok answer), tr) ->
    promise w0 a answer w.
Proof.
  intros Hreg Hr.
  destruct (rely_sound registry keys_later leaves_keys
    (fun w w' Hi He => let H := keys_frame w w' (proj2 He) (proj2 Hi) in
       conj (conj (proj1 He) (proj1 H)) (proj2 H))
    (key_prog <$> actors) (fun _ => keys_later w0)
    (fun i r w => match r with
                  | Ok answer => forall a, actors !! i = Some a -> promise w0 a answer w
                  | Err _ => True
                  end) w0 (ps, w) Hreg (fun _ => since_stable w0) (fun _ => reflexivity w0)) as ([_ Hok] & Hl & Hps);
    [|exact Hr|].
  - intros i p (a & -> & Ha)%list_lookup_fmap_Some. eapply rely_post; [|apply relying_actor].
    intros [answer|e] w' _ Hp; [|done]. intros a' Ha'. rewrite Ha in Ha'. by injection Ha' as <-.
  - split_and!; [done | done|]. intros i a answer tr Ha Hans. by apply (Hps i (Ok answer) tr Hans).
Qed.

(** ** Examples *)
Section Demo.

#[local] Existing Instance demo_errors.
#[local] Existing Instance demo_debug.
#[local] Existing Instance demo_cose.

Definition registry_world : world :=
  insert_row empty_world TAppClient
    (AppClient.mk (lit "c1") 0 0 (lit "app1") (lit "appc_1") (lit "ci") (lit " sms:send ") true None None 0).

Lemma registry_world_ok : registry registry_world.
Proof.
  split; [exact (proj1 (insert_row_ok _ _ _ empty_world_ok))|].
  intros t Hk. assert (w_tables registry_world t = ∅) as -> by (by destruct t).
  split; [intros id k Hs | intros id k id' k' Hs]; by rewrite lookup_empty in Hs.
Qed.

(** Two callers register the same key. *)
Definition twin : key_actor :=
  RegisterClient (mkRegisterClientKey (lit "c1") (repeat 65 32) None) ClientKeys.Caller.

Definition twins_run : pool (result key_answer DemoError) :=
  turns accepting [0%nat; 1%nat] (start (key_prog <$> [twin; twin]) registry_world).

Definition answer_of (x : prog (result key_answer DemoError) * trace) : option key_answer :=
  match x.1 with Ret (Ok answer) => Some answer | _ => None end.

Lemma twins_answered : is_Some (twins_run.1 !! 1%nat ≫= answer_of).
Proof. vm_compute. eexists. reflexivity. Qed.

Lemma key_registry_forward_witness :
  keys_ok twins_run.2 /\
  exists answer, twins_run.1 !! 1%nat ≫= answer_of = Some answer /\
    promise registry_world twin answer twins_run.2.
Proof.
  pose proof (turns_steps accepting leaves_keys (fun _ _ _ => True) [0%nat; 1%nat]
    (start (key_prog <$> [twin; twin]) registry_world) (fun _ _ _ => I) : rtc _ _ twins_run) as Hr.
  rewrite (surjective_pairing twins_run) in Hr.
  destruct (@key_registry_forward _ _ _ (ref_backend accepting) [twin; twin] registry_world _ _
    registry_world_ok Hr) as (Hok & _ & Hans).
  split; [exact Hok|]. destruct twins_answered as [answer Ha]. exists answer. split; [exact Ha|].
  destruct (twins_run.1 !! 1%nat) as [[p tr]|] eqn:Hp; [|discriminate Ha].
  destruct p as [[a|e]| |R c k]; try discriminate Ha. injection Ha as ->.
  exact (Hans 1%nat twin answer tr eq_refl Hp).
Defined.

End Demo.
