(* ===== verification/Console.v ===== *)
(** * sms-api: the console's procedures (procedures.rs)

    A message's receipts, opt-outs, the audit log and the dashboard.

    The dashboard reads under the caller's own context, so the rows it counts
    are those the models' read policies (vsms.cstack) admit; [admits_message],
    [admits_job] and [admits_attempt] are those policies.  Its answer is
    cached, under a key made of the caller's kind, role and app. *)

From S2P Require Import Prelude Float64 Encoding SentinelList Msisdn ProviderApi Schema ApiSchema Errors Sql Db.
From S2P Require Import DbLogic DbReads DbRef Discipline WorkerRouting DemoData WebhookClaim Webhook Cache Rbac.
From S2P Require Import AuditChain Send DeliveryStatus.

Record RecordOptOutInput := mkRecordOptOut {
  ro_msisdn : text;
  ro_source : OptOutSource.t;
  ro_scope : text;
  ro_reason : option text }.

Record OptOutSummary := mkOptOutSummary {
  ou_id : text;
  ou_msisdnHash : text;
  ou_source : OptOutSource.t;
  ou_scope : text;
  ou_reason : option text;
  ou_optedOutAt : Z;
  ou_createdAt : Z }.

Record AuditLogQuery := mkAuditLogQuery {
  aq_model : option text;
  aq_operation : option text;
  aq_actorId : option text;
  aq_since : option Z;
  aq_until : option Z;
  aq_limit : option Z;
  aq_offset : option Z }.

Record AuditChainStatus := mkAuditChainStatus {
  ac_latestAnchorId : option text;
  ac_latestPeriodEnd : option Z;
  ac_latestRowCount : option Z;
  ac_linkageBreaks : list text;
  ac_latestContentVerified : option bool }.

Definition to_opt_out_summary (row : OptOut.t) : OptOutSummary :=
  mkOptOutSummary row.(OptOut.id) row.(OptOut.msisdnHash) row.(OptOut.source) row.(OptOut.scope)
    row.(OptOut.reason) row.(OptOut.optedOutAt) row.(OptOut.createdAt).

Definition to_audit_log_entry (entry : AuditLogEntry) : AuditLogEntry :=
  mkEntry (ae_event_id entry) (ae_model entry) (ae_operation entry) (ae_primary_key entry) (ae_actor entry)
    (ae_tenant entry) (ae_before entry) (ae_after entry) (ae_request_id entry) (ae_occurred_at entry).

Definition receipt_summary (row : DeliveryReceipt.t) : DeliveryReceiptSummary :=
  mkReceiptSummary row.(DeliveryReceipt.id) row.(DeliveryReceipt.providerId) row.(DeliveryReceipt.outcome)
    row.(DeliveryReceipt.rawStatus) row.(DeliveryReceipt.errorCode) row.(DeliveryReceipt.networkCode)
    row.(DeliveryReceipt.receivedAt) row.(DeliveryReceipt.occurredAt).

(** ** Read policies *)
Definition claims (ctx : CratestackContext) (name value : text) : bool :=
  bool_decide (string_field ctx name = Some value).

Definition has_role (ctx : CratestackContext) (role : text) : bool := claims ctx (lit "role") role.

Definition admits_message (ctx : CratestackContext) (m : Message.t) : bool :=
  (claims ctx (lit "messageRead") (lit "granted") &&
     (claims ctx (lit "kind") (lit "user") || claims ctx (lit "appId") m.(Message.appId)))
  || has_role ctx (lit "system").

Definition admits_job (ctx : CratestackContext) (_ : Job.t) : bool :=
  claims ctx (lit "kind") (lit "app") || has_role ctx (lit "owner") || has_role ctx (lit "admin")
  || has_role ctx (lit "operator") || has_role ctx (lit "system").

(** [endpoint_app] is the app of an endpoint, as the policy's join reads it. *)
Definition admits_attempt (endpoint_app : text -> option text) (ctx : CratestackContext)
  (a : WebhookAttempt.t) : bool :=
  (claims ctx (lit "kind") (lit "user") && claims ctx (lit "messageRead") (lit "granted"))
  || match endpoint_app a.(WebhookAttempt.endpointId) with
     | Some app => claims ctx (lit "appId") app
     | None => false
     end
  || has_role ctx (lit "system").

Section Procedures.

Context `{E : CratestackErrors} `{UD : UnicodeDebug} `{PL : PhoneLib} `{ML : MacLib} `{J : JsonLib}.

Variable pepper : text.
Variable endpoint_app : text -> option text.

Definition receipts_of_message (message_id : text) : query TReceipt :=
  mkQuery (t := TReceipt) (fun r => bool_decide (r.(DeliveryReceipt.messageId) = message_id))
    [Asc (t := TReceipt) (fun r => KInt (Some r.(DeliveryReceipt.receivedAt)))] None.

Definition message_receipts (ctx : CratestackContext) (message_id : text)
  : prog (result (list DeliveryReceiptSummary) CratestackError) :=
  let!? _ := lift (require_permission ctx (lit "sms:read")) in
  let!? rows := do (FindMany TReceipt (receipts_of_message message_id)) in
  Ret (Ok (receipt_summary <$> rows)).

(** *** Opt-outs *)
Definition create_opt_out_entry (ctx : CratestackContext) (args : RecordOptOutInput)
  : prog (result OptOut.t CratestackError) :=
  let!? _ := lift (require_permission ctx OPT_OUT_MANAGE_PERMISSION) in
  let!? msisdn := lift (map_err (fun error => Validation (display_MsisdnError error))
                          (parse_mobile (ro_msisdn args))) in
  let msisdn_hash := keyed_hash_hex pepper (e164 msisdn) in
  let! now := do Now in
  pmap_err map_database_error
    (do (Create TOptOut (mkCreateOptOut msisdn_hash (e164 msisdn) (ro_source args) (ro_scope args)
           (ro_reason args) now))).

Definition search_opt_out (ctx : CratestackContext) (msisdn : text)
  : prog (result (option OptOutSummary) CratestackError) :=
  let!? _ := lift (require_permission ctx OPT_OUT_MANAGE_PERMISSION) in
  let!? msisdn := lift (map_err (fun error => Validation (display_MsisdnError error)) (parse_mobile msisdn)) in
  let msisdn_hash := keyed_hash_hex pepper (e164 msisdn) in
  let!? matches := do (FindMany TOptOut (opted_out_query msisdn_hash)) in
  Ret (Ok (to_opt_out_summary <$> head matches)).

(** *** The audit log *)
Definition list_audit_log (ctx : CratestackContext) (args : AuditLogQuery)
  : prog (result AuditLogPage CratestackError) :=
  let!? _ := lift (require_permission ctx (lit "audit:read")) in
  let filter := mkAuditFilter (aq_model args) (aq_operation args) (aq_actorId args) (aq_since args)
                  (aq_until args) in
  let limit := default 50 (aq_limit args) in
  let offset := default 0 (aq_offset args) in
  let!? page := list_audit_entries filter limit offset in
  Ret (Ok (mkPage (to_audit_log_entry <$> pg_entries page) (pg_has_more page))).

Definition audit_chain_snapshot (ctx : CratestackContext)
  : prog (result AuditChainStatus CratestackError) :=
  let!? _ := lift (require_permission ctx (lit "audit:read")) in
  let!? status := chain_status in
  let latest := cs_latest_anchor status in
  Ret (Ok (mkAuditChainStatus (AuditAnchor.id <$> latest) (AuditAnchor.periodEnd <$> latest)
             (AuditAnchor.rowCount <$> latest) (cs_linkage_breaks status)
             (cs_latest_period_content_verified status))).

(** *** The dashboard *)
Definition dashboard_cache_key (ctx : CratestackContext) : text :=
  let field name := default [] (string_field ctx name) in
  field (lit "kind") ++ lit ":" ++ field (lit "role") ++ lit ":" ++ field (lit "appId").

(** A [for] loop that pushes one value per element. *)
Fixpoint collect {X Y} (body : X -> prog (result Y CratestackError)) (l : list X)
  : prog (result (list Y) CratestackError) :=
  match l with
  | [] => Ret (Ok [])
  | x :: rest => let!? y := body x in let!? ys := collect body rest in Ret (Ok (y :: ys))
  end.

(** [aggregate().count()] of the messages the caller may read. *)
Definition count_messages (ctx : CratestackContext) (f : Message.t -> bool)
  : prog (result Z CratestackError) :=
  do (Count TMessage (fun m => admits_message ctx m && f m)).

Definition in_bucket (now hours_ago : Z) (m : Message.t) : bool :=
  (now - hours hours_ago - hours 1 <=? m.(Message.createdAt)) &&
  (m.(Message.createdAt) <? now - hours hours_ago).

Definition dashboard_hourly_buckets (ctx : CratestackContext) (now : Z)
  : prog (result (list HourlyBucket) CratestackError) :=
  collect (fun hours_ago =>
    let!? total_count := count_messages ctx (in_bucket now hours_ago) in
    let!? ucs2_count := count_messages ctx (fun m =>
      in_bucket now hours_ago m && bool_decide (m.(Message.encoding) = EncodingCode.ucs2)) in
    Ret (Ok (mkBucket (now - hours hours_ago - hours 1) total_count ucs2_count))) [5; 4; 3; 2; 1; 0].

Definition DASHBOARD_OPERATORS : list OperatorCode.t :=
  [OperatorCode.mtn; OperatorCode.orange; OperatorCode.camtel; OperatorCode.nexttel; OperatorCode.unknown].

Definition CONCLUSIVE_STATES : list MessageState.t :=
  [MessageState.delivered; MessageState.failed; MessageState.expired; MessageState.rejected;
   MessageState.cancelled].

Definition dashboard_operator_stats (ctx : CratestackContext) (now : Z)
  : prog (result (list OperatorDeliveryStats) CratestackError) :=
  collect (fun operator =>
    let in_window m := bool_decide (m.(Message.operator) = operator)
                       && (now - hours 24 <=? m.(Message.createdAt)) in
    let!? delivered := count_messages ctx (fun m =>
      in_window m && bool_decide (m.(Message.state) = MessageState.delivered)) in
    let!? terminal_total := count_messages ctx (fun m =>
      in_window m && bool_decide (m.(Message.state) ∈ CONCLUSIVE_STATES)) in
    Ret (Ok (mkStats operator delivered terminal_total))) DASHBOARD_OPERATORS.

(** Queue depth, stuck messages, job backlog, outbox depth. *)
Definition dashboard_live_gauges (ctx : CratestackContext)
  : prog (result (Z * Z * Z * Z) CratestackError) :=
  let!? queue_depth := count_messages ctx (fun m => bool_decide
    (m.(Message.state) ∈ [MessageState.accepted; MessageState.queued; MessageState.routed])) in
  let!? stuck_messages := count_messages ctx (fun m => bool_decide
    (m.(Message.state) ∈ [MessageState.uncertain; MessageState.undelivered])) in
  let!? job_backlog := do (Count TJob (fun j => admits_job ctx j && bool_decide
    (j.(Job.state) ∈ [JobState.pending; JobState.running]))) in
  let!? outbox_depth := do (Count TAttempt (fun a => admits_attempt endpoint_app ctx a && bool_decide
    (a.(WebhookAttempt.state) ∈ [AttemptState.pending; AttemptState.delivering]))) in
  Ret (Ok (queue_depth, stuck_messages, job_backlog, outbox_depth)).

Definition dashboard_fetch (ctx : CratestackContext) : prog (result DashboardSummary CratestackError) :=
  let! now := do Now in
  let!? hourly_buckets := dashboard_hourly_buckets ctx now in
  let!? operator_stats := dashboard_operator_stats ctx now in
  let!? gauges := dashboard_live_gauges ctx in
  let '(queue_depth, stuck_messages, job_backlog, outbox_depth) := gauges in
  let app_id := match string_field ctx (lit "appId") with
                | Some s => if bool_decide (s = []) then None else Some s
                | None => None
                end in
  Ret (Ok (mkDashboard now app_id queue_depth job_backlog outbox_depth stuck_messages operator_stats
             hourly_buckets)).

Definition dashboard_snapshot (ctx : CratestackContext) : prog (result DashboardSummary CratestackError) :=
  let!? _ := lift (require_permission ctx (lit "dashboard:read")) in
  get_or_fetch DashboardCache (dashboard_cache_key ctx) (fun _ => dashboard_fetch ctx).

(** *** Procedures whose subsystem is not built yet *)
Definition not_yet (procedure milestone : text) : CratestackError :=
  Internal (procedure ++ lit " is not implemented: it depends on work scheduled for " ++ milestone).

Definition list_messages_page {A} : prog (result A CratestackError) :=
  Ret (Err (not_yet (lit "listMessagesPage") (lit "milestone 2"))).

Definition cancel_message {A} : prog (result A CratestackError) :=
  Ret (Err (not_yet (lit "cancelMessage") (lit "milestone 2"))).

Definition enqueue_job {A} : prog (result A CratestackError) :=
  Ret (Err (not_yet (lit "enqueueJob") (lit "milestone 2 (the jobs role)"))).

End Procedures.

(** ** Runs without other writers *)
Section Undisturbed.

Context `{E : CratestackErrors} `{B : !Backend}.

Inductive undisturbed {A} : prog A -> world -> A -> world -> Prop :=
| undisturbed_ret a w : undisturbed (Ret a) w a w
| undisturbed_call R (c : call R) k w r w1 a w2 :
    exec R c w r w1 -> undisturbed (k r) w1 a w2 -> undisturbed (Call c k) w a w2.

Lemma undisturbed_inv {A} (p : prog A) w a w' :
  undisturbed p w a w' ->
  match p with
  | Ret b => a = b /\ w' = w
  | Panic => False
  | Call c k => exists r w1, exec _ c w r w1 /\ undisturbed (k r) w1 a w'
  end.
Proof. destruct 1; [done|]. by eexists _, _. Qed.

Lemma undisturbed_bind {A D} (p : prog A) (f : A -> prog D) w d w' :
  undisturbed (pbind p f) w d w' -> exists a w1, undisturbed p w a w1 /\ undisturbed (f a) w1 d w'.
Proof.
  revert w. induction p as [a| |R c k IH]; intros w Hr; [| |].
  - exists a, w. split; [constructor | done].
  - by apply undisturbed_inv in Hr.
  - apply undisturbed_inv in Hr as (r & w1 & Hx & Hr). apply IH in Hr as (a & w2 & Ha & Hd).
    exists a, w2. split; [by econstructor | done].
Qed.

Lemma undisturbed_ok {A D X} (p : prog (result A X)) (f : A -> prog (result D X)) w d w' :
  undisturbed (pbind_ok p f) w (Ok d) w' ->
  exists a w1, undisturbed p w (Ok a) w1 /\ undisturbed (f a) w1 (Ok d) w'.
Proof.
  intros ([a|e] & w1 & Ha & Hd)%undisturbed_bind; [by exists a, w1|].
  apply undisturbed_inv in Hd as [[=] _].
Qed.

Lemma undisturbed_do {R} (c : call R) w r w' : undisturbed (do c) w r w' -> exec R c w r w'.
Proof. by intros (r' & w1 & Hx & [-> ->]%undisturbed_inv)%undisturbed_inv. Qed.

Lemma undisturbed_collect {X Y} (body : X -> prog (result Y CratestackError)) (P : world -> X -> Y -> Prop) l :
  (forall x w y w', undisturbed (body x) w (Ok y) w' -> w' = w /\ P w x y) ->
  forall w ys w', undisturbed (collect body l) w (Ok ys) w' -> w' = w /\ Forall2 (P w) l ys.
Proof.
  intros Hb. induction l as [|x l IH]; intros w ys w' Hr; cbn [collect] in Hr.
  - apply undisturbed_inv in Hr as [[= ->] ->]. by split.
  - apply undisturbed_ok in Hr as (y & w1 & [-> Hy]%Hb & Hr).
    apply undisturbed_ok in Hr as (ys' & w2 & [-> Hys]%IH & [[= ->] ->]%undisturbed_inv).
    split; [done|]. by constructor.
Qed.

(** ** What the dashboard counts *)
Definition message_count (w : world) (f : Message.t -> bool) : Z :=
  Z.of_nat (length (List.filter (fun kr => f kr.2) (map_to_list (w_tables w TMessage)))).

Lemma message_count_le w f g : (forall m, f m = true -> g m = true) -> message_count w f <= message_count w g.
Proof.
  intros Hfg. unfold message_count. apply Nat2Z.inj_le.
  induction (map_to_list (w_tables w TMessage)) as [|[k m] l IH]; [done|]. cbn.
  destruct (f m) eqn:Hf; [rewrite (Hfg m Hf); cbn; lia|]. destruct (g m); cbn; lia.
Qed.

Lemma message_count_split w f g h :
  (forall m, h m = f m || g m) -> (forall m, f m && g m = false) ->
  message_count w h = message_count w f + message_count w g.
Proof.
  intros Hh Hfg. unfold message_count. rewrite <- Nat2Z.inj_add. f_equal.
  induction (map_to_list (w_tables w TMessage)) as [|[k m] l IH]; [done|]. cbn.
  rewrite Hh. specialize (Hfg m). destruct (f m), (g m); cbn in *; try done; lia.
Qed.

Lemma message_count_ext w f g : (forall m, f m = g m) -> message_count w f = message_count w g.
Proof.
  intros Hfg. apply Z.le_antisymm; apply message_count_le; intros m; by rewrite Hfg.
Qed.

Definition Zsum (l : list Z) : Z := foldr Z.add 0 l.

Definition created_between (a b : Z) (m : Message.t) : bool :=
  (a <=? m.(Message.createdAt)) && (m.(Message.createdAt) <? b).

(** Adjoining windows add up. *)
Lemma message_count_windows w f a b c : a <= b <= c ->
  message_count w (fun m => f m && created_between a b m) +
  message_count w (fun m => f m && created_between b c m) =
  message_count w (fun m => f m && created_between a c m).
Proof.
  intros Hab. symmetry. unfold created_between. apply message_count_split; intros m; destruct (f m); cbn; try done.
  all: destruct (Z.leb_spec a m.(Message.createdAt)), (Z.ltb_spec m.(Message.createdAt) b),
    (Z.leb_spec b m.(Message.createdAt)), (Z.ltb_spec m.(Message.createdAt) c); cbn; try done; lia.
Qed.

(** A message is of exactly one operator. *)
Lemma message_count_operators w f :
  Zsum ((fun op => message_count w (fun m => bool_decide (m.(Message.operator) = op) && f m)) <$> DASHBOARD_OPERATORS) =
  message_count w f.
Proof.
  unfold message_count, DASHBOARD_OPERATORS. cbn [fmap list_fmap Zsum foldr].
  induction (map_to_list (w_tables w TMessage)) as [|[k m] l IH]; [done|]. cbn [List.filter snd].
  destruct (f m); rewrite ?andb_true_r, ?andb_false_r; [|exact IH].
  destruct (Message.operator m); repeat case_bool_decide; try done; cbn [length]; lia.
Qed.

Lemma undisturbed_count ctx f w n w' :
  undisturbed (count_messages ctx f) w (Ok n) w' ->
  w' = w /\ n = message_count w (fun m => admits_message ctx m && f m).
Proof. intros [-> Hn]%undisturbed_do%exec_Count. split; [done|]. by apply Hn. Qed.

Variable endpoint_app : text -> option text.

Definition bucket_of (ctx : CratestackContext) (now : Z) (w : world) (hours_ago : Z) (b : HourlyBucket) : Prop :=
  hb_bucketStart b = now - hours hours_ago - hours 1 /\
  hb_totalCount b = message_count w (fun m => admits_message ctx m && in_bucket now hours_ago m) /\
  hb_ucs2Count b <= hb_totalCount b.

Lemma buckets_run ctx now w bs w' :
  undisturbed (dashboard_hourly_buckets ctx now) w (Ok bs) w' ->
  w' = w /\ Forall2 (bucket_of ctx now w) [5; 4; 3; 2; 1; 0] bs.
Proof.
  revert w bs w'. apply (undisturbed_collect _ (bucket_of ctx now)). intros h w b w' Hr.
  apply undisturbed_ok in Hr as (n & w1 & [-> ->]%undisturbed_count & Hr).
  apply undisturbed_ok in Hr as (u & w1 & [-> ->]%undisturbed_count & [[= ->] ->]%undisturbed_inv).
  split; [done|]. split_and!; try done. apply message_count_le. intros m.
  by destruct (admits_message ctx m), (in_bucket now h m).
Qed.

Definition concluded (ctx : CratestackContext) (now : Z) (m : Message.t) : bool :=
  admits_message ctx m && (now - hours 24 <=? m.(Message.createdAt)) &&
  bool_decide (m.(Message.state) ∈ CONCLUSIVE_STATES).

Definition stats_of (ctx : CratestackContext) (now : Z) (w : world) (op : OperatorCode.t)
  (s : OperatorDeliveryStats) : Prop :=
  os_operator s = op /\ os_delivered s <= os_terminalTotal s /\
  os_terminalTotal s =
    message_count w (fun m => bool_decide (m.(Message.operator) = op) && concluded ctx now m).

Lemma stats_run ctx now w ss w' :
  undisturbed (dashboard_operator_stats ctx now) w (Ok ss) w' ->
  w' = w /\ Forall2 (stats_of ctx now w) DASHBOARD_OPERATORS ss.
Proof.
  revert w ss w'. apply (undisturbed_collect _ (stats_of ctx now)). intros op w b w' Hr.
  apply undisturbed_ok in Hr as (n & w1 & [-> ->]%undisturbed_count & Hr).
  apply undisturbed_ok in Hr as (u & w1 & [-> ->]%undisturbed_count & [[= ->] ->]%undisturbed_inv).
  split; [done|]. split; [done|]. split; cbn.
  - apply message_count_le. intros m.
    destruct (admits_message ctx m), (bool_decide (Message.operator m = op)), (_ <=? _); try done.
    intros Hd%bool_decide_eq_true. apply bool_decide_eq_true. rewrite Hd. left.
  - apply message_count_ext. intros m. unfold concluded.
    destruct (admits_message ctx m), (bool_decide (Message.operator m = op)), (_ <=? _); reflexivity.
Qed.
Lemma fmap_Forall2 {X Y Z'} (f : X -> Z') (g : Y -> Z') (P : X -> Y -> Prop) l k :
  (forall x y, P x y -> g y = f x) -> Forall2 P l k -> g <$> k = f <$> l.
Proof. intros Hfg. induction 1 as [|x y l k Hxy _ IH]; [done|]. cbn. by rewrite IH, (Hfg x y Hxy). Qed.

Lemma Forall2_right {X Y} (P : X -> Y -> Prop) (Q : Y -> Prop) l k :
  (forall x y, P x y -> Q y) -> Forall2 P l k -> Forall Q k.
Proof. intros HPQ. induction 1; constructor; eauto. Qed.

(** Six adjoining hours are six hours. *)
Lemma six_hours w ctx now :
  Zsum ((fun h => message_count w (fun m => admits_message ctx m && in_bucket now h m)) <$> [5; 4; 3; 2; 1; 0]) =
  message_count w (fun m => admits_message ctx m && created_between (now - hours 6) now m).
Proof.
  set (f := admits_message ctx). cbn [fmap list_fmap Zsum foldr].
  assert (forall h a b, a = now - hours h - hours 1 -> b = now - hours h ->
    message_count w (fun m => f m && in_bucket now h m) = message_count w (fun m => f m && created_between a b m))
    as Hb by (by intros h a b -> ->).
  rewrite (Hb 5 (now - hours 6) (now - hours 5)), (Hb 4 (now - hours 5) (now - hours 4)),
    (Hb 3 (now - hours 4) (now - hours 3)), (Hb 2 (now - hours 3) (now - hours 2)),
    (Hb 1 (now - hours 2) (now - hours 1)), (Hb 0 (now - hours 1) now) by (unfold hours, seconds; lia).
  rewrite <- (message_count_windows w f (now - hours 6) (now - hours 5) now) by (unfold hours, seconds; lia).
  rewrite <- (message_count_windows w f (now - hours 5) (now - hours 4) now) by (unfold hours, seconds; lia).
  rewrite <- (message_count_windows w f (now - hours 4) (now - hours 3) now) by (unfold hours, seconds; lia).
  rewrite <- (message_count_windows w f (now - hours 3) (now - hours 2) now) by (unfold hours, seconds; lia).
  rewrite <- (message_count_windows w f (now - hours 2) (now - hours 1) now) by (unfold hours, seconds; lia).
  lia.
Qed.

End Undisturbed.

(** The dashboard adds up.  On a database nobody else writes to, the six
    hourly buckets adjoin and together count exactly the messages of the last
    six hours that the caller may read, and the five operators' totals exactly
    the conclusive messages of the last day; no bucket has more UCS-2 messages
    than messages, and no operator more deliveries than conclusions. *)
Theorem dashboard_adds_up `{E : CratestackErrors} `{B : !Backend} endpoint_app ctx w d w' :
  undisturbed (dashboard_fetch endpoint_app ctx) w (Ok d) w' ->
  let now := ds_generatedAt d in
  w' = w /\
  hb_bucketStart <$> ds_hourlyBuckets d = (fun h => now - hours h) <$> [6; 5; 4; 3; 2; 1] /\
  Zsum (hb_totalCount <$> ds_hourlyBuckets d) =
    message_count w (fun m => admits_message ctx m && created_between (now - hours 6) now m) /\
  Forall (fun b => hb_ucs2Count b <= hb_totalCount b) (ds_hourlyBuckets d) /\
  os_operator <$> ds_operatorStats d = DASHBOARD_OPERATORS /\
  Zsum (os_terminalTotal <$> ds_operatorStats d) = message_count w (concluded ctx now) /\
  Forall (fun s => os_delivered s <= os_terminalTotal s) (ds_operatorStats d).
Proof.
  intros Hr. apply undisturbed_bind in Hr as (now & w1 & Hn%undisturbed_do & Hr). apply exec_Now in Hn as ->.
  apply undisturbed_ok in Hr as (bs & w1 & [-> Hbs]%buckets_run & Hr).
  apply undisturbed_ok in Hr as (ss & w1 & [-> Hss]%stats_run & Hr).
  apply undisturbed_ok in Hr as ([[[q st] j] o] & w1 & Hg & Hr).
  assert (w1 = w) as ->.
  { apply undisturbed_ok in Hg as (n & w2 & [-> _]%undisturbed_count & Hg).
    apply undisturbed_ok in Hg as (n2 & w2 & [-> _]%undisturbed_count & Hg).
    apply undisturbed_ok in Hg as (n3 & w2 & [-> _]%undisturbed_do%exec_Count & Hg).
    apply undisturbed_ok in Hg as (n4 & w2 & [-> _]%undisturbed_do%exec_Count & [_ ->]%undisturbed_inv). done. }
  apply undisturbed_inv in Hr as [[= ->] ->]. cbn [ds_generatedAt ds_hourlyBuckets ds_operatorStats].
  split_and!; [done | | | | | |].
  - rewrite (fmap_Forall2 (fun h => now - hours h - hours 1) hb_bucketStart (bucket_of ctx now w) _ _ ltac:(by intros x y [? _]) Hbs).
    unfold hours, seconds. cbn [fmap list_fmap]. repeat (apply (f_equal2 cons); [lia|]). reflexivity.
  - rewrite (fmap_Forall2 _ hb_totalCount (bucket_of ctx now w) _ _ ltac:(intros x y (_ & H & _); exact H) Hbs). apply six_hours.
  - apply (Forall2_right (bucket_of ctx now w) (fun b => hb_ucs2Count b <= hb_totalCount b) _ _
      ltac:(by intros x y (_ & _ & H)) Hbs).
  - rewrite (fmap_Forall2 id os_operator (stats_of ctx now w) _ _ ltac:(by intros x y [? _]) Hss). apply list_fmap_id.
  - rewrite (fmap_Forall2 _ os_terminalTotal (stats_of ctx now w) _ _ ltac:(intros x y (_ & _ & H); exact H) Hss).
    apply message_count_operators.
  - apply (Forall2_right (stats_of ctx now w) (fun s => os_delivered s <= os_terminalTotal s) _ _
      ltac:(by intros x y (_ & H & _)) Hss).
Qed.

(** ** An opt-out takes effect *)
Section OptOuts.

Context `{E : CratestackErrors} `{B : !Backend} `{UD : UnicodeDebug} `{PL : PhoneLib} `{ML : MacLib}.
Variable pepper : text.

Lemma wp_record ctx args :
  wp (create_opt_out_entry pepper ctx args) [] (fun r _ => forall o, r = Ok o ->
    exists m, parse_mobile (ro_msisdn args) = Ok m /\ o.(OptOut.msisdnHash) = hmac_sha256_hex pepper (e164 m)).
Proof.
  unfold create_opt_out_entry. destruct (require_permission _ _) as [[]|e]; [|by intros o]. cbn [pbind_ok pbind lift].
  destruct (parse_mobile (ro_msisdn args)) as [m|e]; [|by intros o]. cbn [map_err pbind_ok pbind lift].
  apply wp_do; [done|]. intros now _. apply wp_do; [done|]. intros [o|e] Hr; [|by intros o].
  intros o' [= <-]. exists m. split; [done|]. destruct Hr as (id & at_ & ->). done.
Qed.

Lemma wp_search ctx number :
  wp (search_opt_out pepper ctx number) [] (fun r tr => forall found, r = Ok found ->
    exists m, parse_mobile number = Ok m /\
      match found with
      | Some s => ou_msisdnHash s = hmac_sha256_hex pepper (e164 m)
      | None => Ev (FindMany TOptOut (opted_out_query (hmac_sha256_hex pepper (e164 m)))) (Ok []) ∈ tr
      end).
Proof.
  unfold search_opt_out. destruct (require_permission _ _) as [[]|e]; [|by intros o]. cbn [pbind_ok pbind lift].
  destruct (parse_mobile number) as [m|e]; [|by intros o]. cbn [map_err pbind_ok pbind lift].
  apply wp_do; [done|]. intros [rows|e] Hr; [|by intros o]. intros found [= <-]. exists m. split; [done|].
  destruct rows as [|o rows]; [by left|]. destruct Hr as [Hr _]. apply Forall_cons in Hr as [[Ho _] _].
  by apply bool_decide_eq_true in Ho.
Qed.

End OptOuts.

(** C31. Recording an opt-out takes effect everywhere at once: when
    [recordOptOut] has answered, and for as long as the row it answered stays
    on file, no notification or marketing message to that number is accepted
    and every search for it finds an opt-out of that number, however the number
    is spelt and whatever other writers do. *)
Theorem opt_out_takes_effect `{E : CratestackErrors} `{B : !Backend} `{UD : UnicodeDebug}
  `{PL : PhoneLib} `{UN : UnicodeNormalization} `{ML : MacLib} `{CA : Calendar} `{DL : DecimalLib}
  pepper ctx args o tr w w1 :
  world_ok w -> rtc step (create_opt_out_entry pepper ctx args, [], w) (Ret (Ok o), tr, w1) ->
  (forall sctx sargs r tr' w2 w3, sane sargs -> world_ok w2 -> consent_class (class_of sargs) ->
     parse_mobile (si_to sargs) = parse_mobile (ro_msisdn args) ->
     rtc (step_with TOptOut o) (send pepper sctx sargs, [], w2) (Ret r, tr', w3) -> is_ok r = false) /\
  (forall sctx number found tr' w2 w3, world_ok w2 ->
     parse_mobile number = parse_mobile (ro_msisdn args) ->
     rtc (step_with TOptOut o) (search_opt_out pepper sctx number, [], w2) (Ret (Ok found), tr', w3) ->
     exists s, found = Some s /\ ou_msisdnHash s = o.(OptOut.msisdnHash)).
Proof.
  intros Hok Hrun.
  destruct (wp_run _ _ _ _ _ _ _ (wp_record pepper ctx args) Hok (valid_nil _) (Forall_nil_2 _) Hrun o eq_refl)
    as (m & Hm & Ho). rewrite Hm. split.
  - intros sctx sargs r tr' w2 w3 Hs Hok2 Hc Hp Hsend. by apply (send_opted_out _ _ _ _ _ _ _ _ _ Hs Hok2 Hc Hp Ho Hsend).
  - intros sctx number found tr' w2 w3 Hok2 Hp Hsearch.
    destruct (wp_run _ _ _ _ _ _ _ (wp_search pepper sctx number) Hok2 (valid_nil _) (Forall_nil_2 _)
      (step_with_step _ _ _ _ Hsearch) found eq_refl) as (m' & Hm' & Hf).
    rewrite Hp in Hm'. injection Hm' as <-. destruct found as [s|]; [exists s; by rewrite Ho|].
    exfalso. apply (seen TOptOut o _ _ _ _ _ _ eq_refl Hsearch Hf). split; [done|].
    split; [|by intros n [= <-]]. exists eq_refl. cbn [eq_rect q_where opted_out_query].
    apply bool_decide_eq_true. exact Ho.
Qed.

(** ** Examples *)
Section Demo.

#[local] Existing Instance demo_errors.
#[local] Existing Instance demo_debug.
#[local] Existing Instance demo_phone.
#[local] Existing Instance WebhookExamples.demo_mac.
#[local] Existing Instance gregorian.
#[local] Existing Instance demo_decimal.
#[local] Existing Instance demo_unicode.

Definition dash_world : world :=
  insert_row empty_world TMessage (ex_message (lit "m1") MessageState.accepted).

(** Two clients of one app: both may see the dashboard, one may read messages. *)
Definition dash_context (scopes : text) : CratestackContext :=
  context_for (SApp (mkAppStanding (lit "ops-1") (lit "app1") scopes)).

Definition reading_client : CratestackContext := dash_context (lit " dashboard:read sms:read ").
Definition limited_client : CratestackContext := dash_context (lit " dashboard:read ").

Definition dash_run (ctx : CratestackContext) (w : world) : config (result DashboardSummary DemoError) :=
  ref_run accepting (dashboard_snapshot (fun _ => None) ctx) [] w.

Definition cached (key : text) (v : DashboardSummary) (w : world) : world :=
  mkWorld (w_tables w) (w_used w) (fun c =>
    match c return cache_key c -> option (cache_val c) with
    | DashboardCache => fun k => if bool_decide (k = key) then Some v else w_cache w DashboardCache k
    | c => w_cache w c
    end).

(** The dashboard's cache is keyed by kind, role and app, but what a client
    may count also depends on its scopes: of two clients of one app, the one
    that may not read messages is answered the numbers of the other, while its
    own would be nought. *)
Theorem dashboard_cache_shared :
  dashboard_cache_key reading_client = dashboard_cache_key limited_client /\
  exists seen own,
    run_result (dash_run reading_client dash_world) = Some (Ok seen) /\
    head (run_trace (dash_run reading_client dash_world)) =
      Some (Ev (CachePut DashboardCache (dashboard_cache_key reading_client) seen) tt) /\
    run_result (dash_run limited_client dash_world) = Some (Ok own) /\
    ds_queueDepth seen = 1 /\ ds_queueDepth own = 0 /\
    run_result (dash_run limited_client
      (cached (dashboard_cache_key reading_client) seen dash_world)) = Some (Ok seen).
Proof.
  split; [vm_compute; reflexivity|]. eexists _, _.
  split; [vm_compute; reflexivity|]. split; [vm_compute; reflexivity|]. split; [vm_compute; reflexivity|].
  split; [vm_compute; reflexivity|]. split; [vm_compute; reflexivity|]. vm_compute. reflexivity.
Qed.

Lemma ref_undisturbed o {A} (p : prog A) tr w a :
  run_result (ref_run o p tr w) = Some a ->
  @undisturbed _ (ref_backend o) A p w a (ref_run o p tr w).2.
Proof.
  revert tr w. induction p as [b| |R c k IH]; intros tr w Hr; cbn in *; [|done|].
  - injection Hr as ->. constructor.
  - destruct (ref_exec o c w) as [r w1] eqn:Hx. econstructor; [exact Hx|]. by apply IH.
Qed.

Definition dash_summary : option DashboardSummary :=
  match run_result (ref_run accepting (dashboard_fetch (fun _ => None) reading_client) [] dash_world) with
  | Some (Ok d) => Some d
  | _ => None
  end.

Lemma dashboard_adds_up_witness :
  exists d, dash_summary = Some d /\ length (ds_hourlyBuckets d) = 6%nat /\
    Zsum (os_terminalTotal <$> ds_operatorStats d) =
      message_count dash_world (concluded reading_client (ds_generatedAt d)).
Proof.
  assert (is_Some dash_summary) as [d Hd] by (vm_compute; eexists; reflexivity).
  exists d. split; [exact Hd|]. unfold dash_summary in Hd.
  destruct (run_result _) as [[d'|e]|] eqn:Hr; try discriminate Hd. injection Hd as ->.
  destruct (@dashboard_adds_up _ (ref_backend accepting) (fun _ => None) reading_client dash_world d _
    (ref_undisturbed accepting _ [] dash_world _ Hr)) as (_ & Hb & _ & _ & _ & Hs & _).
  split; [|exact Hs]. rewrite <- (length_fmap hb_bucketStart), Hb. reflexivity.
Defined.

(** An operator records the number of Send.v's shop; the shop's campaign is
    then refused. *)
Definition opt_out_manager : CratestackContext :=
  context_for (SUser (mkUserStanding (lit "u1") (lit "support") [lit "optout:manage"])).

Definition record_args : RecordOptOutInput :=
  mkRecordOptOut (lit "+237 6 77 12 34 56") OptOutSource.inbound_stop (lit "all") None.

Definition record_run : config (result OptOut.t DemoError) :=
  ref_run accepting (create_opt_out_entry demo_pepper opt_out_manager record_args) [] shop_world.

Definition recorded_row : OptOut.t :=
  match run_result record_run with Some (Ok o) => o | _ => demo_opt_out end.

Lemma record_run_ok : run_result record_run = Some (Ok recorded_row).
Proof. vm_compute. reflexivity. Qed.

Definition after_record : world := insert_row shop_world TOptOut recorded_row.

Lemma after_record_reads :
  ref_reads accepting (shop_send (Some 60)) after_record = true /\
  stored TOptOut recorded_row after_record /\
  is_null (run_result (ref_run accepting (shop_send (Some 60)) [] after_record)) = false /\
  parse_mobile (si_to (shop_args (Some 60))) = parse_mobile (ro_msisdn record_args).
Proof. split; [vm_compute; reflexivity|]. split; [vm_compute; reflexivity|]. split; vm_compute; reflexivity. Qed.

Lemma opt_out_takes_effect_witness :
  option_map is_ok (run_result (ref_run accepting (shop_send (Some 60)) [] after_record)) = Some false.
Proof.
  destruct after_record_reads as (Hreads & Hst & Hfin & Hp).
  apply refused_run; [exact Hfin|]. intros r Hr.
  pose proof (ref_reads_steps accepting (shop_send (Some 60)) [] after_record _ _ Hreads Hst) as Hrun.
  rewrite Hr in Hrun.
  destruct (@opt_out_takes_effect _ (ref_backend accepting) _ _ _ _ _ _ demo_pepper opt_out_manager record_args
    recorded_row _ _ _ shop_world_ok (ref_run_done accepting _ [] shop_world _ record_run_ok)) as [Hsend _].
  exact (Hsend shop_context (shop_args (Some 60)) r _ _ _ shop_sane (insert_row_ok _ _ _ shop_world_ok)
    (or_intror eq_refl) Hp Hrun).
Defined.

End Demo.
