(* ===== verification/Leadership.v ===== *)
(** * sms-worker: singleton roles (lib.rs, lease.rs), and who holds them

    A role that must run once in the whole deployment runs on the node that
    holds its advisory lock.  The lock service is Postgres: the class
    [AdvisoryLocks] states what its documentation promises of session-level
    advisory locks.  [run_singleton] is a task that moves on what happens to
    it ([happening]); a deployment is a list of such tasks and the server, and
    moves by [deployment_step].

    worker_roles.rs and worker_locks.rs (sms-api) are here too: the keys of the
    roles, and the snapshot of who holds them. *)

From S2P Require Import Prelude Float64 ProviderApi Schema ApiSchema Errors Sql Db DbLogic WorkerRouting.
From S2P Require Import Webhook Rbac.

(** ** Roles *)
Inductive Role := Dispatch | Drain | Scheduler | Hooks | Jobs | Smpp.

#[export] Instance Role_eq_dec : EqDecision Role.
Proof. solve_decision. Defined.

Definition ALL : list Role := [Dispatch; Drain; Scheduler; Hooks; Jobs; Smpp].

Inductive Cardinality := Singleton | ScaleToN.

#[export] Instance Cardinality_eq_dec : EqDecision Cardinality.
Proof. solve_decision. Defined.

Definition role_as_str (role : Role) : text :=
  match role with
  | Dispatch => lit "dispatch"
  | Drain => lit "drain"
  | Scheduler => lit "scheduler"
  | Hooks => lit "hooks"
  | Jobs => lit "jobs"
  | Smpp => lit "smpp"
  end.

Definition cardinality (role : Role) : Cardinality :=
  match role with
  | Dispatch | Drain | Scheduler | Smpp => Singleton
  | Hooks | Jobs => ScaleToN
  end.

(** [FromStr]; the error is the unknown name. *)
Definition role_from_str (s : text) : result Role text :=
  match List.find (fun role => bool_decide (role_as_str role = s)) ALL with
  | Some role => Ok role
  | None => Err s
  end.

(** *** worker_roles.rs *)
Definition ADVISORY_LOCK_NAMESPACE : Z := 0x534d5300.

Definition ROLE_LOCK_KEYS : list (text * Z * bool) :=
  [ (lit "dispatch", 1, true); (lit "drain", 2, true); (lit "scheduler", 3, true);
    (lit "hooks", 4, false); (lit "jobs", 5, false); (lit "smpp", 6, true) ].

Definition lock_key_for_role (name : text) : option Z :=
  (fun e => e.1.2) <$> List.find (fun e => bool_decide (e.1.1 = name)) ROLE_LOCK_KEYS.

Definition role_for_lock_key (objid : Z) : option text :=
  (fun e => e.1.1) <$> List.find (fun e => e.1.2 =? objid) ROLE_LOCK_KEYS.

Definition is_singleton (name : text) : option bool :=
  (fun e => e.2) <$> List.find (fun e => bool_decide (e.1.1 = name)) ROLE_LOCK_KEYS.

(** The code panics on [None], which no role gives ([role_has_key]). *)
Definition advisory_lock_key (role : Role) : option Z := lock_key_for_role (role_as_str role).

Lemma role_has_key role : exists key, advisory_lock_key role = Some key /\
  role_for_lock_key key = Some (role_as_str role) /\
  is_singleton (role_as_str role) = Some (bool_decide (cardinality role = Singleton)).
Proof. destruct role; vm_compute; eexists; done. Qed.

Lemma role_key_inj r r' : advisory_lock_key r = advisory_lock_key r' -> r = r'.
Proof. by destruct r, r'; vm_compute. Qed.

Lemma role_round_trip role : role_from_str (role_as_str role) = Ok role.
Proof. by destruct role; vm_compute. Qed.

(** *** worker_locks.rs *)
Record WorkerLockInfo := mkWorkerLock {
  wl_role : text;
  wl_singleton : bool;
  wl_held : bool;
  wl_workerId : option text;
  wl_pid : option Z;
  wl_heldSince : option Z }.

Definition lock_info (rows : list LockRow) (e : text * Z * bool) : WorkerLockInfo :=
  let '(name, objid, singleton) := e in
  let holder := List.find (fun row => lr_objid row =? objid) rows in
  mkWorkerLock name singleton (negb (is_null holder)) (lr_application_name <$> holder) (lr_pid <$> holder)
    (holder ≫= lr_backend_start).

Section Snapshot.

Context `{E : CratestackErrors} `{UD : UnicodeDebug}.

Definition current_locks : prog (result (list WorkerLockInfo) CratestackError) :=
  let! r := do (Raw (SelectLocks ADVISORY_LOCK_NAMESPACE)) in
  match r with
  | Ok rows => Ret (Ok (lock_info rows <$> ROLE_LOCK_KEYS))
  | Err error => Ret (Err (Internal (lit "reading pg_locks for worker leases: " ++ se_text error)))
  end.

Definition worker_lock_snapshot (ctx : CratestackContext)
  : prog (result (list WorkerLockInfo) CratestackError) :=
  let!? _ := lift (require_permission ctx (lit "worker:read")) in
  let!? locks := current_locks in
  Ret (Ok locks).

End Snapshot.

(** ** The lock service

    One namespace; a lock is held by a session.  [ever_session] says whether
    there has ever been such a session. *)
Definition session : Type := nat.

Class AdvisoryLocks := {
  server : Type;
  holder : server -> Z -> option session;
  ever_session : server -> session -> bool;
  connect : text -> server -> session * server;
  try_advisory_lock : session -> Z -> server -> bool * server;
  advisory_unlock : session -> Z -> server -> bool * server;
  end_session : session -> server -> server }.

Class AdvisoryLocksSound `{AdvisoryLocks} : Prop := {
  connect_fresh name srv s srv' : connect name srv = (s, srv') -> ever_session srv s = false /\ ever_session srv' s = true;
  connect_known name srv s : ever_session srv s = true -> ever_session (connect name srv).2 s = true;
  connect_holder name srv key : holder (connect name srv).2 key = holder srv key;
  try_lock_granted s key srv srv' : try_advisory_lock s key srv = (true, srv') ->
    (holder srv key = None \/ holder srv key = Some s) /\ holder srv' key = Some s /\
    forall key', key' <> key -> holder srv' key' = holder srv key';
  try_lock_refused s key srv srv' : try_advisory_lock s key srv = (false, srv') ->
    forall key', holder srv' key' = holder srv key';
  try_lock_free s key srv : holder srv key = None -> (try_advisory_lock s key srv).1 = true;
  try_lock_known s key srv s' : ever_session (try_advisory_lock s key srv).2 s' = ever_session srv s';
  unlock_holder s key srv s' key' : s' <> s ->
    holder srv key' = Some s' -> holder (advisory_unlock s key srv).2 key' = Some s';
  unlock_known s key srv s' : ever_session (advisory_unlock s key srv).2 s' = ever_session srv s';
  end_known s srv s' : ever_session (end_session s srv) s' = ever_session srv s';
  end_released s srv key : holder srv key = Some s -> holder (end_session s srv) key = None;
  end_other s srv key s' : s' <> s -> holder srv key = Some s' -> holder (end_session s srv) key = Some s' }.

(** ** lease.rs *)
Record RoleLease := mkLease {
  lease_conn : session;
  lease_role : Role }.

Inductive LeaseError :=
| LeaseConnect (role : Role) (source : text)
| LeaseQuery (role : Role) (source : text).

(** How an exchange with the server goes: no connection; no answer to the
    query, which the server may have carried out all the same, and whose
    session it may notice to be gone only later; an answer. *)
Inductive exchange :=
| NoConnection (source : text)
| NoAnswer (source : text) (carried_out lingers : bool)
| Answered.

Section Leases.

Context `{L : AdvisoryLocks}.

(** Dropping a connection. *)
Definition drop_conn (lingers : bool) (s : session) (srv : server) : server :=
  if lingers then srv else end_session s srv.

Definition try_acquire (role : Role) (worker_id : text) (key : Z) (x : exchange) (srv : server)
  : result (option RoleLease) LeaseError * server :=
  match x with
  | NoConnection source => (Err (LeaseConnect role source), srv)
  | NoAnswer source carried_out lingers =>
      let '(conn, srv) := connect worker_id srv in
      let srv := if carried_out then (try_advisory_lock conn key srv).2 else srv in
      (Err (LeaseQuery role source), drop_conn lingers conn srv)
  | Answered =>
      let '(conn, srv) := connect worker_id srv in
      let '(acquired, srv) := try_advisory_lock conn key srv in
      if acquired then (Ok (Some (mkLease conn role)), srv)
      else (Ok None, end_session conn srv)
  end.

Definition release (lease : RoleLease) (key : Z) (x : exchange) (srv : server)
  : result unit LeaseError * server :=
  match x with
  | Answered =>
      let '(_, srv) := advisory_unlock (lease_conn lease) key srv in
      (Ok tt, end_session (lease_conn lease) srv)
  | NoConnection source => (Err (LeaseQuery (lease_role lease) source), end_session (lease_conn lease) srv)
  | NoAnswer source carried_out lingers =>
      let srv := if carried_out then (advisory_unlock (lease_conn lease) key srv).2 else srv in
      (Err (LeaseQuery (lease_role lease) source), drop_conn lingers (lease_conn lease) srv)
  end.

(** ** [run_singleton]

    [Leading]: the role's own loop, which never returns, runs until the
    shutdown. *)
Inductive task := Trying | Waiting | Leading (lease : RoleLease) | Returned.

Inductive happening :=
| Tries (x : exchange)
| Elapses
| ShutsDown (x : exchange).

Definition run_singleton (role : Role) (worker : text) (key : Z) (h : happening) (t : task) (srv : server)
  : option (task * server) :=
  match t, h with
  | Trying, ShutsDown _ => Some (Returned, srv)
  | Trying, Tries x =>
      let '(acquired, srv) := try_acquire role worker key x srv in
      match acquired with
      | Ok (Some held) => Some (Leading held, srv)
      | Ok None | Err _ => Some (Waiting, srv)
      end
  | Leading held, ShutsDown x => Some (Returned, (release held key x srv).2)
  | Waiting, ShutsDown _ => Some (Returned, srv)
  | Waiting, Elapses => Some (Trying, srv)
  | _, _ => None
  end.

(** ** A deployment *)
Record node := mkNode {
  n_role : Role;
  n_worker : text;
  n_task : task }.

Definition deployment : Type := list node * server.

Definition leads (n : node) (s : session) : Prop := exists lease, n_task n = Leading lease /\ lease_conn lease = s.

(** A node moves; a process is killed, and its session with it, at once or
    later; the server ends a session. *)
Variable may_end : deployment -> session -> Prop.

Inductive deployment_step : deployment -> deployment -> Prop :=
| node_moves ns srv i n key h t' srv' :
    ns !! i = Some n -> advisory_lock_key (n_role n) = Some key ->
    run_singleton (n_role n) (n_worker n) key h (n_task n) srv = Some (t', srv') ->
    deployment_step (ns, srv) (<[i := mkNode (n_role n) (n_worker n) t']> ns, srv')
| node_killed ns srv i n :
    ns !! i = Some n ->
    deployment_step (ns, srv) (<[i := mkNode (n_role n) (n_worker n) Returned]> ns, srv)
| session_ends ns srv s :
    may_end (ns, srv) s -> deployment_step (ns, srv) (ns, end_session s srv).

Definition deployed (roles : list (Role * text)) (srv : server) : deployment :=
  ((fun rw => mkNode rw.1 rw.2 Trying) <$> roles, srv).

End Leases.

(** ** Exclusion *)
Section Exclusion.

Context `{L : AdvisoryLocks} `{S : !AdvisoryLocksSound}.

(** What a change of the server leaves a session. *)
Definition keeps (s : session) (srv srv' : server) : Prop :=
  (forall key, holder srv key = Some s -> holder srv' key = Some s) /\
  (ever_session srv s = true -> ever_session srv' s = true).

Lemma keeps_trans s a b c : keeps s a b -> keeps s b c -> keeps s a c.
Proof. intros [Ha Hb] [Hc Hd]. split; auto. Qed.

Lemma connect_keeps name srv s : keeps s srv (connect name srv).2.
Proof. split; [intros key; by rewrite connect_holder | apply connect_known]. Qed.

Lemma end_keeps s s' srv : s <> s' -> keeps s srv (end_session s' srv).
Proof. intros Hne. split; [intros key; by apply end_other | by rewrite end_known]. Qed.

Lemma unlock_keeps s s' key srv : s <> s' -> keeps s srv (advisory_unlock s' key srv).2.
Proof. intros Hne. split; [intros key'; by apply unlock_holder | by rewrite unlock_known]. Qed.

Lemma try_lock_keeps s s' key srv : s <> s' -> keeps s srv (try_advisory_lock s' key srv).2.
Proof.
  intros Hne. split; [|by rewrite try_lock_known]. intros key' Hh.
  destruct (try_advisory_lock s' key srv) as [[] srv'] eqn:Ht; cbn [snd].
  - apply try_lock_granted in Ht as ([Hno|Hno] & _ & Hother); destruct (decide (key' = key)) as [->|];
      [congruence | by rewrite Hother | congruence | by rewrite Hother].
  - by rewrite (try_lock_refused _ _ _ _ Ht).
Qed.

Lemma drop_keeps s s' lingers srv : s <> s' -> keeps s srv (drop_conn lingers s' srv).
Proof. intros Hne. destruct lingers; [by split | by apply end_keeps]. Qed.

(** An attempt takes nothing from anyone. *)
Lemma try_acquire_keeps role worker key x srv s :
  ever_session srv s = true -> keeps s srv (try_acquire role worker key x srv).2.
Proof.
  intros Hs. destruct x as [source|source carried_out lingers|]; cbn [try_acquire]; [by split| |].
  all: pose proof (connect_keeps worker srv s) as Hc.
  all: destruct (connect worker srv) as [conn srv1] eqn:Hcn; cbn [snd] in Hc.
  all: apply connect_fresh in Hcn as [Hf _].
  all: assert (s <> conn) as Hne by (intros ->; congruence).
  - cbn [snd]. eapply keeps_trans; [exact Hc|].
    eapply keeps_trans; [|by apply drop_keeps]. destruct carried_out; [by apply try_lock_keeps | by split].
  - pose proof (try_lock_keeps s conn key srv1 Hne) as Ht.
    destruct (try_advisory_lock conn key srv1) as [[] srv2]; cbn [snd] in *; [by eapply keeps_trans|].
    eapply keeps_trans; [exact Hc|]. eapply keeps_trans; [exact Ht|]. by apply end_keeps.
Qed.

Lemma try_acquire_wins role worker key x srv lease srv' :
  try_acquire role worker key x srv = (Ok (Some lease), srv') ->
  lease_role lease = role /\ holder srv' key = Some (lease_conn lease) /\
  ever_session srv (lease_conn lease) = false /\ ever_session srv' (lease_conn lease) = true.
Proof.
  destruct x as [source|source carried_out lingers|]; cbn [try_acquire]; [done| |];
    destruct (connect worker srv) as [conn srv1] eqn:Hcn; [done|].
  apply connect_fresh in Hcn as [Hf Hk]. pose proof (try_lock_known conn key srv1 conn) as Htk.
  destruct (try_advisory_lock conn key srv1) as [[] srv2] eqn:Ht; [|done].
  intros [= <- <-]. apply try_lock_granted in Ht as (_ & Hh & _). cbn in *. by rewrite Htk.
Qed.

Lemma release_keeps lease key x srv s :
  s <> lease_conn lease -> keeps s srv (release lease key x srv).2.
Proof.
  intros Hne. destruct x as [source|source carried_out lingers|]; cbn [release snd].
  - by apply end_keeps.
  - eapply keeps_trans; [|by apply drop_keeps]. destruct carried_out; [by apply unlock_keeps | by split].
  - pose proof (unlock_keeps s (lease_conn lease) key srv Hne) as Hu.
    destruct (advisory_unlock (lease_conn lease) key srv) as [b srv']. cbn [snd] in *.
    eapply keeps_trans; [exact Hu|]. by apply end_keeps.
Qed.

(** Every leader holds its role's lock, each under a session of its own. *)
Definition leads_at (d : deployment) (i : nat) (role : Role) (s : session) : Prop :=
  exists n, d.1 !! i = Some n /\ n_role n = role /\ leads n s.

Definition leaders_hold (d : deployment) : Prop :=
  (forall i role s, leads_at d i role s -> ever_session d.2 s = true /\
     forall key, advisory_lock_key role = Some key -> holder d.2 key = Some s) /\
  forall i j role role' s, leads_at d i role s -> leads_at d j role' s -> i = j.

(** A leader's session is not ended by the server. *)
Definition idle_sessions_end (d : deployment) (s : session) : Prop :=
  forall i role, ~ leads_at d i role s.

Lemma leads_at_insert ns srv srv' i role worker t j role' s :
  leads_at (<[i := mkNode role worker t]> ns, srv') j role' s ->
  (j = i /\ role' = role /\ exists lease, t = Leading lease /\ lease_conn lease = s) \/
  (j <> i /\ leads_at (ns, srv) j role' s).
Proof.
  intros (n & Hn & Hr & Hl). cbn in Hn. destruct (decide (j = i)) as [->|Hne].
  - left. destruct (decide (i < length ns)%nat) as [Hlt|Hge].
    + rewrite list_lookup_insert_eq in Hn by done. injection Hn as <-. by split_and!.
    + rewrite list_insert_ge, lookup_ge_None_2 in Hn by lia. done.
  - right. rewrite list_lookup_insert_ne in Hn by done. split; [done|]. by exists n.
Qed.

(** The leaders after node [i] moved on without a lease, or with a new one. *)
Lemma leaders_hold_move ns srv srv' i role worker t :
  leaders_hold (ns, srv) ->
  (forall j role' s, j <> i -> leads_at (ns, srv) j role' s -> keeps s srv srv') ->
  (forall lease, t = Leading lease -> ever_session srv' (lease_conn lease) = true /\
     (forall key, advisory_lock_key role = Some key -> holder srv' key = Some (lease_conn lease)) /\
     forall j role' s, j <> i -> leads_at (ns, srv) j role' s -> s <> lease_conn lease) ->
  leaders_hold (<[i := mkNode role worker t]> ns, srv').
Proof.
  intros [Hold Hone] Hkeep Hnew. split.
  - intros j role' s [(-> & -> & lease & -> & <-)|[Hne Hl]]%(leads_at_insert ns srv).
    + by destruct (Hnew lease eq_refl) as (? & ? & _).
    + destruct (Hkeep j role' s Hne Hl) as [Hh He]. destruct (Hold j role' s Hl) as [Hs Hk]. cbn in *. auto.
  - intros j k r r' s [(-> & _ & lease & -> & <-)|[Hnj Hj]]%(leads_at_insert ns srv)
      [(-> & _ & lease' & Ht & Hs)|[Hnk Hk]]%(leads_at_insert ns srv).
    + done.
    + by destruct (Hnew lease eq_refl) as (_ & _ & Hf); destruct (Hf k r' _ Hnk Hk).
    + destruct (Hnew lease' Ht) as (_ & _ & Hf). by destruct (Hf j r s Hnj Hj).
    + by eapply Hone.
Qed.

Lemma leaders_hold_step d d' :
  deployment_step idle_sessions_end d d' -> leaders_hold d -> leaders_hold d'.
Proof.
  intros Hstep Hinv. destruct Hstep as [ns srv i n key h t' srv' Hn Hkey Hrun|ns srv i n Hn|ns srv s Hs].
  - assert (forall j role s, leads_at (ns, srv) j role s -> ever_session srv s = true) as Hever
      by (intros j role s Hl; by apply (proj1 Hinv) in Hl as [? _]).
    unfold run_singleton in Hrun. destruct (n_task n) as [| |held|] eqn:Ht, h as [x| |x]; try done.
    + pose proof (fun s => try_acquire_keeps (n_role n) (n_worker n) key x srv s) as Hkeep.
      destruct (try_acquire (n_role n) (n_worker n) key x srv) as [got srv1] eqn:Hta. cbn [snd] in Hkeep.
      assert (srv1 = srv') as -> by (by destruct got as [[lease|]|e]; injection Hrun as _ ->).
      apply leaders_hold_move with (srv := srv); [done | intros; eapply Hkeep; eauto|].
      intros lease ->. destruct got as [[l|]|e]; try done. injection Hrun as ->.
      apply try_acquire_wins in Hta as (_ & Hh & Hf & Hk). split_and!; [done | |].
      * intros key'. rewrite Hkey. by intros [= <-].
      * intros j role s _ Hl ->. apply Hever in Hl. congruence.
    + injection Hrun as <- <-. apply leaders_hold_move with (srv := srv); [done | by split | done].
    + injection Hrun as <- <-. apply leaders_hold_move with (srv := srv); [done | by split | done].
    + injection Hrun as <- <-. apply leaders_hold_move with (srv := srv); [done | by split | done].
    + injection Hrun as <- <-. apply leaders_hold_move with (srv := srv); [done | | done].
      intros j role s Hne Hl. apply release_keeps. intros ->. apply Hne.
      apply (proj2 Hinv j i role (n_role n) (lease_conn held) Hl). exists n. split_and!; [done | done|]. by exists held.
  - apply leaders_hold_move with (srv := srv); [done | by split | done].
  - destruct Hinv as [Hold Hone]. split; [|exact Hone]. intros i role s' Hl.
    destruct (Hold i role s' Hl) as [He Hk]. assert (s' <> s) as Hne by (intros ->; by eapply Hs).
    destruct (end_keeps s' s srv Hne) as [Hh Hev]. cbn in *. auto.
Qed.

Lemma leaders_hold_run d d' :
  rtc (deployment_step idle_sessions_end) d d' -> leaders_hold d -> leaders_hold d'.
Proof. induction 1 as [|d d1 d' Hs _ IH]; [done|]. intros Hd. by eapply IH, leaders_hold_step. Qed.

Lemma deployed_no_leader roles srv : leaders_hold (deployed roles srv).
Proof.
  split; [intros i role s (n & Hn & _ & lease & Hl & _) | intros i j r r' s (n & Hn & _ & lease & Hl & _)];
    apply list_lookup_fmap_Some in Hn as (rw & -> & _); done.
Qed.

End Exclusion.

(** C32. A singleton role runs once.  Whatever happens to the nodes (lost
    attempts, shut-downs, kills) and however their moves interleave, as long as
    the server ends no running leader's session, no two nodes run the same
    role; and an attempt that the server answers while nobody holds the role's
    lock wins it. *)
Theorem singleton_exclusive `{L : AdvisoryLocks} `{S : !AdvisoryLocksSound} roles srv d :
  rtc (deployment_step idle_sessions_end) (deployed roles srv) d ->
  (forall i j role s s', leads_at d i role s -> leads_at d j role s' -> i = j) /\
  forall i n key, d.1 !! i = Some n -> n_task n = Trying -> advisory_lock_key (n_role n) = Some key ->
    holder d.2 key = None ->
    exists d' s, deployment_step idle_sessions_end d d' /\ leads_at d' i (n_role n) s.
Proof.
  intros Hr. assert (leaders_hold d) as [Hold Hone].
  { eapply leaders_hold_run; [exact Hr | apply deployed_no_leader]. }
  split.
  - intros i j role s s' Hi Hj. destruct (role_has_key role) as (key & Hk & _).
    apply Hold in Hi as Hi'. apply Hold in Hj as Hj'. destruct Hi' as [_ Hi'], Hj' as [_ Hj'].
    specialize (Hi' key Hk). specialize (Hj' key Hk). rewrite Hi' in Hj'. injection Hj' as <-. by eapply Hone.
  - intros i n key Hn Ht Hk Hfree. destruct d as [ns srv']. cbn in *.
    destruct (connect (n_worker n) srv') as [conn srv1] eqn:Hc.
    pose proof (connect_holder (n_worker n) srv' key) as Hh. rewrite Hc, Hfree in Hh. cbn in Hh.
    pose proof (try_lock_free conn key srv1 Hh) as Hwin.
    destruct (try_advisory_lock conn key srv1) as [b srv2] eqn:Hl. cbn in Hwin. subst b.
    eexists _, conn. split.
    + eapply (node_moves _ _ _ _ _ _ (Tries Answered)); [exact Hn | exact Hk|].
      unfold run_singleton. rewrite Ht. cbn [try_acquire]. rewrite Hc, Hl. reflexivity.
    + eexists. cbn. split; [apply list_lookup_insert_eq; by eapply lookup_lt_Some|]. split; [done|].
      eexists. split; [done | done].
Qed.

(** ** Examples *)
Section Demo.

(** A server that keeps the locks and the number of sessions so far. *)
Definition demo_locks : AdvisoryLocks := {|
  server := gmap Z session * session;
  holder := fun srv key => srv.1 !! key;
  ever_session := fun srv s => (s <? srv.2)%nat;
  connect := fun _ srv => (srv.2, (srv.1, Nat.succ srv.2));
  try_advisory_lock := fun s key srv =>
    match srv.1 !! key with
    | None => (true, (<[key := s]> srv.1, srv.2))
    | Some s' => (bool_decide (s' = s), srv)
    end;
  advisory_unlock := fun s key srv =>
    if bool_decide (srv.1 !! key = Some s) then (true, (delete key srv.1, srv.2)) else (false, srv);
  end_session := fun s srv => (filter (fun kv => kv.2 <> s) srv.1, srv.2) |}.

#[local] Existing Instance demo_locks.

Lemma demo_locks_sound : AdvisoryLocksSound.
Proof.
  split.
  - intros name [l n] s srv' [= <- <-]. split; [apply Nat.ltb_irrefl | apply Nat.ltb_lt, Nat.lt_succ_diag_r].
  - intros name [l n] s. cbn [ever_session demo_locks connect snd]. rewrite !Nat.ltb_lt. apply Nat.lt_lt_succ_r.
  - by intros name [l n] key.
  - intros s key [l n] srv'. cbn. destruct (l !! key) as [s'|] eqn:Hl.
    + case_bool_decide as He; [|done]. subst s'. intros [= <-]. by split_and!; [right|..].
    + intros [= <-]. cbn. split_and!; [by left | apply lookup_insert_eq|]. intros key' Hne.
      by apply lookup_insert_ne.
  - intros s key [l n] srv'. cbn. destruct (l !! key) as [s'|]; [|done]. case_bool_decide; [done|].
    by intros [= <-].
  - intros s key [l n]. cbn. by intros ->.
  - intros s key [l n] s'. cbn. by destruct (l !! key).
  - intros s key [l n] s' key'. cbn. intros Hne Hh. case_bool_decide as Hs; [|done]. cbn.
    rewrite lookup_delete_ne; [done|]. intros ->. rewrite Hh in Hs. by injection Hs.
  - intros s key [l n] s'. cbn. by case_bool_decide.
  - by intros s [l n] s'.
  - intros s [l n] key. cbn. intros Hh. apply map_lookup_filter_None_2. right. intros x Hx. rewrite Hh in Hx.
    injection Hx as <-. by intros [].
  - intros s [l n] key s'. cbn. intros Hne Hh. by apply map_lookup_filter_Some_2.
Qed.

#[local] Existing Instance demo_locks_sound.

Definition empty_server : @server demo_locks := (∅, 0%nat).

Definition two_dispatchers : list (Role * text) := [(Dispatch, lit "node-a"); (Dispatch, lit "node-b")].

(** The state after a list of moves of the nodes. *)
Fixpoint after (moves : list (nat * happening)) (d : deployment) : deployment :=
  match moves with
  | [] => d
  | (i, h) :: rest =>
      match d.1 !! i ≫= (fun n => key ← advisory_lock_key (n_role n);
                                  r ← run_singleton (n_role n) (n_worker n) key h (n_task n) d.2;
                                  Some (mkNode (n_role n) (n_worker n) r.1, r.2)) with
      | Some (n, srv) => after rest (<[i := n]> d.1, srv)
      | None => after rest d
      end
  end.

Lemma after_steps may_end moves d : rtc (deployment_step may_end) d (after moves d).
Proof.
  revert d. induction moves as [|[i h] moves IH]; intros [ns srv]; cbn [after fst snd]; [apply rtc_refl|].
  destruct (ns !! i) as [n|] eqn:Hn; cbn [mbind option_bind]; [|apply IH].
  destruct (advisory_lock_key (n_role n)) as [key|] eqn:Hk; cbn [mbind option_bind]; [|apply IH].
  destruct (run_singleton _ _ key h (n_task n) srv) as [[t srv']|] eqn:Hr; cbn [mbind option_bind]; [|apply IH].
  eapply rtc_l; [by eapply node_moves|]. apply IH.
Qed.

Definition both_tried : deployment :=
  after [(0%nat, Tries Answered); (1%nat, Tries Answered); (1%nat, Elapses)] (deployed two_dispatchers empty_server).

Lemma singleton_exclusive_witness :
  leads_at both_tried 0%nat Dispatch 0%nat /\ forall s, ~ leads_at both_tried 1%nat Dispatch s.
Proof.
  assert (leads_at both_tried 0%nat Dispatch 0%nat) as H0
    by (vm_compute; eexists; split; [reflexivity|]; split; [reflexivity|]; eexists; split; reflexivity).
  split; [exact H0|]. intros s H1.
  destruct (@singleton_exclusive demo_locks demo_locks_sound two_dispatchers empty_server both_tried (after_steps _ _ _)) as [Hone _].
  discriminate (Hone 0%nat 1%nat Dispatch 0%nat s H0 H1).
Defined.

(** A leader does not watch its session: when the server ends it (a lost
    connection, a fail-over), the next attempt of a standby wins the lock while
    the old leader still runs the role, so two nodes run it. *)
Theorem lost_session_two_leaders :
  exists d, rtc (deployment_step (fun _ _ => True)) (deployed two_dispatchers empty_server) d /\
    leads_at d 0%nat Dispatch 0%nat /\ leads_at d 1%nat Dispatch 2%nat.
Proof.
  exists (after [(1%nat, Tries Answered)] (both_tried.1, end_session 0%nat both_tried.2)). split.
  - etrans; [apply after_steps|]. eapply rtc_l; [|apply after_steps].
    rewrite (surjective_pairing (after _ _)). by apply session_ends.
  - split; vm_compute; eexists; (split; [reflexivity|]); (split; [reflexivity|]); eexists; split; reflexivity.
Qed.

End Demo.
