(* ===== verification/Adapter.v ===== *)
(** * The provider trait and what its implementations run on

    The adapters of the providers (sms-provider-mtn, sms-provider-orange-cm,
    sms-provider-aws-sms) are asynchronous functions over HTTP exchanges, the
    two clocks and the fields an adapter keeps behind a lock.  An [adapter]
    program is the tree of what it awaits, with a continuation per reply; a
    critical section ([Locked]) runs at once on the fields, at an instant of
    the monotonic clock, and may panic.

    [awp] quantifies over everything that may come back and over the critical
    sections of other tasks in between; [apool_sound] carries it to any number
    of tasks of one adapter running side by side.

    Also here: the trait itself (sms-provider lib.rs, capabilities.rs, the rest
    of types.rs), the classification of a transport failure
    (sms-provider-http/src/transport.rs) and the parts of the standard library
    the token caches use.  Instants of the monotonic clock and the durations
    added to them are counted in nanoseconds. *)

From Stdlib Require Import SpecFloat.
From S2P Require Import Prelude Float64 ProviderApi Schema WorkerRouting Dlr AuditChain.
From S2P Require Import Sql.

(** ** capabilities.rs and types.rs *)
Record Capabilities := mkCapabilities {
  cap_dlr : bool;
  cap_alphanumeric_sender : bool;
  cap_ucs2 : bool;
  cap_concatenation : bool;
  cap_tps_ceiling : f64;
  cap_cost_per_segment_xaf : Decimal }.

Inductive CallbackDisposition :=
| Ingest
| Acknowledged (detail : text)
| Refused (reason : text).

Record Health := mkHealth {
  h_healthy : bool;
  h_checked_at : Z;
  h_detail : option text }.

(** ** reqwest and url

    The HTTP client is a library: a call is answered with a transport error,
    of which the code looks at three properties and the text, or with a
    response whose body arrives in chunks and may break off.  URLs are parsed
    and printed by the url crate. *)
Class ReqwestLib := {
  url : Type;
  url_parse : text -> result url text;
  url_set_path : text -> url -> url;
  url_set_query : option text -> url -> url;
  url_extend : list text -> url -> option url;
  url_str : url -> text;
  url_scheme : url -> text;
  url_host : url -> option text;
  url_port : url -> option Z;
  url_username : url -> text;
  url_password : url -> option text;
  url_authority : url -> text;
  url_path : url -> text;
  url_query : url -> option text;
  url_fragment : url -> option text;
  display_status : Z -> text;
  decode_display : text -> text;
  body_text : list (text * list Z) -> list Z -> text }.

Record TransportError := mkTransport {
  te_connect : bool;
  te_timeout : bool;
  te_body : bool;
  te_display : text }.

Inductive Credentials :=
| NoCredentials
| Basic (user password : text)
| Bearer (token : text).

Inductive Payload :=
| NoPayload
| Form (fields : list (text * text))
| JsonPayload (value : Json)
| RawPayload (bytes : list Z).

Inductive HttpMethod := GET | POST.

Record HttpCall := mkHttpCall {
  hc_method : HttpMethod;
  hc_url : text;
  hc_auth : Credentials;
  hc_headers : list (text * text);
  hc_body : Payload }.

Record Response := mkResponse {
  rs_status : Z;
  rs_headers : list (text * list Z);
  rs_content_length : option Z;
  rs_chunks : list (list Z);
  rs_broken : option text }.

(** [StatusCode::is_success]. *)
Definition is_success (status : Z) : bool := (200 <=? status) && (status <? 300).

(** [Response::bytes], [Response::text] and [Response::json]: the whole body,
    or the error the transfer ended in. *)
Definition rs_bytes (r : Response) : result (list Z) text :=
  match rs_broken r with
  | Some error => Err error
  | None => Ok (concat (rs_chunks r))
  end.

Definition rs_text `{ReqwestLib} (r : Response) : result text text :=
  match rs_bytes r with
  | Ok bytes => Ok (body_text (rs_headers r) bytes)
  | Err error => Err error
  end.

Definition rs_json `{ReqwestLib} {A} (decode : list Z -> result A text) (r : Response)
  : result A text :=
  match rs_bytes r with
  | Ok bytes => map_err decode_display (decode bytes)
  | Err error => Err error
  end.

(** [.text().await.unwrap_or_default()]. *)
Definition text_or_default `{ReqwestLib} (r : Response) : text :=
  match rs_text r with Ok t => t | Err _ => [] end.

(** ** transport.rs *)
Definition classify_transport_error (error : TransportError) (provider : text) : ProviderError :=
  if te_connect error then
    Unavailable (lit "submit request failed to connect: " ++ te_display error)
      (Some (te_display error))
  else if te_timeout error || te_body error then
    Indeterminate (lit "submit request timed out or was interrupted after the connection was already established; "
      ++ provider ++ lit " may have received it: " ++ te_display error) (Some (te_display error))
  else Unavailable (lit "submit request failed: " ++ te_display error) (Some (te_display error)).

(** ** Time *)
Definition NANOS_PER_SEC : Z := 1000000000.

(** The integer nearest to [num / den], ties to even. *)
Definition round_half_even (num den : Z) : Z :=
  let q := num / den in let r := num mod den in
  if 2 * r <? den then q
  else if den <? 2 * r then q + 1
  else if Z.even q then q else q + 1.

(** [Duration::from_secs_f64]: [None] is its panic on a negative, infinite or
    too large number. *)
Definition from_secs_f64 (x : f64) : option Z :=
  match x with
  | S754_zero _ => Some 0
  | S754_finite false m e =>
      let nanos := if 0 <=? e then Z.pos m * 2 ^ e * NANOS_PER_SEC
                   else round_half_even (Z.pos m * NANOS_PER_SEC) (2 ^ (- e)) in
      if nanos / NANOS_PER_SEC <? 2 ^ 64 then Some nanos else None
  | _ => None
  end.

(** [Duration::as_secs_f64] of a whole number of seconds. *)
Definition as_secs_f64 (secs : Z) : f64 :=
  f64_add (f64_of_Z secs) (f64_div (f64_of_Z 0) (f64_of_Z NANOS_PER_SEC)).

(** [Instant + Duration]: the seconds are an [i64], and leaving it panics. *)
Definition instant_add (now d : Z) : option Z :=
  if (now + d) / NANOS_PER_SEC <? 2 ^ 63 then Some (now + d) else None.

(** ** The fields behind an adapter's locks

    The token cache of the MTN and Orange adapters; the certificates and the
    time of the last fetch of the AWS adapter. *)
Record CachedToken := mkToken {
  ct_access_token : text;
  ct_valid_until : Z }.

Record AdapterFields := mkFields {
  af_token : option CachedToken;
  af_certs : gmap text (list Z);
  af_last_uncached_fetch : option Z }.

Definition fresh_fields : AdapterFields := mkFields None ∅ None.

Definition set_token (t : option CachedToken) (st : AdapterFields) : AdapterFields :=
  mkFields t (af_certs st) (af_last_uncached_fetch st).

Definition set_certs (c : gmap text (list Z)) (st : AdapterFields) : AdapterFields :=
  mkFields (af_token st) c (af_last_uncached_fetch st).

Definition set_last_fetch (l : option Z) (st : AdapterFields) : AdapterFields :=
  mkFields (af_token st) (af_certs st) l.

(** ** Adapter programs *)
Inductive adapter (A : Type) : Type :=
| ARet (a : A)
| APanic
| Locked {B : Type} (section : Z -> AdapterFields -> option (B * AdapterFields)) (k : B -> adapter A)
| Http (c : HttpCall) (k : result Response TransportError -> adapter A)
| UtcNow (k : Z -> adapter A).
Arguments ARet {A} a.
Arguments APanic {A}.
Arguments Locked {A B} section k.
Arguments Http {A} c k.
Arguments UtcNow {A} k.

Fixpoint abind {A B} (p : adapter A) (f : A -> adapter B) : adapter B :=
  match p with
  | ARet a => f a
  | APanic => APanic
  | Locked s k => Locked s (fun r => abind (k r) f)
  | Http c k => Http c (fun r => abind (k r) f)
  | UtcNow k => UtcNow (fun r => abind (k r) f)
  end.

Definition abind_ok {A B X} (p : adapter (result A X)) (f : A -> adapter (result B X))
  : adapter (result B X) :=
  abind p (fun r => match r with Ok a => f a | Err e => ARet (Err e) end).

Declare Scope adapter_scope.
Delimit Scope adapter_scope with adapter.
#[global] Open Scope adapter_scope.

Notation "'leta' x ':=' p 'in' k" := (abind p (fun x => k))
  (at level 10, x pattern, p at level 100, k at level 200) : adapter_scope.

Notation "'leta?' x ':=' p 'in' k" := (abind_ok p (fun x => k))
  (at level 10, x pattern, p at level 100, k at level 200) : adapter_scope.

Definition locked {B} (section : Z -> AdapterFields -> option (B * AdapterFields)) : adapter B :=
  Locked section ARet.

Definition http (c : HttpCall) : adapter (result Response TransportError) := Http c ARet.

Definition utc_now : adapter Z := UtcNow ARet.

Definition alift {A X} (r : result A X) : adapter (result A X) := ARet r.

(** A value that panics when it is missing. *)
Definition or_panic {A} (o : option A) : adapter A :=
  match o with Some a => ARet a | None => APanic end.

Definition amap_err {A X Y} (f : X -> Y) (p : adapter (result A X)) : adapter (result A Y) :=
  abind p (fun r => ARet (map_err f r)).

(** [Health::ok] and [Health::unhealthy]. *)
Definition health_ok : adapter Health :=
  leta now := utc_now in ARet (mkHealth true now None).

Definition health_unhealthy (detail : text) : adapter Health :=
  leta now := utc_now in ARet (mkHealth false now (Some detail)).

(** ** Token caches

    token.rs of the MTN and of the Orange adapter are two copies of one module;
    what they have in common is here. *)
Record TokenResponse := mkTokenResponse {
  access_token : text;
  expires_in : Z }.

(** [TokenCache::valid]. *)
Definition read_token : adapter (option text) :=
  locked (fun now st => Some (
    match af_token st with
    | Some token => if now <? ct_valid_until token then Some (ct_access_token token) else None
    | None => None
    end, st)).

(** [TokenCache::store]. *)
Definition write_token (fraction_of_lifetime : f64) (access_token : text) (expires_in : Z) : adapter unit :=
  leta backed_off := or_panic (from_secs_f64 (f64_mul (as_secs_f64 expires_in) fraction_of_lifetime)) in
  locked (fun now st =>
    match instant_add now backed_off with
    | Some valid_until => Some (tt, set_token (Some (mkToken access_token valid_until)) st)
    | None => None
    end).

(** [fetch] from the reply on. *)
Definition token_answer `{ReqwestLib} (decode : list Z -> result TokenResponse text)
  (reply : result Response TransportError) : result TokenResponse ProviderError :=
  match reply with
  | Err error => Err (Unavailable (lit "token request failed: " ++ te_display error)
                        (Some (te_display error)))
  | Ok response =>
      let status := rs_status response in
      if negb (is_success status) then
        let body := text_or_default response in
        Err (if is_server_error status
             then Unavailable (lit "token endpoint returned " ++ display_status status
                                 ++ lit ": " ++ body) None
             else Permanent (lit "oauth_" ++ show_Z status)
                    (lit "token endpoint rejected credentials: " ++ body))
      else
        map_err (fun error => Unavailable (lit "token response was not valid JSON: " ++ error)
                                (Some error))
          (rs_json decode response)
  end.

(** [access_token]: the cached token while it is valid, else one fetched and
    stored. *)
Definition cached_token (valid : adapter (option text)) (store : text -> Z -> adapter unit)
  (fetch : adapter (result TokenResponse ProviderError)) : adapter (result text ProviderError) :=
  leta cached := valid in
  match cached with
  | Some token => ARet (Ok token)
  | None =>
      leta? fetched := fetch in
      leta _ := store (access_token fetched) (expires_in fetched) in
      ARet (Ok (access_token fetched))
  end.

(** ** The trait *)
Record SmsProvider := mkProvider {
  sp_key : text;
  sp_capabilities : Capabilities;
  sp_submit : SubmitRequest -> adapter (result SubmitAck ProviderError);
  sp_authenticate_callback : RawCallback -> adapter (result CallbackDisposition ProviderError);
  sp_parse_dlr : RawCallback -> result (list DeliveryUpdate) ProviderError;
  sp_poll_status : list text -> adapter (result (list DeliveryUpdate) ProviderError);
  sp_health : adapter Health }.

(** The default methods. *)
Definition default_authenticate_callback (raw : RawCallback)
  : adapter (result CallbackDisposition ProviderError) := ARet (Ok Ingest).

Definition default_poll_status (refs : list text)
  : adapter (result (list DeliveryUpdate) ProviderError) := ARet (Err Unsupported).

(** ** Runs

    An exchange is a call and what came back; a log lists the exchanges of all
    tasks of the adapter so far, latest first. *)
Abbreviation exchange := (HttpCall * result Response TransportError)%type.

Section Runs.

(** What the locked fields satisfy whenever no section is running, given the
    log and an instant. *)
Variable I : list exchange -> Z -> AdapterFields -> Prop.

(** [tr] lists the program's own exchanges, latest first; [None] is a panic. *)
Fixpoint awp {A} (p : adapter A) (tr log : list exchange)
  (Q : list exchange -> list exchange -> option A -> Prop) : Prop :=
  match p with
  | ARet a => Q tr log (Some a)
  | APanic => Q tr log None
  | Locked section k =>
      forall log' now st, log ⊆ log' -> I log' now st ->
      match section now st with
      | Some (b, st') => I log' now st' /\ awp (k b) tr log' Q
      | None => Q tr log' None
      end
  | Http c k => forall log' reply, log ⊆ log' -> awp (k reply) ((c, reply) :: tr) ((c, reply) :: log') Q
  | UtcNow k => forall now, awp (k now) tr log Q
  end.

Lemma awp_mono {A} (p : adapter A) tr log (Q Q' : list exchange -> list exchange -> option A -> Prop) :
  (forall tr log o, Q tr log o -> Q' tr log o) -> awp p tr log Q -> awp p tr log Q'.
Proof.
  intros HQ. revert tr log. induction p as [a| |B s k IH|c k IH|k IH]; intros tr log; cbn; auto.
  - intros H log' now st Hl Hi. specialize (H log' now st Hl Hi).
    destruct (s now st) as [[b st']|]; [|by apply HQ]. split; [apply H|]. by apply IH, H.
Qed.

Lemma awp_bind {A B} (p : adapter A) (f : A -> adapter B) tr log Q :
  awp p tr log (fun tr log o => match o with Some a => awp (f a) tr log Q | None => Q tr log None end) ->
  awp (abind p f) tr log Q.
Proof.
  revert tr log. induction p as [a| |C s k IH|c k IH|k IH]; intros tr log; cbn; auto.
  intros H log' now st Hl Hi. specialize (H log' now st Hl Hi).
  destruct (s now st) as [[b st']|]; [|done]. split; [apply H|]. by apply IH, H.
Qed.

Lemma awp_bind_ok {A B X} (p : adapter (result A X)) (f : A -> adapter (result B X)) tr log Q :
  awp p tr log (fun tr log o =>
    match o with
    | Some (Ok a) => awp (f a) tr log Q
    | Some (Err e) => Q tr log (Some (Err e))
    | None => Q tr log None
    end) ->
  awp (abind_ok p f) tr log Q.
Proof.
  intros H. apply awp_bind. eapply awp_mono; [|exact H]. by intros tr' log' [[a|e]|].
Qed.

End Runs.

(** ** Tasks side by side

    Any number of tasks of one adapter share its fields; the clock moves on,
    and an exchange may be answered with anything. *)
Section Pool.

Context {A : Type}.

Record asystem := mkSystem {
  as_clock : Z;
  as_fields : AdapterFields;
  as_log : list exchange;
  as_tasks : list (adapter A) }.

Inductive apool_step : asystem -> asystem -> Prop :=
| apool_wait now st log ps now' : now <= now' ->
    apool_step (mkSystem now st log ps) (mkSystem now' st log ps)
| apool_locked now st log ps i B (s : Z -> AdapterFields -> option (B * AdapterFields)) k b st' :
    ps !! i = Some (Locked s k) -> s now st = Some (b, st') ->
    apool_step (mkSystem now st log ps) (mkSystem now st' log (<[i := k b]> ps))
| apool_panic now st log ps i B (s : Z -> AdapterFields -> option (B * AdapterFields)) k :
    ps !! i = Some (Locked s k) -> s now st = None ->
    apool_step (mkSystem now st log ps) (mkSystem now st log (<[i := APanic]> ps))
| apool_http now st log ps i c k reply : ps !! i = Some (Http c k) ->
    apool_step (mkSystem now st log ps) (mkSystem now st ((c, reply) :: log) (<[i := k reply]> ps))
| apool_utc now st log ps i k t : ps !! i = Some (UtcNow k) ->
    apool_step (mkSystem now st log ps) (mkSystem now st log (<[i := k t]> ps)).

Variable I : list exchange -> Z -> AdapterFields -> Prop.
Hypothesis I_mono : forall log now st log' now',
  I log now st -> log ⊆ log' -> now <= now' -> I log' now' st.

Variable Q : list exchange -> list exchange -> option A -> Prop.
Hypothesis Q_mono : forall tr log log' o, Q tr log o -> log ⊆ log' -> Q tr log' o.

Lemma awp_log_mono (p : adapter A) tr log log' : awp I p tr log Q -> log ⊆ log' -> awp I p tr log' Q.
Proof.
  revert tr log log'. induction p as [a| |B s k IH|c k IH|k IH]; intros tr log log'; cbn; intros H Hl.
  - by eapply Q_mono.
  - by eapply Q_mono.
  - intros l now st Hl' Hi. apply H; [by etrans | done].
  - intros l reply Hl'. apply H. by etrans.
  - intros now. by eapply IH.
Qed.

Definition apool_ok (s : asystem) : Prop :=
  I (as_log s) (as_clock s) (as_fields s) /\
  Forall (fun p => exists tr, awp I p tr (as_log s) Q) (as_tasks s).

(** A task moves, the others see only a longer log. *)
Lemma tasks_step (ps : list (adapter A)) log log' i p :
  Forall (fun p => exists tr, awp I p tr log Q) ps -> log ⊆ log' ->
  (exists tr, awp I p tr log' Q) ->
  Forall (fun p => exists tr, awp I p tr log' Q) (<[i := p]> ps).
Proof.
  intros Ht Hl Hp. apply Forall_insert; [|done].
  eapply Forall_impl; [exact Ht|]. intros q [tr Hw]. exists tr. by eapply awp_log_mono.
Qed.

Lemma apool_ok_step s s' : apool_ok s -> apool_step s s' -> apool_ok s'.
Proof.
  intros [Hi Ht] Hs.
  destruct Hs as [now st log ps now' Hle|now st log ps i B s k b st' Hp Hb|now st log ps i B s k Hp Hb
    |now st log ps i c k reply Hp|now st log ps i k t Hp]; cbn in *; [by split; [eapply I_mono|]|..];
    destruct (Forall_lookup_1 _ _ _ _ Ht Hp) as [tr Hw]; cbn in Hw.
  - specialize (Hw log now st (reflexivity _) Hi). rewrite Hb in Hw. destruct Hw as [Hi' Hw].
    split; [done|]. eapply tasks_step; [done..|]. by exists tr.
  - specialize (Hw log now st (reflexivity _) Hi). rewrite Hb in Hw.
    split; [done|]. eapply tasks_step; [done..|]. by exists tr.
  - split; [eapply I_mono; [done | set_solver | done]|].
    eapply tasks_step; [done | set_solver |]. eexists. by apply Hw.
  - split; [done|]. eapply tasks_step; [done..|]. by exists tr.
Qed.

(** In any run of tasks that satisfy [awp], the fields keep their invariant
    and a task that has returned satisfies its postcondition. *)
Theorem apool_sound st ps s :
  I [] 0 st -> Forall (fun p => awp I p [] [] Q) ps ->
  rtc apool_step (mkSystem 0 st [] ps) s ->
  I (as_log s) (as_clock s) (as_fields s) /\
  forall i a, as_tasks s !! i = Some (ARet a) -> exists tr, Q tr (as_log s) (Some a).
Proof.
  intros Hi Hp Hr.
  assert (apool_ok s) as [Hi' Ht].
  { cut (apool_ok (mkSystem 0 st [] ps)).
    - clear Hi Hp. induction Hr as [|a b c Hab _ IH]; [done|]. intros H. by eapply IH, apool_ok_step.
    - split; [done|]. eapply Forall_impl; [exact Hp|]. intros p Hw. by exists []. }
  split; [done|]. intros i a Ha. by destruct (Forall_lookup_1 _ _ _ _ Ht Ha) as [tr Hw]; exists tr.
Qed.

End Pool.

Arguments asystem A : clear implicits.
Arguments mkSystem {A} _ _ _ _.

(** ** What a submission promises

    An exchange that carries the message is a submission: every other call an
    adapter makes has no body or a form. *)
Definition is_submission (e : exchange) : bool :=
  match hc_body e.1 with JsonPayload _ | RawPayload _ => true | NoPayload | Form _ => false end.

Definition submissions (tr : list exchange) : list exchange := List.filter is_submission tr.

(** The consequences after which the message is handed to a provider again. *)
Definition resubmits (e : ProviderError) : bool :=
  match routing e with
  | RetryThisProvider _ | TryNextRoute | OpenCircuitAndTryNextRoute => true
  | FailMessage | HoldIndeterminate => false
  end.

(** The provider did not take the call: it answered that it did not, or no
    connection to it was ever established. *)
Definition not_taken (reply : result Response TransportError) : bool :=
  match reply with
  | Ok r => negb (is_success (rs_status r))
  | Err e => te_connect e
  end.

(** The call broke off on an established connection, and the client reports
    neither a timeout nor a body cut short: a connection reset while the answer
    is awaited is such a failure.  Whether the provider took the call is not
    known. *)
Definition severed (reply : result Response TransportError) : bool :=
  match reply with
  | Ok _ => false
  | Err e => negb (te_connect e) && negb (te_timeout e) && negb (te_body e)
  end.

(** One submission at most, with the payload of the request; it is acknowledged
    only when the provider took it, with a reference that is what the
    adapter promises of the answer; an error that has the
    message handed on again follows only a submission the provider did not take
    or one that was severed; a delay it asks for is bounded.  A panic comes
    before anything is submitted. *)
Definition submit_once (payload : SubmitRequest -> Payload)
  (acked : SubmitRequest -> Response -> SubmitAck -> Prop) (req : SubmitRequest)
  (tr : list exchange) (out : option (result SubmitAck ProviderError)) : Prop :=
  Forall (fun e => hc_body e.1 = payload req) (submissions tr) /\
  (length (submissions tr) <= 1)%nat /\
  match out with
  | None => submissions tr = []
  | Some (Ok ack) => provider_ref ack <> [] /\
      exists c r, submissions tr = [(c, Ok r)] /\ is_success (rs_status r) = true /\ acked req r ack
  | Some (Err e) => retry_bounded (Err e) /\ (resubmits e = true ->
      Forall (fun e => not_taken e.2 = true \/ severed e.2 = true) (submissions tr))
  end.

(** What every adapter owes the dispatcher: whatever runs beside it and
    whatever the provider answers, a submission is [submit_once]. *)
Class SubmitSound (P : SmsProvider) (payload : SubmitRequest -> Payload)
  (acked : SubmitRequest -> Response -> SubmitAck -> Prop) : Prop :=
  submit_sound req :
    awp (fun _ _ _ => True) (sp_submit P req) [] []
      (fun tr _ out => submit_once payload acked req tr out).

(** ** Shared steps of the proofs *)

(** A delay is asked for only by an error that says so. *)
Definition no_delay (e : ProviderError) : bool :=
  match e with Transient _ _ => false | _ => true end.

Lemma no_delay_bounded e : no_delay e = true -> retry_bounded (Err e).
Proof. by destruct e. Qed.

Lemma transport_no_delay error provider : no_delay (classify_transport_error error provider) = true.
Proof. unfold classify_transport_error. by destruct (te_connect error), (te_timeout error || te_body error). Qed.

Lemma transport_resubmits error provider :
  resubmits (classify_transport_error error provider) = true ->
  not_taken (Err error) = true \/ severed (Err error) = true.
Proof.
  unfold classify_transport_error, resubmits, not_taken, severed.
  destruct (te_connect error), (te_timeout error), (te_body error); cbn; auto.
Qed.

(** A severed submission is handed to the next route: the documentation of
    [Indeterminate] counts a connection reset while awaiting the answer among
    the outcomes that must not be tried again. *)
Lemma severed_resubmitted error provider :
  severed (Err error) = true -> resubmits (classify_transport_error error provider) = true.
Proof.
  unfold classify_transport_error, severed.
  by destruct (te_connect error), (te_timeout error), (te_body error).
Qed.

(** Before anything is submitted every error is fair. *)
Lemma submit_once_before payload acked req tr e :
  submissions tr = [] -> no_delay e = true -> submit_once payload acked req tr (Some (Err e)).
Proof.
  intros H He. unfold submit_once. rewrite H.
  split_and!; [by constructor | cbn; lia | by apply no_delay_bounded | by constructor].
Qed.

Lemma submit_once_panic payload acked req tr :
  submissions tr = [] -> submit_once payload acked req tr None.
Proof. intros H. unfold submit_once. rewrite H. split_and!; [by constructor | cbn; lia | done]. Qed.

(** One submission went out: an error is fair when it does not hand the
    message on, or when the provider did not take it or it was severed. *)
Lemma submit_once_sent payload acked req c reply tr e :
  submissions tr = [] -> hc_body c = payload req -> is_submission (c, reply) = true ->
  retry_bounded (Err e) ->
  (resubmits e = true -> not_taken reply = true \/ severed reply = true) ->
  submit_once payload acked req ((c, reply) :: tr) (Some (Err e)).
Proof.
  intros H Hb Hs Hd He. unfold submit_once, submissions. cbn [List.filter]. rewrite Hs.
  fold (submissions tr). rewrite H. split_and!; [by repeat constructor | cbn; lia | done|].
  intros Hr. constructor; [by apply He | constructor].
Qed.

Lemma submit_once_ack payload acked req c r tr ack :
  submissions tr = [] -> hc_body c = payload req -> is_submission (c, Ok r) = true ->
  is_success (rs_status r) = true -> provider_ref ack <> [] -> acked req r ack ->
  submit_once payload acked req ((c, Ok r) :: tr) (Some (Ok ack)).
Proof.
  intros H Hb Hs Hok Hr Ha. unfold submit_once, submissions. cbn [List.filter]. rewrite Hs.
  fold (submissions tr). rewrite H. split; [by repeat constructor|]. split; [cbn; lia|].
  split; [done|]. by exists c, r.
Qed.

(** A transport error, and an answer that is no success, as the error of a
    submission. *)
Lemma submit_once_transport payload acked req c error tr provider :
  submissions tr = [] -> hc_body c = payload req -> is_submission (c, Err error) = true ->
  submit_once payload acked req ((c, Err error) :: tr) (Some (Err (classify_transport_error error provider))).
Proof.
  intros. apply submit_once_sent; [done.. | |]; [apply no_delay_bounded, transport_no_delay | apply transport_resubmits].
Qed.

Lemma submit_once_refused payload acked req c r tr e :
  submissions tr = [] -> hc_body c = payload req -> is_submission (c, Ok r) = true ->
  retry_bounded (Err e) -> (resubmits e = true -> is_success (rs_status r) = false) ->
  submit_once payload acked req ((c, Ok r) :: tr) (Some (Err e)).
Proof. intros ? ? ? ? He. apply submit_once_sent; [done..|]. intros Hr. left. cbn. by rewrite He. Qed.

Lemma common_status_bounded disp status body provider delay :
  0 <= delay <= RETRY_AFTER_MAX -> retry_bounded (Err (classify_common_submit_status disp status body provider delay)).
Proof. intros H. unfold classify_common_submit_status. destruct (_ =? _); [done|]. by destruct (is_server_error _). Qed.

(** The shared classification hands a message on only for a status that is no
    success. *)
Lemma common_status_resubmits disp status body provider delay :
  resubmits (classify_common_submit_status disp status body provider delay) = true ->
  is_success status = false.
Proof.
  unfold classify_common_submit_status, resubmits, is_server_error, is_success, TOO_MANY_REQUESTS.
  destruct (Z.eqb_spec status 429) as [->|_]; [done|].
  destruct (Z.leb_spec 500 status), (Z.ltb_spec status 600); cbn; intros ?; try done.
  apply andb_false_iff. right. apply Z.ltb_ge. lia.
Qed.

(** What getting a token leaves: nothing was submitted, and no delay is asked
    for. *)
Definition unsubmitted {A} (tr : list exchange) (out : option (result A ProviderError)) : Prop :=
  submissions tr = [] /\ forall e, out = Some (Err e) -> no_delay e = true.

Lemma token_answer_no_delay `{ReqwestLib} decode reply e : token_answer decode reply = Err e -> no_delay e = true.
Proof.
  unfold token_answer. destruct reply as [r|error]; [|by intros [= <-]].
  destruct (negb _); [destruct (is_server_error _); by intros [= <-]|].
  destruct (rs_json _ _); by intros [= <-].
Qed.

(** Getting a token submits nothing when fetching one does not. *)
Lemma cached_token_submits I fraction fetch tr log :
  submissions tr = [] ->
  (forall log now st t, I log now st -> I log now (set_token t st)) ->
  (forall log, awp I fetch tr log (fun tr _ out => unsubmitted tr out)) ->
  awp I (cached_token read_token (write_token fraction) fetch) tr log (fun tr _ out => unsubmitted tr out).
Proof.
  intros Htr HI Hf. unfold cached_token, read_token, locked. cbn [abind awp].
  intros log1 now st Hl Hi. split; [done|].
  destruct (match af_token st with Some _ => _ | None => _ end); [by split|].
  apply awp_bind_ok. eapply awp_mono; [|apply Hf]. intros tr2 log2 [[fetched|e]|] [Htr2 He].
  - unfold write_token. destruct (from_secs_f64 _) as [d|]; [|by split].
    cbn [or_panic abind awp locked]. intros log3 now3 st3 Hl3 Hi3.
    destruct (instant_add _ _); [|by split]. split; [by apply HI | by split].
  - split; [done|]. intros e' [= <-]. by apply He.
  - by split.
Qed.

(** ** A library for examples: https URLs of a host and a path *)
Fixpoint up_to_slash (s : text) : text :=
  match s with
  | [] => []
  | c :: r => if c =? 47 then [] else c :: up_to_slash r
  end.

Definition demo_reqwest : ReqwestLib := {|
  url := text;
  url_parse t := if starts_with t (lit "https://") then Ok t else Err (lit "relative URL without a base");
  url_set_path p u := u ++ p;
  url_set_query q u := match q with Some q => u ++ lit "?" ++ q | None => u end;
  url_extend segs u := Some (u ++ (segs ≫= (fun s => lit "/" ++ s)));
  url_str u := u;
  url_scheme _ := lit "https";
  url_host u := Some (up_to_slash (drop 8 u));
  url_port _ := None;
  url_username _ := [];
  url_password _ := None;
  url_authority u := up_to_slash (drop 8 u);
  url_path u := drop (8 + length (up_to_slash (drop 8 u))) u;
  url_query _ := None;
  url_fragment _ := None;
  display_status := show_Z;
  decode_display e := lit "error decoding response body: " ++ e;
  body_text _ bytes := from_utf8_lossy bytes |}.
