(* ===== verification/MtnProvider.v ===== *)
(** * sms-provider-mtn: the MTN MADAPI adapter

    lib.rs (submission, the subscription to delivery reports), token.rs (the
    token cache) and dlr.rs (the delivery notification).  The decoders serde
    derives for the responses, and RFC 3339, are parameters ([MtnDecoders]). *)

From S2P Require Import Prelude Float64 ProviderApi Schema Sql WorkerRouting Dlr AuditChain Adapter.

Module Mtn.

(** ** Constants and configuration *)
Definition KEY : text := lit "mtn_cm".
Definition PROVIDER_NOUN : text := lit "MTN".
Definition RATE_LIMIT_RETRY_AFTER : duration := seconds 5.
Definition MADAPI_SUCCESS_STATUS_CODE : text := lit "0000".
Definition MAX_CLIENT_CORRELATOR_ID_LEN : Z := 36.

Record MtnConfig := mkConfig {
  client_id : text;
  client_secret : text;
  service_code : text;
  sender_id : option text;
  base_url : text;
  tps_ceiling : f64;
  cost_per_segment_xaf : Decimal;
  supports_alphanumeric_sender : bool;
  connect_timeout : duration;
  request_timeout : duration }.

Definition for_subscription_only (client_id client_secret service_code base_url : text) : MtnConfig :=
  mkConfig client_id client_secret service_code None base_url f64_zero (0, 0) false
    (seconds 10) (seconds 30).

(** ** Wire types *)
Record OutboundSmsMessageRequest := mkOutbound {
  receiver_address : list text;
  message : text;
  client_correlator_id : text;
  ob_service_code : text;
  ob_sender_address : option text;
  request_delivery_receipt : bool }.

Record ResourceReference := mkReference {
  status_code : text;
  status_message : text;
  transaction_id : text }.

Record ShortCodeSubscriptionRequest := mkSubscription {
  callback_url : text;
  target_system : text;
  delivery_report_url : option text;
  sub_service_code : text }.

Record SubscriptionResponse := mkSubscriptionResponse {
  sub_status_code : text;
  sub_status_message : text;
  subscription_id : option text }.

Record DeliveryNotification := mkNotification {
  dn_client_correlator_id : option text;
  delivery_status : option text;
  details : option text;
  completed_date : option text;
  error : option text }.

(** [Serialize]: the renamed fields in order; a missing optional one is
    skipped. *)
Definition optional_field (name : text) (v : option text) : list (text * Json) :=
  match v with Some s => [(name, JString s)] | None => [] end.

Definition outbound_json (b : OutboundSmsMessageRequest) : Json :=
  JObject ([(lit "receiverAddress", JArray (JString <$> receiver_address b));
            (lit "message", JString (message b));
            (lit "clientCorrelatorId", JString (client_correlator_id b));
            (lit "serviceCode", JString (ob_service_code b))]
           ++ optional_field (lit "senderAddress") (ob_sender_address b)
           ++ [(lit "requestDeliveryReceipt", JBool (request_delivery_receipt b))]).

Definition subscription_json (b : ShortCodeSubscriptionRequest) : Json :=
  JObject ([(lit "callbackUrl", JString (callback_url b));
            (lit "targetSystem", JString (target_system b))]
           ++ optional_field (lit "deliveryReportUrl") (delivery_report_url b)
           ++ [(lit "serviceCode", JString (sub_service_code b))]).

Class MtnDecoders := {
  decode_token_response : list Z -> result TokenResponse text;
  decode_resource_reference : list Z -> result ResourceReference text;
  decode_subscription_response : list Z -> result SubscriptionResponse text;
  decode_delivery_notification : list Z -> result DeliveryNotification text;
  parse_from_rfc3339 : text -> result Z text }.

(** ** token.rs *)
Definition REFRESH_AT_FRACTION_OF_LIFETIME : f64 := f64_div (f64_of_Z 4) (f64_of_Z 5).

Definition token_valid : adapter (option text) := read_token.

Definition token_store (access_token : text) (expires_in : Z) : adapter unit :=
  write_token REFRESH_AT_FRACTION_OF_LIFETIME access_token expires_in.

Section Provider.

Context `{R : ReqwestLib} `{D : MtnDecoders} `{U : UnicodeDebug}.

Definition token_fetch (token_url : url) (client_id client_secret : text)
  : adapter (result TokenResponse ProviderError) :=
  leta reply := http (mkHttpCall POST (url_str token_url) (Basic client_id client_secret) [] NoPayload) in
  alift (token_answer decode_token_response reply).

(** ** lib.rs *)
Variable config : MtnConfig.

Definition invalid_base_url (error : text) : ProviderError :=
  Unavailable (lit "invalid base_url: " ++ error) (Some error).

Definition token_url : result url ProviderError :=
  let? u := map_err invalid_base_url (url_parse (base_url config)) in
  Ok (url_set_query (Some (lit "grant_type=client_credentials"))
        (url_set_path (lit "/v1/oauth/access_token/accesstoken") u)).

Definition extended_base_url (segments : list text) : result url ProviderError :=
  let? u := map_err invalid_base_url (url_parse (base_url config)) in
  match url_extend segments u with
  | Some u => Ok u
  | None => Err (Unavailable (lit "base_url cannot be a base for path segments") None)
  end.

Definition submit_url : result url ProviderError :=
  extended_base_url [lit "v3"; lit "sms"; lit "messages"; lit "sms"; lit "outbound"].

Definition subscription_url : result url ProviderError :=
  extended_base_url [lit "v3"; lit "sms"; lit "messages"; lit "sms"; lit "subscription"].

Definition access_token_of : adapter (result text ProviderError) :=
  cached_token token_valid token_store
    (leta? url := alift token_url in
     token_fetch url (client_id config) (client_secret config)).

Definition nonempty (v : option text) : option text :=
  match v with Some [] | None => None | Some s => Some s end.

Definition sender_address (req : SubmitRequest) : option text :=
  nonempty (match nonempty (Some (sr_sender_id req)) with
            | Some s => Some s
            | None => sender_id config
            end).

Definition classify_application_error (status_code status_message : text) : result unit ProviderError :=
  if bool_decide (status_code = MADAPI_SUCCESS_STATUS_CODE) then Ok tt
  else Err (Rejected (lit "madapi_" ++ status_code) status_message).

Definition classify_submit_error (status : Z) (body : text) : ProviderError :=
  if status =? 401 then
    Permanent (lit "auth_" ++ show_Z status) (lit "MTN rejected the request as unauthenticated: " ++ body)
  else if status =? 407 then
    Unavailable (lit "MTN's own proxy system reported it is not authenticated: " ++ body) None
  else classify_common_submit_status display_status status body PROVIDER_NOUN RATE_LIMIT_RETRY_AFTER.

Definition outbound (req : SubmitRequest) : OutboundSmsMessageRequest :=
  mkOutbound [sr_to req] (sr_body req) (sr_reference req) (service_code config)
    (sender_address req) true.

Definition submit (req : SubmitRequest) : adapter (result SubmitAck ProviderError) :=
  if MAX_CLIENT_CORRELATOR_ID_LEN <? byte_len (sr_reference req) then
    ARet (Err (Permanent (lit "CLIENT_CORRELATOR_ID_TOO_LONG")
      (lit "reference " ++ debug_str (sr_reference req) ++ lit " is "
        ++ show_Z (byte_len (sr_reference req))
        ++ lit " bytes; MADAPI's own clientCorrelatorId maxLength is "
        ++ show_Z MAX_CLIENT_CORRELATOR_ID_LEN)))
  else
    leta? token := access_token_of in
    leta? url := alift submit_url in
    leta? response := amap_err (fun error => classify_transport_error error PROVIDER_NOUN)
      (http (mkHttpCall POST (url_str url) (Bearer token) []
               (JsonPayload (outbound_json (outbound req))))) in
    let status := rs_status response in
    if negb (status =? 200) then
      ARet (Err (classify_submit_error status (text_or_default response)))
    else
      leta? parsed := alift (map_err (fun error => Indeterminate
          (lit "submit returned 200 but the response body was not valid JSON, so MADAPI's own statusCode could not be read: "
             ++ error) (Some error))
        (rs_json decode_resource_reference response)) in
      leta? _ := alift (classify_application_error (status_code parsed) (status_message parsed)) in
      if bool_decide (transaction_id parsed = []) then
        ARet (Err (Indeterminate
          (lit "submit returned 200/0000 (accepted) but transactionId was empty") None))
      else ARet (Ok (mkSubmitAck (transaction_id parsed) (Some (sr_reference req)))).

Definition health : adapter Health :=
  leta token := access_token_of in
  match token with
  | Ok _ => health_ok
  | Err error => health_unhealthy (display_ProviderError error)
  end.

Definition subscribe_delivery_reports (delivery_report_url target_system : text)
  : adapter (result text ProviderError) :=
  leta? token := access_token_of in
  leta? url := alift subscription_url in
  let body := mkSubscription delivery_report_url target_system (Some delivery_report_url)
                (service_code config) in
  leta? response := amap_err (fun error => classify_transport_error error PROVIDER_NOUN)
    (http (mkHttpCall POST (url_str url) (Bearer token) [] (JsonPayload (subscription_json body)))) in
  let status := rs_status response in
  if negb (status =? 200) then
    ARet (Err (classify_submit_error status (text_or_default response)))
  else
    leta? parsed := alift (map_err (fun error => Indeterminate
        (lit "subscribe returned 200 but the response body was not valid JSON, so MADAPI's own statusCode could not be read: "
           ++ error) (Some error))
      (rs_json decode_subscription_response response)) in
    leta? _ := alift (classify_application_error (sub_status_code parsed) (sub_status_message parsed)) in
    match nonempty (subscription_id parsed) with
    | Some id => ARet (Ok id)
    | None => ARet (Err (Indeterminate
        (lit "subscribe returned 200/0000 (accepted) but no subscriptionId was present in data") None))
    end.

(** ** dlr.rs *)
Definition outcome_of (status : text) : DeliveryOutcome :=
  if bool_decide (status = lit "DELIVERED") then OutDelivered
  else if bool_decide (status = lit "EXPIRED") then OutExpired
  else if bool_decide (status = lit "REJECTED") then OutRejected
  else if bool_decide (status = lit "UNDELIVERED") then OutFailed
  else if bool_decide (status ∈ [lit "ACCEPTD"; lit "ENROUTE"]) then OutInFlight
  else if bool_decide (status = lit "DELETED") then OutRejected
  else if bool_decide (status = lit "UNKNOWN") then OutUnknown
  else OutUnknown.

Definition parse_completed_date (raw : option text) : option Z :=
  match raw with
  | None => None
  | Some raw => match parse_from_rfc3339 raw with Ok parsed => Some parsed | Err _ => None end
  end.

Definition parse (raw : RawCallback) : result (list DeliveryUpdate) ProviderError :=
  let? parsed := map_err (fun error => Rejected (lit "MALFORMED_DLR")
      (lit "could not parse delivery notification: " ++ error))
    (decode_delivery_notification (rcb_body raw)) in
  match nonempty (dn_client_correlator_id parsed) with
  | None => Err (Rejected (lit "MISSING_CLIENT_CORRELATOR_ID")
      (lit "delivery notification carried no clientCorrelatorId to correlate against"))
  | Some provider_ref =>
      let raw_status := default [] (delivery_status parsed) in
      Ok [mkDeliveryUpdate provider_ref (outcome_of raw_status)
            (parse_completed_date (completed_date parsed)) raw_status
            (match error parsed with Some e => Some e | None => details parsed end) None]
  end.

(** ** The trait *)
Definition capabilities : Capabilities :=
  mkCapabilities true (supports_alphanumeric_sender config) true true (tps_ceiling config)
    (cost_per_segment_xaf config).

Definition provider : SmsProvider :=
  mkProvider KEY capabilities submit default_authenticate_callback parse default_poll_status health.

Definition payload (req : SubmitRequest) : Payload := JsonPayload (outbound_json (outbound req)).

(** The reference is the answer's transaction id; the second one is ours,
    which a notification echoes. *)
Definition acked (req : SubmitRequest) (r : Response) (ack : SubmitAck) : Prop :=
  provider_ref_alt ack = Some (sr_reference req) /\
  exists parsed, rs_json decode_resource_reference r = Ok parsed /\ provider_ref ack = transaction_id parsed.

(** ** Proofs *)

Lemma submit_url_no_delay e : submit_url = Err e -> no_delay e = true.
Proof.
  unfold submit_url, extended_base_url. destruct (url_parse _); cbn [map_err rbind]; [|by intros [= <-]].
  destruct (url_extend _ _); by intros [= <-].
Qed.

(** Getting a token submits nothing. *)
Lemma mtn_token_submits I tr log :
  submissions tr = [] ->
  (forall log now st t, I log now st -> I log now (set_token t st)) ->
  awp I access_token_of tr log (fun tr _ out => unsubmitted tr out).
Proof.
  intros Htr HI. apply (cached_token_submits I REFRESH_AT_FRACTION_OF_LIFETIME); [done..|]. intros l.
  apply awp_bind_ok. cbn [awp alift]. unfold token_url.
  destruct (url_parse _) as [u|msg]; cbn [map_err rbind]; [|split; [done|]; by intros e [= <-]].
  unfold token_fetch, http. cbn [abind awp alift]. intros log' r Hl. split; [done|].
  intros e [= He]. by eapply token_answer_no_delay.
Qed.

Lemma classify_submit_resubmits status body :
  resubmits (classify_submit_error status body) = true -> is_success status = false.
Proof.
  unfold classify_submit_error. destruct (Z.eqb_spec status 401) as [->|_]; [done|].
  destruct (Z.eqb_spec status 407) as [->|_]; [done|]. apply common_status_resubmits.
Qed.

Lemma classify_submit_bounded status body : retry_bounded (Err (classify_submit_error status body)).
Proof.
  unfold classify_submit_error. destruct (_ =? _); [done|]. destruct (_ =? _); [done|].
  by apply common_status_bounded.
Qed.

#[global] Instance mtn_submit_sound : SubmitSound provider payload acked.
Proof.
  intros req. cbn [sp_submit provider]. unfold submit.
  destruct (_ <? _); [by apply submit_once_before|].
  apply awp_bind_ok. eapply awp_mono; [|by apply mtn_token_submits].
  intros tr log [[token|e]|] [Htr He]; [|by apply submit_once_before; [|apply He] | by apply submit_once_panic].
  apply awp_bind_ok. cbn [awp alift]. destruct submit_url as [u|e] eqn:Hu.
  2: { apply submit_once_before; [done|]. by eapply submit_url_no_delay. }
  apply awp_bind_ok. unfold amap_err, http. cbn [abind awp]. intros log' [response|e] Hl; cbn [map_err].
  2: { by apply submit_once_transport. }
  destruct (Z.eqb_spec (rs_status response) 200) as [Hs|Hs]; cbn [negb].
  2: { apply submit_once_refused; [done..| apply classify_submit_bounded | apply classify_submit_resubmits]. }
  apply awp_bind_ok. cbn [awp alift].
  destruct (rs_json _ _) as [parsed|e] eqn:Hj; cbn [map_err]; [|by apply submit_once_sent].
  apply awp_bind_ok. cbn [awp alift]. unfold classify_application_error.
  case_bool_decide; [|by apply submit_once_sent].
  case_bool_decide; [by apply submit_once_sent|].
  apply submit_once_ack; [done..| by rewrite Hs | done |]. split; [done|]. by exists parsed.
Qed.

End Provider.

End Mtn.
