(* ===== verification/OrangeProvider.v ===== *)
(** * sms-provider-orange-cm: the Orange Cameroon adapter

    lib.rs (submission), token.rs (the token cache) and dlr.rs (the delivery
    notification).  The decoders serde derives are parameters
    ([OrangeDecoders]). *)

From S2P Require Import Prelude Float64 ProviderApi Schema Sql WorkerRouting Dlr Webhook AuditChain Adapter.

Module OrangeCm.

(** ** Constants and configuration *)
Definition PROVIDER_NOUN_INDETERMINATE : text := lit "Orange".
Definition PROVIDER_NOUN_UNAVAILABLE : text := lit "orange".
Definition RATE_LIMIT_RETRY_AFTER : duration := seconds 1.
Definition KEY : text := lit "orange_cm".

Definition capabilities : Capabilities :=
  mkCapabilities true true true true (f64_of_Z 5) (19, 0).

Record OrangeCmConfig := mkConfig {
  client_id : text;
  client_secret : text;
  sender_number : text;
  base_url : text;
  connect_timeout : duration;
  request_timeout : duration }.

Definition production (client_id client_secret sender_number : text) : OrangeCmConfig :=
  mkConfig client_id client_secret sender_number (lit "https://api.orange.com") (seconds 10) (seconds 30).

(** [OrangeCmProvider::new]: the configuration it keeps. *)
Definition new (config : OrangeCmConfig) : OrangeCmConfig :=
  match strip_prefix (sender_number config) (lit "tel:") with
  | Some stripped =>
      mkConfig (client_id config) (client_secret config) stripped (base_url config)
        (connect_timeout config) (request_timeout config)
  | None => config
  end.

(** ** Wire types *)
Record OutboundSmsMessageBody := mkBody {
  address : list text;
  sender_address : text;
  sender_name : text;
  outbound_sms_text_message : text }.

Definition outbound_json (b : OutboundSmsMessageBody) : Json :=
  JObject [(lit "outboundSMSMessageRequest",
    JObject [(lit "address", JArray (JString <$> address b));
             (lit "senderAddress", JString (sender_address b));
             (lit "senderName", JString (sender_name b));
             (lit "outboundSMSTextMessage",
                JObject [(lit "message", JString (outbound_sms_text_message b))])])].

(** [SubmitResponseEnvelope], of which only the resource URL is kept. *)
Record SubmitResponseEnvelope := mkEnvelope { resource_url : text }.

Record DeliveryInfoEntry := mkEntry { delivery_status : text }.

Inductive DeliveryInfoField :=
| One (entry : DeliveryInfoEntry)
| Many (entries : list DeliveryInfoEntry).

Record DeliveryInfo := mkInfo {
  callback_data : option text;
  delivery_info : DeliveryInfoField }.

Definition into_entries (f : DeliveryInfoField) : list DeliveryInfoEntry :=
  match f with One entry => [entry] | Many entries => entries end.

Class OrangeDecoders := {
  decode_token_response : list Z -> result TokenResponse text;
  decode_submit_response : list Z -> result SubmitResponseEnvelope text;
  decode_delivery_info : list Z -> result DeliveryInfo text }.

(** ** token.rs *)
Definition REFRESH_AT_FRACTION_OF_LIFETIME : f64 := f64_div (f64_of_Z 4) (f64_of_Z 5).

Definition token_valid : adapter (option text) := read_token.

Definition token_store (access_token : text) (expires_in : Z) : adapter unit :=
  write_token REFRESH_AT_FRACTION_OF_LIFETIME access_token expires_in.

Section Provider.

Context `{R : ReqwestLib} `{D : OrangeDecoders} `{U : UnicodeDebug}.

Definition token_fetch (token_url client_id client_secret : text)
  : adapter (result TokenResponse ProviderError) :=
  leta reply := http (mkHttpCall POST token_url (Basic client_id client_secret) []
                        (Form [(lit "grant_type", lit "client_credentials")])) in
  alift (token_answer decode_token_response reply).

(** ** lib.rs *)
Variable config : OrangeCmConfig.

Definition access_token_of : adapter (result text ProviderError) :=
  cached_token token_valid token_store
    (token_fetch (base_url config ++ lit "/oauth/v3/token") (client_id config) (client_secret config)).

Definition submit_url : result url ProviderError :=
  let? u := map_err (fun error => Unavailable (lit "invalid base_url: " ++ error) (Some error))
              (url_parse (base_url config)) in
  match url_extend [lit "smsmessaging"; lit "v1"; lit "outbound";
                    lit "tel:" ++ sender_number config; lit "requests"] u with
  | Some u => Ok u
  | None => Err (Unavailable (lit "base_url cannot be a base for path segments") None)
  end.

(** [str::trim_end_matches] and the last piece of [str::rsplit]. *)
Fixpoint trim_start_char (c : Z) (s : text) : text :=
  match s with
  | [] => []
  | x :: r => if x =? c then trim_start_char c r else s
  end.

Definition trim_end_char (c : Z) (s : text) : text := reverse (trim_start_char c (reverse s)).

Definition last_segment (c : Z) (s : text) : text := List.last (split_on c s) [].

Definition resource_id_from_url (resource_url : text) : option text :=
  match last_segment 47 (trim_end_char 47 resource_url) with
  | [] => None
  | segment => Some segment
  end.

Definition classify_submit_error (status : Z) (body : text) : ProviderError :=
  classify_common_submit_status display_status status body PROVIDER_NOUN_UNAVAILABLE
    RATE_LIMIT_RETRY_AFTER.

Definition outbound (req : SubmitRequest) : OutboundSmsMessageBody :=
  mkBody [lit "tel:" ++ sr_to req] (lit "tel:" ++ sender_number config) (sr_sender_id req) (sr_body req).

Definition submit (req : SubmitRequest) : adapter (result SubmitAck ProviderError) :=
  leta? token := access_token_of in
  leta? url := alift submit_url in
  leta? response := amap_err (fun error => classify_transport_error error PROVIDER_NOUN_INDETERMINATE)
    (http (mkHttpCall POST (url_str url) (Bearer token) []
             (JsonPayload (outbound_json (outbound req))))) in
  let status := rs_status response in
  if negb (status =? 201) then
    ARet (Err (classify_submit_error status (text_or_default response)))
  else
    leta? parsed := alift (map_err (fun error => Indeterminate
        (lit "submit returned 201 (accepted) but the response body was not valid JSON, so no provider_ref could be recovered: "
           ++ error) (Some error))
      (rs_json decode_submit_response response)) in
    match resource_id_from_url (resource_url parsed) with
    | None => ARet (Err (Indeterminate
        (lit "submit returned 201 (accepted) but no resource id was found in resourceURL "
           ++ debug_str (resource_url parsed)) None))
    | Some provider_ref => ARet (Ok (mkSubmitAck provider_ref None))
    end.

Definition health : adapter Health :=
  leta token := access_token_of in
  match token with
  | Ok _ => health_ok
  | Err error => health_unhealthy (display_ProviderError error)
  end.

(** ** dlr.rs *)
Definition outcome_of (status : text) : DeliveryOutcome :=
  if bool_decide (status = lit "DeliveredToTerminal") then OutDelivered
  else if bool_decide (status = lit "DeliveryImpossible") then OutFailed
  else if bool_decide (status = lit "DeliveryUncertain") then OutUncertain
  else if bool_decide (status ∈ [lit "DeliveredToNetwork"; lit "MessageWaiting"]) then OutInFlight
  else OutUnknown.

Definition parse (raw : RawCallback) : result (list DeliveryUpdate) ProviderError :=
  let? parsed := map_err (fun error => Rejected (lit "MALFORMED_DLR")
      (lit "could not parse delivery notification: " ++ error))
    (decode_delivery_info (rcb_body raw)) in
  match callback_data parsed with
  | None => Err (Rejected (lit "MISSING_CALLBACK_DATA")
      (lit "delivery notification carried no callbackData (resource_id) to correlate against"))
  | Some provider_ref =>
      Ok ((fun entry => mkDeliveryUpdate provider_ref (outcome_of (delivery_status entry)) None
                          (delivery_status entry) None None)
          <$> into_entries (delivery_info parsed))
  end.

(** ** The trait *)
Definition provider : SmsProvider :=
  mkProvider KEY capabilities submit default_authenticate_callback parse default_poll_status health.

Definition payload (req : SubmitRequest) : Payload := JsonPayload (outbound_json (outbound req)).

(** [id] is the last segment of a path: what follows it are slashes. *)
Definition last_path_segment (u id : text) : Prop :=
  id <> [] /\ (47 ∉ id) /\ exists before n, u = before ++ id ++ replicate n 47 /\
    (before = [] \/ last before = Some 47).

(** The reference is the resource id: the last segment of the URL the answer
    names. *)
Definition acked (req : SubmitRequest) (r : Response) (ack : SubmitAck) : Prop :=
  provider_ref_alt ack = None /\
  exists parsed, rs_json decode_submit_response r = Ok parsed /\
    last_path_segment (resource_url parsed) (provider_ref ack).

(** ** Proofs *)

(** A resource id is never empty and has no slash in it. *)
Lemma split_on_pieces c s : Forall (fun w => c ∉ w) (split_on c s).
Proof.
  induction s as [|x r IH]; cbn; [constructor; [apply not_elem_of_nil | constructor]|].
  destruct (Z.eqb_spec x c) as [->|Hx]; [constructor; [apply not_elem_of_nil | done]|].
  destruct (split_on c r) as [|w ws]; [constructor; [|constructor]|].
  - rewrite elem_of_cons, elem_of_nil. intros [-> | []]. by apply Hx.
  - apply Forall_cons in IH as [Hw Hws]. constructor; [|done].
    rewrite not_elem_of_cons. split; [|done]. intros ->. by apply Hx.
Qed.

Lemma trim_start_char_split c s : exists n, s = replicate n c ++ trim_start_char c s /\
  (trim_start_char c s = [] \/ exists x r, trim_start_char c s = x :: r /\ x <> c).
Proof.
  induction s as [|x r (n & Hn & H)]; cbn; [exists 0%nat; auto|].
  destruct (Z.eqb_spec x c) as [->|Hx]; [exists (S n); cbn; by rewrite <- Hn | exists 0%nat; split; [done|right; eauto]].
Qed.

Lemma trim_end_char_app c s n : last s <> Some c -> trim_end_char c (s ++ replicate n c) = s.
Proof.
  intros Hl. unfold trim_end_char. rewrite reverse_app, reverse_replicate.
  assert (forall k t, head t <> Some c -> trim_start_char c (replicate k c ++ t) = t) as H.
  { intros k t Ht. induction k as [|k IH]; cbn; [|by rewrite Z.eqb_refl].
    destruct t as [|x r]; [done|]. cbn in *. destruct (Z.eqb_spec x c) as [->|]; [done | done]. }
  rewrite H, reverse_involutive; [done|]. by rewrite head_reverse.
Qed.

Lemma trim_end_char_split c s : exists n, s = trim_end_char c s ++ replicate n c.
Proof.
  unfold trim_end_char. destruct (trim_start_char_split c (reverse s)) as (n & Hn & _). exists n.
  rewrite <- (reverse_involutive s), Hn at 1. by rewrite reverse_app, reverse_replicate.
Qed.

Lemma last_split_on c before s : c ∉ s -> before = [] \/ last before = Some c ->
  List.last (split_on c (before ++ s)) [] = s.
Proof.
  intros Hs. assert (split_on c s = [s]) as Hsplit.
  { clear before. induction s as [|x r IH]; [done|]. apply not_elem_of_cons in Hs as [Hx Hr]. cbn.
    rewrite IH by done. destruct (Z.eqb_spec x c); [congruence | done]. }
  assert (forall t, split_on c t <> []) as Hne.
  { intros t. induction t as [|x r IH]; cbn; [done|]. destruct (x =? c); [done|]. by destruct (split_on c r). }
  intros [->|Hb]; [by cbn; rewrite Hsplit|]. induction before as [|x before IH]; [done|].
  cbn [app split_on]. destruct before as [|y before].
  - cbn in Hb. injection Hb as ->. rewrite Z.eqb_refl. cbn [app]. by rewrite Hsplit.
  - specialize (IH Hb). destruct (split_on c ((y :: before) ++ s)) as [|w ws] eqn:E; [by destruct (Hne _ E)|].
    destruct (x =? c); [exact IH|]. destruct ws; [|exact IH]. exfalso.
    assert (forall t, c ∈ t -> (2 <= length (split_on c t))%nat) as Htwo.
    { intros t. induction t as [|z r IHt]; [by intros ?%not_elem_of_nil|]. intros Hin. cbn.
      destruct (Z.eqb_spec z c) as [->|Hz].
      - cbn. specialize (Hne r). destruct (split_on c r); [done | cbn; lia].
      - apply elem_of_cons in Hin as [?|Hin]; [congruence|]. specialize (IHt Hin).
        destruct (split_on c r) as [|w' ws']; [cbn in IHt; lia | cbn in *; lia]. }
    specialize (Htwo ((y :: before) ++ s)). rewrite E in Htwo. cbn [length] in Htwo.
    assert (c ∈ (y :: before) ++ s) as Hc; [|specialize (Htwo Hc); lia]. apply elem_of_app. left.
    apply last_Some_elem_of. by destruct before.
Qed.

(** The resource id is the last path segment, and the only one. *)
Lemma resource_id_complete u id : last_path_segment u id -> resource_id_from_url u = Some id.
Proof.
  intros (Hne & Hid & before & n & -> & Hb). unfold resource_id_from_url, last_segment.
  rewrite (assoc_L (++)), trim_end_char_app.
  - rewrite last_split_on by done. by destruct id.
  - rewrite last_app. destruct (last id) as [x|] eqn:E; [|by apply last_None in E].
    intros [= ->]. apply Hid. by apply last_Some_elem_of.
Qed.

Lemma split_on_last c s : exists before, s = before ++ List.last (split_on c s) [] /\
  (before = [] \/ last before = Some c).
Proof.
  destruct (decide (c ∈ s)) as [(a & b & -> & Hb)%list_elem_of_split_r|Hs].
  - exists (a ++ [c]). rewrite (cons_middle c a b), (assoc_L (++)), last_split_on;
      [|done | right; by rewrite last_snoc]. split; [done|]. right. by rewrite last_snoc.
  - exists []. rewrite <- (app_nil_l s) at 2. rewrite last_split_on; [|done | by left]. split; [done | by left].
Qed.

Lemma resource_id_segment u id : resource_id_from_url u = Some id -> last_path_segment u id.
Proof.
  unfold resource_id_from_url, last_segment. intros H.
  destruct (trim_end_char_split 47 u) as [n Hn]. set (t := trim_end_char 47 u) in *.
  destruct (split_on_last 47 t) as (before & Ht & Hb).
  assert (47 ∉ List.last (split_on 47 t) []) as Hl.
  { pose proof (split_on_pieces 47 t) as Hf. induction (split_on 47 t) as [|w ws IH]; [apply not_elem_of_nil|].
    inversion_clear Hf as [|? ? Hw Hws]. destruct ws; [done|]. by apply IH. }
  destruct (List.last (split_on 47 t) []) as [|x r] eqn:E; [done|]. injection H as <-.
  split; [done|]. split; [done|]. exists before, n. split; [|done]. rewrite (assoc_L (++)), <- Ht. exact Hn.
Qed.

(** Getting a token submits nothing. *)
Lemma orange_token_submits I tr log :
  submissions tr = [] ->
  (forall log now st t, I log now st -> I log now (set_token t st)) ->
  awp I access_token_of tr log (fun tr _ out => unsubmitted tr out).
Proof.
  intros Htr HI. apply (cached_token_submits I REFRESH_AT_FRACTION_OF_LIFETIME); [done..|]. intros l.
  unfold token_fetch, http. cbn [abind awp alift]. intros log' r Hl. split; [done|].
  intros e [= He]. by eapply token_answer_no_delay.
Qed.

Lemma resource_url_no_delay e : submit_url = Err e -> no_delay e = true.
Proof.
  unfold submit_url. destruct (url_parse _); cbn [map_err rbind]; [|by intros [= <-]].
  destruct (url_extend _ _); by intros [= <-].
Qed.

#[global] Instance orange_submit_sound : SubmitSound provider payload acked.
Proof.
  intros req. cbn [sp_submit provider]. unfold submit.
  apply awp_bind_ok. eapply awp_mono; [|by apply orange_token_submits].
  intros tr log [[token|e]|] [Htr He]; [|by apply submit_once_before; [|apply He] | by apply submit_once_panic].
  apply awp_bind_ok. cbn [awp alift]. destruct submit_url as [u|e] eqn:Hu.
  2: { apply submit_once_before; [done|]. by apply resource_url_no_delay. }
  apply awp_bind_ok. unfold amap_err, http. cbn [abind awp]. intros log' [response|e] Hl; cbn [map_err].
  2: { by apply submit_once_transport. }
  destruct (Z.eqb_spec (rs_status response) 201) as [Hs|Hs]; cbn [negb].
  2: { apply submit_once_refused; [done..| by apply common_status_bounded | apply common_status_resubmits]. }
  apply awp_bind_ok. cbn [awp alift].
  destruct (rs_json _ _) as [parsed|e] eqn:Hj; cbn [map_err]; [|by apply submit_once_sent].
  destruct (resource_id_from_url _) as [id|] eqn:Hid; [|by apply submit_once_sent].
  apply resource_id_segment in Hid.
  apply submit_once_ack; [done..| by rewrite Hs | apply Hid |]. split; [done|]. by exists parsed.
Qed.

End Provider.

End OrangeCm.
