(* ===== verification/Sns.v ===== *)
(** * sms-provider-aws-sms: SNS callbacks (sns.rs) and delivery events (events.rs)

    A callback is an SNS envelope, authenticated by a signature over some of
    its fields, made with a certificate fetched from SNS itself.  The decoders
    serde derives, base64, X.509 and RSA are parameters ([SnsLib]). *)

From S2P Require Import Prelude ProviderApi Sql WorkerRouting Dlr Webhook Send Adapter.

Module Sns.

Definition ACCEPTED_SIGNATURE_VERSION : text := lit "2".
Definition MAX_FETCH_BYTES : Z := 64 * 1024.
Definition MAX_CACHED_CERTS : nat := 8.
Definition MIN_UNCACHED_FETCH_INTERVAL : Z := 5 * NANOS_PER_SEC.

Record Envelope := mkEnvelope {
  kind : text;
  message_id : text;
  token : option text;
  topic_arn : text;
  subject : option text;
  message : text;
  subscribe_url : option text;
  timestamp : text;
  signature_version : text;
  signature : text;
  signing_cert_url : text }.

(** The fields of an event that are read. *)
Record EventRecord := mkRecord {
  event_type : text;
  event_timestamp : option Z;
  is_final : option bool;
  ev_message_id : text;
  message_status : option text }.

Class SnsLib := {
  decode_envelope : list Z -> result Envelope text;
  decode_event : text -> result EventRecord text;
  base64_decode : text -> option (list Z);
  cert_from_pem : list Z -> result (list Z) text;
  is_end_entity_cert : list Z -> bool;
  verify_signature : list Z -> list Z -> list Z -> result unit text }.

(** ** The signed string *)
Definition NOTIFICATION : text := lit "Notification".
Definition SUBSCRIPTION_CONFIRMATION : text := lit "SubscriptionConfirmation".
Definition UNSUBSCRIBE_CONFIRMATION : text := lit "UnsubscribeConfirmation".

Definition signed_fields (e : Envelope) : option (list (text * text)) :=
  let fields := [(lit "Message", message e); (lit "MessageId", message_id e)] in
  if bool_decide (kind e = NOTIFICATION) then
    Some (fields
      ++ match subject e with Some s => [(lit "Subject", s)] | None => [] end
      ++ [(lit "Timestamp", timestamp e); (lit "TopicArn", topic_arn e)]
      ++ [(lit "Type", kind e)])
  else if bool_decide (kind e ∈ [SUBSCRIPTION_CONFIRMATION; UNSUBSCRIBE_CONFIRMATION]) then
    match subscribe_url e, token e with
    | Some u, Some t =>
        Some (fields
          ++ [(lit "SubscribeURL", u); (lit "Timestamp", timestamp e); (lit "Token", t);
              (lit "TopicArn", topic_arn e)]
          ++ [(lit "Type", kind e)])
    | _, _ => None
    end
  else None.

Definition fields_string (fields : list (text * text)) : text :=
  fields ≫= (fun nv => nv.1 ++ [10] ++ nv.2 ++ [10]).

Definition string_to_sign (e : Envelope) : option text := fields_string <$> signed_fields e.

Definition region_of_topic_arn (arn : text) : option text :=
  match split_on 58 arn with
  | [a; b; c; region; account; name] =>
      if bool_decide (a = lit "arn" /\ b = lit "aws" /\ c = lit "sns")
         && negb (bool_decide (region = [])) && negb (bool_decide (account = []))
         && negb (bool_decide (name = []))
      then Some region else None
  | _ => None
  end.

Definition is_ascii_hexdigit (c : Z) : bool :=
  is_ascii_digit c || ((65 <=? c) && (c <=? 70)) || ((97 <=? c) && (c <=? 102)).

(** [str::strip_suffix]. *)
Definition strip_suffix (s p : text) : option text :=
  reverse <$> strip_prefix (reverse s) (reverse p).

Section Verifier.

Context `{R : ReqwestLib} `{L : SnsLib} `{U : UnicodeDebug}.

Definition sns_host (region : text) : text := lit "sns." ++ region ++ lit ".amazonaws.com".

Definition is_sns_url (u : url) (region : text) : bool :=
  negb (negb (bool_decide (url_scheme u = lit "https"))
        || negb (bool_decide (url_host u = Some (sns_host region)))
        || negb (Db.is_null (url_port u))
        || negb (bool_decide (url_username u = []))
        || negb (Db.is_null (url_password u))).

Definition sns_url (raw region : text) : result url text :=
  let? u := map_err (fun error => debug_str raw ++ lit " is not a URL: " ++ error) (url_parse raw) in
  if is_sns_url u region then Ok u
  else Err (debug_str raw ++ lit " is not an https URL on " ++ sns_host region).

Definition is_signing_cert_url (u : url) : bool :=
  Db.is_null (url_query u) && Db.is_null (url_fragment u) &&
  match strip_prefix (url_path u) (lit "/SimpleNotificationService-") with
  | Some rest =>
      match strip_suffix rest (lit ".pem") with
      | Some id => (byte_len id =? 32) && forallb is_ascii_hexdigit id
      | None => false
      end
  | None => false
  end.

(** ** [ReqwestSnsHttp::get] *)
Definition too_large (u : url) : text :=
  lit "GET " ++ url_str u ++ lit " is larger than " ++ show_Z MAX_FETCH_BYTES ++ lit " bytes".

Fixpoint read_chunks (u : url) (broken : option text) (chunks : list (list Z)) (body : list Z)
  : result (list Z) text :=
  match chunks with
  | [] =>
      match broken with
      | Some error => Err (lit "reading GET " ++ url_str u ++ lit " failed: " ++ error)
      | None => Ok body
      end
  | chunk :: rest =>
      if MAX_FETCH_BYTES <? Z.of_nat (length body) + Z.of_nat (length chunk) then Err (too_large u)
      else read_chunks u broken rest (body ++ chunk)
  end.

Definition sns_fetched (u : url) (reply : result Response TransportError) : result (list Z) text :=
  match reply with
  | Err error => Err (lit "GET " ++ url_str u ++ lit " failed: " ++ te_display error)
  | Ok response =>
      if negb (is_success (rs_status response)) then
        Err (lit "GET " ++ url_str u ++ lit " returned " ++ display_status (rs_status response))
      else if match rs_content_length response with
              | Some len => MAX_FETCH_BYTES <? len
              | None => false
              end then Err (too_large u)
      else read_chunks u (rs_broken response) (rs_chunks response) []
  end.

Definition sns_call (u : url) : HttpCall := mkHttpCall GET (url_str u) NoCredentials [] NoPayload.

Definition sns_get (u : url) : adapter (result (list Z) text) :=
  leta reply := http (sns_call u) in ARet (sns_fetched u reply).

(** ** [Verifier] *)
Inductive Verdict :=
| Authentic
| VRefused (reason : text)
| UnsupportedSignatureVersion (reason : text).

Record Verifier := mkVerifier {
  v_topic_arn : text;
  v_region : text }.

Definition verifier_new (topic_arn : text) : option Verifier :=
  region ← region_of_topic_arn topic_arn; Some (mkVerifier topic_arn region).

(** [Instant::duration_since] is 0 for a later instant. *)
Definition permit_section (now : Z) (st : AdapterFields) : option (bool * AdapterFields) :=
  Some (if match af_last_uncached_fetch st with
           | Some at_ => Z.max 0 (now - at_) <? MIN_UNCACHED_FETCH_INTERVAL
           | None => false
           end
        then (false, st) else (true, set_last_fetch (Some now) st)).

Definition permit_uncached_fetch : adapter (result unit ProviderError) :=
  leta permitted := locked permit_section in
  ARet (if permitted : bool then Ok tt
        else Err (Unavailable (lit "signing certificate fetches are rate limited; try again shortly") None)).

Definition cached_cert (path : text) (now : Z) (st : AdapterFields)
  : option (option (list Z) * AdapterFields) := Some (af_certs st !! path, st).

Definition store_cert (path : text) (cert : list Z) (now : Z) (st : AdapterFields)
  : option (unit * AdapterFields) :=
  let certs := if bool_decide (MAX_CACHED_CERTS <= size (af_certs st))%nat then ∅ else af_certs st in
  Some (tt, set_certs (<[path := cert]> certs) st).

Definition certificate (u : url) : adapter (result (list Z) ProviderError) :=
  leta cached := locked (cached_cert (url_path u)) in
  match cached with
  | Some cert => ARet (Ok cert)
  | None =>
      leta? _ := permit_uncached_fetch in
      leta? pem := amap_err (fun message => Unavailable message None) (sns_get u) in
      leta? cert := alift (map_err (fun error => Unavailable
          (url_str u ++ lit " did not contain a PEM certificate: " ++ error) None) (cert_from_pem pem)) in
      leta _ := locked (store_cert (url_path u) cert) in
      ARet (Ok cert)
  end.

(** What is checked before the certificate is looked at: the URL of the
    certificate, the signed string and the signature. *)
Definition checked (v : Verifier) (e : Envelope) : result (url * text * list Z) Verdict :=
  if negb (bool_decide (topic_arn e = v_topic_arn v)) then
    Err (VRefused (lit "TopicArn " ++ debug_str (topic_arn e) ++ lit " is not the configured events topic"))
  else if negb (bool_decide (signature_version e = ACCEPTED_SIGNATURE_VERSION)) then
    Err (UnsupportedSignatureVersion (lit "SignatureVersion " ++ debug_str (signature_version e)
           ++ lit " refused; set the topic's SignatureVersion attribute to 2"))
  else
    let? u := match sns_url (signing_cert_url e) (v_region v) with
              | Ok u => if is_signing_cert_url u then Ok u
                        else Err (VRefused (lit "SigningCertURL " ++ url_str u
                          ++ lit " is not /SimpleNotificationService-<32 hex digits>.pem without a query or fragment"))
              | Err reason => Err (VRefused (lit "SigningCertURL: " ++ reason))
              end in
    match string_to_sign e with
    | None => Err (VRefused (lit "a " ++ debug_str (kind e)
                      ++ lit " message without the fields its signature covers"))
    | Some signed =>
        match base64_decode (signature e) with
        | None => Err (VRefused (lit "Signature is not base64"))
        | Some sig => Ok (u, signed, sig)
        end
    end.

Definition verify (v : Verifier) (e : Envelope) : adapter (result Verdict ProviderError) :=
  match checked v e with
  | Err verdict => ARet (Ok verdict)
  | Ok (u, signed, sig) =>
      leta? cert := certificate u in
      if negb (is_end_entity_cert cert) then
        ARet (Ok (VRefused (url_str u ++ lit " is not an X.509 certificate")))
      else
        match verify_signature cert (as_bytes signed) sig with
        | Ok _ => ARet (Ok Authentic)
        | Err error => ARet (Ok (VRefused (lit "signature does not verify: " ++ error)))
        end
  end.

Definition check_subscribe_url (v : Verifier) (e : Envelope) : result unit text :=
  match sns_url (default [] (subscribe_url e)) (v_region v) with
  | Ok _ => Ok tt
  | Err reason => Err (lit "SubscribeURL: " ++ reason)
  end.

(** ** events.rs *)
Definition outcome_of (event_type : text) (is_final : bool) : DeliveryOutcome :=
  if bool_decide (event_type = lit "TEXT_DELIVERED") then OutDelivered
  else if negb is_final then OutInFlight
  else if bool_decide (event_type = lit "TEXT_SUCCESSFUL") then OutDelivered
  else if bool_decide (event_type ∈ [lit "TEXT_QUEUED"; lit "TEXT_PENDING"; lit "TEXT_SENT"]) then OutInFlight
  else if bool_decide (event_type ∈ [lit "TEXT_INVALID"; lit "TEXT_INVALID_MESSAGE"; lit "TEXT_BLOCKED";
            lit "TEXT_CARRIER_BLOCKED"; lit "TEXT_SPAM"; lit "TEXT_PROTECT_BLOCKED"]) then OutRejected
  else if bool_decide (event_type ∈ [lit "TEXT_UNREACHABLE"; lit "TEXT_CARRIER_UNREACHABLE"]) then OutFailed
  else if bool_decide (event_type = lit "TEXT_TTL_EXPIRED") then OutExpired
  else if bool_decide (event_type = lit "TEXT_UNKNOWN") then OutUncertain
  else OutUnknown.

(** [DateTime::from_timestamp_millis]. *)
Definition from_timestamp_millis (ms : Z) : option Z :=
  if (MIN_UTC <=? ms * 1000) && (ms * 1000 <=? MAX_UTC) then Some (ms * 1000) else None.

Definition parse_event (message : text) : result (list DeliveryUpdate) ProviderError :=
  let? event := map_err (fun error => Rejected (lit "MALFORMED_EVENT")
      (lit "SNS Message is not an End User Messaging SMS event: " ++ error)) (decode_event message) in
  if negb (starts_with (event_type event) (lit "TEXT_")) then Ok []
  else if bool_decide (trim (ev_message_id event) = []) then
    Err (Rejected (lit "MALFORMED_EVENT") (lit "event carries an empty messageId"))
  else
    let outcome := outcome_of (event_type event) (bool_decide (is_final event = Some true)) in
    let error_code := match outcome with
                      | OutDelivered | OutInFlight => None
                      | _ => message_status event
                      end in
    Ok [mkDeliveryUpdate (ev_message_id event) outcome
          (event_timestamp event ≫= from_timestamp_millis) (event_type event) error_code None].

(** ** What the fields hold

    A cached certificate was read, whole, from an SNS host of the region under
    the path it is kept by. *)
Definition cert_sound (region : text) (log : list exchange) (path : text) (cert : list Z) : Prop :=
  exists u reply pem,
    (sns_call u, reply) ∈ log /\ is_sns_url u region = true /\ is_signing_cert_url u = true /\
    url_path u = path /\ sns_fetched u reply = Ok pem /\ cert_from_pem pem = Ok cert.

Definition fields_ok (region : text) (log : list exchange) (now : Z) (st : AdapterFields) : Prop :=
  map_Forall (cert_sound region log) (af_certs st) /\
  (size (af_certs st) <= MAX_CACHED_CERTS)%nat /\
  (forall t, af_last_uncached_fetch st = Some t -> t <= now).

Lemma cert_sound_mono region log log' path cert :
  cert_sound region log path cert -> log ⊆ log' -> cert_sound region log' path cert.
Proof. intros (u & r & p & Hin & H) Hl. exists u, r, p. by split; [apply Hl|]. Qed.

Lemma fields_ok_mono region log now st log' now' :
  fields_ok region log now st -> log ⊆ log' -> now <= now' -> fields_ok region log' now' st.
Proof.
  intros (Hc & Hs & Ht) Hl Hn. split_and!; [|done|].
  - eapply map_Forall_impl; [exact Hc|]. intros k x H. by eapply cert_sound_mono.
  - intros t H. apply Ht in H. lia.
Qed.

Lemma fields_ok_fresh region log now : fields_ok region log now fresh_fields.
Proof. split_and!; [apply map_Forall_empty | cbn [fresh_fields af_certs]; rewrite map_size_empty; unfold MAX_CACHED_CERTS; lia | done]. Qed.

(** No fetched body is larger than the limit, and none is cut short. *)
Lemma read_chunks_whole u broken chunks body got :
  read_chunks u broken chunks body = Ok got -> Z.of_nat (length body) <= MAX_FETCH_BYTES ->
  got = body ++ concat chunks /\ Z.of_nat (length got) <= MAX_FETCH_BYTES /\ broken = None.
Proof.
  revert body. induction chunks as [|c r IH]; intros body; cbn [read_chunks concat].
  - destruct broken; [done|]. intros [= <-] Hb. by rewrite app_nil_r.
  - destruct (Z.ltb_spec MAX_FETCH_BYTES (Z.of_nat (length body) + Z.of_nat (length c))); [done|].
    intros Hr Hb. rewrite app_assoc. apply IH; [done|]. rewrite length_app. lia.
Qed.

Lemma store_cert_ok region log now path cert st :
  fields_ok region log now st -> cert_sound region log path cert ->
  fields_ok region log now
    (set_certs (<[path := cert]>
       (if bool_decide (MAX_CACHED_CERTS <= size (af_certs st))%nat then ∅ else af_certs st)) st).
Proof.
  intros (Hc & Hs & Ht) Hsound. split_and!; cbn [af_certs set_certs af_last_uncached_fetch]; [..|done].
  - apply map_Forall_insert_2; [done|]. case_bool_decide; [apply map_Forall_empty | done].
  - case_bool_decide as Hd.
    + rewrite insert_empty, map_size_singleton. unfold MAX_CACHED_CERTS. lia.
    + rewrite map_size_insert. destruct (af_certs st !! path); cbn; unfold MAX_CACHED_CERTS in *; lia.
Qed.

Lemma certificate_sound region u tr log :
  is_sns_url u region = true -> is_signing_cert_url u = true ->
  awp (fields_ok region) (certificate u) tr log (fun _ log o =>
    match o with Some (Ok cert) => cert_sound region log (url_path u) cert | _ => True end).
Proof.
  intros Hu Hs. unfold certificate, locked, cached_cert. cbn [abind awp].
  intros log1 now1 st1 Hl1 Hi1. split; [done|].
  destruct (af_certs st1 !! url_path u) as [cert|] eqn:E; [cbn; by apply Hi1|].
  apply awp_bind_ok. unfold permit_uncached_fetch, locked, permit_section. cbn [abind awp].
  intros log2 now2 st2 Hl2 Hi2. destruct (match af_last_uncached_fetch st2 with Some _ => _ | None => _ end);
    [by split|]. split.
  { destruct Hi2 as (? & ? & _). split_and!; [done..|]. intros t [= <-]. lia. }
  apply awp_bind_ok. unfold amap_err, sns_get, http. cbn [abind awp].
  intros log3 reply Hl3. destruct (sns_fetched u reply) as [pem|e] eqn:Hf; [|done].
  cbn [map_err]. apply awp_bind_ok. cbn [awp alift].
  destruct (cert_from_pem pem) as [cert|e] eqn:Hp; [|done]. cbn [map_err].
  cbn [abind awp]. intros log4 now4 st4 Hl4 Hi4.
  assert (cert_sound region log4 (url_path u) cert) as Hsound.
  { exists u, reply, pem. split_and!; [apply Hl4; left|done..]. }
  split; [by apply store_cert_ok | done].
Qed.

(** ** What an authentic envelope is *)
Definition authentic (v : Verifier) (log : list exchange) (e : Envelope) : Prop :=
  topic_arn e = v_topic_arn v /\ signature_version e = ACCEPTED_SIGNATURE_VERSION /\
  exists signed sig path cert,
    string_to_sign e = Some signed /\ base64_decode (signature e) = Some sig /\
    cert_sound (v_region v) log path cert /\ is_end_entity_cert cert = true /\
    verify_signature cert (as_bytes signed) sig = Ok tt.

Lemma authentic_mono v log log' e : authentic v log e -> log ⊆ log' -> authentic v log' e.
Proof.
  intros (Ht & Hv & s & g & p & c & H1 & H2 & H3 & H4) Hl.
  split; [done|]. split; [done|]. exists s, g, p, c.
  split; [done|]. split; [done|]. split; [by eapply cert_sound_mono | done].
Qed.

Lemma checked_ok v e u signed sig :
  checked v e = Ok (u, signed, sig) ->
  topic_arn e = v_topic_arn v /\ signature_version e = ACCEPTED_SIGNATURE_VERSION /\
  is_sns_url u (v_region v) = true /\ is_signing_cert_url u = true /\
  string_to_sign e = Some signed /\ base64_decode (signature e) = Some sig.
Proof.
  unfold checked, sns_url.
  case_bool_decide as Ht; [|done]. case_bool_decide as Hv; [|done]. cbn [negb].
  destruct (url_parse _) as [u0|]; [|done]. cbn [map_err rbind].
  destruct (is_sns_url u0 _) eqn:Hu; [|done].
  destruct (is_signing_cert_url u0) eqn:Hs; [|done]. cbn [rbind].
  destruct (string_to_sign e) as [s|]; [|done].
  destruct (base64_decode _) as [g|]; [|done]. intros [= <- <- <-]. by split_and!.
Qed.

Lemma verify_sound v e tr log :
  awp (fields_ok (v_region v)) (verify v e) tr log (fun _ log o =>
    o = Some (Ok Authentic) -> authentic v log e).
Proof.
  unfold verify. destruct (checked v e) as [[[u signed] sig]|verdict] eqn:Hc.
  2: { cbn. intros [= ->]. exfalso. revert Hc. unfold checked.
       repeat (case_match || case_bool_decide); cbn [negb rbind]; congruence. }
  apply checked_ok in Hc as (Ht & Hv & Hu & Hs & Hsig & Hb).
  apply awp_bind_ok. eapply awp_mono; [|by apply certificate_sound].
  intros tr' log' [[cert|e']|] Hcert; [|by cbn..].
  destruct (is_end_entity_cert cert) eqn:He; [|done]. cbn [negb].
  destruct (verify_signature _ _ _) as [[]|e''] eqn:Hver; [|done]. cbn. intros _.
  split_and!; [done..|]. by exists signed, sig, (url_path u), cert.
Qed.

(** ** The signed string binds what it covers *)
Definition kinds : list text := [NOTIFICATION; SUBSCRIPTION_CONFIRMATION; UNSUBSCRIBE_CONFIRMATION].

Lemma signed_fields_last e fs : signed_fields e = Some fs ->
  (exists pre, fs = pre ++ [(lit "Type", kind e)]) /\
  kind e ∈ kinds.
Proof.
  unfold signed_fields. case_bool_decide as Hk.
  - intros [= <-]. split; [|rewrite Hk; left].
    destruct (subject e); [by eexists [_; _; _; _; _] | by eexists [_; _; _; _]].
  - case_bool_decide as Hk2; [|done]. destruct (subscribe_url e), (token e); try done.
    intros [= <-]. split; [|unfold kinds; by right]. by eexists [_; _; _; _; _; _].
Qed.

(** The last fourteen characters tell the three kinds apart. *)
Lemma last_chars (a l : text) n : (n <= length l)%nat -> take n (reverse (a ++ l)) = take n (reverse l).
Proof. intros Hn. rewrite reverse_app, take_app_le; [done | by rewrite length_reverse]. Qed.

Lemma fields_string_app a b : fields_string (a ++ b) = fields_string a ++ fields_string b.
Proof. unfold fields_string. by rewrite bind_app. Qed.

Definition kind_tail (k : text) : text := take 14 (reverse (lit "Type" ++ [10] ++ k ++ [10])).

Lemma string_tail e s : string_to_sign e = Some s ->
  take 14 (reverse s) = kind_tail (kind e) /\
  kind e ∈ kinds.
Proof.
  unfold string_to_sign. intros (fs & Hf & ->)%fmap_Some.
  apply signed_fields_last in Hf as [[pre ->] Hk]. split; [|done].
  rewrite fields_string_app. cbn [fields_string mbind list_bind fst snd]. rewrite app_nil_r.
  apply last_chars. revert Hk. unfold kinds. rewrite !elem_of_cons, elem_of_nil.
  intros [-> | [-> | [-> | []]]]; vm_compute; lia.
Qed.

Lemma kind_tails_distinct :
  forallb (fun k => forallb (fun k' =>
      negb (bool_decide (kind_tail k = kind_tail k')) || bool_decide (k = k')) kinds) kinds = true.
Proof. vm_compute. reflexivity. Qed.

Lemma string_to_sign_kind e e' s :
  string_to_sign e = Some s -> string_to_sign e' = Some s -> kind e = kind e'.
Proof.
  intros [Ht Hk%list_elem_of_In]%string_tail [Ht' Hk'%list_elem_of_In]%string_tail. rewrite Ht in Ht'.
  pose proof (proj1 (forallb_forall _ _) kind_tails_distinct _ Hk) as H1.
  pose proof (proj1 (forallb_forall _ _) H1 _ Hk') as H2. cbn beta in H2.
  apply orb_true_iff in H2 as [H2|H2]; [|by apply bool_decide_eq_true in H2].
  apply negb_true_iff, bool_decide_eq_false in H2. by destruct H2.
Qed.

(** Lines: with no line break in a name or a value, the string is read back. *)
Lemma lines_inj (x y r r' : text) : 10 ∉ x -> 10 ∉ y ->
  x ++ [10] ++ r = y ++ [10] ++ r' -> x = y /\ r = r'.
Proof.
  revert y. induction x as [|a x IH]; intros [|b y] Hx Hy; cbn.
  - by intros [= ->].
  - intros [= <- _]. exfalso. apply Hy. left.
  - intros [= -> _]. exfalso. apply Hx. left.
  - intros [= -> H]. rewrite not_elem_of_cons in Hx, Hy.
    destruct (IH y) as [-> ->]; [tauto | tauto | done | done].
Qed.

Definition one_line (nv : text * text) : Prop := (10 ∉ nv.1) /\ (10 ∉ nv.2).

Lemma fields_string_inj fs gs : Forall one_line fs -> Forall one_line gs ->
  fields_string fs = fields_string gs -> fs = gs.
Proof.
  intros Hf. revert gs. induction Hf as [|[n v] fs [Hn Hv] Hf IH]; intros gs Hg Heq.
  - destruct Hg as [|[n' v'] gs _ _]; [done|]. exfalso. cbn in Heq.
    by destruct n' as [|? ?].
  - destruct Hg as [|[n' v'] gs [Hn' Hv'] Hg]; [by destruct n|].
    cbn in Hn, Hv, Hn', Hv'. cbn [fields_string mbind list_bind fst snd] in Heq.
    rewrite <- !app_assoc in Heq. apply lines_inj in Heq as [-> Heq]; [|done..].
    apply lines_inj in Heq as [-> Heq]; [|done..]. f_equal. by apply IH.
Qed.


Lemma signed_fields_inj e e' fs :
  signed_fields e = Some fs -> signed_fields e' = Some fs -> kind e = kind e' ->
  message e = message e' /\ message_id e = message_id e' /\ timestamp e = timestamp e' /\
  topic_arn e = topic_arn e' /\
  (if bool_decide (kind e = NOTIFICATION) then subject e = subject e'
   else subscribe_url e = subscribe_url e' /\ token e = token e').
Proof.
  intros H H' Hk. assert (map snd <$> signed_fields e = map snd <$> signed_fields e') as Heq
    by (by rewrite H, H').
  unfold signed_fields in *. rewrite <- Hk in *. destruct (bool_decide (kind e = NOTIFICATION)).
  - destruct (subject e), (subject e'); cbn [fmap option_fmap option_map app map snd] in Heq;
      injection Heq; intros; by split_and!; subst.
  - destruct (bool_decide _); [|discriminate].
    destruct (subscribe_url e), (token e); [|discriminate..].
    destruct (subscribe_url e'), (token e'); [|discriminate..].
    cbn [fmap option_fmap option_map app map snd] in Heq.
    injection Heq; intros; subst; by split_and!.
Qed.

(** C15. The signed string names the kind of the message, whatever the fields hold,
    so an envelope signed as one kind is never read as another; and where no
    field has a line break in it, two envelopes with one signed string agree
    on everything the signature is meant to cover. *)
Theorem signed_string_binds e e' s :
  string_to_sign e = Some s -> string_to_sign e' = Some s ->
  kind e = kind e' /\
  (forall fs fs', signed_fields e = Some fs -> signed_fields e' = Some fs' ->
    Forall one_line fs -> Forall one_line fs' ->
    message e = message e' /\ message_id e = message_id e' /\ timestamp e = timestamp e' /\
    topic_arn e = topic_arn e' /\
    (if bool_decide (kind e = NOTIFICATION) then subject e = subject e'
     else subscribe_url e = subscribe_url e' /\ token e = token e')).
Proof.
  intros Hs Hs'. pose proof (string_to_sign_kind _ _ _ Hs Hs') as Hk. split; [done|].
  intros fs fs' Hf Hf' Hl Hl'. unfold string_to_sign in Hs, Hs'. rewrite Hf in Hs. rewrite Hf' in Hs'.
  assert (fs = fs') as <- by (apply fields_string_inj; [done..|]; cbn in Hs, Hs'; congruence).
  by eapply signed_fields_inj.
Qed.

(** ** The pace of certificate fetches

    The critical sections of any number of tasks, each at the instant it ran;
    the instants at which a fetch was permitted. *)
Fixpoint permitted_at (st : AdapterFields) (nows : list Z) : list Z :=
  match nows with
  | [] => []
  | now :: rest =>
      match permit_section now st with
      | Some (true, st') => now :: permitted_at st' rest
      | Some (false, st') => permitted_at st' rest
      | None => []
      end
  end.

Lemma permitted_after st nows t : af_last_uncached_fetch st = Some t ->
  HdRel (fun a b => a + MIN_UNCACHED_FETCH_INTERVAL <= b) t (permitted_at st nows).
Proof.
  revert st. induction nows as [|now r IH]; intros st Ht; cbn; [constructor|].
  rewrite Ht. destruct (Z.ltb_spec (Z.max 0 (now - t)) MIN_UNCACHED_FETCH_INTERVAL); [by apply IH|].
  constructor. unfold MIN_UNCACHED_FETCH_INTERVAL, NANOS_PER_SEC in *. lia.
Qed.

(** Whatever the clock reads in between, two permitted fetches are at least
    five seconds apart. *)
Theorem cert_fetches_spaced st nows :
  Sorted (fun a b => a + MIN_UNCACHED_FETCH_INTERVAL <= b) (permitted_at st nows).
Proof.
  revert st. induction nows as [|now r IH]; intros st; cbn; [constructor|].
  destruct (match af_last_uncached_fetch st with Some _ => _ | None => _ end); [apply IH|].
  constructor; [apply IH | by apply permitted_after].
Qed.

End Verifier.

(** ** Examples *)
Definition ex_notification (signature message : text) : Envelope :=
  mkEnvelope NOTIFICATION (lit "e1") None (lit "arn:aws:sns:eu-west-1:1:t") None message None
    (lit "2026-01-01T00:00:00Z") (lit "2") signature [].

(** Two copies that differ in what is not signed. *)
Definition ex_signed : text :=
  fields_string [(lit "Message", lit "m"); (lit "MessageId", lit "e1");
    (lit "Timestamp", lit "2026-01-01T00:00:00Z"); (lit "TopicArn", lit "arn:aws:sns:eu-west-1:1:t");
    (lit "Type", NOTIFICATION)].

Lemma signed_string_binds_witness :
  string_to_sign (ex_notification (lit "a") (lit "m")) = Some ex_signed /\
  string_to_sign (ex_notification (lit "b") (lit "m")) = Some ex_signed /\
  kind (ex_notification (lit "a") (lit "m")) = kind (ex_notification (lit "b") (lit "m")).
Proof.
  assert (string_to_sign (ex_notification (lit "a") (lit "m")) = Some ex_signed) as H1 by (vm_compute; reflexivity).
  assert (string_to_sign (ex_notification (lit "b") (lit "m")) = Some ex_signed) as H2 by (vm_compute; reflexivity).
  exact (conj H1 (conj H2 (proj1 (signed_string_binds _ _ _ H1 H2)))).
Defined.

(** With a line break in a value the string no longer tells where it ends. *)
Example line_break_ambiguous :
  let e := mkEnvelope NOTIFICATION (lit "y") None [] (Some (lit "z")) (lit "x") None [] (lit "2") [] [] in
  let e' := mkEnvelope NOTIFICATION (lit "y" ++ [10] ++ lit "Subject" ++ [10] ++ lit "z") None [] None
              (lit "x") None [] (lit "2") [] [] in
  string_to_sign e = string_to_sign e'.
Proof. vm_compute. reflexivity. Qed.

End Sns.
