(* ===== verification/AwsProvider.v ===== *)
(** * sms-provider-aws-sms: the AWS End User Messaging adapter

    lib.rs (configuration, submission, the classification of its errors, the
    authentication of callbacks) and sigv4.rs (the request signature).  SNS and
    its events are in [Sns].  Chrono's formatting and the decoders serde derives
    are parameters ([AwsLib]). *)

From S2P Require Import Prelude Float64 ProviderApi Schema Sql WorkerRouting Dlr Webhook AuditChain Adapter.
From S2P Require Import Sns.

Module AwsSms.

(** ** sigv4.rs *)
Definition to_ascii_lowercase (c : Z) : Z := if (65 <=? c) && (c <=? 90) then c + 32 else c.

Record SigningRequest := mkSigningRequest {
  sg_method : text;
  sg_host : text;
  sg_path : text;
  sg_headers : list (text * text);
  sg_body : list Z;
  sg_region : text;
  sg_service : text }.

Record Signature := mkSignature {
  amz_date : text;
  authorization : text }.

(** The order of pairs of strings, and [Vec::sort]. *)
Definition header_leb (a b : text * text) : bool :=
  if bool_decide (a.1 = b.1) then text_leb a.2 b.2 else text_leb a.1 b.1.

Fixpoint insert_header (h : text * text) (l : list (text * text)) : list (text * text) :=
  match l with
  | [] => [h]
  | x :: r => if header_leb h x then h :: l else x :: insert_header h r
  end.

Definition sort_headers (l : list (text * text)) : list (text * text) := foldr insert_header [] l.

Record SendTextMessageResponse := mkSendResponse { message_id : option text }.

Record AwsErrorBody := mkErrorBody {
  eb_kind : option text;
  eb_message : option text;
  eb_reason : option text;
  eb_resource_type : option text }.

Definition default_error_body : AwsErrorBody := mkErrorBody None None None None.

(** [format("%Y%m%dT%H%M%SZ")] of an instant, and the decoders. *)
Class AwsLib := {
  format_amz_date : Z -> text;
  decode_send_response : text -> option SendTextMessageResponse;
  decode_error_body : text -> option AwsErrorBody }.

Section Sign.

Context `{M : MacLib} `{W : AwsLib}.

Definition canonical_headers (headers : list (text * text)) : text :=
  headers ≫= (fun nv => nv.1 ++ lit ":" ++ nv.2 ++ [10]).

Definition all_headers (request : SigningRequest) (amz_date : text) : list (text * text) :=
  sort_headers (map (fun nv => (map to_ascii_lowercase nv.1, trim nv.2)) (sg_headers request)
                ++ [(lit "host", sg_host request); (lit "x-amz-date", amz_date)]).

(** [&amz_date[..8]]: the date is ASCII, so bytes are characters. *)
Definition sign (access_key_id secret_access_key : text) (request : SigningRequest) (now : Z) : Signature :=
  let amz_date := format_amz_date now in
  let date := take 8 amz_date in
  let headers := all_headers request amz_date in
  let signed_headers := join (lit ";") (fst <$> headers) in
  let canonical_request :=
    sg_method request ++ [10] ++ sg_path request ++ [10; 10] ++ canonical_headers headers ++ [10]
      ++ signed_headers ++ [10] ++ hex_encode (sha256 (sg_body request)) in
  let scope := date ++ lit "/" ++ sg_region request ++ lit "/" ++ sg_service request ++ lit "/aws4_request" in
  let string_to_sign :=
    lit "AWS4-HMAC-SHA256" ++ [10] ++ amz_date ++ [10] ++ scope ++ [10]
      ++ hex_encode (sha256 (as_bytes canonical_request)) in
  let k_date := hmac_sha256 (as_bytes (lit "AWS4" ++ secret_access_key)) (as_bytes date) in
  let k_region := hmac_sha256 k_date (as_bytes (sg_region request)) in
  let k_service := hmac_sha256 k_region (as_bytes (sg_service request)) in
  let k_signing := hmac_sha256 k_service (as_bytes (lit "aws4_request")) in
  let signature := hex_encode (hmac_sha256 k_signing (as_bytes string_to_sign)) in
  mkSignature amz_date
    (lit "AWS4-HMAC-SHA256 Credential=" ++ access_key_id ++ lit "/" ++ scope
      ++ lit ", SignedHeaders=" ++ signed_headers ++ lit ", Signature=" ++ signature).

End Sign.

(** ** lib.rs: constants and configuration *)
Definition KEY : text := lit "aws_sms".
Definition PROVIDER_NOUN : text := lit "AWS".
Definition SERVICE : text := lit "sms-voice".
Definition TARGET : text := lit "PinpointSMSVoiceV2.SendTextMessage".
Definition JSON_1_0 : text := lit "application/x-amz-json-1.0".
Definition MAX_BODY_CHARS : nat := 1600.
Definition MIN_TIME_TO_LIVE_SECS : Z := 5.
Definition MAX_TIME_TO_LIVE_SECS : Z := 259200.
Definition THROTTLE_RETRY_AFTER : duration := seconds 1.
Definition CONTEXT_MESSAGE_ID : text := lit "vsmsMessageId".

Inductive MessageType := Transactional | Promotional.

Definition wire (m : MessageType) : text :=
  match m with Transactional => lit "TRANSACTIONAL" | Promotional => lit "PROMOTIONAL" end.

Record AwsSmsConfig := mkConfig {
  region : text;
  access_key_id : text;
  secret_access_key : text;
  configuration_set : text;
  origination_identity : option text;
  message_type : MessageType;
  tps_ceiling : f64;
  cost_per_segment_xaf : Decimal;
  supports_alphanumeric_sender : bool;
  endpoint_url : option text;
  time_to_live : option duration;
  connect_timeout : duration;
  request_timeout : duration }.

Definition set_identity_and_endpoint (identity endpoint : option text) (c : AwsSmsConfig) : AwsSmsConfig :=
  mkConfig (region c) (access_key_id c) (secret_access_key c) (configuration_set c) identity
    (message_type c) (tps_ceiling c) (cost_per_segment_xaf c) (supports_alphanumeric_sender c)
    endpoint (time_to_live c) (connect_timeout c) (request_timeout c).

Inductive ConfigError :=
| CfgRegion (value : text)
| CfgEndpoint (value : text)
| CfgEmpty (name : text)
| CfgTimeToLive (ttl : duration)
| CfgTopicArn (value : text).

Definition is_region (r : text) : bool :=
  negb (bool_decide (r = [])) && bool_decide (45 ∈ r)
  && forallb (fun b => ((97 <=? b) && (b <=? 122)) || is_ascii_digit b || (b =? 45)) r
  && negb (starts_with r (lit "-")) && negb (starts_with (reverse r) (lit "-")).

Section Provider.

Context `{M : MacLib} `{J : JsonLib} `{R : ReqwestLib} `{W : AwsLib} `{L : Sns.SnsLib} `{U : UnicodeDebug}.

Definition message_type_from_str (value : text) : result MessageType text :=
  let lower := map to_ascii_lowercase value in
  if bool_decide (lower = lit "transactional") then Ok Transactional
  else if bool_decide (lower = lit "promotional") then Ok Promotional
  else Err (debug_str lower ++ lit " is not transactional or promotional").

Record SendSide := mkSendSide {
  ss_config : AwsSmsConfig;
  ss_endpoint : url;
  ss_host : text }.

Record AwsSmsProvider := mkAws {
  send_side : option SendSide;
  verifier : option Sns.Verifier }.

(** [Option::take_if] of a blank value. *)
Definition unless_blank (v : option text) : option text :=
  match v with Some s => if bool_decide (trim s = []) then None else Some s | None => None end.

Definition first_empty (l : list (text * text)) : option text :=
  fst <$> List.find (fun nv => bool_decide (trim nv.2 = [])) l.

Definition sender (config : AwsSmsConfig) : result AwsSmsProvider ConfigError :=
  if negb (is_region (region config)) then Err (CfgRegion (region config))
  else
    match first_empty [(lit "access key id", access_key_id config);
                       (lit "secret access key", secret_access_key config);
                       (lit "configuration set", configuration_set config)] with
    | Some name => Err (CfgEmpty name)
    | None =>
        let config := set_identity_and_endpoint (unless_blank (origination_identity config))
                        (unless_blank (endpoint_url config)) config in
        let? _ := match time_to_live config with
                  | Some ttl =>
                      if (MIN_TIME_TO_LIVE_SECS <=? ttl / seconds 1)
                         && (ttl / seconds 1 <=? MAX_TIME_TO_LIVE_SECS)
                      then Ok tt else Err (CfgTimeToLive ttl)
                  | None => Ok tt
                  end in
        let raw_endpoint := default (lit "https://" ++ SERVICE ++ lit "." ++ region config
                                       ++ lit ".amazonaws.com/") (endpoint_url config) in
        match url_parse raw_endpoint with
        | Ok u =>
            if bool_decide (url_scheme u ∈ [lit "http"; lit "https"]) && Db.is_null (url_query u) then
              if bool_decide (url_authority u = []) then Err (CfgEndpoint raw_endpoint)
              else Ok (mkAws (Some (mkSendSide config u (url_authority u))) None)
            else Err (CfgEndpoint raw_endpoint)
        | Err _ => Err (CfgEndpoint raw_endpoint)
        end
    end.

Definition receiver_with (events_topic_arn : text) : result AwsSmsProvider ConfigError :=
  match Sns.verifier_new events_topic_arn with
  | Some v => Ok (mkAws None (Some v))
  | None => Err (CfgTopicArn events_topic_arn)
  end.

(** ** Submission *)
Record SendTextMessageRequest := mkSendRequest {
  st_destination_phone_number : text;
  st_origination_identity : option text;
  st_message_body : text;
  st_message_type : text;
  st_configuration_set_name : text;
  st_time_to_live : option Z;
  st_context : list (text * text) }.

Definition send_request_json (b : SendTextMessageRequest) : Json :=
  JObject ([(lit "DestinationPhoneNumber", JString (st_destination_phone_number b))]
    ++ match st_origination_identity b with
       | Some s => [(lit "OriginationIdentity", JString s)] | None => [] end
    ++ [(lit "MessageBody", JString (st_message_body b));
        (lit "MessageType", JString (st_message_type b));
        (lit "ConfigurationSetName", JString (st_configuration_set_name b))]
    ++ match st_time_to_live b with Some n => [(lit "TimeToLive", JInt n)] | None => [] end
    ++ [(lit "Context", JObject ((fun kv => (kv.1, JString kv.2)) <$> st_context b))]).

Definition ROUTE_SPECIFIC_VALIDATION_REASONS : list text :=
  [lit "CHANNEL_NOT_ENABLED"; lit "COUNTRY_NOT_ENABLED"; lit "DESTINATION_COUNTRY_BLOCKED";
   lit "INTERNATIONAL_SENDING_NOT_SUPPORTED"; lit "INVALID_IDENTITY_FOR_DESTINATION_COUNTRY";
   lit "PRICE_OVER_THRESHOLD"; lit "SENDER_ID_NOT_REGISTERED"; lit "SENDER_ID_NOT_SUPPORTED";
   lit "SENDER_ID_REQUIRES_REGISTRATION"].

Definition ACCOUNT_LEVEL_ERRORS : list text :=
  [lit "AccessDeniedException"; lit "ExpiredTokenException"; lit "IncompleteSignature";
   lit "InvalidClientTokenId"; lit "InvalidSignatureException"; lit "MissingAuthenticationToken";
   lit "ResourceNotFoundException"; lit "ServiceQuotaExceededException"; lit "SignatureDoesNotMatch";
   lit "UnrecognizedClientException"].

Definition CONFLICT_REJECTED : list text :=
  [lit "DESTINATION_PHONE_NUMBER_BLOCKED_BY_PROTECT_NUMBER_OVERRIDE";
   lit "DESTINATION_PHONE_NUMBER_OPTED_OUT"].

Definition CONFLICT_UNAVAILABLE : list text := [lit "MESSAGE_TYPE_MISMATCH"; lit "RESOURCE_NOT_ACTIVE"].

Definition is_sender_specific (kind : text) (parsed : AwsErrorBody) : bool :=
  if bool_decide (kind = lit "AccessDeniedException") then Db.is_null (eb_reason parsed)
  else if bool_decide (kind = lit "ResourceNotFoundException") then
    negb (bool_decide (eb_resource_type parsed = Some (lit "configuration-set")))
  else false.

(** The name of an error: after the last [#], before the first [:]. *)
Definition error_name (raw : text) : text :=
  hd [] (split_on 58 (List.last (split_on 35 raw) raw)).

Definition classify_error (status : Z) (error_type : option text) (body : text)
  (sender_from_request : bool) : ProviderError :=
  let parsed := default default_error_body (decode_error_body body) in
  let kind := default [] (error_name <$> (match error_type with Some t => Some t | None => eb_kind parsed end)) in
  let message := default body (eb_message parsed) in
  if bool_decide (kind = lit "ThrottlingException") then Transient THROTTLE_RETRY_AFTER message
  else if sender_from_request && is_sender_specific kind parsed then Permanent kind message
  else if bool_decide (kind ∈ ACCOUNT_LEVEL_ERRORS) then
    let detail := match eb_reason parsed with
                  | Some reason => lit " (" ++ reason ++ lit ")"
                  | None => []
                  end in
    Unavailable (lit "AWS refused the account: " ++ kind ++ detail ++ lit ": " ++ message) None
  else if bool_decide (kind = lit "ValidationException") then
    let reason := default kind (eb_reason parsed) in
    if bool_decide (reason ∈ ROUTE_SPECIFIC_VALIDATION_REASONS) then Permanent reason message
    else Rejected reason message
  else if bool_decide (kind = lit "ConflictException") then
    let reason := default kind (eb_reason parsed) in
    if bool_decide (reason ∈ CONFLICT_REJECTED) then Rejected reason message
    else if bool_decide (reason ∈ CONFLICT_UNAVAILABLE) then
      Unavailable (lit "AWS cannot send from this account setup: " ++ reason ++ lit ": " ++ message) None
    else Permanent reason message
  else classify_common_submit_status display_status status message PROVIDER_NOUN THROTTLE_RETRY_AFTER.

(** [headers().get(name)] and [HeaderValue::to_str]. *)
Definition header_text (name : text) (r : Response) : option text :=
  match List.find (fun nv => bool_decide (nv.1 = name)) (rs_headers r) with
  | Some nv => header_to_str nv.2
  | None => None
  end.

Definition identity_for (config : AwsSmsConfig) (req : SubmitRequest) : option text :=
  match origination_identity config with
  | Some s => Some s
  | None => if bool_decide (trim (sr_sender_id req) = []) then None else Some (sr_sender_id req)
  end.

Definition send_body (config : AwsSmsConfig) (req : SubmitRequest) : list Z :=
  as_bytes (value_to_string (send_request_json
    (mkSendRequest (sr_to req) (identity_for config req) (sr_body req) (wire (message_type config))
       (configuration_set config) ((fun ttl => ttl / seconds 1) <$> time_to_live config)
       [(CONTEXT_MESSAGE_ID, sr_reference req)]))).

Definition submit (self : AwsSmsProvider) (req : SubmitRequest)
  : adapter (result SubmitAck ProviderError) :=
  match send_side self with
  | None => ARet (Err (Unavailable
      (lit "this AwsSmsProvider only receives delivery events; it has no sending credentials") None))
  | Some send =>
      let config := ss_config send in
      if (MAX_BODY_CHARS <? length (sr_body req))%nat then
        ARet (Err (Rejected (lit "BODY_TOO_LONG")
          (lit "AWS accepts at most " ++ show_Z (Z.of_nat MAX_BODY_CHARS) ++ lit " characters per message")))
      else
        let sender_from_request :=
          Db.is_null (origination_identity config) && negb (Db.is_null (identity_for config req)) in
        let body := send_body config req in
        leta now := utc_now in
        let signature := sign (access_key_id config) (secret_access_key config)
          (mkSigningRequest (lit "POST") (ss_host send) (url_path (ss_endpoint send))
             [(lit "content-type", JSON_1_0); (lit "x-amz-target", TARGET)] body (region config) SERVICE) now in
        leta? response := amap_err (fun error => classify_transport_error error PROVIDER_NOUN)
          (http (mkHttpCall POST (url_str (ss_endpoint send)) NoCredentials
             [(lit "content-type", JSON_1_0); (lit "x-amz-target", TARGET);
              (lit "x-amz-date", amz_date signature); (lit "authorization", authorization signature)]
             (RawPayload body))) in
        let status := rs_status response in
        let error_type := header_text (lit "x-amzn-errortype") response in
        let answer := rs_text response in
        if is_success status then
          leta? answer := alift (map_err (fun error => Indeterminate
              (lit "AWS accepted the message but the response could not be read: " ++ error) (Some error)) answer) in
          let no_id := Indeterminate (lit "AWS answered " ++ display_status status
                         ++ lit " without a MessageId: " ++ answer) None in
          match decode_send_response answer with
          | Some (mkSendResponse (Some id)) =>
              if bool_decide (trim id = []) then ARet (Err no_id) else ARet (Ok (mkSubmitAck id None))
          | _ => ARet (Err no_id)
          end
        else
          ARet (Err (classify_error status error_type (match answer with Ok t => t | Err _ => [] end)
                       sender_from_request))
  end.

(** ** Callbacks *)
Definition parse_envelope (body : list Z) : result Sns.Envelope text :=
  map_err (fun error => lit "not an SNS message: " ++ error) (Sns.decode_envelope body).

Definition authenticate_callback (self : AwsSmsProvider) (raw : RawCallback)
  : adapter (result CallbackDisposition ProviderError) :=
  match verifier self with
  | None => ARet (Ok (Refused (lit "this process has no AWS SMS events topic configured")))
  | Some v =>
      match parse_envelope (rcb_body raw) with
      | Err reason => ARet (Ok (Refused reason))
      | Ok envelope =>
          leta? verdict := Sns.verify v envelope in
          match verdict with
          | Sns.VRefused reason | Sns.UnsupportedSignatureVersion reason => ARet (Ok (Refused reason))
          | Sns.Authentic =>
              if bool_decide (Sns.kind envelope = Sns.NOTIFICATION) then ARet (Ok Ingest)
              else if bool_decide (Sns.kind envelope = Sns.SUBSCRIPTION_CONFIRMATION) then
                match Sns.check_subscribe_url v envelope with
                | Err reason => ARet (Ok (Refused reason))
                | Ok _ => ARet (Ok (Acknowledged (lit "SNS subscription to " ++ Sns.topic_arn envelope
                            ++ lit " is not confirmed; see the gateway log")))
                end
              else if bool_decide (Sns.kind envelope = Sns.UNSUBSCRIBE_CONFIRMATION) then
                ARet (Ok (Acknowledged (lit "noted an SNS unsubscribe confirmation")))
              else ARet (Ok (Refused (lit "unexpected SNS message Type " ++ debug_str (Sns.kind envelope))))
          end
      end
  end.

Definition parse_dlr (raw : RawCallback) : result (list DeliveryUpdate) ProviderError :=
  let? envelope := map_err (fun message => Rejected (lit "MALFORMED_DLR") message)
                     (parse_envelope (rcb_body raw)) in
  if negb (bool_decide (Sns.kind envelope = Sns.NOTIFICATION)) then Ok []
  else Sns.parse_event (Sns.message envelope).

(** ** The trait *)
Definition capabilities (self : AwsSmsProvider) : Capabilities :=
  match send_side self with
  | Some send =>
      mkCapabilities true (supports_alphanumeric_sender (ss_config send)) true true
        (tps_ceiling (ss_config send)) (cost_per_segment_xaf (ss_config send))
  | None => mkCapabilities true false false false f64_zero (0, 0)
  end.

Definition provider (self : AwsSmsProvider) : SmsProvider :=
  mkProvider KEY (capabilities self) (submit self) (authenticate_callback self) parse_dlr
    default_poll_status health_ok.

Definition payload (self : AwsSmsProvider) (req : SubmitRequest) : Payload :=
  match send_side self with
  | Some send => RawPayload (send_body (ss_config send) req)
  | None => NoPayload
  end.

(** The reference is the message id of the answer, and not blank. *)
Definition acked (req : SubmitRequest) (r : Response) (ack : SubmitAck) : Prop :=
  trim (provider_ref ack) <> [] /\ provider_ref_alt ack = None /\
  exists answer, rs_text r = Ok answer /\
    decode_send_response answer = Some (mkSendResponse (Some (provider_ref ack))).

(** ** Proofs *)
Lemma classify_error_bounded status error_type body from_request :
  retry_bounded (Err (classify_error status error_type body from_request)).
Proof.
  unfold classify_error. repeat case_match; try done; by apply common_status_bounded.
Qed.

#[global] Instance aws_submit_sound self : SubmitSound (provider self) (payload self) acked.
Proof.
  intros req. cbn [sp_submit provider]. unfold submit.
  destruct (send_side self) as [send|] eqn:Hsend; [|by apply submit_once_before].
  destruct (_ <? _)%nat; [by apply submit_once_before|].
  cbn [utc_now abind awp]. intros now. set (sig := sign _ _ _ _). clearbody sig.
  apply awp_bind_ok. unfold amap_err, http. cbn [abind awp].
  assert (RawPayload (send_body (ss_config send) req) = payload self req) as Hpay
    by (unfold payload; by rewrite Hsend).
  intros log' [response|e] Hl; cbn [map_err].
  2: { by apply submit_once_transport. }
  destruct (is_success (rs_status response)) eqn:Hs.
  2: { apply submit_once_refused; [done..| apply classify_error_bounded | done]. }
  apply awp_bind_ok. cbn [awp alift].
  destruct (rs_text response) as [answer|e] eqn:Ht; cbn [map_err]; [|by apply submit_once_sent].
  destruct (decode_send_response answer) as [[[id|]]|] eqn:Hd; [|by apply submit_once_sent..].
  case_bool_decide as Hid; [by apply submit_once_sent|].
  apply submit_once_ack; [done..| |]; [cbn; intros ->; by apply Hid|].
  split; [done|]. split; [done|]. by exists answer.
Qed.

(** A callback is ingested only when its envelope is an authentic notification. *)
Lemma authenticate_sound self v raw tr log : verifier self = Some v ->
  awp (Sns.fields_ok (Sns.v_region v)) (authenticate_callback self raw) tr log (fun _ log o =>
    o = Some (Ok Ingest) ->
    exists envelope, Sns.decode_envelope (rcb_body raw) = Ok envelope /\
      Sns.kind envelope = Sns.NOTIFICATION /\ Sns.authentic v log envelope).
Proof.
  intros Hv. unfold authenticate_callback. rewrite Hv. unfold parse_envelope.
  destruct (Sns.decode_envelope (rcb_body raw)) as [envelope|e]; [|done]. cbn [map_err].
  apply awp_bind_ok. eapply awp_mono; [|apply Sns.verify_sound].
  intros tr' log' [[[]|e]|] Ha; [|done..]. specialize (Ha eq_refl).
  case_bool_decide; [intros _; by exists envelope|].
  case_bool_decide; [by destruct (Sns.check_subscribe_url v envelope)|]. by case_bool_decide.
Qed.

End Provider.

End AwsSms.
