(* ===== verification/Callbacks.v ===== *)
(** * The providers' callbacks: sms-gateway/src/dlr.rs, and the adapters together

    [POST /dlr/{providerKey}] finds the adapter, has it authenticate the raw
    callback and hands what it accepts to the ingester.  The first half runs on
    the adapter ([adapter]), the second on the database ([prog]): the handler
    is an adapter program that returns the database program to run.

    The theorems here join the adapters to the rest: each submission goes out
    once, a receipt finds the message it answers, and nothing the AWS door has
    not authenticated reaches the database. *)

From S2P Require Import Prelude Float64 Msisdn ProviderApi Schema Errors Db DbLogic Commits WorkerRouting Dispatch Dlr.
From S2P Require Import Webhook AuditChain Adapter MtnProvider OrangeProvider Sns AwsProvider.
From S2P Require Import DbRef DemoData.

Definition NOT_FOUND : Z := 404.
Definition OK : Z := 200.
Definition FORBIDDEN : Z := 403.
Definition SERVICE_UNAVAILABLE : Z := 503.
Definition BAD_REQUEST : Z := 400.

Record DlrProvider := mkDlrProvider {
  dp_provider : SmsProvider;
  dp_row_id : text }.

(** The [HashMap] of [router]: of two adapters with one key the later stays. *)
Definition providers_by_key (providers : list DlrProvider) : gmap text DlrProvider :=
  foldl (fun acc entry => <[sp_key (dp_provider entry) := entry]> acc) ∅ providers.

Definition raw_callback (headers : list (text * list Z)) (body : list Z) : RawCallback :=
  mkRawCallback (map (fun nv => (nv.1, default [] (header_to_str nv.2))) headers) body.

Section Handler.

Context `{E : CratestackErrors}.

(** The second half: the ingester's answer as a status. *)
Definition ingest_status (entry : DlrProvider) (raw : RawCallback) : prog Z :=
  let! result := ingest (sp_parse_dlr (dp_provider entry)) (dp_row_id entry) raw in
  match result with
  | Ok _ => Ret OK
  | Err (Rejected _ _) => Ret BAD_REQUEST
  | Err _ => Ret BAD_REQUEST
  end.

Definition dlr_handler (providers : gmap text DlrProvider) (provider_key : text)
  (headers : list (text * list Z)) (body : list Z) : adapter (prog Z) :=
  match providers !! provider_key with
  | None => ARet (Ret NOT_FOUND)
  | Some entry =>
      let raw := raw_callback headers body in
      leta disposition := sp_authenticate_callback (dp_provider entry) raw in
      ARet match disposition with
           | Ok Ingest => ingest_status entry raw
           | Ok (Acknowledged _) => Ret OK
           | Ok (Refused _) => Ret FORBIDDEN
           | Err _ => Ret SERVICE_UNAVAILABLE
           end
  end.

(** ** Only authenticated callbacks reach the database *)
Context `{M : MacLib} `{J : JsonLib} `{R : ReqwestLib} `{W : AwsSms.AwsLib} `{L : Sns.SnsLib}
  `{U : UnicodeDebug}.

(** One request of the AWS door, with what it answered. *)
Definition aws_request (providers : gmap text DlrProvider) (request : list (text * list Z) * list Z)
  : adapter (list Z * prog Z) :=
  leta program := dlr_handler providers AwsSms.KEY request.1 request.2 in ARet (request.2, program).

Lemma aws_request_sound providers self v row request tr log :
  providers !! AwsSms.KEY = Some (mkDlrProvider (AwsSms.provider self) row) ->
  AwsSms.verifier self = Some v ->
  awp (Sns.fields_ok (Sns.v_region v)) (aws_request providers request) tr log (fun _ log o =>
    forall body program, o = Some (body, program) ->
    (exists status, program = Ret status) \/
    exists envelope, Sns.decode_envelope body = Ok envelope /\
      Sns.kind envelope = Sns.NOTIFICATION /\ Sns.authentic v log envelope).
Proof.
  intros Hp Hv. unfold aws_request, dlr_handler. rewrite Hp. cbn [dp_provider sp_authenticate_callback AwsSms.provider].
  apply awp_bind, awp_bind. eapply awp_mono; [|by apply AwsSms.authenticate_sound].
  intros tr' log' [d|] Ha; [|done]. cbn [awp]. intros body program [= <- <-].
  destruct d as [[| |]|]; [|left; by eexists..]. right. by apply Ha.
Qed.

Lemma receiver_verifier topic self : AwsSms.receiver_with topic = Ok self ->
  exists v, AwsSms.verifier self = Some v /\ Sns.v_topic_arn v = topic /\
    Sns.region_of_topic_arn topic = Some (Sns.v_region v).
Proof.
  unfold AwsSms.receiver_with, Sns.verifier_new.
  destruct (Sns.region_of_topic_arn topic) as [region|]; [|done]. cbn. intros [= <-]. by eexists.
Qed.

Lemma sns_url_host u region : Sns.is_sns_url u region = true ->
  url_scheme u = lit "https" /\ url_host u = Some (lit "sns." ++ region ++ lit ".amazonaws.com").
Proof.
  unfold Sns.is_sns_url. rewrite negb_true_iff. intros H. split_and_bool. by split.
Qed.

(** C8. Any number of callbacks arrive at the AWS door at once, with any bodies,
    and the network answers anything.  A request whose answer involves the
    database at all carried a notification for the configured topic whose
    signature verifies, over the fields it covers, under a certificate read
    whole from an https URL of the region's SNS host; and no more than eight
    certificates are ever kept. *)
Theorem callbacks_authenticated providers topic self row requests s :
  AwsSms.receiver_with topic = Ok self ->
  providers !! AwsSms.KEY = Some (mkDlrProvider (AwsSms.provider self) row) ->
  rtc apool_step (mkSystem 0 fresh_fields [] (map (aws_request providers) requests)) s ->
  (size (af_certs (as_fields s)) <= 8)%nat /\
  forall i body program, as_tasks s !! i = Some (ARet (body, program)) ->
    (exists status, program = Ret status) \/
    exists envelope signed sig cert,
      Sns.decode_envelope body = Ok envelope /\ Sns.kind envelope = Sns.NOTIFICATION /\
      Sns.topic_arn envelope = topic /\ Sns.string_to_sign envelope = Some signed /\
      Sns.base64_decode (Sns.signature envelope) = Some sig /\
      Sns.verify_signature cert (as_bytes signed) sig = Ok tt /\
      exists region u reply pem, Sns.region_of_topic_arn topic = Some region /\
        (Sns.sns_call u, reply) ∈ as_log s /\ Sns.is_signing_cert_url u = true /\
        url_scheme u = lit "https" /\ url_host u = Some (lit "sns." ++ region ++ lit ".amazonaws.com") /\
        Sns.sns_fetched u reply = Ok pem /\ Sns.cert_from_pem pem = Ok cert.
Proof.
  intros (v & Hv & Htopic & Hregion)%receiver_verifier Hp Hr.
  eapply (apool_sound (Sns.fields_ok (Sns.v_region v))) in Hr as [Hi Hdone];
    [|by intros; eapply Sns.fields_ok_mono| |apply Sns.fields_ok_fresh
     |apply Forall_map, Forall_true; intros request; by eapply aws_request_sound].
  2: { intros tr log log' o H Hl body program Ho. destruct (H body program Ho) as [?|(e & ? & ? & ?)]; [by left|].
       right. exists e. split_and!; [done..|]. by eapply Sns.authentic_mono. }
  split; [apply Hi|]. intros i body program Hd. destruct (Hdone _ _ Hd) as [tr HQ].
  destruct (HQ body program eq_refl) as [?|(envelope & He & Hk & Ht & _ & signed & sig & path & cert & Hs & Hb & Hc & _ & Hver)];
    [by left|]. right. exists envelope, signed, sig, cert.
  split; [done|]. split; [done|]. split; [by rewrite Ht|]. do 3 (split; [done|]).
  destruct Hc as (u & reply & pem & Hin & Hu & Hpath & _ & Hf & Hpem). apply sns_url_host in Hu as [Hsch Hhost].
  exists (Sns.v_region v), u, reply, pem. by do 6 (split; [done|]).
Qed.

(** Nothing authentic is turned away: a signed notification, alone and with the
    certificate at hand, is ingested. *)
Lemma authentic_ingested providers self v row headers body envelope u signed sig reply pem cert :
  let entry := mkDlrProvider (AwsSms.provider self) row in
  providers !! AwsSms.KEY = Some entry -> AwsSms.verifier self = Some v ->
  Sns.decode_envelope body = Ok envelope -> Sns.kind envelope = Sns.NOTIFICATION ->
  Sns.checked v envelope = Ok (u, signed, sig) ->
  Sns.sns_fetched u reply = Ok pem -> Sns.cert_from_pem pem = Ok cert ->
  Sns.is_end_entity_cert cert = true -> Sns.verify_signature cert (as_bytes signed) sig = Ok tt ->
  exists st, rtc apool_step (mkSystem 0 fresh_fields [] [aws_request providers (headers, body)])
    (mkSystem 0 st [(Sns.sns_call u, reply)] [ARet (body, ingest_status entry (raw_callback headers body))]).
Proof.
  intros entry Hp Hv He Hk Hc Hf Hpem Hee Hver. eexists.
  unfold aws_request, dlr_handler. cbn [fst snd]. rewrite Hp.
  cbn [dp_provider entry sp_authenticate_callback AwsSms.provider]. unfold AwsSms.authenticate_callback, AwsSms.parse_envelope.
  rewrite Hv. cbn [rcb_body raw_callback]. rewrite He. cbn [map_err]. unfold Sns.verify. rewrite Hc.
  unfold Sns.certificate, locked. cbn [abind abind_ok].
  eapply rtc_l; [eapply (apool_locked _ _ _ _ 0); [done | done]|]. cbn [list_insert insert].
  cbn [af_certs fresh_fields]. rewrite lookup_empty.
  unfold Sns.permit_uncached_fetch, locked. cbn [abind abind_ok].
  eapply rtc_l; [eapply (apool_locked _ _ _ _ 0); [done | done]|]. cbn [list_insert insert].
  cbn [abind abind_ok]. unfold amap_err, Sns.sns_get, http. cbn [abind abind_ok].
  eapply rtc_l; [eapply (apool_http _ _ _ _ 0 _ _ reply); done|]. cbn [list_insert insert].
  rewrite Hf. cbn [map_err abind abind_ok alift]. rewrite Hpem. cbn [map_err abind abind_ok alift].
  eapply rtc_l; [eapply (apool_locked _ _ _ _ 0); [done | done]|]. cbn [list_insert insert].
  cbn [abind abind_ok]. rewrite Hee. cbn [negb]. rewrite Hver. cbn [abind abind_ok].
  rewrite (bool_decide_eq_true_2 _ Hk). cbn [abind]. apply rtc_refl.
Qed.

(** ** Each submission goes out once *)
Context `{MD : Mtn.MtnDecoders} `{OD : OrangeCm.OrangeDecoders}.

(** Every run of a submission is [submit_once], whatever the fields hold. *)
Definition submits_once (submit : SubmitRequest -> adapter (result SubmitAck ProviderError))
  (payload : SubmitRequest -> Payload) (acked : SubmitRequest -> Response -> SubmitAck -> Prop) (req : SubmitRequest) : Prop :=
  awp (fun _ _ _ => True) (submit req) [] [] (fun tr _ out => submit_once payload acked req tr out).

(** C9. Of all three adapters, whatever other tasks do to the fields they share and
    whatever the network and the provider answer: at most one call carries the
    message, and it carries the request's; an acknowledgement follows exactly
    one submission, answered with success, and names the reference of that
    answer; an error after which the message is handed to a provider again
    follows only a submission that the provider answered without success, that
    never got a connection, or that was severed on an established one without
    the client reporting a timeout or a broken body; a delay asked for is
    bounded; a panic comes before anything is submitted.  The severed case is
    the exception: the provider may have taken such a submission, and it is
    handed on all the same. *)
Theorem adapters_submit_once mtn orange aws req :
  submits_once (Mtn.submit mtn) (Mtn.payload mtn) Mtn.acked req /\
  submits_once (OrangeCm.submit orange) (OrangeCm.payload orange) OrangeCm.acked req /\
  submits_once (AwsSms.submit aws) (AwsSms.payload aws) AwsSms.acked req.
Proof.
  split; [apply (submit_sound (P := Mtn.provider mtn))|].
  split; [apply (submit_sound (P := OrangeCm.provider orange))|
          apply (submit_sound (P := AwsSms.provider aws))].
Qed.

(** ** A receipt finds its message *)

Context `{B : !Backend} `{P : PhoneLib}.

(** [b] is what the dispatcher stored of the routed message [m] after its
    submission was acknowledged with [ack]: [submit_one] ran on it, beside any
    other writers, and its write was accepted. *)
Definition recorded (m : Message.t) (ack : SubmitAck) (b : Message.t) : Prop :=
  exists providers tr w l w', world_ok w /\ valid tr w /\ Forall (fun e => ~ illegal_reply e) tr /\
    known tr TMessage m /\ m.(Message.state) = MessageState.routed /\ row_wf TMessage m = true /\
    rtc step (submit_one providers m, tr, w) (Ret tt, l ++ tr, w') /\
    acks l = [ack] /\ b ∈ stored_messages l.

Lemma recorded_refs m ack b : recorded m ack b ->
  b.(Message.providerId) = m.(Message.providerId) /\
  b.(Message.providerMessageRef) = Some (provider_ref ack) /\
  b.(Message.providerMessageRefAlt) = provider_ref_alt ack.
Proof.
  intros (providers & tr & w & l & w' & Hok & Hv & Hl & Hk & Hs & Hwf & Hrun & Ha & Hb).
  apply (wp_run _ _ _ _ _ _ _ (wp_submit_one providers m tr Hk Hs Hwf)) in Hrun; [|done..].
  by destruct (submit_policy_stored _ _ _ _ _ Hrun Ha Hb) as (clock & fin & sub & ->).
Qed.

(** The callback parses, and each of its updates is correlated with the message. *)
Definition finds (parse : RawCallback -> result (list DeliveryUpdate) ProviderError)
  (raw : RawCallback) (row : text) (m : Message.t) : Prop :=
  exists updates, parse raw = Ok updates /\ updates <> [] /\
    Forall (fun u => q_where (correlated row u) m = true) updates.

Lemma correlated_ref row m u : m.(Message.providerId) = Some row ->
  m.(Message.providerMessageRef) = Some (du_provider_ref u) \/
  m.(Message.providerMessageRefAlt) = Some (du_provider_ref u) ->
  q_where (correlated row u) m = true.
Proof.
  intros Hp Hr. cbn. apply andb_true_iff. split; [by apply bool_decide_eq_true|].
  apply orb_true_iff. destruct Hr; [left | right]; by apply bool_decide_eq_true.
Qed.

(** C14. A message a provider has acknowledged, as the dispatcher submits it and
    as the dispatcher's own write stored it, is found by every receipt in which
    that provider names it the way its
    interface says: MTN echoes our own reference, the message's id; Orange the
    resource id, which is the last path segment of the URL in the answer to the
    submission; AWS the message id of that answer. *)
Theorem receipt_finds_message mtn orange aws m body row :
  m.(Message.providerId) = Some row -> m.(Message.id) <> [] ->
  let any (_ : list exchange) (_ : Z) (_ : AdapterFields) := True in
  awp any (Mtn.submit mtn (submit_request m body)) [] [] (fun _ _ out => forall ack b raw n,
    out = Some (Ok ack) -> recorded m ack b ->
    Mtn.decode_delivery_notification (rcb_body raw) = Ok n ->
    Mtn.dn_client_correlator_id n = Some m.(Message.id) ->
    finds Mtn.parse raw row b) /\
  awp any (OrangeCm.submit orange (submit_request m body)) [] [] (fun tr _ out => forall ack b raw c r parsed id info,
    out = Some (Ok ack) -> recorded m ack b ->
    submissions tr = [(c, Ok r)] -> rs_json OrangeCm.decode_submit_response r = Ok parsed ->
    OrangeCm.last_path_segment (OrangeCm.resource_url parsed) id ->
    OrangeCm.decode_delivery_info (rcb_body raw) = Ok info ->
    OrangeCm.callback_data info = Some id ->
    OrangeCm.into_entries (OrangeCm.delivery_info info) <> [] ->
    finds OrangeCm.parse raw row b) /\
  awp any (AwsSms.submit aws (submit_request m body)) [] [] (fun tr _ out => forall ack b raw c r answer id envelope event,
    out = Some (Ok ack) -> recorded m ack b ->
    submissions tr = [(c, Ok r)] -> rs_text r = Ok answer ->
    AwsSms.decode_send_response answer = Some (AwsSms.mkSendResponse (Some id)) ->
    Sns.decode_envelope (rcb_body raw) = Ok envelope ->
    Sns.kind envelope = Sns.NOTIFICATION -> Sns.decode_event (Sns.message envelope) = Ok event ->
    starts_with (Sns.event_type event) (lit "TEXT_") = true ->
    Sns.ev_message_id event = id ->
    finds AwsSms.parse_dlr raw row b).
Proof.
  intros Hp Hid any. split; [|split].
  - eapply awp_mono; [|apply (submit_sound (P := Mtn.provider mtn))].
    intros tr log out (_ & _ & Hout) ack b raw n -> (Hbp & _ & Hba)%recorded_refs Hn Hc.
    destruct Hout as (_ & c & r & _ & _ & Hack & _).
    unfold finds, Mtn.parse. rewrite Hn. cbn [map_err rbind]. rewrite Hc. cbn [Mtn.nonempty].
    destruct (Message.id m) as [|x s] eqn:Em; [done|]. eexists. split; [done|]. split; [done|].
    apply Forall_singleton, correlated_ref; [by rewrite Hbp|]. right. rewrite Hba, Hack. cbn. by rewrite Em.
  - eapply awp_mono; [|apply (submit_sound (P := OrangeCm.provider orange))].
    intros tr log out (_ & _ & Hout) ack b raw c r parsed id info -> (Hbp & Hbr & _)%recorded_refs Hsub Hj Hseg Hn Hc Hne.
    destruct Hout as (_ & c' & r' & Hsub' & _ & _ & parsed' & Hj' & Hseg').
    rewrite Hsub in Hsub'. injection Hsub' as <- <-. rewrite Hj in Hj'. injection Hj' as <-.
    apply OrangeCm.resource_id_complete in Hseg, Hseg'. rewrite Hseg in Hseg'. injection Hseg' as ->.
    unfold finds, OrangeCm.parse. rewrite Hn. cbn [map_err rbind]. rewrite Hc. eexists.
    split; [done|]. split; [by destruct (OrangeCm.into_entries _)|].
    apply Forall_fmap, Forall_true. intros entry. apply correlated_ref; [by rewrite Hbp|]. by left.
  - eapply awp_mono; [|apply (submit_sound (P := AwsSms.provider aws))].
    intros tr log out (_ & _ & Hout) ack b raw c r answer id envelope event -> (Hbp & Hbr & _)%recorded_refs Hsub Ht Hd He Hk Hev Htx Hc.
    destruct Hout as (_ & c' & r' & Hsub' & _ & Hblank & _ & answer' & Ht' & Hd').
    rewrite Hsub in Hsub'. injection Hsub' as <- <-. rewrite Ht in Ht'. injection Ht' as <-.
    rewrite Hd in Hd'. injection Hd' as ->.
    unfold finds, AwsSms.parse_dlr, AwsSms.parse_envelope. rewrite He. cbn [map_err rbind].
    rewrite bool_decide_true by done. cbn [negb]. unfold Sns.parse_event. rewrite Hev.
    cbn [map_err rbind]. rewrite Htx, Hc. cbn [negb]. rewrite bool_decide_false by done.
    eexists. split; [done|]. split; [done|]. apply Forall_singleton, correlated_ref; [by rewrite Hbp|]. by left.
Qed.

(** ** Statuses nobody has told us about *)
Definition MTN_STATUSES : list text :=
  [lit "DELIVERED"; lit "EXPIRED"; lit "REJECTED"; lit "UNDELIVERED"; lit "DELETED"].
Definition ORANGE_STATUSES : list text :=
  [lit "DeliveredToTerminal"; lit "DeliveryImpossible"; lit "DeliveryUncertain"].

Definition AWS_EVENTS : list text :=
  [lit "TEXT_DELIVERED"; lit "TEXT_SUCCESSFUL"; lit "TEXT_INVALID"; lit "TEXT_INVALID_MESSAGE";
   lit "TEXT_BLOCKED"; lit "TEXT_CARRIER_BLOCKED"; lit "TEXT_SPAM"; lit "TEXT_PROTECT_BLOCKED";
   lit "TEXT_UNREACHABLE"; lit "TEXT_CARRIER_UNREACHABLE"; lit "TEXT_TTL_EXPIRED"; lit "TEXT_UNKNOWN"].

Lemma inert_outcome state outcome : outcome = OutInFlight \/ outcome = OutUnknown ->
  next_state state outcome = None.
Proof. intros [-> | ->]; by destruct state. Qed.

Ltac skip_statuses :=
  repeat match goal with
  | H : ?s <> ?l |- context [bool_decide (?s = ?l)] => rewrite (bool_decide_eq_false_2 _ H)
  end.

(** No message moves on a status outside the conclusive ones each provider
    documents, and of AWS's events only TEXT_DELIVERED moves one before it is
    final. *)
Theorem unknown_status_inert state status is_final :
  (status ∉ MTN_STATUSES -> next_state state (Mtn.outcome_of status) = None) /\
  (status ∉ ORANGE_STATUSES -> next_state state (OrangeCm.outcome_of status) = None) /\
  (status ∉ AWS_EVENTS -> next_state state (Sns.outcome_of status is_final) = None) /\
  (status <> lit "TEXT_DELIVERED" -> next_state state (Sns.outcome_of status false) = None).
Proof.
  split; [|split; [|split]]; intros Hs; apply inert_outcome.
  - unfold MTN_STATUSES in Hs. rewrite !not_elem_of_cons in Hs. destruct Hs as (? & ? & ? & ? & ? & _).
    unfold Mtn.outcome_of. skip_statuses. destruct (bool_decide _); [by left|]. right. by destruct (bool_decide _).
  - unfold ORANGE_STATUSES in Hs. rewrite !not_elem_of_cons in Hs. destruct Hs as (? & ? & ? & _).
    unfold OrangeCm.outcome_of. skip_statuses. destruct (bool_decide _); [by left | by right].
  - unfold AWS_EVENTS in Hs. rewrite !not_elem_of_cons in Hs.
    destruct Hs as (? & ? & ? & ? & ? & ? & ? & ? & ? & ? & ? & ? & _).
    unfold Sns.outcome_of. skip_statuses. destruct is_final; cbn [negb]; [|by left].
    destruct (bool_decide _); [by left|].
    rewrite !bool_decide_eq_false_2 by (rewrite !not_elem_of_cons; repeat split; [assumption..|apply not_elem_of_nil]).
    skip_statuses. by right.
  - unfold Sns.outcome_of. skip_statuses. by left.
Qed.

End Handler.

(** ** Examples *)
Module CallbackExamples.

#[local] Existing Instance demo_errors.
#[local] Existing Instance demo_debug.
#[local] Existing Instance demo_phone.
#[local] Existing Instance WebhookExamples.demo_mac.
#[local] Existing Instance demo_json.
#[local] Existing Instance demo_reqwest.

Definition demo_topic : text := lit "arn:aws:sns:eu-west-1:123456789012:sms-events".

Definition demo_cert_url : text :=
  lit "https://sns.eu-west-1.amazonaws.com/SimpleNotificationService-00000000000000000000000000000000.pem".

Definition demo_envelope (cert_url : text) : Sns.Envelope :=
  Sns.mkEnvelope Sns.NOTIFICATION (lit "e1") None demo_topic None (lit "event") None
    (lit "2026-01-01T00:00:00Z") (lit "2") (lit "key") cert_url.

(** The body of a callback is its first byte: 1 is signed, 2 names a
    certificate of another host.  A signature verifies when it is the
    certificate. *)
Definition demo_sns : Sns.SnsLib := {|
  Sns.decode_envelope b :=
    match b with
    | [1] => Ok (demo_envelope demo_cert_url)
    | [2] => Ok (demo_envelope (lit "https://example.test/SimpleNotificationService-00000000000000000000000000000000.pem"))
    | _ => Err (lit "expected value")
    end;
  Sns.decode_event _ := Ok (Sns.mkRecord (lit "TEXT_DELIVERED") None (Some true) (lit "aws-1") None);
  Sns.base64_decode s := Some s;
  Sns.cert_from_pem p := Ok p;
  Sns.is_end_entity_cert _ := true;
  Sns.verify_signature c _ s := if bool_decide (s = c) then Ok tt else Err (lit "invalid signature") |}.

Definition demo_aws : AwsSms.AwsLib := {|
  AwsSms.format_amz_date _ := lit "20260101T000000Z";
  AwsSms.decode_send_response t := Some (AwsSms.mkSendResponse (Some t));
  AwsSms.decode_error_body _ := None |}.

Definition demo_mtn : Mtn.MtnDecoders := {|
  Mtn.decode_token_response _ := Ok (mkTokenResponse (lit "token") 3600);
  Mtn.decode_resource_reference _ := Ok (Mtn.mkReference (lit "0000") (lit "ok") (lit "tx-1"));
  Mtn.decode_subscription_response _ := Err (lit "eof");
  Mtn.decode_delivery_notification _ :=
    Ok (Mtn.mkNotification (Some (lit "m1")) (Some (lit "DELIVERED")) None None None);
  Mtn.parse_from_rfc3339 _ := Err (lit "premature end of input") |}.

Definition demo_orange : OrangeCm.OrangeDecoders := {|
  OrangeCm.decode_token_response _ := Ok (mkTokenResponse (lit "token") 3600);
  OrangeCm.decode_submit_response _ := Ok (OrangeCm.mkEnvelope (lit "https://api.orange.com/requests/r-1/"));
  OrangeCm.decode_delivery_info _ :=
    Ok (OrangeCm.mkInfo (Some (lit "r-1")) (OrangeCm.One (OrangeCm.mkEntry (lit "DeliveredToTerminal")))) |}.

#[local] Existing Instance demo_sns.
#[local] Existing Instance demo_aws.
#[local] Existing Instance demo_mtn.
#[local] Existing Instance demo_orange.

Definition demo_receiver : AwsSms.AwsSmsProvider :=
  AwsSms.mkAws None (Some (Sns.mkVerifier demo_topic (lit "eu-west-1"))).

Definition demo_providers : gmap text DlrProvider :=
  providers_by_key [mkDlrProvider (AwsSms.provider demo_receiver) (lit "p1")].

Lemma demo_receiver_with : AwsSms.receiver_with demo_topic = Ok demo_receiver.
Proof. vm_compute. reflexivity. Qed.

Lemma demo_providers_aws :
  demo_providers !! AwsSms.KEY = Some (mkDlrProvider (AwsSms.provider demo_receiver) (lit "p1")).
Proof. reflexivity. Qed.

(** A token that lives for more seconds than the clock can hold panics the
    task that stores it; an hour is kept for 48 minutes. *)
Example token_lifetimes :
  (from_secs_f64 (f64_mul (as_secs_f64 (2 ^ 64 - 1)) Mtn.REFRESH_AT_FRACTION_OF_LIFETIME) ≫= instant_add 0) = None /\
  from_secs_f64 (f64_mul (as_secs_f64 3600) Mtn.REFRESH_AT_FRACTION_OF_LIFETIME) = Some (2880 * NANOS_PER_SEC).
Proof. vm_compute. split; reflexivity. Qed.

Example orange_resource_ids :
  OrangeCm.resource_id_from_url (lit "https://api.orange.com/requests/r-1/") = Some (lit "r-1") /\
  OrangeCm.resource_id_from_url (lit "///") = None.
Proof. vm_compute. split; reflexivity. Qed.

(** A callback whose certificate is on another host is refused before anything
    is fetched. *)
Example foreign_certificate_refused :
  dlr_handler demo_providers AwsSms.KEY [] [2] = ARet (Ret FORBIDDEN) /\
  dlr_handler demo_providers (lit "nobody") [] [2] = ARet (Ret NOT_FOUND).
Proof. split; vm_compute; reflexivity. Qed.

(** A signed callback: the certificate is fetched, the signature verifies and
    the receipt is ingested. *)
Definition demo_reply : result Response TransportError :=
  Ok (mkResponse 200 [] (Some 3) [lit "ke"; lit "y"] None).

Lemma callbacks_authenticated_witness : exists (s : asystem (list Z * prog Z)) program,
  as_tasks s !! 0%nat = Some (ARet ([1], program)) /\ as_log s = [(Sns.sns_call demo_cert_url, demo_reply)] /\
  ((exists status, program = Ret status) \/
   exists envelope, Sns.decode_envelope [1] = Ok envelope /\ Sns.topic_arn envelope = demo_topic).
Proof.
  destruct (authentic_ingested demo_providers demo_receiver (Sns.mkVerifier demo_topic (lit "eu-west-1"))
    (lit "p1") [] [1] (demo_envelope demo_cert_url) demo_cert_url
    (Sns.fields_string [(lit "Message", lit "event"); (lit "MessageId", lit "e1");
       (lit "Timestamp", lit "2026-01-01T00:00:00Z"); (lit "TopicArn", demo_topic);
       (lit "Type", Sns.NOTIFICATION)]) (lit "key") demo_reply (lit "key") (lit "key")) as [st Hr];
    [exact demo_providers_aws | vm_compute; reflexivity..|].
  destruct (callbacks_authenticated demo_providers demo_topic demo_receiver (lit "p1") [([], [1])] _
    demo_receiver_with demo_providers_aws Hr) as [_ Hd].
  eexists (mkSystem 0 st _ [ARet ([1], _)]), _. split; [reflexivity|]. split; [reflexivity|].
  destruct (Hd 0%nat [1] _ eq_refl) as [?|(e & ? & ? & ? & He & _ & Ht & _)]; [by left|].
  right. exists e. split; assumption.
Defined.

(** All three adapters, for a message the dispatcher holds. *)
Definition demo_mtn_config : Mtn.MtnConfig :=
  Mtn.for_subscription_only (lit "id") (lit "secret") (lit "8787") (lit "https://api.mtn.test").

Definition demo_orange_config : OrangeCm.OrangeCmConfig :=
  OrangeCm.new (OrangeCm.production (lit "id") (lit "secret") (lit "tel:+237690000000")).

(** The dispatcher submits the message to a provider that answers as MTN's
    adapter does, and stores the acknowledgement. *)
Definition mtn_oracle : oracle :=
  ex_oracle (fun _ q => Ok (mkSubmitAck (lit "tx-1") (Some (sr_reference q)))) (fun _ => Ok 200).

Abbreviation demo_submission :=
  (ref_run mtn_oracle (submit_one DispatchExamples.ex_registry DispatchExamples.ex_m)
     DispatchExamples.ex_read DispatchExamples.ex_w).

Definition demo_new : trace :=
  take (length (run_trace demo_submission) - length DispatchExamples.ex_read) (run_trace demo_submission).

Definition demo_stored : Message.t := default DispatchExamples.ex_m (head (stored_messages demo_new)).

Lemma demo_recorded :
  recorded (B := ref_backend mtn_oracle) DispatchExamples.ex_m (mkSubmitAck (lit "tx-1") (Some (lit "m1"))) demo_stored.
Proof.
  exists DispatchExamples.ex_registry, DispatchExamples.ex_read, DispatchExamples.ex_w, demo_new, demo_submission.2.
  split_and!.
  - apply ex_world_ok.
  - do 2 (apply (valid_read_event accepting); [apply ex_world_ok|]). apply valid_nil.
  - repeat constructor; by intros [].
  - apply DispatchExamples.ex_read_known.
  - reflexivity.
  - reflexivity.
  - assert (demo_new ++ DispatchExamples.ex_read = run_trace demo_submission) as -> by (vm_compute; reflexivity).
    apply ref_run_done. vm_compute. reflexivity.
  - vm_compute. reflexivity.
  - assert (stored_messages demo_new = [demo_stored]) as -> by (vm_compute; reflexivity). by left.
Qed.

Lemma receipt_finds_message_witness :
  awp (fun _ _ _ => True) (Mtn.submit demo_mtn_config
      (submit_request DispatchExamples.ex_m (lit "hello"))) [] []
    (fun _ _ out => out = Some (Ok (mkSubmitAck (lit "tx-1") (Some (lit "m1")))) ->
       finds Mtn.parse (mkRawCallback [] []) (lit "pv1") demo_stored).
Proof.
  destruct (receipt_finds_message (B := ref_backend mtn_oracle) demo_mtn_config demo_orange_config demo_receiver
    DispatchExamples.ex_m (lit "hello") (lit "pv1") eq_refl) as [Hm _];
    [vm_compute; discriminate|].
  eapply awp_mono; [|exact Hm]. intros tr log out H Ho.
  refine (H _ demo_stored (mkRawCallback [] []) _ Ho demo_recorded eq_refl _). reflexivity.
Defined.

End CallbackExamples.
