(* ===== verification/TokenDoor.v ===== *)
(** * The token door: who may have a token, and which tokens are accepted

    sms-config/src/auth.rs (the permitted methods), sms-auth gate.rs and op.rs
    (what is served), and of the app sms-gateway: grant_gate.rs and
    token_rate_limit.rs (the two layers in front of [POST /token], stacked by
    op.rs), op_bearer.rs (the verification of a bearer token) and the realms of
    commands/serve.rs.

    The form decoder, SHA-256, the JWT library and the store of the rate limiter
    are parameters. *)

From S2P Require Import Prelude SentinelList Errors Db Webhook Signers.

(** ** sms-config/src/auth.rs *)
Module Methods.

Inductive AuthMethod := Keypair | MachineTokens | HmacWebhooks | HumanLogin.

#[export] Instance AuthMethod_eq_dec : EqDecision AuthMethod.
Proof. solve_decision. Defined.

Definition ALL : list AuthMethod := [Keypair; MachineTokens; HmacWebhooks; HumanLogin].

Definition as_str (m : AuthMethod) : text :=
  match m with
  | Keypair => lit "keypair"
  | MachineTokens => lit "machine_tokens"
  | HmacWebhooks => lit "hmac_webhooks"
  | HumanLogin => lit "human_login"
  end.

Definition parse (name : text) : option AuthMethod :=
  List.find (fun m => bool_decide (as_str m = name)) ALL.

Inductive ConfigError :=
| NoAuthMethods
| UnknownAuthMethod (name : text)
| DuplicateAuthMethod (method : AuthMethod)
| AuthMethodNotConfigured (method : AuthMethod) (key : text)
| AuthMethodDisabled (methods : list AuthMethod) (key : text)
| NoWayIn.

(** [permitted] is a set: a list without repetitions. *)
Record AuthMethods := mkMethods {
  permitted : list AuthMethod;
  explicit : bool;
  op_block : bool;
  human_login_block : bool }.

Definition permits (self : AuthMethods) (m : AuthMethod) : bool := bool_decide (m ∈ permitted self).

Definition machine_tokens_served (self : AuthMethods) : bool := permits self MachineTokens && op_block self.

Definition human_login_served (self : AuthMethods) : bool :=
  permits self HumanLogin && human_login_block self && op_block self.

Definition op_served (self : AuthMethods) : bool := machine_tokens_served self || human_login_served self.

Definition served (self : AuthMethods) : list AuthMethod :=
  List.filter (fun m =>
    match m with
    | MachineTokens => machine_tokens_served self
    | HumanLogin => human_login_served self
    | Keypair | HmacWebhooks => true
    end) (List.filter (permits self) ALL).

Definition can_authenticate_a_caller (self : AuthMethods) : bool :=
  existsb (permits self) [Keypair; MachineTokens].

Fixpoint resolve_names (names : list text) (permitted : list AuthMethod) : result (list AuthMethod) ConfigError :=
  match names with
  | [] => Ok permitted
  | name :: rest =>
      match parse name with
      | None => Err (UnknownAuthMethod name)
      | Some m =>
          if bool_decide (m ∈ permitted) then Err (DuplicateAuthMethod m)
          else resolve_names rest (m :: permitted)
      end
  end.

Definition resolve (methods : option (list text)) : result AuthMethods ConfigError :=
  match methods with
  | None => Ok (mkMethods ALL false false false)
  | Some [] => Err NoAuthMethods
  | Some names =>
      let? permitted := resolve_names names [] in
      let methods := mkMethods permitted true false false in
      if negb (can_authenticate_a_caller methods) then Err NoWayIn else Ok methods
  end.

Definition with_blocks (self : AuthMethods) (op_present human_login_present : bool)
  : result AuthMethods ConfigError :=
  let tokens := permits self MachineTokens in
  let human := permits self HumanLogin in
  if negb human && human_login_present then Err (AuthMethodDisabled [HumanLogin] (lit "human_login"))
  else if negb tokens && negb human && op_present then
    Err (AuthMethodDisabled [MachineTokens; HumanLogin] (lit "op"))
  else if tokens && explicit self && negb op_present then
    Err (AuthMethodNotConfigured MachineTokens (lit "op"))
  else if human && explicit self && negb human_login_present then
    Err (AuthMethodNotConfigured HumanLogin (lit "human_login"))
  else if human_login_present && negb op_present then
    Err (AuthMethodNotConfigured HumanLogin (lit "op"))
  else Ok (mkMethods (permitted self) (explicit self) op_present human_login_present).

(** ** sms-auth gate.rs: who asks for a command that needs a method *)
Inductive Gate := Served | NotServed (reason : text).

Definition machine_tokens_gate (m : AuthMethods) : Gate :=
  if machine_tokens_served m then Served
  else if permits m MachineTokens then NotServed (lit "no op: block in the configuration")
  else NotServed (lit "auth.methods does not permit machine_tokens").

Definition provider_gate (m : AuthMethods) : Gate :=
  if op_served m then Served
  else if negb (permits m MachineTokens) && negb (permits m HumanLogin)
  then NotServed (lit "auth.methods permits neither machine_tokens nor human_login")
  else NotServed (lit "no op: block in the configuration").

Definition human_login_gate (m : AuthMethods) : Gate :=
  if human_login_served m then Served
  else if negb (permits m HumanLogin) then NotServed (lit "auth.methods does not permit human_login")
  else NotServed (lit "no human_login: block in the configuration").

Definition require (g : Gate) : result unit text :=
  match g with Served => Ok tt | NotServed reason => Err reason end.

(** ** Facts *)
Lemma with_blocks_ok self op human m : with_blocks self op human = Ok m ->
  m = mkMethods (permitted self) (explicit self) op human /\
  (human = true -> permits self HumanLogin = true /\ op = true) /\
  (op = true -> permits self MachineTokens = true \/ permits self HumanLogin = true) /\
  (explicit self = true -> permits self MachineTokens = true -> op = true) /\
  (explicit self = true -> permits self HumanLogin = true -> human = true).
Proof.
  unfold with_blocks.
  destruct (permits self HumanLogin), (permits self MachineTokens), (explicit self), op, human;
    cbn; intros [=]; subst; intuition congruence.
Qed.

Lemma resolve_names_nodup names acc ms : resolve_names names acc = Ok ms -> NoDup acc -> NoDup ms.
Proof.
  revert acc. induction names as [|n r IH]; intros acc; cbn [resolve_names]; [by intros [= <-]|].
  destruct (parse n) as [m|]; [|done]. case_bool_decide as Hm; [done|]. intros Hr Hn.
  eapply IH; [exact Hr|]. constructor; [exact Hm | exact Hn].
Qed.

Lemma all_methods x : x ∈ ALL.
Proof. unfold ALL. rewrite !elem_of_cons. destruct x; tauto. Qed.

Lemma served_spec m x : x ∈ served m <-> x ∈ permitted m /\
  (x = MachineTokens -> op_block m = true) /\
  (x = HumanLogin -> human_login_block m = true /\ op_block m = true).
Proof.
  unfold served. rewrite !list_elem_of_In, !filter_In, <- !list_elem_of_In.
  unfold machine_tokens_served, human_login_served, permits. rewrite bool_decide_eq_true.
  pose proof (all_methods x). destruct x; rewrite ?andb_true_iff, ?bool_decide_eq_true; intuition congruence.
Qed.

(** A configuration that starts: every method written down is served, none is
    served that was not permitted, the keys of a method are refused where it is
    not permitted, and a caller of the API has a way in. *)
Theorem configuration_serves names op human self m :
  resolve names = Ok self -> with_blocks self op human = Ok m ->
  (forall x, explicit m = true -> (x ∈ permitted m <-> x ∈ served m)) /\
  (forall x, x ∈ served m -> x ∈ permitted m) /\
  (human = true -> HumanLogin ∈ served m) /\
  (Keypair ∈ served m \/ MachineTokens ∈ served m) /\ NoDup (permitted m).
Proof.
  intros Hres Hb. apply with_blocks_ok in Hb as (-> & Hh & _ & Ht & Hl). cbn [explicit permitted].
  unfold permits in Hh, Ht, Hl. rewrite !bool_decide_eq_true in Hh, Ht, Hl.
  set (m := mkMethods _ _ _ _).
  pose proof (served_spec m) as Hserved. cbn [m permitted op_block human_login_block] in Hserved.
  split_and!.
  - intros x He. rewrite Hserved. split; [|tauto]. intros Hx. split; [done|].
    split; intros ->; [by apply Ht|]. assert (human = true) as Hhu by (by apply Hl).
    split; [done | by apply Hh].
  - intros x. rewrite Hserved. tauto.
  - intros Hx. apply Hserved. destruct (Hh Hx) as [Hp Ho]. by split_and!.
  - assert (Keypair ∈ permitted self \/ MachineTokens ∈ permitted self /\ explicit self = true) as [Hk|[Hk He]].
    { revert Hres. unfold resolve. destruct names as [[|n r]|]; [done| |intros [= <-]; left; cbn; left].
      destruct (resolve_names _ _) as [ms|]; [|done]. cbn [rbind].
      unfold can_authenticate_a_caller. cbn [existsb]. unfold permits. cbn [permitted].
      case_bool_decide; [intros [= <-]; by left|]. case_bool_decide; [intros [= <-]; by right | done]. }
    + left. apply Hserved. by split_and!.
    + right. apply Hserved. split; [done|]. split; [intros _; by apply Ht | done].
  - revert Hres. unfold resolve. destruct names as [[|n r]|]; [done| |intros [= <-]].
    + destruct (resolve_names _ _) as [ms|] eqn:E; [|done]. cbn [rbind]. destruct (negb _); [done|].
      intros [= <-]. eapply resolve_names_nodup; [exact E | constructor].
    + apply (bool_decide_unpack _). vm_compute. exact I.
Qed.

End Methods.

(** ** sms-auth op.rs: the grants that are served *)
Definition CLIENT_CREDENTIALS : text := lit "client_credentials".
Definition AUTHORIZATION_CODE : text := lit "authorization_code".

Record ServedGrants := mkServedGrants {
  sg_machine_tokens : bool;
  sg_human_login : bool }.

Definition served_from_methods (m : Methods.AuthMethods) : ServedGrants :=
  mkServedGrants (Methods.machine_tokens_served m) (Methods.human_login_served m).

Definition grant_types (s : ServedGrants) : list text :=
  (if sg_machine_tokens s then [CLIENT_CREDENTIALS] else [])
  ++ (if sg_human_login s then [AUTHORIZATION_CODE] else []).

Definition serves_grant (s : ServedGrants) (grant_type : text) : bool := bool_decide (grant_type ∈ grant_types s).

(** ** The layers of [POST /token] *)
Definition MAX_TOKEN_BODY_BYTES : Z := 64 * 1024.

(** [to_bytes]: [None] is a body that broke off or is larger than the limit. *)
Definition to_bytes (body : option (list Z)) (limit : Z) : option (list Z) :=
  match body with
  | Some bytes => if Z.of_nat (length bytes) <=? limit then Some bytes else None
  | None => None
  end.

(** The decisions of the limiter's store. *)
Inductive RateLimitDecision := Allowed | Throttled (retry_after_secs : Z).

(** What a layer does with a request: hand on a body, or answer. *)
Inductive Layered := Next (body : list Z) | Answer (status : Z) (error : text).

Section Layers.

(** [form_urlencoded::parse]. *)
Variable form_parse : list Z -> list (text * text).
Context `{M : MacLib}.

Definition fields_named (bytes : list Z) (name : text) : list text :=
  snd <$> List.filter (fun kv => bool_decide (kv.1 = name)) (form_parse bytes).

(** grant_gate.rs; [Err] is its [Malformed]. *)
Definition grant_type (body : list Z) : result (option text) unit :=
  match fields_named body (lit "grant_type") with
  | [] => Ok None
  | [value] => Ok (if bool_decide (value = []) then None else Some value)
  | _ :: _ :: _ => Err tt
  end.

Definition enforce_served_grants (served : ServedGrants) (body : option (list Z)) : Layered :=
  match to_bytes body MAX_TOKEN_BODY_BYTES with
  | None => Answer 400 (lit "invalid_request")
  | Some bytes =>
      match grant_type bytes with
      | Ok (Some grant) =>
          if serves_grant served grant then Next bytes else Answer 400 (lit "unsupported_grant_type")
      | Ok None | Err _ => Answer 400 (lit "invalid_request")
      end
  end.

(** token_rate_limit.rs *)
Inductive Field := Absent | OneField (value : text) | Repeated.

Definition form_field (bytes : list Z) (name : text) : Field :=
  match fields_named bytes name with
  | [] => Absent
  | [first] => if bool_decide (first = []) then Absent else OneField first
  | _ :: _ :: _ => Repeated
  end.

Definition client_id_from_form_body (bytes : list Z) : option text :=
  match fields_named bytes (lit "client_id") with
  | [] => None
  | first :: _ => if bool_decide (first = []) then None else Some first
  end.

Definition hex_sha256 (s : text) : text := hex_encode (sha256 (as_bytes s)).

Definition limit_key (bytes : list Z) : text :=
  let by_client :=
    match client_id_from_form_body bytes with
    | None => lit "no-client-id"
    | Some client_id => lit "client:" ++ client_id
    end in
  match form_field bytes (lit "grant_type") with
  | OneField grant =>
      if bool_decide (grant = AUTHORIZATION_CODE) then
        match form_field bytes (lit "code") with
        | OneField code => lit "code:" ++ hex_sha256 code
        | Absent => lit "authorization-code:no-code"
        | Repeated => lit "authorization-code:repeated-code"
        end
      else by_client
  | Absent | Repeated => by_client
  end.

(** The answer of the store to the key it is charged with is [consume]; a store
    error is answered with its own status. *)
Definition enforce_token_client_rate_limit (consume : text -> result RateLimitDecision Z)
  (body : option (list Z)) : Layered :=
  let '(key, rebuilt_body) :=
    match to_bytes body MAX_TOKEN_BODY_BYTES with
    | Some bytes => (limit_key bytes, bytes)
    | None => (lit "oversized-or-unreadable-body", [])
    end in
  match consume key with
  | Ok Allowed => Next rebuilt_body
  | Ok (Throttled _) => Answer 429 (lit "rate limit exceeded")
  | Err status => Answer status []
  end.

(** op.rs: the layer added last runs first. *)
Definition token_route (served : ServedGrants) (consume : text -> result RateLimitDecision Z)
  (body : option (list Z)) : Layered :=
  match enforce_served_grants served body with
  | Next bytes => enforce_token_client_rate_limit consume (Some bytes)
  | answer => answer
  end.

(** The key a request of a grant should be charged to. *)
Definition charged (grant : text) (bytes : list Z) : text :=
  if bool_decide (grant = AUTHORIZATION_CODE) then
    match fields_named bytes (lit "code") with
    | [code] => if bool_decide (code = []) then lit "authorization-code:no-code"
                else lit "code:" ++ hex_sha256 code
    | [] => lit "authorization-code:no-code"
    | _ => lit "authorization-code:repeated-code"
    end
  else
    match fields_named bytes (lit "client_id") with
    | [] | [] :: _ => lit "no-client-id"
    | first :: _ => lit "client:" ++ first
    end.

Lemma limit_key_charged bytes grant :
  fields_named bytes (lit "grant_type") = [grant] -> grant <> [] ->
  limit_key bytes = charged grant bytes.
Proof.
  intros Hg Hne. unfold limit_key, form_field at 1. rewrite Hg, (bool_decide_eq_false_2 _ Hne).
  unfold charged, form_field, client_id_from_form_body.
  destruct (bool_decide (grant = AUTHORIZATION_CODE)).
  - destruct (fields_named bytes (lit "code")) as [|c [|? ?]]; [done | by case_bool_decide | done].
  - destruct (fields_named bytes (lit "client_id")) as [|[|x c] r]; done.
Qed.

Lemma serves_grant_spec m grant : serves_grant (served_from_methods m) grant = true <->
  (grant = CLIENT_CREDENTIALS /\ Methods.machine_tokens_served m = true) \/
  (grant = AUTHORIZATION_CODE /\ Methods.human_login_served m = true).
Proof.
  unfold serves_grant, grant_types, served_from_methods. rewrite bool_decide_eq_true.
  cbn [sg_machine_tokens sg_human_login].
  destruct (Methods.machine_tokens_served m), (Methods.human_login_served m); cbn [app];
    rewrite ?elem_of_cons, ?elem_of_nil; intuition congruence.
Qed.

Lemma grants_next served body bytes : enforce_served_grants served body = Next bytes ->
  body = Some bytes /\ Z.of_nat (length bytes) <= MAX_TOKEN_BODY_BYTES /\
  exists grant, fields_named bytes (lit "grant_type") = [grant] /\ grant <> [] /\
    serves_grant served grant = true.
Proof.
  unfold enforce_served_grants, to_bytes. destruct body as [b|]; [|done].
  destruct (Z.leb_spec (Z.of_nat (length b)) MAX_TOKEN_BODY_BYTES); [|done].
  unfold grant_type. destruct (fields_named b _) as [|g [|? ?]] eqn:Eg; [done| |done].
  destruct (bool_decide (g = [])) eqn:Eb; [done|]. apply bool_decide_eq_false in Eb.
  destruct (serves_grant served g) eqn:Es; [|done]. intros [= <-]. split_and!; [done..|]. by exists g.
Qed.

(** C16. A request reaches the token endpoint exactly as it was sent, with one
    non-empty grant type, of a method that is permitted and configured; and only
    after the limiter has been charged for what it asks: an exchange of a code
    for that code, however the rest of the form is written, any other grant for
    the client it names. *)
Theorem token_route_admits m consume body bytes :
  token_route (served_from_methods m) consume body = Next bytes ->
  body = Some bytes /\ Z.of_nat (length bytes) <= MAX_TOKEN_BODY_BYTES /\
  exists grant, fields_named bytes (lit "grant_type") = [grant] /\
    consume (charged grant bytes) = Ok Allowed /\
    ((grant = CLIENT_CREDENTIALS /\ Methods.permits m Methods.MachineTokens = true /\
        Methods.op_block m = true) \/
     (grant = AUTHORIZATION_CODE /\ Methods.permits m Methods.HumanLogin = true /\
        Methods.human_login_block m = true /\ Methods.op_block m = true)).
Proof.
  unfold token_route. destruct (enforce_served_grants _ body) as [b|] eqn:Eg; [|done].
  apply grants_next in Eg as (-> & Hlen & grant & Hg & Hne & Hs).
  unfold enforce_token_client_rate_limit, to_bytes.
  destruct (Z.leb_spec (Z.of_nat (length b)) MAX_TOKEN_BODY_BYTES); [|lia].
  rewrite (limit_key_charged b grant Hg Hne).
  destruct (consume (charged grant b)) as [[]|] eqn:Ec; [|done..]. intros [= <-].
  split_and!; [done..|]. exists grant. split; [done|]. split; [done|].
  apply serves_grant_spec in Hs as [[-> Hm]|[-> Hm]].
  - left. unfold Methods.machine_tokens_served in Hm. apply andb_true_iff in Hm as [Hp Hb].
    exact (conj eq_refl (conj Hp Hb)).
  - right. unfold Methods.human_login_served in Hm. rewrite !andb_true_iff in Hm.
    destruct Hm as [[Hp Hh] Hb]. exact (conj eq_refl (conj Hp (conj Hh Hb))).
Qed.

End Layers.

(** ** op_bearer.rs: which bearer tokens are accepted *)
Module OpBearer.

Definition LEEWAY_SECS : Z := 60.
Definition MIN_FORCED_RELOAD : Z := 5 * 1000000000.

Inductive Algorithm := RS256 | OtherAlgorithm.

Record Header := mkHeader { alg : Algorithm; kid : option text }.

Inductive Audience := Single (aud : text) | Multiple (auds : list text).

(** The claims that are read; of the extra ones only their names. *)
Record Claims := mkClaims {
  sub : text;
  aud : option Audience;
  scope : option text;
  identity_external_id : option text;
  extra : list text }.

Record Validation := mkValidation {
  val_alg : Algorithm;
  val_issuer : text;
  val_leeway : Z;
  val_exp : bool;
  val_nbf : bool;
  val_aud : bool;
  val_required : list text }.

Inductive ErrorKind :=
| ExpiredSignature | ImmatureSignature | InvalidIssuer | InvalidAudience | InvalidSignature
| MissingRequiredClaim (claim : text)
| OtherError.

(** The jsonwebtoken crate; [decode] reads the clock, so it takes the time (in
    seconds). *)
Class JwtLib := {
  DecodingKey : Type;
  from_rsa_components : text -> text -> option DecodingKey;
  decode_header : text -> option Header;
  decode : Z -> text -> DecodingKey -> Validation -> result Claims ErrorKind }.

Record Realms := mkRealms {
  machine_realm : bool;
  person_realm : option text }.

(** commands/serve.rs: [human] is the console client of the human_login block. *)
Definition realms (served : ServedGrants) (human : option text) : option Realms :=
  let person := if sg_human_login served then human else None in
  if sg_machine_tokens served || negb (Db.is_null person)
  then Some (mkRealms (sg_machine_tokens served) person) else None.

Record Jwk := mkJwk { jwk_kid : option text; jwk_n : option text; jwk_e : option text }.

Section Verifier.

Context `{J : JwtLib}.

(** op.rs: [PublishedKeys::new]; of two keys with one id the later stays. *)
Definition published_key (jwk : Jwk) : option (text * DecodingKey) :=
  kid ← jwk_kid jwk; n ← jwk_n jwk; e ← jwk_e jwk;
  key ← from_rsa_components n e; Some (kid, key).

Definition published_keys (jwks : list Jwk) : gmap text DecodingKey :=
  foldl (fun acc jwk => match published_key jwk with
                        | Some (kid, key) => <[kid := key]> acc
                        | None => acc
                        end) ∅ jwks.

(** [key_for]: the ring as it is first looked at and as it is under the lock of
    forced reloads, the time of the last one, and what a reload brings ([None]
    when it fails or takes too long).  The result is the key and the time of
    the last forced reload. *)
Definition key_for (kid : text) (first locked : gmap text DecodingKey) (last : option Z) (now : Z)
  (reload : option (gmap text DecodingKey)) : option DecodingKey * option Z :=
  match first !! kid with
  | Some key => (Some key, last)
  | None =>
      match locked !! kid with
      | Some key => (Some key, last)
      | None =>
          if match last with Some at_ => Z.max 0 (now - at_) <? MIN_FORCED_RELOAD | None => false end
          then (None, last)
          else (default locked reload !! kid, Some now)
      end
  end.

Definition refusal_of (error : ErrorKind) : BearerRefusal :=
  match error with
  | ExpiredSignature => TokenExpired
  | ImmatureSignature => NotYetValid
  | InvalidIssuer => WrongIssuer
  | InvalidAudience => WrongAudience
  | InvalidSignature => BadSignature
  | MissingRequiredClaim claim =>
      if bool_decide (claim = lit "iss") then WrongIssuer
      else if bool_decide (claim = lit "aud") then WrongAudience
      else Malformed
  | OtherError => Malformed
  end.

Definition validation (issuer : text) : Validation :=
  mkValidation RS256 issuer LEEWAY_SECS true true false [lit "exp"; lit "iss"; lit "sub"; lit "aud"].

Definition sole_audience (a : option Audience) : option text :=
  match a with
  | Some (Single aud) => Some aud
  | Some (Multiple [aud]) => Some aud
  | _ => None
  end.

Definition audience_contains (a : Audience) (x : text) : bool :=
  match a with Single aud => bool_decide (aud = x) | Multiple auds => bool_decide (x ∈ auds) end.

Definition has_scope (claims : Claims) : bool :=
  match scope claims with Some s => negb (bool_decide (trim s = [])) | None => false end.

Definition person (r : Realms) (claims : Claims) (external_id : text) : result VerifiedBearer BearerRefusal :=
  match person_realm r with
  | None => Err HumanToken
  | Some console =>
      if bool_decide (sub claims = []) || negb (bool_decide (external_id = sub claims)) then Err Malformed
      else if negb (bool_decide (sole_audience (aud claims) = Some console)) then Err WrongAudience
      else if negb (has_scope claims) || bool_decide (lit "nonce" ∈ extra claims) then Err IdToken
      else Ok (Person (sub claims) console)
  end.

Definition machine (r : Realms) (claims : Claims) : result VerifiedBearer BearerRefusal :=
  if negb (machine_realm r) then Err MachineToken
  else if bool_decide (sub claims = [])
          || negb match aud claims with Some a => audience_contains a (sub claims) | None => false end
  then Err WrongAudience
  else Ok (Machine (sub claims) (scope claims)).

(** [verify], with the key the ring has for an id. *)
Definition verify (r : Realms) (issuer : text) (key_of : text -> option DecodingKey) (now : Z)
  (token : text) : result VerifiedBearer BearerRefusal :=
  match decode_header token with
  | None => Err Malformed
  | Some header =>
      match alg header with
      | OtherAlgorithm => Err Malformed
      | RS256 =>
          match kid header with
          | None => Err MissingKid
          | Some kid =>
              match key_of kid with
              | None => Err UnknownKid
              | Some key =>
                  let? claims := map_err refusal_of (decode now token key (validation issuer)) in
                  if bool_decide (lit "cnf" ∈ extra claims) then Err SenderConstrained
                  else match identity_external_id claims with
                       | Some id => person r claims id
                       | None => machine r claims
                       end
              end
          end
      end
  end.

(** ** What an accepted token says *)

(** What a token carries beside the claims this verifier reads. *)
Record Payload := mkPayload {
  p_claims : Claims;
  p_iss : list text;
  p_exp : option Z;
  p_nbf : option Z }.

Definition claim_present (p : Payload) (claim : text) : bool :=
  if bool_decide (claim = lit "exp") then negb (Db.is_null (p_exp p))
  else if bool_decide (claim = lit "nbf") then negb (Db.is_null (p_nbf p))
  else if bool_decide (claim = lit "iss") then negb (bool_decide (p_iss p = []))
  else if bool_decide (claim = lit "aud") then negb (Db.is_null (aud (p_claims p)))
  else true.

(** The checks jsonwebtoken documents of [Validation]: the required claims are
    there; a time of expiry or of first use, where it is to be checked, is not
    past or still to come by more than the leeway; the issuer is the expected
    one. *)
Definition validated (now : Z) (v : Validation) (p : Payload) : bool :=
  forallb (claim_present p) (val_required v) &&
  (negb (val_exp v) || match p_exp p with Some e => now - val_leeway v <=? e | None => true end) &&
  (negb (val_nbf v) || match p_nbf p with Some n => n <=? now + val_leeway v | None => true end) &&
  (bool_decide (p_iss p = []) || bool_decide (val_issuer v ∈ p_iss p)).

(** What the verifier relies on of [decode]: where the audience is left to the
    caller, it gives the claims of exactly the tokens whose signature verifies
    with the asked algorithm under the key and whose payload passes. *)
Class JwtLaws := {
  signed_by : DecodingKey -> Algorithm -> text -> Prop;
  payload_of : text -> option Payload;
  decode_ok now token key v claims : val_aud v = false ->
    decode now token key v = Ok claims <->
    signed_by key (val_alg v) token /\
    exists p, payload_of token = Some p /\ p_claims p = claims /\ validated now v p = true }.

(** A token of this issuer, in its time, and addressed to somebody. *)
Definition in_force (issuer : text) (now : Z) (p : Payload) : Prop :=
  issuer ∈ p_iss p /\ (exists e, p_exp p = Some e /\ now - 60 <= e) /\
  (forall n, p_nbf p = Some n -> n <= now + 60) /\ aud (p_claims p) <> None.

Lemma validated_in_force issuer now p :
  validated now (validation issuer) p = true <-> in_force issuer now p.
Proof.
  unfold validated, in_force, validation, LEEWAY_SECS.
  cbn [val_required val_exp val_nbf val_leeway val_issuer negb orb forallb].
  change (claim_present p (lit "exp")) with (negb (Db.is_null (p_exp p))).
  change (claim_present p (lit "iss")) with (negb (bool_decide (p_iss p = []))).
  change (claim_present p (lit "sub")) with true.
  change (claim_present p (lit "aud")) with (negb (Db.is_null (aud (p_claims p)))).
  assert (negb (bool_decide (p_iss p = [])) = true /\
    (bool_decide (p_iss p = []) || bool_decide (issuer ∈ p_iss p)) = true <-> issuer ∈ p_iss p) as Hiss.
  { rewrite orb_true_iff, negb_true_iff, bool_decide_eq_false, !bool_decide_eq_true. split; [tauto|].
    intros Hi. split; [|by right]. intros Hn. rewrite Hn in Hi. by apply elem_of_nil in Hi. }
  assert (negb (Db.is_null (p_exp p)) = true /\
    match p_exp p with Some e => now - 60 <=? e | None => true end = true <->
    exists e, p_exp p = Some e /\ now - 60 <= e) as Hexp.
  { destruct (p_exp p) as [e|]; [rewrite Z.leb_le | by split; [intros []|intros (? & ? & _)]].
    split; [by intros [_ He]; exists e | by intros (? & [= <-] & He)]. }
  assert (match p_nbf p with Some n => n <=? now + 60 | None => true end = true <->
    forall n, p_nbf p = Some n -> n <= now + 60) as Hnbf.
  { destruct (p_nbf p) as [n|]; [rewrite Z.leb_le | done]. split; [by intros Hn ? [= <-] | auto]. }
  assert (negb (Db.is_null (aud (p_claims p))) = true <-> aud (p_claims p) <> None) as Haud.
  { by destruct (aud (p_claims p)). }
  rewrite !andb_true_iff. tauto.
Qed.

Definition says (r : Realms) (claims : Claims) (v : VerifiedBearer) : Prop :=
  match v with
  | Person user console =>
      person_realm r = Some console /\ user <> [] /\ sub claims = user /\
      identity_external_id claims = Some user /\
      (aud claims = Some (Single console) \/ aud claims = Some (Multiple [console])) /\
      (exists s, scope claims = Some s /\ trim s <> []) /\ (lit "nonce" ∉ extra claims)
  | Machine client s =>
      machine_realm r = true /\ client <> [] /\ sub claims = client /\ scope claims = s /\
      identity_external_id claims = None /\
      (aud claims = Some (Single client) \/ exists l, aud claims = Some (Multiple l) /\ client ∈ l)
  end.

Lemma sole_audience_ok a x :
  sole_audience a = Some x <-> a = Some (Single x) \/ a = Some (Multiple [x]).
Proof. destruct a as [[y|[|y [|z l]]]|]; cbn; naive_solver. Qed.

Lemma has_scope_ok claims : has_scope claims = true <-> exists s, scope claims = Some s /\ trim s <> [].
Proof.
  unfold has_scope. destruct (scope claims) as [s|]; [|by split; [|intros (? & ? & _)]].
  rewrite negb_true_iff, bool_decide_eq_false.
  split; [intros Hs; by exists s | by intros (? & [= <-] & Hs)].
Qed.

Lemma audience_contains_ok o x :
  (exists a, o = Some a /\ audience_contains a x = true) <->
  o = Some (Single x) \/ exists l, o = Some (Multiple l) /\ x ∈ l.
Proof.
  split.
  - intros ([y|l] & -> & Ha); cbn in Ha; apply bool_decide_eq_true in Ha; [left; by subst | right; eauto].
  - intros [-> | (l & -> & Hl)]; eexists; (split; [done|]); by apply bool_decide_eq_true.
Qed.

Lemma person_spec r claims id v : person r claims id = Ok v <->
  (exists user console, v = Person user console /\ person_realm r = Some console /\ user <> [] /\
     sub claims = user /\ id = user /\ sole_audience (aud claims) = Some console /\
     has_scope claims = true /\ (lit "nonce" ∉ extra claims)).
Proof.
  unfold person. destruct (person_realm r) as [console|].
  2: { split; [done|]. by intros (? & ? & _ & ? & _). }
  destruct (bool_decide (sub claims = [])) eqn:E1, (bool_decide (id = sub claims)) eqn:E2; cbn [orb negb];
    [split; [done|]; intros (? & ? & -> & _ & Hu & Hs & _); apply bool_decide_eq_true in E1; congruence..| |].
  2: { split; [done|]. intros (? & ? & -> & _ & Hu & Hs & Hi & _). apply bool_decide_eq_false in E2. congruence. }
  apply bool_decide_eq_false in E1. apply bool_decide_eq_true in E2.
  destruct (bool_decide (sole_audience (aud claims) = Some console)) eqn:E3; cbn [negb].
  2: { split; [done|]. intros (? & ? & -> & [= ->] & _ & _ & _ & Ha & _). apply bool_decide_eq_false in E3. congruence. }
  apply bool_decide_eq_true in E3.
  destruct (has_scope claims) eqn:E4; cbn [negb orb].
  2: { split; [done|]. intros (? & ? & _ & _ & _ & _ & _ & _ & Hs & _). congruence. }
  destruct (bool_decide (lit "nonce" ∈ extra claims)) eqn:E5.
  { split; [done|]. intros (? & ? & _ & _ & _ & _ & _ & _ & _ & Hn). apply bool_decide_eq_true in E5. by destruct Hn. }
  apply bool_decide_eq_false in E5. split.
  - intros [= <-]. by exists (sub claims), console.
  - intros (u & c & -> & [= ->] & _ & -> & _). done.
Qed.

Lemma machine_spec r claims v : machine r claims = Ok v <->
  (exists client s, v = Machine client s /\ machine_realm r = true /\ client <> [] /\
     sub claims = client /\ scope claims = s /\
     exists a, aud claims = Some a /\ audience_contains a client = true).
Proof.
  unfold machine. destruct (machine_realm r); cbn [negb].
  2: { split; [done|]. by intros (? & ? & _ & ? & _). }
  destruct (bool_decide (sub claims = [])) eqn:E1; cbn [orb].
  { apply bool_decide_eq_true in E1. split; [done|]. intros (? & ? & _ & _ & ? & ? & _). congruence. }
  apply bool_decide_eq_false in E1. destruct (aud claims) as [a|].
  2: { split; [done|]. by intros (? & ? & _ & _ & _ & _ & _ & ? & ? & _). }
  destruct (audience_contains a (sub claims)) eqn:E2; cbn [negb].
  - split; [intros [= <-]|].
    + exists (sub claims), (scope claims). split_and!; [done..|]. by exists a.
    + by intros (? & ? & -> & _ & _ & -> & -> & _).
  - split; [done|]. intros (? & ? & _ & _ & _ & <- & _ & ? & [= <-] & ?). congruence.
Qed.

Lemma says_spec r claims v :
  match identity_external_id claims with
  | Some id => person r claims id
  | None => machine r claims
  end = Ok v <-> says r claims v.
Proof.
  destruct (identity_external_id claims) as [id|] eqn:E.
  - rewrite person_spec. setoid_rewrite sole_audience_ok. setoid_rewrite has_scope_ok. split.
    + intros (u & c & -> & H1 & H2 & H3 & -> & H4). cbn. rewrite E. tauto.
    + destruct v as [client s|u c]; cbn; rewrite E; [intros (_ & _ & _ & _ & [=] & _)|].
      intros (H1 & H2 & H3 & [= ->] & H4). exists u, c. tauto.
  - rewrite machine_spec. setoid_rewrite audience_contains_ok. split.
    + intros (c & s & -> & H). cbn. rewrite E. tauto.
    + destruct v as [client s|u c]; cbn; rewrite E; [|intros (_ & _ & _ & [=] & _)].
      intros (H1 & H2 & H3 & H4 & _ & H5). exists client, s. tauto.
Qed.

Context `{JL : !JwtLaws}.

Lemma bearer_verify_spec r issuer key_of now token v :
  verify r issuer key_of now token = Ok v <->
  exists id key p,
    decode_header token = Some (mkHeader RS256 (Some id)) /\ key_of id = Some key /\
    signed_by key RS256 token /\ payload_of token = Some p /\ in_force issuer now p /\
    (lit "cnf" ∉ extra (p_claims p)) /\ says r (p_claims p) v.
Proof.
  unfold verify. split.
  - destruct (decode_header token) as [[[|] [id|]]|]; cbn [alg kid]; try done.
    destruct (key_of id) as [key|] eqn:Ek; [|done].
    destruct (decode now token key _) as [claims|] eqn:Ed; [|done]. cbn [map_err rbind].
    destruct (bool_decide _) eqn:Ec; [done|]. apply bool_decide_eq_false in Ec.
    apply decode_ok in Ed as (Hsig & p & Hp & <- & Hv%validated_in_force); [|done].
    rewrite says_spec. intros Hs. by exists id, key, p.
  - intros (id & key & p & -> & Hk & Hsig & Hp & Hf%validated_in_force & Hc & Hs). cbn [alg kid]. rewrite Hk.
    assert (decode now token key (validation issuer) = Ok (p_claims p)) as ->.
    { apply decode_ok; [done|]. split; [done|]. by exists p. }
    cbn [map_err rbind]. rewrite (bool_decide_eq_false_2 _ Hc). by apply says_spec.
Qed.

Lemma realms_served m human r : realms (served_from_methods m) human = Some r ->
  machine_realm r = Methods.machine_tokens_served m /\
  forall console, person_realm r = Some console ->
    Methods.human_login_served m = true /\ human = Some console.
Proof.
  unfold realms, served_from_methods. cbn [sg_machine_tokens sg_human_login].
  destruct (_ || _); [|done]. intros [= <-]. split; [done|]. intros console. cbn [person_realm].
  by destruct (Methods.human_login_served m).
Qed.

(** C17. A token is accepted, and as what, exactly when it is signed with RS256
    by the ring's key of the id in its header; names this issuer; has an expiry
    not a minute past and, if it names a time of first use, one not more than a
    minute away; is addressed to somebody; is not bound to a sender's key; and
    says what the realm asks.  A person's token names the signed-in person as
    its subject, is addressed to the console and to nobody else, carries a scope
    and no nonce (so it is no id token); a machine's names no person and is
    addressed to its own subject.  A realm that is not served accepts nothing. *)
Theorem bearer_accepts m human r issuer key_of now token v :
  realms (served_from_methods m) human = Some r ->
  verify r issuer key_of now token = Ok v <->
  exists id key p,
    decode_header token = Some (mkHeader RS256 (Some id)) /\ key_of id = Some key /\
    signed_by key RS256 token /\ payload_of token = Some p /\ in_force issuer now p /\
    (lit "cnf" ∉ extra (p_claims p)) /\ says r (p_claims p) v /\
    match v with
    | Machine _ _ => Methods.machine_tokens_served m = true
    | Person _ console => Methods.human_login_served m = true /\ human = Some console
    end.
Proof.
  intros [Hm Hp]%realms_served. rewrite bearer_verify_spec.
  split; intros (id & key & p & H1 & H2 & H3 & H4 & H5 & H6 & H7); exists id, key, p; [|tauto].
  do 7 (split; [assumption|]). destruct v as [client s|u c]; cbn in H7; [|apply Hp; tauto].
  rewrite <- Hm. tauto.
Qed.

(** Forced reloads are at least five seconds apart. *)
Lemma key_for_last id first locked last now reload :
  (key_for id first locked last now reload).2 = last \/
  ((key_for id first locked last now reload).2 = Some now /\
   forall t, last = Some t -> t + MIN_FORCED_RELOAD <= now).
Proof.
  unfold key_for. destruct (first !! id); [by left|]. destruct (locked !! id); [by left|].
  destruct last as [t|]; [|by right].
  destruct (Z.ltb_spec (Z.max 0 (now - t)) MIN_FORCED_RELOAD) as [|Hle]; [by left|]. right. split; [done|].
  intros t' [= <-]. unfold MIN_FORCED_RELOAD in *. lia.
Qed.

End Verifier.

End OpBearer.

(** ** Examples *)
Module TokenExamples.

#[local] Existing Instance WebhookExamples.demo_mac.

Definition demo_methods : Methods.AuthMethods :=
  Methods.mkMethods [Methods.HumanLogin; Methods.MachineTokens] true true true.

Lemma configuration_serves_witness :
  Methods.resolve (Some [lit "machine_tokens"; lit "human_login"]) =
    Ok (Methods.mkMethods [Methods.HumanLogin; Methods.MachineTokens] true false false) /\
  (forall x, x ∈ Methods.served demo_methods -> x ∈ Methods.permitted demo_methods) /\
  Methods.HumanLogin ∈ Methods.served demo_methods.
Proof.
  assert (Methods.resolve (Some [lit "machine_tokens"; lit "human_login"]) =
    Ok (Methods.mkMethods [Methods.HumanLogin; Methods.MachineTokens] true false false)) as Hr
    by (vm_compute; reflexivity).
  split; [exact Hr|].
  destruct (Methods.configuration_serves _ true true _ demo_methods Hr) as (_ & H1 & H2 & _);
    [vm_compute; reflexivity|]. split; [exact H1 | by apply H2].
Defined.

(** A form is its first byte: 1 exchanges a code, 2 repeats the grant type, 3
    asks for a machine's token. *)
Definition demo_form (b : list Z) : list (text * text) :=
  match b with
  | [1] => [(lit "grant_type", AUTHORIZATION_CODE); (lit "code", lit "c1"); (lit "client_id", lit "x")]
  | [2] => [(lit "grant_type", AUTHORIZATION_CODE); (lit "grant_type", CLIENT_CREDENTIALS)]
  | [3] => [(lit "grant_type", CLIENT_CREDENTIALS); (lit "client_id", lit "appc_1")]
  | _ => []
  end.

(** A limiter that has seen the code c1 once too often. *)
Definition demo_consume (key : text) : result RateLimitDecision Z :=
  if bool_decide (key = lit "code:" ++ hex_sha256 (lit "c1")) then Ok (Throttled 30) else Ok Allowed.

Example token_forms :
  token_route demo_form (served_from_methods demo_methods) demo_consume (Some [1])
    = Answer 429 (lit "rate limit exceeded") /\
  token_route demo_form (served_from_methods demo_methods) demo_consume (Some [2])
    = Answer 400 (lit "invalid_request") /\
  token_route demo_form (served_from_methods (Methods.mkMethods [Methods.Keypair] true false false))
    demo_consume (Some [3]) = Answer 400 (lit "unsupported_grant_type").
Proof. vm_compute. split_and!; reflexivity. Qed.

Lemma token_route_admits_witness :
  token_route demo_form (served_from_methods demo_methods) demo_consume (Some [3]) = Next [3] /\
  exists grant, fields_named demo_form [3] (lit "grant_type") = [grant] /\
    demo_consume (charged demo_form grant [3]) = Ok Allowed.
Proof.
  assert (token_route demo_form (served_from_methods demo_methods) demo_consume (Some [3]) = Next [3]) as Hr
    by (vm_compute; reflexivity).
  split; [exact Hr|].
  destruct (token_route_admits demo_form demo_methods demo_consume (Some [3]) [3] Hr)
    as (_ & _ & grant & H1 & H2 & _). exists grant. split; assumption.
Defined.

Definition demo_claims (id_token : bool) : OpBearer.Claims :=
  OpBearer.mkClaims (lit "u1") (Some (OpBearer.Multiple [lit "console"])) (Some (lit "openid"))
    (Some (lit "u1")) (if id_token then [lit "nonce"] else []).

Definition demo_payload (t : text) : option OpBearer.Payload :=
  if bool_decide (t = lit "t") || bool_decide (t = lit "i")
  then Some (OpBearer.mkPayload (demo_claims (bool_decide (t = lit "i"))) [lit "https://op"] (Some 2000) None)
  else None.

(** Two tokens: [t] a person's access token, [i] an id token. *)
Definition demo_decode (now : Z) (t : text) (v : OpBearer.Validation)
  : result OpBearer.Claims OpBearer.ErrorKind :=
  match demo_payload t with
  | Some p => if OpBearer.validated now v p then Ok (OpBearer.p_claims p) else Err OpBearer.OtherError
  | None => Err OpBearer.InvalidSignature
  end.

Definition demo_jwt : OpBearer.JwtLib := {|
  OpBearer.DecodingKey := unit;
  OpBearer.from_rsa_components _ _ := Some tt;
  OpBearer.decode_header _ := Some (OpBearer.mkHeader OpBearer.RS256 (Some (lit "k1")));
  OpBearer.decode now t _ v := demo_decode now t v |}.

#[local] Existing Instance demo_jwt.

Definition demo_jwt_laws : OpBearer.JwtLaws.
Proof.
  refine {| OpBearer.signed_by _ _ t := is_Some (demo_payload t); OpBearer.payload_of := demo_payload |}.
  intros now t key v claims _. change (OpBearer.decode now t key v) with (demo_decode now t v).
  unfold demo_decode. destruct (demo_payload t) as [p|]; split; [| |done|by intros [[? ?] _]].
  - destruct (OpBearer.validated now v p) eqn:Hv; [|done]. intros [= <-]. split; [done|]. by exists p.
  - intros (_ & p' & [= <-] & <- & ->). done.
Defined.

#[local] Existing Instance demo_jwt_laws.

Definition demo_realms : OpBearer.Realms := OpBearer.mkRealms true (Some (lit "console")).

Definition demo_ring : text -> option OpBearer.DecodingKey :=
  fun id => OpBearer.published_keys [OpBearer.mkJwk (Some (lit "k1")) (Some []) (Some [])] !! id.

Example id_token_refused :
  OpBearer.verify demo_realms (lit "https://op") demo_ring 100 (lit "i") = Err IdToken /\
  OpBearer.verify demo_realms (lit "https://op") demo_ring 2061 (lit "t") = Err Malformed /\
  OpBearer.verify (OpBearer.mkRealms true None) (lit "https://op") demo_ring 100 (lit "t") = Err HumanToken.
Proof. vm_compute. split_and!; reflexivity. Qed.

Lemma bearer_accepts_witness :
  OpBearer.verify demo_realms (lit "https://op") demo_ring 2060 (lit "t")
    = Ok (Person (lit "u1") (lit "console")) /\
  Methods.human_login_served demo_methods = true.
Proof.
  assert (OpBearer.verify demo_realms (lit "https://op") demo_ring 2060 (lit "t")
    = Ok (Person (lit "u1") (lit "console"))) as Hv by (vm_compute; reflexivity).
  split; [exact Hv|].
  pose proof (proj1 (OpBearer.bearer_accepts demo_methods (Some (lit "console")) demo_realms (lit "https://op")
    demo_ring 2060 (lit "t") (Person (lit "u1") (lit "console")) eq_refl) Hv)
    as (id & key & p & _ & _ & _ & _ & _ & _ & _ & Hs & _). exact Hs.
Defined.

End TokenExamples.
