(* ===== verification/Lifecycle.v ===== *)
(** * The gateway as a whole

    Any number of workers of every role, sends and operator actions coming in
    through the API, and delivery receipts, side by side over one database,
    interleaved call by call with each other and with any other writers.  What holds of every such run: no defect
    shows, each version of a row is won once, and messages only move along
    the table of legal transitions. *)

From S2P Require Import Prelude Float64 RoutingEngine Msisdn ProviderApi Schema Errors Breaker Db.
From S2P Require Import DbLogic DbRef Commits WorkerRouting DemoData Claim Dispatch Dlr Jobs.
From S2P Require Import Scheduler WebhookClaim Webhook Hooks Encoding ApiSchema Rbac Signers Send Operators AuditChain Nonces JobHandlers.

Section Gateway.

Context `{E : CratestackErrors} `{P : PhoneLib} `{UD : UnicodeDebug}.
Context `{M : MacLib} `{UL : UrlLib} `{D : DeliveryLib}.
Context `{J : JsonLib} `{ES : !CratestackErrorsSound} `{UN : UnicodeNormalization} `{CA : Calendar} `{DL : DecimalLib}.

(** One thing that runs: a poll of a worker role, rounds of the scheduler, a
    provider's callback being ingested, or a call of the API: a send, or one
    of the four operator actions. *)
Inductive actor :=
| Dispatcher (providers : ProviderRegistry) (worker : text)
| JobRunner (worker : text) (hash_order : forall A, list A -> list A)
| HooksWorker (ctx : HooksContext) (worker : text)
| SchedulerLoop (rounds : nat)
| Receipts (parse_dlr : RawCallback -> result (list DeliveryUpdate) ProviderError)
    (provider_row_id : text) (raw : RawCallback)
| SendCall (pepper : text) (ctx : CratestackContext) (args : SendMessageInput)
| RotateCall (hmac : HmacWebhooks) (ctx : CratestackContext) (endpoint_id : text)
| SwitchCall (hmac : HmacWebhooks) (ctx : CratestackContext) (endpoint_id : text)
    (mode : WebhookDeliveryMode.t) (audience : option text)
| RequeueCall (ctx : CratestackContext) (job_id : text)
| ReplayCall (hmac : HmacWebhooks) (ctx : CratestackContext) (attempt_id : text).

Definition actor_prog (a : actor) : prog unit :=
  match a with
  | Dispatcher providers worker => let! _ := Dispatch.tick providers worker in Ret tt
  | JobRunner worker hash_order => let! _ := Jobs.tick worker (default_registry hash_order) in Ret tt
  | HooksWorker ctx worker => let! _ := Hooks.tick ctx worker in Ret tt
  | SchedulerLoop rounds => let! _ := run_rounds rounds in Ret tt
  | Receipts parse_dlr provider raw => let! _ := ingest parse_dlr provider raw in Ret tt
  | SendCall pepper ctx args => let! _ := Send.send pepper ctx args in Ret tt
  | RotateCall hmac ctx id => let! _ := rotate_secret hmac ctx id in Ret tt
  | SwitchCall hmac ctx id mode aud => let! _ := switch_mode hmac ctx id mode aud in Ret tt
  | RequeueCall ctx id => let! _ := requeue ctx id in Ret tt
  | ReplayCall hmac ctx id => let! _ := replay_attempt hmac ctx id in Ret tt
  end.

(** A send names no validity or schedule far outside the range of dates. *)
Definition actor_ok (a : actor) : Prop :=
  match a with
  | SendCall _ _ args => sane args
  | _ => True
  end.

Definition start (actors : list actor) : list (prog unit * trace) :=
  (fun a => (actor_prog a, [])) <$> actors.

(** What is known of a finished one. *)
Definition actor_post (a : actor) (_ : unit) (tr : trace) : Prop :=
  match a with
  | Dispatcher _ worker => Forall (fun kq => submitted_from tr worker kq.2) (submits tr)
  | _ => True
  end.

Lemma wp_drop {A} (p : prog A) Q (R : unit -> trace -> Prop) :
  wp p [] Q -> (forall a tr, Q a tr -> R tt tr) -> wp (let! _ := p in Ret tt) [] R.
Proof. intros Hp HR. apply wp_bind. eapply wp_mono; [|exact Hp]. cbn [wp]. apply HR. Qed.

Lemma wp_actor a : actor_ok a -> wp (actor_prog a) [] (actor_post a).
Proof.
  destruct a; intros Ha; cbn [actor_prog actor_ok] in *.
  - eapply wp_drop; [apply wp_dispatch_tick|]. by intros r tr [_ ?].
  - by eapply wp_drop; [apply wp_jobs_tick, default_registry_safe|].
  - by eapply wp_drop; [apply wp_hooks_tick|].
  - by eapply wp_drop; [apply wp_run_rounds|].
  - by eapply wp_drop; [apply wp_ingest|].
  - by eapply wp_drop; [by apply wp_send_message|].
  - by eapply wp_drop; [apply wp_rotate|].
  - by eapply wp_drop; [apply wp_switch|].
  - by eapply wp_drop; [apply wp_requeue|].
  - by eapply wp_drop; [apply wp_replay|].
Qed.

Context `{B : !Backend}.

Definition post_of (actors : list actor) (i : nat) : unit -> trace -> Prop :=
  match actors !! i with Some a => actor_post a | None => fun _ _ => True end.

Lemma start_safe actors w :
  world_ok w -> Forall actor_ok actors -> pool_safe (post_of actors) (start actors, w).
Proof.
  intros Hok Ha. split; [done|]. cbn [fst snd]. intros i p tr Hi. unfold start in Hi.
  apply list_lookup_fmap_Some in Hi as (a & [= -> ->] & Hi'). unfold post_of. rewrite Hi'.
  rewrite Forall_lookup in Ha. split_and!; [by eapply wp_actor, Ha | apply valid_nil | done | constructor].
Qed.

(** The database only moves forward along a pool's run. *)
Lemma pool_evolves {A} (x y : pool A) :
  rtc pool_step x y -> rows_ok x.2 -> evolves x.2 y.2 /\ rows_ok y.2.
Proof.
  induction 1 as [x|x y z Hs _ IH]; intros Hok; [by split; [apply evolves_refl|]|].
  assert (evolves x.2 y.2 /\ rows_ok y.2) as [Hev Hok'].
  { destruct Hs as [ps w w' Hev [Hok' _]|ps i R c k tr w r w' Hi Hx]; cbn in *; [done|].
    by destruct (exec_rows _ _ _ _ _ Hok Hx) as (? & ? & _). }
  destruct (IH Hok') as [Hev' ?]. split; [by eapply evolves_trans | done].
Qed.

Lemma sum_start_wins t id v actors : pool_wins t id v (start actors) = 0%nat.
Proof. unfold pool_wins, start. induction actors as [|a actors IH]; [done|]. by cbn. Qed.


(** At most one write conditioned on a given version of a row is accepted. *)
Lemma version_won_once actors w ps w' t id v :
  world_ok w -> rtc pool_step (start actors, w) (ps, w') -> (pool_wins t id v ps <= 1)%nat.
Proof.
  intros Hok Hr. apply (pool_taken t id v) in Hr.
  - destruct Hr as [_ [Hw|(Hw & _)]]; cbn [fst] in Hw; lia.
  - split; [apply Hok|]. left. apply sum_start_wins.
Qed.

Lemma won_wins tr t b : won tr t b -> (1 <= wins t (row_id t b) (row_version t b - 1) tr)%nat.
Proof.
  intros [p Hp]. unfold wins. induction tr as [|e tr IH]; [by apply not_elem_of_nil in Hp|].
  cbn [sum_list_with]. apply elem_of_cons in Hp as [<-|Hp]; [|specialize (IH Hp); lia].
  cbn [win]. rewrite bool_decide_eq_true_2 by done. cbn. lia.
Qed.

Lemma sum_list_with_two {X} (f : X -> nat) l i j x y :
  i <> j -> l !! i = Some x -> l !! j = Some y -> (f x + f y <= sum_list_with f l)%nat.
Proof.
  revert i j. induction l as [|z l IH]; intros [|i] [|j] Hij Hx Hy; cbn in *; try done.
  - injection Hx as ->. pose proof (sum_list_with_in x f l). clear IH.
    apply list_elem_of_lookup_2 in Hy. pose proof (sum_list_with_in y f l Hy). lia.
  - injection Hy as ->. apply list_elem_of_lookup_2 in Hx. pose proof (sum_list_with_in x f l Hx). lia.
  - specialize (IH i j ltac:(congruence) Hx Hy). lia.
Qed.

(** C2. One lease, one submission. In any run of the whole system, two
    dispatchers whose polls finished never submitted the same lease of a
    message: if both sent requests for one message, the rows they sent from
    are the results of two different accepted writes, at different versions
    of the message. *)
Theorem submissions_exclusive actors w ps w' i j pr1 w1 pr2 w2 tr1 tr2 k1 q1 k2 q2 :
  world_ok w -> Forall actor_ok actors -> rtc pool_step (start actors, w) (ps, w') ->
  i <> j -> actors !! i = Some (Dispatcher pr1 w1) -> actors !! j = Some (Dispatcher pr2 w2) ->
  ps !! i = Some (Ret tt, tr1) -> ps !! j = Some (Ret tt, tr2) ->
  (k1, q1) ∈ submits tr1 -> (k2, q2) ∈ submits tr2 -> sr_reference q1 = sr_reference q2 ->
  exists m1 m2 b1 b2, q1 = submit_request m1 b1 /\ q2 = submit_request m2 b2 /\
    won tr1 TMessage m1 /\ won tr2 TMessage m2 /\
    m1.(Message.id) = m2.(Message.id) /\ m1.(Message.version) <> m2.(Message.version).
Proof.
  intros Hok Ha Hr Hij Hi Hj Hpi Hpj Hq1 Hq2 Href.
  pose proof (version_won_once actors w ps w') as Honce.
  pose proof (pool_sound (post_of actors) _ _ Hr (start_safe actors w Hok Ha)) as [_ Hps].
  destruct (Hps i _ _ Hpi) as [Hpost1 _], (Hps j _ _ Hpj) as [Hpost2 _].
  unfold post_of in Hpost1, Hpost2. rewrite Hi in Hpost1. rewrite Hj in Hpost2.
  cbn [wp actor_post] in Hpost1, Hpost2. rewrite Forall_forall in Hpost1, Hpost2.
  destruct (Hpost1 _ Hq1) as (m1 & n1 & b1 & Hl1 & _ & _ & Heq1).
  destruct (Hpost2 _ Hq2) as (m2 & n2 & b2 & Hl2 & _ & _ & Heq2).
  cbn [snd] in Heq1, Heq2. subst q1 q2. cbn [sr_reference submit_request] in Href.
  exists m1, m2, b1, b2. destruct Hl1 as [Hw1 _], Hl2 as [Hw2 _].
  split_and!; [done | done | done | done | done|]. intros Hv.
  apply won_wins in Hw1, Hw2. cbn [row_id row_version] in Hw1, Hw2. rewrite <- Href, <- Hv in Hw2.
  specialize (Honce TMessage (Message.id m1) (Message.version m1 - 1) Hok Hr).
  pose proof (sum_list_with_two (fun x => wins TMessage (Message.id m1) (Message.version m1 - 1) x.2)
    ps i j _ _ Hij Hpi Hpj) as Hsum.
  cbn [snd] in Hsum. unfold pool_wins in Honce. lia.
Qed.

Lemma terminal_stuck (a b : MessageState.t) :
  Guards.message_terminal a = true -> (a, b) ∉ Guards.message_state_transitions.
Proof.
  intros Ha Hin. apply (bool_decide_eq_true_2 _) in Hin. revert Ha Hin.
  by destruct a, b; vm_compute.
Qed.

(** C3. Messages move only along the table of legal transitions, across any run
    of the whole system; in particular a message that is delivered,
    failed, expired, rejected or cancelled stays so for as long as its row
    exists. *)
Theorem message_lifecycle actors w ps w' id m m' :
  world_ok w -> rtc pool_step (start actors, w) (ps, w') ->
  w_tables w TMessage !! id = Some m -> w_tables w' TMessage !! id = Some m' ->
  rtc (fun a b => (a, b) ∈ Guards.message_state_transitions)
    m.(Message.state) m'.(Message.state) /\
  (Guards.message_terminal m.(Message.state) = true -> m'.(Message.state) = m.(Message.state)).
Proof.
  intros Hok Hr Hm Hm'. apply pool_evolves in Hr as [Hev _]; [|apply Hok]. cbn in Hev.
  assert (rtc (fun a b => (a, b) ∈ Guards.message_state_transitions)
    m.(Message.state) m'.(Message.state)) as Hmove.
  { destruct (Hev TMessage) as [_ Hrows]. destruct (Hrows id m' Hm') as [Hn|(x & Hx & Hl)].
    - destruct Hn. by eapply (proj1 Hok).
    - cbn in *. rewrite Hm in Hx. injection Hx as <-. destruct Hl as [->|[_ Hl]]; [apply rtc_refl | done]. }
  split; [done|]. intros Ht. destruct Hmove as [|x y z Hs _]; [done|].
  by destruct (terminal_stuck x y Ht).
Qed.

End Gateway.

(** ** Example: one of each role and a second dispatcher, in lock step *)
Module LifecycleExamples.

Import DispatchExamples DlrExamples WebhookExamples HooksExamples.

#[local] Existing Instance demo_errors.
#[local] Existing Instance demo_phone.
#[local] Existing Instance demo_debug.
#[local] Existing Instance demo_mac.
#[local] Existing Instance demo_url.
#[local] Existing Instance demo_delivery.
#[local] Existing Instance demo_json.
#[local] Existing Instance demo_errors_sound.
#[local] Existing Instance demo_unicode.
#[local] Existing Instance gregorian.
#[local] Existing Instance demo_decimal.

(** The pool under a given order of calls: each entry names who moves. *)
Fixpoint pool_exec (o : oracle) {A} (order : list nat) (x : pool A) : pool A :=
  match order with
  | [] => x
  | i :: rest =>
      match x.1 !! i with
      | Some (Call c k, tr) =>
          let '(r, w') := ref_exec o c x.2 in
          pool_exec o rest (<[i := (k r, Ev c r :: tr)]> x.1, w')
      | _ => pool_exec o rest x
      end
  end.

Lemma pool_exec_steps o {A} order (x : pool A) :
  rtc (@pool_step _ (ref_backend o) A) x (pool_exec o order x).
Proof.
  revert x. induction order as [|i order IH]; intros [ps w]; cbn [pool_exec]; [apply rtc_refl|].
  cbn [fst snd]. destruct (ps !! i) as [[p tr]|] eqn:Hi; [|apply IH].
  destruct p as [a| |R c k]; [apply IH|apply IH|].
  destruct (ref_exec o c w) as [r w'] eqn:Hx. eapply rtc_l; [|apply IH].
  by apply (@pool_call _ (ref_backend o) A ps i R c k tr w r w').
Qed.

Definition ex_actors : list actor :=
  [Dispatcher ex_registry (lit "w1"); Dispatcher ex_registry (lit "w2"); HooksWorker ex_ctx (lit "w3");
   JobRunner (lit "w4") (fun _ l => l); SchedulerLoop 1; Receipts ex_parse (lit "pv1") ex_raw;
   SendCall demo_pepper shop_context (shop_args (Some 60)); RequeueCall shop_context (lit "j1")].

Definition ex_order : list nat := concat (replicate 40 [0; 1; 2; 3; 4; 5; 6; 7]%nat).

Abbreviation ex_pool :=
  (pool_exec accepting ex_order (start ex_actors, ex_world MessageState.queued)).


Lemma ex_pool_steps :
  rtc (@pool_step _ (ref_backend accepting) unit)
    (start ex_actors, ex_world MessageState.queued) (ex_pool.1, ex_pool.2).
Proof.
  pose proof (pool_exec_steps accepting ex_order (start ex_actors, ex_world MessageState.queued)) as Hs.
  by destruct (pool_exec accepting _ _).
Qed.


(** Both dispatchers saw version 7 of the message; one leased it, and only
    one submission was made. *)
Example ex_one_submission :
  pool_wins TMessage (lit "m1") 7 ex_pool.1 = 1%nat /\
  sum_list_with (fun x => length (submits x.2)) ex_pool.1 = 1%nat.
Proof. vm_compute. split; reflexivity. Qed.

(** Two dispatchers, one after the other: the provider asks the first to come
    back later, an operator releases the message, the second takes it. *)
Abbreviation busy := (failing (Transient (seconds 5) (lit "busy"))).

Definition ex_pair : list actor :=
  [Dispatcher ex_registry (lit "w1"); Dispatcher ex_registry (lit "w2")].

Abbreviation ex_first := (pool_exec busy (replicate 20 0%nat) (start ex_pair, ex_world MessageState.queued)).

Definition released (m : Message.t) : Message.t :=
  Message.set_version (m.(Message.version) + 1) (Message.set_leaseUntil None m).

Definition release (w : world) (id : text) : world :=
  match w_tables w TMessage !! id with
  | Some m => put w TMessage (released m)
  | None => w
  end.

Lemma release_later w id : world_ok w -> evolves w (release w id) /\ world_ok (release w id).
Proof.
  intros Hok. unfold release. destruct (w_tables w TMessage !! id) as [m|] eqn:Hm;
    [|by split; [apply evolves_refl|]].
  pose proof (put_written w TMessage (released m)) as Hw.
  destruct (proj1 Hok TMessage id m Hm) as [Hid Hu]. cbn in Hid. split.
  - eapply written_evolves; [exact Hw | done | cbn; by rewrite Hid|].
    right. cbn. split; [lia | apply rtc_refl].
  - split; [|apply (proj2 Hok)]. exact (written_ok w TMessage id m (released m) _ (proj1 Hok) Hm eq_refl Hw eq_refl).
Qed.

Abbreviation ex_second :=
  (pool_exec busy (replicate 20 1%nat) (ex_first.1, release ex_first.2 (lit "m1"))).

(** One member runs, the lease is released, another runs. *)
Lemma exec_release_exec o l1 l2 actors w id (x y : pool unit) :
  world_ok w -> Forall actor_ok actors ->
  x = pool_exec o l1 (start actors, w) -> y = pool_exec o l2 (x.1, release x.2 id) ->
  rtc (@pool_step _ (ref_backend o) unit) (start actors, w) (y.1, y.2).
Proof.
  intros Hok Ha Hx Hy.
  pose proof (pool_exec_steps o l1 (start actors, w)) as H1. rewrite <- Hx in H1.
  destruct (@pool_sound _ (ref_backend o) _ _ _ _ H1 (start_safe actors w Hok Ha)) as [Hok1 _].
  destruct x as [ps1 w1]. cbn [fst snd] in *.
  destruct (release_later w1 id Hok1) as [Hev Hok2].
  pose proof (pool_exec_steps o l2 (ps1, release w1 id)) as H2. rewrite <- Hy in H2.
  destruct y as [ps2 w2]. eapply rtc_trans; [exact H1|]. eapply rtc_l; [by apply pool_env | exact H2].
Qed.

Lemma ex_second_steps :
  rtc (@pool_step _ (ref_backend busy) unit)
    (start ex_pair, ex_world MessageState.queued) (ex_second.1, ex_second.2).
Proof.
  eapply exec_release_exec; [apply ex_world_ok | repeat constructor | reflexivity | reflexivity].
Qed.

(** The trace of a finished member. *)
Definition trace_at (ps : list (prog unit * trace)) (i : nat) : trace :=
  match ps !! i with Some x => x.2 | None => [] end.

Definition finished_at (ps : list (prog unit * trace)) (i : nat) : bool :=
  match ps !! i with Some (Ret _, _) => true | _ => false end.

Lemma finished_lookup ps i : finished_at ps i = true -> ps !! i = Some (Ret tt, trace_at ps i).
Proof.
  unfold finished_at, trace_at. destruct (ps !! i) as [[p tr]|]; [|done]. by destruct p as [[]| |].
Qed.

Definition ex_request : SubmitRequest :=
  submit_request (ex_message (lit "m1") MessageState.routed) (lit "code 1234").

Lemma submissions_exclusive_witness :
  exists m1 m2, m1.(Message.id) = m2.(Message.id) /\
    won (trace_at ex_second.1 0) TMessage m1 /\ won (trace_at ex_second.1 1) TMessage m2 /\
    m1.(Message.version) <> m2.(Message.version).
Proof.
  destruct (@submissions_exclusive demo_errors demo_phone demo_debug demo_mac demo_url demo_delivery
    demo_json demo_errors_sound demo_unicode gregorian demo_decimal (ref_backend busy) ex_pair (ex_world MessageState.queued) ex_second.1 ex_second.2 0 1
    ex_registry (lit "w1") ex_registry (lit "w2") (trace_at ex_second.1 0) (trace_at ex_second.1 1)
    (lit "orange_cm") ex_request (lit "orange_cm") ex_request (ex_world_ok _)
    ltac:(by repeat constructor) ex_second_steps ltac:(done) eq_refl eq_refl)
    as (m1 & m2 & b1 & b2 & _ & _ & H1 & H2 & Hid & Hv).
  - apply finished_lookup. vm_compute. reflexivity.
  - apply finished_lookup. vm_compute. reflexivity.
  - assert (submits (trace_at ex_second.1 0) = [(lit "orange_cm", ex_request)]) as ->
      by (vm_compute; reflexivity). by left.
  - assert (submits (trace_at ex_second.1 1) = [(lit "orange_cm", ex_request)]) as ->
      by (vm_compute; reflexivity). by left.
  - reflexivity.
  - exists m1, m2. by split_and!.
Defined.

Lemma message_lifecycle_witness :
  exists m', w_tables ex_pool.2 TMessage !! lit "m1" = Some m' /\
    m'.(Message.state) = MessageState.submitted /\
    rtc (fun a b => (a, b) ∈ Guards.message_state_transitions)
      MessageState.queued m'.(Message.state).
Proof.
  destruct (w_tables ex_pool.2 TMessage !! lit "m1") as [m'|] eqn:Hm';
    [|vm_compute in Hm'; discriminate Hm'].
  exists m'. split; [reflexivity|]. split.
  - vm_compute in Hm'. injection Hm' as <-. reflexivity.
  - refine (proj1 (@message_lifecycle demo_errors demo_phone demo_debug demo_mac demo_url
      demo_delivery demo_json demo_unicode gregorian demo_decimal (ref_backend accepting) ex_actors (ex_world MessageState.queued) ex_pool.1
      ex_pool.2 (lit "m1") (ex_message (lit "m1") MessageState.queued) m' (ex_world_ok _)
      ex_pool_steps _ Hm')).
    vm_compute. reflexivity.
Defined.

End LifecycleExamples.
