(* ===== verification/Oidc.v ===== *)
(** * Single sign-on: configuration, ID tokens, policy

    sms-auth/src/sso: config.rs (the broker's settings and which URLs it will
    talk to), error.rs (the refusals), id_token.rs (the verification of an ID
    token against one key) and policy.rs (who is admitted).

    The url and jsonwebtoken crates, base64 and serde_json are parameters. *)

From S2P Require Import Prelude Sql Db Webhook Adapter AwsProvider OrangeProvider.

(** ** error.rs *)
Module Sso.

Inductive Refusal :=
| IdTokenMalformed | AlgorithmNotAllowed | MissingKeyId | UnknownKeyId | KeyUnsuitable
| SignatureInvalid | IssuerMismatch | AudienceMismatch | AuthorizedPartyMismatch | Expired
| NotYetValid | IssuedInFuture | MissingClaim | NonceMismatch | MfaNotSatisfied
| NotInRequiredGroup | UserInactive | EmailMissing | EmailUnverified | EmailReserved
| EmailInUse | UpstreamDenied | NoSuchTransaction | NoCode.

Definition reason (r : Refusal) : text :=
  match r with
  | IdTokenMalformed => lit "id_token_malformed"
  | AlgorithmNotAllowed => lit "algorithm_not_allowed"
  | MissingKeyId => lit "missing_key_id"
  | UnknownKeyId => lit "unknown_key_id"
  | KeyUnsuitable => lit "key_unsuitable"
  | SignatureInvalid => lit "signature_invalid"
  | IssuerMismatch => lit "issuer_mismatch"
  | AudienceMismatch => lit "audience_mismatch"
  | AuthorizedPartyMismatch => lit "authorized_party_mismatch"
  | Expired => lit "expired"
  | NotYetValid => lit "not_yet_valid"
  | IssuedInFuture => lit "issued_in_future"
  | MissingClaim => lit "missing_claim"
  | NonceMismatch => lit "nonce_mismatch"
  | MfaNotSatisfied => lit "mfa_not_satisfied"
  | NotInRequiredGroup => lit "not_in_required_group"
  | UserInactive => lit "user_inactive"
  | EmailMissing => lit "email_missing"
  | EmailUnverified => lit "email_unverified"
  | EmailReserved => lit "email_reserved"
  | EmailInUse => lit "email_in_use"
  | UpstreamDenied => lit "upstream_denied"
  | NoSuchTransaction => lit "no_such_transaction"
  | NoCode => lit "no_code"
  end.

Inductive SsoError := Refused (r : Refusal) | Unavailable (what : text).

(** ** config.rs *)
Definition START_PATH : text := lit "/login/sso/start".
Definition CALLBACK_PATH : text := lit "/login/sso/callback".

(** human_login.rs: the block as it is configured; durations in seconds. *)
Record Settings := mkSettings {
  st_issuer : text;
  st_client_id : text;
  st_client_secret : text;
  st_scopes : list text;
  st_required_group : text;
  st_groups_claim : text;
  st_accepted_amr : list text;
  st_accepted_acr : list text;
  st_jit_role : text;
  st_jwks_min_refresh_secs : Z }.

(** [jwks_min_refresh] in nanoseconds, like every duration of the monotonic
    clock. *)
Record SsoConfig := mkSsoConfig {
  issuer : text;
  client_id : text;
  client_secret : text;
  redirect_uri : text;
  scopes : text;
  required_group : text;
  groups_claim : text;
  accepted_acr : list text;
  accepted_amr : list text;
  jit_role_key : text;
  jwks_min_refresh : Z;
  livemode : bool }.

Inductive ConfigError := BadUrl (field reason : text).

(** [url::Host]. *)
Inductive Host :=
| Domain (name : text)
| Ipv4 (a b c d : Z)
| Ipv6 (address : Z).

(** What of the url crate the sign-in uses beyond [ReqwestLib]. *)
Class UrlHosts `{R : ReqwestLib} := {
  url_host_kind : url -> option Host;
  query_pairs : url -> list (text * text);
  append_pairs : list (text * text) -> url -> url }.

Section Config.

Context `{R : ReqwestLib} `{U : !UrlHosts}.

Definition eq_ignore_ascii_case (a b : text) : bool :=
  bool_decide (map AwsSms.to_ascii_lowercase a = map AwsSms.to_ascii_lowercase b).

(** [Ipv4Addr::is_loopback] is 127/8, [Ipv6Addr::is_loopback] is ::1. *)
Definition is_loopback (u : url) : bool :=
  match url_host_kind u with
  | Some (Domain domain) => eq_ignore_ascii_case domain (lit "localhost")
  | Some (Ipv4 a _ _ _) => a =? 127
  | Some (Ipv6 address) => address =? 1
  | None => false
  end.

Definition require_secure_url (field value : text) : result url ConfigError :=
  match url_parse value with
  | Err _ => Err (BadUrl field (lit "not an absolute URL"))
  | Ok u =>
      if negb (bool_decide (url_scheme u = lit "https") ||
               (bool_decide (url_scheme u = lit "http") && is_loopback u)) then
        Err (BadUrl field (lit "must be https (plain http only to localhost)"))
      else if Db.is_null (url_host_kind u) then Err (BadUrl field (lit "has no host"))
      else if negb (Db.is_null (url_fragment u)) then
        Err (BadUrl field (lit "must not carry a fragment"))
      else if negb (bool_decide (url_username u = [])) || negb (Db.is_null (url_password u)) then
        Err (BadUrl field (lit "must not carry credentials"))
      else Ok u
  end.

Definition new_config (sso : Settings) (op_issuer : text) (livemode : bool)
  : result SsoConfig ConfigError :=
  let? base := require_secure_url (lit "op.issuer") op_issuer in
  Ok (mkSsoConfig (st_issuer sso) (st_client_id sso) (st_client_secret sso)
        (OrangeCm.trim_end_char 47 (url_str base) ++ CALLBACK_PATH)
        (join (lit " ") (st_scopes sso)) (st_required_group sso) (st_groups_claim sso)
        (st_accepted_acr sso) (st_accepted_amr sso) (st_jit_role sso)
        (st_jwks_min_refresh_secs sso * NANOS_PER_SEC) livemode).

(** A URL that may be talked to: encrypted, or to this very machine. *)
Definition secure_url (u : url) : Prop :=
  (url_scheme u = lit "https" \/ (url_scheme u = lit "http" /\ is_loopback u = true)) /\
  url_host_kind u <> None /\ url_fragment u = None /\ url_username u = [] /\ url_password u = None.

Lemma require_secure_url_ok field value u :
  require_secure_url field value = Ok u -> url_parse value = Ok u /\ secure_url u.
Proof.
  unfold require_secure_url, secure_url. destruct (url_parse value) as [u'|]; [|done].
  destruct (negb (bool_decide (url_scheme u' = lit "https") || _)) eqn:Hs; [done|].
  destruct (url_host_kind u') eqn:Hh; [|done].
  destruct (url_fragment u') eqn:Hf; [done|].
  destruct (bool_decide_reflect (url_username u' = [])) as [Hn|]; [|done].
  destruct (url_password u') eqn:Hp; [done|]. intros [= <-].
  split; [done|]. rewrite Hh, Hf, Hp. apply negb_false_iff, orb_true_iff in Hs.
  split; [|by split_and!].
  destruct Hs as [Hs%bool_decide_eq_true | [Hs%bool_decide_eq_true ?]%andb_true_iff]; auto.
Qed.

End Config.

(** ** id_token.rs *)
Definition LEEWAY_SECS : Z := 60.
Definition MAX_SUBJECT_LEN : Z := 255.

Record Expected := mkExpected {
  exp_issuer : text;
  exp_client_id : text;
  exp_nonce : text;
  exp_groups_claim : text }.

Record IdClaims := mkIdClaims {
  subject : text;
  email : option text;
  email_verified : option bool;
  name : option text;
  preferred_username : option text;
  acr : option text;
  amr : list text;
  groups : list text }.

(** jsonwebtoken's algorithms; their [Debug] is their name. *)
Inductive Algorithm :=
| HS256 | HS384 | HS512 | ES256 | ES384 | RS256 | RS384 | RS512 | PS256 | PS384 | PS512 | EdDSA.

Definition alg_name (a : Algorithm) : text :=
  match a with
  | HS256 => lit "HS256" | HS384 => lit "HS384" | HS512 => lit "HS512"
  | ES256 => lit "ES256" | ES384 => lit "ES384"
  | RS256 => lit "RS256" | RS384 => lit "RS384" | RS512 => lit "RS512"
  | PS256 => lit "PS256" | PS384 => lit "PS384" | PS512 => lit "PS512"
  | EdDSA => lit "EdDSA"
  end.

Inductive AlgorithmParameters := RSA | EllipticCurve | OtherParameters.
Inductive PublicKeyUse := Signature | OtherUse.

Definition ALLOWED_ALGORITHM_NAMES : list text :=
  [lit "RS256"; lit "RS384"; lit "RS512"; lit "PS256"; lit "PS384"; lit "PS512"; lit "ES256";
   lit "ES384"].

Definition is_allowed_algorithm (a : Algorithm) : bool :=
  match a with
  | RS256 | RS384 | RS512 | PS256 | PS384 | PS512 | ES256 | ES384 => true
  | HS256 | HS384 | HS512 | EdDSA => false
  end.

(** What [Validation] is set to. *)
Record Validation := mkValidation {
  v_algorithm : Algorithm;
  v_leeway : Z;
  v_exp : bool;
  v_nbf : bool;
  v_aud : bool;
  v_audience : list text;
  v_issuer : list text;
  v_required : list text }.

Inductive ErrorKind :=
| InvalidSignature | ExpiredSignature | ImmatureSignature | InvalidIssuer | InvalidAudience
| MissingRequiredClaim (claim : text) | InvalidSubject | InvalidAlgorithm | MissingAlgorithm
| OtherKind.

Record Header := mkHeader { h_alg : Algorithm; h_kid : option text }.

(** jsonwebtoken, base64 and serde_json.  [material] is what a key is made of;
    [decode] reads the clock, so it takes the time. *)
Class TokenLib := {
  material : Type;
  DecodingKey : Type;
  base64url_decode : text -> option (list Z);
  json_from_slice : list Z -> option Json;
  decode_header : text -> option Header;
  from_material : AlgorithmParameters -> material -> option DecodingKey;
  decode : Z -> text -> DecodingKey -> Validation -> result Json ErrorKind }.

(** [Value::get], [as_str], [as_bool], [as_u64], [as_array]. *)
Definition json_get (v : Json) (key : text) : option Json :=
  match v with
  | JObject entries => snd <$> List.find (fun kv => bool_decide (kv.1 = key)) entries
  | _ => None
  end.

Definition as_str (v : Json) : option text := match v with JString s => Some s | _ => None end.
Definition as_bool (v : Json) : option bool := match v with JBool b => Some b | _ => None end.
Definition as_array (v : Json) : option (list Json) := match v with JArray l => Some l | _ => None end.
Definition as_u64 (v : Json) : option Z :=
  match v with JInt n => if (0 <=? n) && (n <? 2 ^ 64) then Some n else None | _ => None end.

Definition optional_string (claims : Json) (key : text) : option text := json_get claims key ≫= as_str.

Definition string_list (value : option Json) : list text :=
  match value with
  | Some (JString one) => [one]
  | Some (JArray many) => omap as_str many
  | _ => []
  end.

(** [u64::saturating_add]. *)
Definition saturating_add_u64 (a b : Z) : Z := Z.min (a + b) (2 ^ 64 - 1).

Section IdToken.

Context `{T : TokenLib}.

Record Jwk := mkJwk {
  key_id : option text;
  public_key_use : option PublicKeyUse;
  key_algorithm : option text;
  parameters : AlgorithmParameters;
  key_material : material }.

(** The name in the header, before the library looks at it. *)
Definition peek_algorithm_name (raw : text) : option text :=
  header ← head (split_on 46 raw);
  bytes ← base64url_decode header;
  value ← json_from_slice bytes;
  json_get value (lit "alg") ≫= as_str.

Definition check_key_suits (jwk : Jwk) (alg : Algorithm) : result unit Refusal :=
  let family_ok :=
    match parameters jwk, alg with
    | RSA, (RS256 | RS384 | RS512 | PS256 | PS384 | PS512) => true
    | EllipticCurve, (ES256 | ES384) => true
    | _, _ => false
    end in
  if negb family_ok then Err KeyUnsuitable
  else if match public_key_use jwk with Some OtherUse => true | _ => false end then Err KeyUnsuitable
  else if match key_algorithm jwk with
          | Some stated => negb (bool_decide (stated = alg_name alg))
          | None => false
          end then Err KeyUnsuitable
  else Ok tt.

Definition map_jwt_error (kind : ErrorKind) : Refusal :=
  match kind with
  | InvalidSignature => SignatureInvalid
  | ExpiredSignature => Expired
  | ImmatureSignature => NotYetValid
  | InvalidIssuer => IssuerMismatch
  | InvalidAudience => AudienceMismatch
  | MissingRequiredClaim _ | InvalidSubject => MissingClaim
  | InvalidAlgorithm | MissingAlgorithm => AlgorithmNotAllowed
  | OtherKind => IdTokenMalformed
  end.

Definition validation (alg : Algorithm) (expected : Expected) : Validation :=
  mkValidation alg LEEWAY_SECS true true true [exp_client_id expected] [exp_issuer expected]
    [lit "exp"; lit "iss"; lit "aud"; lit "sub"].

(** [sub], [iat], [azp] and [nonce]: what the library does not check. *)
Definition subject_of (claims : Json) : result text Refusal :=
  match json_get claims (lit "sub") ≫= as_str with
  | Some sub =>
      if negb (bool_decide (sub = [])) && (byte_len sub <=? MAX_SUBJECT_LEN) then Ok sub
      else Err MissingClaim
  | None => Err MissingClaim
  end.

Definition check_iat (claims : Json) (now : Z) : result unit Refusal :=
  match json_get claims (lit "iat") ≫= as_u64 with
  | None => Err MissingClaim
  | Some iat => if saturating_add_u64 now LEEWAY_SECS <? iat then Err IssuedInFuture else Ok tt
  end.

Definition several_audiences (claims : Json) : bool :=
  match json_get claims (lit "aud") ≫= as_array with
  | Some aud => (1 <? length aud)%nat
  | None => false
  end.

Definition check_azp (claims : Json) (client_id : text) : result unit Refusal :=
  match json_get claims (lit "azp") with
  | Some (JString azp) =>
      if bool_decide (azp = client_id) then Ok tt else Err AuthorizedPartyMismatch
  | Some _ => Err AuthorizedPartyMismatch
  | None => if several_audiences claims then Err AuthorizedPartyMismatch else Ok tt
  end.

Definition check_nonce (claims : Json) (expected : text) : result unit Refusal :=
  match json_get claims (lit "nonce") ≫= as_str with
  | Some nonce =>
      if negb (bool_decide (nonce = [])) && bool_decide (nonce = expected) then Ok tt
      else Err NonceMismatch
  | None => Err NonceMismatch
  end.

Definition id_claims (claims : Json) (subject : text) (groups_claim : text) : IdClaims :=
  mkIdClaims subject (optional_string claims (lit "email"))
    (json_get claims (lit "email_verified") ≫= as_bool) (optional_string claims (lit "name"))
    (optional_string claims (lit "preferred_username")) (optional_string claims (lit "acr"))
    (string_list (json_get claims (lit "amr"))) (string_list (json_get claims groups_claim)).

Definition verify (now : Z) (raw : text) (jwk : Jwk) (alg : Algorithm) (expected : Expected)
  : result IdClaims Refusal :=
  if negb (is_allowed_algorithm alg) then Err AlgorithmNotAllowed
  else
    let? _ := check_key_suits jwk alg in
    match from_material (parameters jwk) (key_material jwk) with
    | None => Err KeyUnsuitable
    | Some key =>
        let? claims := map_err map_jwt_error (decode now raw key (validation alg expected)) in
        let? subject := subject_of claims in
        let? _ := check_iat claims now in
        let? _ := check_azp claims (exp_client_id expected) in
        let? _ := check_nonce claims (exp_nonce expected) in
        Ok (id_claims claims subject (exp_groups_claim expected))
    end.

End IdToken.

(** ** policy.rs *)
Inductive Verdict := Admit | RetryWithPromptLogin | Refuse (r : Refusal).

Definition mfa_satisfied (claims : IdClaims) (config : SsoConfig) : bool :=
  match acr claims with
  | Some acr => bool_decide (acr ∈ accepted_acr config)
  | None => false
  end ||
  existsb (fun amr => bool_decide (amr ∈ accepted_amr config)) (amr claims).

Definition in_required_group (claims : IdClaims) (config : SsoConfig) : bool :=
  bool_decide (required_group config ∈ groups claims).

Definition evaluate (claims : IdClaims) (config : SsoConfig) (is_retry : bool) : Verdict :=
  if negb (in_required_group claims config) then Refuse NotInRequiredGroup
  else if mfa_satisfied claims config then Admit
  else if is_retry then Refuse MfaNotSatisfied
  else RetryWithPromptLogin.

End Sso.

(** ** What an accepted ID token says

    The documented behaviour of jsonwebtoken's [decode] that the broker relies
    on: the signature verified under the key, the issuer and the audience are
    among the expected ones, and the token has not expired. *)
Class TokenLibSound `{T : Sso.TokenLib} := {
  signed_by : Sso.DecodingKey -> Sso.Algorithm -> text -> Json -> Prop;
  numeric_date : Json -> option Z;
  decode_signed now raw key v claims : Sso.decode now raw key v = Ok claims ->
    signed_by key (Sso.v_algorithm v) raw claims;
  decode_issuer now raw key v claims : Sso.decode now raw key v = Ok claims ->
    exists i, i ∈ Sso.v_issuer v /\ i ∈ Sso.string_list (Sso.json_get claims (lit "iss"));
  decode_audience now raw key v claims : Sso.decode now raw key v = Ok claims -> Sso.v_aud v = true ->
    exists a, a ∈ Sso.v_audience v /\ a ∈ Sso.string_list (Sso.json_get claims (lit "aud"));
  decode_unexpired now raw key v claims : Sso.decode now raw key v = Ok claims -> Sso.v_exp v = true ->
    exists e, Sso.json_get claims (lit "exp") ≫= numeric_date = Some e /\ now - Sso.v_leeway v <= e }.

Section Accepted.

Context `{T : Sso.TokenLib}.

(** A key of the family the algorithm needs, not meant for anything but
    signatures and not for another algorithm. *)
Definition key_suits (jwk : Sso.Jwk) (alg : Sso.Algorithm) : Prop :=
  Sso.is_allowed_algorithm alg = true /\
  (Sso.parameters jwk = Sso.EllipticCurve <-> alg = Sso.ES256 \/ alg = Sso.ES384) /\
  Sso.parameters jwk <> Sso.OtherParameters /\
  Sso.public_key_use jwk <> Some Sso.OtherUse /\
  (forall stated, Sso.key_algorithm jwk = Some stated -> stated = Sso.alg_name alg).

Lemma check_key_suits_ok jwk alg : Sso.is_allowed_algorithm alg = true ->
  Sso.check_key_suits jwk alg = Ok tt <-> key_suits jwk alg.
Proof.
  intros Ha. unfold key_suits, Sso.check_key_suits.
  assert ((forall stated, Sso.key_algorithm jwk = Some stated -> stated = Sso.alg_name alg) <->
    match Sso.key_algorithm jwk with
    | Some stated => negb (bool_decide (stated = Sso.alg_name alg))
    | None => false
    end = false) as ->.
  { destruct (Sso.key_algorithm jwk) as [s|]; [|by split].
    rewrite negb_false_iff, bool_decide_eq_true. split; [by intros H; apply H | by intros -> ? [= ->]]. }
  destruct (match Sso.key_algorithm jwk with Some _ => _ | None => _ end);
    destruct (Sso.public_key_use jwk) as [[]|], (Sso.parameters jwk), alg; try discriminate Ha; cbn [negb];
    intuition congruence.
Qed.

(** The claims the verification itself looks at. *)
Definition claims_hold (claims : Json) (now : Z) (expected : Sso.Expected) (sub : text) : Prop :=
  (Sso.json_get claims (lit "sub") ≫= Sso.as_str = Some sub /\ sub <> [] /\
     byte_len sub <= Sso.MAX_SUBJECT_LEN) /\
  (exists iat, Sso.json_get claims (lit "iat") ≫= Sso.as_u64 = Some iat /\
     iat <= Sso.saturating_add_u64 now Sso.LEEWAY_SECS) /\
  (Sso.json_get claims (lit "azp") = Some (JString (Sso.exp_client_id expected)) \/
   (Sso.json_get claims (lit "azp") = None /\ Sso.several_audiences claims = false)) /\
  (Sso.json_get claims (lit "nonce") = Some (JString (Sso.exp_nonce expected)) /\
   Sso.exp_nonce expected <> []).

Lemma subject_of_ok claims sub : Sso.subject_of claims = Ok sub <->
  Sso.json_get claims (lit "sub") ≫= Sso.as_str = Some sub /\ sub <> [] /\ byte_len sub <= Sso.MAX_SUBJECT_LEN.
Proof.
  unfold Sso.subject_of. destruct (Sso.json_get claims (lit "sub") ≫= Sso.as_str) as [s|];
    [|split; [done | by intros [[=] _]]].
  destruct (bool_decide_reflect (s = [])) as [->|Hs]; cbn [negb andb];
    [split; [done | by intros ([= <-] & [] & _)]|].
  destruct (Z.leb_spec (byte_len s) Sso.MAX_SUBJECT_LEN) as [Hl|Hl]; split.
  - by intros [= <-].
  - by intros ([= <-] & _).
  - done.
  - intros ([= <-] & _ & ?). lia.
Qed.

Lemma check_iat_ok claims now : Sso.check_iat claims now = Ok tt <->
  exists iat, Sso.json_get claims (lit "iat") ≫= Sso.as_u64 = Some iat /\
    iat <= Sso.saturating_add_u64 now Sso.LEEWAY_SECS.
Proof.
  unfold Sso.check_iat. destruct (Sso.json_get claims (lit "iat") ≫= Sso.as_u64) as [i|];
    [|split; [done | by intros (? & [=] & _)]].
  destruct (Z.ltb_spec (Sso.saturating_add_u64 now Sso.LEEWAY_SECS) i) as [Hi|Hi];
    split; try done; [intros (? & [= <-] & ?); lia | by exists i].
Qed.

Lemma check_azp_ok claims client : Sso.check_azp claims client = Ok tt <->
  Sso.json_get claims (lit "azp") = Some (JString client) \/
  (Sso.json_get claims (lit "azp") = None /\ Sso.several_audiences claims = false).
Proof.
  unfold Sso.check_azp. destruct (Sso.json_get claims (lit "azp")) as [[]|];
    try (by split; [|intros [[=]|[[=] _]]]).
  - case_bool_decide as Hc; split; [by intros _; left; rewrite Hc | done | done |].
    intros [[= ?]|[[=] _]]. done.
  - destruct (Sso.several_audiences claims); split; [done | by intros [[=]|[_ [=]]] | by right | done].
Qed.

Lemma check_nonce_ok claims nonce : Sso.check_nonce claims nonce = Ok tt <->
  Sso.json_get claims (lit "nonce") = Some (JString nonce) /\ nonce <> [].
Proof.
  unfold Sso.check_nonce.
  destruct (Sso.json_get claims (lit "nonce")) as [[]|]; cbn [mbind option_bind Sso.as_str];
    try (by split; [|intros [[=] _]]).
  destruct (bool_decide_reflect (s = [])) as [->|Hs]; cbn [negb andb];
    [split; [done | by intros [[= <-] []]]|].
  case_bool_decide as Hc; split; [by rewrite Hc in Hs |- * | done | done | by intros [[= ?] _]].
Qed.

(** Exactly what an accepted token amounts to. *)
Lemma verify_ok now raw jwk alg expected c :
  Sso.verify now raw jwk alg expected = Ok c <->
  key_suits jwk alg /\
  exists key claims sub, Sso.from_material (Sso.parameters jwk) (Sso.key_material jwk) = Some key /\
    Sso.decode now raw key (Sso.validation alg expected) = Ok claims /\
    claims_hold claims now expected sub /\ c = Sso.id_claims claims sub (Sso.exp_groups_claim expected).
Proof.
  unfold Sso.verify, claims_hold. rewrite guard_Ok, negb_false_iff, rbind_Ok. split.
  - intros (Ha & [] & Hk%(check_key_suits_ok _ _ Ha) & Hr). split; [done|].
    destruct (Sso.from_material _ _) as [key|]; [|done].
    apply rbind_Ok in Hr as (claims & Hd%map_err_Ok & (sub & Hs%subject_of_ok & Hr)%rbind_Ok).
    apply rbind_Ok in Hr as ([] & Hi%check_iat_ok & ([] & Hz%check_azp_ok & Hr)%rbind_Ok).
    apply rbind_Ok in Hr as ([] & Hn%check_nonce_ok & [= <-]). by exists key, claims, sub.
  - intros (Hk & key & claims & sub & Hm & Hd & (Hs & Hi & Hz & Hn) & ->).
    pose proof Hk as [Ha _]. split; [done|]. exists tt. split; [by apply check_key_suits_ok|].
    rewrite Hm, Hd. cbn [map_err rbind]. rewrite (proj2 (subject_of_ok _ _) Hs). cbn [rbind].
    rewrite (proj2 (check_iat_ok _ _) Hi). cbn [rbind]. rewrite (proj2 (check_azp_ok _ _) Hz). cbn [rbind].
    by rewrite (proj2 (check_nonce_ok _ _) Hn).
Qed.

(** C21. An ID token is accepted only when its signature verifies, under the
    served key and with an asymmetric algorithm that key is meant for, over
    claims that name the configured issuer and this client as audience, have
    not expired or been issued in the future, carry exactly this round's nonce,
    name no other authorized party and a subject of bounded length; and the
    identity is read from those claims. *)
Theorem id_token_accepts `{S : !TokenLibSound} now raw jwk alg expected c :
  Sso.verify now raw jwk alg expected = Ok c ->
  key_suits jwk alg /\
  exists key claims, Sso.from_material (Sso.parameters jwk) (Sso.key_material jwk) = Some key /\
    signed_by key alg raw claims /\
    Sso.exp_issuer expected ∈ Sso.string_list (Sso.json_get claims (lit "iss")) /\
    Sso.exp_client_id expected ∈ Sso.string_list (Sso.json_get claims (lit "aud")) /\
    (exists e, Sso.json_get claims (lit "exp") ≫= numeric_date = Some e /\ now - Sso.LEEWAY_SECS <= e) /\
    claims_hold claims now expected (Sso.subject c) /\
    c = Sso.id_claims claims (Sso.subject c) (Sso.exp_groups_claim expected).
Proof.
  intros (Hk & key & claims & sub & Hm & Hd & Hc & ->)%verify_ok. split; [done|]. exists key, claims.
  destruct (decode_issuer _ _ _ _ _ Hd) as (i & Hi & Hiss).
  destruct (decode_audience _ _ _ _ _ Hd eq_refl) as (a & Ha & Haud).
  apply list_elem_of_singleton in Hi as ->. apply list_elem_of_singleton in Ha as ->.
  split; [done|]. split; [exact (decode_signed _ _ _ _ _ Hd)|]. split; [done|]. split; [done|].
  split; [exact (decode_unexpired _ _ _ _ _ Hd eq_refl) | done].
Qed.

End Accepted.

(** ** Examples: one token, under one key *)
Module OidcExamples.

Definition demo_raw : text := [1; 46; 9].

Definition demo_claims : Json :=
  JObject
    [ (lit "iss", JString (lit "https://idp.test")); (lit "aud", JString (lit "vsms"));
      (lit "sub", JString (lit "s1")); (lit "exp", JInt 2000000); (lit "iat", JInt 100);
      (lit "nonce", JString (lit "n1")); (lit "groups", JArray [JString (lit "ops")]);
      (lit "amr", JArray [JString (lit "otp")]) ].

Definition demo_documents (bytes : list Z) : option Json :=
  match bytes with
  | [1] => Some (JObject [(lit "alg", JString (lit "RS256"))])
  | [2] => Some (JObject [(lit "id_token", JString demo_raw)])
  | [3] => Some (JObject [(lit "keys", JArray [JString (lit "k1")])])
  | _ => None
  end.

Definition demo_decode (now : Z) (raw key : text) (v : Sso.Validation) : result Json Sso.ErrorKind :=
  if negb (bool_decide (raw = demo_raw) && bool_decide (key = lit "pk")) then Err Sso.InvalidSignature
  else if 2000000 <? now - Sso.v_leeway v then Err Sso.ExpiredSignature
  else if negb (bool_decide (lit "https://idp.test" ∈ Sso.v_issuer v)) then Err Sso.InvalidIssuer
  else if negb (bool_decide (lit "vsms" ∈ Sso.v_audience v)) then Err Sso.InvalidAudience
  else Ok demo_claims.

Definition demo_tokens : Sso.TokenLib := {|
  Sso.material := text;
  Sso.DecodingKey := text;
  Sso.base64url_decode t := Some t;
  Sso.json_from_slice := demo_documents;
  Sso.decode_header raw :=
    if bool_decide (raw = demo_raw) then Some (Sso.mkHeader Sso.RS256 (Some (lit "k1"))) else None;
  Sso.from_material _ m := Some m;
  Sso.decode := demo_decode |}.

#[local] Existing Instance demo_tokens.

Lemma demo_decode_ok now raw key v claims : demo_decode now raw key v = Ok claims ->
  raw = demo_raw /\ key = lit "pk" /\ now - Sso.v_leeway v <= 2000000 /\
  (lit "https://idp.test" ∈ Sso.v_issuer v) /\ (lit "vsms" ∈ Sso.v_audience v) /\ claims = demo_claims.
Proof.
  unfold demo_decode. rewrite !guard_Ok, !negb_false_iff, andb_true_iff, !bool_decide_eq_true, Z.ltb_ge.
  intros ([-> ->] & ? & ? & ? & [= <-]). by split_and!.
Qed.

Definition demo_tokens_sound : TokenLibSound.
Proof.
  refine {| signed_by key alg raw claims := raw = demo_raw /\ key = lit "pk" /\ claims = demo_claims;
            numeric_date := Sso.as_u64 |}.
  - by intros * (-> & -> & _ & _ & _ & ->)%demo_decode_ok.
  - intros * (-> & -> & _ & Hi & _ & ->)%demo_decode_ok. exists (lit "https://idp.test"). split; [done|].
    apply list_elem_of_singleton. reflexivity.
  - intros * (-> & -> & _ & _ & Ha & ->)%demo_decode_ok _. exists (lit "vsms"). split; [done|].
    apply list_elem_of_singleton. reflexivity.
  - intros * (-> & -> & He & _ & _ & ->)%demo_decode_ok _. exists 2000000. split; [reflexivity | done].
Defined.

Definition demo_jwk : Sso.Jwk :=
  Sso.mkJwk (Some (lit "k1")) (Some Sso.Signature) None Sso.RSA (lit "pk" : Sso.material).

Definition demo_expected : Sso.Expected :=
  Sso.mkExpected (lit "https://idp.test") (lit "vsms") (lit "n1") (lit "groups").

Lemma id_token_accepts_witness :
  Sso.verify 1000 demo_raw demo_jwk Sso.RS256 demo_expected =
    Ok (Sso.id_claims demo_claims (lit "s1") (lit "groups")) /\
  key_suits demo_jwk Sso.RS256.
Proof.
  assert (Sso.verify 1000 demo_raw demo_jwk Sso.RS256 demo_expected =
    Ok (Sso.id_claims demo_claims (lit "s1") (lit "groups"))) as Hv by (vm_compute; reflexivity).
  split; [exact Hv|].
  exact (proj1 (id_token_accepts (S := demo_tokens_sound) 1000 demo_raw demo_jwk Sso.RS256 demo_expected _ Hv)).
Defined.

End OidcExamples.
