(* ===== verification/SsoStore.v ===== *)
(** * Single sign-on: what is stored (sms-auth/src/sso/store.rs)

    The transactions a sign-in is kept in while the person is at the identity
    provider, the links of outside identities to users, and the creation of a
    user on the first sign-in.  Everything is a program over the database. *)

From S2P Require Import Prelude ProviderApi Schema ApiSchema Errors Db DbLogic DbReads DbRef Transactions.
From S2P Require Import Webhook Adapter AwsProvider OrangeProvider Rbac Keys Oidc.

Module SsoStore.

(** [Duration::minutes(5)]. *)
Definition TRANSACTION_TTL : Z := minutes 5.
Definition LINK_UNIQUE_CONSTRAINT : text := lit "federated_links_issuer_subject_key".
Definition USER_EMAIL_CONSTRAINT : text := lit "users_email_key".
Definition MAX_DISPLAY_NAME_CHARS : nat := 128.
Definition MAX_EMAIL_CHARS : Z := 254.
Definition EMAIL_SCAN_PAGE : Z := 500.
Definition EMAIL_SCAN_MAX_PAGES : nat := 100.

Record Transaction := mkTransaction {
  console_request : text;
  nonce : text;
  code_verifier : text;
  is_retry : bool }.

(** provider.rs: what one round at the identity provider is told and later
    proven with. *)
Record AuthnSecrets := mkSecrets {
  as_state : text;
  as_nonce : text;
  as_code_verifier : text;
  as_code_challenge : text }.

Record ResolvedUser := mkResolved {
  user_id : text;
  ru_email : text;
  display_name : text;
  provisioned : bool }.

(** ** Strings *)

(** [str::rsplit_once] on a character. *)
Definition rsplit_once (c : Z) (s : text) : option (text * text) :=
  match split_once (reverse s) [c] with
  | Some (after, before) => Some (reverse before, reverse after)
  | None => None
  end.

Definition ends_with (s p : text) : bool := starts_with (reverse s) (reverse p).

Definition display_name_for (claims : Sso.IdClaims) (email : text) : text :=
  let named :=
    match match Sso.name claims with Some n => Some n | None => Sso.preferred_username claims end with
    | Some raw => if bool_decide (trim raw = []) then None else Some (trim raw)
    | None => None
    end in
  let raw := match named with
             | Some raw => raw
             | None => default (lit "SSO user") (head (split_on 64 email))
             end in
  let clipped := take MAX_DISPLAY_NAME_CHARS raw in
  if bool_decide (clipped = []) then lit "SSO user" else clipped.

Definition is_reserved_domain (email : text) : bool :=
  match rsplit_once 64 email with
  | Some (_, domain) =>
      let domain := map AwsSms.to_ascii_lowercase (OrangeCm.trim_end_char 46 domain) in
      bool_decide (domain = lit "invalid") || ends_with domain (lit ".invalid")
  | None => false
  end.

Definition refuse_unusable_jit_role (role : text) : result unit Sso.SsoError :=
  if bool_decide (role ∈ RESERVED_ROLE_KEYS) || bool_decide (role ∈ DEVICE_ONLY_ROLES) then
    Err (Sso.Unavailable (lit "the configured just-in-time role is not allowed"))
  else Ok tt.

Definition plausible_email (email : text) : bool :=
  (byte_len email <=? MAX_EMAIL_CHARS) && negb (existsb is_whitespace email) &&
  match split_once email [64] with
  | Some (local, domain) => negb (bool_decide (local = [])) && str_contains domain (lit ".")
  | None => false
  end.

Section Store.

Context `{E : CratestackErrors} `{M : MacLib}.

(** [str::to_lowercase] of the standard library's Unicode tables. *)
Variable to_lowercase : text -> text.

Definition state_hash (state : text) : text := hex_encode (sha256 (as_bytes state)).

Definition internal (what : text) (_ : CratestackError) : Sso.SsoError :=
  Sso.Unavailable (what ++ lit " failed").

(** ** Transactions *)
Definition begin_transaction (secrets : AuthnSecrets) (console_request : text) (is_retry : bool)
  : prog (result unit Sso.SsoError) :=
  let! now := do Now in
  let!? _ := pmap_err (internal (lit "recording the SSO transaction"))
    (do (Create TSsoTxn (mkCreateSsoTxn (state_hash (as_state secrets)) (as_nonce secrets)
       (as_code_verifier secrets) console_request is_retry (now + TRANSACTION_TTL)))) in
  Ret (Ok tt).

Definition transaction_with (wanted : text) : query TSsoTxn :=
  mkQuery (t := TSsoTxn) (fun r => bool_decide (r.(SsoTransaction.stateHash) = wanted)) [] (Some 1).

Definition consume_transaction (state : text) : prog (result (option Transaction) Sso.SsoError) :=
  let wanted := state_hash state in
  let!? row := pmap_err (internal (lit "looking up the SSO transaction"))
    (first_row (transaction_with wanted)) in
  match row with
  | None => Ret (Ok None)
  | Some row =>
      if negb (bool_decide (row.(SsoTransaction.stateHash) = wanted)) then Ret (Ok None)
      else
        let! deleted := do (Delete TSsoTxn row.(SsoTransaction.id)) in
        match deleted with
        | Err _ => Ret (Ok None)
        | Ok _ =>
            let! now := do Now in
            if row.(SsoTransaction.expiresAt) <=? now then Ret (Ok None)
            else Ret (Ok (Some (mkTransaction row.(SsoTransaction.consoleRequest)
                   row.(SsoTransaction.nonce) row.(SsoTransaction.codeVerifier)
                   row.(SsoTransaction.isRetry))))
        end
  end.

Definition expired_transactions (now limit : Z) : query TSsoTxn :=
  mkQuery (t := TSsoTxn) (fun r => r.(SsoTransaction.expiresAt) <? now)
    [Asc (t := TSsoTxn) (fun r => KInt (Some r.(SsoTransaction.expiresAt)))] (Some limit).

Fixpoint reap_rows (rows : list SsoTransaction.t) (reaped : nat) : prog (result nat Sso.SsoError) :=
  match rows with
  | [] => Ret (Ok reaped)
  | row :: rest =>
      let! r := do (Delete TSsoTxn row.(SsoTransaction.id)) in
      reap_rows rest (if is_ok r then S reaped else reaped)
  end.

Definition reap_expired (now limit : Z) : prog (result nat Sso.SsoError) :=
  let!? expired := pmap_err (internal (lit "listing expired SSO transactions"))
    (do (FindMany TSsoTxn (expired_transactions now limit))) in
  reap_rows expired 0.

(** ** Users and links *)
Definition link_for (issuer subject : text) : query TFedLink :=
  mkQuery (t := TFedLink) (fun l => bool_decide (l.(FederatedLink.issuer) = issuer)
    && bool_decide (l.(FederatedLink.subject) = subject)) [] (Some 1).

Definition find_link (issuer subject : text) : prog (result (option FederatedLink.t) Sso.SsoError) :=
  pmap_err (internal (lit "looking up the federated link"))
    (first_row (link_for issuer subject)).

Definition find_active_user (user_id : text) : prog (result (option User.t) Sso.SsoError) :=
  pmap_err (internal (lit "looking up the user")) (first_row (ConsoleKeys.active_user user_id)).

Definition role_with (key : text) : query TRole :=
  mkQuery (t := TRole) (fun r => bool_decide (r.(Role.key) = key)) [] (Some 1).

Definition jit_role_exists (role : text) : prog (result bool Sso.SsoError) :=
  let!? rows := pmap_err (internal (lit "looking up the just-in-time role"))
    (do (FindMany TRole (role_with role))) in
  Ret (Ok (negb (bool_decide (length rows = O)))).

(** Neither a failed read nor a failed write stops the sign-in. *)
Definition stamp_last_login (user_id : text) : prog unit :=
  let! found := find_active_user user_id in
  match found with
  | Ok (Some row) =>
      let! now := do Now in
      let! _ := do (Update TUser row.(User.id) [User.SetLastLoginAt (Some now)] row.(User.version)) in
      Ret tt
  | Ok None | Err _ => Ret tt
  end.

Definition all_users : query TUser :=
  mkQuery (t := TUser) (fun _ => true) [Asc (t := TUser) (fun u => KText (row_id TUser u))]
    (Some EMAIL_SCAN_PAGE).

Fixpoint scan_emails (pages : nat) (page : Z) (wanted : text) : prog (result bool Sso.SsoError) :=
  match pages with
  | O => Ret (Err (Sso.Unavailable (lit "the user table is too large to check the e-mail")))
  | S pages' =>
      let!? users := pmap_err (internal (lit "scanning the users for the e-mail"))
        (do (FindPage TUser all_users (page * EMAIL_SCAN_PAGE))) in
      if existsb (fun u : User.t => bool_decide (to_lowercase u.(User.email) = wanted)) users
      then Ret (Ok true)
      else if Z.of_nat (length users) <? EMAIL_SCAN_PAGE then Ret (Ok false)
      else scan_emails pages' (page + 1) wanted
  end.

Definition email_held_locally (email : text) : prog (result bool Sso.SsoError) :=
  scan_emails EMAIL_SCAN_MAX_PAGES 0 (to_lowercase email).

(** Free, or [false] when the link has appeared meanwhile. *)
Definition email_is_free (config : Sso.SsoConfig) (claims : Sso.IdClaims) (email : text)
  : prog (result bool Sso.SsoError) :=
  let!? held := email_held_locally email in
  if negb held then Ret (Ok true)
  else
    let!? link := find_link (Sso.issuer config) (Sso.subject claims) in
    Ret (if is_null link then Err (Sso.Refused Sso.EmailInUse) else Ok false).

Definition provision_body (email display_name role_key issuer subject : text)
  : txn (result text CratestackError) :=
  lett? user := ConsoleKeys.create_own_subject email display_name role_key in
  lett? _ := tdo (TCreate TFedLink (mkCreateLink issuer subject user.(User.id))) in
  TRet (Ok user.(User.id)).

(** A lost race is answered with [None]: the caller looks again. *)
Definition provision_failed (config : Sso.SsoConfig) (claims : Sso.IdClaims) (error : CratestackError)
  : prog (result (option ResolvedUser) Sso.SsoError) :=
  let failed := Err (internal (lit "provisioning the SSO user") error) in
  if bool_decide (db_sqlstate error = Some UNIQUE_VIOLATION) then
    if bool_decide (db_constraint error = Some LINK_UNIQUE_CONSTRAINT) then Ret (Ok None)
    else if bool_decide (db_constraint error = Some USER_EMAIL_CONSTRAINT) then
      let!? link := find_link (Sso.issuer config) (Sso.subject claims) in
      Ret (if is_null link then Err (Sso.Refused Sso.EmailInUse) else Ok None)
    else Ret failed
  else match view error with
       | VValidation _ => Ret (Err (Sso.Refused Sso.EmailMissing))
       | _ => Ret failed
       end.

(** The address a new user gets: given, plausible, verified upstream, and not
    of the reserved domain. *)
Definition usable_email (claims : Sso.IdClaims) : result text Sso.SsoError :=
  match match Sso.email claims with
        | Some e => if plausible_email (trim e) then Some (trim e) else None
        | None => None
        end with
  | None => Err (Sso.Refused Sso.EmailMissing)
  | Some email =>
      if negb (bool_decide (Sso.email_verified claims = Some true)) then
        Err (Sso.Refused Sso.EmailUnverified)
      else if is_reserved_domain email then Err (Sso.Refused Sso.EmailReserved)
      else Ok email
  end.

Definition provision (config : Sso.SsoConfig) (claims : Sso.IdClaims)
  : prog (result (option ResolvedUser) Sso.SsoError) :=
  let!? _ := lift (refuse_unusable_jit_role (Sso.jit_role_key config)) in
  let!? email := lift (usable_email claims) in
  let!? free := email_is_free config claims email in
  if negb free then Ret (Ok None)
  else
    let display_name := display_name_for claims email in
    let! outcome := do (Tx (provision_body email display_name (Sso.jit_role_key config)
      (Sso.issuer config) (Sso.subject claims))) in
    match outcome with
    | Ok user_id => Ret (Ok (Some (mkResolved user_id email display_name true)))
    | Err error => provision_failed config claims error
    end.

Fixpoint resolve_attempts (attempts : nat) (config : Sso.SsoConfig) (claims : Sso.IdClaims)
  : prog (result ResolvedUser Sso.SsoError) :=
  match attempts with
  | O => Ret (Err (Sso.Unavailable (lit "the federated link kept appearing and disappearing")))
  | S attempts' =>
      let!? link := find_link (Sso.issuer config) (Sso.subject claims) in
      match link with
      | Some link =>
          let!? user := find_active_user link.(FederatedLink.userId) in
          Ret match user with
              | Some user => Ok (mkResolved user.(User.id) user.(User.email) user.(User.displayName) false)
              | None => Err (Sso.Refused Sso.UserInactive)
              end
      | None =>
          let!? resolved := provision config claims in
          match resolved with
          | Some resolved => Ret (Ok resolved)
          | None => resolve_attempts attempts' config claims
          end
      end
  end.

Definition resolve_user : Sso.SsoConfig -> Sso.IdClaims -> prog (result ResolvedUser Sso.SsoError) :=
  resolve_attempts 2.

End Store.

End SsoStore.

(** ** What a sign-in finds *)
Section Resolved.

Import SsoStore.

Context `{E : CratestackErrors} `{M : MacLib} (to_lowercase : text -> text).

(** The transaction a state was traded for: this handler read its row, stored
    under the state's hash, deleted it, and it had not expired. *)
Definition consumed (state : text) (t : Transaction) (tr : trace) : Prop :=
  exists row b now, known tr TSsoTxn row /\
    row.(SsoTransaction.stateHash) = hex_encode (sha256 (as_bytes state)) /\
    Ev (Delete TSsoTxn row.(SsoTransaction.id)) (Ok b) ∈ tr /\
    Ev Now now ∈ tr /\ now < row.(SsoTransaction.expiresAt) /\
    t = mkTransaction row.(SsoTransaction.consoleRequest) row.(SsoTransaction.nonce)
          row.(SsoTransaction.codeVerifier) row.(SsoTransaction.isRetry).

Lemma consume_transaction_wp state tr :
  wp (consume_transaction state) tr (fun r tr' => forall t, r = Ok (Some t) -> consumed state t tr').
Proof.
  unfold consume_transaction. apply wp_ok_bind, wp_pmap_err, wp_first_row; cbn [map_err wp]; [|done|done].
  intros row rows _ _ Hk. case_bool_decide as Hh; cbn [negb]; [|done].
  apply wp_any; [done|]. intros [b|e]; [|done]. apply wp_now. intros now.
  destruct (Z.leb_spec (SsoTransaction.expiresAt row) now) as [|Hlt]; cbn [wp]; [done|].
  intros t [= <-]. exists row, b, now.
  split_and!; try done; [by do 2 apply known_cons | right; by left | by left].
Qed.

(** The person an outside identity stands for. *)
Definition linked_to (config : Sso.SsoConfig) (claims : Sso.IdClaims) (u : ResolvedUser) (tr : trace) : Prop :=
  exists link user, known tr TFedLink link /\ link.(FederatedLink.issuer) = Sso.issuer config /\
    link.(FederatedLink.subject) = Sso.subject claims /\
    known tr TUser user /\ user.(User.active) = true /\ user.(User.id) = link.(FederatedLink.userId) /\
    u = mkResolved user.(User.id) user.(User.email) user.(User.displayName) false.

(** A person created on the first sign-in. *)
Definition newly_provisioned (config : Sso.SsoConfig) (claims : Sso.IdClaims) (u : ResolvedUser)
  (tr : trace) : Prop :=
  usable_email claims = Ok (ru_email u) /\ provisioned u = true /\
  (Sso.jit_role_key config ∉ RESERVED_ROLE_KEYS) /\ (Sso.jit_role_key config ∉ DEVICE_ONLY_ROLES) /\
  Ev (Tx (provision_body (ru_email u) (display_name u) (Sso.jit_role_key config) (Sso.issuer config)
     (Sso.subject claims))) (Ok (user_id u)) ∈ tr.

Definition resolved (config : Sso.SsoConfig) (claims : Sso.IdClaims) (u : ResolvedUser) (tr : trace) : Prop :=
  linked_to config claims u tr \/ newly_provisioned config claims u tr.

Lemma refuse_unusable_ok role : refuse_unusable_jit_role role = Ok tt ->
  (role ∉ RESERVED_ROLE_KEYS) /\ (role ∉ DEVICE_ONLY_ROLES).
Proof.
  unfold refuse_unusable_jit_role. rewrite guard_Ok, orb_false_iff, !bool_decide_eq_false. by intros [? _].
Qed.

Lemma twp_provision email name role issuer subject tr :
  twp (provision_body email name role issuer subject) tr (fun r _ => no_sm001 r).
Proof.
  apply twp_bind_ok. unfold ConsoleKeys.create_own_subject. apply twp_bind.
  split; [done|]. intros uuid _. cbn [twp]. apply twp_create_ok; [|done]. intros id now.
  match goal with |- context [created TUser id now ?c] => set (u := created TUser id now c) end.
  apply (twp_update_ok TUser u); [|by eexists| |done].
  - by eexists; split; [left | left].
  - intros b now' clock _ _. cbn [twp]. by apply twp_create_ok.
Qed.

Lemma wp_scan_emails pages page wanted tr : wp (scan_emails to_lowercase pages page wanted) tr (fun _ _ => True).
Proof.
  revert page tr. induction pages as [|pages IH]; intros page tr; cbn [scan_emails]; [done|].
  apply wp_ok_bind, wp_pmap_err, wp_do; [done|]. intros [users|e] _; [|done]. cbn [map_err wp].
  repeat case_match; [done | done | apply IH].
Qed.

Lemma wp_find_link issuer subject tr :
  wp (find_link issuer subject) tr (fun r tr' => forall link, r = Ok (Some link) ->
    known tr' TFedLink link /\ link.(FederatedLink.issuer) = issuer /\ link.(FederatedLink.subject) = subject).
Proof.
  apply wp_pmap_err, (wp_first_row (t := TFedLink)); [|done|done]. intros link rows Hq _ Hk. cbn in Hq. split_and_bool.
  by intros l [= <-].
Qed.

Lemma wp_find_active_user id tr :
  wp (find_active_user id) tr (fun r tr' => forall u, r = Ok (Some u) ->
    known tr' TUser u /\ u.(User.id) = id /\ u.(User.active) = true).
Proof.
  apply wp_pmap_err, (wp_first_row (t := TUser)); [|done|done]. intros u rows Hq _ Hk. cbn in Hq. split_and_bool.
  by intros l [= <-].
Qed.

Lemma wp_email_is_free config claims email tr :
  wp (email_is_free to_lowercase config claims email) tr (fun _ _ => True).
Proof.
  apply wp_ok_bind. eapply wp_mono; [|apply wp_scan_emails]. intros [[]|] tr' _; cbn [negb]; try done.
  apply wp_ok_bind. eapply wp_mono; [|apply wp_find_link]. by intros [].
Qed.

Lemma provision_wp config claims tr :
  wp (provision to_lowercase config claims) tr (fun r tr' => forall u, r = Ok (Some u) ->
    newly_provisioned config claims u tr').
Proof.
  unfold provision. apply wp_ok_bind. cbn [wp lift].
  destruct (refuse_unusable_jit_role (Sso.jit_role_key config)) as [[]|] eqn:Hrole; [|done].
  apply refuse_unusable_ok in Hrole as [Hr1 Hr2]. apply wp_ok_bind. cbn [wp lift].
  destruct (usable_email claims) as [email|] eqn:Hemail; [|done]. apply wp_ok_bind.
  eapply wp_mono; [|apply wp_email_is_free]. intros [[]|] tr' _; cbn [negb]; try done.
  apply wp_do; [apply twp_provision|]. intros [id|e] _; cbn [wp].
  - intros u [= <-]. split_and!; try done. by left.
  - unfold provision_failed. repeat case_match; cbn [wp]; try done.
    apply wp_ok_bind. eapply wp_mono; [|apply wp_find_link]. intros [link|] ? _; cbn [wp]; [|done].
    by destruct (is_null link).
Qed.

Lemma resolve_attempts_wp n config claims tr :
  wp (resolve_attempts to_lowercase n config claims) tr (fun r tr' => forall u, r = Ok u ->
    resolved config claims u tr').
Proof.
  revert tr. induction n as [|n IH]; intros tr; cbn [resolve_attempts]; [done|].
  apply wp_ok_bind. eapply wp_mono; [|apply wp_extends, wp_find_link].
  intros [[link|]|e] tr1 [Hl (l1 & ->)]; cbn beta iota in *; [| |done].
  - destruct (Hl link eq_refl) as (Hk & Hi & Hs). apply wp_ok_bind.
    eapply wp_mono; [|apply wp_extends, wp_find_active_user].
    intros [[user|]|e] tr2 [Hu (l2 & ->)]; cbn beta iota in *; cbn [wp]; [|done|done].
    destruct (Hu user eq_refl) as (Hku & Hid & Ha). intros u [= <-]. left. exists link, user.
    split_and!; try done. by apply known_app.
  - apply wp_ok_bind. eapply wp_mono; [|apply provision_wp].
    intros [[u|]|e] tr2 Hp; cbn beta iota in *; cbn [wp]; [|apply IH|done].
    intros u' [= <-]. right. by apply Hp.
Qed.

Lemma resolve_user_wp config claims tr :
  wp (resolve_user to_lowercase config claims) tr (fun r tr' => forall u, r = Ok u ->
    resolved config claims u tr').
Proof. apply resolve_attempts_wp. Qed.

Lemma begin_transaction_wp secrets request retry tr :
  wp (begin_transaction secrets request retry) tr (fun _ _ => True).
Proof.
  apply wp_now. intros now. apply wp_ok_bind, wp_pmap_err, wp_do; [done|]. by intros [].
Qed.

Lemma stamp_last_login_wp id tr : wp (stamp_last_login id) tr (fun _ _ => True).
Proof.
  apply wp_bind. eapply wp_mono; [|apply wp_find_active_user].
  intros [[u|]|] tr' Hu; cbn beta iota in *; [|done|done]. destruct (Hu u eq_refl) as (Hk & _).
  apply wp_now. intros now. apply (wp_update TUser u); [by apply known_cons | | |]; [by eexists|done|done].
Qed.

End Resolved.

(** ** What a provisioning leaves *)
Section Provisioned.

Import SsoStore.

Context `{E : CratestackErrors} `{B : !Backend}.

(** A new person: a fresh id, an address and an outside identity nobody had,
    and nothing else of the database touched. *)
Definition adds_person (email role issuer subject id : text) (w w' : world) : Prop :=
  (exists u, w_tables w' TUser = <[id := u]> (w_tables w TUser) /\ u.(User.id) = id /\
     Keys.provisioned u email role) /\
  w_tables w TUser !! id = None /\
  (forall id' u', w_tables w TUser !! id' = Some u' -> u'.(User.email) <> email) /\
  (exists l, w_tables w' TFedLink = <[l.(FederatedLink.id) := l]> (w_tables w TFedLink) /\
     w_tables w TFedLink !! l.(FederatedLink.id) = None /\ l.(FederatedLink.issuer) = issuer /\
     l.(FederatedLink.subject) = subject /\ l.(FederatedLink.userId) = id) /\
  (forall id' l', w_tables w TFedLink !! id' = Some l' ->
     l'.(FederatedLink.issuer) <> issuer \/ l'.(FederatedLink.subject) <> subject) /\
  (forall t, t <> TUser -> t <> TFedLink -> w_tables w' t = w_tables w t).

(** An insert of a transaction, with the index it respected. *)
Lemma txrun_create_unique t c w b w' :
  run_tx (tdo (TCreate t c)) w (Ok b) w' ->
  (exists id now, b = created t id now c /\ (id ∉ w_used w t) /\
     w_tables w' t = <[id := b]> (w_tables w t) /\
     (forall t', t' <> t -> w_tables w' t' = w_tables w t')) /\
  forall id x, w_tables w t !! id = Some x -> conflicts t x b = false.
Proof.
  intros Hr. split; [by apply txrun_create|]. intros id x Hx.
  apply txrun_do in Hr. by eapply exec_Create_unique.
Qed.

Lemma own_subject_email_free email name role w u w' :
  run_tx (ConsoleKeys.create_own_subject email name role) w (Ok u) w' ->
  forall id' u', w_tables w TUser !! id' = Some u' -> u'.(User.email) <> email.
Proof.
  intros (uuid & w0 & Hu%txrun_do & Hr)%txrun_bind id' u' Hs Hem. apply exec_NewUuid in Hu as ->.
  apply txrun_bind_Ok in Hr as (a & w1 & Hc & _).
  apply txrun_create_unique in Hc as [(id & now & -> & _) Hu]. specialize (Hu _ _ Hs).
  cbn [conflicts created User.email User.subject] in Hu. apply orb_false_iff in Hu as [_ Hu].
  by apply bool_decide_eq_false in Hu.
Qed.

Lemma unused_not_stored t id w : rows_ok w -> (id ∉ w_used w t) -> w_tables w t !! id = None.
Proof.
  intros Hok Hu. destruct (w_tables w t !! id) as [r|] eqn:Hr; [|done]. by destruct (Hok _ _ _ Hr).
Qed.

Lemma jit_provision_run email name role issuer subject w id w' :
  rows_ok w -> run_tx (provision_body email name role issuer subject) w (Ok id) w' ->
  adds_person email role issuer subject id w w'.
Proof.
  intros Hok (u & w1 & Hu & Hr)%txrun_bind_Ok.
  apply txrun_bind_Ok in Hr as (l & w2 & Hl & [[= ->] ->]%txrun_inv).
  pose proof (own_subject_email_free _ _ _ _ _ _ Hu) as Hfree.
  pose proof (txrun_rows _ _ _ _ Hok Hu) as Hok1.
  apply own_subject_run in Hu as (u' & Ht & Hf & Hid & Hp & Hfr); [|done].
  apply txrun_create_unique in Hl as [(lid & now & -> & Hlf & Htl & Hfl) Hlu].
  assert (w_tables w1 TFedLink = w_tables w TFedLink) as Hsame by (by apply Hfr).
  unfold adds_person. refine (conj _ (conj _ (conj _ (conj _ (conj _ _))))).
  - exists u'. split; [by rewrite Hfl | done].
  - by apply unused_not_stored.
  - exact Hfree.
  - exists (created TFedLink lid now (mkCreateLink issuer subject u.(User.id))). cbn [created FederatedLink.id].
    split; [by rewrite Htl, Hsame|]. split; [|done].
    rewrite <- Hsame. by apply unused_not_stored.
  - intros id' l' Hl'. rewrite <- Hsame in Hl'. specialize (Hlu _ _ Hl'). cbn in Hlu.
    apply andb_false_iff in Hlu. rewrite !bool_decide_eq_false in Hlu. tauto.
  - intros t Hu Hlk. by rewrite Hfl, Hfr.
Qed.

(** A transaction that answers with an id has added that person. *)
Lemma provision_committed email name role issuer subject w id w' :
  rows_ok w -> exec _ (Tx (provision_body email name role issuer subject)) w (Ok id) w' ->
  adds_person email role issuer subject id w w'.
Proof.
  intros Hok [(a & Hr & Ha)|[[=] _]]%tx_outcome. rewrite (Ha id eq_refl). by eapply jit_provision_run.
Qed.

(** ** The scan for an address

    A run during which nobody writes. *)
Inductive undisturbed (w : world) {A} : prog A -> A -> Prop :=
| undisturbed_ret a : undisturbed w (Ret a) a
| undisturbed_call R (c : call R) k r a :
    exec R c w r w -> undisturbed w (k r) a -> undisturbed w (Call c k) a.

Lemma untouched_inv w {A} (p : prog A) a : undisturbed w p a ->
  match p with
  | Ret b => a = b
  | Panic => False
  | Call c k => exists r, exec _ c w r w /\ undisturbed w (k r) a
  end.
Proof. destruct 1; [done|]. by exists r. Qed.

Variable to_lowercase : text -> text.

Definition holds_email (w : world) (wanted : text) : Prop :=
  exists u, w_tables w TUser !! u.(User.id) = Some u /\ to_lowercase u.(User.email) = wanted.

Lemma scan_page w pages page wanted r : 0 <= page ->
  undisturbed w (scan_emails to_lowercase (S pages) page wanted) r ->
  (exists what, r = Err (Sso.Unavailable what)) \/
  (let rest := drop (Z.to_nat (page * EMAIL_SCAN_PAGE)) (listing w TUser all_users) in
   let users := take (Z.to_nat EMAIL_SCAN_PAGE) rest in
   (exists u, u ∈ users /\ to_lowercase u.(User.email) = wanted) /\ r = Ok true \/
   (forall u, u ∈ users -> to_lowercase u.(User.email) <> wanted) /\
     (length rest < Z.to_nat EMAIL_SCAN_PAGE)%nat /\ r = Ok false \/
   (forall u, u ∈ users -> to_lowercase u.(User.email) <> wanted) /\
     (Z.to_nat EMAIL_SCAN_PAGE <= length rest)%nat /\
     undisturbed w (scan_emails to_lowercase pages (page + 1) wanted) r).
Proof.
  intros Hpage (reply & Hx & Hr)%untouched_inv. cbn [pbind] in Hr.
  destruct reply as [users|e]; cbn [map_err] in Hr;
    [|apply untouched_inv in Hr as ->; left; by eexists].
  apply exec_FindPage in Hx as [_ Hx]. specialize (Hx users eq_refl eq_refl). cbn [q_limit all_users] in Hx.
  right. cbv zeta. rewrite <- Hx.
  set (rest := drop _ _) in *.
  destruct (existsb (fun u : User.t => bool_decide (to_lowercase u.(User.email) = wanted)) users) eqn:Hex.
  - apply existsb_exists in Hex as (u & Hu & Hw). apply bool_decide_eq_true in Hw.
    apply untouched_inv in Hr. left. split; [|done]. exists u. by rewrite list_elem_of_In.
  - assert (forall u, u ∈ users -> to_lowercase u.(User.email) <> wanted) as Hno.
    { intros u Hu Hw. apply not_true_iff_false in Hex. apply Hex, existsb_exists. exists u.
      by rewrite bool_decide_eq_true, <- list_elem_of_In. }
    right. assert (length users = Nat.min (Z.to_nat EMAIL_SCAN_PAGE) (length rest)) as Hlen
      by (rewrite Hx; apply length_take).
    destruct (Z.ltb_spec (Z.of_nat (length users)) EMAIL_SCAN_PAGE) as [Hlt|Hge].
    + left. apply untouched_inv in Hr. split; [done|]. split; [|done]. unfold EMAIL_SCAN_PAGE in *. lia.
    + right. split; [done|]. split; [|done]. unfold EMAIL_SCAN_PAGE in *. lia.
Qed.

Lemma scan_spec w pages page wanted r : 0 <= page ->
  undisturbed w (scan_emails to_lowercase pages page wanted) r ->
  (exists what, r = Err (Sso.Unavailable what)) \/
  exists found, r = Ok found /\
    (found = true <-> exists u, u ∈ drop (Z.to_nat (page * EMAIL_SCAN_PAGE)) (listing w TUser all_users) /\
       to_lowercase u.(User.email) = wanted).
Proof.
  revert page. induction pages as [|pages IH]; intros page Hpage Hr.
  { apply untouched_inv in Hr as ->. left. by eexists. }
  destruct (scan_page _ _ _ _ _ Hpage Hr) as [?|Hcases]; [by left|]. cbv zeta in Hcases.
  set (rest := drop _ _) in *.
  assert (rest = take (Z.to_nat EMAIL_SCAN_PAGE) rest ++ drop (Z.to_nat EMAIL_SCAN_PAGE) rest) as Hsplit
    by (symmetry; apply take_drop).
  destruct Hcases as [[(u & Hu & Hw) ->]|[(Hno & Hlen & ->)|(Hno & Hlen & Hnext)]].
  - right. exists true. split; [done|]. split; [|done]. intros _. exists u. split; [|done].
    rewrite Hsplit. set_solver.
  - right. exists false. split; [done|]. split; [done|]. intros (u & Hu & Hw).
    rewrite Hsplit, (drop_ge rest), app_nil_r in Hu by lia. by apply Hno in Hu.
  - apply IH in Hnext as [?|(found & -> & Hf)]; [by left | | lia]. right. exists found. split; [done|].
    rewrite Hf. replace (drop (Z.to_nat ((page + 1) * EMAIL_SCAN_PAGE)) (listing w TUser all_users))
      with (drop (Z.to_nat EMAIL_SCAN_PAGE) rest).
    2: { unfold rest. rewrite drop_drop. f_equal. unfold EMAIL_SCAN_PAGE. lia. }
    split; intros (u & Hu & Hw); exists u; (split; [|done]); [rewrite Hsplit; set_solver|].
    rewrite Hsplit in Hu. apply elem_of_app in Hu as [Hu|Hu]; [|done]. by apply Hno in Hu.
Qed.

(** Undisturbed, the scan finds an address in any spelling, exactly when some
    user has it; otherwise it fails. *)
Lemma email_held_exact w email r : rows_ok w ->
  undisturbed w (email_held_locally to_lowercase email) r ->
  (exists what, r = Err (Sso.Unavailable what)) \/
  exists found, r = Ok found /\ (found = true <-> holds_email w (to_lowercase email)).
Proof.
  intros Hok Hr. apply scan_spec in Hr as [?|(found & -> & Hf)]; [by left | | lia]. right.
  exists found. split; [done|]. rewrite Hf. cbn [Z.mul Z.to_nat drop]. unfold holds_email.
  split; intros (u & Hu & Hw); exists u; (split; [|done]).
  - by apply listing_rows in Hu as (? & _ & _).
  - by apply listing_rows.
Qed.

End Provisioned.
