(* ===== verification/Door.v ===== *)
(** * Handlers that sign people in

    The login and the single sign-on of the gateway await the database, HTTP
    exchanges with the identity provider, the fields of the broker behind their
    locks, the rate limiter, the blocking pool (a password is hashed there) and
    the authorization endpoint of the OpenID provider library, which issues
    the codes.  A [door] is the tree of what such a handler awaits; the
    programs over the database are embedded in it ([embed]).

    [dwp] quantifies over every reply, over everything other writers do to the
    database and over the critical sections of other tasks; [door_sound]
    carries it to any number of handlers running side by side. *)

From S2P Require Import Prelude Schema ApiSchema Errors Sql Db DbLogic DbReads DbRef.
From S2P Require Import Adapter TokenDoor.

(** ** What is awaited *)

(** The rate limiter's configuration of one bucket, an identity and the answer
    of the authorization endpoint (cratestack, authkestra). *)
Record RateLimitConfig := mkRateLimit { rl_burst : Z; rl_refill_per_second : Float64.f64 }.

Record Identity := mkIdentity {
  provider_id : text;
  external_id : text;
  id_email : option text;
  id_username : option text }.

Inductive AuthorizeOutcome := RedirectTo (location : text) | DirectError (error : text).

(** Which store of codes the endpoint runs on: the provider's, or one thrown
    away. *)
Inductive CodeStore := ServedStore | DryStore.

(** authkestra's request type, read from JSON. *)
Class OpLib := {
  AuthorizeRequest : Type;
  authorize_request_of : Json -> option AuthorizeRequest }.

Section Doors.

Context `{E : CratestackErrors} `{O : OpLib} {F : Type}.

(** A critical section may have to wait: [None]. *)
Inductive dcall : Type -> Type :=
| OnDb {R : Type} (c : call R) : dcall R
| Fetch (c : HttpCall) : dcall (result Response TransportError)
| Critical {B : Type} (section : Z -> F -> option (B * F)) : dcall B
| Consume (key : text) (config : RateLimitConfig) : dcall (result RateLimitDecision text)
| Blocking {B : Type} (b : B) : dcall (option B)
| Authorize (store : CodeStore) (request : AuthorizeRequest) (identity : Identity) : dcall AuthorizeOutcome.

Inductive door (A : Type) : Type :=
| DRet (a : A)
| DPanic
| DCall {R : Type} (c : dcall R) (k : R -> door A).
Arguments DRet {A} a.
Arguments DPanic {A}.
Arguments DCall {A R} c k.

Fixpoint dbind {A B} (p : door A) (f : A -> door B) : door B :=
  match p with
  | DRet a => f a
  | DPanic => DPanic
  | DCall c k => DCall c (fun r => dbind (k r) f)
  end.

Definition dbind_ok {A B X} (p : door (result A X)) (f : A -> door (result B X)) : door (result B X) :=
  dbind p (fun r => match r with Ok a => f a | Err e => DRet (Err e) end).

Definition dmap_err {A X Y} (f : X -> Y) (p : door (result A X)) : door (result A Y) :=
  dbind p (fun r => DRet (map_err f r)).

Definition ask {R} (c : dcall R) : door R := DCall c DRet.

(** A program over the database. *)
Fixpoint embed {A} (p : prog A) : door A :=
  match p with
  | Ret a => DRet a
  | Panic => DPanic
  | Call c k => DCall (OnDb c) (fun r => embed (k r))
  end.

Inductive devent :=
| DEv {R : Type} (c : dcall R) (r : R).
Abbreviation dtrace := (list devent).

(** The calls on the database among a handler's events. *)
Definition db_event (e : devent) : option event :=
  match e with
  | DEv c r =>
      match c in dcall R return R -> option event with
      | OnDb c => fun r => Some (Ev c r)
      | _ => fun _ => None
      end r
  end.

Definition db_trace (tr : dtrace) : trace := omap db_event tr.

Definition of_event (e : event) : devent := match e with Ev c r => DEv (OnDb c) r end.

(** ** Weakest preconditions *)
Section Wp.

Variable I : list exchange -> Z -> F -> Prop.

(** When a handler may ask the endpoint for a code. *)
Variable G : CodeStore -> AuthorizeRequest -> Identity -> dtrace -> list exchange -> Prop.

Definition dreply {R} (tr : dtrace) (log : list exchange) (c : dcall R)
  : (list exchange -> R -> Prop) -> Prop :=
  match c in dcall R return (list exchange -> R -> Prop) -> Prop with
  | OnDb c => fun K => call_ok (db_trace tr) c /\ forall r, reply_ok (db_trace tr) c r -> K log r
  | Fetch q => fun K => forall r, K ((q, r) :: log) r
  | Critical s => fun K => forall now st, I log now st ->
      match s now st with
      | Some (b, st') => I log now st' /\ K log b
      | None => True
      end
  | Blocking b => fun K => K log None /\ K log (Some b)
  | Consume _ _ => fun K => forall r, K log r
  | Authorize store request identity => fun K =>
      G store request identity tr log /\ forall r, K log r
  end.

Fixpoint dwp {A} (p : door A) (tr : dtrace) (log : list exchange)
  (Q : A -> dtrace -> list exchange -> Prop) : Prop :=
  match p with
  | DRet a => forall log', log ⊆ log' -> Q a tr log'
  | DPanic => False
  | DCall c k => forall log', log ⊆ log' ->
      dreply tr log' c (fun log'' r => dwp (k r) (DEv c r :: tr) log'' Q)
  end.

Lemma dreply_mono {R} tr log (c : dcall R) (K K' : list exchange -> R -> Prop) :
  (forall l r, log ⊆ l -> K l r -> K' l r) -> dreply tr log c K -> dreply tr log c K'.
Proof.
  intros HK. destruct c; cbn.
  - intros [Hc Hr]. split; [done|]. intros r Hrep. apply HK; [done | by apply Hr].
  - intros H r. apply HK; [set_solver | done].
  - intros H now st Hi. specialize (H now st Hi). destruct (section now st) as [[b st']|]; [|done].
    split; [apply H|]. by apply HK, H.
  - intros H r. by apply HK.
  - intros [H1 H2]. split; by apply HK.
  - intros [HG H]. split; [done|]. intros r. by apply HK.
Qed.

Lemma dwp_later {A} (p : door A) tr log log' Q : log ⊆ log' -> dwp p tr log Q -> dwp p tr log' Q.
Proof. intros Hl. destruct p; cbn; [| done |]; intros H l Hl'; apply H; by etrans. Qed.

Lemma dwp_mono {A} (p : door A) tr log (Q Q' : A -> dtrace -> list exchange -> Prop) :
  (forall a tr' l, log ⊆ l -> Q a tr' l -> Q' a tr' l) -> dwp p tr log Q -> dwp p tr log Q'.
Proof.
  revert tr log. induction p as [a| |R c k IH]; intros tr log HQ; cbn; [| done |]; intros H l Hl;
    [by apply HQ, H|].
  eapply dreply_mono; [|by apply H]. intros l' r Hl'. apply IH. intros a tr' l'' Hl''. apply HQ.
  by do 2 (etrans; [eassumption|]).
Qed.

Lemma dwp_bind {A B} (p : door A) (f : A -> door B) tr log Q :
  dwp p tr log (fun a tr' log' => dwp (f a) tr' log' Q) -> dwp (dbind p f) tr log Q.
Proof.
  revert tr log. induction p as [a| |R c k IH]; intros tr log; cbn [dbind dwp].
  - intros H. by apply H.
  - done.
  - intros H l Hl. eapply dreply_mono; [|by apply H]. intros l' r _. apply IH.
Qed.

Lemma dwp_bind_ok {A B X} (p : door (result A X)) (f : A -> door (result B X)) tr log Q :
  dwp p tr log (fun r tr' log' =>
    match r with
    | Ok a => dwp (f a) tr' log' Q
    | Err e => forall l, log' ⊆ l -> Q (Err e) tr' l
    end) ->
  dwp (dbind_ok p f) tr log Q.
Proof.
  intros H. apply dwp_bind. eapply dwp_mono; [|exact H]. by intros [a|e] tr' l _.
Qed.

Lemma dwp_map_err {A X Y} (g : X -> Y) (p : door (result A X)) tr log Q :
  dwp p tr log (fun r tr' log' => Q (map_err g r) tr' log') -> dwp (dmap_err g p) tr log Q.
Proof.
  intros H. apply dwp_bind. revert H. revert tr log.
  induction p as [a| |R c k IH]; intros tr log; cbn [dwp].
  - intros H l Hl l' Hl'. apply H. by etrans.
  - done.
  - intros H l Hl. eapply dreply_mono; [|by apply H]. intros l' r _. apply IH.
Qed.

Lemma db_trace_of_events l tr : db_trace ((of_event <$> l) ++ tr) = l ++ db_trace tr.
Proof. induction l as [|[R c r] l IH]; cbn; [done|]. unfold db_trace in IH. by rewrite IH. Qed.

(** What a program over the database guarantees, it guarantees in a handler. *)
Lemma dwp_embed {A} (p : prog A) tr log Q :
  wp p (db_trace tr) (fun a tr' => forall l log', tr' = l ++ db_trace tr -> log ⊆ log' ->
    Q a ((of_event <$> l) ++ tr) log') ->
  dwp (embed p) tr log Q.
Proof.
  revert tr log Q. induction p as [a| |R c k IH]; intros tr log Q; cbn [embed wp dwp].
  - intros H l Hl. by apply (H []).
  - done.
  - intros [Hc Hk] l Hl. cbn [dreply]. split; [done|]. intros r Hr. apply IH. cbn [db_trace omap].
    eapply wp_mono; [|by apply Hk]. intros a tr' HQ l' log' -> Hlog.
    replace ((of_event <$> l') ++ DEv (OnDb c) r :: tr) with ((of_event <$> (l' ++ [Ev c r])) ++ tr).
    + apply HQ; [|by etrans]. cbn. by rewrite <- (assoc_L (++)).
    + rewrite fmap_app, <- (assoc_L (++)). done.
Qed.

Lemma dwp_reads {A} (p : prog A) tr log (P : A -> trace -> Prop) :
  wp p (db_trace tr) P ->
  dwp (embed p) tr log (fun a tr' _ => P a (db_trace tr') /\ exists l, tr' = (of_event <$> l) ++ tr).
Proof.
  intros H. apply dwp_embed. eapply wp_mono; [|exact H]. intros a tr' HP l log' -> _.
  rewrite db_trace_of_events. split; [done|]. by exists l.
Qed.

End Wp.

(** ** What it has asked for

    Every code a handler has asked for, it was allowed to ask for. *)
Section Granted.

Variable G : CodeStore -> AuthorizeRequest -> Identity -> dtrace -> list exchange -> Prop.

Definition granted_event (e : devent) (before : dtrace) (log : list exchange) : Prop :=
  match e with
  | DEv (Authorize store request identity) _ => G store request identity before log
  | _ => True
  end.

Fixpoint granted (tr : dtrace) (log : list exchange) : Prop :=
  match tr with
  | [] => True
  | e :: before => granted_event e before log /\ granted before log
  end.

Lemma granted_mono tr log log' :
  (forall store request identity tr log log',
     G store request identity tr log -> log ⊆ log' -> G store request identity tr log') ->
  granted tr log -> log ⊆ log' -> granted tr log'.
Proof.
  intros G_mono H Hl. induction tr as [|[R c r] tr IH]; [done|]. destruct H as [He Ht].
  split; [|by apply IH]. destruct c; try done. by eapply G_mono.
Qed.

Lemma granted_at after store request identity r before log :
  granted (after ++ DEv (Authorize store request identity) r :: before) log ->
  G store request identity before log.
Proof. induction after as [|e after IH]; [by intros [? _] | by intros [_ ?]; apply IH]. Qed.

End Granted.

(** ** Which calls a handler makes *)
Fixpoint dkeeps (P : forall R, dcall R -> Prop) {A} (p : door A) : Prop :=
  match p with
  | DRet _ | DPanic => True
  | DCall c k => P _ c /\ forall r, dkeeps P (k r)
  end.

Definition event_keeps (P : forall R, dcall R -> Prop) (e : devent) : Prop :=
  match e with DEv c _ => P _ c end.

Lemma dkeeps_bind P {A C} (p : door A) (f : A -> door C) :
  dkeeps P p -> (forall a, dkeeps P (f a)) -> dkeeps P (dbind p f).
Proof.
  intros Hp Hf. induction p as [a| |R c k IH]; cbn in *; [apply Hf | done |].
  destruct Hp as [Hc Hk]. split; [done|]. intros r. by apply IH.
Qed.

Lemma dkeeps_bind_ok P {A C X} (p : door (result A X)) (f : A -> door (result C X)) :
  dkeeps P p -> (forall a, dkeeps P (f a)) -> dkeeps P (dbind_ok p f).
Proof. intros Hp Hf. apply dkeeps_bind; [done|]. by intros []. Qed.

Lemma dkeeps_embed (P : forall R, dcall R -> Prop) {A} (p : prog A) :
  (forall R (c : call R), P R (OnDb c)) -> dkeeps P (embed p).
Proof. intros HP. induction p; cbn; [done | done | by split]. Qed.

(** The events a handler adds, and that the trace only grows. *)
Lemma dwp_keeps I G P {A} (p : door A) tr log Q :
  dkeeps P p -> dwp I G p tr log Q ->
  dwp I G p tr log (fun a tr' l => Q a tr' l /\ exists l0, tr' = l0 ++ tr /\ Forall (event_keeps P) l0).
Proof.
  revert tr log Q. induction p as [a| |R c k IH]; intros tr log Q; cbn [dkeeps dwp].
  - intros _ H l Hl. split; [by apply H|]. by exists [].
  - done.
  - intros [Hc Hk] H l Hl. eapply dreply_mono; [|by apply H]. intros l' r Hl' Hw.
    eapply dwp_mono; [|exact (IH r _ _ _ (Hk r) Hw)]. cbn beta.
    intros a tr' l'' _ [HQ (l0 & -> & Hf)]. split; [done|]. exists (l0 ++ [DEv c r]).
    rewrite <- (assoc_L (++)). split; [done|]. apply Forall_app. by split; [|constructor].
Qed.

(** A part that may never ask for a code adds no such event. *)
Definition quiet (e : devent) : Prop := match e with DEv (Authorize _ _ _) _ => False | _ => True end.

Lemma dwp_quiet I G {A} (p : door A) tr log Q :
  dwp I (fun _ _ _ _ _ => False) p tr log Q ->
  dwp I G p tr log (fun a tr' l => Q a tr' l /\ exists l0, tr' = l0 ++ tr /\ Forall quiet l0).
Proof.
  revert tr log Q. induction p as [a| |R c k IH]; intros tr log Q; cbn [dwp].
  - intros H l Hl. split; [by apply H|]. by exists [].
  - done.
  - intros H l Hl. specialize (H l Hl).
    assert (forall l r, quiet (DEv c r) -> dwp I (fun _ _ _ _ _ => False) (k r) (DEv c r :: tr) l Q ->
      dwp I G (k r) (DEv c r :: tr) l (fun a tr' l => Q a tr' l /\
        exists l0, tr' = l0 ++ tr /\ Forall quiet l0)) as Hk.
    { intros l' r Hq Hw. eapply dwp_mono; [|exact (IH r _ _ _ Hw)]. cbn beta.
      intros a tr' l'' _ [HQ (l0 & -> & Hf)]. split; [done|]. exists (l0 ++ [DEv c r]).
      rewrite <- (assoc_L (++)). split; [done|]. apply Forall_app. by split; [|constructor]. }
    destruct c; cbn [dreply] in *.
    + destruct H as [Hc Hr]. split; [done|]. intros r Hrep. by apply Hk, Hr.
    + intros r. by apply Hk.
    + intros now st Hi. specialize (H now st Hi). destruct (section now st) as [[b st']|]; [|done].
      split; [apply H|]. by apply Hk, H.
    + intros r. by apply Hk.
    + split; by apply Hk, H.
    + by destruct H.
Qed.

(** ** Handlers side by side *)
Context `{B : !Backend}.

Record dstate := mkDState {
  d_world : world;
  d_clock : Z;
  d_fields : F;
  d_log : list exchange }.

(** What one call does; the reply of a library is arbitrary. *)
Definition dexec {R} (c : dcall R) (s : dstate) : R -> dstate -> Prop :=
  match c in dcall R return R -> dstate -> Prop with
  | OnDb c => fun r s' => exists w', exec _ c (d_world s) r w' /\
      s' = mkDState w' (d_clock s) (d_fields s) (d_log s)
  | Fetch q => fun r s' => s' = mkDState (d_world s) (d_clock s) (d_fields s) ((q, r) :: d_log s)
  | Critical section => fun b s' => exists st', section (d_clock s) (d_fields s) = Some (b, st') /\
      s' = mkDState (d_world s) (d_clock s) st' (d_log s)
  | Blocking b => fun r s' => (r = None \/ r = Some b) /\ s' = s
  | Consume _ _ | Authorize _ _ _ => fun _ s' => s' = s
  end.

Definition dpool (A : Type) : Type := (list (door A * dtrace) * dstate)%type.

(** What happens to the fields when a handler is dropped in the middle (its
    client went away): it gives back the locks it held across an [await]. *)
Variable drops : F -> F -> Prop.

Inductive dpool_step {A} : dpool A -> dpool A -> Prop :=
| dpool_drop ps w now st log st' : drops st st' ->
    dpool_step (ps, mkDState w now st log) (ps, mkDState w now st' log)
| dpool_env ps w now st log w' : evolves w w' -> world_ok w' ->
    dpool_step (ps, mkDState w now st log) (ps, mkDState w' now st log)
| dpool_wait ps w now st log now' : now <= now' ->
    dpool_step (ps, mkDState w now st log) (ps, mkDState w now' st log)
| dpool_call ps i R (c : dcall R) k tr s r s' :
    ps !! i = Some (DCall c k, tr) -> dexec c s r s' ->
    dpool_step (ps, s) (<[i := (k r, DEv c r :: tr)]> ps, s').

Section Sound.

Context {A : Type} (I : list exchange -> Z -> F -> Prop).
Hypothesis I_mono : forall log now st log' now',
  I log now st -> log ⊆ log' -> now <= now' -> I log' now' st.
Hypothesis I_drops : forall log now st st', I log now st -> drops st st' -> I log now st'.
Variable G : nat -> CodeStore -> AuthorizeRequest -> Identity -> dtrace -> list exchange -> Prop.
Hypothesis G_mono : forall i store request identity tr log log',
  G i store request identity tr log -> log ⊆ log' -> G i store request identity tr log'.
Variable Q : nat -> A -> dtrace -> list exchange -> Prop.

Definition dsafe (x : dpool A) : Prop :=
  let s := x.2 in
  world_ok (d_world s) /\ I (d_log s) (d_clock s) (d_fields s) /\
  forall i p tr, x.1 !! i = Some (p, tr) ->
    valid (db_trace tr) (d_world s) /\ granted (G i) tr (d_log s) /\ dwp I (G i) p tr (d_log s) (Q i).

Ltac seven := refine (conj _ (conj _ (conj _ (conj _ (conj _ (conj _ _)))))).

(** One call of a handler that is safe. *)
Lemma dexec_safe g R (c : dcall R) (s s' : dstate) r tr K :
  dexec c s r s' -> world_ok (d_world s) -> I (d_log s) (d_clock s) (d_fields s) ->
  valid (db_trace tr) (d_world s) -> dreply I g tr (d_log s) c K ->
  world_ok (d_world s') /\ evolves (d_world s) (d_world s') /\ d_log s ⊆ d_log s' /\
  I (d_log s') (d_clock s') (d_fields s') /\ valid (db_trace (DEv c r :: tr)) (d_world s') /\
  granted_event g (DEv c r) tr (d_log s') /\ K (d_log s') r.
Proof.
  intros Hx Hok Hi Hv HK. pose proof (evolves_refl (d_world s)) as Href.
  destruct c; cbn [dexec dreply] in Hx, HK.
  - destruct Hx as (w' & Hx & ->), HK as [Hc Hr]. cbn [d_world d_log d_clock d_fields].
    destruct (exec_evolves _ _ _ _ _ (call_ok_cache _ _ Hc) Hok Hx) as [Hev Hok'].
    seven; try done; [change (valid (Ev c r :: db_trace tr) w'); by apply (valid_cons _ c (db_trace tr) (d_world s) r w' (call_ok_cache _ _ Hc))|]. apply Hr. by apply (exec_reply_ok _ c _ (d_world s) r w').
  - subst s'. seven; try done; cbn [d_log]; [set_solver | | apply HK].
    eapply I_mono; [exact Hi | set_solver | cbn; lia].
  - destruct Hx as (st' & Hs & ->). specialize (HK _ _ Hi). rewrite Hs in HK. destruct HK as [Hi' HK].
    seven; done.
  - subst s'. seven; done.
  - destruct Hx as [[-> | ->] ->], HK as [HK1 HK2]; seven; done.
  - subst s'. destruct HK as [HG HK]. seven; done.
Qed.

Lemma door_step x y : dpool_step x y -> dsafe x -> dsafe y.
Proof.
  intros Hs (Hok & Hi & Hps).
  destruct Hs as [ps w now st log st' Hd|ps w now st log w' Hev Hok'|ps w now st log now' Hle
    |ps i R c k tr s r s' Hp Hx]; cbn [fst snd d_world d_log d_clock d_fields] in *.
  - split; [done|]. split; [by eapply I_drops|]. exact Hps.
  - split; [done|]. split; [done|]. intros i p tr Hp. destruct (Hps _ _ _ Hp) as (Hv & Hg & Hw).
    split; [by eapply valid_evolves | done].
  - split; [done|]. split; [by eapply I_mono|]. exact Hps.
  - destruct (Hps _ _ _ Hp) as (Hv & Hg & Hw). cbn [dwp] in Hw. specialize (Hw (d_log s) (reflexivity _)).
    destruct (dexec_safe _ _ _ _ _ _ _ _ Hx Hok Hi Hv Hw) as (Hok' & Hev & Hl & Hi' & Hv' & He & Hk).
    split; [done|]. split; [done|]. intros j p tr' Hj. cbn [fst snd] in *.
    apply list_lookup_insert_Some in Hj as [(<- & [= <- <-] & _)|[_ Hj]].
    + split; [done|]. split; [|done]. split; [done | eapply granted_mono; [apply G_mono | exact Hg | done]].
    + destruct (Hps _ _ _ Hj) as (Hvj & Hgj & Hwj). split; [by eapply valid_evolves|].
      split; [eapply granted_mono; [apply G_mono | exact Hgj | done] | by eapply dwp_later].
Qed.

Lemma door_sound x y : rtc dpool_step x y -> dsafe x -> dsafe y.
Proof. induction 1 as [|x y z Hs _ IH]; [done|]. intros Hx. by apply IH, (door_step x y). Qed.

(** A handler that has answered. *)
Lemma door_answer x y i a tr :
  dsafe x -> rtc dpool_step x y -> y.1 !! i = Some (DRet a, tr) -> Q i a tr (d_log y.2).
Proof.
  intros Hx Hr Hi. destruct (door_sound _ _ Hr Hx) as (_ & _ & Hps).
  destruct (Hps _ _ _ Hi) as (_ & _ & Hw). by apply Hw.
Qed.

(** A handler that has asked for a code, whether or not it has answered. *)
Lemma door_issue x y i p after store request identity r before :
  dsafe x -> rtc dpool_step x y ->
  y.1 !! i = Some (p, after ++ DEv (Authorize store request identity) r :: before) ->
  G i store request identity before (d_log y.2).
Proof.
  intros Hx Hr Hi. destruct (door_sound _ _ Hr Hx) as (_ & _ & Hps).
  destruct (Hps _ _ _ Hi) as (_ & Hg & _). by eapply granted_at.
Qed.

End Sound.

(** Handlers that were started on requests: what each promises of itself, it
    keeps beside the others. *)
Lemma started_sound {X A} (I : list exchange -> Z -> F -> Prop) (mk : X -> door A) (xs : list X)
  (G : X -> CodeStore -> AuthorizeRequest -> Identity -> dtrace -> list exchange -> Prop)
  (Q : X -> A -> dtrace -> list exchange -> Prop) s y i x p tr :
  (forall log now st log' now', I log now st -> log ⊆ log' -> now <= now' -> I log' now' st) ->
  (forall log now st st', I log now st -> drops st st' -> I log now st') ->
  (forall x store request identity tr log log',
     G x store request identity tr log -> log ⊆ log' -> G x store request identity tr log') ->
  (forall x, dwp I (G x) (mk x) [] [] (Q x)) ->
  world_ok (d_world s) -> I (d_log s) (d_clock s) (d_fields s) ->
  rtc dpool_step ((fun x => (mk x, [])) <$> xs, s) y -> xs !! i = Some x -> y.1 !! i = Some (p, tr) ->
  (forall after store request identity r before,
     tr = after ++ DEv (Authorize store request identity) r :: before ->
     G x store request identity before (d_log y.2)) /\
  (forall a, p = DRet a -> Q x a tr (d_log y.2)).
Proof.
  intros Hi Hd Hg Hw Hok Hs Hr Hx Hy.
  pose (G' i := match xs !! i with Some x => G x | None => fun _ _ _ _ _ => False end).
  pose (Q' i := match xs !! i with Some x => Q x | None => fun _ _ _ => False end).
  assert (forall i store request identity tr log log',
    G' i store request identity tr log -> log ⊆ log' -> G' i store request identity tr log') as Hg'.
  { intros j. unfold G'. destruct (xs !! j); [apply Hg | done]. }
  assert (dsafe I G' Q' ((fun x => (mk x, [])) <$> xs, s)) as Hsafe.
  { split; [done|]. split; [done|]. intros j q t Hj. cbn [fst] in Hj.
    apply list_lookup_fmap_Some in Hj as (x' & [= -> ->] & Hx'). split; [apply valid_nil|].
    split; [done|]. unfold G', Q'. rewrite Hx'. eapply dwp_later; [|apply Hw]. apply list_subseteq_nil. }
  split.
  - intros after store request identity r before ->.
    pose proof (door_issue I Hi Hd G' Hg' Q' _ _ _ _ _ _ _ _ _ _ Hsafe Hr Hy) as H.
    unfold G' in H. by rewrite Hx in H.
  - intros a ->. pose proof (door_answer I Hi Hd G' Hg' Q' _ _ _ _ _ Hsafe Hr Hy) as H.
    unfold Q' in H. by rewrite Hx in H.
Qed.

(** ** A row is deleted once

    A delete is answered with a row only by the statement that removed it, and
    an id is never handed out again. *)
Definition deletion (t : tbl) (id : text) (e : devent) : nat :=
  match e with
  | DEv c r =>
      match c in dcall R return R -> nat with
      | OnDb c => fun r =>
          match c in call R return R -> nat with
          | Delete t' id' => fun r => if bool_decide (t' = t /\ id' = id) && is_ok r then 1 else 0
          | _ => fun _ => 0
          end r
      | _ => fun _ => 0
      end r
  end%nat.

Definition deletions (t : tbl) (id : text) (tr : dtrace) : nat := sum_list_with (deletion t id) tr.

Definition pool_deletions {A} (t : tbl) (id : text) (ps : list (door A * dtrace)) : nat :=
  sum_list_with (fun x => deletions t id x.2) ps.

Definition gone (t : tbl) (id : text) (w : world) : Prop :=
  w_tables w t !! id = None /\ id ∈ w_used w t.

Definition deleted_once {A} (t : tbl) (id : text) (x : dpool A) : Prop :=
  rows_ok (d_world x.2) /\
  (pool_deletions t id x.1 = 0%nat \/
   (pool_deletions t id x.1 = 1%nat /\ gone t id (d_world x.2))).

Lemma gone_later t id w w' : evolves w w' -> gone t id w -> gone t id w'.
Proof.
  intros Hev [Hn Hu]. destruct (Hev t) as [Hsub Hrows]. split; [|by apply Hsub].
  destruct (w_tables w' t !! id) as [b|] eqn:Hb; [|done].
  apply Hrows in Hb as [?|(a & Ha & _)]; [done|]. by rewrite Hn in Ha.
Qed.

Lemma deletion_inv R (c : dcall R) (r : R) t id :
  deletion t id (DEv c r) = 0%nat \/
  (deletion t id (DEv c r) = 1%nat /\ forall s s', rows_ok (d_world s) -> dexec c s r s' ->
     is_Some (w_tables (d_world s) t !! id) /\ gone t id (d_world s')).
Proof.
  destruct c as [R c| | | | |]; try (by left). destruct c as [| | | | | |t' id'| | | | | | | | | | |];
    try (by left). cbn [deletion].
  destruct (bool_decide_reflect (t' = t /\ id' = id)) as [[-> ->]|]; [|by left]. cbn [andb].
  destruct r as [b|e]; cbn [is_ok]; [|by left]. right. split; [done|].
  intros s s' Hok (w' & Hd & ->). cbn [d_world]. pose proof (exec_rows _ _ _ _ _ Hok Hd) as (Hev & _ & _).
  apply exec_Delete_Ok in Hd as [Hs Hd]. split; [by eexists|]. split; [rewrite Hd; apply lookup_delete_eq|].
  apply (Hev t). by destruct (Hok _ _ _ Hs).
Qed.

Lemma dexec_rows R (c : dcall R) s r s' : rows_ok (d_world s) -> dexec c s r s' ->
  rows_ok (d_world s') /\ evolves (d_world s) (d_world s').
Proof.
  intros Hok Hx. destruct c; cbn [dexec] in Hx.
  - destruct Hx as (w' & Hx & ->). cbn [d_world]. destruct (exec_rows _ _ _ _ _ Hok Hx) as (Hev & Hok' & _).
    by split.
  - subst s'. split; [done | apply evolves_refl].
  - destruct Hx as (st' & _ & ->). split; [done | apply evolves_refl].
  - subst s'. split; [done | apply evolves_refl].
  - destruct Hx as [_ ->]. split; [done | apply evolves_refl].
  - subst s'. split; [done | apply evolves_refl].
Qed.

Lemma deleted_once_step {A} t id (x y : dpool A) :
  dpool_step x y -> deleted_once t id x -> deleted_once t id y.
Proof.
  intros Hs [Hok Hd].
  destruct Hs as [ps w now st log st' Hst|ps w now st log w' Hev Hok'|ps w now st log now' Hle
    |ps i R c k tr s r s' Hp Hx]; unfold deleted_once; cbn [fst snd d_world] in *.
  - by split.
  - split; [apply Hok'|]. destruct Hd as [Hd|[Hd Hg]]; [by left|]. right. split; [done|]. by eapply gone_later.
  - by split.
  - destruct (dexec_rows _ _ _ _ _ Hok Hx) as [Hok' Hev]. split; [done|].
    pose proof (sum_list_with_insert (fun x => deletions t id x.2) ps i _ (k r, DEv c r :: tr) Hp) as Hsum.
    fold (pool_deletions t id ps) in Hsum.
    fold (pool_deletions t id (<[i := (k r, DEv c r :: tr)]> ps)) in Hsum.
    cbn [snd] in Hsum. unfold deletions in Hsum at 2. cbn [sum_list_with] in Hsum.
    fold (deletions t id tr) in Hsum.
    destruct (deletion_inv _ c r t id) as [H0|[H1 Hdel]].
    + replace (pool_deletions t id (<[i := (k r, DEv c r :: tr)]> ps)) with (pool_deletions t id ps) by lia.
      destruct Hd as [Hd|[Hd Hg]]; [by left|]. right. split; [done|]. by eapply gone_later.
    + destruct (Hdel _ _ Hok Hx) as [[a Ha] Hg]. destruct Hd as [Hd|[_ [Hn _]]]; [|by rewrite Hn in Ha].
      right. split; [lia | done].
Qed.

Lemma pool_deleted_once {A} t id (x y : dpool A) :
  rtc dpool_step x y -> deleted_once t id x -> deleted_once t id y.
Proof. induction 1 as [|x y z Hs _ IH]; [done|]. intros Hx. by apply IH, (deleted_once_step t id x y). Qed.

Lemma db_trace_elem (tr : dtrace) ev : ev ∈ db_trace tr -> of_event ev ∈ tr.
Proof.
  unfold db_trace. rewrite list_elem_of_omap. intros ([R c r] & Hin & He).
  destruct c; try done. injection He as <-. exact Hin.
Qed.

Lemma deletions_pos t id b tr : Ev (Delete t id) (Ok b) ∈ db_trace tr -> (0 < deletions t id tr)%nat.
Proof.
  intros [l1 [l2 ->]]%db_trace_elem%list_elem_of_split. unfold deletions. rewrite sum_list_with_app.
  cbn [sum_list_with deletion of_event is_ok]. rewrite bool_decide_eq_true_2 by done. cbn. lia.
Qed.

(** Two handlers that have both deleted a row deleted two different rows. *)
Lemma deleted_by_one {A} t id (x y : dpool A) i j p q tr tr' :
  rows_ok (d_world x.2) -> (forall p tr, (p, tr) ∈ x.1 -> tr = []) -> rtc dpool_step x y ->
  y.1 !! i = Some (p, tr) -> y.1 !! j = Some (q, tr') ->
  (0 < deletions t id tr)%nat -> (0 < deletions t id tr')%nat -> i = j.
Proof.
  intros Hok Hnil Hr Hi Hj Hdi Hdj. destruct (decide (i = j)) as [|Hij]; [done|]. exfalso.
  assert (deleted_once t id x) as Hx.
  { split; [done|]. left. unfold pool_deletions. clear Hr Hok. destruct x as [ps s]. cbn [fst] in *.
    induction ps as [|[p0 tr0] ps IH]; [done|]. cbn. rewrite IH by (intros; eapply Hnil; by right).
    by rewrite (Hnil p0 tr0) by left. }
  destruct (pool_deleted_once _ _ _ _ Hr Hx) as [_ Hd].
  assert (2 <= pool_deletions t id y.1)%nat; [|destruct Hd as [?|[? _]]; lia].
  clear Hd. unfold pool_deletions.
  pose proof (sum_list_with_insert (fun x => deletions t id x.2) y.1 i _ (p, []) Hi) as H1.
  assert (<[i := (p, [])]> y.1 !! j = Some (q, tr')) as Hj' by (by rewrite list_lookup_insert_ne).
  pose proof (sum_list_with_insert (fun x => deletions t id x.2) _ j _ (q, []) Hj') as H2.
  cbn [snd] in H1, H2. change (deletions t id []) with 0%nat in *. lia.
Qed.

End Doors.

Arguments DRet {E O F A} a.
Arguments DPanic {E O F A}.
Arguments DCall {E O F A R} c k.
Arguments dpool {E O} F A.

Declare Scope door_scope.
Delimit Scope door_scope with door.
#[global] Open Scope door_scope.

Notation "'letd' x ':=' p 'in' k" := (dbind p (fun x => k))
  (at level 10, x pattern, p at level 100, k at level 200) : door_scope.

Notation "'letd?' x ':=' p 'in' k" := (dbind_ok p (fun x => k))
  (at level 10, x pattern, p at level 100, k at level 200) : door_scope.
