(* ===== verification/DoorRef.v ===== *)
(** * Running a handler

    What the examples run a [door] on: the reference database, an endpoint and
    an HTTP client that answer by a fixed table, a limiter that lets everything
    through. *)

From S2P Require Import Prelude Float64 Schema ApiSchema Errors Sql Db DbLogic DbReads DbRef DemoData.
From S2P Require Import Webhook Adapter TokenDoor Oidc Door.

#[local] Existing Instance demo_errors.

(** A request is the JSON it was read from; query pairs are [k=v] joined by
    [&] after the first question mark, with nothing escaped. *)
Definition demo_op : OpLib := {|
  AuthorizeRequest := Json;
  authorize_request_of j := Some j |}.

Definition demo_pair (s : text) : text * text :=
  match split_once s [61] with Some (k, v) => (k, v) | None => (s, []) end.

Definition demo_query (u : text) : list (text * text) :=
  match split_once u [63] with Some (_, q) => demo_pair <$> split_on 38 q | None => [] end.

Definition demo_append (ps : list (text * text)) (u : text) : text :=
  let q := join [38] ((fun p => p.1 ++ [61] ++ p.2) <$> ps) in
  match split_once u [63] with Some _ => u ++ [38] ++ q | None => u ++ [63] ++ q end.

Definition demo_host (u : text) : option Sso.Host := Some (Sso.Domain (up_to_slash (drop 8 u))).

Definition demo_hosts : @Sso.UrlHosts demo_reqwest :=
  @Sso.Build_UrlHosts demo_reqwest demo_host demo_query demo_append.

Section Run.

Context {F : Type}.
#[local] Existing Instance demo_op.

Record door_oracle := mkDoorOracle {
  do_db : oracle;
  do_fetch : HttpCall -> result Response TransportError;
  do_authorize : CodeStore -> Json -> Identity -> AuthorizeOutcome }.

Definition door_call (o : door_oracle) {R} (c : dcall (F := F) R) (s : dstate) : option (R * dstate) :=
  match c in dcall R return option (R * dstate) with
  | OnDb c =>
      let '(r, w') := ref_exec (do_db o) c (d_world s) in
      Some (r, mkDState w' (d_clock s) (d_fields s) (d_log s))
  | Fetch q =>
      let r := do_fetch o q in
      Some (r, mkDState (d_world s) (d_clock s) (d_fields s) ((q, r) :: d_log s))
  | Critical section =>
      match section (d_clock s) (d_fields s) with
      | Some (b, st') => Some (b, mkDState (d_world s) (d_clock s) st' (d_log s))
      | None => None
      end
  | Consume _ _ => Some (Ok Allowed, s)
  | Blocking b => Some (Some b, s)
  | Authorize store request identity => Some (do_authorize o store request identity, s)
  end.

Fixpoint door_run (o : door_oracle) {A} (p : door (F := F) A) (tr : list devent) (s : dstate)
  : door A * list devent * dstate :=
  match p with
  | DCall c k =>
      match door_call o c s with
      | Some (r, s') => door_run o (k r) (DEv c r :: tr) s'
      | None => (p, tr, s)
      end
  | _ => (p, tr, s)
  end.

Lemma door_call_exec o {R} (c : dcall (F := F) R) s r s' :
  door_call o c s = Some (r, s') -> @dexec _ _ F (ref_backend (do_db o)) R c s r s'.
Proof.
  intros Hc. destruct c; cbn [door_call dexec] in *; try (by injection Hc as <- <-).
  - destruct (ref_exec _ _ _) as [r' w'] eqn:Hx. injection Hc as <- <-. by exists w'.
  - destruct (section _ _) as [[b st']|] eqn:Hs; [|done]. injection Hc as <- <-. by exists st'.
  - injection Hc as <- <-. auto.
Qed.

(** One handler of several, on its own. *)
Lemma door_run_at o drops {A} (ps : list (door (F := F) A * list devent)) i p tr s :
  ps !! i = Some (p, tr) ->
  rtc (@dpool_step _ _ F (ref_backend (do_db o)) drops A) (ps, s)
    (<[i := (door_run o p tr s).1]> ps, (door_run o p tr s).2).
Proof.
  revert ps tr s. induction p as [a| |R c k IH]; intros ps tr s Hi; cbn [door_run];
    [by rewrite list_insert_id | by rewrite list_insert_id |].
  destruct (door_call o c s) as [[r s']|] eqn:Hc; [|by rewrite list_insert_id].
  eapply rtc_l; [by apply (@dpool_call _ _ F (ref_backend (do_db o)) drops A ps i R c k tr s r s'), door_call_exec|].
  assert (i < length ps)%nat as H by (by apply lookup_lt_is_Some; eexists).
  pose proof (IH r (<[i := (k r, DEv c r :: tr)]> ps) (DEv c r :: tr) s' (list_lookup_insert_eq _ _ _ H)) as Hr.
  by rewrite list_insert_insert_eq in Hr.
Qed.

Lemma door_run_steps o drops {A} (p : door (F := F) A) tr s :
  rtc (@dpool_step _ _ F (ref_backend (do_db o)) drops A) ([(p, tr)], s)
    ([(door_run o p tr s).1], (door_run o p tr s).2).
Proof. exact (door_run_at o drops [(p, tr)] 0 p tr s eq_refl). Qed.

Definition door_answered {A} (x : door (F := F) A * list (devent (F := F)) * dstate (F := F)) : option A :=
  match x.1.1 with DRet a => Some a | _ => None end.

End Run.
