(* ===== verification/SsoProvider.v ===== *)
(** * Single sign-on: talking to the identity provider (sso/provider.rs)

    The discovery document and the signing keys are cached and refreshed by one
    task at a time; a code is exchanged for an ID token, which is verified
    against a key of the provider.  The caches and the two flight locks are the
    fields of the broker; instants and lifetimes are in nanoseconds. *)

From S2P Require Import Prelude Schema ApiSchema Errors Sql Db DbLogic DbReads DbRef.
From S2P Require Import Webhook Adapter AwsProvider OrangeProvider TokenDoor Oidc Door SsoStore.

Module SsoProvider.

Definition MAX_BODY_BYTES : Z := 1024 * 1024.
Definition METADATA_TTL : Z := 3600 * NANOS_PER_SEC.
Definition JWKS_TTL : Z := 3600 * NANOS_PER_SEC.

Record Discovery := mkDiscovery {
  d_issuer : text;
  d_authorization_endpoint : text;
  d_token_endpoint : text;
  d_jwks_uri : text;
  d_token_endpoint_auth_methods_supported : option (list text);
  d_code_challenge_methods_supported : option (list text) }.

Definition unavailable (what : text) : Sso.SsoError := Sso.Unavailable what.

(** [read_limited]: chunk by chunk, never more than the limit. *)
Fixpoint read_chunks (body : list Z) (chunks : list (list Z)) (broken : option text)
  : result (list Z) Sso.SsoError :=
  match chunks with
  | [] => match broken with
          | Some _ => Err (unavailable (lit "reading an upstream response failed"))
          | None => Ok body
          end
  | chunk :: rest =>
      if MAX_BODY_BYTES <? Z.of_nat (length body) + Z.of_nat (length chunk) then
        Err (unavailable (lit "an upstream response was too large"))
      else read_chunks (body ++ chunk) rest broken
  end.

Definition read_limited (response : Response) : result (list Z) Sso.SsoError :=
  read_chunks [] (rs_chunks response) (rs_broken response).

(** serde's readers of the two documents, the encoders of base64 and of forms,
    and the bytes of a random token. *)
Class BrokerLib `{T : Sso.TokenLib} := {
  decode_discovery : list Z -> option Discovery;
  jwk_of_json : Json -> option Sso.Jwk;
  base64url_encode : list Z -> text;
  base64_encode : text -> text;
  byte_serialize : text -> text }.

Section Provider.

Context `{E : CratestackErrors} `{O : OpLib} `{M : MacLib} `{R : ReqwestLib} `{U : !Sso.UrlHosts}.
Context `{T : Sso.TokenLib} `{BL : !BrokerLib}.

Record Metadata := mkMetadata {
  authorization_endpoint : url;
  token_endpoint : url;
  jwks_uri : url }.

Record CachedMetadata := mkCached {
  cm_metadata : Metadata;
  cm_fetched : Z }.

Record JwksCache := mkJwksCache {
  keys : list Sso.Jwk;
  fetched : option Z }.

Definition find_cached (cache : JwksCache) (kid : text) : option Sso.Jwk :=
  List.find (fun key => bool_decide (Sso.key_id key = Some kid)) (keys cache).

(** [Inner]: the two caches and the two flights. *)
Record Fields := mkFields {
  f_metadata : option CachedMetadata;
  f_jwks : JwksCache;
  f_metadata_flight : bool;
  f_jwks_flight : bool }.

Definition set_metadata (m : option CachedMetadata) (st : Fields) : Fields :=
  mkFields m (f_jwks st) (f_metadata_flight st) (f_jwks_flight st).
Definition set_jwks (j : JwksCache) (st : Fields) : Fields :=
  mkFields (f_metadata st) j (f_metadata_flight st) (f_jwks_flight st).
Definition set_metadata_flight (b : bool) (st : Fields) : Fields :=
  mkFields (f_metadata st) (f_jwks st) b (f_jwks_flight st).
Definition set_jwks_flight (b : bool) (st : Fields) : Fields :=
  mkFields (f_metadata st) (f_jwks st) (f_metadata_flight st) b.

Definition fresh_fields : Fields := mkFields None (mkJwksCache [] None) false false.

(** A dropped task gives back its flights. *)
Definition drops (st st' : Fields) : Prop :=
  st' = set_metadata_flight false st \/ st' = set_jwks_flight false st.

Abbreviation handler := (door (F := Fields)).

(** [Instant::elapsed] saturates. *)
Definition elapsed (now at_ : Z) : Z := Z.max 0 (now - at_).

(** [Mutex::try_lock], [Mutex::lock] and the drop of the guard. *)
Definition try_lock (held : Fields -> bool) (set : bool -> Fields -> Fields) : handler bool :=
  ask (Critical (fun _ st => Some (if held st then (false, st) else (true, set true st)))).

Definition lock (held : Fields -> bool) (set : bool -> Fields -> Fields) : handler unit :=
  ask (Critical (fun _ st => if held st then None else Some (tt, set true st))).

Definition unlock (set : bool -> Fields -> Fields) : handler unit :=
  ask (Critical (fun _ st => Some (tt, set false st))).

Definition under {A} (set : bool -> Fields -> Fields) (p : handler A) : handler A :=
  letd a := p in letd _ := unlock set in DRet a.

(** [metadata_ttl] and [jwks_ttl] are [METADATA_TTL] and [JWKS_TTL] outside of
    tests. *)
Variables (config : Sso.SsoConfig) (metadata_ttl jwks_ttl : Z).

(** ** Discovery *)
Definition discovery_url : text :=
  OrangeCm.trim_end_char 47 (Sso.issuer config) ++ lit "/.well-known/openid-configuration".

Definition get (address : text) : HttpCall := mkHttpCall GET address NoCredentials [] NoPayload.

(** The closure [parse]. *)
Definition parse_endpoint (field value : text) : result url Sso.SsoError :=
  match Sso.require_secure_url field value with
  | Err _ => Err (unavailable (lit "the discovery document names an unacceptable endpoint"))
  | Ok u =>
      if Sso.livemode config && negb (bool_decide (url_scheme u = lit "https")) then
        Err (unavailable (lit "the discovery document names a cleartext endpoint"))
      else Ok u
  end.

Definition lacks (methods : option (list text)) (wanted : text) : bool :=
  match methods with Some m => negb (bool_decide (wanted ∈ m)) | None => false end.

(** [fetch_discovery] from the reply on. *)
Definition discovered (reply : result Response TransportError) : result Metadata Sso.SsoError :=
  match reply with
  | Err _ => Err (unavailable (lit "fetching the discovery document failed"))
  | Ok response =>
      if negb (is_success (rs_status response)) then
        Err (unavailable (lit "the discovery document was not served"))
      else
        let? body := read_limited response in
        match decode_discovery body with
        | None => Err (unavailable (lit "the discovery document is not valid"))
        | Some document =>
            if negb (bool_decide (d_issuer document = Sso.issuer config)) then
              Err (unavailable (lit "the discovery issuer does not match the configured one"))
            else if lacks (d_token_endpoint_auth_methods_supported document) (lit "client_secret_basic") then
              Err (unavailable (lit "the IdP does not offer client_secret_basic"))
            else if lacks (d_code_challenge_methods_supported document) (lit "S256") then
              Err (unavailable (lit "the IdP does not offer PKCE S256"))
            else
              let? authorization := parse_endpoint (lit "authorization_endpoint")
                (d_authorization_endpoint document) in
              let? token := parse_endpoint (lit "token_endpoint") (d_token_endpoint document) in
              let? jwks := parse_endpoint (lit "jwks_uri") (d_jwks_uri document) in
              Ok (mkMetadata authorization token jwks)
        end
  end.

Definition fetch_discovery : handler (result Metadata Sso.SsoError) :=
  letd reply := ask (Fetch (get discovery_url)) in DRet (discovered reply).

(** The part of [metadata] under the flight. *)
Definition refresh_metadata (cached : option (Metadata * Z)) : handler (result Metadata Sso.SsoError) :=
  letd fresh := ask (Critical (fun now st => Some (
    match f_metadata st with
    | Some c => if elapsed now (cm_fetched c) <? metadata_ttl then Some (cm_metadata c) else None
    | None => None
    end, st))) in
  match fresh with
  | Some metadata => DRet (Ok metadata)
  | None =>
      letd fetched := fetch_discovery in
      match fetched with
      | Ok fresh =>
          letd _ := ask (Critical (fun now st =>
            Some (tt, set_metadata (Some (mkCached fresh now)) st))) in
          DRet (Ok fresh)
      | Err error => DRet (match cached with Some (metadata, _) => Ok metadata | None => Err error end)
      end
  end.

Definition metadata : handler (result Metadata Sso.SsoError) :=
  letd cached := ask (Critical (fun now st => Some (
    match f_metadata st with
    | Some c => Some (cm_metadata c, elapsed now (cm_fetched c))
    | None => None
    end, st))) in
  match cached with
  | Some (metadata, age) =>
      if age <? metadata_ttl then DRet (Ok metadata)
      else
        letd locked := try_lock f_metadata_flight set_metadata_flight in
        if negb locked then DRet (Ok metadata)
        else under set_metadata_flight (refresh_metadata cached)
  | None =>
      letd locked := try_lock f_metadata_flight set_metadata_flight in
      letd _ := if locked then DRet tt else lock f_metadata_flight set_metadata_flight in
      under set_metadata_flight (refresh_metadata cached)
  end.

(** ** The two ways to the provider *)

(** [AuthnSecrets::generate]. *)
Definition random_token (bytes : nat) : handler text :=
  letd buf := ask (OnDb (RandomBytes bytes)) in DRet (base64url_encode buf).

Definition generate : handler SsoStore.AuthnSecrets :=
  letd code_verifier := random_token 32 in
  let code_challenge := base64url_encode (sha256 (as_bytes code_verifier)) in
  letd state := random_token 32 in
  letd nonce := random_token 24 in
  DRet (SsoStore.mkSecrets state nonce code_verifier code_challenge).

Definition authorization_query (secrets : SsoStore.AuthnSecrets) (prompt_login : bool) : list (text * text) :=
  [ (lit "response_type", lit "code"); (lit "client_id", Sso.client_id config);
    (lit "redirect_uri", Sso.redirect_uri config); (lit "scope", Sso.scopes config);
    (lit "state", SsoStore.as_state secrets); (lit "nonce", SsoStore.as_nonce secrets);
    (lit "code_challenge", SsoStore.as_code_challenge secrets);
    (lit "code_challenge_method", lit "S256") ] ++
  (if prompt_login then [(lit "prompt", lit "login")] else []).

Definition authorization_url (secrets : SsoStore.AuthnSecrets) (prompt_login : bool)
  : handler (result url Sso.SsoError) :=
  letd? metadata := metadata in
  DRet (Ok (Sso.append_pairs (authorization_query secrets prompt_login) (authorization_endpoint metadata))).

Definition code_exchange (metadata : Metadata) (code code_verifier : text) : HttpCall :=
  let credentials := base64_encode (byte_serialize (Sso.client_id config) ++ lit ":"
    ++ byte_serialize (Sso.client_secret config)) in
  mkHttpCall POST (url_str (token_endpoint metadata)) NoCredentials
    [(lit "Authorization", lit "Basic " ++ credentials); (lit "Accept", lit "application/json")]
    (Form [ (lit "grant_type", lit "authorization_code"); (lit "code", code);
            (lit "redirect_uri", Sso.redirect_uri config); (lit "code_verifier", code_verifier) ]).

Definition exchanged (reply : result Response TransportError) : result text Sso.SsoError :=
  match reply with
  | Err _ => Err (unavailable (lit "the code exchange could not reach the IdP"))
  | Ok response =>
      let? body := read_limited response in
      if rs_status response =? 400 then Err (Sso.Refused Sso.UpstreamDenied)
      else if negb (is_success (rs_status response)) then
        Err (unavailable (lit "the IdP's token endpoint failed"))
      else
        match Sso.json_from_slice body ≫= (fun v => Sso.json_get v (lit "id_token") ≫= Sso.as_str) with
        | Some token => Ok token
        | None => Err (unavailable (lit "the token response carried no id_token"))
        end
  end.

Definition exchange_code (code code_verifier : text) : handler (result text Sso.SsoError) :=
  letd? metadata := metadata in
  letd reply := ask (Fetch (code_exchange metadata code code_verifier)) in
  DRet (exchanged reply).

(** ** Keys *)
Definition served_jwks (reply : result Response TransportError) : result (list Sso.Jwk) Sso.SsoError :=
  match reply with
  | Err _ => Err (unavailable (lit "fetching the JWKS failed"))
  | Ok response =>
      if negb (is_success (rs_status response)) then Err (unavailable (lit "the JWKS was not served"))
      else
        let? body := read_limited response in
        match Sso.json_from_slice body with
        | None => Err (unavailable (lit "the JWKS is not valid JSON"))
        | Some document =>
            match Sso.json_get document (lit "keys") ≫= Sso.as_array with
            | None => Err (unavailable (lit "the JWKS has no `keys` array"))
            | Some keys =>
                Ok (List.filter (fun key => negb (is_null (Sso.key_id key))) (omap jwk_of_json keys))
            end
        end
  end.

Definition fetch_jwks : handler (result (list Sso.Jwk) Sso.SsoError) :=
  letd? metadata := metadata in
  letd reply := ask (Fetch (get (url_str (jwks_uri metadata)))) in
  DRet (served_jwks reply).

Definition known_or_unknown (key : option Sso.Jwk) : result Sso.Jwk Sso.SsoError :=
  match key with Some key => Ok key | None => Err (Sso.Refused Sso.UnknownKeyId) end.

(** The part of [find_key] under the flight. *)
Definition refresh_keys (kid : text) (known : option Sso.Jwk) : handler (result Sso.Jwk Sso.SsoError) :=
  letd recent := ask (Critical (fun now st => Some (
    match fetched (f_jwks st) with
    | Some at_ => if elapsed now at_ <? Sso.jwks_min_refresh config
                  then Some (find_cached (f_jwks st) kid) else None
    | None => None
    end, st))) in
  match recent with
  | Some found => DRet (known_or_unknown found)
  | None =>
      letd fetched := fetch_jwks in
      match fetched with
      | Ok keys =>
          letd found := ask (Critical (fun now st =>
            let cache := mkJwksCache keys (Some now) in
            Some (find_cached cache kid, set_jwks cache st))) in
          DRet (known_or_unknown found)
      | Err error => DRet (match known with Some key => Ok key | None => Err error end)
      end
  end.

(** [at.elapsed() < limit], at the time it is asked. *)
Definition younger (at_ : option Z) (limit : Z) : handler bool :=
  match at_ with
  | Some at_ => ask (Critical (fun now st => Some (elapsed now at_ <? limit, st)))
  | None => DRet false
  end.

Definition find_key (kid : text) : handler (result Sso.Jwk Sso.SsoError) :=
  letd (known, fetched) := ask (Critical (fun _ st =>
    Some ((find_cached (f_jwks st) kid, fetched (f_jwks st)), st))) in
  letd valid := if is_null known then DRet false else younger fetched jwks_ttl in
  if valid then DRet (known_or_unknown known)
  else
    letd recent := younger fetched (Sso.jwks_min_refresh config) in
    if recent then DRet (known_or_unknown known)
    else
      letd locked := try_lock f_jwks_flight set_jwks_flight in
      match locked, known with
      | false, Some key => DRet (Ok key)
      | _, _ =>
          letd _ := if locked then DRet tt else lock f_jwks_flight set_jwks_flight in
          under set_jwks_flight (refresh_keys kid known)
      end.

Definition expected (nonce : text) : Sso.Expected :=
  Sso.mkExpected (Sso.issuer config) (Sso.client_id config) nonce (Sso.groups_claim config).

Definition verify_id_token (raw nonce : text) : handler (result Sso.IdClaims Sso.SsoError) :=
  if match Sso.peek_algorithm_name raw with
     | Some name => negb (bool_decide (name ∈ Sso.ALLOWED_ALGORITHM_NAMES))
     | None => false
     end
  then DRet (Err (Sso.Refused Sso.AlgorithmNotAllowed))
  else
    match Sso.decode_header raw with
    | None => DRet (Err (Sso.Refused Sso.IdTokenMalformed))
    | Some header =>
        let alg := Sso.h_alg header in
        if negb (Sso.is_allowed_algorithm alg) then DRet (Err (Sso.Refused Sso.AlgorithmNotAllowed))
        else
          match Sso.h_kid header with
          | None => DRet (Err (Sso.Refused Sso.MissingKeyId))
          | Some kid =>
              letd? jwk := find_key kid in
              letd now := ask (OnDb Now) in
              DRet (map_err Sso.Refused (Sso.verify (now / 1000000) raw jwk alg (expected nonce)))
          end
    end.

End Provider.

End SsoProvider.

(** ** Everything the broker knows, its provider said

    What is cached was served: the metadata in a discovery document of the
    configured issuer, a key in the key set that document names. *)
Section Anchored.

Import SsoProvider.

Context `{E : CratestackErrors} `{O : OpLib} `{M : MacLib} `{R : ReqwestLib} `{U : !Sso.UrlHosts}.
Context `{T : Sso.TokenLib} `{BL : !BrokerLib}.
Context (config : Sso.SsoConfig) (metadata_ttl jwks_ttl : Z).
Context (G : CodeStore -> AuthorizeRequest -> Identity -> list (devent (F := Fields)) -> list exchange -> Prop).

Definition served_metadata (log : list exchange) (m : Metadata) : Prop :=
  exists response, (get (discovery_url config), Ok response) ∈ log /\
    discovered config (Ok response) = Ok m.

Definition served_key (log : list exchange) (key : Sso.Jwk) : Prop :=
  exists m response served, served_metadata log m /\
    (get (url_str (jwks_uri m)), Ok response) ∈ log /\
    served_jwks (Ok response) = Ok served /\ key ∈ served.

Definition anchored (log : list exchange) (_ : Z) (st : Fields) : Prop :=
  (forall c, f_metadata st = Some c -> served_metadata log (cm_metadata c)) /\
  Forall (served_key log) (keys (f_jwks st)).

Lemma served_metadata_mono log log' m : log ⊆ log' -> served_metadata log m -> served_metadata log' m.
Proof. intros Hl (r & Hr & Hd). exists r. split; [by apply Hl | done]. Qed.

Lemma served_key_mono log log' k : log ⊆ log' -> served_key log k -> served_key log' k.
Proof.
  intros Hl (m & r & ks & Hm & Hr & Hk). exists m, r, ks.
  split; [by eapply served_metadata_mono|]. split; [by apply Hl | done].
Qed.

Lemma anchored_mono log now st log' now' :
  anchored log now st -> log ⊆ log' -> now <= now' -> anchored log' now' st.
Proof.
  intros [Hm Hk] Hl _. split; [intros c Hc; by eapply served_metadata_mono, Hm|].
  eapply Forall_impl; [exact Hk|]. intros k. by apply served_key_mono.
Qed.

Lemma anchored_drops log now st st' : anchored log now st -> drops st st' -> anchored log now st'.
Proof. by intros H [-> | ->]. Qed.

Lemma anchored_fresh log now : anchored log now fresh_fields.
Proof. split; [done | constructor]. Qed.

(** A document that is used: of the issuer, and every endpoint encrypted, in
    livemode without the exception for this machine. *)
Definition trusted_metadata (m : Metadata) : Prop :=
  forall u, u ∈ [authorization_endpoint m; token_endpoint m; jwks_uri m] ->
    Sso.secure_url u /\ (Sso.livemode config = true -> url_scheme u = lit "https").

Lemma parse_endpoint_ok field value u : parse_endpoint config field value = Ok u ->
  Sso.secure_url u /\ (Sso.livemode config = true -> url_scheme u = lit "https").
Proof.
  unfold parse_endpoint. destruct (Sso.require_secure_url field value) as [v|] eqn:Hv; [|done].
  apply Sso.require_secure_url_ok in Hv as [_ Hv]. rewrite guard_Ok. intros [Hl [= <-]].
  split; [done|]. intros Hlive. rewrite Hlive in Hl. cbn [andb] in Hl.
  by apply negb_false_iff, bool_decide_eq_true in Hl.
Qed.

Lemma discovered_trusted reply m : discovered config reply = Ok m ->
  trusted_metadata m /\ exists response body document, reply = Ok response /\
    read_limited response = Ok body /\ decode_discovery body = Some document /\
    d_issuer document = Sso.issuer config.
Proof.
  unfold discovered. destruct reply as [response|]; [|done]. rewrite guard_Ok.
  intros [_ (body & Hb & Hr)%rbind_Ok]. destruct (decode_discovery body) as [document|] eqn:Hd; [|done].
  rewrite !guard_Ok in Hr. destruct Hr as (Hi%negb_false_iff%bool_decide_eq_true & _ & _ & Hr).
  apply rbind_Ok in Hr as (a & Ha%parse_endpoint_ok & Hr).
  apply rbind_Ok in Hr as (t & Ht%parse_endpoint_ok & Hr).
  apply rbind_Ok in Hr as (j & Hj%parse_endpoint_ok & [= <-]). split.
  - intros u. cbn. rewrite !elem_of_cons, elem_of_nil. by intros [-> | [-> | [-> | []]]].
  - by exists response, body, document.
Qed.

(** ** The broker's steps *)
Abbreviation handler := (door (F := Fields)).
Abbreviation pre := (dwp anchored G).

Lemma dwp_section {B} (s : Z -> Fields -> option (B * Fields)) tr log (P : B -> list exchange -> Prop) :
  (forall l now st b st', log ⊆ l -> anchored l now st -> s now st = Some (b, st') ->
     anchored l now st' /\ forall l', l ⊆ l' -> P b l') ->
  pre (ask (Critical s)) tr log (fun b _ l => P b l).
Proof.
  intros H l Hl now st Hi. destruct (s now st) as [[b st']|] eqn:Hs; [|done].
  destruct (H _ _ _ _ _ Hl Hi Hs) as [Hi' HP]. by split.
Qed.

Lemma dwp_ret {A} (a : A) tr log (P : A -> list exchange -> Prop) :
  (forall l, log ⊆ l -> P a l) -> pre (DRet a) tr log (fun a _ l => P a l).
Proof. intros H l. apply H. Qed.

Lemma dwp_fetch c tr log (P : _ -> list exchange -> Prop) :
  (forall r l, (c, r) ∈ l -> P r l) -> pre (ask (Fetch c)) tr log (fun r _ l => P r l).
Proof. intros H l Hl r l' Hl'. apply H, Hl'. by left. Qed.

Lemma dwp_try_lock held set tr log :
  (forall b l now st, anchored l now st -> anchored l now (set b st)) ->
  pre (try_lock held set) tr log (fun _ _ _ => True).
Proof.
  intros Hs. apply (dwp_section _ _ _ (fun _ _ => True)). intros l now st b st' _ Hi [= Hb].
  destruct (held st); injection Hb as <- <-; split; auto.
Qed.

Lemma dwp_lock held set tr log :
  (forall b l now st, anchored l now st -> anchored l now (set b st)) ->
  pre (lock held set) tr log (fun _ _ _ => True).
Proof.
  intros Hs. apply (dwp_section _ _ _ (fun _ _ => True)). intros l now st b st' _ Hi Hb.
  destruct (held st); [done|]. injection Hb as <- <-. auto.
Qed.

Lemma dwp_under {A} set (p : handler A) tr log (P : A -> list exchange -> Prop) :
  (forall b l now st, anchored l now st -> anchored l now (set b st)) ->
  (forall a l l', P a l -> l ⊆ l' -> P a l') ->
  pre p tr log (fun a _ l => P a l) -> pre (under set p) tr log (fun a _ l => P a l).
Proof.
  intros Hs HP Hp. apply dwp_bind. eapply dwp_mono; [|exact Hp]. intros a tr' l _ Ha. apply dwp_bind.
  eapply (dwp_mono _ _ _ _ _ (fun _ _ l' => P a l')).
  - intros [] ? l' _ Hl'. apply (dwp_ret a _ _ P). intros l'' Hl''. by eapply HP.
  - intros l1 Hl1 now st Hi. split; [by apply Hs|]. intros l2 Hl2. eapply HP; [exact Ha|]. by etrans.
Qed.

Definition answers {A} (P : list exchange -> A -> Prop) (r : result A Sso.SsoError)
  (l : list exchange) : Prop := forall a, r = Ok a -> P l a.

Lemma answers_mono {A} (P : list exchange -> A -> Prop) r l l' :
  (forall l l' a, P l a -> l ⊆ l' -> P l' a) -> answers P r l -> l ⊆ l' -> answers P r l'.
Proof. intros HP Hr Hl a Ha. eapply HP; [by apply Hr | done]. Qed.

Lemma anchored_metadata_flight b l now st : anchored l now st -> anchored l now (set_metadata_flight b st).
Proof. done. Qed.
Lemma anchored_jwks_flight b l now st : anchored l now st -> anchored l now (set_jwks_flight b st).
Proof. done. Qed.
#[local] Hint Resolve anchored_metadata_flight anchored_jwks_flight served_metadata_mono served_key_mono : core.

Lemma answers_metadata r l l' : answers served_metadata r l -> l ⊆ l' -> answers served_metadata r l'.
Proof. intros Hr Hl. eapply answers_mono; [|exact Hr | exact Hl]. eauto. Qed.

Lemma answers_key kid r l l' :
  answers (fun l k => served_key l k /\ Sso.key_id k = Some kid) r l -> l ⊆ l' ->
  answers (fun l k => served_key l k /\ Sso.key_id k = Some kid) r l'.
Proof. intros Hr Hl. eapply answers_mono; [|exact Hr | exact Hl]. intros ??? [? ?] ?. eauto. Qed.

(** A cached value leaves the lock as what was served. *)
Lemma refresh_metadata_served cached tr log :
  (forall m age, cached = Some (m, age) -> served_metadata log m) ->
  pre (refresh_metadata config metadata_ttl cached) tr log (fun r _ l => answers served_metadata r l).
Proof.
  intros Hc. apply dwp_bind. eapply dwp_mono; cycle 1.
  { apply (dwp_section _ _ _ (fun b l => forall m, b = Some m -> served_metadata l m)).
    intros l now st b st' _ Hi [= <- <-]. split; [done|]. intros l' Hl' m Hm.
    destruct (f_metadata st) as [c|] eqn:Hf; [|done]. destruct (_ <? _); [|done]. injection Hm as <-.
    eapply served_metadata_mono; [exact Hl'|]. by apply Hi. }
  intros [m|] tr1 l1 Hl1 Hfresh; cbn beta iota.
  { apply (dwp_ret _ _ _ (answers served_metadata)). intros l Hl a [= <-]. eauto. }
  apply dwp_bind. unfold fetch_discovery. apply dwp_bind. eapply dwp_mono; cycle 1.
  { apply (dwp_fetch _ _ _ (fun r l => answers served_metadata (discovered config r) l)).
    intros r l Hr m Hm. destruct (discovered_trusted _ _ Hm) as (_ & resp & ? & ? & -> & _). by exists resp. }
  intros reply tr2 l2 Hl2 Hr l3 Hl3. cbn beta in Hr |- *.
  destruct (discovered config reply) as [m|e].
  - apply dwp_bind. eapply dwp_mono; cycle 1.
    { apply (dwp_section _ _ _ (fun _ _ => True)). intros l now st b st' Hl [Hm Hk] [= <- <-].
      split; [|done]. split; [|done]. intros c [= <-]. cbn [cm_metadata].
      eapply served_metadata_mono; [exact Hl|]. eapply served_metadata_mono; [exact Hl3|]. by apply Hr. }
    intros _ tr4 l4 Hl4 _. apply (dwp_ret _ _ _ (answers served_metadata)). intros l Hl a [= <-].
    eapply served_metadata_mono; [|by apply Hr]. by do 2 (etrans; [eassumption|]).
  - apply (dwp_ret _ _ _ (answers served_metadata)). intros l Hl a Ha.
    destruct cached as [[m age]|]; [|done]. injection Ha as <-.
    eapply served_metadata_mono; [|by eapply Hc]. by do 3 (etrans; [eassumption|]).
Qed.

Lemma metadata_served tr log :
  pre (metadata config metadata_ttl) tr log (fun r _ l => answers served_metadata r l).
Proof.
  apply dwp_bind. eapply dwp_mono; cycle 1.
  { apply (dwp_section _ _ _ (fun b l => forall m age, b = Some (m, age) -> served_metadata l m)).
    intros l now st b st' _ Hi [= <- <-]. split; [done|]. intros l' Hl' m age Hm.
    destruct (f_metadata st) as [c|] eqn:Hf; [|done]. injection Hm as <- <-.
    eapply served_metadata_mono; [exact Hl'|]. by apply Hi. }
  intros cached tr1 l1 Hl1 Hcached. cbn beta in Hcached |- *.
  assert (forall m age l, cached = Some (m, age) -> l1 ⊆ l -> served_metadata l m) as Hc by eauto.
  assert (forall tr l, l1 ⊆ l -> pre (under set_metadata_flight (refresh_metadata config metadata_ttl cached))
    tr l (fun r _ l => answers served_metadata r l)) as Hu.
  { intros tr' l Hl. apply dwp_under; [eauto | apply answers_metadata |]. apply refresh_metadata_served.
    intros m age Hm. by eapply Hc. }
  destruct cached as [[m age]|].
  - destruct (age <? metadata_ttl).
    { apply (dwp_ret _ _ _ (answers served_metadata)). intros l Hl a [= <-]. by eapply Hc. }
    apply dwp_bind. eapply dwp_mono; [|by apply dwp_try_lock]. intros [] tr2 l2 Hl2 _; [by apply Hu|].
    apply (dwp_ret _ _ _ (answers served_metadata)). intros l Hl a [= <-]. eapply Hc; [done|]. by etrans.
  - apply dwp_bind. eapply dwp_mono; [|by apply dwp_try_lock]. intros locked tr2 l2 Hl2 _.
    apply dwp_bind. eapply (dwp_mono _ _ _ _ _ (fun _ _ _ => True)).
    { intros ? tr3 l3 Hl3 _. apply Hu. by etrans. }
    destruct locked; [by intros ??|]. by apply dwp_lock.
Qed.

(** The ID token came back from the token endpoint the provider names, for this
    code and this verifier. *)
Definition exchanged_for (code verifier raw : text) (tr : list (devent (F := Fields))) (log : list exchange) : Prop :=
  exists m response, served_metadata log m /\
    DEv (Fetch (code_exchange config m code verifier)) (Ok response) ∈ tr /\
    exchanged (Ok response) = Ok raw.

Lemma exchange_code_sound code verifier tr log :
  pre (exchange_code config metadata_ttl code verifier) tr log
    (fun r tr' l => forall raw, r = Ok raw -> exchanged_for code verifier raw tr' l).
Proof.
  apply dwp_bind_ok. eapply dwp_mono; [|apply metadata_served]. intros [m|e] tr1 l1 Hl1 Hm; [|done].
  intros l2 Hl2 reply l3 Hl3 raw Hraw. destruct reply as [response|]; [|done]. exists m, response.
  split; [|split; [by left | done]]. eapply served_metadata_mono; [|by apply Hm]. set_solver.
Qed.

Lemma fetch_jwks_served tr log :
  pre (fetch_jwks config metadata_ttl) tr log
    (fun r _ l => answers (fun l ks => Forall (served_key l) ks) r l).
Proof.
  apply dwp_bind_ok. eapply dwp_mono; [|apply metadata_served]. intros [m|e] tr1 l1 Hl1 Hm; [|done].
  intros l2 Hl2 reply l3 Hl3 ks Hks. destruct reply as [response|]; [|done].
  apply Forall_forall. intros k Hk. exists m, response, ks. split; [|split; [|done]].
  - eapply served_metadata_mono; [|by apply Hm]. set_solver.
  - apply Hl3. by left.
Qed.

Lemma find_cached_served cache kid l k :
  Forall (served_key l) (keys cache) -> find_cached cache kid = Some k ->
  served_key l k /\ Sso.key_id k = Some kid.
Proof.
  intros Hf [Hin Hk]%List.find_some. apply bool_decide_eq_true in Hk. split; [|done].
  rewrite Forall_forall in Hf. by apply Hf, list_elem_of_In.
Qed.

Definition keys_served (kid : text) (found : option Sso.Jwk) (l : list exchange) : Prop :=
  forall k, found = Some k -> served_key l k /\ Sso.key_id k = Some kid.

Abbreviation key_answers kid := (answers (fun l k => served_key l k /\ Sso.key_id k = Some kid)).

Lemma known_served kid found l l' : keys_served kid found l -> l ⊆ l' ->
  key_answers kid (known_or_unknown found) l'.
Proof.
  intros Hf Hl k Hk. destruct found as [k'|]; [|done]. injection Hk as <-.
  destruct (Hf k' eq_refl). eauto.
Qed.

Lemma refresh_keys_served kid known tr log :
  keys_served kid known log ->
  pre (refresh_keys config metadata_ttl kid known) tr log (fun r _ l => key_answers kid r l).
Proof.
  intros Hknown. apply dwp_bind. eapply dwp_mono; cycle 1.
  { apply (dwp_section _ _ _ (fun b l => forall found, b = Some found -> keys_served kid found l)).
    intros l now st b st' _ [Hm Hk] [= <- <-]. split; [done|]. intros l' Hl' found Hf k Hfk.
    destruct (fetched (f_jwks st)); [|done]. destruct (_ <? _); [|done]. injection Hf as <-.
    apply (find_cached_served _ _ l) in Hfk as [? ?]; [eauto | done]. }
  intros [found|] tr1 l1 Hl1 Hfound; cbn beta iota in *.
  { apply (dwp_ret _ _ _ (key_answers kid)). intros l Hl. eapply known_served; [by apply Hfound | done]. }
  apply dwp_bind. eapply dwp_mono; [|apply fetch_jwks_served]. intros [ks|e] tr2 l2 Hl2 Hks; cbn beta iota in *.
  - apply dwp_bind. eapply dwp_mono; cycle 1.
    { apply (dwp_section _ _ _ (fun b l => keys_served kid b l)).
      intros l now st b st' Hl [Hm Hk] [= <- <-].
      assert (Forall (served_key l) ks) as Hks' by (eapply Forall_impl; [by apply Hks | eauto]).
      split; [by split|]. intros l' Hl' k Hf. apply (find_cached_served _ _ l) in Hf as [? ?]; [eauto | done]. }
    intros found tr3 l3 Hl3 Hf. apply (dwp_ret _ _ _ (key_answers kid)). intros l Hl.
    exact (known_served kid found l3 l Hf Hl).
  - apply (dwp_ret _ _ _ (key_answers kid)). intros l Hl k Hk.
    destruct known as [k'|]; [|done]. injection Hk as <-. destruct (Hknown k' eq_refl) as [Hs ?].
    split; [|done]. eapply served_key_mono; [|exact Hs]. etrans; [exact Hl1|]. by etrans.
Qed.

Lemma dwp_younger at_ limit tr log : pre (younger at_ limit) tr log (fun _ _ _ => True).
Proof.
  destruct at_; [|by intros ??]. apply (dwp_section _ _ _ (fun _ _ => True)). by intros ????? _ Hi [= <- <-].
Qed.

Lemma find_key_served kid tr log :
  pre (find_key config metadata_ttl jwks_ttl kid) tr log (fun r _ l => key_answers kid r l).
Proof.
  apply dwp_bind. eapply dwp_mono; cycle 1.
  { apply (dwp_section _ _ _ (fun b l => keys_served kid b.1 l)).
    intros l now st b st' _ [Hm Hk] [= <- <-]. split; [done|]. intros l' Hl' k Hf.
    apply (find_cached_served _ _ l) in Hf as [? ?]; [eauto | done]. }
  intros [known fetched] tr1 l1 Hl1 Hk. cbn beta iota in *. cbn [fst] in Hk.
  assert (forall tr l, l1 ⊆ l -> pre (DRet (known_or_unknown known)) tr l (fun r _ l => key_answers kid r l)) as Hret.
  { intros tr' l Hl. apply (dwp_ret _ _ _ (key_answers kid)). intros l' Hl'. eapply known_served; [exact Hk|].
    by etrans. }
  apply dwp_bind. eapply (dwp_mono _ _ _ _ _ (fun _ _ _ => True)); cycle 1.
  { destruct (is_null known); [by intros ?? | apply dwp_younger]. }
  intros valid tr2 l2 Hl2 _. destruct valid; [by apply Hret|].
  apply dwp_bind. eapply dwp_mono; [|apply dwp_younger]. intros recent tr3 l3 Hl3 _.
  destruct recent; [apply Hret; by etrans|].
  apply dwp_bind. eapply dwp_mono; [|by apply dwp_try_lock]. intros locked tr4 l4 Hl4 _.
  assert (l1 ⊆ l4) as Hl14 by (etrans; [exact Hl2|]; by etrans).
  assert (pre (letd _ := if locked then DRet tt else lock f_jwks_flight set_jwks_flight in
    under set_jwks_flight (refresh_keys config metadata_ttl kid known)) tr4 l4 (fun r _ l => key_answers kid r l)) as Hu.
  { apply dwp_bind. eapply (dwp_mono _ _ _ _ _ (fun _ _ _ => True)).
    - intros ? tr5 l5 Hl5 _. apply dwp_under; [eauto | apply answers_key |]. apply refresh_keys_served.
      intros k Hfk. destruct (Hk k Hfk) as [Hs ?]. split; [|done]. eapply served_key_mono; [|exact Hs]. by etrans.
    - destruct locked; [by intros ?? | by apply dwp_lock]. }
  destruct locked; [exact Hu|]. destruct known as [k|]; [|exact Hu]. by apply (Hret tr4 l4).
Qed.

(** An accepted ID token verified under a key the provider serves. *)
Definition vouched (raw nonce : text) (claims : Sso.IdClaims) (log : list exchange) : Prop :=
  exists key header kid now, served_key log key /\ Sso.key_id key = Some kid /\
    Sso.decode_header raw = Some header /\ Sso.h_kid header = Some kid /\
    Sso.verify now raw key (Sso.h_alg header) (expected config nonce) = Ok claims.

Lemma vouched_mono raw nonce claims l l' : vouched raw nonce claims l -> l ⊆ l' -> vouched raw nonce claims l'.
Proof.
  intros (key & header & kid & now & Hk & Hr) Hl. exists key, header, kid, now.
  split; [by eapply served_key_mono | done].
Qed.

Lemma verify_id_token_sound raw nonce tr log :
  pre (verify_id_token config metadata_ttl jwks_ttl raw nonce) tr log
    (fun r _ l => forall claims, r = Ok claims -> vouched raw nonce claims l).
Proof.
  unfold verify_id_token. destruct (match Sso.peek_algorithm_name raw with Some _ => _ | None => _ end);
    [by intros ??|].
  destruct (Sso.decode_header raw) as [header|] eqn:Hh; [|by intros ??].
  destruct (negb _); [by intros ??|]. destruct (Sso.h_kid header) as [kid|] eqn:Hkid; [|by intros ??].
  apply dwp_bind_ok. eapply dwp_mono; [|apply find_key_served].
  intros [key|e] tr1 l1 Hl1 Hk; cbn beta iota in *; [|done].
  intros l2 Hl2. split; [done|]. intros now _ l3 Hl3 claims Hc. apply map_err_Ok in Hc.
  destruct (Hk key eq_refl) as [Hs Hkey]. exists key, header, kid, (now / 1000000).
  split; [|by split_and!]. eapply served_key_mono; [|exact Hs]. by etrans.
Qed.

End Anchored.
