(* ===== verification/Login.v ===== *)
(** * Signing in with a password

    sms-auth/src/login.rs (the check of an e-mail and a password), and of the
    app sms-gateway console_authorize.rs (the console's request for a code) and
    login.rs ([POST /login]).  Argon2, Unicode case mapping, serde and the
    authorization endpoint are parameters. *)

From S2P Require Import Prelude Float64 SentinelList Schema ApiSchema Errors Sql Db DbLogic DbReads DbRef.
From S2P Require Import Webhook Adapter AwsProvider TokenDoor Oidc Door DoorRef DemoData.

(** ** Answers *)
Inductive AnswerBody :=
| TextBody (message : text)
| ErrorBody (error : text)
| RedirectBody (redirect : text)
| EmptyBody.

Record Answer := mkAnswer {
  an_status : Z;
  an_headers : list (text * text);
  an_body : AnswerBody }.

(** [HeaderValue::from_str]: visible ASCII and tabs. *)
Definition header_value_ok (s : text) : bool :=
  forallb (fun c => ((32 <=? c) && (c <? 127)) || (c =? 9)) s.

(** ** console_authorize.rs *)
Module ConsoleAuth.

Record ConsoleAuthorize := mkAuthorize {
  client_id : text;
  redirect_uri : text;
  response_type : text;
  scope : text;
  state : text;
  code_challenge : text;
  code_challenge_method : text;
  nonce : text }.

(** [byte.is_ascii_alphanumeric() || byte == b'-' || byte == b'_']. *)
Definition challenge_byte (c : Z) : bool :=
  is_ascii_digit c || is_ascii_alphabetic c || (c =? 45) || (c =? 95).

Definition malformed (self : ConsoleAuthorize) (redirect_uris : list text) : option text :=
  if negb (bool_decide (code_challenge_method self = lit "S256")) then Some (lit "code_challenge_method")
  else if negb ((43 <=? byte_len (code_challenge self)) && (byte_len (code_challenge self) <=? 128))
          || negb (forallb challenge_byte (code_challenge self)) then Some (lit "code_challenge")
  else if negb (bool_decide (redirect_uri self ∈ redirect_uris)) then Some (lit "redirect_uri")
  else None.

Definition authorize_json (self : ConsoleAuthorize) : Json :=
  JObject
    [ (lit "client_id", JString (client_id self)); (lit "redirect_uri", JString (redirect_uri self));
      (lit "response_type", JString (response_type self)); (lit "scope", JString (scope self));
      (lit "state", JString (state self)); (lit "code_challenge", JString (code_challenge self));
      (lit "code_challenge_method", JString (code_challenge_method self));
      (lit "nonce", JString (nonce self)) ].

Definition authorize_request `{O : OpLib} (self : ConsoleAuthorize) : option AuthorizeRequest :=
  authorize_request_of (authorize_json self).

Definition redirect_carries_an_error `{R : ReqwestLib} `{U : !Sso.UrlHosts} (redirect : text) : bool :=
  match url_parse redirect with
  | Ok u =>
      let has name := existsb (fun kv => bool_decide (kv.1 = name)) (Sso.query_pairs u) in
      has (lit "error") || negb (has (lit "code"))
  | Err _ => true
  end.

(** A request for a code: bound to a challenge, and sent back only to an
    address that is registered. *)
Definition well_formed (self : ConsoleAuthorize) (redirect_uris : list text) : Prop :=
  code_challenge_method self = lit "S256" /\ 43 <= byte_len (code_challenge self) <= 128 /\
  forallb challenge_byte (code_challenge self) = true /\ redirect_uri self ∈ redirect_uris.

Lemma malformed_none self uris : malformed self uris = None <-> well_formed self uris.
Proof.
  unfold malformed, well_formed.
  destruct (bool_decide_reflect (code_challenge_method self = lit "S256")) as [Hm|Hm]; cbn [negb];
    [|split; [done | by intros [? _]]].
  destruct (Z.leb_spec 43 (byte_len (code_challenge self))), (Z.leb_spec (byte_len (code_challenge self)) 128),
    (forallb challenge_byte (code_challenge self)); cbn [andb negb orb];
    try (split; [done | intros (_ & ? & ? & _); (lia || done)]).
  destruct (bool_decide_reflect (redirect_uri self ∈ uris)); cbn [negb]; split; try done.
  by intros (_ & _ & _ & ?).
Qed.

End ConsoleAuth.

(** ** sms-auth/src/login.rs *)
Module Login.

Definition NO_SUCH_USER_ID : text := lit "no-such-user".

Record AuthenticatedUser := mkAuthenticated {
  subject : text;
  email : text;
  display_name : text;
  role_key : text;
  permissions : list text;
  version : Z }.

Inductive LoginError `{E : CratestackErrors} :=
| InvalidCredentials
| RoleNotFound (subject role_key : text)
| Unavailable (source : CratestackError).

(** ** The gateway's login.rs *)
Definition MAX_EMAIL_KEY_BYTES : Z := 254.
Definition PROVIDER_ID : text := lit "sms-console".
Definition AGGREGATE_KEY : text := lit "login-aggregate".

Record LoginRequest := mkLoginRequest {
  lr_email : text;
  lr_password : text;
  lr_console : ConsoleAuth.ConsoleAuthorize }.

Record Limiter := mkLimiter {
  per_email : RateLimitConfig;
  aggregate : RateLimitConfig }.

Inductive Admission := AdmissionAllowed | AdmissionThrottled (retry_after_secs : Z) | AdmissionUnavailable.

Record LoginState := mkLoginState {
  console_client_id : text;
  redirect_uris : list text;
  limiter : Limiter }.

(** [truncate] at the last character boundary within the limit. *)
Fixpoint truncate_bytes (limit : Z) (s : text) : text :=
  match s with
  | [] => []
  | c :: r => if len_utf8 c <=? limit then c :: truncate_bytes (limit - len_utf8 c) r else []
  end.

Definition failure (status : Z) (error : text) (more : list (text * text)) : Answer :=
  mkAnswer status ((lit "Cache-Control", lit "no-store") :: more) (ErrorBody error).

Definition refused : Answer := failure 401 (lit "invalid_credentials") [].

Definition retry_after (secs : Z) : list (text * text) :=
  if header_value_ok (show_Z secs) then [(lit "Retry-After", show_Z secs)] else [].

Section Login.

Context `{E : CratestackErrors} `{O : OpLib} `{R : ReqwestLib} `{U : !Sso.UrlHosts} {F : Type}.

(** Argon2's check of a password against a stored hash, the hash this process
    made of a password nobody knows, and [str::to_lowercase]. *)
Variables (verify_password : text -> text -> bool) (dummy_hash : text) (to_lowercase : text -> text).

Abbreviation handler := (door (F := F)).

Definition user_by_email (email : text) : query TUser :=
  mkQuery (t := TUser) (fun u => bool_decide (u.(User.email) = email) && u.(User.active)) [] (Some 1).

Definition credential_of (user_id : text) : query TCredential :=
  mkQuery (t := TCredential) (fun c => bool_decide (c.(UserCredential.userId) = user_id)) [] (Some 1).

Definition role_by_key (key : text) : query TRole :=
  mkQuery (t := TRole) (fun r => bool_decide (r.(Role.key) = key)) [] (Some 1).

(** Always two reads. *)
Definition find_active_user (email : text) : prog (result (option (User.t * text)) LoginError) :=
  let!? user_row := pmap_err Unavailable (first_row (user_by_email email)) in
  let looked_up := match user_row with Some row => row.(User.id) | None => NO_SUCH_USER_ID end in
  let!? credential := pmap_err Unavailable (first_row (credential_of looked_up)) in
  Ret (Ok match user_row, credential with
          | Some row, Some credential => Some (row, credential.(UserCredential.passwordHash))
          | _, _ => None
          end).

Definition find_role (role_key : text) : prog (result (option Role.t) LoginError) :=
  pmap_err Unavailable (first_row (role_by_key role_key)).

(** Once the password has been checked. *)
Definition conclude (candidate : option (User.t * text)) (password_ok : bool)
  : handler (result AuthenticatedUser LoginError) :=
  match candidate with
  | None => DRet (Err InvalidCredentials)
  | Some (user_row, _) =>
      if negb password_ok then DRet (Err InvalidCredentials)
      else
        letd? role_row := embed (find_role user_row.(User.roleKey)) in
        DRet match role_row with
             | None => Err (RoleNotFound user_row.(User.id) user_row.(User.roleKey))
             | Some role_row =>
                 Ok (mkAuthenticated user_row.(User.id) user_row.(User.email) user_row.(User.displayName)
                       role_row.(Role.key) (unpack role_row.(Role.permissions)) user_row.(User.version))
             end
  end.

Definition authenticate_user (email password : text) : handler (result AuthenticatedUser LoginError) :=
  letd? candidate := embed (find_active_user email) in
  let stored_hash := match candidate with Some (_, hash) => hash | None => dummy_hash end in
  letd verified := ask (Blocking (verify_password password stored_hash)) in
  conclude candidate (default false verified).

(** Under the version the account was read at; a failure does not matter. *)
Definition stamp_last_login (user : AuthenticatedUser) : prog unit :=
  let! now := do Now in
  let! _ := do (Update TUser (subject user) [User.SetLastLoginAt (Some now)] (version user)) in
  Ret tt.

Definition email_key (email : text) : text :=
  let normalised := to_lowercase (trim email) in
  lit "login-email:" ++
    (if MAX_EMAIL_KEY_BYTES <? byte_len normalised then truncate_bytes MAX_EMAIL_KEY_BYTES normalised
     else normalised).

Fixpoint admission (buckets : list (text * RateLimitConfig)) : handler Admission :=
  match buckets with
  | [] => DRet AdmissionAllowed
  | (key, config) :: rest =>
      letd decision := ask (Consume key config) in
      match decision with
      | Ok Allowed => admission rest
      | Ok (Throttled retry_after_secs) => DRet (AdmissionThrottled retry_after_secs)
      | Err _ => DRet AdmissionUnavailable
      end
  end.

(** [Limiter::admit]. *)
Definition admission_of (self : Limiter) (email : text) : handler Admission :=
  admission [(email_key email, per_email self); (AGGREGATE_KEY, aggregate self)].

Definition identity_of (user : AuthenticatedUser) : Identity :=
  mkIdentity PROVIDER_ID (subject user) (Some (email user)) (Some (display_name user)).

(** From a right password on. *)
Definition issue_code (request : LoginRequest) (authenticated : AuthenticatedUser) : handler Answer :=
  match ConsoleAuth.authorize_request (lr_console request) with
  | None => DRet (failure 500 (lit "internal_error") [])
  | Some authorize_request =>
      letd outcome := ask (Authorize ServedStore authorize_request (identity_of authenticated)) in
      match outcome with
      | RedirectTo url =>
          if ConsoleAuth.redirect_carries_an_error url then
            DRet (failure 400 (lit "invalid_request") [])
          else
            letd _ := embed (stamp_last_login authenticated) in
            DRet (mkAnswer 200 [(lit "Cache-Control", lit "no-store")] (RedirectBody url))
      | DirectError _ => DRet (failure 400 (lit "invalid_request") [])
      end
  end.

(** [None] is a body that is not a login request. *)
Definition login_handler (st : LoginState) (body : option LoginRequest) : handler Answer :=
  match body with
  | None => DRet (failure 400 (lit "invalid_request") [])
  | Some request =>
      if negb (bool_decide (ConsoleAuth.client_id (lr_console request) = console_client_id st)) then
        DRet refused
      else
        match ConsoleAuth.malformed (lr_console request) (redirect_uris st) with
        | Some _ => DRet (failure 400 (lit "invalid_request") [])
        | None =>
            letd admitted := admission_of (limiter st) (lr_email request) in
            match admitted with
            | AdmissionThrottled secs =>
                DRet (failure 429 (lit "rate_limited") (retry_after secs))
            | AdmissionUnavailable => DRet (failure 503 (lit "unavailable") [])
            | AdmissionAllowed =>
                letd outcome := authenticate_user (lr_email request) (lr_password request) in
                match outcome with
                | Err (InvalidCredentials | RoleNotFound _ _) => DRet refused
                | Err (Unavailable _) => DRet (failure 503 (lit "unavailable") [])
                | Ok authenticated => issue_code request authenticated
                end
            end
        end
  end.

End Login.

End Login.

(** ** Who is given a code *)
Section Issues.

Import Login.

Context `{E : CratestackErrors} `{O : OpLib} `{R : ReqwestLib} `{U : !Sso.UrlHosts} {F : Type} `{B : !Backend}.
Variables (verify_password : text -> text -> bool) (dummy_hash : text) (to_lowercase : text -> text).

Abbreviation events := (list (devent (F := F))).
Abbreviation anything := (fun (_ : list exchange) (_ : Z) (_ : F) => True).

(** The account behind an address, with the hash it has stored. *)
Definition candidate (email : text) (u : User.t) (hash : text) (tr : trace) : Prop :=
  known tr TUser u /\ u.(User.email) = email /\ u.(User.active) = true /\
  exists c, known tr TCredential c /\ c.(UserCredential.userId) = u.(User.id) /\
    c.(UserCredential.passwordHash) = hash.

(** What has to have happened before a code is asked for. *)
Definition may_issue (st : LoginState) (body : option LoginRequest)
  (store : CodeStore) (code_request : AuthorizeRequest) (identity : Identity) (tr : events)
  (_ : list exchange) : Prop :=
  store = ServedStore /\ exists request, body = Some request /\
    ConsoleAuth.authorize_request (lr_console request) = Some code_request /\
    ConsoleAuth.client_id (lr_console request) = console_client_id st /\
    ConsoleAuth.well_formed (lr_console request) (redirect_uris st) /\
    DEv (Consume (email_key to_lowercase (lr_email request)) (per_email (limiter st))) (Ok Allowed) ∈ tr /\
    DEv (Consume AGGREGATE_KEY (aggregate (limiter st))) (Ok Allowed) ∈ tr /\
    exists u hash role, candidate (lr_email request) u hash (db_trace tr) /\
      verify_password (lr_password request) hash = true /\
      known (db_trace tr) TRole role /\ role.(Role.key) = u.(User.roleKey) /\
      identity = mkIdentity PROVIDER_ID u.(User.id) (Some u.(User.email)) (Some u.(User.displayName)).

(** A redirect is the answer of the endpoint, and carries no error. *)
Definition answers_code (a : Answer) (tr : events) : Prop :=
  forall url, an_body a = RedirectBody url ->
    an_status a = 200 /\ ConsoleAuth.redirect_carries_an_error url = false /\
    exists code_request identity,
      DEv (Authorize ServedStore code_request identity) (RedirectTo url) ∈ tr.

Lemma find_active_user_wp email tr :
  wp (Login.find_active_user email) tr
    (fun r tr' => forall u hash, r = Ok (Some (u, hash)) -> candidate email u hash tr').
Proof.
  apply wp_ok_bind, wp_pmap_err, (wp_first_row (t := TUser)).
  - intros u rows Hq _ Hk. cbn in Hq. split_and_bool. cbn [map_err].
    apply wp_ok_bind, wp_pmap_err, (wp_first_row (t := TCredential)).
    + intros c rows' Hq' _ Hk'. cbn in Hq'. split_and_bool. intros u' h [= <- <-].
      split; [by apply known_cons|]. split; [done|]. split; [done|]. by exists c.
    + done.
    + done.
  - cbn [map_err]. apply wp_ok_bind, wp_pmap_err, (wp_first_row (t := TCredential)); done.
  - done.
Qed.

Lemma find_role_wp key tr :
  wp (Login.find_role key) tr
    (fun r tr' => forall role, r = Ok (Some role) -> known tr' TRole role /\ role.(Role.key) = key).
Proof.
  apply wp_pmap_err, (wp_first_row (t := TRole)); [|done|done]. intros role rows Hq _ Hk. cbn in Hq. split_and_bool.
  by intros ? [= <-].
Qed.

Lemma db_trace_app (l tr : events) : db_trace (l ++ tr) = db_trace l ++ db_trace tr.
Proof. apply omap_app. Qed.

Lemma candidate_app l email u hash tr : candidate email u hash tr -> candidate email u hash (l ++ tr).
Proof.
  intros (Hk & He & Ha & c & Hc & Hr). split; [by apply known_app|]. split; [done|]. split; [done|].
  exists c. split; [by apply known_app | done].
Qed.

(** An authenticated person: an active account whose stored hash the password
    matches, and a role that exists. *)
Definition authenticated_as (email password : text) (who : AuthenticatedUser) (tr : trace) : Prop :=
  exists u hash role, candidate email u hash tr /\ verify_password password hash = true /\
    known tr TRole role /\ role.(Role.key) = u.(User.roleKey) /\
    who = mkAuthenticated u.(User.id) u.(User.email) u.(User.displayName) role.(Role.key)
            (unpack role.(Role.permissions)) u.(User.version).

Lemma conclude_sound G email password found ok (tr : events) log :
  (forall u hash, found = Some (u, hash) -> candidate email u hash (db_trace tr) /\
     (ok = true -> verify_password password hash = true)) ->
  dwp anything G (conclude found ok) tr log
    (fun r tr' _ => (exists l, tr' = l ++ tr) /\
       forall who, r = Ok who -> authenticated_as email password who (db_trace tr')).
Proof.
  intros Hf. destruct found as [[u hash]|]; [|intros l _; split; [by exists [] | done]].
  destruct (Hf u hash eq_refl) as [Hc Hok]. cbn [conclude].
  destruct ok; cbn [negb]; [|intros l _; split; [by exists [] | done]].
  apply dwp_bind_ok. eapply dwp_mono; [|apply dwp_reads, find_role_wp]. cbn beta.
  intros r1 tr1 l1 _ [Hr (e1 & ->)]. destruct r1 as [[role|]|e]; intros l _; (split; [by eexists|]); try done.
  intros who [= <-]. destruct (Hr role eq_refl) as [Hk Hkey]. exists u, hash, role.
  split; [rewrite db_trace_app; by apply candidate_app|]. split; [by apply Hok | done].
Qed.

Lemma authenticate_user_sound G email password (tr : events) log :
  dwp anything G (authenticate_user verify_password dummy_hash email password) tr log
    (fun r tr' _ => (exists l, tr' = l ++ tr) /\
       forall who, r = Ok who -> authenticated_as email password who (db_trace tr')).
Proof.
  apply dwp_bind_ok. eapply dwp_mono; [|apply dwp_reads, find_active_user_wp]. cbn beta.
  intros r1 tr1 l1 _ [Hc (e1 & ->)]. destruct r1 as [found|e]; [|intros l _; split; [by eexists | done]].
  assert (forall e ok, (ok = true -> verify_password password
      (match found with Some (_, hash) => hash | None => dummy_hash end) = true) -> db_event e = None ->
    forall l, dwp anything G (conclude found ok) (e :: (of_event <$> e1) ++ tr) l
      (fun r tr' _ => (exists l, tr' = l ++ tr) /\
        forall who, r = Ok who -> authenticated_as email password who (db_trace tr'))) as Hgo.
  { intros e ok Hok He l. eapply dwp_mono; [|apply (conclude_sound _ email password)].
    - intros r tr' l' _ [(l0 & ->) Hr]. split; [|done]. exists (l0 ++ e :: (of_event <$> e1)).
      by rewrite <- (assoc_L (++)).
    - intros u hash ->. split; [|exact Hok]. unfold db_trace. cbn [omap list_omap]. rewrite He. by apply Hc. }
  intros l2 _. split; apply Hgo; done.
Qed.

Lemma login_stamp_wp who u tr :
  known tr TUser u -> subject who = u.(User.id) -> version who = u.(User.version) ->
  wp (stamp_last_login who) tr (fun _ _ => True).
Proof.
  intros Hk Hs Hv. apply wp_now. intros now. rewrite Hs, Hv.
  apply (wp_update TUser u); [by apply known_cons | | |]; [by eexists | done | done].
Qed.

Lemma issue_code_sound st request who (tr : events) log :
  (forall code_request, ConsoleAuth.authorize_request (lr_console request) = Some code_request ->
     forall l, may_issue st (Some request) ServedStore code_request (identity_of who) tr l) ->
  authenticated_as (lr_email request) (lr_password request) who (db_trace tr) ->
  dwp anything (may_issue st (Some request)) (issue_code request who) tr log
    (fun a tr' _ => answers_code a tr').
Proof.
  intros Hmay Hwho. unfold issue_code.
  destruct (ConsoleAuth.authorize_request (lr_console request)) as [code_request|] eqn:Hreq; [|by intros l _ url].
  intros l1 _. split; [by apply Hmay|]. intros r. destruct r as [url|e]; [|by intros l _ url].
  cbn [dbind]. destruct (ConsoleAuth.redirect_carries_an_error url) eqn:Herr; [by intros l _ url'|].
  destruct Hwho as (u & hash & role & (Hk & _) & _ & _ & _ & ->).
  apply dwp_bind. eapply dwp_mono; [|apply dwp_reads, (login_stamp_wp _ u); done].
  cbn beta. intros _ tr' l2 _ [_ (l0 & ->)] l3 _ url' [= <-]. split; [done|]. split; [done|].
  exists code_request. eexists. apply elem_of_app. right. by left.
Qed.

Lemma login_handler_sound st body :
  dwp anything (may_issue st body) (login_handler verify_password dummy_hash to_lowercase st body) [] []
    (fun a tr _ => answers_code a tr).
Proof.
  destruct body as [request|]; [|by intros l _ url]. cbn [login_handler].
  destruct (bool_decide_reflect (ConsoleAuth.client_id (lr_console request) = console_client_id st)) as [Hid|];
    cbn [negb]; [|by intros l _ url].
  destruct (ConsoleAuth.malformed (lr_console request) (redirect_uris st)) as [field|] eqn:Hm; [by intros ? _ url|].
  apply ConsoleAuth.malformed_none in Hm.
  unfold admission_of. cbn [admission]. intros l1 _ r1.
  destruct r1 as [[|secs]|]; [|by intros ? _ url|by intros ? _ url].
  intros l2 _ r2. destruct r2 as [[|secs]|]; [|by intros ? _ url|by intros ? _ url].
  cbn [dbind]. apply dwp_bind. eapply dwp_mono; [|apply authenticate_user_sound]. cbn beta.
  intros r tr l3 _ [(l & ->) Hr]. destruct r as [who|[| |]]; try (by intros l' _ url).
  specialize (Hr who eq_refl). apply issue_code_sound; [|done].
  intros code_request Hreq l'. split; [done|]. exists request. split; [done|]. split; [done|]. split; [done|]. split; [done|].
  split; [set_solver|]. split; [set_solver|].
  destruct Hr as (u & hash & role & Hc & Hv & Hk & Hkey & ->). exists u, hash, role.
  split; [done|]. split; [done|]. split; [done|]. by split.
Qed.

(** ** What a guess looks like *)
Inductive kind := ReadsTable (t : tbl) | UsesDatabase | UsesNetwork | UsesFields | UsesLimiter | ChecksHash | AsksCode.

Definition kind_of (e : devent (F := F)) : kind :=
  match e with
  | DEv (OnDb (FindMany t _)) _ => ReadsTable t
  | DEv (OnDb _) _ => UsesDatabase
  | DEv (Fetch _) _ => UsesNetwork
  | DEv (Critical _) _ => UsesFields
  | DEv (Consume _ _) _ => UsesLimiter
  | DEv (Blocking _) _ => ChecksHash
  | DEv (Authorize _ _ _) _ => AsksCode
  end.

(** In the order they were made, the last first. *)
Definition guess : list kind :=
  [ChecksHash; ReadsTable TCredential; ReadsTable TUser; UsesLimiter; UsesLimiter].

(** A refusal does the same whether there is no such account, no password for
    it, or another password; only the right password of an account whose role is
    gone does more. *)
Definition tells_nothing (request : LoginRequest) (a : Answer) (tr : events) : Prop :=
  (kind_of <$> tr = guess -> a = refused) /\
  (a = refused -> kind_of <$> tr = guess \/
     kind_of <$> tr = ReadsTable TRole :: guess /\
     exists u hash, candidate (lr_email request) u hash (db_trace tr) /\
       verify_password (lr_password request) hash = true).

Abbreviation allowed := (fun (_ : CodeStore) (_ : AuthorizeRequest) (_ : Identity) (_ : events)
  (_ : list exchange) => True).

Lemma find_active_user_calls email tr :
  wp (Login.find_active_user email) tr (fun r tr' =>
    match r with
    | Ok found => exists q q' rows rows',
        tr' = Ev (FindMany TCredential q') rows' :: Ev (FindMany TUser q) rows :: tr
    | Err e => exists what t q rows tr'', e = Unavailable what /\ tr' = Ev (FindMany t q) rows :: tr''
    end).
Proof.
  apply wp_ok_bind, wp_pmap_err, (wp_first_row (t := TUser)); cbn [map_err].
  - intros u rows _ _ _. apply wp_ok_bind, wp_pmap_err, (wp_first_row (t := TCredential)); cbn [map_err wp].
    + intros c rows' _ _ _. by do 4 eexists.
    + by do 4 eexists.
    + intros e. by do 5 eexists.
  - apply wp_ok_bind, wp_pmap_err, (wp_first_row (t := TCredential)); cbn [map_err wp].
    + intros c rows' _ _ _. by do 4 eexists.
    + by do 4 eexists.
    + intros e. by do 5 eexists.
  - intros e. by do 5 eexists.
Qed.

Lemma find_role_calls key tr :
  wp (Login.find_role key) tr (fun r tr' =>
    (exists q rows, tr' = Ev (FindMany TRole q) rows :: tr) /\ forall e, r = Err e -> exists what, e = Unavailable what).
Proof.
  apply wp_pmap_err, (wp_first_row (t := TRole)); cbn [map_err].
  - intros role rows _ _ _. split; [by do 2 eexists | done].
  - split; [by do 2 eexists | done].
  - intros e. split; [by do 2 eexists|]. intros ? [= <-]. by eexists.
Qed.

(** A longer trace, or another last call, is not a guess. *)
Lemma not_a_guess request a (tr : events) : an_status a <> 401 -> kind_of <$> tr <> guess ->
  tells_nothing request a tr.
Proof. intros Ha Ht. split; [done | by intros ->]. Qed.

Lemma issue_code_calls request who (tr : events) log :
  (5 < length tr)%nat -> wp (stamp_last_login who) (db_trace tr) (fun _ _ => True) ->
  dwp anything allowed (issue_code request who) tr log (fun a tr' _ => tells_nothing request a tr').
Proof.
  intros Htr Hst. assert (forall l, kind_of <$> (l ++ tr) <> guess) as Hlong.
  { intros l Hk. apply (f_equal length) in Hk. rewrite length_fmap, length_app in Hk. cbn in Hk. lia. }
  unfold issue_code. destruct (ConsoleAuth.authorize_request (lr_console request)) as [code_request|];
    [|intros l _; by apply not_a_guess, (Hlong [])].
  intros l1 _. split; [done|]. intros r. destruct r as [url|e]; [|intros l _; by apply not_a_guess, (Hlong [_])].
  cbn [dbind]. destruct (ConsoleAuth.redirect_carries_an_error url); [intros l _; by apply not_a_guess, (Hlong [_])|].
  apply dwp_bind. eapply dwp_mono; [|apply dwp_reads, Hst].
  cbn beta. intros _ tr' l2 _ [_ (l0 & ->)] l3 _. apply not_a_guess; [done|]. rewrite cons_middle, (assoc_L (++)).
  apply Hlong.
Qed.

Lemma conclude_calls request found ok (tr : events) log :
  kind_of <$> tr = guess ->
  (forall u hash, found = Some (u, hash) -> candidate (lr_email request) u hash (db_trace tr) /\
     (ok = true -> verify_password (lr_password request) hash = true)) ->
  dwp anything allowed (conclude found ok) tr log (fun outcome tr' log' =>
    dwp anything allowed
      match outcome with
      | Err (InvalidCredentials | RoleNotFound _ _) => DRet refused
      | Err (Unavailable _) => DRet (failure 503 (lit "unavailable") [])
      | Ok authenticated => issue_code request authenticated
      end tr' log' (fun a tr' _ => tells_nothing request a tr')).
Proof.
  intros Hk Hf.
  assert (tells_nothing request refused tr) as Hstop by (split; auto).
  destruct found as [[u hash]|]; [|intros l _ l' _; exact Hstop]. destruct (Hf u hash eq_refl) as [Hc Hok]. cbn [conclude].
  destruct ok; cbn [negb]; [|intros l _ l' _; exact Hstop]. apply dwp_bind_ok.
  eapply dwp_mono; [|apply dwp_reads, wp_and; [apply find_role_calls | apply find_role_wp]]. cbn beta.
  intros r tr1 l1 _ [[[(q & rows & Htr) He] Hr] (l & ->)].
  rewrite db_trace_of_events in Htr. apply (app_inv_tail _ _ [_]) in Htr as ->.
  assert (length tr = 5)%nat as Hlen by (apply (f_equal length) in Hk; by rewrite length_fmap in Hk).
  assert (kind_of <$> ((of_event <$> [Ev (FindMany TRole q) rows]) ++ tr) = ReadsTable TRole :: guess) as Hk'
    by (cbn; by rewrite Hk).
  destruct r as [[role|]|e].
  - intros l2 _. apply issue_code_calls; [cbn; lia|].
    apply (login_stamp_wp _ u); [|done|done]. destruct Hc as [Hc _]. by apply known_cons.
  - intros l2 _ l3 _. split; [rewrite Hk'; done|]. intros _. right. split; [done|]. exists u, hash.
    split; [|by apply Hok]. by apply (candidate_app [_]).
  - destruct (He e eq_refl) as (what & ->). intros l2 _ l3 _. apply not_a_guess; [done|]. by rewrite Hk'.
Qed.

Lemma login_handler_calls st request :
  ConsoleAuth.client_id (lr_console request) = console_client_id st ->
  ConsoleAuth.well_formed (lr_console request) (redirect_uris st) ->
  dwp anything allowed (login_handler verify_password dummy_hash to_lowercase st (Some request)) [] []
    (fun a tr _ => tells_nothing request a tr).
Proof.
  intros Hid Hm%ConsoleAuth.malformed_none. cbn [login_handler]. rewrite bool_decide_eq_true_2, Hm by done.
  unfold admission_of. cbn [negb admission].
  intros l1 _ r1. destruct r1 as [[|secs]|]; [|intros ? _; by apply not_a_guess..].
  intros l2 _ r2. destruct r2 as [[|secs]|]; [|intros ? _; by apply not_a_guess..].
  cbn [dbind]. unfold authenticate_user. apply dwp_bind, dwp_bind_ok.
  eapply dwp_mono; [|apply dwp_reads, wp_and; [apply find_active_user_calls | apply find_active_user_wp]].
  cbn beta. intros r tr1 l3 _ [[Hcalls Hc] (l & ->)].
  rewrite db_trace_of_events in Hcalls. cbn [db_trace omap list_omap db_event] in Hcalls. rewrite app_nil_r in Hcalls.
  destruct r as [found|e].
  - destruct Hcalls as (q & q' & rows & rows' & ->). intros l4 _.
    split; (apply conclude_calls; [done|]); intros u hash ->; (split; [by apply Hc | done]).
  - destruct Hcalls as (what & t & q & rows & tr'' & -> & ->). intros l4 _ l5 _. by apply not_a_guess.
Qed.

Section Theorems.

Variable drops : F -> F -> Prop.

(** The gateway's logins, side by side. *)
Definition logins (st : LoginState) (bodies : list (option LoginRequest)) (s : dstate) : dpool F Answer :=
  ((fun body => (login_handler verify_password dummy_hash to_lowercase st body, [])) <$> bodies, s).

(** C18. A code for the console is asked for only for a request that names the
    console, is bound to a challenge and goes back to a registered address,
    after both rate limits let it through, for an active account of that
    e-mail whose stored hash the password matches and whose role exists, and
    under that account's identity; and a sign-in is answered with a redirect
    only when the endpoint gave a code. However the logins interleave with one
    another and with other writers of the database. *)
Theorem login_issues st bodies s y i body p tr :
  world_ok (d_world s) -> rtc (dpool_step drops) (logins st bodies s) y ->
  bodies !! i = Some body -> y.1 !! i = Some (p, tr) ->
  (forall after store code_request identity r before,
     tr = after ++ DEv (Authorize store code_request identity) r :: before ->
     may_issue st body store code_request identity before (d_log y.2)) /\
  (forall a, p = DRet a -> answers_code a tr).
Proof.
  intros Hok Hr Hb Hy.
  exact (started_sound drops anything _ bodies (may_issue st) (fun _ a tr _ => answers_code a tr) s y i body p tr
    (fun _ _ _ _ _ _ _ _ => I) (fun _ _ _ _ _ _ => I) (fun _ _ _ _ _ _ _ H _ => H)
    (login_handler_sound st) Hok I Hr Hb Hy).
Qed.

(** C22. What a refused login does, and answers, does not depend on whether the
    account exists, has a password, or has another one: two limits, two reads
    and one hash are spent on each. *)
Theorem login_uniform st bodies s y i request a tr :
  world_ok (d_world s) -> rtc (dpool_step drops) (logins st bodies s) y ->
  bodies !! i = Some (Some request) -> y.1 !! i = Some (DRet a, tr) ->
  ConsoleAuth.client_id (lr_console request) = console_client_id st ->
  ConsoleAuth.malformed (lr_console request) (redirect_uris st) = None ->
  tells_nothing request a tr.
Proof.
  intros Hok Hr Hb Hy Hid Hm%ConsoleAuth.malformed_none.
  pose (Q := fun body (a : Answer) (tr : events) (_ : list exchange) => forall request, body = Some request ->
    ConsoleAuth.client_id (lr_console request) = console_client_id st ->
    ConsoleAuth.well_formed (lr_console request) (redirect_uris st) -> tells_nothing request a tr).
  assert (forall body, dwp anything allowed
    (login_handler verify_password dummy_hash to_lowercase st body) [] [] (Q body)) as Hw.
  { intros [r|]; [|by intros l _ ? [=]].
    destruct (decide (ConsoleAuth.client_id (lr_console r) = console_client_id st)) as [Hc|Hc].
    - destruct (ConsoleAuth.malformed (lr_console r) (redirect_uris st)) as [field|] eqn:Hf.
      + cbn [login_handler]. rewrite bool_decide_eq_true_2, Hf by done.
        intros l _ ? [= <-] _ Hwf. apply ConsoleAuth.malformed_none in Hwf. by rewrite Hf in Hwf.
      + apply ConsoleAuth.malformed_none in Hf. eapply dwp_mono; [|by apply login_handler_calls].
        by intros a' tr' l _ Ht ? [= <-] _ _.
    - cbn [login_handler]. rewrite bool_decide_eq_false_2 by done. by intros l _ ? [= <-] Hc'. }
  destruct (started_sound drops anything _ bodies (fun _ => allowed) Q s y i (Some request) (DRet a) tr
    (fun _ _ _ _ _ _ _ _ => I) (fun _ _ _ _ _ _ => I) (fun _ _ _ _ _ _ _ H _ => H) Hw Hok I Hr Hb Hy) as [_ Ha].
  by apply (Ha a eq_refl).
Qed.

End Theorems.

End Issues.

(** ** Examples *)
Module LoginExamples.

Import Login.

#[local] Existing Instance demo_errors.
#[local] Existing Instance demo_op.
#[local] Existing Instance demo_reqwest.
#[local] Existing Instance demo_hosts.

Definition demo_console : ConsoleAuth.ConsoleAuthorize :=
  ConsoleAuth.mkAuthorize (lit "console") (lit "https://console.test/callback") (lit "code") (lit "openid")
    (lit "xyz") (repeat 65 43) (lit "S256") (lit "n-1").

Definition demo_request (password : text) : LoginRequest :=
  mkLoginRequest (lit "ada@vsms.test") password demo_console.

Definition demo_rate : RateLimitConfig := mkRateLimit 5 f64_zero.

Definition demo_login : LoginState :=
  mkLoginState (lit "console") [lit "https://console.test/callback"] (mkLimiter demo_rate demo_rate).

Definition demo_user : User.t :=
  User.mk (lit "u1") 0 0 (lit "u1") (lit "ada@vsms.test") (lit "Ada") (lit "operator") true None false None 0.

Definition demo_world : world :=
  insert_row (insert_row (insert_row empty_world TUser demo_user)
    TCredential (UserCredential.mk (lit "c1") 0 0 (lit "u1") (lit "hash of secret")))
    TRole (Role.mk (lit "r1") 0 0 (lit "operator") (lit "Operator") None true [] 0).

Definition demo_verify (password hash : text) : bool := bool_decide (hash = lit "hash of " ++ password).

Definition demo_issuer : door_oracle :=
  mkDoorOracle accepting (fun _ => Err (mkTransport true false false []))
    (fun _ _ _ => RedirectTo (lit "https://console.test/callback?code=abc&state=xyz")).

Definition demo_state : dstate (F := unit) := mkDState demo_world 0 tt [].

Definition demo_run (password : text) :=
  door_run demo_issuer (login_handler demo_verify (lit "hash of nothing") id demo_login (Some (demo_request password)))
    [] demo_state.

Definition demo_events (password : text) := (demo_run password).1.2.

Lemma demo_world_ok : world_ok demo_world.
Proof. unfold demo_world. auto 10 with vsms. Qed.

Lemma login_issues_witness :
  may_issue (F := unit) demo_verify id demo_login (Some (demo_request (lit "secret"))) ServedStore
    (ConsoleAuth.authorize_json demo_console)
    (mkIdentity PROVIDER_ID (lit "u1") (Some (lit "ada@vsms.test")) (Some (lit "Ada")))
    (drop 3 (demo_events (lit "secret"))) [] /\
  answers_code (mkAnswer 200 [(lit "Cache-Control", lit "no-store")]
    (RedirectBody (lit "https://console.test/callback?code=abc&state=xyz"))) (demo_events (lit "secret")).
Proof.
  destruct (login_issues (B := ref_backend accepting) demo_verify (lit "hash of nothing") id (fun _ _ => False)
    demo_login [Some (demo_request (lit "secret"))] demo_state _ 0 _
    (demo_run (lit "secret")).1.1 (demo_events (lit "secret")) demo_world_ok
    (door_run_steps demo_issuer _ _ [] demo_state) eq_refl) as [H1 H2].
  - vm_compute. reflexivity.
  - split.
    + apply (H1 (take 2 (demo_events (lit "secret"))) _ _ _
        (RedirectTo (lit "https://console.test/callback?code=abc&state=xyz"))). vm_compute. reflexivity.
    + apply H2. vm_compute. reflexivity.
Defined.

(** A wrong password. *)
Lemma login_uniform_witness :
  ConsoleAuth.malformed demo_console (redirect_uris demo_login) = None /\
  kind_of <$> demo_events (lit "guessed") = guess /\
  tells_nothing demo_verify (demo_request (lit "guessed")) refused (demo_events (lit "guessed")).
Proof.
  split; [vm_compute; reflexivity|]. split; [vm_compute; reflexivity|].
  apply (login_uniform (B := ref_backend accepting) demo_verify (lit "hash of nothing") id (fun _ _ => False)
    demo_login [Some (demo_request (lit "guessed"))] demo_state _ 0 (demo_request (lit "guessed"))
    refused (demo_events (lit "guessed")) demo_world_ok
    (door_run_steps demo_issuer _ _ [] demo_state) eq_refl); vm_compute; reflexivity.
Defined.

End LoginExamples.
