(* ===== verification/SsoDoor.v ===== *)
(** * Single sign-on

    sms-auth/src/sso/flow.rs and the gateway's sso.rs: [GET /login/sso/start]
    sends the browser to the identity provider, [GET /login/sso/callback] takes
    it back and gives it a code for the console.  serde's reading and writing of
    the console's request is a parameter. *)

From S2P Require Import Prelude Float64 SentinelList Schema ApiSchema Errors Sql Db DbLogic DbReads DbRef.
From S2P Require Import Webhook Adapter AwsProvider TokenDoor Oidc SsoStore Door SsoProvider DoorRef DemoData Login.

Module SsoDoor.

(** ** flow.rs *)
Inductive Completed := SignedIn (user : SsoStore.ResolvedUser) | RetryWithPromptLogin.

(** ** The gateway's sso.rs *)
Definition MAX_PARAM_LEN : Z := 1024.
Definition MAX_CODE_LEN : Z := 4096.
Definition REAPER_BATCH : Z := 500.
Definition START_BUCKET : text := lit "sso:start".
Definition CALLBACK_BUCKET : text := lit "sso:callback".

Record SsoState := mkSsoState {
  ss_provider : Sso.SsoConfig;
  ss_metadata_ttl : Z;
  ss_jwks_ttl : Z;
  ss_console_client_id : text;
  ss_redirect_uris : list text;
  ss_rate : RateLimitConfig }.

Record StartQuery := mkStartQuery {
  q_client_id : option text;
  q_redirect_uri : option text;
  q_response_type : option text;
  q_scope : option text;
  q_state : option text;
  q_nonce : option text;
  q_code_challenge : option text;
  q_code_challenge_method : option text }.

(** [value.filter(|value| !value.is_empty() && value.len() <= limit)]. *)
Definition within (limit : Z) (value : option text) : option text :=
  match value with
  | Some v => if negb (bool_decide (v = [])) && (byte_len v <=? limit) then Some v else None
  | None => None
  end.

Definition into_request (self : StartQuery) : option ConsoleAuth.ConsoleAuthorize :=
  let take := within MAX_PARAM_LEN in
  client_id ← take (q_client_id self);
  redirect_uri ← take (q_redirect_uri self);
  response_type ← take (q_response_type self);
  scope ← take (q_scope self);
  state ← take (q_state self);
  code_challenge ← take (q_code_challenge self);
  code_challenge_method ← take (q_code_challenge_method self);
  nonce ← take (q_nonce self);
  Some (ConsoleAuth.mkAuthorize client_id redirect_uri response_type scope state code_challenge
          code_challenge_method nonce).

Record CallbackQuery := mkCallbackQuery {
  cq_code : option text;
  cq_state : option text;
  cq_error : option text }.

Definition no_store (response : Answer) : Answer :=
  mkAnswer (an_status response)
    (an_headers response ++
      [(lit "Cache-Control", lit "no-store"); (lit "Referrer-Policy", lit "no-referrer")])
    (an_body response).

Definition plain (status : Z) (message : text) : Answer := no_store (mkAnswer status [] (TextBody message)).

Definition redirect (location : text) : Answer :=
  if header_value_ok location then no_store (mkAnswer 302 [(lit "Location", location)] EmptyBody)
  else plain 500 (lit "Sign-in could not be completed.").

Definition placeholder_identity : Identity :=
  mkIdentity Login.PROVIDER_ID (lit "sso-start-validation") None None.

(** What serde makes of a console request. *)
Class RequestJson := {
  request_to_string : ConsoleAuth.ConsoleAuthorize -> result text text;
  request_from_str : text -> option ConsoleAuth.ConsoleAuthorize }.

Section Handlers.

Context `{E : CratestackErrors} `{O : OpLib} `{M : MacLib} `{R : ReqwestLib} `{U : !Sso.UrlHosts}.
Context `{T : Sso.TokenLib} `{BL : !SsoProvider.BrokerLib} `{J : RequestJson}.
Variables (to_lowercase : text -> text) (st : SsoState).

Abbreviation handler := (door (F := SsoProvider.Fields)).
Abbreviation config := (ss_provider st).

Definition console_error_redirect (request : ConsoleAuth.ConsoleAuthorize) (error : text) : Answer :=
  match url_parse (ConsoleAuth.redirect_uri request) with
  | Err _ => plain 400 (lit "Sign-in could not be completed.")
  | Ok u => redirect (url_str (Sso.append_pairs
      [(lit "error", error); (lit "state", ConsoleAuth.state request)] u))
  end.

Definition complete (transaction : SsoStore.Transaction) (code : text)
  : handler (result Completed Sso.SsoError) :=
  letd? raw := SsoProvider.exchange_code config (ss_metadata_ttl st) code (SsoStore.code_verifier transaction) in
  letd? claims := SsoProvider.verify_id_token config (ss_metadata_ttl st) (ss_jwks_ttl st) raw
    (SsoStore.nonce transaction) in
  match Sso.evaluate claims config (SsoStore.is_retry transaction) with
  | Sso.Refuse refusal => DRet (Err (Sso.Refused refusal))
  | Sso.RetryWithPromptLogin => DRet (Ok RetryWithPromptLogin)
  | Sso.Admit =>
      letd? resolved := embed (SsoStore.resolve_user to_lowercase config claims) in
      DRet (Ok (SignedIn resolved))
  end.

Definition throttled (key : text) : handler (option Answer) :=
  letd decision := ask (Consume key (ss_rate st)) in
  DRet match decision with
       | Ok Allowed => None
       | Ok (Throttled retry_after_secs) =>
           let response := plain 429 (lit "Too many sign-in attempts.") in
           Some (mkAnswer (an_status response)
                   (an_headers response ++ Login.retry_after retry_after_secs) (an_body response))
       | Err _ => Some (plain 503 (lit "Sign-in is unavailable."))
       end.

(** On a store that is thrown away. *)
Definition would_issue_a_code (request : ConsoleAuth.ConsoleAuthorize) : handler bool :=
  match ConsoleAuth.authorize_request request with
  | None => DRet false
  | Some authorize_request =>
      letd outcome := ask (Authorize DryStore authorize_request placeholder_identity) in
      DRet match outcome with
           | DirectError _ => false
           | RedirectTo location => negb (ConsoleAuth.redirect_carries_an_error location)
           end
  end.

Definition begin_upstream (secrets : SsoStore.AuthnSecrets) (request : ConsoleAuth.ConsoleAuthorize)
  (is_retry : bool) : handler (result text Sso.SsoError) :=
  letd? stored := DRet (map_err (fun _ => Sso.Unavailable (lit "serialising the console request failed"))
    (request_to_string request)) in
  letd? _ := embed (SsoStore.begin_transaction secrets stored is_retry) in
  letd? url := SsoProvider.authorization_url config (ss_metadata_ttl st) secrets is_retry in
  DRet (Ok (url_str url)).

(** Off to the identity provider. *)
Definition send_upstream (request : ConsoleAuth.ConsoleAuthorize) (is_retry : bool) : handler Answer :=
  letd secrets := SsoProvider.generate in
  letd begun := begin_upstream secrets request is_retry in
  DRet match begun with
       | Ok location => redirect location
       | Err _ => console_error_redirect request (lit "temporarily_unavailable")
       end.

Definition start_handler (query : StartQuery) : handler Answer :=
  letd limited := throttled START_BUCKET in
  match limited with
  | Some response => DRet response
  | None =>
      match into_request query with
      | None => DRet (plain 400 (lit "Invalid sign-in request."))
      | Some request =>
          if negb (bool_decide (ConsoleAuth.client_id request = ss_console_client_id st)) then
            DRet (plain 400 (lit "Invalid sign-in request."))
          else
            match ConsoleAuth.malformed request (ss_redirect_uris st) with
            | Some _ => DRet (plain 400 (lit "Invalid sign-in request."))
            | None =>
                letd issuable := would_issue_a_code request in
                if negb issuable then DRet (plain 400 (lit "Invalid sign-in request."))
                else send_upstream request false
            end
      end
  end.

Definition identity_of (user : SsoStore.ResolvedUser) : Identity :=
  mkIdentity Login.PROVIDER_ID (SsoStore.user_id user) (Some (SsoStore.ru_email user))
    (Some (SsoStore.display_name user)).

Definition issue_console_code (request : ConsoleAuth.ConsoleAuthorize) (user : SsoStore.ResolvedUser)
  : handler Answer :=
  match ConsoleAuth.authorize_request request with
  | None => DRet (plain 500 (lit "Sign-in could not be completed."))
  | Some authorize_request =>
      letd outcome := ask (Authorize ServedStore authorize_request (identity_of user)) in
      match outcome with
      | RedirectTo location =>
          if ConsoleAuth.redirect_carries_an_error location then
            DRet (plain 400 (lit "Sign-in could not be completed."))
          else
            letd _ := embed (SsoStore.stamp_last_login (SsoStore.user_id user)) in
            DRet (redirect location)
      | DirectError _ => DRet (plain 400 (lit "Sign-in could not be completed."))
      end
  end.

(** From the stored request on. *)
Definition callback_for (query : CallbackQuery) (transaction : SsoStore.Transaction)
  (request : ConsoleAuth.ConsoleAuthorize) : handler Answer :=
  if negb (bool_decide (ConsoleAuth.redirect_uri request ∈ ss_redirect_uris st)) then
    DRet (plain 400 (lit "Sign-in could not be completed."))
  else if negb (is_null (cq_error query)) then DRet (console_error_redirect request (lit "access_denied"))
  else
    match within MAX_CODE_LEN (cq_code query) with
    | None => DRet (console_error_redirect request (lit "access_denied"))
    | Some code =>
        letd completed := complete transaction code in
        match completed with
        | Ok (SignedIn user) => issue_console_code request user
        | Ok RetryWithPromptLogin => send_upstream request true
        | Err (Sso.Refused _) => DRet (console_error_redirect request (lit "access_denied"))
        | Err (Sso.Unavailable _) => DRet (console_error_redirect request (lit "temporarily_unavailable"))
        end
    end.

Definition callback_handler (query : CallbackQuery) : handler Answer :=
  letd limited := throttled CALLBACK_BUCKET in
  match limited with
  | Some response => DRet response
  | None =>
      match within MAX_PARAM_LEN (cq_state query) with
      | None => DRet (plain 400 (lit "Sign-in could not be completed."))
      | Some returned_state =>
          letd consumed := embed (SsoStore.consume_transaction returned_state) in
          match consumed with
          | Ok None => DRet (plain 400 (lit "Sign-in could not be completed."))
          | Err _ => DRet (plain 503 (lit "Sign-in is unavailable."))
          | Ok (Some transaction) =>
              match request_from_str (SsoStore.console_request transaction) with
              | None => DRet (plain 500 (lit "Sign-in could not be completed."))
              | Some request => callback_for query transaction request
              end
          end
      end
  end.

(** One round of the reaper. *)
Definition reaper_tick : prog unit :=
  let! now := do Now in
  let! _ := SsoStore.reap_expired now REAPER_BATCH in
  Ret tt.

End Handlers.

End SsoDoor.

(** ** Who is given a code *)
Section Codes.

Import SsoDoor.

Context `{E : CratestackErrors} `{O : OpLib} `{M : MacLib} `{R : ReqwestLib} `{U : !Sso.UrlHosts}.
Context `{T : Sso.TokenLib} `{BL : !SsoProvider.BrokerLib} `{J : RequestJson} `{B : !Backend}.
Context (to_lowercase : text -> text) (st : SsoState).

Abbreviation events := (list (devent (F := SsoProvider.Fields))).
Abbreviation config := (ss_provider st).
Abbreviation safe_door := (dwp (anchored config)).

Inductive visit := Start (query : StartQuery) | Callback (query : CallbackQuery).

Definition visit_handler (v : visit) : door Answer :=
  match v with
  | Start query => start_handler st query
  | Callback query => callback_handler to_lowercase st query
  end.

(** The identity provider vouched for someone it lets in, and the database
    knows them or has just been told of them. *)
Definition signed_in (t : SsoStore.Transaction) (code : text) (user : SsoStore.ResolvedUser)
  (tr : events) (log : list exchange) : Prop :=
  exists raw claims, exchanged_for config code (SsoStore.code_verifier t) raw tr log /\
    vouched config raw (SsoStore.nonce t) claims log /\
    Sso.in_required_group claims config = true /\ Sso.mfa_satisfied claims config = true /\
    resolved config claims user (db_trace tr).

(** What has to have happened before a code is asked for. *)
Definition may_sign_in (query : CallbackQuery) (code_request : AuthorizeRequest) (identity : Identity)
  (tr : events) (log : list exchange) : Prop :=
  exists state t request code user, within MAX_PARAM_LEN (cq_state query) = Some state /\
    consumed state t (db_trace tr) /\ request_from_str (SsoStore.console_request t) = Some request /\
    ConsoleAuth.authorize_request request = Some code_request /\
    ConsoleAuth.redirect_uri request ∈ ss_redirect_uris st /\
    cq_error query = None /\ within MAX_CODE_LEN (cq_code query) = Some code /\
    signed_in t code user tr log /\ identity = identity_of user.

Definition may_ask (v : visit) (store : CodeStore) (code_request : AuthorizeRequest) (identity : Identity)
  (tr : events) (log : list exchange) : Prop :=
  Forall quiet tr /\
  match v with
  | Start _ => store = DryStore /\ identity = placeholder_identity
  | Callback query => store = ServedStore /\ may_sign_in query code_request identity tr log
  end.

Lemma signed_in_mono t code user tr log log' :
  signed_in t code user tr log -> log ⊆ log' -> signed_in t code user tr log'.
Proof.
  intros (raw & claims & (m & r & Hm & Hx) & Hv & Hrest) Hl. exists raw, claims.
  split; [exists m, r; split; [by eapply served_metadata_mono | done]|].
  split; [by eapply vouched_mono | done].
Qed.

Lemma may_ask_mono v store code_request identity tr log log' :
  may_ask v store code_request identity tr log -> log ⊆ log' -> may_ask v store code_request identity tr log'.
Proof.
  intros [Hq Hv] Hl. split; [done|]. destruct v; [done|]. destruct Hv as [-> Hv]. split; [done|].
  destruct Hv as (state & t & request & code & user & H1 & H2 & H3 & H4 & H5 & H6 & H7 & H8 & ->).
  exists state, t, request, code, user. split_and!; try done. by eapply signed_in_mono.
Qed.

(** ** Where a browser is sent *)
Inductive lands (tr : events) (log : list exchange) : text -> Prop :=
| lands_upstream m secrets retry : served_metadata config log m -> trusted_metadata config m ->
    lands tr log (url_str (Sso.append_pairs (SsoProvider.authorization_query config secrets retry)
      (SsoProvider.authorization_endpoint m)))
| lands_error request error u : ConsoleAuth.redirect_uri request ∈ ss_redirect_uris st ->
    url_parse (ConsoleAuth.redirect_uri request) = Ok u ->
    lands tr log (url_str (Sso.append_pairs
      [(lit "error", error); (lit "state", ConsoleAuth.state request)] u))
| lands_code code_request identity location :
    DEv (Authorize ServedStore code_request identity) (RedirectTo location) ∈ tr ->
    ConsoleAuth.redirect_carries_an_error location = false -> lands tr log location.

Definition lands_well (a : Answer) (tr : events) (log : list exchange) : Prop :=
  forall location, (lit "Location", location) ∈ an_headers a -> lands tr log location.

Lemma lands_mono tr log log' location : lands tr log location -> log ⊆ log' -> lands tr log' location.
Proof.
  intros H Hl. destruct H as [m secrets retry Hm Ht|request error u Hr Hu|code_request identity location He Hc].
  - apply lands_upstream; [by eapply served_metadata_mono | done].
  - by apply lands_error.
  - by eapply lands_code.
Qed.

Lemma plain_lands status message tr log : lands_well (plain status message) tr log.
Proof.
  intros location. cbn [plain no_store an_headers app]. rewrite !elem_of_cons, elem_of_nil.
  intros [H | [H | []]]; apply (f_equal fst) in H; cbn [fst] in H; by vm_compute in H.
Qed.

Lemma redirect_lands tr log location : lands tr log location -> lands_well (redirect location) tr log.
Proof.
  intros Hl. unfold redirect. destruct (header_value_ok location); [|apply plain_lands].
  intros location'. cbn [no_store an_headers app]. rewrite !elem_of_cons, elem_of_nil.
  intros [[= ->] | [H | [H | []]]]; [done | |]; apply (f_equal fst) in H; cbn [fst] in H; by vm_compute in H.
Qed.

Lemma error_lands request error tr log : ConsoleAuth.redirect_uri request ∈ ss_redirect_uris st ->
  lands_well (console_error_redirect request error) tr log.
Proof.
  intros Hr. unfold console_error_redirect. destruct (url_parse _) as [u|] eqn:Hu; [|apply plain_lands].
  apply redirect_lands. by apply lands_error.
Qed.

(** ** The handlers' parts *)
Lemma begin_upstream_lands G secrets request retry tr log :
  safe_door G (begin_upstream st secrets request retry) tr log
    (fun r tr' l => forall location, r = Ok location -> lands tr' l location).
Proof.
  apply dwp_bind_ok. intros l1 _. destruct (map_err _ _) as [stored|e]; [|by intros l Hl].
  apply dwp_bind_ok. eapply dwp_mono; [|apply dwp_reads, begin_transaction_wp]. cbn beta.
  intros [[]|e] tr1 l2 _ _; [|by intros l Hl].
  apply dwp_bind_ok, dwp_bind_ok. eapply dwp_mono; [|apply metadata_served]. cbn beta.
  intros [m|e] tr2 l3 _ Hm; [|by intros l Hl l' Hl'].
  intros l4 Hl4 l5 Hl5 location [= <-]. specialize (Hm m eq_refl).
  apply lands_upstream; [eapply served_metadata_mono; [|exact Hm]; by etrans|].
  destruct Hm as (response & _ & Hd). by apply discovered_trusted in Hd as [? _].
Qed.

Lemma send_upstream_lands G request retry tr log :
  ConsoleAuth.redirect_uri request ∈ ss_redirect_uris st ->
  safe_door G (send_upstream st request retry) tr log (fun a tr' l => lands_well a tr' l).
Proof.
  intros Hr. apply dwp_bind. eapply (dwp_mono _ _ _ _ _ (fun _ _ _ => True)).
  - intros secrets tr1 l1 _ _. apply dwp_bind. eapply dwp_mono; [|apply begin_upstream_lands]. cbn beta.
    intros [location|e] tr2 l2 _ Hl; intros l3 Hl3; [|by apply error_lands].
    apply redirect_lands. eapply lands_mono; [by apply Hl | done].
  - intros l1 _. split; [done|]. intros r1 _ l2 _. split; [done|]. intros r2 _ l3 _. split; [done|].
    by intros r3 _ l4 _.
Qed.

Lemma throttled_lands G key tr log :
  safe_door G (throttled st key) tr log (fun r tr' l =>
    (exists d, tr' = [DEv (Consume key (ss_rate st)) d] ++ tr) /\ forall a, r = Some a -> lands_well a tr' l).
Proof.
  intros l1 _ d l2 _. split; [by exists d|]. intros a Ha.
  destruct d as [[|secs]|]; [done | |injection Ha as <-; apply plain_lands]. injection Ha as <-.
  intros location. cbn [an_headers plain no_store app]. unfold Login.retry_after.
  destruct (header_value_ok (show_Z secs)); rewrite ?app_nil_r, !elem_of_cons, elem_of_nil;
    intros H; repeat destruct H as [H|H]; try done; apply (f_equal fst) in H; cbn [fst] in H; by vm_compute in H.
Qed.

Lemma exchanged_for_app code verifier raw l tr log :
  exchanged_for config code verifier raw tr log -> exchanged_for config code verifier raw (l ++ tr) log.
Proof. intros (m & r & Hm & Hx & He). exists m, r. split; [done|]. split; [set_solver | done]. Qed.

Lemma exchanged_for_mono code verifier raw tr log log' :
  exchanged_for config code verifier raw tr log -> log ⊆ log' -> exchanged_for config code verifier raw tr log'.
Proof. intros (m & r & Hm & Hx) Hl. exists m, r. split; [by eapply served_metadata_mono | done]. Qed.

Lemma evaluate_admits claims retry : Sso.evaluate claims config retry = Sso.Admit ->
  Sso.in_required_group claims config = true /\ Sso.mfa_satisfied claims config = true.
Proof.
  unfold Sso.evaluate. destruct (Sso.in_required_group claims config); [|done]. cbn [negb].
  destruct (Sso.mfa_satisfied claims config); [done|]. by destruct retry.
Qed.

Lemma complete_sound G t code tr log :
  safe_door G (complete to_lowercase st t code) tr log (fun r tr' l =>
    (forall user, r = Ok (SignedIn user) -> signed_in t code user tr' l) /\
    exists l0, tr' = l0 ++ tr /\ Forall quiet l0).
Proof.
  apply dwp_quiet. apply dwp_bind_ok. eapply dwp_mono; [|apply exchange_code_sound]. cbn beta.
  intros [raw|e] tr1 l1 _ Hraw; [|by intros l _]. specialize (Hraw raw eq_refl).
  apply dwp_bind_ok. eapply dwp_mono; [|apply dwp_quiet, verify_id_token_sound]. cbn beta.
  intros [claims|e] tr2 l2 Hl2 [Hclaims (e2 & -> & _)]; [|by intros l _]. specialize (Hclaims claims eq_refl).
  destruct (Sso.evaluate claims config (SsoStore.is_retry t)) eqn:Hv; [|by intros l _|by intros l _].
  apply evaluate_admits in Hv as [Hg Hmfa].
  apply dwp_bind_ok. eapply dwp_mono; [|apply dwp_reads, resolve_user_wp]. cbn beta.
  intros [user|e] tr3 l3 Hl3 [Hu (e3 & ->)]; [|by intros l _]. intros l4 Hl4 user' [= <-].
  exists raw, claims. split; [|split; [|split; [done|split; [done | by apply Hu]]]].
  - apply exchanged_for_app, exchanged_for_app. eapply exchanged_for_mono; [exact Hraw|].
    etrans; [exact Hl2|]. by etrans.
  - eapply vouched_mono; [exact Hclaims|]. by etrans.
Qed.

Lemma consumed_app state t l tr : consumed state t tr -> consumed state t (l ++ tr).
Proof.
  intros (row & b & now & Hk & Hh & Hd & Hn & Hx). exists row, b, now.
  split; [by apply known_app|]. split; [done|]. split; [by apply elem_of_app; right|]. split; [by apply elem_of_app; right | done].
Qed.

Lemma issue_console_code_sound v query t state request code user tr log :
  v = Callback query -> Forall quiet tr -> within MAX_PARAM_LEN (cq_state query) = Some state ->
  consumed state t (db_trace tr) -> request_from_str (SsoStore.console_request t) = Some request ->
  ConsoleAuth.redirect_uri request ∈ ss_redirect_uris st -> cq_error query = None ->
  within MAX_CODE_LEN (cq_code query) = Some code -> signed_in t code user tr log ->
  safe_door (may_ask v) (issue_console_code request user) tr log (fun a tr' l => lands_well a tr' l).
Proof.
  intros -> Hq Hs Hc Hf Hr He Hcode Hin. unfold issue_console_code.
  destruct (ConsoleAuth.authorize_request request) as [code_request|] eqn:Hreq;
    [|intros l _; apply plain_lands].
  intros l1 Hl1. split.
  { split; [done|]. split; [done|]. exists state, t, request, code, user. split_and!; try done.
    by eapply signed_in_mono. }
  intros [location|e]; cbn [dbind]; [|intros l _; apply plain_lands].
  destruct (ConsoleAuth.redirect_carries_an_error location) eqn:Herr; [intros l _; apply plain_lands|].
  apply dwp_bind. eapply dwp_mono; [|apply dwp_reads, stamp_last_login_wp]. cbn beta.
  intros [] tr2 l2 _ [_ (e2 & ->)] l3 _. apply redirect_lands. eapply lands_code; [|done].
  apply elem_of_app. right. by left.
Qed.

Lemma callback_for_sound v query t state request tr log :
  v = Callback query -> Forall quiet tr -> within MAX_PARAM_LEN (cq_state query) = Some state ->
  consumed state t (db_trace tr) -> request_from_str (SsoStore.console_request t) = Some request ->
  safe_door (may_ask v) (callback_for to_lowercase st query t request) tr log
    (fun a tr' l => lands_well a tr' l).
Proof.
  intros Hv Hq Hs Hc Hf. unfold callback_for.
  destruct (bool_decide_reflect (ConsoleAuth.redirect_uri request ∈ ss_redirect_uris st)) as [Hr|];
    cbn [negb]; [|intros ? _; apply plain_lands].
  destruct (cq_error query) eqn:He; cbn [is_null negb]; [intros ? _; by apply error_lands|].
  destruct (within MAX_CODE_LEN (cq_code query)) as [code|] eqn:Hcode; [|intros ? _; by apply error_lands].
  apply dwp_bind. eapply dwp_mono; [|apply complete_sound]. cbn beta.
  intros r tr1 l1 _ [Hu (e1 & -> & He1)]. destruct r as [[user|]|[refusal|what]].
  - eapply issue_console_code_sound; try done; [by apply Forall_app | | by apply Hu].
    rewrite db_trace_app. by apply consumed_app.
  - by apply send_upstream_lands.
  - intros ? _. by apply error_lands.
  - intros ? _. by apply error_lands.
Qed.

Lemma callback_handler_sound query :
  safe_door (may_ask (Callback query)) (callback_handler to_lowercase st query) [] []
    (fun a tr l => lands_well a tr l).
Proof.
  apply dwp_bind. eapply dwp_mono; [|apply throttled_lands]. cbn beta.
  intros [a|] tr1 l1 _ [(d & ->) Ha]; [intros l Hl location Hloc; eapply lands_mono; [exact (Ha a eq_refl location Hloc) | done]|].
  destruct (within MAX_PARAM_LEN (cq_state query)) as [state|] eqn:Hs; [|intros ? _; apply plain_lands].
  apply dwp_bind. eapply dwp_mono; [|apply dwp_reads, consume_transaction_wp]. cbn beta.
  intros [[t|]|e] tr2 l2 _ [Hc (e2 & ->)]; [|intros ? _; apply plain_lands..].
  destruct (request_from_str (SsoStore.console_request t)) as [request|] eqn:Hf; [|intros ? _; apply plain_lands].
  eapply callback_for_sound; try done; [|by apply Hc]. apply Forall_app. split; [|by repeat constructor].
  apply Forall_fmap, Forall_true. by intros [].
Qed.

Lemma start_handler_sound query :
  safe_door (may_ask (Start query)) (start_handler st query) [] [] (fun a tr l => lands_well a tr l).
Proof.
  apply dwp_bind. eapply dwp_mono; [|apply throttled_lands]. cbn beta.
  intros [a|] tr1 l1 _ [(d & ->) Ha]; [intros l Hl location Hloc; eapply lands_mono; [exact (Ha a eq_refl location Hloc) | done]|].
  destruct (into_request query) as [request|]; [|intros ? _; apply plain_lands].
  destruct (negb _); [intros ? _; apply plain_lands|].
  destruct (ConsoleAuth.malformed request (ss_redirect_uris st)) eqn:Hm; [intros ? _; apply plain_lands|].
  apply ConsoleAuth.malformed_none in Hm as (_ & _ & _ & Hr).
  apply dwp_bind. unfold would_issue_a_code.
  assert (forall tr l (b : bool), safe_door (may_ask (Start query))
    (if negb b then DRet (plain 400 (lit "Invalid sign-in request.")) else send_upstream st request false)
    tr l (fun a tr l => lands_well a tr l)) as Hgo.
  { intros tr l []; cbn [negb]; [by apply send_upstream_lands | intros l' _; apply plain_lands]. }
  destruct (ConsoleAuth.authorize_request request) as [code_request|]; [|intros ? _; apply Hgo].
  intros l2 _. split; [by split; [repeat constructor|]|]. intros outcome l3 _. apply Hgo.
Qed.

(** The broker's visits, side by side; it starts knowing nothing. *)
Definition visits (vs : list visit) (w : world) (now : Z) : dpool SsoProvider.Fields Answer :=
  ((fun v => (visit_handler v, [])) <$> vs, mkDState w now SsoProvider.fresh_fields []).

Lemma visits_sound vs w now y i v p tr :
  world_ok w -> rtc (dpool_step SsoProvider.drops) (visits vs w now) y ->
  vs !! i = Some v -> y.1 !! i = Some (p, tr) ->
  (forall after store code_request identity r before,
     tr = after ++ DEv (Authorize store code_request identity) r :: before ->
     may_ask v store code_request identity before (d_log y.2)) /\
  (forall a, p = DRet a -> lands_well a tr (d_log y.2)).
Proof.
  intros Hok Hr Hv Hy.
  apply (started_sound SsoProvider.drops (anchored config) visit_handler vs may_ask
    (fun _ a tr l => lands_well a tr l) (mkDState w now SsoProvider.fresh_fields []) y i v p tr); try done.
  - intros. by eapply anchored_mono.
  - intros. by eapply anchored_drops.
  - intros *. apply may_ask_mono.
  - intros []; [apply start_handler_sound | apply callback_handler_sound].
Qed.

(** C19. A start asks the endpoint only on the store that is thrown away, for
    nobody. A callback asks for a code at most once, and only after it has
    itself read and deleted a stored, unexpired transaction whose hash is that
    of the state it was given, exchanged the code with that transaction's verifier at the token
    endpoint the configured issuer names, verified the ID token that came back,
    with that transaction's nonce, under a key of the key set that issuer
    names, found the required group and a second factor in it, and resolved it
    to an active linked account or to one it created; under that account's
    identity, for a request that goes back to a registered address. *)
Theorem sso_issues vs w now y i v p after store code_request identity r before :
  world_ok w -> rtc (dpool_step SsoProvider.drops) (visits vs w now) y -> vs !! i = Some v ->
  y.1 !! i = Some (p, after ++ DEv (Authorize store code_request identity) r :: before) ->
  may_ask v store code_request identity before (d_log y.2).
Proof. intros Hok Hr Hv Hy. by eapply (visits_sound vs w now y i v p). Qed.


(** A served code was paid for with a transaction: a row read from the
    database, stored under the hash of the state that came back, and deleted. *)
Definition paid_with (state : text) (row : SsoTransaction.t) (tr : events) : Prop :=
  known (db_trace tr) TSsoTxn row /\
  row.(SsoTransaction.stateHash) = hex_encode (sha256 (as_bytes state)) /\
  exists b, Ev (Delete TSsoTxn row.(SsoTransaction.id)) (Ok b) ∈ db_trace tr.

(** In the whole run one transaction was read under the hash of the state. *)
Definition begun_once (state : text) (y : dpool SsoProvider.Fields Answer) : Prop :=
  exists id, forall k p tr row, y.1 !! k = Some (p, tr) -> known (db_trace tr) TSsoTxn row ->
    row.(SsoTransaction.stateHash) = hex_encode (sha256 (as_bytes state)) ->
    row.(SsoTransaction.id) = id.

Lemma may_ask_paid query tr log code_request identity :
  may_ask (Callback query) ServedStore code_request identity tr log ->
  exists state row, within MAX_PARAM_LEN (cq_state query) = Some state /\ paid_with state row tr.
Proof.
  intros (_ & _ & state & t & request & code & user & Hs & (row & b & n & Hk & Hh & Hd & _) & _).
  exists state, row. split; [done|]. split; [done|]. split; [done | by exists b].
Qed.

Lemma paid_deletions state row e d tr :
  paid_with state row tr -> (0 < deletions TSsoTxn row.(SsoTransaction.id) (e ++ d :: tr))%nat.
Proof.
  intros (_ & _ & b & Hd). apply (deletions_pos _ _ b). change (d :: tr) with ([d] ++ tr).
  rewrite (app_assoc e), db_trace_app. apply elem_of_app. by right.
Qed.

(** C20. Two callbacks that both ask for a served code, at the same time or one
    after the other, each read and deleted a transaction stored under the hash
    of the state it was given, and not the same one.  So a state that comes
    back twice signs in once: if only one transaction was ever read under its
    hash, the other callback came with another state. *)
Theorem sso_once vs w now y i j query query' p q after code_request identity r before
  after' code_request' identity' r' before' :
  world_ok w -> rtc (dpool_step SsoProvider.drops) (visits vs w now) y -> i <> j ->
  vs !! i = Some (Callback query) -> vs !! j = Some (Callback query') ->
  y.1 !! i = Some (p, after ++ DEv (Authorize ServedStore code_request identity) r :: before) ->
  y.1 !! j = Some (q, after' ++ DEv (Authorize ServedStore code_request' identity') r' :: before') ->
  exists state state' row row',
    within MAX_PARAM_LEN (cq_state query) = Some state /\ paid_with state row before /\
    within MAX_PARAM_LEN (cq_state query') = Some state' /\ paid_with state' row' before' /\
    row.(SsoTransaction.id) <> row'.(SsoTransaction.id) /\
    (begun_once state y -> state' <> state).
Proof.
  intros Hok Hr Hij Hv Hv' Hi Hj.
  destruct (visits_sound vs w now y i _ p _ Hok Hr Hv Hi) as [Hmi _].
  destruct (visits_sound vs w now y j _ q _ Hok Hr Hv' Hj) as [Hmj _].
  destruct (may_ask_paid _ _ _ _ _ (Hmi _ _ _ _ _ _ eq_refl)) as (s & row & Hs & Hp).
  destruct (may_ask_paid _ _ _ _ _ (Hmj _ _ _ _ _ _ eq_refl)) as (s' & row' & Hs' & Hp').
  assert (row.(SsoTransaction.id) <> row'.(SsoTransaction.id)) as Hne.
  { intros Heq. apply Hij.
    eapply (deleted_by_one SsoProvider.drops TSsoTxn row.(SsoTransaction.id)); [| |exact Hr|exact Hi|exact Hj| |].
    - apply Hok.
    - intros p0 tr0 Hin. cbn [fst visits] in Hin. by apply list_elem_of_fmap in Hin as (? & [= _ ->] & _).
    - exact (paid_deletions _ _ _ _ _ Hp).
    - rewrite Heq. exact (paid_deletions _ _ _ _ _ Hp'). }
  exists s, s', row, row'. split_and!; try done. intros [id Hid] ->. apply Hne.
  destruct Hp as (Hk & Hh & _), Hp' as (Hk' & Hh' & _).
  assert (forall (l : events) e, known (db_trace l) TSsoTxn e -> forall l' d, known (db_trace (l' ++ d :: l)) TSsoTxn e) as Hgrow.
  { intros l e He l' d. change (d :: l) with ([d] ++ l). rewrite (app_assoc l'), db_trace_app.
    by apply known_app. }
  by rewrite (Hid _ _ _ row Hi), (Hid _ _ _ row' Hj) by auto.
Qed.

End Codes.

(** ** Examples *)
Module SsoExamples.

Import SsoDoor OidcExamples LoginExamples.

#[local] Existing Instance demo_errors.
#[local] Existing Instance demo_op.
#[local] Existing Instance demo_reqwest.
#[local] Existing Instance demo_hosts.
#[local] Existing Instance demo_tokens.
#[local] Existing Instance WebhookExamples.demo_mac.

Definition demo_discovery (bytes : list Z) : option SsoProvider.Discovery :=
  match bytes with
  | [5] => Some (SsoProvider.mkDiscovery (lit "https://idp.test") (lit "https://idp.test/authorize")
      (lit "https://idp.test/token") (lit "https://idp.test/jwks") None None)
  | _ => None
  end.

Definition demo_broker : SsoProvider.BrokerLib := {|
  SsoProvider.decode_discovery := demo_discovery;
  SsoProvider.jwk_of_json _ := Some demo_jwk;
  SsoProvider.base64url_encode bytes := bytes;
  SsoProvider.base64_encode t := t;
  SsoProvider.byte_serialize t := t |}.

Definition demo_request_json : RequestJson := {|
  request_to_string _ := Ok (lit "console request");
  request_from_str t := if bool_decide (t = lit "console request") then Some demo_console else None |}.

#[local] Existing Instance demo_broker.
#[local] Existing Instance demo_request_json.

Definition demo_sso : SsoState :=
  mkSsoState
    (Sso.mkSsoConfig (lit "https://idp.test") (lit "vsms") (lit "secret") (lit "https://gw.test/login/sso/callback")
       (lit "openid") (lit "ops") (lit "groups") [] [lit "otp"] (lit "operator") 0 true)
    SsoProvider.METADATA_TTL SsoProvider.JWKS_TTL (lit "console") [lit "https://console.test/callback"] demo_rate.

Definition body (bytes : list Z) : result Response TransportError := Ok (mkResponse 200 [] None [bytes] None).

Definition demo_idp (c : HttpCall) : result Response TransportError :=
  let address := hc_url c in
  if bool_decide (address = lit "https://idp.test/token") then body [2]
  else if bool_decide (address = lit "https://idp.test/jwks") then body [3]
  else body [5].

Definition demo_sso_oracle : door_oracle :=
  mkDoorOracle accepting demo_idp
    (fun _ _ _ => RedirectTo (lit "https://console.test/callback?code=abc&state=xyz")).

Definition demo_transaction (id state : text) : SsoTransaction.t :=
  SsoTransaction.mk id (SsoStore.state_hash state) (lit "n1") (lit "v1") (lit "console request") false
    (ex_now + 60000000) 0.

(** Two people who left for the identity provider, and the account one of them
    is linked to. *)
Definition demo_sso_world : world :=
  insert_row (insert_row (insert_row demo_world
    TFedLink (FederatedLink.mk (lit "l1") 0 0 (lit "https://idp.test") (lit "s1") (lit "u1")))
    TSsoTxn (demo_transaction (lit "t1") (lit "state one")))
    TSsoTxn (demo_transaction (lit "t2") (lit "other state")).

Definition demo_callback (state : text) : visit := Callback (mkCallbackQuery (Some (lit "c-9")) (Some state) None).

Definition demo_visits : list visit := [demo_callback (lit "state one"); demo_callback (lit "other state")].

Definition first_visit := door_run demo_sso_oracle
  (visit_handler id demo_sso (demo_callback (lit "state one"))) []
  (mkDState demo_sso_world 0 SsoProvider.fresh_fields []).

Definition second_visit := door_run demo_sso_oracle
  (visit_handler id demo_sso (demo_callback (lit "other state"))) [] first_visit.2.

Lemma demo_sso_world_ok : world_ok demo_sso_world.
Proof. unfold demo_sso_world. do 3 apply insert_row_ok. exact demo_world_ok. Qed.

Definition demo_start : dpool SsoProvider.Fields Answer := visits id demo_sso demo_visits demo_sso_world 0.

Definition demo_end : dpool SsoProvider.Fields Answer := ([first_visit.1; second_visit.1], second_visit.2).

Lemma demo_sso_run :
  rtc (@dpool_step _ _ _ (ref_backend accepting) SsoProvider.drops Answer) demo_start demo_end.
Proof.
  etrans; [exact (door_run_at demo_sso_oracle SsoProvider.drops demo_start.1 0 _ [] demo_start.2 eq_refl)|].
  exact (door_run_at demo_sso_oracle SsoProvider.drops
    [first_visit.1; (visit_handler id demo_sso (demo_callback (lit "other state")), [])] 1 _ [] first_visit.2 eq_refl).
Qed.

Definition demo_identity : Identity :=
  mkIdentity Login.PROVIDER_ID (lit "u1") (Some (lit "ada@vsms.test")) (Some (lit "Ada")).

Definition demo_location : text := lit "https://console.test/callback?code=abc&state=xyz".

Lemma first_visit_trace :
  first_visit.1.2 = take 3 first_visit.1.2 ++
    DEv (Authorize ServedStore (ConsoleAuth.authorize_json demo_console) demo_identity) (RedirectTo demo_location)
    :: drop 4 first_visit.1.2.
Proof. symmetry. apply take_drop_middle. vm_cast_no_check (eq_refl (first_visit.1.2 !! 3%nat)). Qed.

Lemma second_visit_trace :
  second_visit.1.2 = take 3 second_visit.1.2 ++
    DEv (Authorize ServedStore (ConsoleAuth.authorize_json demo_console) demo_identity) (RedirectTo demo_location)
    :: drop 4 second_visit.1.2.
Proof. symmetry. apply take_drop_middle. vm_cast_no_check (eq_refl (second_visit.1.2 !! 3%nat)). Qed.


Lemma sso_issues_witness :
  may_ask demo_sso (demo_callback (lit "state one")) ServedStore (ConsoleAuth.authorize_json demo_console)
    demo_identity (drop 4 first_visit.1.2) (d_log demo_end.2).
Proof.
  apply (sso_issues (B := ref_backend accepting) id demo_sso demo_visits demo_sso_world 0 demo_end 0
    (demo_callback (lit "state one")) first_visit.1.1 (take 3 first_visit.1.2) ServedStore
    (ConsoleAuth.authorize_json demo_console) demo_identity (RedirectTo demo_location) (drop 4 first_visit.1.2)
    demo_sso_world_ok demo_sso_run eq_refl).
  rewrite <- first_visit_trace. exact (f_equal Some (surjective_pairing first_visit.1)).
Defined.


Lemma sso_once_witness :
  exists state state' row row',
    Some (lit "state one") = Some state /\ paid_with state row (drop 4 first_visit.1.2) /\
    Some (lit "other state") = Some state' /\ paid_with state' row' (drop 4 second_visit.1.2) /\
    row.(SsoTransaction.id) <> row'.(SsoTransaction.id) /\ (begun_once state demo_end -> state' <> state).
Proof.
  apply (sso_once (B := ref_backend accepting) id demo_sso demo_visits demo_sso_world 0 demo_end 0 1
    (mkCallbackQuery (Some (lit "c-9")) (Some (lit "state one")) None)
    (mkCallbackQuery (Some (lit "c-9")) (Some (lit "other state")) None)
    first_visit.1.1 second_visit.1.1 (take 3 first_visit.1.2) (ConsoleAuth.authorize_json demo_console) demo_identity
    (RedirectTo demo_location) (drop 4 first_visit.1.2) (take 3 second_visit.1.2)
    (ConsoleAuth.authorize_json demo_console) demo_identity (RedirectTo demo_location) (drop 4 second_visit.1.2)
    demo_sso_world_ok demo_sso_run); [done | reflexivity | reflexivity | |].
  - rewrite <- first_visit_trace. exact (f_equal Some (surjective_pairing first_visit.1)).
  - rewrite <- second_visit_trace. exact (f_equal Some (surjective_pairing second_visit.1)).
Defined.

End SsoExamples.
