(* ===== verification/OpStores.v ===== *)
(** * What the OpenID provider keeps

    Of sms-auth: console_client.rs (the console's registration, seeded and
    checked), lib.rs (the stores the provider reads clients from and records
    spent assertions in), op.rs (the signing keys, what is advertised, the
    refresh store that holds nothing) and provision.rs (machine clients).  RSA
    key generation, authkestra's [TokenManager] and serde are parameters. *)

From S2P Require Import Prelude SentinelList Msisdn ProviderApi Schema ApiSchema Errors Sql Db DbLogic DbReads DbRef.
From S2P Require Import WorkerRouting Transactions Rbac Keys SsoStore TokenDoor DemoData.

(** ** A run nobody else writes into *)
Section Alone.

Context `{E : CratestackErrors} `{B : !Backend}.

Inductive alone {A} : prog A -> world -> A -> world -> Prop :=
| alone_ret a w : alone (Ret a) w a w
| alone_call R (c : call R) k w r w1 a w2 :
    exec R c w r w1 -> alone (k r) w1 a w2 -> alone (Call c k) w a w2.

Lemma alone_inv {A} (p : prog A) w a w' : alone p w a w' ->
  match p with
  | Ret b => a = b /\ w' = w
  | Panic => False
  | Call c k => exists r w1, exec _ c w r w1 /\ alone (k r) w1 a w'
  end.
Proof. destruct 1; [done|]. by exists r, w1. Qed.

Lemma alone_bind {A C} (p : prog A) (f : A -> prog C) w c w' :
  alone (pbind p f) w c w' -> exists a w1, alone p w a w1 /\ alone (f a) w1 c w'.
Proof.
  revert w. induction p as [a| |R q k IH]; intros w; cbn [pbind].
  - intros H. exists a, w. by split; [constructor|].
  - by intros H%alone_inv.
  - intros (r & w1 & Hx & Hr)%alone_inv. apply IH in Hr as (a & w2 & Hp & Hf). exists a, w2.
    split; [by econstructor | done].
Qed.

Lemma alone_bind_ok {A C X} (p : prog (result A X)) (f : A -> prog (result C X)) w r w' :
  alone (pbind_ok p f) w r w' ->
  (exists a w1, alone p w (Ok a) w1 /\ alone (f a) w1 r w') \/ (exists e, alone p w (Err e) w' /\ r = Err e).
Proof.
  intros (x & w1 & Hp & Hr)%alone_bind. destruct x as [a|e]; [left; eauto|].
  apply alone_inv in Hr as [-> ->]. right. eauto.
Qed.

Lemma alone_map_err {A X Y} (g : X -> Y) (p : prog (result A X)) w r w' :
  alone (pmap_err g p) w r w' -> exists r0, alone p w r0 w' /\ r = map_err g r0.
Proof. intros (x & w1 & Hp & [-> ->]%alone_inv)%alone_bind. eauto. Qed.

Lemma alone_do {R} (c : call R) w r w' : alone (do c) w r w' -> exec R c w r w'.
Proof. intros (r' & w1 & Hx & [-> ->]%alone_inv)%alone_inv. done. Qed.

(** The first row that matches: one that does, and [None] only when none does. *)
Lemma alone_first_row {t} (q : query t) w r w' :
  alone (first_row q) w r w' -> (forall n, q_limit q = Some n -> 0 < n) -> w' = w /\
  forall found, r = Ok found ->
    match found with
    | Some x => w_tables w t !! row_id t x = Some x /\ q_where q x = true /\ row_wf t x = true
    | None => forall x, w_tables w t !! row_id t x = Some x -> row_wf t x = true -> q_where q x = false
    end.
Proof.
  intros [(rows & w1 & Hx%alone_do & [-> ->]%alone_inv)|(e & Hx%alone_do & ->)]%alone_bind_ok Hn.
  - pose proof (exec_FindMany _ _ _ _ _ Hx) as [-> Hrows]. split; [done|]. intros found [= <-].
    destruct (Hrows rows eq_refl) as (Hf & _). destruct rows as [|x rows]; cbn [head].
    + intros x Hs Hwf. apply not_true_iff_false. intros Hw.
      by apply (exec_FindMany_complete _ _ _ _ _ x Hx Hs Hw Hwf Hn).
    + by apply Forall_cons in Hf as [? _].
  - apply exec_FindMany in Hx as [-> _]. by split.
Qed.

End Alone.

(** ** console_client.rs *)
Module ConsoleClient.

(** human_login.rs: the console as it is configured. *)
Record ConsoleClient := mkConsoleClient { client_id : text; redirect_uris : list text }.

Inductive Mismatch :=
| Inactive | AuthMethod | Jwks | AppClient | RefreshToken
| Grants (got : list text) | Scopes (got : list text) | RedirectUris (got : list text) | Pkce.

Definition CONSOLE_SCOPES : list text := [lit "openid"; lit "profile"].

(** [str]'s order: of code points, which is the order of their bytes. *)
Fixpoint text_leb (a b : text) : bool :=
  match a, b with
  | [], _ => true
  | _ :: _, [] => false
  | x :: a', y :: b' => if x =? y then text_leb a' b' else x <? y
  end.

#[global] Instance text_le_dec : RelDecision (fun a b => Is_true (text_leb a b)).
Proof. intros a b. apply _. Defined.

Definition sort (l : list text) : list text := merge_sort (fun a b => Is_true (text_leb a b)) l.

Definition same_set (a b : list text) : bool := bool_decide (sort a = sort b).

Definition mismatches (row : OauthClient.t) (console : ConsoleClient) : list Mismatch :=
  let grants := unpack row.(OauthClient.grantTypes) in
  let scopes := unpack row.(OauthClient.scopes) in
  let redirects := unpack row.(OauthClient.redirectUris) in
  (if negb row.(OauthClient.active) then [Inactive] else []) ++
  (if negb (bool_decide (row.(OauthClient.tokenEndpointAuthMethod) = ClientAuthMethod.none))
   then [AuthMethod] else []) ++
  (if negb (is_null row.(OauthClient.jwks)) then [Jwks] else []) ++
  (if negb (is_null row.(OauthClient.appClientId)) then [AppClient] else []) ++
  (if bool_decide (lit "refresh_token" ∈ grants) then [RefreshToken] else []) ++
  (if negb (bool_decide (grants = [AUTHORIZATION_CODE])) then [Grants grants] else []) ++
  (if negb (same_set scopes CONSOLE_SCOPES) then [Scopes scopes] else []) ++
  (if negb (same_set redirects (redirect_uris console)) then [RedirectUris redirects] else []) ++
  (if negb row.(OauthClient.requirePkce) then [Pkce] else []).

Definition machine_conflict (difference : Mismatch) : bool :=
  match difference with AuthMethod | Jwks | AppClient => true | _ => false end.

Definition machine_conflicts (differences : list Mismatch) : list Mismatch :=
  List.filter machine_conflict differences.

Inductive Seeded := Created | Reconciled (differences : list Mismatch) | Unchanged.

Section Programs.

Context `{E : CratestackErrors}.

Inductive ConsoleClientError :=
| Missing (client_id : text)
| Mismatched (client_id : text) (mismatches : list Mismatch)
| MachineClient (client_id : text) (conflicts : list Mismatch)
| Unstorable (error : PackError)
| Database (error : CratestackError).

Definition client_with (client_id : text) : query TOauthClient :=
  mkQuery (t := TOauthClient) (fun c => bool_decide (c.(OauthClient.clientId) = client_id)) [] (Some 1).

Definition find (client_id : text) : prog (result (option OauthClient.t) ConsoleClientError) :=
  pmap_err Database (first_row (client_with client_id)).

Definition check_console_client (console : ConsoleClient) : prog (result unit ConsoleClientError) :=
  let!? row := find (client_id console) in
  match row with
  | None => Ret (Err (Missing (client_id console)))
  | Some row =>
      let differences := mismatches row console in
      match differences with
      | [] => Ret (Ok tt)
      | _ =>
          match machine_conflicts differences with
          | [] => Ret (Err (Mismatched (client_id console) differences))
          | conflicts => Ret (Err (MachineClient (client_id console) conflicts))
          end
      end
  end.

(** What is stored for the console. *)
Definition public_client (console : ConsoleClient) (grant_types scopes redirect_uris : text)
  : CreateOauthClientInput :=
  mkCreateOauthClient (client_id console) None ClientAuthMethod.none None grant_types scopes redirect_uris true.

Definition reconciling (grant_types scopes redirect_uris : text) : list OauthClient.col :=
  [ OauthClient.SetAppClientId None; OauthClient.SetTokenEndpointAuthMethod ClientAuthMethod.none;
    OauthClient.SetJwks None; OauthClient.SetGrantTypes grant_types; OauthClient.SetScopes scopes;
    OauthClient.SetRedirectUris redirect_uris; OauthClient.SetRequirePkce true; OauthClient.SetActive true ].

Definition seed_console_client (console : ConsoleClient) : prog (result Seeded ConsoleClientError) :=
  let!? grant_types := lift (map_err Unstorable (pack [AUTHORIZATION_CODE])) in
  let!? scopes := lift (map_err Unstorable (pack CONSOLE_SCOPES)) in
  let!? redirect_uris := lift (map_err Unstorable (pack (redirect_uris console))) in
  let!? row := find (client_id console) in
  match row with
  | None =>
      let!? _ := pmap_err Database
        (do (Create TOauthClient (public_client console grant_types scopes redirect_uris))) in
      Ret (Ok Created)
  | Some row =>
      let differences := mismatches row console in
      match differences with
      | [] => Ret (Ok Unchanged)
      | _ =>
          match machine_conflicts differences with
          | [] =>
              let!? _ := pmap_err Database
                (do (Overwrite TOauthClient row.(OauthClient.id) (reconciling grant_types scopes redirect_uris))) in
              Ret (Ok (Reconciled differences))
          | conflicts => Ret (Err (MachineClient (client_id console) conflicts))
          end
      end
  end.

End Programs.

End ConsoleClient.

(** ** lib.rs, op.rs, provision.rs *)
Module OpStores.

Inductive GrantType :=
| AuthorizationCode | RefreshToken | ClientCredentials | DeviceCode | TokenExchange | Custom (name : text).

Inductive TokenEndpointAuthMethod := PrivateKeyJwt | NoAuth.

(** authkestra's keys: the set of public keys of a client, and the manager of one
    private key. *)
Class KeyLib := {
  JwkSet : Type;
  jwks_from_str : text -> result JwkSet text;
  TokenManager : Type;
  new_asymmetric : text -> option text -> option text -> result TokenManager text;
  Jwk : Type;
  public_jwk : TokenManager -> option Jwk;
  jwks_document : Jwk -> text }.

Definition grant_of (g : text) : GrantType :=
  if bool_decide (g = lit "authorization_code") then AuthorizationCode
  else if bool_decide (g = lit "refresh_token") then RefreshToken
  else if bool_decide (g = lit "client_credentials") then ClientCredentials
  else if bool_decide (g = lit "urn:ietf:params:oauth:grant-type:device_code") then DeviceCode
  else if bool_decide (g = lit "urn:ietf:params:oauth:grant-type:token-exchange") then TokenExchange
  else Custom g.

Definition auth_method_of (m : ClientAuthMethod.t) : TokenEndpointAuthMethod :=
  match m with
  | ClientAuthMethod.private_key_jwt => PrivateKeyJwt
  | ClientAuthMethod.none => NoAuth
  end.

Inductive StoreError := StoreInternal (message : text).

(** ** The refresh store holds nothing *)
Definition store_token (_ : text) : result unit StoreError :=
  Err (StoreInternal (lit "this deployment issues no refresh tokens")).
Definition get_token (_ : text) : result (option text) StoreError := Ok None.
Definition revoke_token (_ : text) : result unit StoreError := Ok tt.
Definition consume_token (_ : text) : result (option text) StoreError := Ok None.

(** ** What the provider advertises *)
Definition AUTHORIZATION_CODE_TTL_SECS : Z := 60.
Definition ACCESS_TOKEN_TTL_SECS : Z := 900.
Definition MACHINE_SCOPES_SUPPORTED : list text := [lit "sms:send"; lit "sms:read"].

Record OpConfig := mkOpConfig {
  op_issuer : text;
  scopes_supported : list text;
  response_types_supported : list text;
  grant_types_supported : list text;
  id_token_signing_alg : text;
  authorization_code_ttl_secs : Z;
  access_token_ttl_secs : Z;
  device_code_ttl_secs : Z;
  token_exchange_enabled : bool }.

Definition op_config (issuer : text) (served : ServedGrants) : OpConfig :=
  mkOpConfig issuer
    ((if sg_machine_tokens served then MACHINE_SCOPES_SUPPORTED else []) ++
     (if sg_human_login served then ConsoleClient.CONSOLE_SCOPES else []))
    (if sg_human_login served then [lit "code"] else [])
    (grant_types served) (lit "RS256") AUTHORIZATION_CODE_TTL_SECS ACCESS_TOKEN_TTL_SECS 60 false.

Section Stores.

Context `{E : CratestackErrors} `{K : KeyLib}.

Record ClientRegistration := mkRegistration {
  cr_client_id : text;
  cr_client_secret_hash : option text;
  cr_redirect_uris : list text;
  cr_grant_types : list GrantType;
  cr_scopes : list text;
  cr_require_pkce : bool;
  cr_allowed_audiences : list text;
  cr_token_endpoint_auth_method : option TokenEndpointAuthMethod;
  cr_jwks : option JwkSet }.

Inductive RegistrationError := MalformedJwks (client_id source : text).

Definition to_registration (row : OauthClient.t) : result ClientRegistration RegistrationError :=
  let? jwks :=
    match row.(OauthClient.jwks) with
    | None => Ok None
    | Some document =>
        match jwks_from_str document with
        | Ok set => Ok (Some set)
        | Err source => Err (MalformedJwks row.(OauthClient.clientId) source)
        end
    end in
  Ok (mkRegistration row.(OauthClient.clientId) None (unpack row.(OauthClient.redirectUris))
        (grant_of <$> unpack row.(OauthClient.grantTypes)) (unpack row.(OauthClient.scopes))
        row.(OauthClient.requirePkce) [] (Some (auth_method_of row.(OauthClient.tokenEndpointAuthMethod))) jwks).

Definition log_and_opaque (_ : CratestackError) : StoreError :=
  StoreInternal (lit "sms-auth delegate call failed").

Definition active_client (client_id : text) : query TOauthClient :=
  mkQuery (t := TOauthClient)
    (fun c => bool_decide (c.(OauthClient.clientId) = client_id) && c.(OauthClient.active)) [] (Some 1).

Definition find_client (client_id : text) : prog (result (option ClientRegistration) StoreError) :=
  let!? found := pmap_err log_and_opaque (first_row (active_client client_id)) in
  Ret match found with
      | None => Ok None
      | Some row =>
          match to_registration row with
          | Ok registration => Ok (Some registration)
          | Err _ => Err (StoreInternal (lit "sms-auth: stored client failed to parse"))
          end
      end.

(** [true] is a [jti] seen for the first time. *)
Definition record_jti (jti : text) (expires_at : Z) : prog (result bool StoreError) :=
  let! created := do (Create TAssertion (mkCreateAssertion jti expires_at)) in
  Ret match created with
      | Ok _ => Ok true
      | Err e => if bool_decide (db_sqlstate e = Some UNIQUE_VIOLATION) then Ok false
                 else Err (log_and_opaque e)
      end.

(** ** Signing keys *)

(** [anyhow::Error]. *)
Inductive AnyError := FromDatabase (e : CratestackError) | Message (m : text).

(** [generated] is the PEM of a new RSA key, or why there is none. *)
Definition other_active (id : text) : query TSigningKey :=
  mkQuery (t := TSigningKey)
    (fun k => k.(OauthSigningKey.active) && negb (bool_decide (k.(OauthSigningKey.id) = id))) [] None.

Fixpoint deactivate_all (keys : list OauthSigningKey.t) (expires_at : Z) : prog (result unit AnyError) :=
  match keys with
  | [] => Ret (Ok tt)
  | old :: rest =>
      let!? _ := pmap_err FromDatabase (do (Overwrite TSigningKey old.(OauthSigningKey.id)
        [OauthSigningKey.SetActive false; OauthSigningKey.SetExpiresAt (Some expires_at)])) in
      deactivate_all rest expires_at
  end.

Definition rotate_signing_key (generated : result text text) (overlap : Z) : prog (result text AnyError) :=
  let!? pem := lift (map_err Message generated) in
  let!? created := pmap_err FromDatabase (do (Create TSigningKey (mkCreateSigningKey pem None))) in
  let!? previously_active := pmap_err FromDatabase
    (do (FindMany TSigningKey (other_active created.(OauthSigningKey.id)))) in
  let! now := do Now in
  or_panic (chrono_add now overlap) (fun expires_at =>
  let!? _ := deactivate_all previously_active expires_at in
  Ret (Ok created.(OauthSigningKey.id))).

Definition still_valid (now : Z) : query TSigningKey :=
  mkQuery (t := TSigningKey)
    (fun k => k.(OauthSigningKey.active) ||
       match k.(OauthSigningKey.expiresAt) with Some at_ => now <? at_ | None => false end)
    [Desc (t := TSigningKey) (fun k => KInt (Some k.(OauthSigningKey.createdAt)))] None.

(** The loop over the rows, newest first. *)
Fixpoint load_rows (issuer : text) (rows : list OauthSigningKey.t) (signing : option TokenManager)
  (jwks : list Jwk) : result (option TokenManager * list Jwk) AnyError :=
  match rows with
  | [] => Ok (signing, jwks)
  | row :: rest =>
      match new_asymmetric row.(OauthSigningKey.privateKeyPem) (Some issuer) (Some row.(OauthSigningKey.id)) with
      | Err error => Err (Message (lit "building a TokenManager for key " ++ row.(OauthSigningKey.id)
                                     ++ lit ": " ++ error))
      | Ok manager =>
          let jwks := match public_jwk manager with Some jwk => jwks ++ [jwk] | None => jwks end in
          let signing := match signing with
                         | None => if row.(OauthSigningKey.active) then Some manager else None
                         | Some m => Some m
                         end in
          load_rows issuer rest signing jwks
      end
  end.

(** From the time on that it read. *)
Definition load_at (now : Z) (issuer : text) : prog (result (TokenManager * list Jwk) AnyError) :=
  let!? rows := pmap_err FromDatabase (do (FindMany TSigningKey (still_valid now))) in
  let!? loaded := lift (load_rows issuer rows None []) in
  Ret match loaded.1 with
      | Some signing => Ok (signing, loaded.2)
      | None => Err (Message (lit "no active OauthSigningKey — run `sms-gateway rotate-signing-key` before serving"))
      end.

Definition load_signing_keys (issuer : text) : prog (result (TokenManager * list Jwk) AnyError) :=
  let! now := do Now in load_at now issuer.

(** ** Machine clients *)
Record ProvisionedClient := mkProvisionedClient { pv_client_id : text; pv_private_key_pem : text }.

Inductive ProvisionError :=
| Scopes (message : text)
| PairScope (message : text)
| AppNotFound (id : text)
| AppInactive (id : text)
| Key (message : text)
| DatabaseError (e : CratestackError).

Definition token_client_body (app_id client_id label scopes_packed grant_types jwks : text)
  : txn (result (result unit ProvisionError) CratestackError) :=
  lett? found := tfirst_row (ClientKeys.app_with app_id) in
  match found with
  | None => TRet (Ok (Err (AppNotFound app_id)))
  | Some found =>
      if negb found.(App.active) then TRet (Ok (Err (AppInactive found.(App.id))))
      else
        lett? app_client := tdo (TCreate TAppClient
          (mkCreateAppClient found.(App.id) client_id label scopes_packed None None)) in
        lett? _ := tdo (TCreate TOauthClient
          (mkCreateOauthClient client_id (Some app_client.(AppClient.id)) ClientAuthMethod.private_key_jwt
             (Some jwks) grant_types scopes_packed EMPTY false)) in
        TRet (Ok (Ok tt))
  end.

Definition provision_token_client `{D : UnicodeDebug} (generated : result text text)
  (app_id label : text) (scopes : list text) : prog (result ProvisionedClient ProvisionError) :=
  let!? scopes_packed := lift (map_err (fun e => Scopes (ClientKeys.pack_error e)) (pack scopes)) in
  let!? _ := lift (map_err (fun e => PairScope (error_to_string e)) (refuse_pair_scope scopes_packed)) in
  let! uuid := do NewUuid in
  let client_id := lit "appc_" ++ uuid in
  let!? pem := lift (map_err Key generated) in
  let!? manager := lift (map_err Key (new_asymmetric pem None (Some client_id))) in
  let!? public_jwk := lift match public_jwk manager with
                           | Some jwk => Ok jwk
                           | None => Err (Key (lit "no public JWK for a freshly generated asymmetric key"))
                           end in
  let jwks := jwks_document public_jwk in
  let!? grant_types := lift (map_err (fun e => Scopes (ClientKeys.pack_error e)) (pack [CLIENT_CREDENTIALS])) in
  let!? outcome := pmap_err DatabaseError
    (do (Tx (token_client_body app_id client_id label scopes_packed grant_types jwks))) in
  let!? _ := lift outcome in
  Ret (Ok (mkProvisionedClient client_id pem)).

End Stores.

End OpStores.

(** ** The console's registration *)
Section ConsoleRow.

Import ConsoleClient.

Abbreviation text_le := (fun a b => Is_true (text_leb a b)).

#[local] Instance text_le_total : Total text_le.
Proof.
  intros a. induction a as [|x a IH]; intros [|y b]; cbn; try (by auto).
  rewrite (Z.eqb_sym y x). destruct (Z.eqb_spec x y) as [->|]; [apply IH|].
  destruct (Z.ltb_spec x y); [by left|]. right. by destruct (Z.ltb_spec y x); [|lia].
Qed.

#[local] Instance text_le_trans : Transitive text_le.
Proof.
  intros a. induction a as [|x a IH]; intros [|y b] [|z c]; cbn; try done.
  destruct (Z.eqb_spec x y) as [->|Hxy].
  - destruct (Z.eqb_spec y z); [apply IH | done].
  - destruct (Z.eqb_spec y z) as [->|Hyz].
    + destruct (Z.eqb_spec x z); [done|]. by intros.
    + intros H1 H2. apply Is_true_true in H1, H2. apply Z.ltb_lt in H1, H2.
      destruct (Z.eqb_spec x z); [lia|]. apply Is_true_true, Z.ltb_lt. lia.
Qed.

#[local] Instance text_le_antisymm : AntiSymm (=) text_le.
Proof.
  intros a. induction a as [|x a IH]; intros [|y b]; cbn; try done.
  destruct (Z.eqb_spec x y) as [->|Hxy].
  - rewrite Z.eqb_refl. intros H1 H2. f_equal. by apply IH.
  - intros H1 H2. apply Is_true_true in H1, H2. destruct (Z.eqb_spec y x); [done|].
    apply Z.ltb_lt in H1, H2. lia.
Qed.

Lemma same_set_perm a b : same_set a b = true <-> a ≡ₚ b.
Proof.
  unfold same_set, sort. rewrite bool_decide_eq_true. split.
  - intros H. rewrite <- (merge_sort_Permutation text_le a), <- (merge_sort_Permutation text_le b). by rewrite H.
  - intros H. apply (StronglySorted_unique text_le); try (by apply (StronglySorted_merge_sort text_le)).
    by rewrite !(merge_sort_Permutation text_le).
Qed.

(** Not a client that authenticates with a key. *)
Definition public_row (row : OauthClient.t) : Prop :=
  row.(OauthClient.tokenEndpointAuthMethod) = ClientAuthMethod.none /\
  row.(OauthClient.jwks) = None /\ row.(OauthClient.appClientId) = None.

Definition console_row (row : OauthClient.t) (console : ConsoleClient) : Prop :=
  row.(OauthClient.active) = true /\ public_row row /\
  unpack row.(OauthClient.grantTypes) = [AUTHORIZATION_CODE] /\
  unpack row.(OauthClient.scopes) ≡ₚ CONSOLE_SCOPES /\
  unpack row.(OauthClient.redirectUris) ≡ₚ redirect_uris console /\
  row.(OauthClient.requirePkce) = true.

Lemma mismatches_nil row console : mismatches row console = [] <-> console_row row console.
Proof.
  unfold console_row, public_row, mismatches. rewrite <- !same_set_perm. split.
  - intros H. repeat apply app_nil in H as [? H].
    repeat match goal with
    | H : (if negb ?b then _ else []) = [] |- _ => let E := fresh in destruct b eqn:E; [clear H | done]
    | H : (if bool_decide _ then _ else []) = [] |- _ => clear H
    end.
    repeat match goal with
    | H : bool_decide _ = true |- _ => apply bool_decide_eq_true in H
    | H : is_null ?o = true |- _ => destruct o eqn:?; [done | clear H]
    end. by split_and!.
  - intros (-> & (-> & -> & ->) & -> & -> & -> & ->). rewrite !bool_decide_eq_true_2 by done.
    rewrite bool_decide_eq_false_2; [done|]. intros H%list_elem_of_singleton. by vm_compute in H.
Qed.

Lemma conflicts_nil row console : machine_conflicts (mismatches row console) = [] <-> public_row row.
Proof.
  unfold machine_conflicts, mismatches, public_row. rewrite !List.filter_app.
  destruct row.(OauthClient.active), row.(OauthClient.tokenEndpointAuthMethod), row.(OauthClient.jwks),
    row.(OauthClient.appClientId); cbn [negb is_null bool_decide decide_rel]; 
  repeat case_match; cbn; split; try done; by intros (? & ? & ?).
Qed.

End ConsoleRow.

Section Seeding.

Import ConsoleClient.

Context `{E : CratestackErrors} `{B : !Backend}.

(** The unique index on [clientId]. *)
Definition unique_clients (w : world) : Prop :=
  forall id id' a b, w_tables w TOauthClient !! id = Some a -> w_tables w TOauthClient !! id' = Some b ->
    a.(OauthClient.clientId) = b.(OauthClient.clientId) -> id = id'.

(** The client of that name, once it is unique. *)
Definition client_is (w : world) (name : text) (c : OauthClient.t) : Prop :=
  w_tables w TOauthClient !! c.(OauthClient.id) = Some c /\ c.(OauthClient.clientId) = name /\
  forall id a, w_tables w TOauthClient !! id = Some a -> a.(OauthClient.clientId) = name -> a = c.

Lemma find_alone name w r w' : alone (find name) w r w' -> w' = w /\
  forall found, r = Ok found ->
    match found with
    | Some x => w_tables w TOauthClient !! x.(OauthClient.id) = Some x /\ x.(OauthClient.clientId) = name
    | None => rows_ok w -> forall id a, w_tables w TOauthClient !! id = Some a -> a.(OauthClient.clientId) <> name
    end.
Proof.
  intros (r0 & Hr & ->)%alone_map_err. apply (alone_first_row (t := TOauthClient)) in Hr as [-> Hr]; [|by intros n [= <-]].
  split; [done|]. intros found Hf. destruct r0 as [f|e]; [|done]. injection Hf as ->.
  specialize (Hr found eq_refl). destruct found as [x|].
  - destruct Hr as (Hs & Hw%bool_decide_eq_true & _). done.
  - intros Hok id a Ha Hn. destruct (Hok TOauthClient id a Ha) as [Hid _]. specialize (Hr a). cbn in Hr.
    cbn in Hid. rewrite Hid in Hr. specialize (Hr Ha eq_refl). by apply bool_decide_eq_false in Hr.
Qed.

Lemma packed_console console g s u :
  pack [AUTHORIZATION_CODE] = Ok g -> pack CONSOLE_SCOPES = Ok s -> pack (redirect_uris console) = Ok u ->
  Forall packable (redirect_uris console) ->
  unpack g = [AUTHORIZATION_CODE] /\ unpack s = CONSOLE_SCOPES /\ unpack u = redirect_uris console.
Proof.
  intros Hg Hs Hu Hp. split; [|split].
  - injection Hg as <-. vm_compute. reflexivity.
  - injection Hs as <-. vm_compute. reflexivity.
  - destruct (unpack_pack _ Hp) as (p & Hpk & Hun). by rewrite Hpk in Hu; injection Hu as <-.
Qed.

(** What a seeding leaves: the row it has made or found, nothing else changed. *)
Definition seeded (console : ConsoleClient) (w w' : world) : Prop :=
  (exists row, w_tables w' TOauthClient !! row.(OauthClient.id) = Some row /\
     row.(OauthClient.clientId) = client_id console /\ console_row row console /\
     ((w_tables w TOauthClient !! row.(OauthClient.id) = None /\
       forall id a, w_tables w TOauthClient !! id = Some a -> a.(OauthClient.clientId) <> client_id console) \/
      exists old, w_tables w TOauthClient !! row.(OauthClient.id) = Some old /\ public_row old /\
        old.(OauthClient.clientId) = client_id console) /\
     forall id, id <> row.(OauthClient.id) -> w_tables w' TOauthClient !! id = w_tables w TOauthClient !! id) /\
  forall t, t <> TOauthClient -> w_tables w' t = w_tables w t.

Lemma create_alone console g s u w r w' :
  rows_ok w -> exec _ (Create TOauthClient (public_client console g s u)) w r w' ->
  unpack g = [AUTHORIZATION_CODE] -> unpack s = CONSOLE_SCOPES -> unpack u = redirect_uris console ->
  (w' = w /\ is_ok r = false) \/ seeded console w w'.
Proof.
  intros Hok Hx Hg Hs Hu. destruct (exec_Create _ _ _ _ _ Hx)
    as [[-> Hr]|(id & now & Hfresh & [Hrow Hframe _] & Hb & _ & _ & Hc)]; [by left|]. right.
  split; [|done]. exists (created TOauthClient id now (public_client console g s u)).
  cbn [created row_id OauthClient.id OauthClient.clientId public_client] in *.
  split; [rewrite Hrow; apply lookup_insert_eq|]. split; [done|]. split.
  - split; [done|]. split; [done|].
    cbn [OauthClient.grantTypes OauthClient.scopes OauthClient.redirectUris cq_grantTypes cq_scopes cq_redirectUris public_client].
    by rewrite Hg, Hs, Hu.
  - split.
    + left. split; [by apply (unused_not_stored TOauthClient)|]. intros id' a Ha Hn. specialize (Hc id' a Ha). cbn in Hc. by apply bool_decide_eq_false in Hc.
    + intros id' Hne. rewrite Hrow. by apply lookup_insert_ne.
Qed.

Lemma overwrite_alone console row g s u w r w' :
  exec _ (Overwrite TOauthClient row.(OauthClient.id) (reconciling g s u)) w r w' ->
  w_tables w TOauthClient !! row.(OauthClient.id) = Some row -> public_row row ->
  row.(OauthClient.clientId) = client_id console ->
  unpack g = [AUTHORIZATION_CODE] -> unpack s = CONSOLE_SCOPES -> unpack u = redirect_uris console ->
  (w' = w /\ is_ok r = false) \/ seeded console w w'.
Proof.
  intros Hx Ha Hp Hn Hg Hs Hu. destruct (exec_Overwrite _ _ _ _ _ _ Hx)
    as [[-> Hr]|(a & b & clock & Ha' & Hc & [Hrow Hframe _] & _)]; [by left|]. right.
  pose proof (eq_trans (eq_sym Ha) Ha') as [= <-]. clear Ha'. destruct row as [i cr up ci ac am jw gt sc ru rp act].
  cbn in Hc, Ha, Hn, Hp. injection Hc as <-. split; [|done]. eexists.
  cbn [row_id OauthClient.id OauthClient.clientId] in *.
  split; [rewrite Hrow; apply lookup_insert_eq|]. split; [done|]. split.
  - split; [done|]. split; [done|].
    cbn [OauthClient.grantTypes OauthClient.scopes OauthClient.redirectUris cq_grantTypes cq_scopes cq_redirectUris public_client].
    by rewrite Hg, Hs, Hu.
  - split; [right; by eexists|]. intros id' Hne. rewrite Hrow. by apply lookup_insert_ne.
Qed.

Lemma seed_alone console w r w' :
  rows_ok w -> Forall packable (redirect_uris console) -> alone (seed_console_client console) w r w' ->
  (w' = w /\ (forall s, r = Ok s -> s = Unchanged /\ exists row,
     w_tables w TOauthClient !! row.(OauthClient.id) = Some row /\
     row.(OauthClient.clientId) = client_id console /\ console_row row console)) \/
  seeded console w w'.
Proof.
  intros Hok Hp Hr. unfold seed_console_client, lift in Hr.
  destruct (unpack_pack _ Hp) as (u & Hu & Huri).
  assert (exists g s, pack [AUTHORIZATION_CODE] = Ok g /\ pack CONSOLE_SCOPES = Ok s) as (g & s & Hg & Hs)
    by (do 2 eexists; split; vm_compute; reflexivity).
  destruct (packed_console console g s u Hg Hs Hu Hp) as (Hug & Hus & _).
  rewrite Hg, Hs, Hu in Hr. cbn [map_err pbind_ok pbind] in Hr.
  apply alone_bind_ok in Hr as [(found & w1 & Hf & Hr)|(e & Hf & ->)];
    apply find_alone in Hf as [-> Hf]; [|left; by split].
  specialize (Hf found eq_refl). destruct found as [row|].
  - destruct Hf as [Ha Hn]. destruct (mismatches row console) as [|d ds] eqn:Hm.
    { apply alone_inv in Hr as [-> ->]. left. split; [done|]. intros x [= <-]. split; [done|].
      exists row. by apply mismatches_nil in Hm. }
    destruct (machine_conflicts (d :: ds)) as [|c cs] eqn:Hc.
    + rewrite <- Hm in Hc. apply conflicts_nil in Hc.
      apply alone_bind_ok in Hr as [(b & w1 & Hx & [-> ->]%alone_inv)|(e & Hx & ->)];
        apply alone_map_err in Hx as (r0 & Hx%alone_do & He);
        destruct (overwrite_alone console row g s u _ _ _ Hx Ha Hc Hn Hug Hus Huri) as [[-> Hno]|?];
        try (by right); [by destruct r0 | left; by split].
    + apply alone_inv in Hr as [-> ->]. left. by split.
  - apply alone_bind_ok in Hr as [(b & w1 & Hx & [-> ->]%alone_inv)|(e & Hx & ->)];
      apply alone_map_err in Hx as (r0 & Hx%alone_do & He);
      destruct (create_alone console g s u _ _ _ Hok Hx Hug Hus Huri) as [[-> Hno]|?];
      try (by right); [by destruct r0 | left; by split].
Qed.

Lemma seeded_client console w w' : unique_clients w -> seeded console w w' ->
  exists row, client_is w' (client_id console) row /\ console_row row console.
Proof.
  intros Hu [(row & Hrow & Hn & Hc & Hold & Hrest) _]. exists row. split; [|done].
  split; [done|]. split; [done|]. intros id a Ha Hna. destruct (decide (id = row.(OauthClient.id))) as [->|Hne].
  { pose proof (eq_trans (eq_sym Hrow) Ha) as [= <-]. done. }
  rewrite Hrest in Ha by done. exfalso. destruct Hold as [[_ Hnone]|(old & Ho & _ & Hno)].
  - by apply (Hnone id a).
  - apply Hne. apply (Hu _ _ a old Ha Ho). congruence.
Qed.

Lemma client_is_found w name c q found :
  client_is w name c -> w_tables w TOauthClient !! found.(OauthClient.id) = Some found ->
  q = found.(OauthClient.clientId) -> q = name -> found = c.
Proof. intros (_ & _ & H) Hf -> Hn. by apply (H found.(OauthClient.id)). Qed.

Section Theorems.

Context `{K : OpStores.KeyLib}.

(** The registration the provider serves the console under. *)
Definition console_registration (console : ConsoleClient) (reg : OpStores.ClientRegistration) : Prop :=
  OpStores.cr_client_id reg = client_id console /\
  OpStores.cr_grant_types reg = [OpStores.AuthorizationCode] /\
  OpStores.cr_scopes reg ≡ₚ CONSOLE_SCOPES /\ OpStores.cr_redirect_uris reg ≡ₚ redirect_uris console /\
  OpStores.cr_require_pkce reg = true /\ OpStores.cr_jwks reg = None /\
  OpStores.cr_token_endpoint_auth_method reg = Some OpStores.NoAuth /\
  OpStores.cr_client_secret_hash reg = None.

Lemma registration_of_row row console : console_row row console ->
  row.(OauthClient.clientId) = client_id console ->
  exists reg, OpStores.to_registration row = Ok reg /\ console_registration console reg.
Proof.
  intros (_ & (Hm & Hj & _) & Hg & Hs & Hr & Hp) Hn. unfold OpStores.to_registration. rewrite Hj. cbn [rbind].
  eexists. split; [done|]. unfold console_registration.
  cbn [OpStores.cr_client_id OpStores.cr_grant_types OpStores.cr_scopes OpStores.cr_redirect_uris
       OpStores.cr_require_pkce OpStores.cr_jwks OpStores.cr_token_endpoint_auth_method
       OpStores.cr_client_secret_hash]. rewrite Hg, Hm. by split_and!.
Qed.

(** The client a program finds under a name. *)
Lemma check_found console row w r w' :
  client_is w (client_id console) row -> rows_ok w -> console_row row console ->
  alone (check_console_client console) w r w' ->
  w' = w /\ (r = Ok tt \/ exists e, r = Err (Database e)).
Proof.
  intros Hc Hok Hrow Hr. apply alone_bind_ok in Hr as [(found & w1 & Hf & Hr)|(e & Hf & ->)].
  - pose proof Hf as Hf'. apply find_alone in Hf' as [-> Hf']. specialize (Hf' found eq_refl).
    destruct found as [x|].
    + destruct Hf' as [Hx Hn]. rewrite (client_is_found w _ row _ x Hc Hx eq_refl Hn) in Hr.
      rewrite (proj2 (mismatches_nil row console) Hrow) in Hr. apply alone_inv in Hr as [-> ->]. auto.
    + exfalso. destruct Hc as (Hs & Hn & _). by apply (Hf' Hok _ row Hs).
  - pose proof Hf as Hf'. apply find_alone in Hf' as [-> _]. split; [done|]. right.
    apply alone_map_err in Hf as (r0 & _ & He). destruct r0; [done|]. injection He as ->. by eexists.
Qed.

Lemma served_found console row w r w' :
  client_is w (client_id console) row -> rows_ok w -> console_row row console ->
  alone (OpStores.find_client (client_id console)) w r w' ->
  w' = w /\ (r = Err (OpStores.StoreInternal (lit "sms-auth delegate call failed")) \/
    exists reg, r = Ok (Some reg) /\ console_registration console reg).
Proof.
  intros Hc Hok Hrow Hr. apply alone_bind_ok in Hr as [(found & w1 & Hf & [-> ->]%alone_inv)|(e & Hf & ->)];
    apply alone_map_err in Hf as (r0 & Hf & He);
    apply (alone_first_row (t := TOauthClient)) in Hf as [-> Hf]; try (by intros n [= <-]); (split; [done|]).
  - destruct r0 as [f|]; [|done]. injection He as <-. specialize (Hf found eq_refl). destruct found as [x|].
    + destruct Hf as (Hx & Hw & _). cbn in Hw. split_and_bool.
      rewrite (client_is_found w _ row _ x Hc Hx eq_refl) by done.
      destruct (registration_of_row row console Hrow) as (reg & Hreg & Hcr); [apply Hc|]. right.
      rewrite Hreg. by exists reg.
    + exfalso. destruct Hc as (Hs & Hn & _). specialize (Hf row Hs eq_refl). cbn in Hf.
      rewrite bool_decide_eq_true_2 in Hf by done. destruct Hrow as [Ha _]. by rewrite Ha in Hf.
  - destruct r0; [done|]. injection He as ->. by left.
Qed.

Lemma alone_exec_rows {A} (p : prog A) w a w' : rows_ok w -> alone p w a w' -> rows_ok w'.
Proof.
  intros Hok Hr. induction Hr as [|R c k w r w1 a w2 Hx _ IH]; [done|]. apply IH.
  by destruct (exec_rows _ _ _ _ _ Hok Hx) as (_ & ? & _).
Qed.

(** C23. Once seeding the console's client has answered, the check that lets the
    gateway start passes on what it left, and the provider's own client store
    serves that client with exactly the code grant, the console's scopes, the
    configured addresses, a challenge required and no key or secret. *)
Theorem console_seed_served console w s w' :
  rows_ok w -> unique_clients w -> Forall packable (redirect_uris console) ->
  alone (seed_console_client console) w (Ok s) w' ->
  (forall r w2, alone (check_console_client console) w' r w2 ->
     w2 = w' /\ (r = Ok tt \/ exists e, r = Err (Database e))) /\
  (forall r w2, alone (OpStores.find_client (client_id console)) w' r w2 ->
     w2 = w' /\ (r = Err (OpStores.StoreInternal (lit "sms-auth delegate call failed")) \/
       exists reg, r = Ok (Some reg) /\ console_registration console reg)).
Proof.
  intros Hok Hu Hp Hr. pose proof (alone_exec_rows _ _ _ _ Hok Hr) as Hok'.
  assert (exists row, client_is w' (client_id console) row /\ console_row row console) as (row & Hc & Hrow).
  { apply seed_alone in Hr as [[-> Hs]|Hs]; [|by eapply seeded_client|done|done].
    destruct (Hs s eq_refl) as (_ & row & Ha & Hn & Hrow). exists row. split; [|done]. split; [done|].
    split; [done|]. intros id a Ha' Hn'. assert (id = row.(OauthClient.id)) as ->.
    { apply (Hu _ _ a row Ha' Ha). congruence. }
    pose proof (eq_trans (eq_sym Ha) Ha') as [= <-]. done. }
  split; intros r w2 Hr'; [by eapply check_found | by eapply served_found].
Qed.

(** Seeding never takes a machine client over: a client that has a key,
    an app or another way to authenticate is left as it is, whatever its name;
    the only row that changes is a public one of the console's name, and no
    other table does. *)
Theorem console_seed_spares console w r w' id a :
  rows_ok w -> Forall packable (redirect_uris console) -> alone (seed_console_client console) w r w' ->
  w_tables w TOauthClient !! id = Some a ->
  (w_tables w' TOauthClient !! id = Some a \/
   public_row a /\ a.(OauthClient.clientId) = client_id console /\
   exists b, w_tables w' TOauthClient !! id = Some b /\ console_row b console) /\
  forall t, t <> TOauthClient -> w_tables w' t = w_tables w t.
Proof.
  intros Hok Hp [[-> _]|[(row & Hrow & Hn & Hc & Hold & Hrest) Hframe]]%seed_alone Ha; [by auto | |done|done].
  split; [|done]. destruct (decide (id = row.(OauthClient.id))) as [->|Hne]; [|left; by rewrite Hrest].
  right. destruct Hold as [[Hnone _]|(old & Ho & Hpub & Hno)]; [by pose proof (eq_trans (eq_sym Hnone) Ha)|].
  pose proof (eq_trans (eq_sym Ho) Ha) as [= <-]. split; [done|]. split; [done|]. by exists row.
Qed.

(** While the record of a spent assertion is kept, the same assertion is
    never accepted again; and accepting one records it. *)
Theorem assertion_once jti expires_at w r w' :
  rows_ok w -> alone (OpStores.record_jti jti expires_at) w r w' ->
  let recorded w := exists id a, w_tables w TAssertion !! id = Some a /\ a.(ClientAssertion.jti) = jti in
  (r = Ok true -> recorded w') /\ (recorded w -> r <> Ok true /\ w' = w).
Proof.
  intros Hok (x & w1 & Hx%alone_do & [-> ->]%alone_inv)%alone_bind. intros recorded.
  destruct (exec_Create _ _ _ _ _ Hx) as [[-> Hr]|(id & now & Hfresh & [Hrow _ _] & Hb & _ & _ & Hc)].
  - assert ((match x with Ok _ => Ok true | Err e => if bool_decide (db_sqlstate e = Some UNIQUE_VIOLATION)
      then Ok false else Err (OpStores.log_and_opaque e) end) <> Ok true) as Hno.
    { destruct x; [done|]. by case_bool_decide. }
    split; [by intros H%Hno|]. by split.
  - split.
    + intros _. exists id. eexists. rewrite Hrow. split; [apply lookup_insert_eq | done].
    + intros (id' & a & Ha & Hj). exfalso. specialize (Hc id' a Ha). cbn in Hc.
      by apply bool_decide_eq_false in Hc.
Qed.

End Theorems.

End Seeding.

(** ** Rotating the signing key *)
Section Rotation.

Import OpStores.

Context `{E : CratestackErrors} `{K : KeyLib} `{B : !Backend}.

Abbreviation signing_keys w := (w_tables w TSigningKey).

(** An old key after the rotation: it signs nothing any more and is published
    for a while. *)
Definition retired (k : OauthSigningKey.t) (until : Z) (k' : OauthSigningKey.t) : Prop :=
  k'.(OauthSigningKey.id) = k.(OauthSigningKey.id) /\
  k'.(OauthSigningKey.privateKeyPem) = k.(OauthSigningKey.privateKeyPem) /\
  k'.(OauthSigningKey.active) = false /\ k'.(OauthSigningKey.expiresAt) = Some until.

Lemma deactivate_alone keys until w w' :
  NoDup (OauthSigningKey.id <$> keys) ->
  Forall (fun k => signing_keys w !! k.(OauthSigningKey.id) = Some k) keys ->
  alone (deactivate_all keys until) w (Ok tt) w' ->
  (forall k, k ∈ keys -> exists k', signing_keys w' !! k.(OauthSigningKey.id) = Some k' /\ retired k until k') /\
  (forall id, id ∉ OauthSigningKey.id <$> keys -> signing_keys w' !! id = signing_keys w !! id).
Proof.
  revert w. induction keys as [|k keys IH]; intros w Hnd Hs Hr.
  { apply alone_inv in Hr as [_ ->]. split; [by intros k ?%elem_of_nil | done]. }
  cbn [fmap list_fmap] in Hnd. apply NoDup_cons in Hnd as [Hk Hnd]. apply Forall_cons in Hs as [Hsk Hs].
  apply alone_bind_ok in Hr as [(b0 & w1 & Hx & Hr)|(e & _ & [=])].
  apply alone_map_err in Hx as (r0 & Hx%alone_do & Hr0). destruct r0 as [b|]; [|done]. clear Hr0.
  destruct (exec_Overwrite _ _ _ _ _ _ Hx) as [[_ [=]]|(a & b' & clock & Ha & Hc & [Hrow _ _] & _)].
  pose proof (eq_trans (eq_sym Hsk) Ha) as [= <-]. cbn in Hc. injection Hc as <-. cbn [row_id OauthSigningKey.id OauthSigningKey.set_updatedAt] in Hrow.
  apply IH in Hr as [Hall Hrest]; [| done |].
  - split.
    + intros k' [->|Hin]%elem_of_cons; [|by apply Hall]. rewrite Hrest by done. rewrite Hrow.
      eexists. split; [apply lookup_insert_eq | done].
    + intros id Hid. cbn [fmap list_fmap] in Hid. apply not_elem_of_cons in Hid as [Hne Hid].
      rewrite Hrest by done. rewrite Hrow. by apply lookup_insert_ne.
  - apply Forall_forall. intros k' Hk'. rewrite Forall_forall in Hs. rewrite Hrow, lookup_insert_ne; [by apply Hs|].
    intros Heq. apply Hk. rewrite Heq. by apply list_elem_of_fmap_2.
Qed.

(** The keys after a rotation that made key [id] and retired the others until
    [until]. *)
Definition rotated (id : text) (until : Z) (w w' : world) : Prop :=
  signing_keys w !! id = None /\
  (exists k, signing_keys w' !! id = Some k /\ k.(OauthSigningKey.id) = id /\
     k.(OauthSigningKey.active) = true /\ k.(OauthSigningKey.expiresAt) = None) /\
  (forall id' k, signing_keys w !! id' = Some k ->
     if k.(OauthSigningKey.active) then exists k', signing_keys w' !! id' = Some k' /\ retired k until k'
     else signing_keys w' !! id' = Some k) /\
  (forall id', is_Some (signing_keys w' !! id') -> id' = id \/ is_Some (signing_keys w !! id')).

Lemma rotate_alone generated overlap w id w' :
  rows_ok w -> alone (rotate_signing_key generated overlap) w (Ok id) w' ->
  exists now, 0 <= now /\ rotated id (now + overlap) w w'.
Proof.
  intros Hok Hr. apply alone_bind_ok in Hr as [(pem & w0 & [_ ->]%alone_inv & Hr)|(e & _ & [=])].
  apply alone_bind_ok in Hr as [(k & w1 & Hx & Hr)|(e & _ & [=])].
  apply alone_map_err in Hx as (r0 & Hx%alone_do & He). destruct r0 as [k0|]; [|done]. injection He as <-.
  assert (rows_ok w1) as Hok1 by (by destruct (exec_rows _ _ _ _ _ Hok Hx) as (_ & ? & _)).
  destruct (exec_Create _ _ _ _ _ Hx) as [[_ [=]]|(id0 & now0 & Hf & [Hrow _ _] & Hb & _)].
  pose proof (Hb k eq_refl) as ->. cbn [created OauthSigningKey.id row_id cg_privateKeyPem cg_expiresAt] in *.
  apply (unused_not_stored TSigningKey) in Hf; [|done].
  apply alone_bind_ok in Hr as [(rows & w2 & Hq & Hr)|(e & _ & [=])].
  apply alone_map_err in Hq as (r1 & Hq%alone_do & He). destruct r1 as [rows0|]; [|done]. injection He as <-.
  pose proof (exec_FindMany _ _ _ _ _ Hq) as [-> Hrows]. destruct (Hrows rows eq_refl) as (Hst & Hnd & _).
  apply alone_bind in Hr as (now & w3 & Hn%alone_do & Hr). pose proof (exec_Now_clock _ _ _ Hn) as Hnow.
  apply exec_Now in Hn as ->. unfold chrono_add in Hr.
  destruct (_ && _); cbn [or_panic] in Hr; [|by apply alone_inv in Hr].
  apply alone_bind_ok in Hr as [([] & w4 & Hd & [[= ->] ->]%alone_inv)|(e & _ & [=])].
  apply deactivate_alone in Hd as [Hall Hrest]; [|done|by eapply Forall_impl; [exact Hst | intros ? [? _]]].
  assert (id0 ∉ OauthSigningKey.id <$> rows) as Hnew.
  { intros (k & Heq & Hk)%list_elem_of_fmap. rewrite Forall_forall in Hst. destruct (Hst k Hk) as (_ & Hw & _).
    cbn in Hw. split_and_bool. done. }
  exists now. split; [lia|]. split; [done|]. split; [|split].
  - rewrite Hrest, Hrow by done. eexists. split; [apply lookup_insert_eq | done].
  - intros id' k Hk. assert (id' <> id0) as Hne by (intros ->; by pose proof (eq_trans (eq_sym Hf) Hk)).
    assert (signing_keys w1 !! id' = Some k) as Hk1 by (rewrite Hrow, lookup_insert_ne; [exact Hk | done]).
    destruct (Hok1 TSigningKey _ _ Hk1) as [Hid _]. cbn in Hid. subst id'.
    destruct k.(OauthSigningKey.active) eqn:Ha.
    + apply Hall. apply (exec_FindMany_all TSigningKey _ _ _ _ k Hq Hk1); [|done|done].
      cbn. by rewrite Ha, bool_decide_eq_false_2.
    + rewrite Hrest; [done|]. intros (k' & Heq & Hk')%list_elem_of_fmap. rewrite Forall_forall in Hst.
      destruct (Hst k' Hk') as (Hs' & Hw & _). cbn in Hs', Hw. rewrite <- Heq in Hs'.
      pose proof (eq_trans (eq_sym Hk1) Hs') as [= <-]. by rewrite Ha in Hw.
  - intros id' [k Hk]. destruct (decide (id' ∈ OauthSigningKey.id <$> rows)) as [Hin|Hin].
    + apply list_elem_of_fmap in Hin as (k' & -> & Hk'). right. rewrite Forall_forall in Hst.
      destruct (Hst k' Hk') as (Hs' & Hw & _). cbn in Hs', Hw. split_and_bool.
      rewrite Hrow, lookup_insert_ne in Hs' by done. by eexists.
    + rewrite Hrest, Hrow in Hk by done. apply lookup_insert_Some in Hk as [[-> _]|[_ Hk]]; [by left|].
      right. by eexists.
Qed.

(** What loading makes of the rows: every key published, one active key used. *)
Lemma load_rows_ok issuer rows signing jwks signing' jwks' :
  load_rows issuer rows signing jwks = Ok (signing', jwks') ->
  (jwks ⊆ jwks') /\
  (forall k, k ∈ rows -> exists m,
     new_asymmetric k.(OauthSigningKey.privateKeyPem) (Some issuer) (Some k.(OauthSigningKey.id)) = Ok m /\
     forall j, public_jwk m = Some j -> j ∈ jwks') /\
  (forall m, signing' = Some m -> signing = Some m \/ exists k, k ∈ rows /\ k.(OauthSigningKey.active) = true /\
     new_asymmetric k.(OauthSigningKey.privateKeyPem) (Some issuer) (Some k.(OauthSigningKey.id)) = Ok m).
Proof.
  revert signing jwks. induction rows as [|k rows IH]; intros signing jwks Hl; cbn [load_rows] in Hl.
  { injection Hl as <- <-. split; [done|]. split; [by intros k ?%elem_of_nil | by left]. }
  destruct (new_asymmetric _ _ _) as [m|] eqn:Hm; [|done]. apply IH in Hl as (Hj & Hall & Hs).
  split; [intros j Hin; apply Hj; destruct (public_jwk m); [apply elem_of_app; by left | done]|]. split.
  - intros k' [->|Hin]%elem_of_cons; [|by apply Hall]. exists m. split; [done|]. intros j Hjm.
    apply Hj. rewrite Hjm. apply elem_of_app. right. by left.
  - intros m' Hm'. destruct (Hs m' Hm') as [Heq|(k' & Hk' & Ha & Hn)]; [|right; exists k'; split; [by right | done]].
    destruct signing as [m0|]; [by left|]. destruct k.(OauthSigningKey.active) eqn:Ha; [|done].
    injection Heq as <-. right. exists k. split; [by left | done].
Qed.

(** A provider that loads its keys after a rotation. *)
Definition loads_after (id : text) (until : Z) (w w' : world) : Prop :=
  forall t issuer signing jwks w2, alone (load_at t issuer) w' (Ok (signing, jwks)) w2 ->
    (exists k, signing_keys w' !! id = Some k /\
       new_asymmetric k.(OauthSigningKey.privateKeyPem) (Some issuer) (Some id) = Ok signing) /\
    (t < until -> forall id' k, signing_keys w !! id' = Some k -> k.(OauthSigningKey.active) = true ->
       exists m, new_asymmetric k.(OauthSigningKey.privateKeyPem) (Some issuer) (Some id') = Ok m /\
         forall j, public_jwk m = Some j -> j ∈ jwks).

Lemma rotated_loads id until w w' : rows_ok w -> rows_ok w' -> rotated id until w w' -> loads_after id until w w'.
Proof.
  intros Hok Hok' (_ & _ & Hold & Hnew) t issuer signing jwks w2 Hl.
  apply alone_bind_ok in Hl as [(rows & w1 & Hq & Hl)|(e & _ & [=])].
  apply alone_map_err in Hq as (r0 & Hq%alone_do & He). destruct r0 as [rows0|]; [|done]. injection He as <-.
  pose proof (exec_FindMany _ _ _ _ _ Hq) as [-> Hrows]. destruct (Hrows rows eq_refl) as (Hst & _ & _).
  rewrite Forall_forall in Hst.
  apply alone_bind_ok in Hl as [([sg js] & w3 & [Hlr ->]%alone_inv & [Hres ->]%alone_inv)|(e & _ & [=])].
  cbn [fst snd] in Hres. destruct sg as [m|]; [|done]. injection Hres as -> ->. symmetry in Hlr.
  apply load_rows_ok in Hlr as (_ & Hall & Hs). split.
  - destruct (Hs m eq_refl) as [[=]|(k & Hk & Ha & Hm)]. destruct (Hst k Hk) as (Hsk & _ & _). cbn in Hsk.
    assert (k.(OauthSigningKey.id) = id) as Hid; [|rewrite Hid in *; by exists k].
    destruct (Hnew k.(OauthSigningKey.id)) as [?|[k0 Hk0]]; [by eexists | done |]. exfalso.
    specialize (Hold _ _ Hk0). destruct k0.(OauthSigningKey.active) eqn:Ha0.
    + destruct Hold as (k' & Hk' & _ & _ & Hf & _). pose proof (eq_trans (eq_sym Hsk) Hk') as [= <-]. congruence.
    + pose proof (eq_trans (eq_sym Hsk) Hold) as [= <-]. congruence.
  - intros Ht id' k Hk Ha. specialize (Hold _ _ Hk). rewrite Ha in Hold.
    destruct Hold as (k' & Hk' & Hid & Hpem & _ & Hexp).
    destruct (Hok TSigningKey _ _ Hk) as [Hid' _]. cbn in Hid'. subst id'.
    destruct (Hall k') as (m' & Hm' & Hj).
    + apply (exec_FindMany_all TSigningKey _ _ _ _ k' Hq); [cbn; by rewrite Hid | | done | done].
      cbn. rewrite Hexp. apply orb_true_iff. right. by apply Z.ltb_lt.
    + exists m'. by rewrite <- Hpem, <- Hid.
Qed.

(** A rotation that nobody disturbs hands the signing over: the new key is
    the only active one, every key that was active is published until the end
    of the overlap and signs nothing more, no other key changes; and a provider
    loading its keys then signs with the new key and publishes, before the
    overlap ends, every key that was active before. *)
Theorem rotation_hands_over generated overlap w id w' :
  rows_ok w -> alone (rotate_signing_key generated overlap) w (Ok id) w' ->
  exists now, 0 <= now /\ rotated id (now + overlap) w w' /\ loads_after id (now + overlap) w w'.
Proof.
  intros Hok Hr. pose proof (alone_exec_rows _ _ _ _ Hok Hr) as Hok'.
  apply rotate_alone in Hr as (now & Hnow & Hrot); [|done]. exists now. split; [done|]. split; [done|].
  by apply rotated_loads.
Qed.

End Rotation.

(** ** Machine clients *)
Section Machines.

Import OpStores.

Context `{E : CratestackErrors} `{K : KeyLib} `{B : !Backend} `{D : UnicodeDebug}.

(** One client of an active app, under one name in both tables: it signs its
    own assertions, holds the scopes asked for, and was nobody's before. *)
Definition adds_token_client (app_id client_id label scopes jwks : text) (w w' : world) : Prop :=
  (exists app, w_tables w TApp !! app_id = Some app /\ app.(App.active) = true) /\
  exists ac oc,
    w_tables w' TAppClient = <[ac.(AppClient.id) := ac]> (w_tables w TAppClient) /\
    w_tables w' TOauthClient = <[oc.(OauthClient.id) := oc]> (w_tables w TOauthClient) /\
    w_tables w TAppClient !! ac.(AppClient.id) = None /\ w_tables w TOauthClient !! oc.(OauthClient.id) = None /\
    (ac.(AppClient.appId) = app_id /\ ac.(AppClient.clientId) = client_id /\ ac.(AppClient.label) = label /\
     ac.(AppClient.scopes) = scopes) /\
    (oc.(OauthClient.clientId) = client_id /\ oc.(OauthClient.appClientId) = Some ac.(AppClient.id) /\
     oc.(OauthClient.tokenEndpointAuthMethod) = ClientAuthMethod.private_key_jwt /\
     oc.(OauthClient.jwks) = Some jwks /\ oc.(OauthClient.scopes) = scopes /\
     unpack oc.(OauthClient.grantTypes) = [CLIENT_CREDENTIALS] /\ unpack oc.(OauthClient.redirectUris) = []) /\
    (forall id a, w_tables w TOauthClient !! id = Some a -> a.(OauthClient.clientId) <> client_id) /\
    (forall t, t <> TAppClient -> t <> TOauthClient -> w_tables w' t = w_tables w t).

Lemma token_client_run app_id client_id label scopes grants jwks w o w' :
  rows_ok w -> unpack grants = [CLIENT_CREDENTIALS] ->
  run_tx (token_client_body app_id client_id label scopes grants jwks) w (Ok o) w' ->
  match o with
  | Ok _ => adds_token_client app_id client_id label scopes jwks w w'
  | Err _ => w' = w
  end.
Proof.
  intros Hok Hg (found & w1 & Hf & Hr)%txrun_bind_Ok. apply (txrun_first_row (t := TApp)) in Hf as (-> & Hf & _).
  destruct found as [app|]; [|by apply txrun_inv in Hr as [[= ->] ->]].
  destruct (Hf app eq_refl) as (Happ & Hid%bool_decide_eq_true & _). cbn in Happ. rewrite Hid in Happ.
  destruct app.(App.active) eqn:Ha; cbn [negb] in Hr; [|by apply txrun_inv in Hr as [[= ->] ->]].
  apply txrun_bind_Ok in Hr as (ac & w2 & Hac & Hr). apply txrun_bind_Ok in Hr as (oc & w3 & Hoc & Hr).
  apply txrun_inv in Hr as [[= ->] ->]. pose proof (txrun_rows _ _ _ _ Hok Hac) as Hok2.
  apply txrun_create in Hac as (id & now & -> & Hfr & Htab & Hframe).
  apply txrun_create_unique in Hoc as [(id' & now' & -> & Hfr' & Htab' & Hframe') Huniq].
  assert (w_tables w2 TOauthClient = w_tables w TOauthClient) as Hsame by (by apply Hframe).
  split; [by exists app|].
  exists (created TAppClient id now (mkCreateAppClient app.(App.id) client_id label scopes None None)).
  exists (created TOauthClient id' now' (mkCreateOauthClient client_id (Some id) ClientAuthMethod.private_key_jwt
    (Some jwks) grants scopes EMPTY false)).
  split; [by rewrite Hframe', Htab|]. split; [by rewrite Htab', Hsame|].
  split; [by apply (unused_not_stored TAppClient)|].
  split; [rewrite <- Hsame; by apply (unused_not_stored TOauthClient)|].
  split; [by rewrite <- Hid|]. split; [by split_and!|]. split.
  - intros id2 a Ha2 Hn. rewrite <- Hsame in Ha2. specialize (Huniq _ _ Ha2). cbn in Huniq.
    by apply bool_decide_eq_false in Huniq.
  - intros t Ht1 Ht2. by rewrite Hframe', Hframe.
Qed.

(** Provisioning a machine client either adds that client, of an active
    app, with the scopes asked for and never the pairing scope, under a name no
    client had; or it leaves the database as it was. (An answer lost after the
    commit is reported as the database's error.) *)
Theorem token_client_provisioned generated app_id label scopes w r w' :
  rows_ok w -> alone (provision_token_client generated app_id label scopes) w r w' ->
  match r with
  | Ok p => exists packed jwks, pack scopes = Ok packed /\ names_pair_scope packed = false /\
      adds_token_client app_id (pv_client_id p) label packed jwks w w'
  | Err (DatabaseError _) => w' = w \/ exists client_id packed jwks, pack scopes = Ok packed /\
      names_pair_scope packed = false /\ adds_token_client app_id client_id label packed jwks w w'
  | Err _ => w' = w
  end.
Proof.
  intros Hok Hr. unfold provision_token_client, lift in Hr.
  destruct (pack scopes) as [packed|] eqn:Hpk; cbn [map_err pbind_ok pbind] in Hr;
    [|by apply alone_inv in Hr as [-> ->]].
  unfold refuse_pair_scope in Hr. destruct (names_pair_scope packed) eqn:Hps; cbn [map_err pbind_ok pbind] in Hr;
    [by apply alone_inv in Hr as [-> ->]|].
  apply alone_bind in Hr as (uuid & w1 & Hu%alone_do%exec_NewUuid & Hr). subst w1.
  destruct generated as [pem|]; cbn [map_err pbind_ok pbind] in Hr; [|by apply alone_inv in Hr as [-> ->]].
  destruct (new_asymmetric _ _ _) as [manager|]; cbn [map_err pbind_ok pbind] in Hr; [|by apply alone_inv in Hr as [-> ->]].
  destruct (public_jwk manager) as [jwk|]; cbn [map_err pbind_ok pbind] in Hr; [|by apply alone_inv in Hr as [-> ->]].
  assert (exists g, pack [CLIENT_CREDENTIALS] = Ok g /\ unpack g = [CLIENT_CREDENTIALS]) as (g & Hg & Hug)
    by (eexists; split; vm_compute; reflexivity).
  rewrite Hg in Hr. cbn [map_err pbind_ok pbind] in Hr.
  apply alone_bind_ok in Hr as [(o & w1 & Hx & Hr)|(e & Hx & ->)];
    apply alone_map_err in Hx as (r0 & Hx%alone_do%tx_outcome & He).
  - destruct r0 as [o0|]; [|done]. injection He as <-.
    destruct Hx as [(o1 & Hx & Ho)|[[=] _]]. rewrite <- (Ho o eq_refl) in Hx.
    pose proof (token_client_run _ _ _ _ _ _ _ _ _ Hok Hug Hx) as Ht.
    destruct o as [[]|e]; cbn [pbind_ok pbind] in Hr; apply alone_inv in Hr as [-> ->].
    + by exists packed, (jwks_document jwk).
    + destruct e; auto.
  - destruct r0 as [|e0]; [done|]. injection He as ->. destruct Hx as [(o1 & Hx & _)|[_ ->]]; [|by left].
    pose proof (token_client_run _ _ _ _ _ _ _ _ _ Hok Hug Hx) as Ht. destruct o1; [|by left].
    right. by do 3 eexists.
Qed.

End Machines.

(** ** Examples *)
Module OpExamples.

Import ConsoleClient OpStores.

#[local] Existing Instance demo_errors.

Definition demo_key_lib : KeyLib := {|
  JwkSet := text;
  jwks_from_str t := Ok t;
  TokenManager := text * option text;
  new_asymmetric pem issuer kid := Ok (pem, kid);
  Jwk := option text;
  public_jwk m := Some m.2;
  jwks_document j := default [] j |}.

#[local] Existing Instance demo_key_lib.

(** A run of a program on its own, on the reference database. *)
Lemma ref_alone o {A} (p : prog A) tr w a :
  run_result (ref_run o p tr w) = Some a -> alone (B := ref_backend o) p w a (ref_run o p tr w).2.
Proof.
  revert tr w. induction p as [b| |R c k IH]; intros tr w; cbn [ref_run run_result fst snd]; [|done|].
  - intros [= <-]. constructor.
  - destruct (ref_exec o c w) as [r w'] eqn:Hx. intros Hr. econstructor; [exact Hx|]. by apply IH.
Qed.

Definition console : ConsoleClient := mkConsoleClient (lit "vsms-console") [lit "https://console.test/callback"].

(** A row of the console's name whose challenge is not required, and a machine. *)
Definition stale_row : OauthClient.t :=
  OauthClient.mk (lit "c1") 0 0 (lit "vsms-console") None ClientAuthMethod.none None
    (lit " authorization_code refresh_token ") (lit " openid ") EMPTY false true.

Definition machine_row : OauthClient.t :=
  OauthClient.mk (lit "c2") 0 0 (lit "appc_1") (Some (lit "ac1")) ClientAuthMethod.private_key_jwt
    (Some (lit "{}")) (lit " client_credentials ") (lit " sms:send ") EMPTY false true.

Definition stale_world : world :=
  insert_row (insert_row empty_world TOauthClient stale_row) TOauthClient machine_row.

Lemma stale_world_ok : rows_ok stale_world.
Proof. apply (insert_row_ok (insert_row _ _ _)), insert_row_ok, empty_world_ok. Qed.

Lemma insert_row_same w t r : w_tables (insert_row w t r) t = <[row_id t r := r]> (w_tables w t).
Proof. apply set_table_eq. Qed.

Lemma empty_row t id : w_tables empty_world t !! id = None.
Proof. apply lookup_empty. Qed.

Lemma stale_rows id a : w_tables stale_world TOauthClient !! id = Some a ->
  (id = lit "c2" /\ a = machine_row) \/ (id = lit "c1" /\ a = stale_row).
Proof.
  unfold stale_world. rewrite !insert_row_same. intros Ha.
  apply lookup_insert_Some in Ha as [[<- <-]|[_ Ha]]; [by left|].
  apply lookup_insert_Some in Ha as [[<- <-]|[_ Ha]]; [by right|].
  by pose proof (eq_trans (eq_sym (empty_row TOauthClient id)) Ha).
Qed.

Lemma stale_world_unique : unique_clients stale_world.
Proof.
  intros id id' a b [[-> ->]|[-> ->]]%stale_rows [[-> ->]|[-> ->]]%stale_rows Heq; try reflexivity;
    exfalso; vm_compute in Heq; discriminate Heq.
Qed.

Definition seed_run := ref_run accepting (seed_console_client console) [] stale_world.

Definition found_differences : list Mismatch :=
  [ConsoleClient.RefreshToken; Grants [lit "authorization_code"; lit "refresh_token"]; ConsoleClient.Scopes [lit "openid"]; RedirectUris []; Pkce].

Lemma seed_run_ok : alone (B := ref_backend accepting) (seed_console_client console) stale_world
  (Ok (Reconciled found_differences)) seed_run.2.
Proof. apply ref_alone. vm_compute. reflexivity. Qed.

Lemma console_uris_packable : Forall packable (redirect_uris console).
Proof.
  apply Forall_singleton. split; [discriminate|]. apply Forall_forall. intros c Hc.
  assert (forallb (fun c => negb (is_whitespace c)) (lit "https://console.test/callback") = true) as Hall
    by (vm_compute; reflexivity).
  rewrite forallb_forall in Hall. by apply negb_true_iff, Hall, list_elem_of_In.
Qed.

Lemma console_seed_served_witness :
  unique_clients stale_world /\
  forall r w2, alone (B := ref_backend accepting) (find_client (lit "vsms-console")) seed_run.2 r w2 ->
    w2 = seed_run.2 /\ (r = Err (StoreInternal (lit "sms-auth delegate call failed")) \/
      exists reg, r = Ok (Some reg) /\ console_registration console reg).
Proof.
  split; [exact stale_world_unique|].
  exact (proj2 (console_seed_served (B := ref_backend accepting) console stale_world _ _
    stale_world_ok stale_world_unique console_uris_packable seed_run_ok)).
Defined.

Lemma console_seed_spares_witness :
  (w_tables seed_run.2 TOauthClient !! lit "c2" = Some machine_row \/
   public_row machine_row /\ machine_row.(OauthClient.clientId) = lit "vsms-console" /\
   exists b, w_tables seed_run.2 TOauthClient !! lit "c2" = Some b /\ console_row b console) /\
  forall t, t <> TOauthClient -> w_tables seed_run.2 t = w_tables stale_world t.
Proof.
  apply (console_seed_spares (B := ref_backend accepting) console stale_world _ seed_run.2 (lit "c2") machine_row
    stale_world_ok console_uris_packable seed_run_ok).
  vm_compute. reflexivity.
Defined.

Definition jti_run := ref_run accepting (record_jti (lit "j1") 5) [] empty_world.

Lemma assertion_once_witness :
  exists id a, w_tables jti_run.2 TAssertion !! id = Some a /\ a.(ClientAssertion.jti) = lit "j1".
Proof.
  assert (alone (B := ref_backend accepting) (record_jti (lit "j1") 5) empty_world (Ok true) jti_run.2) as Hr
    by (apply ref_alone; vm_compute; reflexivity).
  exact (proj1 (assertion_once (B := ref_backend accepting) (lit "j1") 5 empty_world (Ok true) jti_run.2
    (proj1 empty_world_ok) Hr) eq_refl).
Defined.

(** One key signs; it is rotated out. *)
Definition keyed_world : world :=
  insert_row empty_world TSigningKey (OauthSigningKey.mk (lit "k0") 0 0 (lit "pem0") true None).

Lemma keyed_world_ok : rows_ok keyed_world.
Proof. apply insert_row_ok, empty_world_ok. Qed.

Definition rotation := rotate_signing_key (Ok (lit "pem1")) 3600000000.

Definition rotation_run := ref_run accepting rotation [] keyed_world.

Definition new_key_id : text := fresh (w_used keyed_world TSigningKey).

Lemma rotation_hands_over_witness :
  exists now, 0 <= now /\ rotated new_key_id (now + 3600000000) keyed_world rotation_run.2.
Proof.
  assert (alone (B := ref_backend accepting) rotation keyed_world (Ok new_key_id) rotation_run.2) as Hr
    by (apply ref_alone; vm_compute; reflexivity).
  destruct (rotation_hands_over (B := ref_backend accepting) (Ok (lit "pem1")) 3600000000 keyed_world new_key_id
    rotation_run.2 keyed_world_ok Hr) as (now & Hn & Hrot & _). by exists now.
Defined.

Definition app_world : world :=
  insert_row empty_world TApp (App.mk (lit "app1") 0 0 (lit "Billing") (lit "billing") None None 1000 EMPTY false true None 0).

#[local] Existing Instance demo_debug.

Definition provision_once := provision_token_client (Ok (lit "pem")) (lit "app1") (lit "ci") [lit "sms:send"].

Definition provision_once_run := ref_run accepting provision_once [] app_world.

Lemma token_client_provisioned_witness :
  exists packed jwks, pack [lit "sms:send"] = Ok packed /\ names_pair_scope packed = false /\
    adds_token_client (lit "app1") (lit "appc_" ++ demo_uuid) (lit "ci") packed jwks app_world provision_once_run.2.
Proof.
  assert (alone (B := ref_backend accepting) provision_once app_world
    (Ok (mkProvisionedClient (lit "appc_" ++ demo_uuid) (lit "pem"))) provision_once_run.2) as Hr
    by (apply ref_alone; vm_compute; reflexivity).
  exact (token_client_provisioned (B := ref_backend accepting) _ _ _ _ app_world _ _
    (proj1 (insert_row_ok _ _ _ empty_world_ok)) Hr).
Defined.

(** ** Two rotations at once *)
Fixpoint ref_pool_run (o : oracle) {A} (schedule : list nat) (x : pool A) : pool A :=
  match schedule with
  | [] => x
  | i :: rest =>
      match x.1 !! i with
      | Some (Call c k, tr) =>
          let '(r, w') := ref_exec o c x.2 in
          ref_pool_run o rest (<[i := (k r, Ev c r :: tr)]> x.1, w')
      | _ => ref_pool_run o rest x
      end
  end.

Lemma ref_pool_steps o {A} schedule (x : pool A) :
  rtc (@pool_step _ (ref_backend o) A) x (ref_pool_run o schedule x).
Proof.
  revert x. induction schedule as [|i rest IH]; intros [ps w]; cbn [ref_pool_run]; [apply rtc_refl|].
  cbn [fst snd]. destruct (ps !! i) as [[p tr]|] eqn:Hi; [|apply IH]. destruct p as [a| |R c k]; [apply IH | apply IH |].
  destruct (ref_exec o c w) as [r w'] eqn:Hx. eapply rtc_l; [|apply IH].
  by apply (@pool_call _ (ref_backend o) A ps i R c k tr w r w').
Qed.

Definition answered {A X} (p : prog (result A X) * trace) : bool :=
  match p.1 with Ret (Ok _) => true | _ => false end.

(** The first rotation creates its key, then the second; each retires the
    other's. *)
Definition race : list nat := [0; 1; 0; 1; 0; 1; 0; 0; 1; 1]%nat.

Definition raced : pool (result text AnyError) :=
  ref_pool_run accepting race ([(rotation, []); (rotation, [])], keyed_world).

Lemma all_inactive (m : gmap text OauthSigningKey.t) :
  forallb (fun kr => negb kr.2.(OauthSigningKey.active)) (map_to_list m) = true ->
  forall id k, m !! id = Some k -> k.(OauthSigningKey.active) = false.
Proof.
  intros Hall id k Hk. rewrite forallb_forall in Hall. apply negb_true_iff, (Hall (id, k)).
  by apply list_elem_of_In, elem_of_map_to_list.
Qed.

(** Two rotations that run at the same time can both succeed and leave no
    key active at all: each retires the key the other has just made, and a
    provider that loads its keys then refuses to start. *)
Theorem rotations_race :
  exists y, rtc (@pool_step _ (ref_backend accepting) (result text AnyError))
      ([(rotation, []); (rotation, [])], keyed_world) y /\
    forallb answered y.1 = true /\
    (forall id k, w_tables y.2 TSigningKey !! id = Some k -> k.(OauthSigningKey.active) = false) /\
    run_result (ref_run accepting (load_signing_keys (lit "https://gw.test")) [] y.2) =
      Some (Err (Message (lit "no active OauthSigningKey — run `sms-gateway rotate-signing-key` before serving"))).
Proof.
  exists raced. split; [apply ref_pool_steps|]. split; [vm_compute; reflexivity|]. split; [|vm_compute; reflexivity].
  apply all_inactive. vm_compute. reflexivity.
Qed.

End OpExamples.
