(* ===== verification/Placeholders.v ===== *)
(** * The configuration document: placeholders and secrets

    The part of sms-config that works on the merged YAML document before it
    has types: config.rs (which placeholders it writes, which of its values
    are secrets, the resolution against the environment, what each process is
    not handed), retired.rs (flags and variables that configure nothing any
    more) and the reasons of error.rs.

    figment's [Value] is the data type below without its tags; a dict is a
    B-tree map, its entries in the order of their keys. *)

From S2P Require Import Prelude Float64 Errors Webhook Sns TokenDoor.

(** ** error.rs *)

(** The reasons of [auth.methods] are those of [Methods]. *)
Inductive ConfigError :=
| MissingPath
| FileNotFound (path : text)
| UnknownProfile (profile expected : text)
| SecurityNotLoaded
| Load (path reason : text)
| MalformedPlaceholder (key fragment : text)
| UnresolvedPlaceholder (name : text)
| SecretNotAPlaceholder (key : text)
| Shape (reason : text)
| EmptyField (key : text)
| InvalidValue (key reason : text)
| InsecureHost (key url : text)
| StubHostInLivemode (key url : text)
| LiteralSecret (key : text)
| DuplicateProvider (code : text)
| MissingProviderSetting (provider key : text)
| ProviderConfiguresNothing
| FakeSnsCertBaseInLivemode
| Auth (e : Methods.ConfigError)
| RetiredEnv (var key : text)
| RetiredFlag (flag key : text).

Definition invalid (key reason : text) : ConfigError := InvalidValue key reason.

(** ** retired.rs *)
Module RetiredNames.

Record Retired := retired { env : text; flag : text; key : text }.

Definition RETIRED : list Retired := [
  retired (lit "SMS_DB_MAX_CONNECTIONS") (lit "--max-connections") (lit "database.gateway_max_connections");
  retired (lit "SMS_WORKER_DB_MAX_CONNECTIONS") (lit "--db-max-connections") (lit "database.worker_max_connections");
  retired (lit "SMS_HASH_PEPPER") (lit "--hash-pepper") (lit "security.hash_pepper");
  retired (lit "SMS_IDEMPOTENCY_TTL_SECS") (lit "--idempotency-ttl-secs") (lit "api.idempotency_ttl_secs");
  retired (lit "SMS_RATE_LIMIT_BURST") (lit "--rate-limit-burst") (lit "api.rate_limit.burst");
  retired (lit "SMS_RATE_LIMIT_REFILL_PER_SECOND") (lit "--rate-limit-refill-per-second") (lit "api.rate_limit.refill_per_second");
  retired (lit "SMS_SOURCE_RATE_LIMIT_BURST") (lit "--source-rate-limit-burst") (lit "api.source_rate_limit.burst");
  retired (lit "SMS_SOURCE_RATE_LIMIT_REFILL_PER_SECOND") (lit "--source-rate-limit-refill-per-second") (lit "api.source_rate_limit.refill_per_second");
  retired (lit "ORANGE_CM_CLIENT_ID") (lit "--orange-client-id") (lit "providers[code=orange_cm].credentials.client_id");
  retired (lit "ORANGE_CM_CLIENT_SECRET") (lit "--orange-client-secret") (lit "providers[code=orange_cm].credentials.client_secret");
  retired (lit "ORANGE_CM_SENDER_NUMBER") (lit "--orange-sender-number") (lit "providers[code=orange_cm].settings.sender_number");
  retired (lit "ORANGE_CM_BASE_URL") (lit "--orange-base-url") (lit "providers[code=orange_cm].host.url");
  retired (lit "MTN_CLIENT_ID") (lit "--mtn-client-id") (lit "providers[code=mtn_cm].credentials.client_id");
  retired (lit "MTN_CLIENT_SECRET") (lit "--mtn-client-secret") (lit "providers[code=mtn_cm].credentials.client_secret");
  retired (lit "MTN_SERVICE_CODE") (lit "--mtn-service-code") (lit "providers[code=mtn_cm].settings.service_code");
  retired (lit "MTN_SENDER_ID") (lit "--mtn-sender-id") (lit "providers[code=mtn_cm].settings.sender_id");
  retired (lit "MTN_BASE_URL") (lit "--mtn-base-url") (lit "providers[code=mtn_cm].host.url");
  retired (lit "MTN_TPS_CEILING") (lit "--mtn-tps-ceiling") (lit "providers[code=mtn_cm].settings.tps_ceiling");
  retired (lit "MTN_COST_PER_SEGMENT_XAF") (lit "--mtn-cost-per-segment-xaf") (lit "providers[code=mtn_cm].settings.cost_per_segment_xaf");
  retired (lit "MTN_SUPPORTS_ALPHANUMERIC_SENDER") (lit "--mtn-supports-alphanumeric-sender") (lit "providers[code=mtn_cm].settings.supports_alphanumeric_sender");
  retired (lit "AWS_SMS_REGION") (lit "--aws-sms-region") (lit "providers[code=aws_sms].settings.region");
  retired (lit "AWS_SMS_ACCESS_KEY_ID") (lit "--aws-sms-access-key-id") (lit "providers[code=aws_sms].credentials.access_key_id");
  retired (lit "AWS_SMS_SECRET_ACCESS_KEY") (lit "--aws-sms-secret-access-key") (lit "providers[code=aws_sms].credentials.secret_access_key");
  retired (lit "AWS_SMS_CONFIGURATION_SET") (lit "--aws-sms-configuration-set") (lit "providers[code=aws_sms].settings.configuration_set");
  retired (lit "AWS_SMS_TPS_CEILING") (lit "--aws-sms-tps-ceiling") (lit "providers[code=aws_sms].settings.tps_ceiling");
  retired (lit "AWS_SMS_COST_PER_SEGMENT_XAF") (lit "--aws-sms-cost-per-segment-xaf") (lit "providers[code=aws_sms].settings.cost_per_segment_xaf");
  retired (lit "AWS_SMS_ORIGINATION_IDENTITY") (lit "--aws-sms-origination-identity") (lit "providers[code=aws_sms].settings.origination_identity");
  retired (lit "AWS_SMS_MESSAGE_TYPE") (lit "--aws-sms-message-type") (lit "providers[code=aws_sms].settings.message_type");
  retired (lit "AWS_SMS_SUPPORTS_ALPHANUMERIC_SENDER") (lit "--aws-sms-supports-alphanumeric-sender") (lit "providers[code=aws_sms].settings.supports_alphanumeric_sender");
  retired (lit "AWS_SMS_ENDPOINT_URL") (lit "--aws-sms-endpoint-url") (lit "providers[code=aws_sms].host.url");
  retired (lit "AWS_SMS_TIME_TO_LIVE_SECONDS") (lit "--aws-sms-time-to-live-seconds") (lit "providers[code=aws_sms].settings.time_to_live_seconds");
  retired (lit "AWS_SMS_EVENTS_TOPIC_ARN") (lit "--aws-sms-events-topic-arn") (lit "providers[code=aws_sms].settings.events_topic_arn");
  retired (lit "AWS_SMS_FAKE_SNS_CERT_BASE") (lit "--aws-sms-fake-sns-cert-base") (lit "providers[code=aws_sms].settings.fake_sns_cert_base");
  retired (lit "SMS_SSO_ISSUER") (lit "--sso-issuer") (lit "human_login.sso.issuer");
  retired (lit "SMS_SSO_CLIENT_ID") (lit "--sso-client-id") (lit "human_login.sso.client_id");
  retired (lit "SMS_SSO_CLIENT_SECRET") (lit "--sso-client-secret") (lit "human_login.sso.client_secret");
  retired (lit "SMS_SSO_REDIRECT_URI") (lit "--sso-redirect-uri") (lit "op.issuer");
  retired (lit "SMS_SSO_SCOPES") (lit "--sso-scopes") (lit "human_login.sso.scopes");
  retired (lit "SMS_SSO_REQUIRED_GROUP") (lit "--sso-required-group") (lit "human_login.sso.required_group");
  retired (lit "SMS_SSO_GROUPS_CLAIM") (lit "--sso-groups-claim") (lit "human_login.sso.groups_claim");
  retired (lit "SMS_SSO_ACCEPTED_ACR") (lit "--sso-accepted-acr") (lit "human_login.sso.accepted_acr");
  retired (lit "SMS_SSO_ACCEPTED_AMR") (lit "--sso-accepted-amr") (lit "human_login.sso.accepted_amr");
  retired (lit "SMS_SSO_JIT_ROLE") (lit "--sso-jit-role") (lit "human_login.sso.jit_role");
  retired (lit "SMS_SSO_JWKS_MIN_REFRESH_SECS") (lit "--sso-jwks-min-refresh-secs") (lit "human_login.sso.jwks_min_refresh_secs")].

(** Arguments that are not UTF-8 are passed over by the code; here an argument
    is [None] then. *)
Fixpoint check_args (args : list (option text)) : result unit ConfigError :=
  match args with
  | [] => Ok tt
  | None :: rest => check_args rest
  | Some arg :: rest =>
      let name := match split_once arg (lit "=") with Some (name, _) => name | None => arg end in
      match List.find (fun r => bool_decide (flag r = name)) RETIRED with
      | Some found => Err (RetiredFlag (flag found) (key found))
      | None => check_args rest
      end
  end.

Definition still_set (referenced : list text) (environment : text -> option text) (r : Retired) : bool :=
  negb (bool_decide (environment (env r) = None)) && negb (bool_decide (env r ∈ referenced)).

(** The loop stops at the first retired variable that is still set. *)
Definition check_env (referenced : list text) (environment : text -> option text) : result unit ConfigError :=
  match List.find (still_set referenced environment) RETIRED with
  | Some r => Err (RetiredEnv (env r) (key r))
  | None => Ok tt
  end.

End RetiredNames.

(** ** The document *)
Inductive Num := NumInt (z : Z) | NumFloat (x : f64).

Inductive Value :=
| VString (s : text)
| VChar (c : Z)
| VBool (b : bool)
| VNum (n : Num)
| VEmpty
| VDict (entries : list (text * Value))
| VArray (items : list Value).

Abbreviation dict := (list (text * Value)).

(** [BTreeMap::get], [remove], and figment's accessors. *)
Fixpoint dict_get (name : text) (entries : dict) : option Value :=
  match entries with
  | [] => None
  | (k, v) :: rest => if bool_decide (k = name) then Some v else dict_get name rest
  end.

Definition dict_remove (name : text) (entries : dict) : dict :=
  List.filter (fun kv => negb (bool_decide (kv.1 = name))) entries.

Definition as_str (v : Value) : option text := match v with VString s => Some s | _ => None end.
Definition as_dict (v : Value) : option dict := match v with VDict d => Some d | _ => None end.
Definition as_array (v : Value) : option (list Value) := match v with VArray l => Some l | _ => None end.

(** [Value::find_ref] of a dotted path, given as its parts. *)
Fixpoint find_ref (path : list text) (v : Value) : option Value :=
  match path with
  | [] => Some v
  | k :: rest => match as_dict v ≫= dict_get k with Some child => find_ref rest child | None => None end
  end.

(** ** Placeholders in a string *)
Definition OPEN : text := [36; 123].
Definition CLOSE : text := [125].

Fixpoint scan_loop (fuel : nat) (rest : text) : list text :=
  match fuel with
  | O => []
  | S fuel =>
      match split_once rest OPEN with
      | None => []
      | Some (_, after) =>
          match split_once after CLOSE with
          | None => []
          | Some (name, rest) => name :: scan_loop fuel rest
          end
      end
  end.

(** Every turn of the loop consumes a character. *)
Definition scan_placeholders (s : text) : list text := scan_loop (S (length s)) s.

(** A set of names as a list. *)
Fixpoint collect_placeholders (v : Value) : list text :=
  match v with
  | VString s => scan_placeholders s
  | VArray items => items ≫= collect_placeholders
  | VDict entries => entries ≫= (fun kv => collect_placeholders kv.2)
  | VChar _ | VBool _ | VNum _ | VEmpty => []
  end.

Definition name_char (c : Z) : bool := is_ascii_alphabetic c || is_ascii_digit c || (c =? 95).

Definition whole_placeholder_name (s : text) : option text :=
  match strip_prefix s OPEN ≫= (fun rest => Sns.strip_suffix rest CLOSE) with
  | Some name => if negb (bool_decide (name = [])) && forallb name_char name then Some name else None
  | None => None
  end.

Definition is_ascii_uppercase (c : Z) : bool := (65 <=? c) && (c <=? 90).

Definition is_env_var_name (name : text) : bool :=
  match name with
  | [] => false
  | first :: chars =>
      (is_ascii_uppercase first || (first =? 95)) &&
      forallb (fun c => is_ascii_uppercase c || is_ascii_digit c || (c =? 95)) chars
  end.

Definition is_whole_secret_placeholder (s : text) : bool :=
  match whole_placeholder_name s with Some name => is_env_var_name name | None => false end.

(** ** Secrets *)
Inductive SecretPlace := Outside | Exact | Inside.

#[export] Instance SecretPlace_eq_dec : EqDecision SecretPlace.
Proof. solve_decision. Defined.

Definition secret_place (key : text) (secret_keys : list text) : SecretPlace :=
  if bool_decide (key ∈ secret_keys) then Exact
  else if existsb (fun secret =>
            match strip_prefix key secret with
            | Some rest => starts_with rest (lit ".") || starts_with rest (lit "[")
            | None => false
            end) secret_keys
  then Inside else Outside.

Definition SECRET_CREDENTIAL_KEYS : list text := [lit "client_secret"; lit "secret_access_key"].

Definition provider_label (entry : dict) : text :=
  let code := default (lit "?") (dict_get (lit "code") entry ≫= as_str) in
  lit "providers[code=" ++ code ++ lit "]".

Definition provider_secrets (provider : Value) : list (text * Value) :=
  match as_dict provider with
  | None => []
  | Some entry =>
      let label := provider_label entry in
      match dict_get (lit "credentials") entry ≫= as_dict with
      | None => []
      | Some credentials =>
          SECRET_CREDENTIAL_KEYS ≫= (fun key =>
            match dict_get key credentials with
            | Some value => [(label ++ lit ".credentials." ++ key, value)]
            | None => []
            end)
      end
  end.

Definition secret_entries (document : Value) : list (text * Value) :=
  match find_ref [lit "security"; lit "hash_pepper"] document with
  | Some pepper => [(lit "security.hash_pepper", pepper)]
  | None => []
  end ++
  match find_ref [lit "human_login"; lit "sso"; lit "client_secret"] document with
  | Some secret => [(lit "human_login.sso.client_secret", secret)]
  | None => []
  end ++
  default [] (find_ref [lit "providers"] document ≫= as_array) ≫= provider_secrets.

Definition written_literally (v : Value) : bool :=
  match as_str v with Some s => negb (is_whole_secret_placeholder s) | None => true end.

Definition literal_secret_keys (document : Value) : list text :=
  fst <$> List.filter (fun kv => written_literally kv.2) (secret_entries document).

Definition not_text (v : Value) : bool := match v with VNum _ | VBool _ => true | _ => false end.

Definition NOT_TEXT : text :=
  lit "a secret must be a quoted YAML string (YAML read it as a number or a boolean)".

Definition require_text_secrets (document : Value) : result unit ConfigError :=
  match List.find (fun kv => not_text kv.2) (secret_entries document) with
  | Some (key, _) => Err (invalid key NOT_TEXT)
  | None => Ok tt
  end.

(** ** Resolution *)
Definition FRAGMENT_LIMIT : nat := 32.

Definition malformed_name (key name : text) : ConfigError :=
  let ellipsis := if bool_decide (FRAGMENT_LIMIT < length name)%nat then lit "..." else [] in
  MalformedPlaceholder key (OPEN ++ take FRAGMENT_LIMIT name ++ ellipsis ++ CLOSE).

Definition is_hidden (key s : text) (secret_keys : list text) : bool :=
  match secret_place key secret_keys with
  | Outside => false
  | Exact => negb (is_whole_secret_placeholder s)
  | Inside => true
  end.

Section Resolve.

Variable environment : text -> option text.

Fixpoint resolve_loop (fuel : nat) (key : text) (hidden : bool) (out rest : text) : result text ConfigError :=
  match fuel with
  | O => Ok out
  | S fuel =>
      match split_once rest OPEN with
      | None => Ok (out ++ rest)
      | Some (before, after) =>
          match split_once after CLOSE with
          | None => if hidden then Err (SecretNotAPlaceholder key)
                    else Err (MalformedPlaceholder key (lit "${ with no closing }"))
          | Some (name, rest) =>
              if bool_decide (name = []) || negb (forallb name_char name) then
                if hidden then Err (SecretNotAPlaceholder key) else Err (malformed_name key name)
              else if hidden && negb (is_env_var_name name) then Err (SecretNotAPlaceholder key)
              else
                match environment name with
                | None => if hidden then Err (SecretNotAPlaceholder key) else Err (UnresolvedPlaceholder name)
                | Some resolved => resolve_loop fuel key hidden (out ++ before ++ resolved) rest
                end
          end
      end
  end.

Definition resolve_string (key s : text) (secret_keys : list text) : result text ConfigError :=
  resolve_loop (S (length s)) key (is_hidden key s secret_keys) [] s.

(** The path of an item of an array, and of an entry of a dict. *)
Definition item_path (path : text) (index : nat) (item : Value) : text :=
  match as_dict item with
  | Some entry =>
      if bool_decide (path = lit "providers")
      then path ++ default [] (strip_prefix (provider_label entry) (lit "providers"))
      else path ++ lit "[" ++ show_Z (Z.of_nat index) ++ lit "]"
  | None => path ++ lit "[" ++ show_Z (Z.of_nat index) ++ lit "]"
  end.

Definition entry_path (path name : text) : text :=
  (if bool_decide (path = []) then path else path ++ lit ".") ++ name.

Fixpoint resolve_at (path : text) (secret_keys : list text) (v : Value) : result Value ConfigError :=
  match v with
  | VString s => let? s := resolve_string path s secret_keys in Ok (VString s)
  | VArray items =>
      let? items :=
        (fix resolve_items (index : nat) (items : list Value) : result (list Value) ConfigError :=
           match items with
           | [] => Ok []
           | item :: rest =>
               let? item := resolve_at (item_path path index item) secret_keys item in
               let? rest := resolve_items (S index) rest in
               Ok (item :: rest)
           end) O items in
      Ok (VArray items)
  | VDict entries =>
      let? entries :=
        (fix resolve_entries (entries : dict) : result dict ConfigError :=
           match entries with
           | [] => Ok []
           | (name, child) :: rest =>
               let? child := resolve_at (entry_path path name) secret_keys child in
               let? rest := resolve_entries rest in
               Ok ((name, child) :: rest)
           end) entries in
      Ok (VDict entries)
  | VChar _ | VBool _ | VNum _ | VEmpty => Ok v
  end.

Definition resolve_placeholders (document : Value) (secret_keys : list text) : result Value ConfigError :=
  resolve_at [] secret_keys document.

End Resolve.

(** ** What [load_with_env] does with the merged document *)
Inductive Binary := Gateway | Worker | ProviderTool | Operator.

#[export] Instance Binary_eq_dec : EqDecision Binary.
Proof. solve_decision. Defined.

Definition reads_security (b : Binary) : bool := bool_decide (b = Gateway).
Definition reads_sso (b : Binary) : bool := bool_decide (b = Gateway).

Definition remove_security (document : Value) : Value :=
  match document with VDict d => VDict (dict_remove (lit "security") d) | _ => document end.

(** [dict_entry] and the removal of [sso] in what it finds. *)
Definition remove_sso (document : Value) : Value :=
  match document with
  | VDict d =>
      VDict ((fun kv => if bool_decide (kv.1 = lit "human_login")
                        then (kv.1, match kv.2 with
                                    | VDict h => VDict (dict_remove (lit "sso") h)
                                    | other => other
                                    end)
                        else kv) <$> d)
  | _ => document
  end.

Definition handed_to (binary : Binary) (document : Value) : Value :=
  let document := if reads_security binary then document else remove_security document in
  if reads_sso binary then document else remove_sso document.

(** From the document as written to the document to read, with the keys of the
    secrets that were written literally. *)
Definition prepare (binary : Binary) (environment : text -> option text) (document : Value)
  : result (Value * list text) ConfigError :=
  let? _ := RetiredNames.check_env (collect_placeholders document) environment in
  let literal_secrets := literal_secret_keys document in
  let secret_keys := fst <$> secret_entries document in
  let? _ := require_text_secrets document in
  let? document := resolve_placeholders environment (handed_to binary document) secret_keys in
  Ok (document, literal_secrets).

(** ** What resolution amounts to *)

(** Induction over a document. *)
Section ValueInduction.

Variable P : Value -> Prop.
Hypothesis on_string : forall s, P (VString s).
Hypothesis on_char : forall c, P (VChar c).
Hypothesis on_bool : forall b, P (VBool b).
Hypothesis on_num : forall n, P (VNum n).
Hypothesis on_empty : P VEmpty.
Hypothesis on_dict : forall d, Forall (fun kv => P kv.2) d -> P (VDict d).
Hypothesis on_array : forall l, Forall P l -> P (VArray l).

Fixpoint Value_nested_ind (v : Value) : P v :=
  match v with
  | VString s => on_string s
  | VChar c => on_char c
  | VBool b => on_bool b
  | VNum n => on_num n
  | VEmpty => on_empty
  | VDict d => on_dict d ((fix entries (d : dict) : Forall (fun kv => P kv.2) d :=
      match d with
      | [] => List.Forall_nil _
      | kv :: rest => List.Forall_cons _ kv rest (Value_nested_ind kv.2) (entries rest)
      end) d)
  | VArray l => on_array l ((fix items (l : list Value) : Forall P l :=
      match l with
      | [] => List.Forall_nil _
      | item :: rest => List.Forall_cons _ item rest (Value_nested_ind item) (items rest)
      end) l)
  end.

End ValueInduction.

(** A string written as text around placeholders, and what it becomes: every
    name is one the reader accepts, and what is put in is not read again. *)
Inductive expands (environment : text -> option text) (accepts : text -> bool) : text -> text -> Prop :=
| expands_plain s : str_contains s OPEN = false -> expands environment accepts s s
| expands_name before name value rest out :
    str_contains before OPEN = false -> name <> [] -> forallb name_char name = true -> accepts name = true ->
    environment name = Some value -> expands environment accepts rest out ->
    expands environment accepts (before ++ OPEN ++ name ++ CLOSE ++ rest) (before ++ value ++ out).

Lemma split_once_None s p : split_once s p = None -> str_contains s p = false.
Proof.
  intros H. destruct (str_contains s p) eqn:E; [|done].
  apply split_once_contains in E as (a & b & E & _). congruence.
Qed.

(** The text before the first opening holds none. *)
Lemma split_open_first before rest :
  str_contains before OPEN = false -> split_once (before ++ OPEN ++ rest) OPEN = Some (before, rest).
Proof.
  induction before as [|c before IH]; [done|]. cbn [str_contains]. intros [Hs Hb]%orb_false_iff.
  change ((c :: before) ++ OPEN ++ rest) with (c :: (before ++ OPEN ++ rest)). cbn [split_once].
  rewrite IH by done. replace (starts_with (c :: before ++ OPEN ++ rest) OPEN) with false; [done|].
  symmetry. destruct before as [|d before]; cbn in Hs |- *; [by rewrite andb_comm | done].
Qed.

Lemma split_open_before s before rest : split_once s OPEN = Some (before, rest) -> str_contains before OPEN = false.
Proof.
  revert before. induction s as [|c s IH]; intros before; cbn [split_once]; [done|].
  destruct (starts_with (c :: s) OPEN) eqn:Hs; [by intros [= <- _]|].
  destruct (split_once s OPEN) as [[a b]|] eqn:E; [|done]. intros [= <- <-]. cbn [str_contains].
  rewrite (IH a eq_refl), orb_false_r. apply split_once_Some in E. subst s.
  destruct a as [|d a]; cbn in Hs |- *; [by destruct (36 =? c) | done].
Qed.

Lemma split_close_name name rest : forallb name_char name = true -> split_once (name ++ CLOSE ++ rest) CLOSE = Some (name, rest).
Proof.
  induction name as [|c name IH]; [done|]. cbn [forallb]. intros [Hc Hn]%andb_true_iff.
  change ((c :: name) ++ CLOSE ++ rest) with (c :: (name ++ CLOSE ++ rest)). cbn [split_once].
  rewrite IH by done. replace (starts_with (c :: name ++ CLOSE ++ rest) CLOSE) with false; [done|].
  symmetry. cbn [starts_with CLOSE]. by destruct (Z.eqb_spec 125 c) as [<-|].
Qed.

(** The loop, whatever it has already put out: it succeeds exactly on the
    strings that expand, and its failures are named. *)
Section Loop.

Context (environment : text -> option text) (key : text) (hidden : bool).

Definition accepted (name : text) : bool := negb hidden || is_env_var_name name.

Lemma resolve_loop_sound fuel out s r : (length s < fuel)%nat ->
  resolve_loop environment fuel key hidden out s = Ok r ->
  exists tail, r = out ++ tail /\ expands environment accepted s tail.
Proof.
  revert out s r. induction fuel as [|fuel IH]; intros out s r Hf; [lia|]. cbn [resolve_loop].
  destruct (split_once s OPEN) as [[before after]|] eqn:Ho;
    [|intros [= <-]; exists s; split; [done|]; by apply expands_plain, split_once_None].
  destruct (split_once after CLOSE) as [[name rest]|] eqn:Hc; [|by destruct hidden].
  pose proof (split_open_before _ _ _ Ho) as Hb.
  apply split_once_Some in Ho as ->. apply split_once_Some in Hc as ->.
  destruct (bool_decide_reflect (name = [])) as [|Hn]; [by destruct hidden|].
  destruct (forallb name_char name) eqn:Hch; [|by destruct hidden]. cbn [orb negb].
  destruct (hidden && negb (is_env_var_name name)) eqn:Ha; [done|].
  destruct (environment name) as [value|] eqn:He; [|by destruct hidden].
  intros (tail & -> & Ht)%IH; [|revert Hf; rewrite !length_app; cbn; lia].
  exists (before ++ value ++ tail). rewrite <- !app_assoc. split; [done|].
  apply expands_name; try done. unfold accepted. by destruct hidden, (is_env_var_name name).
Qed.

Lemma resolve_loop_complete s tail : expands environment accepted s tail ->
  forall fuel out, (length s < fuel)%nat -> resolve_loop environment fuel key hidden out s = Ok (out ++ tail).
Proof.
  induction 1 as [s Hs|before name value rest tail Hb Hn Hch Ha He _ IH]; intros [|fuel] out Hf; [lia| |lia|];
    cbn [resolve_loop].
  - destruct (split_once s OPEN) as [[a b]|] eqn:Ho; [|done].
    apply split_once_Some in Ho. assert (str_contains s OPEN = true) by (apply str_contains_spec; eauto). congruence.
  - rewrite (split_open_first before (name ++ CLOSE ++ rest) Hb), (split_close_name name rest Hch).
    rewrite bool_decide_eq_false_2, Hch by done. cbn [orb negb].
    replace (hidden && negb (is_env_var_name name)) with false
      by (revert Ha; unfold accepted; by destruct hidden, (is_env_var_name name)).
    rewrite He, IH by (revert Hf; rewrite !length_app; cbn; lia). by rewrite <- !app_assoc.
Qed.

Lemma resolve_loop_err fuel out s e : resolve_loop environment fuel key hidden out s = Err e ->
  match e with
  | SecretNotAPlaceholder k => k = key /\ hidden = true
  | MalformedPlaceholder k _ => k = key /\ hidden = false
  | UnresolvedPlaceholder name => hidden = false /\ environment name = None /\ str_contains s (OPEN ++ name ++ CLOSE) = true
  | _ => False
  end.
Proof.
  revert out s. induction fuel as [|fuel IH]; intros out s; [done|]. cbn [resolve_loop].
  destruct (split_once s OPEN) as [[before after]|] eqn:Ho; [|done].
  destruct (split_once after CLOSE) as [[name rest]|] eqn:Hc; [|by destruct hidden; intros [= <-]].
  destruct (bool_decide (name = []) || _); [by destruct hidden; intros [= <-]|].
  destruct (hidden && negb (is_env_var_name name)) eqn:Ha;
    [intros [= <-]; split; [done|]; by apply andb_true_iff in Ha as [? _]|].
  apply split_once_Some in Ho as ->. apply split_once_Some in Hc as ->.
  destruct (environment name) as [value|] eqn:He.
  - intros Hr%IH. destruct e as [| | | | | |n| | | | | | | | | | | | | |]; try done.
    destruct Hr as (-> & -> & (a & b & ->)%str_contains_spec). split; [done|]. split; [done|].
    apply str_contains_spec. exists (before ++ OPEN ++ name ++ CLOSE ++ a), b. by rewrite <- !app_assoc.
  - destruct hidden; intros [= <-]; [done|]. split; [done|]. split; [done|].
    apply str_contains_spec. exists before, rest. by rewrite <- !app_assoc.
Qed.

End Loop.

(** One string: it resolves exactly to what it expands to. *)
Lemma resolve_string_ok environment key s secret_keys out :
  resolve_string environment key s secret_keys = Ok out <->
  expands environment (accepted (is_hidden key s secret_keys)) s out.
Proof.
  unfold resolve_string. split.
  - intros (tail & -> & H)%resolve_loop_sound; [done | lia].
  - intros H. rewrite (resolve_loop_complete _ _ _ _ _ H) by lia. done.
Qed.

(** ** The strings of a document *)

(** Every string leaf with the key it is resolved under, in the order of the
    traversal; and the document with its leaves replaced. *)
Fixpoint leaves (path : text) (v : Value) : list (text * text) :=
  match v with
  | VString s => [(path, s)]
  | VArray items =>
      (fix item_leaves (index : nat) (items : list Value) : list (text * text) :=
         match items with
         | [] => []
         | item :: rest => leaves (item_path path index item) item ++ item_leaves (S index) rest
         end) O items
  | VDict entries => entries ≫= (fun kv => leaves (entry_path path kv.1) kv.2)
  | VChar _ | VBool _ | VNum _ | VEmpty => []
  end.

Fixpoint fill (f : text -> text -> text) (path : text) (v : Value) : Value :=
  match v with
  | VString s => VString (f path s)
  | VArray items =>
      VArray ((fix fill_items (index : nat) (items : list Value) : list Value :=
         match items with
         | [] => []
         | item :: rest => fill f (item_path path index item) item :: fill_items (S index) rest
         end) O items)
  | VDict entries => VDict ((fun kv => (kv.1, fill f (entry_path path kv.1) kv.2)) <$> entries)
  | VChar _ | VBool _ | VNum _ | VEmpty => v
  end.

Section Document.

Context (environment : text -> option text) (secret_keys : list text).

Definition expansion (key s : text) : text :=
  match resolve_string environment key s secret_keys with Ok out => out | Err _ => [] end.

(** The outcome of a traversal, from the outcomes at its leaves. *)
Definition traversed {A} (l : list (text * text)) (done : A) (r : result A ConfigError) : Prop :=
  match r with
  | Ok a => a = done /\ Forall (fun ks => is_ok (resolve_string environment ks.1 ks.2 secret_keys) = true) l
  | Err e => exists k s, (k, s) ∈ l /\ resolve_string environment k s secret_keys = Err e
  end.

Lemma traversed_bind {A B C} (l1 l2 : list (text * text)) (a : A) (b : B) r1 r2 (f : A -> B -> C) :
  traversed l1 a r1 -> traversed l2 b r2 ->
  traversed (l1 ++ l2) (f a b) (let? x := r1 in let? y := r2 in Ok (f x y)).
Proof.
  destruct r1 as [x|e]; cbn [traversed rbind].
  - intros [-> H1]. destruct r2 as [y|e]; cbn [traversed rbind].
    + intros [-> H2]. split; [done|]. by apply Forall_app.
    + intros (k & s & Hin & He). exists k, s. split; [|done]. apply elem_of_app. by right.
  - intros (k & s & Hin & He) _. exists k, s. split; [|done]. apply elem_of_app. by left.
Qed.

Lemma traversed_map {A B} l (a : A) r (f : A -> B) :
  traversed l a r -> traversed l (f a) (let? x := r in Ok (f x)).
Proof. destruct r; cbn [traversed rbind]; [|done]. by intros [-> ?]. Qed.

Lemma resolve_at_traversed path v :
  traversed (leaves path v) (fill expansion path v) (resolve_at environment path secret_keys v).
Proof.
  revert path. induction v as [s|c|b|n| |d IH|l IH] using Value_nested_ind; intros path;
    cbn [leaves fill resolve_at]; try (by split; [done | constructor]).
  - unfold traversed. destruct (resolve_string environment path s secret_keys) as [out|e] eqn:E; cbn [rbind].
    + unfold expansion. rewrite E. split; [done|]. apply Forall_singleton. cbn [fst snd]. by rewrite E.
    + exists path, s. split; [by apply list_elem_of_singleton | done].
  - apply (traversed_map _ _ _ VDict). induction IH as [|[name child] rest Hc _ IHrest]; [by split|].
    cbn [fst snd] in *. apply (traversed_bind _ _ _ _ _ _ (fun a b => (name, a) :: b)); [apply Hc | apply IHrest].
  - apply (traversed_map _ _ _ VArray). generalize O as index.
    induction IH as [|item rest Hc _ IHrest]; intros index; [by split|].
    apply (traversed_bind _ _ _ _ _ _ cons); [apply Hc | apply IHrest].
Qed.

End Document.

(** ** Where the secrets are *)
Lemma dict_get_in name d v : dict_get name d = Some v -> (name, v) ∈ d.
Proof.
  induction d as [|[k v'] d IH]; cbn [dict_get]; [done|].
  case_bool_decide as Hk; [intros [= <-]; subst; by left | intros ?; right; by apply IH].
Qed.

Lemma leaves_entry path d name v ks :
  (name, v) ∈ d -> ks ∈ leaves (entry_path path name) v -> ks ∈ leaves path (VDict d).
Proof. intros Hd Hk. cbn [leaves]. apply list_elem_of_bind. by exists (name, v). Qed.

Lemma find_ref_leaf p v s path : find_ref p v = Some (VString s) ->
  (foldl entry_path path p, s) ∈ leaves path v.
Proof.
  revert v path. induction p as [|k p IH]; intros v path; cbn [find_ref foldl]; [intros [= ->]; by left|].
  destruct v as [| | | | |d|]; cbn [as_dict mbind option_bind]; try done.
  destruct (dict_get k d) as [child|] eqn:Hk; [|done]. intros H%(IH _ (entry_path path k)).
  eapply leaves_entry; [by apply dict_get_in | done].
Qed.

Lemma leaves_item path l v ks index (Hi : l !! index = Some v) :
  ks ∈ leaves (item_path path index v) v -> ks ∈ leaves path (VArray l).
Proof.
  cbn [leaves]. rewrite <- (Nat.add_0_r index) at 1. revert index Hi. generalize O as base.
  induction l as [|item rest IH]; intros base [|index] Hi Hk; [done | done | |];
    apply elem_of_app; [left|right].
  - injection Hi as ->. exact Hk.
  - apply (IH (S base) index Hi). by rewrite Nat.add_succ_r.
Qed.

Lemma provider_secret_leaf provider k s :
  (k, VString s) ∈ provider_secrets provider ->
  exists d, provider = VDict d /\ (k, s) ∈ leaves (provider_label d) provider.
Proof.
  unfold provider_secrets. destruct provider as [| | | | |d|]; cbn [as_dict]; try by intros ?%elem_of_nil.
  intros H. exists d. split; [done|]. revert H.
  destruct (dict_get (lit "credentials") d) as [v|] eqn:Hc; cbn [mbind option_bind]; [|by intros ?%elem_of_nil].
  destruct v as [| | | | |credentials|]; cbn [as_dict]; try by intros ?%elem_of_nil.
  intros (name & H & _)%list_elem_of_bind.
  destruct (dict_get name credentials) as [v|] eqn:Hn; [|by apply elem_of_nil in H].
  apply list_elem_of_singleton in H as [= -> <-].
  eapply leaves_entry; [by apply dict_get_in|]. eapply leaves_entry; [by apply dict_get_in|].
  assert (entry_path (entry_path (provider_label d) (lit "credentials")) name
    = provider_label d ++ lit ".credentials." ++ name) as ->; [|by left].
  unfold entry_path, provider_label. rewrite !bool_decide_eq_false_2 by discriminate. by rewrite <- !app_assoc.
Qed.

(** Every secret that is a string is resolved under the key it is reported
    by. *)
Lemma secret_entries_leaf document k s :
  (k, VString s) ∈ secret_entries document -> (k, s) ∈ leaves [] document.
Proof.
  unfold secret_entries. rewrite !elem_of_app. intros [H|[H|H]].
  - destruct (find_ref _ document) as [v|] eqn:Hf; [|by apply elem_of_nil in H].
    apply list_elem_of_singleton in H as [= -> <-]. by apply (find_ref_leaf _ _ _ []) in Hf.
  - destruct (find_ref _ document) as [v|] eqn:Hf; [|by apply elem_of_nil in H].
    apply list_elem_of_singleton in H as [= -> <-]. by apply (find_ref_leaf _ _ _ []) in Hf.
  - apply list_elem_of_bind in H as (provider & Hs & Hp).
    destruct (provider_secret_leaf _ _ _ Hs) as (d & -> & Hl).
    destruct document as [| | | | |top|]; try by apply elem_of_nil in Hp.
    cbn [find_ref as_dict mbind option_bind] in Hp. revert Hp.
    destruct (dict_get (lit "providers") top) as [v|] eqn:Hd; [|by intros ?%elem_of_nil].
    destruct v as [| | | | | |items]; try by intros ?%elem_of_nil.
    cbn [as_array option_bind default]. intros [index Hi]%list_elem_of_lookup.
    eapply leaves_entry; [by apply dict_get_in|]. eapply leaves_item; [exact Hi|].
    unfold item_path. cbn [as_dict]. rewrite bool_decide_eq_true_2 by done. exact Hl.
Qed.

(** ** What each process reads of the environment *)
Lemma resolve_loop_reads env1 env2 key hidden fuel out s :
  (forall name, name ∈ scan_loop fuel s -> env1 name = env2 name) ->
  resolve_loop env1 fuel key hidden out s = resolve_loop env2 fuel key hidden out s.
Proof.
  revert out s. induction fuel as [|fuel IH]; intros out s H; [done|]. cbn [resolve_loop scan_loop] in *.
  destruct (split_once s OPEN) as [[before after]|]; [|done].
  destruct (split_once after CLOSE) as [[name rest]|]; [|done].
  rewrite (H name) by (by left). repeat case_match; try done. apply IH. intros n Hn. apply H. by right.
Qed.

Lemma resolve_at_reads env1 env2 secret_keys v path :
  (forall name, name ∈ collect_placeholders v -> env1 name = env2 name) ->
  resolve_at env1 path secret_keys v = resolve_at env2 path secret_keys v.
Proof.
  revert path. induction v as [s|c|b|n| |d IH|l IH] using Value_nested_ind; intros path H;
    cbn [resolve_at collect_placeholders] in *; try done.
  - unfold resolve_string. by rewrite (resolve_loop_reads env1 env2).
  - f_equal. revert H. induction IH as [|[name child] rest Hc _ IHrest]; intros H; [done|].
    cbn [fst snd] in *. rewrite Hc, IHrest; [done | |]; intros n Hn; apply H, elem_of_app; [by right | by left].
  - f_equal. revert H. generalize O as index. induction IH as [|item rest Hc _ IHrest]; intros index H; [done|].
    rewrite Hc, IHrest; [done | |]; intros n Hn; apply H, elem_of_app; [by right | by left].
Qed.

Lemma find_ext {A} (f g : A -> bool) (l : list A) : (forall x, x ∈ l -> f x = g x) -> List.find f l = List.find g l.
Proof.
  induction l as [|x l IH]; intros H; [done|]. cbn [List.find].
  rewrite (H x), IH; [done | intros y Hy; apply H; by right | by left].
Qed.

Lemma dict_get_remove name d : dict_get name (dict_remove name d) = None.
Proof.
  induction d as [|[k v] d IH]; cbn; [done|]. case_bool_decide as Hk; cbn [negb]; [done|].
  cbn [dict_get]. by rewrite bool_decide_eq_false_2.
Qed.

Lemma dict_get_map f name d : (forall kv, (f kv).1 = kv.1) ->
  dict_get name (f <$> d) = (fun v => (f (name, v)).2) <$> dict_get name d.
Proof.
  intros Hf. induction d as [|[k v] d IH]; cbn [fmap list_fmap dict_get]; [done|].
  pose proof (Hf (k, v)) as Hk. destruct (f (k, v)) as [k' v'] eqn:E. cbn in Hk. subst k'.
  case_bool_decide; [subst; cbn; by rewrite E | apply IH].
Qed.

Lemma find_security_removed document : find_ref [lit "security"] (remove_security document) = None.
Proof. destruct document; try done. cbn [remove_security find_ref as_dict mbind option_bind]. by rewrite dict_get_remove. Qed.

Lemma find_sso_removed document : find_ref [lit "human_login"; lit "sso"] (remove_sso document) = None.
Proof.
  destruct document as [| | | | |d|]; try done. unfold remove_sso. cbn [find_ref as_dict mbind option_bind].
  rewrite dict_get_map by (intros kv; by case_bool_decide).
  destruct (dict_get (lit "human_login") d) as [v|]; [|done]. cbn [fmap option_fmap option_map fst snd].
  rewrite bool_decide_eq_true_2 by done. cbn [snd]. destruct v; try done.
  cbn [as_dict mbind option_bind]. by rewrite dict_get_remove.
Qed.

Lemma find_security_sso document :
  find_ref [lit "security"] document = None -> find_ref [lit "security"] (remove_sso document) = None.
Proof.
  destruct document as [| | | | |d|]; try done. unfold remove_sso. cbn [find_ref as_dict mbind option_bind].
  rewrite dict_get_map by (intros kv; by case_bool_decide).
  by destruct (dict_get (lit "security") d).
Qed.

(** ** Theorems *)

(** Resolving a document either replaces every string by what it expands
    to and changes nothing else, or names a string that does not expand. *)
Theorem placeholders_resolved environment document secret_keys :
  let reads k s := expands environment (accepted (is_hidden k s secret_keys)) s in
  match resolve_placeholders environment document secret_keys with
  | Ok resolved => exists f, resolved = fill f [] document /\
      forall k s, (k, s) ∈ leaves [] document -> reads k s (f k s)
  | Err _ => exists k s, (k, s) ∈ leaves [] document /\ forall out, ~ reads k s out
  end.
Proof.
  intros reads. pose proof (resolve_at_traversed environment secret_keys [] document) as H.
  unfold resolve_placeholders. destruct (resolve_at _ _ _ _) as [resolved|e]; cbn [traversed] in H.
  - destruct H as [-> H]. exists (expansion environment secret_keys). split; [done|].
    intros k s Hin. rewrite Forall_forall in H. specialize (H _ Hin). cbn [fst snd] in H.
    apply resolve_string_ok. unfold expansion. by destruct (resolve_string _ _ _ _).
  - destruct H as (k & s & Hin & He). exists k, s. split; [done|]. intros out Ho%resolve_string_ok. congruence.
Qed.

Lemma whole_form s : is_whole_secret_placeholder s = true ->
  exists name, s = OPEN ++ name ++ CLOSE /\ name <> [] /\ forallb name_char name = true /\ is_env_var_name name = true.
Proof.
  unfold is_whole_secret_placeholder, whole_placeholder_name, strip_prefix.
  destruct (starts_with s OPEN) eqn:Hs; [|done]. apply starts_with_spec in Hs as [rest ->].
  rewrite drop_app_length. cbn [mbind option_bind]. unfold Sns.strip_suffix, strip_prefix.
  destruct (starts_with (reverse rest) (reverse CLOSE)) eqn:Hc; [|done].
  apply starts_with_spec in Hc as [r Hr]. rewrite Hr, drop_app_length. cbn [fmap option_fmap option_map].
  destruct (bool_decide_reflect (reverse r = [])) as [|Hne]; [done|].
  destruct (forallb name_char (reverse r)) eqn:Hn; [|done]. cbn [negb andb]. intros Hv. exists (reverse r).
  split; [|done]. f_equal. rewrite <- (reverse_involutive rest), Hr, reverse_app. by rewrite reverse_involutive.
Qed.

(** A secret written as it must be can fail in one way only. *)
Lemma resolve_whole environment key s : is_whole_secret_placeholder s = true -> exists name,
  s = OPEN ++ name ++ CLOSE /\ is_env_var_name name = true /\
  resolve_loop environment (S (length s)) key false [] s =
    match environment name with Some v => Ok v | None => Err (UnresolvedPlaceholder name) end.
Proof.
  intros (name & -> & Hne & Hn & Hv)%whole_form. exists name. split; [done|]. split; [done|].
  rewrite <- (app_nil_l (OPEN ++ name ++ CLOSE)) at 2. rewrite <- (app_nil_r CLOSE) at 2.
  cbn [resolve_loop]. rewrite split_open_first, split_close_name by done.
  rewrite bool_decide_eq_false_2, Hn by done. cbn [orb negb andb app].
  destruct (environment name) as [v|]; [|done].
  rewrite length_app. cbn. by rewrite app_nil_r.
Qed.

(** C25. No failure before the document is read repeats a secret.  Every secret
    that is a string is resolved under its own key; a failure at a place that
    is a secret, or inside one, names the key alone, unless the whole secret is
    one placeholder of an unset variable, which is named.  The other failures
    come from strings that are no secret, from the table of retired variables,
    or name the key of a secret that is a number or a boolean. *)
Theorem secret_never_reported binary environment document e :
  prepare binary environment document = Err e ->
  let keys := fst <$> secret_entries document in
  let strings := leaves [] (handed_to binary document) in
  (forall k s, (k, VString s) ∈ secret_entries document -> (k, s) ∈ leaves [] document /\ secret_place k keys = Exact) /\
  match e with
  | SecretNotAPlaceholder key => secret_place key keys <> Outside
  | MalformedPlaceholder key _ => secret_place key keys = Outside /\
      exists s, (key, s) ∈ strings /\ resolve_string environment key s keys = Err e
  | UnresolvedPlaceholder name => environment name = None /\
      exists key s, (key, s) ∈ strings /\
        (secret_place key keys = Outside \/ s = OPEN ++ name ++ CLOSE /\ is_env_var_name name = true)
  | InvalidValue key reason => key ∈ keys /\ reason = NOT_TEXT
  | RetiredEnv var key => exists r, r ∈ RetiredNames.RETIRED /\ var = RetiredNames.env r /\ key = RetiredNames.key r
  | _ => False
  end.
Proof.
  intros Hp keys strings. split.
  { intros k s Hin. split; [by apply secret_entries_leaf|]. unfold secret_place.
    rewrite bool_decide_eq_true_2; [done|]. apply list_elem_of_fmap. by exists (k, VString s). }
  revert Hp. unfold prepare, RetiredNames.check_env, require_text_secrets.
  destruct (List.find _ RetiredNames.RETIRED) as [r|] eqn:Hr; cbn [rbind].
  { apply find_some in Hr as [Hr _]. intros [= <-]. exists r. by rewrite list_elem_of_In. }
  destruct (List.find _ (secret_entries document)) as [[k v]|] eqn:Ht; cbn [rbind].
  { apply find_some in Ht as [Ht _]. intros [= <-]. split; [|done].
    apply list_elem_of_fmap. exists (k, v). by rewrite list_elem_of_In. }
  pose proof (resolve_at_traversed environment keys [] (handed_to binary document)) as H.
  unfold resolve_placeholders. fold keys. destruct (resolve_at _ _ _ _) as [resolved|e']; cbn [rbind]; [done|].
  intros [= ->]. destruct H as (k & s & Hin & He). unfold resolve_string in He.
  pose proof (resolve_loop_err _ _ _ _ _ _ _ He) as Hl. revert Hl He. unfold resolve_string, is_hidden.
  destruct (secret_place k keys) eqn:Hk.
  - destruct e; try done.
    + intros [-> _] He. split; [done|]. exists s. by rewrite Hk.
    + intros (_ & Hn & _) _. split; [done|]. exists k, s. split; [done | by left].
    + by intros [-> ?].
  - destruct (is_whole_secret_placeholder s) eqn:Hw; cbn [negb].
    + destruct (resolve_whole environment k s Hw) as (name & -> & Hv & ->). intros _.
      destruct (environment name) eqn:Hn; [done|]. intros [= <-]. split; [done|].
      exists k, (OPEN ++ name ++ CLOSE). split; [done | by right].
    + destruct e; try done; [by intros [? ?] | by intros (? & _) | intros [-> _] _; by rewrite Hk].
  - destruct e; try done; [by intros [? ?] | by intros (? & _) | intros [-> _] _; by rewrite Hk].
Qed.

(** A process other than the gateway resolves neither block, and reads no
    variable that only they name. *)
Lemma prepare_blind binary env1 env2 document :
  binary <> Gateway ->
  (forall r, r ∈ RetiredNames.RETIRED -> (RetiredNames.env r ∉ collect_placeholders document) ->
     (env1 (RetiredNames.env r) = None <-> env2 (RetiredNames.env r) = None)) ->
  (forall name, name ∈ collect_placeholders (handed_to binary document) -> env1 name = env2 name) ->
  find_ref [lit "security"] (handed_to binary document) = None /\
  find_ref [lit "human_login"; lit "sso"] (handed_to binary document) = None /\
  prepare binary env1 document = prepare binary env2 document.
Proof.
  intros Hb Hret Hread. unfold handed_to, reads_security, reads_sso in *.
  rewrite bool_decide_eq_false_2 in * by done.
  split; [apply find_security_sso, find_security_removed|]. split; [apply find_sso_removed|].
  unfold prepare, RetiredNames.check_env.
  rewrite (find_ext (RetiredNames.still_set _ env1) (RetiredNames.still_set (collect_placeholders document) env2)).
  - unfold handed_to, reads_security, reads_sso. rewrite bool_decide_eq_false_2 by done.
    unfold resolve_placeholders. by rewrite (resolve_at_reads env1 env2).
  - intros r Hr. unfold RetiredNames.still_set.
    destruct (bool_decide_reflect (RetiredNames.env r ∈ collect_placeholders document)) as [|Hn]; [by rewrite !andb_false_r|].
    f_equal. f_equal. by apply bool_decide_ext, Hret.
Qed.

(** Resolution keeps the keys of the document. *)
Lemma find_ref_fill f p v path : find_ref p v = None -> find_ref p (fill f path v) = None.
Proof.
  revert v path. induction p as [|k p IH]; intros v path; [done|]. cbn [find_ref].
  destruct v as [| | | | |d|]; cbn [fill as_dict mbind option_bind]; try done.
  rewrite (dict_get_map (fun kv => (kv.1, fill f (entry_path path kv.1) kv.2))) by done.
  destruct (dict_get k d) as [child|]; [|done]. cbn [fmap option_fmap option_map snd]. apply IH.
Qed.

Lemma prepare_fill binary environment document prepared : prepare binary environment document = Ok prepared ->
  exists f, prepared.1 = fill f [] (handed_to binary document).
Proof.
  unfold prepare. intros (? & _ & (? & _ & (resolved & Hr & [= <-])%rbind_Ok)%rbind_Ok)%rbind_Ok.
  pose proof (resolve_at_traversed environment (fst <$> secret_entries document) [] (handed_to binary document)) as H.
  unfold resolve_placeholders in Hr. rewrite Hr in H. destruct H as [-> _]. by eexists.
Qed.

(** ** Witnesses *)
Module PlaceholderExamples.

Definition block (entries : list (string * Value)) : Value := VDict ((fun kv => (lit kv.1, kv.2)) <$> entries).
Definition str (s : string) : Value := VString (lit s).

Definition with_orange (client_secret : string) : Value :=
  block [("human_login", block [("sso", block [("client_secret", str "${SMS_SSO_CLIENT_SECRET}")])]);
         ("providers", VArray [block [("code", str "orange_cm");
            ("credentials", block [("client_secret", str client_secret)]);
            ("host", block [("url", str "https://${ORANGE_HOST}/v1")])]]);
         ("security", block [("hash_pepper", str "${SMS_HASH_PEPPER}")])]%string.

Definition gateway_secrets : list text := [lit "SMS_HASH_PEPPER"; lit "SMS_SSO_CLIENT_SECRET"].

Definition worker_env (name : text) : option text :=
  if bool_decide (name = lit "ORANGE_HOST") then Some (lit "api.orange.test")
  else if bool_decide (name = lit "ORANGE_SECRET") then Some (lit "hunter2") else None.

Definition gateway_env (name : text) : option text :=
  if bool_decide (name ∈ gateway_secrets) then Some (lit "0123456789") else worker_env name.

(** A secret pasted around its placeholder: only its key is reported. *)
Definition pasted : Value := with_orange "s3cr3t${".

Example pasted_refused :
  prepare Gateway gateway_env pasted =
  Err (SecretNotAPlaceholder (lit "providers[code=orange_cm].credentials.client_secret")).
Proof. vm_compute. reflexivity. Qed.

Lemma secret_never_reported_witness :
  secret_place (lit "providers[code=orange_cm].credentials.client_secret") (fst <$> secret_entries pasted) <> Outside.
Proof. exact (proj2 (secret_never_reported Gateway gateway_env pasted _ pasted_refused)). Defined.

(** The host outside the secrets is put together and the worker needs neither
    secret of the gateway. *)
Definition sealed : Value := with_orange "${ORANGE_SECRET}".

Example sealed_resolves :
  (fun d => find_ref [lit "providers"] d.1) <$>
    match prepare Worker worker_env sealed with Ok d => Some d | Err _ => None end =
  Some (Some (VArray [block [("code", str "orange_cm"); ("credentials", block [("client_secret", str "hunter2")]);
    ("host", block [("url", str "https://api.orange.test/v1")])]%string])).
Proof. vm_compute. reflexivity. Qed.

Lemma worker_env_agrees :
  (forall r, r ∈ RetiredNames.RETIRED -> (RetiredNames.env r ∉ collect_placeholders sealed) ->
     (gateway_env (RetiredNames.env r) = None <-> worker_env (RetiredNames.env r) = None)) /\
  (forall name, name ∈ collect_placeholders (handed_to Worker sealed) -> gateway_env name = worker_env name).
Proof.
  assert (Forall (fun n => n ∈ collect_placeholders sealed) gateway_secrets) as Hsealed
    by (apply (bool_decide_unpack _); vm_compute; exact I).
  rewrite Forall_forall in Hsealed. split.
  - intros r _ Hr. unfold gateway_env. rewrite bool_decide_eq_false_2; [done|]. intros H. by apply Hr, Hsealed.
  - intros name Hn. unfold gateway_env. rewrite bool_decide_eq_false_2; [done|].
    assert (Forall (fun n => n ∉ gateway_secrets) (collect_placeholders (handed_to Worker sealed))) as Hf
      by (apply (bool_decide_unpack _); vm_compute; exact I).
    rewrite Forall_forall in Hf. by apply Hf.
Qed.

End PlaceholderExamples.
