(* ===== verification/Settings.v ===== *)
(** * The deployment's configuration

    sms-config: the blocks of the document (model.rs, op.rs, human_login.rs),
    the providers and their rules (provider.rs), and the loading and validation
    of the whole (config.rs).  The untyped document is [Placeholders].

    Parameters: the file system, figment (which merges the YAML files), serde
    (which gives the document its types), the url crate, rust_decimal and the
    text of floating-point numbers. *)

From S2P Require Import Prelude Float64 SentinelList ProviderApi Schema Errors Db DbLogic Rbac WorkerRouting Webhook Adapter Sns.
From S2P Require Import OrangeProvider MtnProvider AwsProvider AuditChain TokenDoor Oidc SsoStore OpStores Placeholders DoorRef DemoData.

(** ** The blocks *)

(** secret.rs *)
Record Secret := mkSecret { expose : text }.

Definition is_blank (s : Secret) : bool := bool_decide (trim (expose s) = []).

(** model.rs *)
Record Deployment := mkDeployment { name : text; livemode : bool; public_base_url : text }.
Record Security := mkSecurity { hash_pepper : Secret }.
Record Bucket := mkBucket { burst : Z; refill_per_second : f64 }.
Record Api := mkApi { idempotency_ttl_secs : Z; rate_limit : Bucket; source_rate_limit : Bucket }.
Record Database := mkDatabase { gateway_max_connections : Z; worker_max_connections : Z }.

(** op.rs *)
Record SigningKey := mkSigningKey { refresh_interval_secs : Z; rotation_overlap_secs : Z }.
Record Op := mkOp { issuer : text; token_rate_limit : Bucket; signing_key : SigningKey }.

(** human_login.rs; the settings of single sign-on are [Sso.Settings], with
    the limit of its two routes here. *)
Definition REFUSED_JIT_ROLES : list text := [lit "system"; lit "app"; lit "owner"; lit "admin"].
Definition CLIENT_ID_LENGTH : Z * Z := (8, 64).
Definition JWKS_MIN_REFRESH_SECS : Z * Z := (1, 3600).

Record LoginRateLimit := mkLoginRateLimit { per_email : Bucket; aggregate : Bucket }.
Record SsoBlock := mkSsoBlock { sso_settings : Sso.Settings; sso_rate_limit : Bucket }.
Record HumanLogin := mkHumanLogin {
  console_client : ConsoleClient.ConsoleClient;
  login_rate_limit : LoginRateLimit;
  sso : option SsoBlock }.

Definition range_contains (r : Z * Z) (z : Z) : bool := (r.1 <=? z) && (z <=? r.2).

(** ** provider.rs *)
Definition ORANGE_CM : text := lit "orange_cm".
Definition MTN_CM : text := lit "mtn_cm".
Definition AWS_SMS : text := lit "aws_sms".
Definition ORANGE_DEFAULT_BASE_URL : text := lit "https://api.orange.com".
Definition MTN_DEFAULT_BASE_URL : text := lit "https://api.mtn.com".
Definition CONNECT_TIMEOUT : duration := seconds 10.
Definition REQUEST_TIMEOUT : duration := seconds 30.

(** A number written as a number or as text. The text of a float, and what a
    text parses to, are parameters; a decimal carries its sign, which a
    negative zero has too. *)
Inductive Number := NumberInt (z : Z) | NumberFloat (x : f64) | NumberText (s : text).

Class NumberLib := {
  f64_display : f64 -> text;
  f64_from_str : text -> option f64;
  decimal_from_str : text -> option (bool * Decimal) }.

Record RawOAuthCredentials := mkRawOAuth { raw_client_id : option text; raw_client_secret : option Secret }.
Record RawAwsCredentials := mkRawAwsCredentials {
  raw_access_key_id : option text;
  raw_secret_access_key : option Secret }.
Record RawMtnSettings := mkRawMtnSettings {
  raw_service_code : option text;
  raw_sender_id : option text;
  raw_tps_ceiling : option Number;
  raw_cost_per_segment_xaf : option Number;
  raw_supports_alphanumeric_sender : bool }.
Record RawAwsSettings := mkRawAwsSettings {
  aws_region : option text;
  aws_configuration_set : option text;
  aws_tps_ceiling : option Number;
  aws_cost_per_segment_xaf : option Number;
  aws_origination_identity : option text;
  aws_message_type : option text;
  aws_supports_alphanumeric_sender : bool;
  aws_time_to_live_seconds : option Z;
  aws_events_topic_arn : option text;
  aws_fake_sns_cert_base : option text }.

(** An entry's [host] is its optional URL, its [settings] and [credentials] the
    records above (Orange has one setting, the sender's number). *)
Inductive RawProvider :=
| RawOrangeCm (host : option text) (sender_number : option text) (credentials : RawOAuthCredentials)
| RawMtnCm (host : option text) (settings : RawMtnSettings) (credentials : RawOAuthCredentials)
| RawAwsSms (host : option text) (settings : RawAwsSettings) (credentials : RawAwsCredentials).

Record OrangeCm := mkOrangeCm {
  orange_client_id : text;
  orange_client_secret : Secret;
  orange_sender_number : text;
  orange_base_url : text }.
Record MtnCm := mkMtnCm {
  mtn_client_id : text;
  mtn_client_secret : Secret;
  mtn_service_code : text;
  mtn_sender_id : option text;
  mtn_base_url : text;
  mtn_tps_ceiling : f64;
  mtn_cost_per_segment_xaf : Decimal;
  mtn_supports_alphanumeric_sender : bool }.
Record AwsSender := mkAwsSender {
  region : text;
  access_key_id : text;
  secret_access_key : Secret;
  configuration_set : text;
  origination_identity : option text;
  message_type : AwsSms.MessageType;
  tps_ceiling : f64;
  cost_per_segment_xaf : Decimal;
  supports_alphanumeric_sender : bool;
  endpoint_url : option text;
  time_to_live : option duration }.
Record AwsSms := mkAwsSms {
  sender : option AwsSender;
  events_topic_arn : option text;
  fake_sns_cert_base : option text }.
Record Providers := mkProviders {
  orange_cm : option OrangeCm;
  mtn_cm : option MtnCm;
  aws_sms : option AwsSms }.

Definition no_providers : Providers := mkProviders None None None.

Definition orange_provider_config (c : OrangeCm) : OrangeCm.OrangeCmConfig :=
  let config := OrangeCm.production (orange_client_id c) (expose (orange_client_secret c)) (orange_sender_number c) in
  OrangeCm.mkConfig (OrangeCm.client_id config) (OrangeCm.client_secret config) (OrangeCm.sender_number config)
    (orange_base_url c) (OrangeCm.connect_timeout config) (OrangeCm.request_timeout config).

Definition mtn_provider_config (c : MtnCm) : Mtn.MtnConfig :=
  Mtn.mkConfig (mtn_client_id c) (expose (mtn_client_secret c)) (mtn_service_code c) (mtn_sender_id c)
    (mtn_base_url c) (mtn_tps_ceiling c) (mtn_cost_per_segment_xaf c) (mtn_supports_alphanumeric_sender c)
    CONNECT_TIMEOUT REQUEST_TIMEOUT.

Definition mtn_subscription_config (c : MtnCm) : Mtn.MtnConfig :=
  Mtn.for_subscription_only (mtn_client_id c) (expose (mtn_client_secret c)) (mtn_service_code c) (mtn_base_url c).

Definition aws_provider_config (c : AwsSender) : AwsSms.AwsSmsConfig :=
  AwsSms.mkConfig (region c) (access_key_id c) (expose (secret_access_key c)) (configuration_set c)
    (origination_identity c) (message_type c) (tps_ceiling c) (cost_per_segment_xaf c)
    (supports_alphanumeric_sender c) (endpoint_url c) (time_to_live c) CONNECT_TIMEOUT REQUEST_TIMEOUT.

Definition provider_key (code path : text) : text := lit "providers[code=" ++ code ++ lit "]." ++ path.

Definition is_text_blank (s : text) : bool := bool_decide (trim s = []).

Definition present (code path : text) (value : option text) : result text ConfigError :=
  match value with
  | Some s => if is_text_blank s then Err (MissingProviderSetting code path) else Ok s
  | None => Err (MissingProviderSetting code path)
  end.

Definition present_secret (code path : text) (value : option Secret) : result Secret ConfigError :=
  match value with
  | Some s => if is_blank s then Err (MissingProviderSetting code path) else Ok s
  | None => Err (MissingProviderSetting code path)
  end.

Definition blank_is_none (value : option text) : option text :=
  match value with Some s => if is_text_blank s then None else Some s | None => None end.

Definition positive (x : f64) : bool := is_finite x && f64_ltb f64_zero x.

Section ProviderRules.

Context `{N : NumberLib} `{U : UnicodeDebug}.

Definition number_text (n : Number) : text :=
  match n with
  | NumberInt z => show_Z z
  | NumberFloat x => f64_display x
  | NumberText s => trim s
  end.

Definition positive_f64 (code path : text) (value : option Number) : result f64 ConfigError :=
  match value with
  | None => Err (MissingProviderSetting code path)
  | Some number =>
      let refused := InvalidValue (provider_key code path) (number_text number ++ lit " is not a positive number") in
      match f64_from_str (number_text number) with
      | Some parsed => if positive parsed then Ok parsed else Err refused
      | None => Err refused
      end
  end.

Definition non_negative_decimal (code path : text) (value : option Number) : result Decimal ConfigError :=
  match value with
  | None => Err (MissingProviderSetting code path)
  | Some number =>
      let refused := InvalidValue (provider_key code path) (number_text number ++ lit " is not a non-negative decimal") in
      match decimal_from_str (number_text number) with
      | Some (sign_negative, parsed) => if sign_negative then Err refused else Ok parsed
      | None => Err refused
      end
  end.

Definition validate_orange (host sender_number : option text) (credentials : RawOAuthCredentials)
  : result OrangeCm ConfigError :=
  let? client_id := present ORANGE_CM (lit "credentials.client_id") (raw_client_id credentials) in
  let? client_secret := present_secret ORANGE_CM (lit "credentials.client_secret") (raw_client_secret credentials) in
  let? sender_number := present ORANGE_CM (lit "settings.sender_number") sender_number in
  Ok (mkOrangeCm client_id client_secret sender_number (default ORANGE_DEFAULT_BASE_URL (blank_is_none host))).

Definition validate_mtn (host : option text) (settings : RawMtnSettings) (credentials : RawOAuthCredentials)
  : result MtnCm ConfigError :=
  let? client_id := present MTN_CM (lit "credentials.client_id") (raw_client_id credentials) in
  let? client_secret := present_secret MTN_CM (lit "credentials.client_secret") (raw_client_secret credentials) in
  let? service_code := present MTN_CM (lit "settings.service_code") (raw_service_code settings) in
  let? tps := positive_f64 MTN_CM (lit "settings.tps_ceiling") (raw_tps_ceiling settings) in
  let? cost := non_negative_decimal MTN_CM (lit "settings.cost_per_segment_xaf") (raw_cost_per_segment_xaf settings) in
  Ok (mkMtnCm client_id client_secret service_code (blank_is_none (raw_sender_id settings))
        (default MTN_DEFAULT_BASE_URL (blank_is_none host)) tps cost (raw_supports_alphanumeric_sender settings)).

(** Naming one of the six values without a default configures sending. *)
Definition sends (settings : RawAwsSettings) (credentials : RawAwsCredentials) : bool :=
  negb (is_null (aws_region settings)) || negb (is_null (aws_configuration_set settings)) ||
  negb (is_null (aws_tps_ceiling settings)) || negb (is_null (aws_cost_per_segment_xaf settings)) ||
  negb (is_null (raw_access_key_id credentials)) || negb (is_null (raw_secret_access_key credentials)).

(** The first setting of the sending half that is there without it. *)
Definition orphan (host : option text) (settings : RawAwsSettings) : option text :=
  fst <$> List.find snd
    [ (lit "host.url", negb (is_null (blank_is_none host)));
      (lit "settings.origination_identity", negb (is_null (blank_is_none (aws_origination_identity settings))));
      (lit "settings.message_type", negb (is_null (blank_is_none (aws_message_type settings))));
      (lit "settings.time_to_live_seconds", negb (is_null (aws_time_to_live_seconds settings)));
      (lit "settings.supports_alphanumeric_sender", aws_supports_alphanumeric_sender settings) ].

Definition ORPHANED : text := lit "it configures sending, and this entry sets none of the sending keys".

Definition aws_sender (host : option text) (settings : RawAwsSettings) (credentials : RawAwsCredentials)
  : result AwsSender ConfigError :=
  let? message_type :=
    match blank_is_none (aws_message_type settings) with
    | None => Ok AwsSms.Transactional
    | Some s => map_err (InvalidValue (provider_key AWS_SMS (lit "settings.message_type"))) (AwsSms.message_type_from_str s)
    end in
  let? region := present AWS_SMS (lit "settings.region") (aws_region settings) in
  let? access_key_id := present AWS_SMS (lit "credentials.access_key_id") (raw_access_key_id credentials) in
  let? secret_access_key := present_secret AWS_SMS (lit "credentials.secret_access_key") (raw_secret_access_key credentials) in
  let? configuration_set := present AWS_SMS (lit "settings.configuration_set") (aws_configuration_set settings) in
  let? tps := positive_f64 AWS_SMS (lit "settings.tps_ceiling") (aws_tps_ceiling settings) in
  let? cost := non_negative_decimal AWS_SMS (lit "settings.cost_per_segment_xaf") (aws_cost_per_segment_xaf settings) in
  Ok (mkAwsSender region access_key_id secret_access_key configuration_set
        (blank_is_none (aws_origination_identity settings)) message_type tps cost
        (aws_supports_alphanumeric_sender settings) (blank_is_none host) (seconds <$> aws_time_to_live_seconds settings)).

Definition validate_aws (host : option text) (settings : RawAwsSettings) (credentials : RawAwsCredentials)
  : result AwsSms ConfigError :=
  let sending := sends settings credentials in
  let events_topic_arn := blank_is_none (aws_events_topic_arn settings) in
  if negb sending && is_null events_topic_arn then Err ProviderConfiguresNothing
  else
    let? _ := match orphan host settings with
              | Some path => if negb sending then Err (InvalidValue (provider_key AWS_SMS path) ORPHANED) else Ok tt
              | None => Ok tt
              end in
    let? sender := if sending then let? s := aws_sender host settings credentials in Ok (Some s) else Ok None in
    Ok (mkAwsSms sender events_topic_arn (blank_is_none (aws_fake_sns_cert_base settings))).

(** The loop of [validate_providers], from the providers read so far. *)
Fixpoint validate_entries (raw : list RawProvider) (providers : Providers) : result Providers ConfigError :=
  match raw with
  | [] => Ok providers
  | RawOrangeCm host sender_number credentials :: rest =>
      let? entry := validate_orange host sender_number credentials in
      if is_null (orange_cm providers)
      then validate_entries rest (mkProviders (Some entry) (mtn_cm providers) (aws_sms providers))
      else Err (DuplicateProvider ORANGE_CM)
  | RawMtnCm host settings credentials :: rest =>
      let? entry := validate_mtn host settings credentials in
      if is_null (mtn_cm providers)
      then validate_entries rest (mkProviders (orange_cm providers) (Some entry) (aws_sms providers))
      else Err (DuplicateProvider MTN_CM)
  | RawAwsSms host settings credentials :: rest =>
      let? entry := validate_aws host settings credentials in
      if is_null (aws_sms providers)
      then validate_entries rest (mkProviders (orange_cm providers) (mtn_cm providers) (Some entry))
      else Err (DuplicateProvider AWS_SMS)
  end.

Definition validate_providers (raw : list RawProvider) : result Providers ConfigError :=
  validate_entries raw no_providers.

End ProviderRules.

Definition hosts (c : AwsSms) : list (text * text) :=
  match sender c ≫= endpoint_url with
  | Some url => [(provider_key AWS_SMS (lit "host.url"), url)]
  | None => []
  end.

(** ** config.rs: the rules *)
Definition STUB_MARKERS : list text := [lit "wiremock"; lit "stub"; lit "mock"; lit "localhost"; lit "fake"].

Definition ISSUER_MAX_CHARS : Z := 512.

(** [human_login.sso.<name>] *)
Definition sso_key (name : text) : text := lit "human_login.sso." ++ name.

Definition indexed (key : text) (index : nat) : text := key ++ lit "[" ++ show_Z (Z.of_nat index) ++ lit "]".

Definition require_text (key value : text) : result unit ConfigError :=
  if is_text_blank value then Err (EmptyField key) else Ok tt.

Definition validate_bucket (key : text) (bucket : Bucket) : result unit ConfigError :=
  if burst bucket =? 0 then Err (invalid (key ++ lit ".burst") (lit "must be at least 1"))
  else if negb (positive (refill_per_second bucket))
  then Err (invalid (key ++ lit ".refill_per_second") (lit "must be a positive number"))
  else Ok tt.

(** Each rule of a list looks at an entry, its key and the entries before it. *)
Fixpoint check_each (rule : text -> list text -> text -> result unit ConfigError) (key : text)
    (index : nat) (before rest : list text) : result unit ConfigError :=
  match rest with
  | [] => Ok tt
  | value :: rest =>
      let? _ := rule (indexed key index) before value in
      check_each rule key (S index) (before ++ [value]) rest
  end.

Definition listed_twice (key : text) (before : list text) (value : text) : result unit ConfigError :=
  if bool_decide (value ∈ before) then Err (invalid key (lit "is listed twice")) else Ok tt.

Definition scope_rule (key : text) (before : list text) (scope : text) : result unit ConfigError :=
  if is_text_blank scope || existsb is_whitespace scope then
    Err (invalid key (lit "must be one scope with no whitespace in it: the request joins the list with spaces"))
  else listed_twice key before scope.

Definition validate_sso_scopes (scopes : list text) : result unit ConfigError :=
  let key := lit "human_login.sso.scopes" in
  if bool_decide (scopes = []) then Err (invalid key (lit "at least one scope is required"))
  else
    let? _ := check_each scope_rule key O [] scopes in
    if negb (bool_decide (lit "openid" ∈ scopes))
    then Err (invalid key (lit "must include `openid`: without it there is no id_token")) else Ok tt.

Definition value_rule (key : text) (before : list text) (value : text) : result unit ConfigError :=
  if is_text_blank value || negb (bool_decide (trim value = value)) then
    Err (invalid key (lit "must be non-blank with no leading or trailing whitespace: it is compared exactly"))
  else listed_twice key before value.

Definition validate_sso_values (key : text) (values : list text) : result unit ConfigError :=
  check_each value_rule key O [] values.

Definition is_ascii_lowercase (c : Z) : bool := (97 <=? c) && (c <=? 122).

Definition role_shaped (role : text) : bool :=
  range_contains (3, 32) (Z.of_nat (length role)) &&
  match role with
  | [] => false
  | first :: rest =>
      is_ascii_lowercase first && forallb (fun c => is_ascii_lowercase c || is_ascii_digit c || (c =? 95)) rest
  end.

Definition saturating_add_u64 (a b : Z) : Z := Z.min (a + b) (2 ^ 64 - 1).

Record Raw := mkRaw {
  raw_deployment : Deployment;
  raw_auth : option (list text);
  raw_security : option Security;
  raw_api : Api;
  raw_database : Database;
  raw_providers : list RawProvider;
  raw_op : option Op;
  raw_human_login : option HumanLogin }.

Record Config := mkConfig {
  deployment : Deployment;
  auth_methods : Methods.AuthMethods;
  security : option Security;
  api : Api;
  database : Database;
  providers : Providers;
  op : option Op;
  human_login : option HumanLogin }.

Definition each {A} (o : option A) (check : A -> result unit ConfigError) : result unit ConfigError :=
  match o with Some a => check a | None => Ok tt end.

Section Rules.

Context `{R : ReqwestLib} `{H : !Sso.UrlHosts} `{U : UnicodeDebug} `{N : NumberLib}.

Definition parse_url (key raw : text) : result url ConfigError :=
  map_err (fun error => InvalidValue key (debug_str raw ++ lit " is not a URL: " ++ error)) (url_parse raw).

Definition check_url (key raw : text) (livemode : bool) : result unit ConfigError :=
  let? parsed := parse_url key raw in
  if negb livemode then Ok tt
  else if negb (bool_decide (url_scheme parsed = lit "https")) then Err (InsecureHost key raw)
  else
    let host := map AwsSms.to_ascii_lowercase (default [] (url_host parsed)) in
    if existsb (str_contains host) STUB_MARKERS then Err (StubHostInLivemode key raw) else Ok tt.

Definition validate_jit_role (role : text) : result unit ConfigError :=
  let key := lit "human_login.sso.jit_role" in
  if negb (role_shaped role) then
    Err (invalid key (lit "must be a Role.key: 3 to 32 characters of a-z, 0-9 and _, starting with a letter"))
  else if bool_decide (role ∈ REFUSED_JIT_ROLES) then
    Err (invalid key (debug_str role ++ lit " can never be a just-in-time role: an account created by an unsupervised sign-in is never given " ++ join (lit ", ") REFUSED_JIT_ROLES))
  else Ok tt.

Definition validate_sso_issuer (issuer : text) (livemode : bool) : result unit ConfigError :=
  let key := lit "human_login.sso.issuer" in
  if Z.of_nat (length issuer) >? ISSUER_MAX_CHARS then
    Err (invalid key (lit "must be at most " ++ show_Z ISSUER_MAX_CHARS ++ lit " characters: it is stored in FederatedLink.issuer"))
  else
    let? parsed := parse_url key issuer in
    if negb (bool_decide (url_scheme parsed = lit "https") ||
             (bool_decide (url_scheme parsed = lit "http") && Sso.is_loopback parsed)) then
      Err (invalid key (lit "must be https (plain http only to a loopback host): the client secret and the authorization code travel over it"))
    else if is_null (Sso.url_host_kind parsed) then Err (invalid key (lit "has no host"))
    else if negb (is_null (url_query parsed)) || negb (is_null (url_fragment parsed)) then
      Err (invalid key (lit "must not carry a query or a fragment"))
    else if negb (bool_decide (url_username parsed = [])) || negb (is_null (url_password parsed)) then
      Err (invalid key (lit "must not carry credentials"))
    else if livemode then check_url key issuer true else Ok tt.

Definition validate_sso (block : SsoBlock) (livemode : bool) : result unit ConfigError :=
  let sso := sso_settings block in
  let? _ := validate_sso_issuer (Sso.st_issuer sso) livemode in
  let? _ := require_text (sso_key (lit "client_id")) (Sso.st_client_id sso) in
  if existsb is_whitespace (Sso.st_client_id sso)
  then Err (invalid (sso_key (lit "client_id")) (lit "must not contain whitespace"))
  else if is_blank (mkSecret (Sso.st_client_secret sso)) then Err (EmptyField (sso_key (lit "client_secret")))
  else
    let? _ := validate_sso_scopes (Sso.st_scopes sso) in
    let? _ := require_text (sso_key (lit "required_group")) (Sso.st_required_group sso) in
    let? _ := require_text (sso_key (lit "groups_claim")) (Sso.st_groups_claim sso) in
    let? _ := validate_sso_values (sso_key (lit "accepted_amr")) (Sso.st_accepted_amr sso) in
    let? _ := validate_sso_values (sso_key (lit "accepted_acr")) (Sso.st_accepted_acr sso) in
    if bool_decide (Sso.st_accepted_amr sso = []) && bool_decide (Sso.st_accepted_acr sso = []) then
      Err (invalid (sso_key (lit "accepted_amr")) (lit "the multi-factor rule is empty: write at least one amr value or one acr value, because an empty rule would read as no rule"))
    else
      let? _ := validate_jit_role (Sso.st_jit_role sso) in
      if negb (range_contains JWKS_MIN_REFRESH_SECS (Sso.st_jwks_min_refresh_secs sso)) then
        Err (invalid (sso_key (lit "jwks_min_refresh_secs"))
          (lit "must be " ++ show_Z JWKS_MIN_REFRESH_SECS.1 ++ lit " to " ++ show_Z JWKS_MIN_REFRESH_SECS.2 ++ lit " seconds"))
      else validate_bucket (lit "human_login.sso.rate_limit") (sso_rate_limit block).

Definition redirect_rule (livemode : bool) (key : text) (before : list text) (uri : text) : result unit ConfigError :=
  let? _ := check_url key uri livemode in
  let? parsed := parse_url key uri in
  if negb (is_null (url_fragment parsed)) then
    Err (invalid key (lit "must not carry a fragment: RFC 6749 section 3.1.2 forbids one in a redirect URI"))
  else if existsb is_whitespace uri then
    Err (invalid key (lit "must not contain whitespace: the registration stores the list space-delimited"))
  else listed_twice key before uri.

Definition validate_human_login (h : HumanLogin) (livemode : bool) : result unit ConfigError :=
  let client := console_client h in
  let key := lit "human_login.console_client.client_id" in
  let uris := lit "human_login.console_client.redirect_uris" in
  let? _ := require_text key (ConsoleClient.client_id client) in
  if negb (range_contains CLIENT_ID_LENGTH (Z.of_nat (length (ConsoleClient.client_id client)))) then
    Err (invalid key (lit "must be " ++ show_Z CLIENT_ID_LENGTH.1 ++ lit " to " ++ show_Z CLIENT_ID_LENGTH.2
      ++ lit " characters: it is the console's OauthClient.clientId"))
  else if existsb is_whitespace (ConsoleClient.client_id client) then
    Err (invalid key (lit "must not contain whitespace"))
  else if bool_decide (ConsoleClient.redirect_uris client = []) then
    Err (invalid uris (lit "at least one redirect URI is required: the provider redirects a code nowhere else"))
  else
    let? _ := check_each (redirect_rule livemode) uris O [] (ConsoleClient.redirect_uris client) in
    let? _ := validate_bucket (lit "human_login.login_rate_limit.per_email") (per_email (login_rate_limit h)) in
    validate_bucket (lit "human_login.login_rate_limit.aggregate") (aggregate (login_rate_limit h)).

Definition validate_op (o : Op) (livemode : bool) : result unit ConfigError :=
  let? _ := check_url (lit "op.issuer") (issuer o) livemode in
  if SsoStore.ends_with (issuer o) (lit "/") then
    Err (invalid (lit "op.issuer") (lit "must not end with a slash: the discovery document appends /token and /jwks.json to it"))
  else
    let? _ := validate_bucket (lit "op.token_rate_limit") (token_rate_limit o) in
    if refresh_interval_secs (signing_key o) =? 0 then
      Err (invalid (lit "op.signing_key.refresh_interval_secs") (lit "must be at least 1"))
    else
      let latest_old_key_token_expiry :=
        saturating_add_u64 (refresh_interval_secs (signing_key o)) OpStores.ACCESS_TOKEN_TTL_SECS in
      if rotation_overlap_secs (signing_key o) <=? latest_old_key_token_expiry then
        Err (invalid (lit "op.signing_key.rotation_overlap_secs")
          (lit "must exceed refresh_interval_secs (" ++ show_Z (refresh_interval_secs (signing_key o))
           ++ lit ") plus the " ++ show_Z OpStores.ACCESS_TOKEN_TTL_SECS
           ++ lit "-second                  access token lifetime (" ++ show_Z latest_old_key_token_expiry
           ++ lit "): a running gateway keeps                  signing with the old key until its next refresh, so the last token under it                  would outlive the key's place in /jwks.json"))
      else Ok tt.

Definition validate_provider_hosts (p : Providers) (livemode : bool) : result unit ConfigError :=
  let? _ := each (orange_cm p) (fun orange =>
    check_url (lit "providers[code=orange_cm].host.url") (orange_base_url orange) livemode) in
  let? _ := each (mtn_cm p) (fun mtn =>
    check_url (lit "providers[code=mtn_cm].host.url") (mtn_base_url mtn) livemode) in
  each (aws_sms p) (fun aws =>
    let? _ := each (head (hosts aws)) (fun ku => check_url ku.1 ku.2 livemode) in
    if livemode && negb (is_null (fake_sns_cert_base aws)) then Err FakeSnsCertBaseInLivemode else Ok tt).

Definition require_pool (key : text) (connections : Z) : result unit ConfigError :=
  if connections =? 0 then Err (invalid key (lit "a pool of zero connections can run nothing")) else Ok tt.

Definition validate (raw : Raw) (binary : Binary) (literal_secrets : list text) : result Config ConfigError :=
  let live := livemode (raw_deployment raw) in
  if reads_security binary && is_null (raw_security raw) then Err (Shape (lit "missing field `security`"))
  else
    let? resolved := map_err Auth (Methods.resolve (raw_auth raw)) in
    let? methods := map_err Auth (Methods.with_blocks resolved (negb (is_null (raw_op raw)))
                                    (negb (is_null (raw_human_login raw)))) in
    let? _ := require_text (lit "deployment.name") (name (raw_deployment raw)) in
    let? _ := check_url (lit "deployment.public_base_url") (public_base_url (raw_deployment raw)) live in
    let? _ := each (head literal_secrets) (fun key => if live then Err (LiteralSecret key) else Ok tt) in
    let? _ := validate_bucket (lit "api.rate_limit") (rate_limit (raw_api raw)) in
    let? _ := validate_bucket (lit "api.source_rate_limit") (source_rate_limit (raw_api raw)) in
    if idempotency_ttl_secs (raw_api raw) =? 0
    then Err (invalid (lit "api.idempotency_ttl_secs") (lit "must be at least 1"))
    else
      let? _ := require_pool (lit "database.gateway_max_connections") (gateway_max_connections (raw_database raw)) in
      let? _ := require_pool (lit "database.worker_max_connections") (worker_max_connections (raw_database raw)) in
      let? ps := validate_providers (raw_providers raw) in
      let? _ := validate_provider_hosts ps live in
      let? _ := each (raw_op raw) (fun o => validate_op o live) in
      let? _ := each (raw_human_login raw) (fun h =>
        let? _ := validate_human_login h live in
        if reads_sso binary then each (sso h) (fun s => validate_sso s live) else Ok tt) in
      Ok (mkConfig (raw_deployment raw) methods (raw_security raw) (raw_api raw) (raw_database raw) ps
            (raw_op raw) (raw_human_login raw)).

(** ** Loading *)
Definition DEFAULT_PROFILE : text := lit "dev".

(** [<stem>-<profile>.<ext>] beside the base file. The path is that of a file
    and is UTF-8; a name that begins with its only dot has no extension. *)
Definition profile_overlay_path (base_path profile : text) : text :=
  let '(parent, file) := match SsoStore.rsplit_once 47 base_path with
                         | Some (parent, file) => (parent ++ lit "/", file)
                         | None => ([], base_path)
                         end in
  parent ++ match SsoStore.rsplit_once 46 file with
            | Some (stem, ext) =>
                if bool_decide (stem = []) then file ++ lit "-" ++ profile
                else stem ++ lit "-" ++ profile ++ lit "." ++ ext
            | None => file ++ lit "-" ++ profile
            end.

(** The file system, figment's reading and merging of YAML files, serde's
    reading of the resolved document. *)
Class ConfigSource := {
  is_file : text -> bool;
  extract : list text -> result Value text;
  reread : Value -> result Raw text }.

Context `{F : ConfigSource}.

Definition files_of (path : option text) (profile : text) : result (list text) ConfigError :=
  match path with
  | None => Err MissingPath
  | Some base_path =>
      if negb (is_file base_path) then Err (FileNotFound base_path)
      else
        let overlay := profile_overlay_path base_path profile in
        if is_file overlay then Ok [base_path; overlay]
        else if negb (bool_decide (profile = DEFAULT_PROFILE)) then Err (UnknownProfile profile overlay)
        else Ok [base_path]
  end.

Definition load_with_env (path : option text) (profile : text) (binary : Binary)
    (environment : text -> option text) : result Config ConfigError :=
  let? files := files_of path profile in
  let? document := map_err (Load (default [] path)) (extract files) in
  let? prepared := prepare binary environment document in
  let? raw := map_err Shape (reread prepared.1) in
  validate raw binary prepared.2.

Definition config_security (c : Config) : result Security ConfigError :=
  match security c with Some s => Ok s | None => Err SecurityNotLoaded end.

Definition config_sso (c : Config) : option SsoBlock :=
  match human_login c ≫= sso with
  | Some s => if Methods.human_login_served (auth_methods c) then Some s else None
  | None => None
  end.

End Rules.

(** ** What an accepted configuration is *)

Section Facts.

Context `{R : ReqwestLib} `{H : !Sso.UrlHosts} `{U : UnicodeDebug} `{N : NumberLib}.

(** A URL a live deployment may be reached at or reach out to. *)
Definition live_url (s : text) : Prop :=
  exists u, url_parse s = Ok u /\ url_scheme u = lit "https" /\
    forall marker, marker ∈ STUB_MARKERS ->
      str_contains (map AwsSms.to_ascii_lowercase (default [] (url_host u))) marker = false.

Lemma check_url_live key s r : check_url key s true = Ok r -> live_url s.
Proof.
  unfold check_url, parse_url. cbn [negb]. intros (u & Hu%map_err_Ok & Hc)%rbind_Ok.
  apply guard_Ok in Hc as [Hs [Hh _]%guard_Ok]. exists u. split; [done|].
  split; [by apply negb_false_iff, bool_decide_eq_true in Hs|]. intros marker Hm.
  destruct (str_contains _ marker) eqn:E; [|done].
  assert (existsb (str_contains (map AwsSms.to_ascii_lowercase (default [] (url_host u)))) STUB_MARKERS = true); [|congruence].
  apply existsb_exists. exists marker. by rewrite <- list_elem_of_In.
Qed.

(** The addresses of a configuration; the identity provider's is apart, since
    only the gateway has it. *)
Definition opt {A} (o : option A) : list A := match o with Some a => [a] | None => [] end.

Definition provider_urls (p : Providers) : list text :=
  opt (orange_base_url <$> orange_cm p) ++ opt (mtn_base_url <$> mtn_cm p) ++
  opt (aws_sms p ≫= (fun a => sender a ≫= endpoint_url)).

Definition urls (c : Config) : list text :=
  public_base_url (deployment c) :: provider_urls (providers c) ++ opt (issuer <$> op c) ++
  from_option (fun h => ConsoleClient.redirect_uris (console_client h)) [] (human_login c).

Lemma each_Some {A} (o : option A) check r a : each o check = Ok r -> o = Some a -> check a = Ok r.
Proof. by intros ? ->. Qed.

Lemma opt_Forall {A} (P : A -> Prop) (o : option A) :
  (forall a, o = Some a -> P a) -> Forall P (opt o).
Proof. destruct o; cbn; [|constructor]. intros Ha. apply Forall_singleton. by apply Ha. Qed.

Lemma provider_hosts_live p r : validate_provider_hosts p true = Ok r ->
  Forall live_url (provider_urls p) /\ (aws_sms p ≫= fake_sns_cert_base) = None.
Proof.
  unfold validate_provider_hosts, provider_urls. intros (? & Ho & (? & Hm & Hv)%rbind_Ok)%rbind_Ok.
  rewrite !Forall_app.
  assert (forall a, aws_sms p = Some a -> (forall u, (sender a ≫= endpoint_url) = Some u -> live_url u) /\
    fake_sns_cert_base a = None) as Ha.
  { intros a Ha. apply (each_Some _ _ _ a) in Hv; [|done].
    apply rbind_Ok in Hv as (? & Hh & [Hf _]%guard_Ok). split; [|by destruct (fake_sns_cert_base a)].
    intros u Hu. unfold hosts in Hh. rewrite Hu in Hh. exact (check_url_live _ _ _ Hh). }
  split; [split_and!; apply opt_Forall|].
  - intros s (o & Eo & ->)%fmap_Some. rewrite Eo in Ho. exact (check_url_live _ _ _ Ho).
  - intros s (o & Eo & ->)%fmap_Some. rewrite Eo in Hm. exact (check_url_live _ _ _ Hm).
  - intros s. destruct (aws_sms p) as [a|]; [|done]. by apply (proj1 (Ha a eq_refl)).
  - destruct (aws_sms p) as [a|]; [|done]. by apply (proj2 (Ha a eq_refl)).
Qed.

(** What a list must satisfy, entry by entry. *)
Lemma check_each_ok rule key rest index before r :
  check_each rule key index before rest = Ok r ->
  (forall k b v r', rule k b v = Ok r' -> v ∉ b) ->
  (NoDup before -> NoDup (before ++ rest)) /\
  forall v, v ∈ rest -> exists k b r', rule k b v = Ok r'.
Proof.
  intros Hc Hr. revert index before Hc. induction rest as [|v rest IH]; intros index before Hc.
  - rewrite app_nil_r. split; [done|]. by intros v ?%elem_of_nil.
  - cbn [check_each] in Hc. apply rbind_Ok in Hc as (u & Hv & Hc). destruct (IH _ _ Hc) as [Hn Ha]. split.
    + intros Hb. rewrite (app_assoc before [v] rest : before ++ v :: rest = _). apply Hn.
      apply NoDup_app. split; [done|]. split; [|apply NoDup_singleton].
      intros w Hw ->%list_elem_of_singleton. by apply (Hr _ _ _ _ Hv).
    + intros w [->|Hw]%elem_of_cons; [by do 3 eexists | by apply Ha].
Qed.

Lemma listed_twice_ok key before v r : listed_twice key before v = Ok r -> v ∉ before.
Proof. unfold listed_twice. by case_bool_decide. Qed.

Lemma redirect_rule_ok livemode key before uri r : redirect_rule livemode key before uri = Ok r ->
  (uri ∉ before) /\ check_url key uri livemode = Ok tt /\ Forall (fun c => is_whitespace c = false) uri /\
  exists u, url_parse uri = Ok u /\ url_fragment u = None.
Proof.
  unfold redirect_rule, parse_url. intros ([] & Hc & (u & Hu%map_err_Ok & Hr)%rbind_Ok)%rbind_Ok.
  apply guard_Ok in Hr as [Hf [Hw Hr%listed_twice_ok]%guard_Ok]. split; [done|]. split; [done|]. split.
  - apply Forall_forall. intros c Hin. destruct (is_whitespace c) eqn:Ec; [|done].
    assert (existsb is_whitespace uri = true) as Hx; [|by rewrite Hx in Hw].
    apply existsb_exists. exists c. by rewrite <- list_elem_of_In.
  - exists u. split; [done|]. by destruct (url_fragment u).
Qed.

Definition sound_bucket (b : Bucket) : Prop := burst b <> 0 /\ positive (refill_per_second b) = true.

Lemma validate_bucket_ok key b r : validate_bucket key b = Ok r -> sound_bucket b.
Proof.
  unfold validate_bucket. intros [Hb [Hp _]%guard_Ok]%guard_Ok. split; [by apply Z.eqb_neq|]. by apply negb_false_iff.
Qed.

(** The rules of the blocks that sign people in and issue tokens. *)
Definition sound_op (o : Op) : Prop :=
  sound_bucket (token_rate_limit o) /\ refresh_interval_secs (signing_key o) <> 0 /\
  (rotation_overlap_secs (signing_key o) < 2 ^ 64 ->
     refresh_interval_secs (signing_key o) + OpStores.ACCESS_TOKEN_TTL_SECS < rotation_overlap_secs (signing_key o)).

Definition sound_console (h : HumanLogin) : Prop :=
  8 <= Z.of_nat (length (ConsoleClient.client_id (console_client h))) <= 64 /\
  (ConsoleClient.redirect_uris (console_client h)) <> [] /\
  NoDup (ConsoleClient.redirect_uris (console_client h)) /\
  Forall packable (ConsoleClient.redirect_uris (console_client h)) /\
  sound_bucket (per_email (login_rate_limit h)) /\ sound_bucket (aggregate (login_rate_limit h)).

Definition sound_sso (b : SsoBlock) : Prop :=
  let s := sso_settings b in
  (exists u, url_parse (Sso.st_issuer s) = Ok u /\ Sso.secure_url u) /\
  lit "openid" ∈ Sso.st_scopes s /\ Forall packable (Sso.st_scopes s) /\ NoDup (Sso.st_scopes s) /\
  (Sso.st_accepted_amr s <> [] \/ Sso.st_accepted_acr s <> []) /\
  SsoStore.refuse_unusable_jit_role (Sso.st_jit_role s) = Ok tt /\
  1 <= Sso.st_jwks_min_refresh_secs s <= 3600 /\ sound_bucket (sso_rate_limit b).

Lemma validate_op_ok o live r : validate_op o live = Ok r ->
  sound_op o /\ check_url (lit "op.issuer") (issuer o) live = Ok tt.
Proof.
  unfold validate_op. intros ([] & Hu & [_ ([] & Hb & [Hi [Hl _]%guard_Ok]%guard_Ok)%rbind_Ok]%guard_Ok)%rbind_Ok.
  split; [|done]. split; [by eapply validate_bucket_ok|]. split; [by apply Z.eqb_neq|].
  intros Hw. apply Z.leb_gt in Hl. unfold saturating_add_u64 in Hl. lia.
Qed.

Lemma range_contains_ok a b z : negb (range_contains (a, b) z) = false -> a <= z <= b.
Proof. unfold range_contains. cbn. rewrite negb_false_iff, andb_true_iff, !Z.leb_le. done. Qed.

Lemma validate_human_login_ok h live r : (forall u, url_parse [] <> Ok u) ->
  validate_human_login h live = Ok r -> sound_console h /\
  (forall uri, uri ∈ ConsoleClient.redirect_uris (console_client h) -> exists k, check_url k uri live = Ok tt).
Proof.
  unfold validate_human_login. intros Hempty (? & _ & [Hlen [_ [Hne Hv]%guard_Ok]%guard_Ok]%guard_Ok)%rbind_Ok.
  apply rbind_Ok in Hv as (? & Hc & (? & Hpe & Hag)%rbind_Ok).
  destruct (check_each_ok _ _ _ _ _ _ Hc) as [Hn Hall].
  { intros k b v r' (? & _)%redirect_rule_ok. done. }
  split.
  - split; [by apply range_contains_ok|]. split; [by apply bool_decide_eq_false in Hne|]. split; [by apply Hn, NoDup_nil_2|].
    split; [|split; by eapply validate_bucket_ok]. apply Forall_forall. intros uri Hu.
    destruct (Hall uri Hu) as (k & b & r' & (_ & _ & Hw & u & Hp & _)%redirect_rule_ok). split; [|done].
    intros ->. by apply Hempty in Hp.
  - intros uri Hu. destruct (Hall uri Hu) as (k & b & r' & (_ & Hk & _)%redirect_rule_ok). by exists k.
Qed.

Lemma refused_roles role : role ∉ REFUSED_JIT_ROLES -> SsoStore.refuse_unusable_jit_role role = Ok tt.
Proof.
  intros Hr. unfold SsoStore.refuse_unusable_jit_role.
  assert (bool_decide (role ∈ RESERVED_ROLE_KEYS) || bool_decide (role ∈ DEVICE_ONLY_ROLES) = false) as ->; [|done].
  rewrite orb_false_iff, !bool_decide_eq_false.
  unfold REFUSED_JIT_ROLES, RESERVED_ROLE_KEYS, DEVICE_ONLY_ROLES in *. rewrite !elem_of_cons in *. tauto.
Qed.

Lemma no_whitespace_packable s : is_text_blank s || existsb is_whitespace s = false -> packable s.
Proof.
  intros [Hb Hw]%orb_false_iff. split.
  - intros ->. vm_compute in Hb. discriminate.
  - apply Forall_forall. intros c Hc. destruct (is_whitespace c) eqn:E; [|done].
    rewrite (proj2 (existsb_exists is_whitespace s)) in Hw; [done|]. exists c. by rewrite <- list_elem_of_In.
Qed.

Lemma scopes_ok scopes r : validate_sso_scopes scopes = Ok r ->
  lit "openid" ∈ scopes /\ Forall packable scopes /\ NoDup scopes.
Proof.
  unfold validate_sso_scopes. intros [_ (? & Hc & [Ho _]%guard_Ok)%rbind_Ok]%guard_Ok.
  destruct (check_each_ok _ _ _ _ _ _ Hc) as [Hn Hall].
  { intros k b v r' [_ ?%listed_twice_ok]%guard_Ok. done. }
  split; [by apply negb_false_iff, bool_decide_eq_true in Ho|]. split; [|by apply Hn, NoDup_nil_2].
  apply Forall_forall. intros v (k & b & r' & [Hv _]%guard_Ok)%Hall. by apply no_whitespace_packable.
Qed.

Lemma sso_issuer_ok s live r : validate_sso_issuer s live = Ok r ->
  (exists u, url_parse s = Ok u /\ Sso.secure_url u) /\ (live = true -> live_url s).
Proof.
  unfold validate_sso_issuer, parse_url. intros [_ (u & Hu%map_err_Ok & [Hs Hv]%guard_Ok)%rbind_Ok]%guard_Ok.
  apply guard_Ok in Hv as [Hh [Hf [Hc Hv]%guard_Ok]%guard_Ok]. split.
  - exists u. split; [done|]. unfold Sso.secure_url.
    apply orb_false_iff in Hf as [_ Hf]. apply orb_false_iff in Hc as [Hn Hp].
    destruct (url_fragment u); [done|]. destruct (url_password u); [done|].
    apply negb_false_iff, bool_decide_eq_true in Hn. apply negb_false_iff, orb_true_iff in Hs.
    rewrite andb_true_iff, !bool_decide_eq_true in Hs. split; [exact Hs|].
    split; [|done]. by destruct (Sso.url_host_kind u).
  - intros ->. by eapply check_url_live.
Qed.

Lemma validate_sso_ok b live r : validate_sso b live = Ok r ->
  sound_sso b /\ (live = true -> live_url (Sso.st_issuer (sso_settings b))).
Proof.
  unfold validate_sso. intros (? & Hi%sso_issuer_ok & (? & _ & [_ [_ Hv]%guard_Ok]%guard_Ok)%rbind_Ok)%rbind_Ok.
  apply rbind_Ok in Hv as (? & Hs%scopes_ok & (? & _ & (? & _ & (? & _ & (? & _ & Hv)%rbind_Ok)%rbind_Ok)%rbind_Ok)%rbind_Ok).
  apply guard_Ok in Hv as [Hm (? & Hj & [Hr Hb]%guard_Ok)%rbind_Ok].
  destruct Hi as [Hi Hl], Hs as (Ho & Hp & Hn). split; [|done]. unfold sound_sso. split_and!; try done.
  - apply andb_false_iff in Hm as [Hm|Hm]; apply bool_decide_eq_false in Hm; auto.
  - unfold validate_jit_role in Hj. apply guard_Ok in Hj as [_ [Hj _]%guard_Ok].
    apply bool_decide_eq_false in Hj. by apply refused_roles.
  - apply range_contains_ok in Hr. lia.
  - apply range_contains_ok in Hr. lia.
  - by eapply validate_bucket_ok.
Qed.

End Facts.

(** ** Theorems *)
Section Theorems.

Context `{R : ReqwestLib} `{H : !Sso.UrlHosts} `{U : UnicodeDebug} `{N : NumberLib} `{F : ConfigSource}.

(** What every accepted document went through. *)
Record accepted_raw (raw : Raw) (binary : Binary) (literals : list text) (c : Config) : Prop := {
  ac_deployment : deployment c = raw_deployment raw;
  ac_security : security c = raw_security raw;
  ac_op : op c = raw_op raw;
  ac_human : human_login c = raw_human_login raw;
  ac_blocks : exists self, Methods.resolve (raw_auth raw) = Ok self /\
    Methods.with_blocks self (negb (is_null (raw_op raw))) (negb (is_null (raw_human_login raw))) = Ok (auth_methods c);
  ac_url : exists k, check_url k (public_base_url (deployment c)) (livemode (deployment c)) = Ok tt;
  ac_literals : livemode (deployment c) = true -> literals = [];
  ac_api : sound_bucket (rate_limit (api c)) /\ sound_bucket (source_rate_limit (api c)) /\
    idempotency_ttl_secs (api c) <> 0;
  ac_pools : gateway_max_connections (database c) <> 0 /\ worker_max_connections (database c) <> 0;
  ac_hosts : validate_provider_hosts (providers c) (livemode (deployment c)) = Ok tt;
  ac_op_ok : forall o, op c = Some o -> validate_op o (livemode (deployment c)) = Ok tt;
  ac_human_ok : forall h, human_login c = Some h -> validate_human_login h (livemode (deployment c)) = Ok tt;
  ac_sso_ok : binary = Gateway -> forall h s, human_login c = Some h -> sso h = Some s ->
    validate_sso s (livemode (deployment c)) = Ok tt }.

Lemma require_pool_ok key n r : require_pool key n = Ok r -> n <> 0.
Proof. unfold require_pool. by intros [Hn%Z.eqb_neq _]%guard_Ok. Qed.

Lemma validate_ok raw binary literals c : validate raw binary literals = Ok c -> accepted_raw raw binary literals c.
Proof.
  unfold validate. intros [_ (self & Hself%map_err_Ok & (m & Hm%map_err_Ok & Hv)%rbind_Ok)%rbind_Ok]%guard_Ok.
  apply rbind_Ok in Hv as (? & _ & ([] & Hurl & (? & Hlit & Hv)%rbind_Ok)%rbind_Ok).
  apply rbind_Ok in Hv as (? & Hb1 & (? & Hb2 & [Httl Hv]%guard_Ok)%rbind_Ok).
  apply rbind_Ok in Hv as (? & Hp1%require_pool_ok & (? & Hp2%require_pool_ok & (ps & _ & Hv)%rbind_Ok)%rbind_Ok).
  apply rbind_Ok in Hv as ([] & Hh & ([] & Ho & ([] & Hl & [= <-])%rbind_Ok)%rbind_Ok).
  split; try done; cbn [deployment auth_methods security api database providers op human_login].
  - by exists self.
  - by eexists.
  - intros Hlive. destruct literals; [done|]. cbn in Hlit. by rewrite Hlive in Hlit.
  - split_and!; [by eapply validate_bucket_ok | by eapply validate_bucket_ok | by apply Z.eqb_neq].
  - intros o E. by rewrite E in Ho.
  - intros h E. rewrite E in Hl. by apply rbind_Ok in Hl as ([] & ? & _).
  - intros -> h s E Es. rewrite E in Hl. apply rbind_Ok in Hl as (? & _ & Hl). cbn in Hl. by rewrite Es in Hl.
Qed.

Lemma load_ok path profile binary environment c : load_with_env path profile binary environment = Ok c ->
  exists files document prepared raw, files_of path profile = Ok files /\ extract files = Ok document /\
    prepare binary environment document = Ok prepared /\ prepared.2 = literal_secret_keys document /\
    reread prepared.1 = Ok raw /\ accepted_raw raw binary prepared.2 c.
Proof.
  unfold load_with_env. intros (files & Hf & (document & Hd%map_err_Ok & (prepared & Hp & Hv)%rbind_Ok)%rbind_Ok)%rbind_Ok.
  apply rbind_Ok in Hv as (raw & Hr%map_err_Ok & Hv%validate_ok).
  exists files, document, prepared, raw. split_and!; try done.
  unfold prepare in Hp. by apply rbind_Ok in Hp as (? & _ & (? & _ & (? & _ & [= <-])%rbind_Ok)%rbind_Ok).
Qed.

(** C24. A configuration accepted for live traffic is real: every address in it
    is reached over TLS and names no stub, no fake certificate authority is
    trusted, and every secret was written as a placeholder for a variable of
    the environment, never as text. *)
Theorem livemode_is_real path profile binary environment c :
  load_with_env path profile binary environment = Ok c -> livemode (deployment c) = true ->
  Forall live_url (urls c) /\ (aws_sms (providers c) ≫= fake_sns_cert_base) = None /\
  (binary = Gateway -> forall b, (human_login c ≫= sso) = Some b -> live_url (Sso.st_issuer (sso_settings b))) /\
  exists files document, files_of path profile = Ok files /\ extract files = Ok document /\
    Forall (fun kv => exists s, kv.2 = VString s /\ is_whole_secret_placeholder s = true) (secret_entries document).
Proof.
  intros (files & document & prepared & raw & Hf & Hd & _ & Hlit & _ & Hc)%load_ok Hlive.
  destruct Hc as [_ _ _ _ _ [? Hurl] Hl _ _ Hh Ho Hhu Hs]. rewrite Hlive in *.
  apply provider_hosts_live in Hh as [Hh Hfake]. split_and!; [|done| |].
  - unfold urls. constructor; [by eapply check_url_live|]. apply Forall_app. split; [done|]. apply Forall_app. split.
    + apply opt_Forall. intros i (o & Eo & ->)%fmap_Some. specialize (Ho o Eo).
      apply validate_op_ok in Ho as [_ Ho]. by eapply check_url_live.
    + destruct (human_login c) as [h|]; [|constructor]. specialize (Hhu h eq_refl). cbn [from_option].
      unfold validate_human_login in Hhu. apply rbind_Ok in Hhu as (? & _ & [_ [_ [_ Hhu]%guard_Ok]%guard_Ok]%guard_Ok).
      apply rbind_Ok in Hhu as (? & Hall & _). apply Forall_forall. intros uri Hu.
      apply check_each_ok in Hall as [_ Hall]; [|by intros k b v r (? & _)%redirect_rule_ok].
      destruct (Hall uri Hu) as (k & b & r & (_ & Hk & _)%redirect_rule_ok). by eapply check_url_live.
  - intros -> b Eb. destruct (human_login c) as [h|] eqn:Eh; [|done].
    specialize (Hs eq_refl h b eq_refl Eb). by apply validate_sso_ok in Hs as [_ Hs]; apply Hs.
  - exists files, document. split; [done|]. split; [done|]. apply Forall_forall. intros [k v] Hin.
    specialize (Hl eq_refl). rewrite Hlit in Hl. unfold literal_secret_keys in Hl. apply fmap_nil_inv in Hl.
    cbn [snd]. destruct (written_literally v) eqn:Hw.
    + assert ((k, v) ∈ List.filter (fun kv => written_literally kv.2) (secret_entries document)) as Hx
        by (rewrite list_elem_of_In, filter_In, <- list_elem_of_In; by split).
      rewrite Hl in Hx. by apply elem_of_nil in Hx.
    + unfold written_literally in Hw. destruct v as [s| | | | | |]; try done. exists s.
      split; [done|]. by apply negb_false_iff.
Qed.

(** A configuration that is accepted can be run with: the limits let
    requests through and are positive, the pools hold connections; the keys of
    the provider are published past the life of the last token they signed; the
    console's client has a name and addresses its registration can store; and
    for the gateway the identity provider is reached securely, asks for an
    ID token and a second factor, and gives new accounts a role they may
    have.  Every block that is written is served. *)
Theorem accepted_is_runnable path profile binary environment c :
  (forall u, url_parse [] <> Ok u) -> load_with_env path profile binary environment = Ok c ->
  sound_bucket (rate_limit (api c)) /\ sound_bucket (source_rate_limit (api c)) /\
  gateway_max_connections (database c) <> 0 /\ worker_max_connections (database c) <> 0 /\
  (forall o, op c = Some o -> sound_op o) /\
  (forall h, human_login c = Some h -> sound_console h /\ op c <> None /\
     Methods.human_login_served (auth_methods c) = true) /\
  (binary = Gateway -> forall b, (human_login c ≫= sso) = Some b -> sound_sso b).
Proof.
  intros Hempty (files & document & prepared & raw & _ & _ & _ & _ & _ & Hc)%load_ok.
  destruct Hc as [_ _ Eop Ehu (self & Hres & Hm) _ _ (Hb1 & Hb2 & _) [Hp1 Hp2] _ Ho Hh Hs].
  pose proof (Methods.with_blocks_ok _ _ _ _ Hm) as (Em & Hhu & _). split_and!; try done.
  - intros o Eo. specialize (Ho o Eo). by apply validate_op_ok in Ho as [Ho _].
  - intros h Eh. specialize (Hh h Eh). apply validate_human_login_ok in Hh as [Hh _]; [|done].
    rewrite Ehu in Eh. rewrite Eh in *. cbn [is_null negb] in *. destruct Hhu as [Hp Hop]; [done|].
    split; [done|]. rewrite Eop. split; [by destruct (raw_op raw)|]. rewrite Em.
    unfold Methods.human_login_served, Methods.permits in *. cbn [Methods.permitted Methods.human_login_block Methods.op_block].
    by rewrite Hp, Hop.
  - intros -> b Eb. destruct (human_login c) as [h|] eqn:Eh; [|done].
    specialize (Hs eq_refl h b eq_refl Eb). by apply validate_sso_ok in Hs as [Hs _].
Qed.

(** C26. A process other than the gateway is never handed the pepper or the
    identity provider's secret: what it loads holds neither, and does not
    change with any variable that only those two blocks name, so it starts
    without them in its environment. *)
Theorem secrets_stay_with_gateway path profile binary env1 env2 files document :
  (forall v raw, reread v = Ok raw ->
     (find_ref [lit "security"] v = None -> raw_security raw = None) /\
     (find_ref [lit "human_login"; lit "sso"] v = None -> (raw_human_login raw ≫= sso) = None)) ->
  binary <> Gateway -> files_of path profile = Ok files -> extract files = Ok document ->
  (forall r, r ∈ RetiredNames.RETIRED -> (RetiredNames.env r ∉ collect_placeholders document) ->
     (env1 (RetiredNames.env r) = None <-> env2 (RetiredNames.env r) = None)) ->
  (forall name, name ∈ collect_placeholders (handed_to binary document) -> env1 name = env2 name) ->
  load_with_env path profile binary env1 = load_with_env path profile binary env2 /\
  (forall c, load_with_env path profile binary env1 = Ok c ->
     security c = None /\ (human_login c ≫= sso) = None /\ config_sso c = None).
Proof.
  intros Hserde Hb Hf Hd Hret Hread.
  destruct (prepare_blind binary env1 env2 document Hb Hret Hread) as (Hs & Hl & Hp). split.
  - unfold load_with_env. rewrite Hf. cbn [rbind]. rewrite Hd. cbn [map_err rbind]. by rewrite Hp.
  - intros c (files' & document' & prepared & raw & Hf' & Hd' & Hpr & _ & Hr & Hc)%load_ok.
    rewrite Hf in Hf'. injection Hf' as <-. rewrite Hd in Hd'. injection Hd' as <-.
    destruct (prepare_fill _ _ _ _ Hpr) as [f Hfill]. destruct (Hserde _ _ Hr) as [Hsec Hsso].
    rewrite Hfill in Hsec, Hsso. specialize (Hsec (find_ref_fill _ _ _ _ Hs)). specialize (Hsso (find_ref_fill _ _ _ _ Hl)).
    rewrite (ac_security _ _ _ _ Hc). unfold config_sso. rewrite (ac_human _ _ _ _ Hc), Hsso. done.
Qed.

End Theorems.

(** ** Secrets are not looked at *)
Section Blind.

Context `{R : ReqwestLib} `{H : !Sso.UrlHosts} `{U : UnicodeDebug} `{N : NumberLib}.
Context (f : Secret -> Secret) (f_blank : forall s, is_blank (f s) = is_blank s).

Definition rmap {A B E} (g : A -> B) (r : result A E) : result B E :=
  match r with Ok a => Ok (g a) | Err e => Err e end.

(** The same document with other secrets in it. *)
Definition provider_with (p : RawProvider) : RawProvider :=
  match p with
  | RawOrangeCm host n c => RawOrangeCm host n (mkRawOAuth (raw_client_id c) (f <$> raw_client_secret c))
  | RawMtnCm host s c => RawMtnCm host s (mkRawOAuth (raw_client_id c) (f <$> raw_client_secret c))
  | RawAwsSms host s c => RawAwsSms host s (mkRawAwsCredentials (raw_access_key_id c) (f <$> raw_secret_access_key c))
  end.

Definition settings_with (s : Sso.Settings) : Sso.Settings :=
  Sso.mkSettings (Sso.st_issuer s) (Sso.st_client_id s) (expose (f (mkSecret (Sso.st_client_secret s))))
    (Sso.st_scopes s) (Sso.st_required_group s) (Sso.st_groups_claim s) (Sso.st_accepted_amr s)
    (Sso.st_accepted_acr s) (Sso.st_jit_role s) (Sso.st_jwks_min_refresh_secs s).

Definition human_with (h : HumanLogin) : HumanLogin :=
  mkHumanLogin (console_client h) (login_rate_limit h)
    ((fun b => mkSsoBlock (settings_with (sso_settings b)) (sso_rate_limit b)) <$> sso h).

Definition security_with (s : Security) : Security := mkSecurity (f (hash_pepper s)).

Definition raw_with (raw : Raw) : Raw :=
  mkRaw (raw_deployment raw) (raw_auth raw) (security_with <$> raw_security raw) (raw_api raw) (raw_database raw)
    (provider_with <$> raw_providers raw) (raw_op raw) (human_with <$> raw_human_login raw).

Definition orange_with (c : OrangeCm) : OrangeCm :=
  mkOrangeCm (orange_client_id c) (f (orange_client_secret c)) (orange_sender_number c) (orange_base_url c).

Definition mtn_with (c : MtnCm) : MtnCm :=
  mkMtnCm (mtn_client_id c) (f (mtn_client_secret c)) (mtn_service_code c) (mtn_sender_id c) (mtn_base_url c)
    (mtn_tps_ceiling c) (mtn_cost_per_segment_xaf c) (mtn_supports_alphanumeric_sender c).

Definition sender_with (c : AwsSender) : AwsSender :=
  mkAwsSender (region c) (access_key_id c) (f (secret_access_key c)) (configuration_set c) (origination_identity c)
    (message_type c) (tps_ceiling c) (cost_per_segment_xaf c) (supports_alphanumeric_sender c) (endpoint_url c)
    (time_to_live c).

Definition aws_with (c : AwsSms) : AwsSms :=
  mkAwsSms (sender_with <$> sender c) (events_topic_arn c) (fake_sns_cert_base c).

Definition providers_with (p : Providers) : Providers :=
  mkProviders (orange_with <$> orange_cm p) (mtn_with <$> mtn_cm p) (aws_with <$> aws_sms p).

Definition config_with (c : Config) : Config :=
  mkConfig (deployment c) (auth_methods c) (security_with <$> security c) (api c) (database c)
    (providers_with (providers c)) (op c) (human_with <$> human_login c).

Lemma is_null_fmap {A B} (g : A -> B) (o : option A) : is_null (g <$> o) = is_null o.
Proof. by destruct o. Qed.

Lemma present_secret_with code path v : present_secret code path (f <$> v) = rmap f (present_secret code path v).
Proof. destruct v as [s|]; [|done]. cbn. rewrite f_blank. by destruct (is_blank s). Qed.

(** One step of a chain whose outcome the secret does not decide. *)
Ltac same_step := match goal with |- context [rbind ?r _] => destruct r; cbn [rbind rmap]; [|reflexivity] end.

Lemma orange_with_ok host n c :
  validate_orange host n (mkRawOAuth (raw_client_id c) (f <$> raw_client_secret c)) =
  rmap orange_with (validate_orange host n c).
Proof.
  unfold validate_orange. cbn [raw_client_id raw_client_secret]. rewrite present_secret_with.
  same_step. destruct (present_secret _ _ _); [|done]. cbn [rmap rbind]. by same_step.
Qed.

Lemma mtn_with_ok host s c :
  validate_mtn host s (mkRawOAuth (raw_client_id c) (f <$> raw_client_secret c)) = rmap mtn_with (validate_mtn host s c).
Proof.
  unfold validate_mtn. cbn [raw_client_id raw_client_secret]. rewrite present_secret_with.
  same_step. destruct (present_secret _ _ _); [|done]. cbn [rmap rbind]. by do 3 same_step.
Qed.

Lemma sender_with_ok host s c :
  aws_sender host s (mkRawAwsCredentials (raw_access_key_id c) (f <$> raw_secret_access_key c)) =
  rmap sender_with (aws_sender host s c).
Proof.
  unfold aws_sender. cbn [raw_access_key_id raw_secret_access_key]. rewrite present_secret_with.
  do 3 same_step. destruct (present_secret _ _ _); [|done]. cbn [rmap rbind]. by do 3 same_step.
Qed.

Lemma aws_with_ok host s c :
  validate_aws host s (mkRawAwsCredentials (raw_access_key_id c) (f <$> raw_secret_access_key c)) =
  rmap aws_with (validate_aws host s c).
Proof.
  unfold validate_aws, sends. cbn [raw_access_key_id raw_secret_access_key]. rewrite is_null_fmap, sender_with_ok.
  destruct (negb _ && _); [done|]. same_step. repeat destruct (_ || _); try done.
  by destruct (aws_sender host s c).
Qed.

Lemma entries_with raw p :
  validate_entries (provider_with <$> raw) (providers_with p) = rmap providers_with (validate_entries raw p).
Proof.
  revert p. induction raw as [|r raw IH]; intros p; [done|].
  destruct r as [host n c|host s c|host s c]; cbn [fmap list_fmap validate_entries provider_with].
  - rewrite orange_with_ok. destruct (validate_orange host n c); [|done]. cbn [rmap rbind providers_with orange_cm].
    rewrite is_null_fmap. destruct (is_null (orange_cm p)); [exact (IH (mkProviders (Some a) (mtn_cm p) (aws_sms p))) | done].
  - rewrite mtn_with_ok. destruct (validate_mtn host s c); [|done]. cbn [rmap rbind providers_with mtn_cm].
    rewrite is_null_fmap. destruct (is_null (mtn_cm p)); [exact (IH (mkProviders (orange_cm p) (Some a) (aws_sms p))) | done].
  - rewrite aws_with_ok. destruct (validate_aws host s c); [|done]. cbn [rmap rbind providers_with aws_sms].
    rewrite is_null_fmap. destruct (is_null (aws_sms p)); [exact (IH (mkProviders (orange_cm p) (mtn_cm p) (Some a))) | done].
Qed.

Lemma provider_hosts_with p live : validate_provider_hosts (providers_with p) live = validate_provider_hosts p live.
Proof.
  unfold validate_provider_hosts, hosts. destruct p as [o m a]. cbn [providers_with orange_cm mtn_cm aws_sms].
  by destruct o, m, a as [[[s|] t b]|]; reflexivity.
Qed.

Lemma validate_sso_with b live :
  validate_sso (mkSsoBlock (settings_with (sso_settings b)) (sso_rate_limit b)) live = validate_sso b live.
Proof.
  unfold validate_sso, settings_with. destruct b as [s l].
  cbn [sso_settings sso_rate_limit Sso.st_issuer Sso.st_client_id Sso.st_client_secret Sso.st_scopes Sso.st_required_group
    Sso.st_groups_claim Sso.st_accepted_amr Sso.st_accepted_acr Sso.st_jit_role Sso.st_jwks_min_refresh_secs].
  replace (is_blank (mkSecret (expose (f (mkSecret (Sso.st_client_secret s))))))
    with (is_blank (mkSecret (Sso.st_client_secret s))); [reflexivity|].
  rewrite <- f_blank. by destruct (f _).
Qed.

(** C27. Whether a document is accepted, and every reason it is refused for,
    is decided without looking at a secret beyond whether it is blank: with
    other secrets in it the same document is refused for the same reason, or
    accepted with those secrets in their places. *)
Theorem validation_blind raw binary literal_secrets :
  validate (raw_with raw) binary literal_secrets = rmap config_with (validate raw binary literal_secrets).
Proof.
  unfold validate. cbn [raw_with raw_deployment raw_auth raw_security raw_api raw_database raw_providers raw_op raw_human_login].
  rewrite !is_null_fmap. destruct (reads_security binary && _); [done|].
  do 7 same_step. destruct (idempotency_ttl_secs _ =? 0); [done|]. do 2 same_step.
  unfold validate_providers. rewrite (entries_with _ no_providers).
  destruct (validate_entries _ no_providers) as [ps|]; [|done]. cbn [rmap rbind]. rewrite provider_hosts_with.
  do 2 same_step. destruct (raw_human_login raw) as [h|]; [|done]. cbn [each fmap option_fmap option_map].
  change (validate_human_login (human_with h)) with (validate_human_login h).
  destruct (validate_human_login h _); [|done]. cbn [rbind]. destruct (reads_sso binary); [|done].
  destruct h as [cc ll [b|]]; [|done]. cbn [human_with sso each fmap option_fmap option_map].
  rewrite validate_sso_with. by same_step.
Qed.

End Blind.

(** ** Witnesses *)
Module SettingsExamples.

Import PlaceholderExamples.

#[local] Existing Instance demo_reqwest.
#[local] Existing Instance demo_hosts.
#[local] Existing Instance demo_debug.

Definition demo_numbers : NumberLib := {|
  f64_display _ := lit "1";
  f64_from_str s := if forallb is_ascii_digit s then Some f64_one else None;
  decimal_from_str s := Some (false, (25, 0)) |}.
#[local] Existing Instance demo_numbers.

Definition calm : Bucket := mkBucket 10 f64_one.

Definition text_at (path : list text) (v : Value) : option text := find_ref path v ≫= as_str.

(** A live deployment with Orange, the provider and single sign-on; what is
    secret in it is read from the document. *)
Definition demo_sso (client_secret : text) : SsoBlock :=
  mkSsoBlock (Sso.mkSettings (lit "https://id.example.cm") (lit "vsms") client_secret [lit "openid"; lit "email"]
    (lit "operators") (lit "groups") [lit "otp"] [] (lit "viewer") 60) calm.

Definition demo_raw (v : Value) : Raw :=
  mkRaw (mkDeployment (lit "prod") true (lit "https://sms.example.cm")) None
    ((fun s => mkSecurity (mkSecret s)) <$> text_at [lit "security"; lit "hash_pepper"] v)
    (mkApi 86400 calm calm) (mkDatabase 8 4)
    [RawOrangeCm (Some (lit "https://api.orange.cm/v1")) (Some (lit "+237690000000"))
       (mkRawOAuth (Some (lit "id")) (Some (mkSecret (lit "s"))))]
    (Some (mkOp (lit "https://sms.example.cm") calm (mkSigningKey 300 3600)))
    (Some (mkHumanLogin OpExamples.console (mkLoginRateLimit calm calm)
       (demo_sso <$> text_at [lit "human_login"; lit "sso"; lit "client_secret"] v))).

Definition demo_source : ConfigSource := {|
  is_file p := bool_decide (p ∈ [lit "/config/application.yml"; lit "/config/application-prod.yml"]);
  extract files := if bool_decide (length files = 2%nat) then Ok sealed else Err (lit "no such file");
  reread v := Ok (demo_raw v) |}.
#[local] Existing Instance demo_source.

Definition base : option text := Some (lit "/config/application.yml").

Definition loaded (binary : Binary) (environment : text -> option text) : result Config ConfigError :=
  load_with_env base (lit "prod") binary environment.

Definition loaded_config (binary : Binary) (environment : text -> option text) : Config :=
  match loaded binary environment with
  | Ok c => c
  | Err _ => mkConfig (mkDeployment [] true []) (Methods.mkMethods [] false false false) None (mkApi 0 calm calm)
      (mkDatabase 0 0) no_providers None None
  end.

Lemma gateway_loads : loaded Gateway gateway_env = Ok (loaded_config Gateway gateway_env).
Proof. vm_compute. reflexivity. Qed.

Lemma worker_loads : loaded Worker gateway_env = Ok (loaded_config Worker gateway_env).
Proof. vm_compute. reflexivity. Qed.

Lemma livemode_is_real_witness :
  Forall live_url (urls (loaded_config Gateway gateway_env)) /\
  live_url (lit "https://id.example.cm").
Proof.
  destruct (livemode_is_real base (lit "prod") Gateway gateway_env _ gateway_loads) as (Hu & _ & Hs & _).
  - vm_compute. reflexivity.
  - split; [exact Hu|].
    assert ((human_login (loaded_config Gateway gateway_env) ≫= sso) = Some (demo_sso (lit "0123456789"))) as Es
      by (vm_compute; reflexivity).
    exact (Hs eq_refl _ Es).
Defined.

Lemma accepted_is_runnable_witness :
  sound_op (mkOp (lit "https://sms.example.cm") calm (mkSigningKey 300 3600)) /\ sound_sso (demo_sso (lit "0123456789")).
Proof.
  destruct (accepted_is_runnable base (lit "prod") Gateway gateway_env (loaded_config Gateway gateway_env))
    as (_ & _ & _ & _ & Ho & _ & Hs).
  - intros u. vm_compute. discriminate.
  - exact gateway_loads.
  - split; [apply Ho; vm_compute; reflexivity|]. apply (Hs eq_refl). vm_compute. reflexivity.
Defined.

Lemma secrets_stay_with_gateway_witness :
  loaded Worker gateway_env = loaded Worker worker_env /\ security (loaded_config Worker gateway_env) = None.
Proof.
  destruct (secrets_stay_with_gateway base (lit "prod") Worker gateway_env worker_env
    [lit "/config/application.yml"; lit "/config/application-prod.yml"] sealed) as [Heq Hnone].
  - intros v raw [= <-]. split.
    + intros Hn. cbn [demo_raw raw_security]. unfold text_at. cbn [find_ref] in *.
      destruct (as_dict v ≫= dict_get (lit "security")); [discriminate | reflexivity].
    + intros Hn. cbn [demo_raw raw_human_login mbind option_bind sso]. unfold text_at. cbn [find_ref] in *.
      destruct (as_dict v ≫= dict_get (lit "human_login")) as [h|]; [|reflexivity].
      destruct (as_dict h ≫= dict_get (lit "sso")); [discriminate | reflexivity].
  - discriminate.
  - vm_compute. reflexivity.
  - vm_compute. reflexivity.
  - exact (proj1 worker_env_agrees).
  - exact (proj2 worker_env_agrees).
  - split; [exact Heq|]. exact (proj1 (Hnone _ worker_loads)).
Defined.

(** Every secret replaced by another. *)
Definition other_secret (s : Secret) : Secret := if is_blank s then s else mkSecret (lit "other").

Lemma other_secret_blank s : is_blank (other_secret s) = is_blank s.
Proof. unfold other_secret. destruct (is_blank s) eqn:E; [exact E | vm_compute; reflexivity]. Qed.

Lemma validation_blind_witness :
  validate (raw_with other_secret (demo_raw sealed)) Gateway [lit "k"] = Err (LiteralSecret (lit "k")).
Proof. rewrite (validation_blind other_secret other_secret_blank (demo_raw sealed) Gateway [lit "k"]). vm_compute. reflexivity. Defined.

End SettingsExamples.
