(* ===== verification/Commands.v ===== *)
(** * The operator's commands

    Of the app sms-gateway: commands/rotate_signing_key.rs,
    seed_console_client.rs, provision_client.rs, provision_user.rs,
    register_client.rs, pair_console_key.rs and secret_file.rs.  Each loads
    the configuration, refuses where the deployment does not serve what it is
    for, and only then opens the database.

    A command runs from the outcome of loading the configuration, the secrets
    it generates and the files on disk; what it prints is left out, and the
    context added to an error is its constructor. *)

From S2P Require Import Prelude SentinelList Schema ApiSchema Errors Sql Db DbLogic DbReads DbRef.
From S2P Require Import WorkerRouting Adapter Transactions Signers Rbac Keys Oidc SsoStore TokenDoor Door Login OpStores Placeholders Settings DemoData.

(** The argon2 crate: hashing with a random salt and checking; a hash it made
    of a password is one that password passes. *)
Class Argon2Lib := {
  argon2_hash : text -> text -> result text text;
  argon2_verify : text -> text -> bool;
  argon2_verifies salt password hash :
    argon2_hash salt password = Ok hash -> argon2_verify password hash = true }.

Section Commands.

Context `{E : CratestackErrors} `{K : OpStores.KeyLib} `{D : UnicodeDebug} `{C : !CoseLib} `{AR : !Argon2Lib}.

(** [anyhow::Error], by where it arose. *)
Inductive CommandError :=
| LoadingConfiguration (e : ConfigError)
| NotServedHere (reason : text)
| Refused (message : text)
| FromApi (e : CratestackError)
| OnDisk (message : text)
| Seeding (e : ConsoleClient.ConsoleClientError)
| Rotating (e : OpStores.AnyError)
| Provisioning (e : OpStores.ProvisionError).

(** ** sms-core/src/password.rs *)
Definition generate_password (len : nat) (draws : nat -> Z) : text := draws <$> seq 0 len.

Definition hash_password (salt password : text) : result text text := argon2_hash salt password.

Definition verify_password (password hash : text) : bool := argon2_verify password hash.

(** ** secret_file.rs: a file of a secret is created, never overwritten *)
Abbreviation files := (gmap text text).

(** What the disk does: the file cannot be created, only the first [n]
    characters are written, or all of them are. *)
Inductive WriteOutcome := CannotCreate | Torn (n : nat) | Written.

Definition write_new_secret_file (path contents : text) (disk : WriteOutcome) (fs : files) : result unit CommandError * files :=
  if negb (is_null (fs !! path)) then (Err (OnDisk (lit "refusing to overwrite")), fs)
  else match disk with
  | CannotCreate => (Err (OnDisk (lit "creating")), fs)
  | Torn n => (Err (OnDisk (lit "writing")), <[path := take n contents]> fs)
  | Written => (Ok tt, <[path := contents]> fs)
  end.

(** ** rotate_signing_key.rs *)



(** ** seed_console_client.rs *)
Definition seed_console_client_core (config : Config) : prog (result ConsoleClient.Seeded CommandError) :=
  match human_login config with
  | None => Ret (Err (Refused (lit "human_login: is missing although human_login is served")))
  | Some human => pmap_err Seeding (ConsoleClient.seed_console_client (console_client human))
  end.

Definition seed_console_client_command (loaded : result Config ConfigError)
  : prog (result ConsoleClient.Seeded CommandError) :=
  let!? config := lift (map_err LoadingConfiguration loaded) in
  let!? _ := lift (map_err NotServedHere (Methods.require (Methods.human_login_gate (auth_methods config)))) in
  seed_console_client_core config.

(** ** provision_client.rs *)
Definition operator_role (role : text) : bool :=
  bool_decide (role = lit "owner") || bool_decide (role = lit "admin").

Definition app_with_slug (slug : text) : query TApp :=
  mkQuery (t := TApp) (fun a => bool_decide (a.(App.slug) = slug)) [] (Some 1).

(** The database part: which app, and the client.  clap admits exactly one of
    the two ways to name the app; the code expects it. *)
Definition provision_for (generated : result text text) (app_id app_slug : option text) (label : text)
    (scopes : list text) : prog (result OpStores.ProvisionedClient CommandError) :=
  let!? app_id :=
    match app_id with
    | Some app_id => Ret (Ok app_id)
    | None =>
        match app_slug with
        | None => Panic
        | Some slug =>
            let!? found := pmap_err FromApi (first_row (app_with_slug slug)) in
            Ret match found with
                | Some app => Ok app.(App.id)
                | None => Err (Refused (lit "no App with slug " ++ debug_str slug ++ lit " exists"))
                end
        end
    end in
  pmap_err Provisioning (OpStores.provision_token_client generated app_id label scopes).

(** Whether the client's id could also be written is the last argument. *)
Definition provision_client_command (loaded : result Config ConfigError) (generated : result text text)
    (app_id app_slug : option text) (label : text) (scopes : list text) (role key_out : text)
    (client_id_out : option text) (disk : WriteOutcome) (id_written : bool) (fs : files)
  : prog (result text CommandError * files) :=
  match map_err LoadingConfiguration loaded with
  | Err e => Ret (Err e, fs)
  | Ok config =>
      match map_err NotServedHere (Methods.require (Methods.machine_tokens_gate (auth_methods config))) with
      | Err e => Ret (Err e, fs)
      | Ok _ =>
          if negb (operator_role role) then Ret (Err (Refused (lit "--role must be owner or admin")), fs)
          else if bool_decide (app_id = Some []) || bool_decide (app_slug = Some []) then
            Ret (Err (Refused (lit "--app-id/--app-slug must not be empty")), fs)
          else if negb (is_null (fs !! key_out)) then Ret (Err (OnDisk (lit "refusing to overwrite")), fs)
          else
            let! provisioned := provision_for generated app_id app_slug label scopes in
            match provisioned with
            | Err e => Ret (Err e, fs)
            | Ok p =>
                let '(written, fs) := write_new_secret_file key_out (OpStores.pv_private_key_pem p) disk fs in
                match written, client_id_out with
                | Err e, _ => Ret (Err e, fs)
                | Ok _, None => Ret (Ok (OpStores.pv_client_id p), fs)
                | Ok _, Some out =>
                    if id_written then Ret (Ok (OpStores.pv_client_id p), <[out := OpStores.pv_client_id p]> fs)
                    else Ret (Err (OnDisk (lit "writing the client id")), fs)
                end
            end
      end
  end.

(** ** provision_user.rs *)
Definition PASSWORD_LEN : nat := 24.

Inductive PasswordIssued := PasswordSet | PasswordReplaced.

Definition create_user_body (email display_name role_key : text) : txn (result (option text) CratestackError) :=
  lett uuid := tdo TUuid in
  lett created := tdo (TCreate TUser
    (mkCreateUser (lit "pending-" ++ hyphenated uuid) email display_name role_key None None)) in
  match created with
  | Ok user =>
      lett? _ := tdo (TUpdate TUser user.(User.id) [User.SetSubject user.(User.id)] user.(User.version)) in
      TRet (Ok (Some user.(User.id)))
  | Err e =>
      if bool_decide (db_sqlstate e = Some UNIQUE_VIOLATION) && bool_decide (db_constraint e = Some (lit "users_email_key"))
      then TRet (Ok None) else TRet (Err e)
  end.

Definition create_console_user_if_absent (email display_name role_key : text) : prog (result (option text) CommandError) :=
  pmap_err FromApi (do (Tx (create_user_body email display_name role_key))).

Definition user_with_email (email : text) : query TUser :=
  mkQuery (t := TUser) (fun u => bool_decide (u.(User.email) = email)) [] (Some 1).

Definition user_id_by_email (email : text) : prog (result (option text) CommandError) :=
  let!? found := pmap_err FromApi (first_row (user_with_email email)) in
  Ret (Ok (User.id <$> found)).

(** [draws] are the characters the random source gives, [salt] what the hash is
    salted with, [removed] whether the file could be removed again. *)
Definition issue_password (draws : nat -> Z) (salt : text) (disk : WriteOutcome) (removed : bool)
    (user_id out : text) (reset : bool) (fs : files) : prog (result PasswordIssued CommandError * files) :=
  let! looked_up := first_row (Login.credential_of user_id) in
  match looked_up with
  | Err e => Ret (Err (FromApi e), fs)
  | Ok existing =>
      if negb (is_null existing) && negb reset then
        Ret (Err (Refused (lit "this user already has a password; pass --reset to replace it")), fs)
      else
      let password := generate_password PASSWORD_LEN draws in
      match hash_password salt password with
      | Err e => Ret (Err (Refused (lit "hashing the generated password: " ++ e)), fs)
      | Ok password_hash =>
          let '(written, fs) := write_new_secret_file out password disk fs in
          match written with
          | Err e => Ret (Err e, fs)
          | Ok _ =>
              let! stored := match existing with
                | Some credential =>
                    do (Overwrite TCredential credential.(UserCredential.id)
                          [UserCredential.SetPasswordHash password_hash])
                | None => do (Create TCredential (mkCreateCredential user_id password_hash))
                end in
              match stored with
              | Err e => Ret (Err (FromApi e), if removed then delete out fs else fs)
              | Ok _ => Ret (Ok (if is_null existing then PasswordSet else PasswordReplaced), fs)
              end
          end
      end
  end.

Record ProvisionUserArgs := mkProvisionUserArgs {
  arg_email : text;
  arg_display_name : text;
  arg_role_key : text;
  arg_password_out : option text;
  arg_reset : bool }.

(** clap requires the file with [--password] and [--password] with the file:
    the file alone says whether a password is asked for. *)
Definition provision_user_command (loaded : result Config ConfigError) (args : ProvisionUserArgs)
    (draws : nat -> Z) (salt : text) (disk : WriteOutcome) (removed : bool) (fs : files)
  : prog (result (option PasswordIssued) CommandError * files) :=
  let admitted :=
    match arg_password_out args with
    | None => Ok tt
    | Some file =>
        let? config := map_err LoadingConfiguration loaded in
        let? _ := map_err NotServedHere (Methods.require (Methods.human_login_gate (auth_methods config))) in
        if negb (is_null (fs !! file)) then Err (OnDisk (lit "refusing to overwrite")) else Ok tt
    end in
  match admitted with
  | Err e => Ret (Err e, fs)
  | Ok _ =>
      let! created := create_console_user_if_absent (arg_email args) (arg_display_name args) (arg_role_key args) in
      match created, arg_password_out args with
      | Err e, _ => Ret (Err e, fs)
      | Ok _, None => Ret (Ok None, fs)
      | Ok created, Some file =>
          let! user_id := match created with
            | Some user_id => Ret (Ok (Some user_id))
            | None => user_id_by_email (arg_email args)
            end in
          match user_id with
          | Err e => Ret (Err e, fs)
          | Ok None => Ret (Err (Refused (lit "the User vanished")), fs)
          | Ok (Some user_id) =>
              let! issued := issue_password draws salt disk removed user_id file (arg_reset args) fs in
              Ret (match issued.1 with Ok i => Ok (Some i) | Err e => Err e end, issued.2)
          end
      end
  end.

(** ** register_client.rs and pair_console_key.rs *)

(** Both take a configuration or none; with one, signing keys must be
    permitted. *)
Definition keypair_admits (loaded : option (result Config ConfigError)) (what : text) : result unit CommandError :=
  match loaded with
  | None => Ok tt
  | Some loaded =>
      let? config := map_err LoadingConfiguration loaded in
      let keypair := if Methods.permits (auth_methods config) Methods.Keypair then KeypairPermitted else KeypairDisabled in
      map_err (fun _ => NotServedHere what) (keypair_require keypair what)
  end.

Definition CLIENT_ID_MAX_CHARS : Z := 64.

Definition client_id_for (slug : text) (name : option text) : text :=
  match name with
  | Some name => lit "appc_" ++ slug ++ lit "_" ++ name
  | None => lit "appc_" ++ slug
  end.

Definition name_byte (c : Z) : bool := ((97 <=? c) && (c <=? 122)) || is_ascii_digit c || (c =? 45).

Definition check_client_name (slug name : text) : result unit CommandError :=
  if negb (negb (bool_decide (name = [])) && (byte_len name <=? 24) && forallb name_byte name
           && negb (starts_with name (lit "-"))) then
    Err (Refused (lit "--client-name must be 1-24 lowercase letters, digits or hyphens"))
  else if CLIENT_ID_MAX_CHARS <? byte_len (client_id_for slug (Some name)) then
    Err (Refused (lit "--app and --client-name together are over the limit"))
  else Ok tt.

Definition client_with_name (client_id : text) : query TAppClient :=
  mkQuery (t := TAppClient) (fun c => bool_decide (c.(AppClient.clientId) = client_id)) [] (Some 1).

Definition find_client (client_id : text) : prog (result (option AppClient.t) CommandError) :=
  pmap_err FromApi (first_row (client_with_name client_id)).

Definition same_app (existing : AppClient.t) (app_id : text) : result text CommandError :=
  if negb (bool_decide (existing.(AppClient.appId) = app_id)) then
    Err (Refused (lit "AppClient already exists and belongs to a different App"))
  else Ok existing.(AppClient.id).

Definition create_or_find_client (app_id client_id : text) (scopes : list text) : prog (result (text * bool) CommandError) :=
  let!? existing := find_client client_id in
  match existing with
  | Some existing => Ret (let? id := same_app existing app_id in Ok (id, false))
  | None =>
      if bool_decide (scopes = []) then
        Ret (Err (Refused (lit "no signing client exists for this app yet - pass at least one --scope")))
      else
        let!? scopes_packed := lift (map_err (fun e => Refused (lit "--scope: " ++ ClientKeys.pack_error e)) (pack scopes)) in
        let! created := do (Create TAppClient
          (mkCreateAppClient app_id client_id (lit "signed transport") scopes_packed None None)) in
        match created with
        | Ok created => Ret (Ok (created.(AppClient.id), true))
        | Err e =>
            if bool_decide (db_sqlstate e = Some UNIQUE_VIOLATION) then
              let!? existing := find_client client_id in
              match existing with
              | Some existing => Ret (let? id := same_app existing app_id in Ok (id, false))
              | None => Ret (Err (Refused (lit "AppClient reported as a duplicate on create but not found on lookup")))
              end
            else Ret (Err (FromApi e))
        end
  end.

Definition register_client_command (loaded : option (result Config ConfigError))
    (app_slug public_key : text) (client_name label : option text) (scopes : list text) (role : text)
  : prog (result (ClientKey.t * bool) CommandError) :=
  let!? _ := lift (keypair_admits loaded
    (lit "a signing key cannot be registered; register a machine client with provision-client instead")) in
  if negb (operator_role role) then Ret (Err (Refused (lit "--role must be owner or admin")))
  else if bool_decide (trim app_slug = []) then Ret (Err (Refused (lit "--app must not be empty")))
  else
    let!? _ := lift match client_name with Some name => check_client_name app_slug name | None => Ok tt end in
    let!? _ := lift (map_err FromApi (ClientKeys.parse_public_key public_key)) in
    let!? app := pmap_err FromApi (first_row (app_with_slug app_slug)) in
    match app with
    | None => Ret (Err (Refused (lit "no App with slug " ++ debug_str app_slug ++ lit " exists")))
    | Some app =>
        if negb app.(App.active) then Ret (Err (Refused (lit "App " ++ debug_str app_slug ++ lit " is not active")))
        else
          let!? client := create_or_find_client app.(App.id) (client_id_for app_slug client_name) scopes in
          let!? key := pmap_err FromApi
            (ClientKeys.register (mkRegisterClientKey client.1 public_key label) ClientKeys.Operator) in
          Ret (Ok (key, client.2))
    end.

Definition pair_console_key_command (loaded : option (result Config ConfigError)) (user public_key : text)
    (label : option text) : prog (result (ConsoleKey.t * User.t * bool) CommandError) :=
  let!? _ := lift (keypair_admits loaded
    (lit "a console key cannot be paired; pairing a console returns with VSA-5")) in
  let!? _ := lift (map_err FromApi (ConsoleKeys.parse_public_key public_key)) in
  if bool_decide (trim user = []) then Ret (Err (Refused (lit "--user must not be empty")))
  else
    let! now := do Now in
    pmap_err FromApi (ConsoleKeys.pair_existing_user user public_key label now).

End Commands.

(** ** What the commands leave behind *)
Section Facts.

Context `{E : CratestackErrors} `{K : OpStores.KeyLib} `{D : UnicodeDebug} `{C : !CoseLib} `{AR : !Argon2Lib} `{O : !OpLib} `{B : !Backend}.

(** The UNIQUE indexes of a table hold. *)
Definition indexes_hold (w : world) (t : tbl) : Prop :=
  forall id1 id2 a b, w_tables w t !! id1 = Some a -> w_tables w t !! id2 = Some b ->
    conflicts t a b = true -> id1 = id2.

(** The account a command makes, or finds. *)
Definition user_of (w : world) (email : text) (u : User.t) : Prop :=
  w_tables w TUser !! u.(User.id) = Some u /\ u.(User.email) = email /\
  forall id x, w_tables w TUser !! id = Some x -> x.(User.email) = email -> x = u.

Lemma user_conflict a b : a.(User.email) = b.(User.email) -> conflicts TUser a b = true.
Proof. intros He. cbn. apply orb_true_iff. right. by apply bool_decide_eq_true. Qed.

Lemma create_user_run email name role w o w' :
  rows_ok w -> indexes_hold w TUser ->
  run_tx (create_user_body email name role) w (Ok o) w' ->
  (o = None /\ w' = w) \/
  (exists u, o = Some u.(User.id) /\ user_of w' email u /\ u.(User.active) = true /\
     forall t, t <> TUser -> w_tables w' t = w_tables w t).
Proof.
  intros Hok _ Hr. apply txrun_bind in Hr as (uuid & w0 & Hu%txrun_do & Hr). apply exec_NewUuid in Hu as ->.
  apply txrun_bind in Hr as (r & w1 & Hx%txrun_do & Hr). cbn [of_tcall] in Hx.
  destruct (exec_Create _ _ _ _ _ Hx) as [[-> Hno]|(id & now & Hf & Hw & Hb & _ & _ & Hc)].
  - left. destruct r as [u|e]; [done|]. destruct (_ && _); apply txrun_inv in Hr as [Hr ->]; [|done].
    by injection Hr as ->.
  - destruct r as [u|e].
    + right. rewrite (Hb u eq_refl) in *. clear Hb.
      apply txrun_bind_Ok in Hr as (b & w2 & Hup%txrun_do & [[= ->] ->]%txrun_inv).
      assert (rows_ok w1) as Hok1 by (by destruct (create_moves _ _ _ _ _ Hok Hx) as (_ & ? & _)).
      pose proof (written_row _ _ _ _ Hw) as Hrow. cbn [row_id User.id created] in Hrow, Hup |- *.
      set (c := mkCreateUser _ email name role None None) in *.
      assert (w_tables w1 TUser !! id = Some (created TUser id now c)) as Hs by (rewrite Hrow; apply lookup_insert_eq).
      destruct (updated_table TUser _ _ _ _ _ _ _ Hok1 Hs Hup) as (? & ? & Hcm & Ht & Hfr).
      assert (b.(User.id) = id /\ b.(User.email) = email /\ b.(User.active) = true) as (Hi & He & Ha)
        by (injection Hcm as <-; split_and!; reflexivity).
      exists b. unfold user_of. rewrite Hi. split_and!; [reflexivity | | done | | done |].
      * rewrite Ht. apply lookup_insert_eq.
      * intros id' y. rewrite Ht. destruct (decide (id' = id)) as [->|Hne].
        -- rewrite lookup_insert_eq. by intros [= <-].
        -- rewrite lookup_insert_ne, Hrow, lookup_insert_ne by done. intros Hold Hx'. exfalso.
           specialize (Hc id' y Hold). rewrite user_conflict in Hc; [done | exact Hx'].
      * intros t Hne. by rewrite Hfr, (written_frame _ _ _ _ Hw).
    + exfalso. destruct (bool_decide_reflect (db_sqlstate e = Some UNIQUE_VIOLATION)) as [Hu|_];
        [|by apply txrun_inv in Hr as [? _]].
      destruct (exec_Create_duplicate TUser _ _ _ _ Hx eq_refl Hu) as (id' & x & id2 & now2 & Hx' & Hcf).
      specialize (Hc id' x Hx'). cbn in Hc, Hcf. congruence.
Qed.

Lemma credential_conflict a b : a.(UserCredential.userId) = b.(UserCredential.userId) -> conflicts TCredential a b = true.
Proof. intros He. cbn. by apply bool_decide_eq_true. Qed.

(** The password a user signs in with. *)
Definition credential_of_user (w : world) (user_id hash : text) : Prop :=
  exists c, w_tables w TCredential !! c.(UserCredential.id) = Some c /\ c.(UserCredential.userId) = user_id /\
    c.(UserCredential.passwordHash) = hash /\
    forall id x, w_tables w TCredential !! id = Some x -> x.(UserCredential.userId) = user_id -> x = c.

Lemma credential_limit user_id n : q_limit (Login.credential_of user_id) = Some n -> 0 < n.
Proof. by intros [= <-]. Qed.

Lemma stored_credential (existing : option UserCredential.t) user_id hash w r w' :
  rows_ok w -> indexes_hold w TCredential ->
  match existing with
  | Some c => w_tables w TCredential !! c.(UserCredential.id) = Some c /\ c.(UserCredential.userId) = user_id
  | None => forall id x, w_tables w TCredential !! id = Some x -> x.(UserCredential.userId) <> user_id
  end ->
  alone match existing with
        | Some c => do (Overwrite TCredential c.(UserCredential.id) [UserCredential.SetPasswordHash hash])
        | None => do (Create TCredential (mkCreateCredential user_id hash))
        end w r w' ->
  (w' = w /\ is_ok r = false) \/
  (credential_of_user w' user_id hash /\ forall t, t <> TCredential -> w_tables w' t = w_tables w t).
Proof.
  intros Hok Hu Hex Hr. destruct existing as [c|]; apply alone_do in Hr.
  - destruct Hex as [Hc Hid]. destruct (exec_Overwrite _ _ _ _ _ _ Hr) as [?|(a & b & clock & Ha & Hcm & Hw & _ & _)]; [by left|].
    right. split; [|apply (written_frame _ _ _ _ Hw)].
    pose proof (eq_trans (eq_sym Hc) Ha) as [= <-]. injection Hcm as <-.
    pose proof (written_row _ _ _ _ Hw) as Hrow. destruct c as [i cr up ui ph]. cbn in Hc, Hid, Hrow. subst ui.
    eexists (UserCredential.mk i cr clock user_id hash). cbn [UserCredential.id UserCredential.userId UserCredential.passwordHash].
    split; [rewrite Hrow; apply lookup_insert_eq|]. split; [done|]. split; [done|].
    intros id x. rewrite Hrow. destruct (decide (id = i)) as [->|Hne]; [rewrite lookup_insert_eq; by intros [= <-]|].
    rewrite lookup_insert_ne by done. intros Hx Hux. exfalso. apply Hne.
    apply (Hu id i x _ Hx Hc), credential_conflict. done.
  - destruct (exec_Create _ _ _ _ _ Hr) as [?|(id & now & Hf & Hw & _)]; [by left|].
    right. split; [|apply (written_frame _ _ _ _ Hw)].
    pose proof (written_row _ _ _ _ Hw) as Hrow. cbn [row_id UserCredential.id created] in Hrow.
    eexists (created TCredential id now _). split; [rewrite Hrow; apply lookup_insert_eq|]. split; [done|]. split; [done|].
    intros id' x. rewrite Hrow. destruct (decide (id' = id)) as [->|Hne]; [rewrite lookup_insert_eq; by intros [= <-]|].
    rewrite lookup_insert_ne by done. intros Hx Hux. by apply Hex in Hx.
Qed.

Lemma issue_alone draws salt disk removed user_id out reset fs w r fs' w' :
  rows_ok w -> indexes_hold w TCredential ->
  alone (issue_password draws salt disk removed user_id out reset fs) w (r, fs') w' ->
  (forall t, t <> TCredential -> w_tables w' t = w_tables w t) /\
  match r with
  | Ok _ => fs !! out = None /\ fs' = <[out := generate_password 24 draws]> fs /\
      exists hash, hash_password salt (generate_password 24 draws) = Ok hash /\ credential_of_user w' user_id hash
  | Err _ => w' = w \/ exists hash, credential_of_user w' user_id hash
  end.
Proof.
  intros Hok Hu Hr. apply alone_bind in Hr as (looked & w1 & Hl & Hr).
  apply alone_first_row in Hl as [-> Hl]; [|apply credential_limit].
  destruct looked as [existing|e]; [|by apply alone_inv in Hr as [[= -> ->] ->]; split; [|left]].
  destruct (negb (is_null existing) && negb reset); [by apply alone_inv in Hr as [[= -> ->] ->]; split; [|left]|].
  cbv zeta in Hr. change PASSWORD_LEN with 24%nat in Hr.
  destruct (hash_password salt (generate_password 24 draws)) as [hash|e] eqn:Hh;
    [|by apply alone_inv in Hr as [[= -> ->] ->]; split; [|left]].
  unfold write_new_secret_file in Hr. destruct (fs !! out) as [old|] eqn:Ho; cbn [is_null negb] in Hr;
    [by apply alone_inv in Hr as [[= -> ->] ->]; split; [|left]|].
  destruct disk; [by apply alone_inv in Hr as [[= -> ->] ->]; split; [|left].. |].
  apply alone_bind in Hr as (stored & w2 & Hs & Hr). specialize (Hl existing eq_refl).
  apply (stored_credential _ user_id hash) in Hs; [| done | done |].
  - destruct stored as [row|e]; apply alone_inv in Hr as [[= -> ->] ->].
    + destruct Hs as [[_ [=]]|[Hs Hf]]. split; [done|]. split; [done|]. split; [done | by exists hash].
    + destruct Hs as [[-> _]|[Hs Hf]]; [split; [done | by left] | split; [done | right; by exists hash]].
  - destruct existing as [c|].
    + destruct Hl as (Hc & Hw & _). split; [done|]. cbn in Hw. by apply bool_decide_eq_true in Hw.
    + intros id x Hx Hux. destruct (Hok TCredential _ _ Hx) as [Hid _]. cbn in Hid. subst id.
      specialize (Hl x Hx eq_refl). cbn in Hl. by apply bool_decide_eq_false in Hl.
Qed.

Lemma unique_user w u : indexes_hold w TUser -> w_tables w TUser !! u.(User.id) = Some u -> rows_ok w ->
  user_of w u.(User.email) u.
Proof.
  intros Hu Hs Hok. split; [done|]. split; [done|]. intros id x Hx He.
  assert (id = u.(User.id)) as ->; [by apply (Hu _ _ _ _ Hx Hs), user_conflict|].
  by pose proof (eq_trans (eq_sym Hs) Hx) as [= ->].
Qed.

Lemma user_of_frame w w' email u : w_tables w' TUser = w_tables w TUser -> user_of w email u -> user_of w' email u.
Proof. unfold user_of. by intros ->. Qed.

(** What signing in finds of an account and its password. *)
Lemma found_at_sign_in w email u hash r w2 :
  rows_ok w -> user_of w email u -> u.(User.active) = true -> credential_of_user w u.(User.id) hash ->
  alone (Login.find_active_user email) w r w2 -> (exists e, r = Err (Login.Unavailable e)) \/ r = Ok (Some (u, hash)).
Proof.
  intros Hok (Hs & He & Huniq) Ha (c & Hc & Hcu & Hch & Hcuniq) Hr.
  apply alone_bind_ok in Hr as [(found & w1 & Hf & Hr)|(e & Hf & ->)]; apply alone_map_err in Hf as (r0 & Hf & Hm);
    [|left; destruct r0; [done|]; injection Hm as ->; by eexists].
  apply alone_first_row in Hf as [-> Hf]; [|by intros n [= <-]].
  destruct r0 as [found0|]; [|done]. injection Hm as <-. specialize (Hf found eq_refl).
  assert (found = Some u) as ->.
  { destruct found as [x|].
    - destruct Hf as (Hx & Hw & _). cbn in Hw. apply andb_true_iff in Hw as [Hw _]. apply bool_decide_eq_true in Hw.
      f_equal. by apply (Huniq _ _ Hx).
    - specialize (Hf u Hs eq_refl). cbn in Hf. rewrite Ha, andb_true_r in Hf. by apply bool_decide_eq_false in Hf. }
  apply alone_bind_ok in Hr as [(cred & w3 & Hf' & [-> ->]%alone_inv)|(e & Hf' & ->)];
    apply alone_map_err in Hf' as (r1 & Hf' & Hm); [|left; destruct r1; [done|]; injection Hm as ->; by eexists].
  apply alone_first_row in Hf' as [-> Hf']; [|apply credential_limit].
  destruct r1 as [cred0|]; [|done]. injection Hm as <-. specialize (Hf' cred eq_refl). right.
  destruct cred as [x|].
  - destruct Hf' as (Hx & Hw & _). cbn in Hw. apply bool_decide_eq_true in Hw.
    rewrite (Hcuniq _ _ Hx Hw), Hch. done.
  - specialize (Hf' c Hc eq_refl). cbn in Hf'. by apply bool_decide_eq_false in Hf'.
Qed.

(** A handler run with nobody else at the database, whose checks of a password
    come back. *)
Fixpoint answers_alone {A} (p : door (F := unit) A) (w : world) (a : A) (w' : world) : Prop :=
  match p with
  | DRet b => a = b /\ w' = w
  | DPanic => False
  | DCall c k =>
      match c in dcall R return (R -> world -> Prop) -> Prop with
      | OnDb c => fun K => exists r w1, exec _ c w r w1 /\ K r w1
      | Blocking b => fun K => K (Some b) w
      | _ => fun _ => False
      end (fun r w1 => answers_alone (k r) w1 a w')
  end.

Lemma answers_bind {A X} (p : door A) (f : A -> door X) w x w' :
  answers_alone (dbind p f) w x w' -> exists a w1, answers_alone p w a w1 /\ answers_alone (f a) w1 x w'.
Proof.
  revert w. induction p as [a| |R c k IH]; intros w Hr; cbn [dbind answers_alone] in Hr |- *; [|done|].
  - by exists a, w.
  - destruct c; try done.
    + destruct Hr as (r & w1 & Hx & Hr). apply IH in Hr as (a & w2 & Ha & Hf). exists a, w2.
      split; [by exists r, w1 | done].
    + by apply IH in Hr.
Qed.

Lemma answers_bind_ok {A X Y} (p : door (result A Y)) (f : A -> door (result X Y)) w r w' :
  answers_alone (dbind_ok p f) w r w' ->
  (exists a w1, answers_alone p w (Ok a) w1 /\ answers_alone (f a) w1 r w') \/
  (exists e, answers_alone p w (Err e) w' /\ r = Err e).
Proof.
  intros ([a|e] & w1 & Hp & Hf)%answers_bind; [left; by exists a, w1|]. destruct Hf as [-> ->]. right. by exists e.
Qed.

Lemma answers_embed {A} (p : prog A) w a w' : answers_alone (embed p) w a w' -> alone p w a w'.
Proof.
  revert w. induction p as [b| |R c k IH]; intros w Hr; cbn [embed answers_alone] in Hr; [|done|].
  - destruct Hr as [-> ->]. constructor.
  - destruct Hr as (r & w1 & Hx & Hr). econstructor; [exact Hx | by apply IH].
Qed.

(** What checking a password against an account comes to. *)
Definition signs_in (w : world) (email password : text) (u : User.t) : Prop :=
  forall dummy_hash r w2,
    answers_alone (Login.authenticate_user verify_password dummy_hash email password) w r w2 ->
    (exists e, r = Err (Login.Unavailable e)) \/ r = Err (Login.RoleNotFound u.(User.id) u.(User.roleKey)) \/
    exists who, r = Ok who /\ Login.subject who = u.(User.id).

Lemma right_password_signs_in w email password u hash :
  rows_ok w -> user_of w email u -> u.(User.active) = true -> credential_of_user w u.(User.id) hash ->
  verify_password password hash = true -> signs_in w email password u.
Proof.
  intros Hok Hu Ha Hc Hv dummy r w2 Hr.
  apply answers_bind_ok in Hr as [(found & w1 & Hf%answers_embed & Hr)|(e & Hf%answers_embed & ->)].
  2: { destruct (found_at_sign_in _ _ _ _ _ _ Hok Hu Ha Hc Hf) as [[e' [= ->]]|[=]]. left. by exists e'. }
  destruct (found_at_sign_in _ _ _ _ _ _ Hok Hu Ha Hc Hf) as [[e' [=]]|[= ->]].
  cbn [ask dbind answers_alone] in Hr. rewrite Hv in Hr. cbn [default Login.conclude negb] in Hr.
  apply answers_bind_ok in Hr as [(role & w3 & _ & Hr)|(e & Hf'%answers_embed & ->)].
  - right. destruct role as [role|]; destruct Hr as [-> _]; [right; by eexists | by left].
  - left. apply alone_map_err in Hf' as (r0 & _ & Hm). destruct r0; [done|]. injection Hm as ->. by eexists.
Qed.

(** C29. The password that the command leaves in the file is the one that signs
    the person in: when provisioning a user with a password succeeds, with
    nobody else writing, the file is new and holds the generated password of 24
    characters, there is exactly one account with the address, whether it was
    made now or was there, its only credential is the hash of that very
    password, and checking that address and that password then admits the
    account if it is active, unless the database fails or its role is missing. *)
Theorem password_signs_in loaded args file draws salt disk removed fs w issued fs' w' :
  rows_ok w -> indexes_hold w TUser -> indexes_hold w TCredential -> arg_password_out args = Some file ->
  alone (provision_user_command loaded args draws salt disk removed fs) w (Ok (Some issued), fs') w' ->
  exists password hash u, password = generate_password 24 draws /\
    fs !! file = None /\ fs' = <[file := password]> fs /\
    user_of w' (arg_email args) u /\
    hash_password salt password = Ok hash /\ credential_of_user w' u.(User.id) hash /\
    (u.(User.active) = true -> signs_in w' (arg_email args) password u).
Proof.
  intros Hok Hui Hci Hfile Hr. pose proof (alone_exec_rows _ _ _ _ Hok Hr) as Hok'.
  unfold provision_user_command in Hr. rewrite Hfile in Hr.
  match type of Hr with alone (match ?a with _ => _ end) _ _ _ => destruct a as [[]|e] end;
    [|by apply alone_inv in Hr as [[=] _]].
  apply alone_bind in Hr as (created & w1 & Hc & Hr). pose proof (alone_exec_rows _ _ _ _ Hok Hc) as Hok1.
  apply alone_map_err in Hc as (r0 & Hc%alone_do%tx_outcome & Hm).
  destruct created as [created|e]; [|by apply alone_inv in Hr as [[=] _]].
  destruct r0 as [o|]; [|done]. injection Hm as <-.
  destruct Hc as [(o & Hc & Ho)|[[=] _]]. rewrite <- (Ho created eq_refl) in Hc.
  apply create_user_run in Hc; [|done|done].
  apply alone_bind in Hr as (uid & w2 & Hid & Hr).
  destruct uid as [[user_id|]|e]; [|by apply alone_inv in Hr as [[=] _]..].
  apply alone_bind in Hr as ([r fs1] & w3 & Hi & Hr). apply alone_inv in Hr as [Hr ->].
  injection Hr as Hr ->. destruct r as [i|]; [|done]. injection Hr as ->.
  assert (exists u, user_id = u.(User.id) /\ user_of w2 (arg_email args) u /\ rows_ok w2 /\ indexes_hold w2 TCredential)
    as (u & -> & Hu & Hok2 & Hci2).
  { destruct Hc as [[-> ->]|(u & -> & Hu & _ & Hfr)].
    - apply alone_bind_ok in Hid as [(found & w4 & Hf & [He ->]%alone_inv)|(e & _ & [=])].
      apply alone_map_err in Hf as (r1 & Hf & Hm). apply alone_first_row in Hf as [-> Hf]; [|by intros n [= <-]].
      destruct r1 as [found1|]; [|done]. injection Hm as <-. specialize (Hf found eq_refl).
      destruct found as [u|]; [|done]. injection He as ->. destruct Hf as (Hs & Hw & _). cbn in Hw.
      apply bool_decide_eq_true in Hw. exists u. split_and!; try done. rewrite <- Hw. by apply unique_user.
    - apply alone_inv in Hid as [[= ->] ->]. exists u. split_and!; try done.
      unfold indexes_hold. by rewrite Hfr. }
  destruct (issue_alone _ _ _ _ _ _ _ _ _ _ _ _ Hok2 Hci2 Hi) as (Hfr & Hout & -> & hash & Hh & Hcred).
  exists (generate_password 24 draws), hash, u. split_and!; try done.
  - by apply (user_of_frame w2); [apply Hfr|].
  - intros Ha. eapply right_password_signs_in; try done.
    + by apply (user_of_frame w2); [apply Hfr|].
    + by eapply argon2_verifies.
Qed.

(** A password is never replaced by accident: without [--reset] a user who
    has one keeps it, and no file is written, whatever the command answers. *)
Theorem password_kept draws salt disk removed user_id out fs w r fs' w' c :
  rows_ok w -> w_tables w TCredential !! c.(UserCredential.id) = Some c -> c.(UserCredential.userId) = user_id ->
  alone (issue_password draws salt disk removed user_id out false fs) w (r, fs') w' ->
  w' = w /\ fs' = fs /\ is_ok r = false.
Proof.
  intros Hok Hc Hid Hr. apply alone_bind in Hr as (looked & w1 & Hl & Hr).
  apply alone_first_row in Hl as [-> Hl]; [|apply credential_limit].
  destruct looked as [[x|]|e]; cbn [is_null negb andb] in Hr.
  - by apply alone_inv in Hr as [[= -> ->] ->].
  - specialize (Hl None eq_refl c Hc eq_refl). cbn in Hl. by apply bool_decide_eq_false in Hl.
  - by apply alone_inv in Hr as [[= -> ->] ->].
Qed.


(** ** register-client *)
Lemma alone_again {A} (I : world -> Prop) lost (attempt : prog (result A CratestackError)) n w a w' :
  (forall w r w', I w -> alone attempt w r w' -> I w') -> I w ->
  alone (again n lost attempt) w (Ok a) w' -> exists w1, I w1 /\ alone attempt w1 (Ok a) w'.
Proof.
  intros HI. revert w. induction n as [|n IH]; intros w Hi (r & w1 & Hp & Hr)%alone_bind; destruct r as [x|e].
  - apply alone_inv in Hr as [[= ->] ->]. by exists w.
  - by apply alone_inv in Hr as [[=] _].
  - apply alone_inv in Hr as [[= ->] ->]. by exists w.
  - destruct (lost e); [|by apply alone_inv in Hr as [[=] _]]. apply (IH w1); [by eapply HI | done].
Qed.

(** The same clients and apps as in [w]. *)
Definition same_clients (w w' : world) : Prop :=
  rows_ok w' /\ forall t, t <> TClientKey -> w_tables w' t = w_tables w t.

Lemma registration_alone parsed label client w0 w r w' :
  same_clients w0 w -> alone (do (Tx (ClientKeys.register_body parsed label client ClientKeys.Operator))) w r w' ->
  same_clients w0 w' /\ forall key fresh, r = Ok (key, fresh) ->
    key.(ClientKey.appClientId) = client /\ key.(ClientKey.thumbprint) = pk_thumbprint parsed /\
    key.(ClientKey.revokedAt) = None /\ w_tables w' TClientKey !! key.(ClientKey.id) = Some key.
Proof.
  intros [Hok Hs] Hr. pose proof (alone_exec_rows _ _ _ _ Hok Hr) as Hok'.
  apply alone_do, tx_outcome in Hr as [([key fresh] & Hr & Hb)|[Hno ->]]; [|split; [by split|]; by intros key fresh ->].
  apply client_registration_run in Hr as (Hth & Hrev & Hcl & _ & Hfresh); [|done]. split.
  - split; [done|]. destruct fresh; [|by destruct Hfresh as [-> _]]. destruct Hfresh as (_ & _ & _ & Hf).
    intros t Ht. by rewrite Hf, Hs.
  - intros key' fresh' ->. specialize (Hb _ eq_refl). injection Hb as -> ->. split_and!; try done.
    destruct fresh; [|by destruct Hfresh as [-> ?]]. destruct Hfresh as (-> & _). apply lookup_insert_eq.
Qed.

Lemma found_client_alone client_id w r w' : alone (find_client client_id) w r w' -> w' = w /\
  forall c, r = Ok (Some c) -> w_tables w TAppClient !! c.(AppClient.id) = Some c /\ c.(AppClient.clientId) = client_id.
Proof.
  intros (r0 & Hf & ->)%alone_map_err. apply (alone_first_row (t := TAppClient)) in Hf as [-> Hf]; [|by intros n [= <-]]. split; [done|].
  intros c Hc. destruct r0 as [f|]; [|done]. injection Hc as ->. destruct (Hf _ eq_refl) as (Hs & Hw & _).
  split; [done|]. cbn in Hw. by apply bool_decide_eq_true in Hw.
Qed.

Lemma same_app_ok existing app_id id : same_app existing app_id = Ok id ->
  id = existing.(AppClient.id) /\ existing.(AppClient.appId) = app_id.
Proof. unfold same_app. intros [Ha [= <-]]%guard_Ok. split; [done|]. by apply negb_false_iff, bool_decide_eq_true in Ha. Qed.

(** The client found or made is the app's. *)
Lemma client_alone app_id client_id scopes w id created w' : rows_ok w ->
  alone (create_or_find_client app_id client_id scopes) w (Ok (id, created)) w' ->
  exists c, w_tables w' TAppClient !! id = Some c /\ c.(AppClient.appId) = app_id /\ c.(AppClient.clientId) = client_id.
Proof.
  intros Hok Hr. assert (forall w c, w_tables w TAppClient !! c.(AppClient.id) = Some c /\ c.(AppClient.clientId) = client_id ->
    forall r w', alone (Ret (let? id := same_app c app_id in Ok (id, false))) w r w' -> r = Ok (id, created) ->
    exists c, w_tables w' TAppClient !! id = Some c /\ c.(AppClient.appId) = app_id /\ c.(AppClient.clientId) = client_id) as Hsame.
  { intros w0 c [Hs Hn] r w1 [-> ->]%alone_inv Hx. apply rbind_Ok in Hx as (i & [-> Ha]%same_app_ok & [= <- _]).
    by exists c. }
  apply alone_bind_ok in Hr as [(found & w1 & [-> Hf]%found_client_alone & Hr)|(e & _ & [=])].
  destruct found as [c|]; [by eapply Hsame; [apply Hf|..]|].
  case_bool_decide; [by apply alone_inv in Hr as [[=] _]|]. unfold lift in Hr.
  destruct (map_err _ (pack scopes)) as [packed|]; cbn [pbind_ok pbind] in Hr; [|by apply alone_inv in Hr as [[=] _]].
  apply alone_bind in Hr as (r & w1 & Hx%alone_do & Hr).
  destruct (exec_Create _ _ _ _ _ Hx) as [[-> Hno]|(i & now & Hf' & Hw & Hb & _)].
  - destruct r as [c|e]; [done|]. case_bool_decide; [|by apply alone_inv in Hr as [[=] _]].
    apply alone_bind_ok in Hr as [(found & w2 & [-> Hf2]%found_client_alone & Hr)|(e' & _ & [=])].
    destruct found as [c|]; [by eapply Hsame; [apply Hf2|..] | by apply alone_inv in Hr as [[=] _]].
  - pose proof (written_row _ _ _ _ Hw) as Hrow. destruct r as [c|e].
    + apply alone_inv in Hr as [[= -> ->] ->]. rewrite (Hb c eq_refl). eexists.
      split; [rewrite Hrow; apply lookup_insert_eq | done].
    + case_bool_decide; [|by apply alone_inv in Hr as [[=] _]].
      apply alone_bind_ok in Hr as [(found & w2 & [-> Hf2]%found_client_alone & Hr)|(e' & _ & [=])].
      destruct found as [c|]; [by eapply Hsame; [apply Hf2|..] | by apply alone_inv in Hr as [[=] _]].
Qed.

(** [register-client] registers a key for the app that was named and for no
    other: the key belongs to a client of an active app with that slug, under
    the name made of slug and client name; it is stored, live, and its
    thumbprint is that of the public key given. *)
Theorem register_client_own_app loaded app_slug public_key client_name label scopes role w key created w' :
  rows_ok w ->
  alone (register_client_command loaded app_slug public_key client_name label scopes role) w (Ok (key, created)) w' ->
  exists app c parsed, w_tables w TApp !! app.(App.id) = Some app /\ app.(App.slug) = app_slug /\ app.(App.active) = true /\
    w_tables w' TAppClient !! key.(ClientKey.appClientId) = Some c /\ c.(AppClient.appId) = app.(App.id) /\
    c.(AppClient.clientId) = client_id_for app_slug client_name /\
    w_tables w' TClientKey !! key.(ClientKey.id) = Some key /\ key.(ClientKey.revokedAt) = None /\
    ClientKeys.parse_public_key public_key = Ok parsed /\ key.(ClientKey.thumbprint) = pk_thumbprint parsed.
Proof.
  intros Hok Hr. unfold register_client_command, lift in Hr.
  destruct (keypair_admits _ _) as [[]|]; cbn [pbind_ok pbind] in Hr; [|by apply alone_inv in Hr as [[=] _]].
  destruct (negb (operator_role role)); [by apply alone_inv in Hr as [[=] _]|].
  case_bool_decide; [by apply alone_inv in Hr as [[=] _]|].
  match type of Hr with context [match client_name with _ => _ end] =>
    destruct (match client_name with Some name => check_client_name app_slug name | None => Ok tt end) as [[]|] end;
    cbn [pbind_ok pbind] in Hr; [|by apply alone_inv in Hr as [[=] _]].
  destruct (ClientKeys.parse_public_key public_key) as [parsed|] eqn:Hparsed;
    cbn [map_err pbind_ok pbind] in Hr; [|by apply alone_inv in Hr as [[=] _]].
  apply alone_bind_ok in Hr as [(found & w1 & Hf & Hr)|(e & _ & [=])].
  apply alone_map_err in Hf as (r0 & Hf & Hm). apply (alone_first_row (t := TApp)) in Hf as [-> Hf]; [|by intros n [= <-]].
  destruct r0 as [f|]; [|done]. injection Hm as <-. destruct found as [app|]; [|by apply alone_inv in Hr as [[=] _]].
  destruct (Hf _ eq_refl) as (Hs & Hw & _). cbn in Hw. apply bool_decide_eq_true in Hw.
  destruct (App.active app) eqn:Hact; [|by apply alone_inv in Hr as [[=] _]]. cbn [negb] in Hr.
  apply alone_bind_ok in Hr as [([id fresh] & w2 & Hc & Hr)|(e & _ & [=])].
  pose proof (alone_exec_rows _ _ _ _ Hok Hc) as Hok2. apply client_alone in Hc as (c & Hcs & Hca & Hcn); [|done].
  apply alone_bind_ok in Hr as [(key' & w3 & Hk & [Hkey ->]%alone_inv)|(e & _ & [=])]. injection Hkey as <- _.
  apply alone_map_err in Hk as (r1 & Hk & Hm). destruct r1 as [key1|]; [|done]. injection Hm as <-.
  unfold ClientKeys.register, lift in Hk. cbn [rk_publicKey rk_label rk_appClientId fst] in Hk. rewrite Hparsed in Hk.
  cbn [pbind_ok pbind] in Hk.
  destruct (clean_label _ _) as [lbl|]; cbn [pbind_ok pbind] in Hk; [|by apply alone_inv in Hk as [[=] _]].
  apply alone_bind_ok in Hk as [([key2 fr] & w4 & Ha & [Hk ->]%alone_inv)|(e & _ & [=])]. injection Hk as <-. cbn [fst] in *.
  apply (alone_again (same_clients w2)) in Ha as (w5 & Hi & Ha);
    [| intros ? ? ? Hi Hx; by apply (registration_alone _ _ _ _ _ _ _ Hi Hx) | by split].
  destruct (registration_alone _ _ _ _ _ _ _ Hi Ha) as [[_ Hsame] Hk]. destruct (Hk _ _ eq_refl) as (-> & Hth & Hrev & Hst).
  exists app, c, parsed. split_and!; try done. by rewrite Hsame.
Qed.

End Facts.

(** ** Witnesses *)
Module CommandExamples.

#[local] Existing Instance demo_errors.
#[local] Existing Instance OpExamples.demo_key_lib.
#[local] Existing Instance demo_debug.
#[local] Existing Instance demo_cose.
#[local] Existing Instance demo_reqwest.
#[local] Existing Instance DoorRef.demo_hosts.
#[local] Existing Instance SettingsExamples.demo_numbers.
#[local] Existing Instance SettingsExamples.demo_source.

Definition config : Config := SettingsExamples.loaded_config Gateway PlaceholderExamples.gateway_env.

Definition ada : ProvisionUserArgs :=
  mkProvisionUserArgs (lit "ada@example.cm") (lit "Ada") (lit "viewer") (Some (lit "/run/ada")) false.

(** A hash that shows the password it is of. *)
Definition demo_argon2 : Argon2Lib.
Proof.
  refine {| argon2_hash _ password := Ok (lit "$argon2id$" ++ password);
            argon2_verify password hash := bool_decide (hash = lit "$argon2id$" ++ password) |}.
  intros _ password hash [= <-]. by apply bool_decide_eq_true.
Defined.

#[local] Existing Instance demo_argon2.
#[local] Existing Instance DoorRef.demo_op.

Definition demo_draws (i : nat) : Z := 97 + Z.of_nat i.

Definition provision_ada :=
  provision_user_command (Ok config) ada demo_draws (lit "salt") Written true ∅.

Definition ada_run := ref_run accepting provision_ada [] empty_world.

Definition ada_password : text := lit "abcdefghijklmnopqrstuvwx".

Definition ada_files : gmap text text := <[lit "/run/ada" := ada_password]> ∅.

Lemma ada_ran : alone (B := ref_backend accepting) provision_ada empty_world (Ok (Some PasswordSet), ada_files) ada_run.2.
Proof. apply OpExamples.ref_alone. vm_compute. reflexivity. Qed.

Lemma empty_indexes t : indexes_hold empty_world t.
Proof. intros id1 id2 a b Ha. cbn in Ha. by rewrite lookup_empty in Ha. Qed.

Lemma password_signs_in_witness :
  ada_files !! lit "/run/ada" = Some ada_password /\
  exists u, user_of ada_run.2 (lit "ada@example.cm") u /\
    (u.(User.active) = true ->
     signs_in (B := ref_backend accepting) ada_run.2 (lit "ada@example.cm") (generate_password 24 demo_draws) u).
Proof.
  destruct (password_signs_in (B := ref_backend accepting) (Ok config) ada (lit "/run/ada") demo_draws (lit "salt")
    Written true ∅ empty_world PasswordSet ada_files ada_run.2
    (proj1 empty_world_ok) (empty_indexes TUser) (empty_indexes TCredential) eq_refl ada_ran)
    as (password & hash & u & -> & _ & _ & Hu & _ & _ & Hs).
  split; [apply lookup_insert_eq|]. by exists u.
Defined.

(** A user who has a password. *)
Definition old_credential : UserCredential.t := UserCredential.mk (lit "cr1") 0 0 (lit "u1") (lit "$argon2id$old").
Definition held_world : world := insert_row empty_world TCredential old_credential.

Definition reissue := issue_password demo_draws (lit "salt") Written true (lit "u1") (lit "/run/u1") false ∅.
Definition reissue_run := ref_run accepting reissue [] held_world.

Lemma password_kept_witness : reissue_run.2 = held_world.
Proof.
  assert (exists r fs, alone (B := ref_backend accepting) reissue held_world (r, fs) reissue_run.2) as (r & fs & Hr).
  { do 2 eexists. apply OpExamples.ref_alone. vm_compute. reflexivity. }
  exact (proj1 (password_kept (B := ref_backend accepting) demo_draws (lit "salt") Written true (lit "u1")
    (lit "/run/u1") ∅ held_world r fs reissue_run.2 old_credential
    (proj1 (insert_row_ok _ _ _ empty_world_ok)) ltac:(vm_compute; reflexivity) eq_refl Hr)).
Defined.



(** A key for the pairing client of an app. *)
Definition register_pairing :=
  register_client_command (Some (Ok config)) (lit "billing") (repeat 65 32) (Some (lit "pairing")) None
    [lit "sms:send"] (lit "owner").
Definition register_run := ref_run accepting register_pairing [] OpExamples.app_world.

Lemma register_client_own_app_witness :
  exists key c, w_tables register_run.2 TClientKey !! key.(ClientKey.id) = Some key /\
    w_tables register_run.2 TAppClient !! key.(ClientKey.appClientId) = Some c /\
    c.(AppClient.clientId) = lit "appc_billing_pairing".
Proof.
  assert (exists key created, alone (B := ref_backend accepting) register_pairing OpExamples.app_world
    (Ok (key, created)) register_run.2) as (key & created & Hr).
  { do 2 eexists. apply OpExamples.ref_alone. vm_compute. reflexivity. }
  destruct (register_client_own_app (B := ref_backend accepting) (Some (Ok config)) (lit "billing") (repeat 65 32)
    (Some (lit "pairing")) None [lit "sms:send"] (lit "owner") OpExamples.app_world key created register_run.2
    (proj1 (insert_row_ok _ _ _ empty_world_ok)) Hr) as (app & c & parsed & _ & _ & _ & Hc & _ & Hn & Hk & _).
  exists key, c. split; [exact Hk|]. split; [exact Hc|]. rewrite Hn. vm_compute. reflexivity.
Defined.

End CommandExamples.
